(* ===== verification/_CoqProject ===== *)
-Q . S2P
Prelude.v
KString.v
User.v
Ulib.v
Grep.v
Umalloc.v
UmallocProofs.v
Programs.v
ProgramsProofs.v
PrimesProofs.v
Sh.v
ShProofs.v
ShRoundtrip.v
Grind.v
UtBase.v
UtMem.v
UtProc.v
UtFile.v
Usertests.v
UsertestsProofs.v
UtPipe.v
UtMalloc.v
Spinlock.v
Riscv.v
Kalloc.v
Vm.v
VmInv.v
VmProofs.v
VmUser.v
VmFree.v
VmCopy.v
VmTyped.v
Proc.v
SleepWakeup.v
Sleeplock.v
Bio.v
BioInv.v
BioProofs.v
Log.v
LogSpec.v
LogProofs.v
LogTxn.v
Fs.v
FsTxn.v
FsAlloc.v
FsProofs.v
FsFile.v
FsRw.v
FsWrite.v
FsTheorems.v
FsTrunc.v
FsDir.v
Mkfs.v
MkfsProofs.v
MkfsImage.v
FsInit.v
Pipe.v
PipeProofs.v
Uart.v
Console.v
ConsoleProofs.v
ConsoleInput.v
PrintfProofs.v
File.v
ProcLife.v
Initcode.v
Exec.v
Syscall.v
Sysfile.v
Sysproc.v
Virtio.v
VirtioProofs.v
VirtioDisk.v
Asm.v
Trap.v
