(* ===== verification/Prelude.v ===== *)
(** * A verification library for the xv6 kernel and its user programs

    ** The program

    src/kernel is xv6, a small Unix for RISC-V; src/user has its library, its
    shell and commands, the programs of the utilities lab (sleep, pingpong,
    primes, find, xargs) and the test suite usertests; src/mkfs makes the image
    of the file system.  The kernel is layered, and so is its state here: each
    layer is a record that contains the one below it,
<<
      lks (spin locks, interrupts)  <  kmst (memory, free pages)  <  pst (processes)
      <  sst (sleep locks)  <  bst (buffers, disk)  <  lst (log)  <  fsst (inodes)
      <  pipes, console, open files, traps
>>
    A C function is a function in the monad [M] of this file: it returns, panics,
    goes to sleep in sched(), spins on a lock or runs out of fuel.  A function of
    a lower layer is lifted with [↑].  A function that sleeps ends in [Asleep]; what
    it does when it is scheduled again is a definition of its own, named *_back
    (or *_done, *_yielded), and whatever the rest of the system does in between is
    the difference between the state where the one ends and the other starts.
    User programs (User) run against an environment that answers their system
    calls and are known by the trace of their calls.

    ** What models what

    Shared: Prelude (the monad, weakest preconditions [wp] and [wps], tactics,
    machine integers, rings), KString (physical memory as bytes; kernel/string.c).

    Kernel, one file per component:
    - Spinlock: spinlock.c, myproc and cpuid; Module Smp has the lock of several
      CPUs as a step relation.
    - Riscv: the address and PTE macros of riscv.h and memlayout.h.
    - Kalloc: kalloc.c.  Vm: all of vm.c, on page tables in physical memory.
    - Proc, ProcLife: proc.c; SleepWakeup has its sleep and wakeup on several
      CPUs as a step relation.  Sleeplock: sleeplock.c.
    - Bio: bio.c; the disk is a map of blocks and the sequence of writes made.
    - Log: log.c.  Fs: fs.c.  File: file.c and pipealloc.  Pipe: pipe.c.
    - Uart, Console: uart.c, console.c, printf.c.
    - Exec: exec.c.  Syscall, Sysfile, Sysproc: the system calls.
    - Virtio: virtio_disk.c.  Trap: trap.c, plic.c, start.c, main.c.
    - Asm: trampoline.S, kernelvec.S, swtch.S, entry.S and the stubs of usys.pl,
      as instructions run on registers and memory.
    - Initcode: user/initcode.S, assembled and run; the array initcode of proc.c.
    - Mkfs: mkfs/mkfs.c.

    User space: Ulib (ulib.c, printf.c), Umalloc (umalloc.c), Grep, Sh, Grind, and
    Programs with a Module for each of the smaller programs.  usertests.c is in
    UtMem, UtProc and UtFile (the tests) and Usertests (the table, run and main);
    UtBase has what the tests share.

    ** What the theorems show

    - Memory.  VmInv states who owns each page of physical memory; VmProofs,
      VmUser, VmFree and VmCopy show what every operation of vm.c does, also when
      memory runs out, and VmTyped composes them: any sequence of operations on
      any number of address spaces keeps memory well typed, isolated and without
      leaks.  Kalloc: kinit frees every page once.
    - Disk.  VirtioProofs has the invariant of the rings that the driver shares
      with the device; VirtioDisk shows by a simulation that driver and device,
      interleaved in any way, implement the atomic disk of Bio and that every
      request is completed.
    - Log and file system.  BioInv and BioProofs: the list of the
      buffer cache stays a list, and its buffers agree with the disk.  LogSpec states the promise of the log, LogProofs and
      LogTxn prove it: an operation is atomic under a crash at any write, and
      recovery repairs the disk even if it is interrupted.  FsTxn, FsAlloc,
      FsFile, FsRw, FsWrite, FsTheorems, FsTrunc: files are byte sequences under
      readi, writei and itrunc; FsDir: directories are finite maps; FsProofs: the
      formats on disk and path names.  MkfsProofs, MkfsImage, FsInit: the image
      of mkfs is a file system that the kernel boots from.
    - Pipes, console, printing: PipeProofs (a bounded queue), ConsoleInput (the
      line editor), ConsoleProofs (the output stream), PrintfProofs.
    - Traps: Asm shows that traps, interrupts and context switches restore every
      register.
    - Several CPUs: Spinlock shows the mutual exclusion of the lock, SleepWakeup
      that sleep and wakeup lose no wakeup and do not deadlock.
    - User programs.  ShProofs, ShRoundtrip: the parser of the shell inverts
      printing.  Grep: its matcher decides the language of a pattern, and it
      prints the matching lines.  UmallocProofs: malloc and free.  PrimesProofs,
      ProgramsProofs, Grind: the smaller programs.  UsertestsProofs: every test
      ends, and the verdict of the test runner is right; UtPipe and UtMalloc: what
      pipe1 and mem check.  Initcode: the first process execs /init.

    Theorems that show a flaw of the program are there as well, such as
    LogTxn.three_operations_too_big and UtPipe.wrong_byte_passes.

    ** Bounds

    Loops over arrays and ranges run over [seq] or [for_range], which are total.
    Other loops take fuel, and the theorems show that it is enough: 3 levels for
    page tables, NBUF for the list of buffers, NUM for chains of descriptors and
    for the used ring (at most 2 requests fit into it), the number of pages or
    blocks that a transfer can touch for copyin, copyout, readi and writei, the
    length of the path for namex, of the line for the parser of the shell, of the
    free list for malloc and free, 32 digits for a 32-bit number, 512 levels for
    find (its path buffer has 512 bytes).  Loops of user programs that end with
    the input run as long as the environment answers.

    ** Not modelled

    - Several CPUs run at once only in Spinlock.Smp and SleepWakeup, which takes
      the locks as given and has one channel; wait(), which sleeps with its own
      p->lock, is not among the callers there.  Elsewhere a function runs
      from one point where the CPU can be taken away to the next; what happens in
      between is left open by the theorems on the *_back parts, and made explicit
      as a step relation in VirtioDisk.
    - The device side of the disk, the UART and the PLIC is outside the program:
      its answers are parameters.  A transfer of the disk happens at one instant.
    - The CSR accessors of riscv.h read and write fields of the machine state of
      Trap; the instructions of C code are not modelled, so neither are
      stack overflow and alignment.
    - Faults of instruction fetch in user space; usertests sees memory accesses
      as events that the environment answers.
    - ramdisk.c (not built, and it does not fit struct buf), defs.h, types.h and
      date.h (declarations), kernel.ld, usys.S (generated from usys.pl, which is
      modelled), the Makefile and the grading scripts.
    - malloc in the shell is taken to succeed, and what mkfs prints is left out. *)

From Stdlib Require Import ZArith Lia Ascii.
From stdpp Require Import base list gmap strings.

#[global] Open Scope Z_scope.

(** ** Outcomes of kernel code

    A C function that runs on a state of type [S] either returns, panics
    (kernel/printf.c), is put to sleep by [sleep()], or spins on a lock that
    another CPU holds.  [Fuel] is the outcome of a loop whose bound was too
    small; the theorems about loops show that it does not occur. *)
Inductive result (S A : Type) : Type :=
| Ret (a : A) (s : S)
| Panic (msg : string) (s : S)
| Asleep (s : S)
| Spin (s : S)
| Fuel (s : S).
Arguments Ret {S A} a s.
Arguments Panic {S A} msg s.
Arguments Asleep {S A} s.
Arguments Spin {S A} s.
Arguments Fuel {S A} s.

(** The state at the end. *)
Definition final {S A} (r : result S A) : S :=
  match r with Ret _ s | Panic _ s | Asleep s | Spin s | Fuel s => s end.

(** Computations over a state. *)
Definition M (S A : Type) : Type := S -> result S A.

#[global] Instance M_ret {S} : MRet (M S) := fun A a s => Ret a s.
#[global] Instance M_bind {S} : MBind (M S) := fun A B f m s =>
  match m s with
  | Ret a s' => f a s'
  | Panic msg s' => Panic msg s'
  | Asleep s' => Asleep s'
  | Spin s' => Spin s'
  | Fuel s' => Fuel s'
  end.

Definition get {S} : M S S := fun s => Ret s s.
Definition gets {S A} (f : S -> A) : M S A := fun s => Ret (f s) s.
Definition modify {S} (f : S -> S) : M S unit := fun s => Ret tt (f s).
Definition panic {S A} (msg : string) : M S A := fun s => Panic msg s.
Definition out_of_fuel {S A} : M S A := fun s => Fuel s.
Definition spin {S A} : M S A := fun s => Spin s.
Definition asleep {S A} : M S A := fun s => Asleep s.

(** [if(c) m] with no else branch. *)
Definition when {S} (c : bool) (m : M S unit) : M S unit :=
  if c then m else mret tt.

(** [for(x in l) body], where [body] may leave the enclosing function with a
    value ([Some r]) or go on to the next iteration ([None]). *)
Fixpoint for_each {S I R} (l : list I) (body : I -> M S (option R)) : M S (option R) :=
  match l with
  | [] => mret None
  | x :: l' =>
      r ← body x;
      match r with
      | Some _ => mret r
      | None => for_each l' body
      end
  end.

(** [for(a = lo; a < hi; a += step) body], with early return as in [for_each].
    The bound on the number of iterations is computed from the loop's own
    limits. *)
Fixpoint for_lt {S R} (fuel : nat) (a hi step : Z) (body : Z -> M S (option R))
    : M S (option R) :=
  if a <? hi then
    match fuel with
    | O => out_of_fuel
    | S fuel' =>
        r ← body a;
        match r with
        | Some _ => mret r
        | None => for_lt fuel' (a + step) hi step body
        end
    end
  else mret None.

Definition for_range {S R} (lo hi step : Z) (body : Z -> M S (option R)) : M S (option R) :=
  for_lt (Z.to_nat ((hi - lo + step - 1) / step)) lo hi step body.

(** ** Sub-states

    A component that calls another one has a state that contains the state of
    the other.  [zoom] runs an operation of the inner component. *)
Class Lens (S T : Type) := {
  lget : S -> T;
  lset : T -> S -> S;
  lget_lset : forall t s, lget (lset t s) = t;
  lset_lget : forall s, lset (lget s) s = s;
  lset_lset : forall t t' s, lset t (lset t' s) = lset t s;
}.

#[global] Instance lens_id (S : Type) : Lens S S | 100.
Proof. by exists (fun s => s) (fun t _ => t). Defined.

Definition lens_trans {S T U} (L1 : Lens S T) (L2 : Lens T U) : Lens S U.
Proof.
  refine {| lget s := lget (lget (Lens := L1) s);
            lset u s := lset (Lens := L1) (lset u (lget (Lens := L1) s)) s |}.
  - intros. by rewrite !lget_lset.
  - intros. by rewrite !lset_lget.
  - intros. by rewrite !lget_lset, !lset_lset.
Defined.

Definition zoom {S T A} {L : Lens S T} (m : M T A) : M S A := fun s =>
  match m (lget s) with
  | Ret a t => Ret a (lset t s)
  | Panic msg t => Panic msg (lset t s)
  | Asleep t => Asleep (lset t s)
  | Spin t => Spin (lset t s)
  | Fuel t => Fuel (lset t s)
  end.

Declare Scope xv6_scope.
Delimit Scope xv6_scope with xv6.
Notation "↑ m" := (zoom m) (at level 20, right associativity) : xv6_scope.
#[global] Open Scope xv6_scope.

(** ** Total-correctness weakest preconditions

    [wp m Q s]: from [s] the computation [m] returns (it neither panics, sleeps,
    spins nor runs out of fuel) and its value and final state satisfy [Q]. *)
Definition wp {S A} (m : M S A) (Q : A -> S -> Prop) (s : S) : Prop :=
  match m s with Ret a s' => Q a s' | _ => False end.

#[global] Arguments wp : simpl never.

Section wp_rules.
Context {S : Type}.
Implicit Types s : S.

Lemma wp_ret {A} (a : A) (Q : A -> S -> Prop) s : Q a s -> wp (mret a) Q s.
Proof. done. Qed.

Lemma wp_bind {A B} (m : M S A) (f : A -> M S B) Q s :
  wp m (fun a s' => wp (f a) Q s') s -> wp (m ≫= f) Q s.
Proof. unfold wp, mbind, M_bind. by destruct (m s). Qed.

Lemma wp_bind_inv {A B} (m : M S A) (f : A -> M S B) Q s :
  wp (m ≫= f) Q s -> wp m (fun a s' => wp (f a) Q s') s.
Proof. unfold wp, mbind, M_bind. by destruct (m s). Qed.

Lemma wp_mono {A} (m : M S A) (Q Q' : A -> S -> Prop) s :
  wp m Q s -> (forall a s', Q a s' -> Q' a s') -> wp m Q' s.
Proof. unfold wp. destruct (m s); naive_solver. Qed.

Lemma wp_run {A} (m : M S A) (Q : A -> S -> Prop) s a s' :
  m s = Ret a s' -> Q a s' -> wp m Q s.
Proof. unfold wp. by intros ->. Qed.

Lemma wp_inv {A} (m : M S A) (Q : A -> S -> Prop) s :
  wp m Q s -> exists a s', m s = Ret a s' /\ Q a s'.
Proof. unfold wp. destruct (m s); naive_solver. Qed.

Lemma wp_get Q s : Q s s -> wp get Q s.
Proof. done. Qed.

Lemma wp_gets {A} (f : S -> A) Q s : Q (f s) s -> wp (gets f) Q s.
Proof. done. Qed.

Lemma wp_modify (f : S -> S) Q s : Q tt (f s) -> wp (modify f) Q s.
Proof. done. Qed.

Lemma wp_zoom {T A} {L : Lens S T} (m : M T A) Q s :
  wp m (fun a t => Q a (lset t s)) (lget s) -> wp (↑ m) Q s.
Proof. unfold wp, zoom. by destruct (m (lget s)). Qed.

Lemma wp_final {A} (m : M S A) Q s : wp m Q s -> exists a, m s = Ret a (final (m s)) /\ Q a (final (m s)).
Proof. unfold wp. destruct (m s) as [a s'|? ?|?|?|?]; try done. intros H. by exists a. Qed.

(** Loop rule for [for_each]: the invariant is indexed by the elements still
    to be visited; leaving the loop early establishes the exit condition. *)
Lemma wp_for_each {I R} (Inv : list I -> S -> Prop) (l : list I)
    (body : I -> M S (option R)) Q s :
  Inv l s ->
  (forall x l' s', Inv (x :: l') s' ->
     wp (body x) (fun r s'' => match r with
                               | Some _ => Q r s''
                               | None => Inv l' s''
                               end) s') ->
  (forall s', Inv [] s' -> Q None s') ->
  wp (for_each l body) Q s.
Proof.
  intros H0 Hstep Hend. revert s H0.
  induction l as [|x l IH]; intros s H0; simpl.
  - apply wp_ret. by apply Hend.
  - apply wp_bind. eapply wp_mono; [by apply Hstep|].
    intros [r|] s' H; [by apply wp_ret|by apply IH].
Qed.

(** A loop over the indices of an array that is not left early. *)
Lemma wp_for_seq {R} (Inv : nat -> S -> Prop) n (body : nat -> M S (option R)) Q s :
  Inv 0%nat s ->
  (forall k s', (k < n)%nat -> Inv k s' ->
     wp (body k) (fun r s'' => r = None /\ Inv (Datatypes.S k) s'') s') ->
  (forall s', Inv n s' -> Q None s') ->
  wp (for_each (seq 0 n) body) Q s.
Proof.
  intros H0 Hstep Hend. apply (wp_for_each (fun l s' => exists k, (k <= n)%nat /\ l = seq k (n - k) /\ Inv k s')).
  - exists 0%nat. rewrite Nat.sub_0_r. split_and!; [lia|done..].
  - intros x l' s' (k & Hk & E & HI). destruct (n - k)%nat as [|m] eqn:Em; [done|]. injection E as -> ->.
    eapply wp_mono; [apply Hstep; [lia|done]|]. intros r s'' [-> HI']. exists (Datatypes.S k). split_and!; [lia| |done].
    f_equal. lia.
  - intros s' (k & Hk & E & HI). apply Hend. assert (n - k = 0)%nat as Em by (destruct (n - k)%nat; done).
    by replace n with k by lia.
Qed.

(** Loop rule for [for_range]; the loop always ends. *)
Lemma wp_for_lt {R} (Inv : Z -> S -> Prop) fuel a hi step
    (body : Z -> M S (option R)) Q s :
  0 < step -> (hi - a + step - 1) / step <= Z.of_nat fuel ->
  Inv a s ->
  (forall x s', a <= x < hi -> (x - a) mod step = 0 -> Inv x s' ->
     wp (body x) (fun r s'' => match r with
                               | Some _ => Q r s''
                               | None => Inv (x + step) s''
                               end) s') ->
  (forall x s', a <= x -> hi <= x -> (x - a) mod step = 0 -> Inv x s' -> Q None s') ->
  wp (for_lt fuel a hi step body) Q s.
Proof.
  intros Hst. revert a s. induction fuel as [|fuel IH]; intros a s Hfuel H0 Hbody Hend; simpl.
  - assert (hi <= a) as Ha.
    { destruct (decide (hi <= a)); [done|]. exfalso.
      assert (1 <= (hi - a + step - 1) / step); [|lia].
      apply Z.div_le_lower_bound; lia. }
    rewrite (proj2 (Z.ltb_ge _ _)) by lia.
    apply wp_ret. apply (Hend a); try done. by rewrite Z.sub_diag, Z.mod_0_l by lia.
  - destruct (Z.ltb_spec a hi) as [Hlt|Hge].
    + apply wp_bind. eapply wp_mono.
      { apply Hbody; [lia| |done]. by rewrite Z.sub_diag, Z.mod_0_l by lia. }
      assert (forall x, (x - (a + step)) mod step = 0 -> (x - a) mod step = 0) as Hmod.
      { intros x Hx. replace (x - a) with (x - (a + step) + 1 * step) by lia.
        by rewrite Z.mod_add by lia. }
      intros [r|] s' Hs'; [by apply wp_ret|]. apply IH; [|done|..].
      * replace (hi - a + step - 1) with (hi - (a + step) + step - 1 + 1 * step) in Hfuel by lia.
        rewrite Z.div_add in Hfuel by lia. lia.
      * intros x s'' Hx Hm. apply Hbody; [lia|auto].
      * intros x s'' Hx Hm Hm'. apply Hend; [lia|lia|auto].
    + apply wp_ret. apply (Hend a); try done. by rewrite Z.sub_diag, Z.mod_0_l by lia.
Qed.

Lemma wp_for_range {R} (Inv : Z -> S -> Prop) lo hi step
    (body : Z -> M S (option R)) Q s :
  0 < step ->
  Inv lo s ->
  (forall x s', lo <= x < hi -> (x - lo) mod step = 0 -> Inv x s' ->
     wp (body x) (fun r s'' => match r with
                               | Some _ => Q r s''
                               | None => Inv (x + step) s''
                               end) s') ->
  (forall x s', lo <= x -> hi <= x -> (x - lo) mod step = 0 -> Inv x s' -> Q None s') ->
  wp (for_range lo hi step body) Q s.
Proof. intros. apply (wp_for_lt Inv); try done. lia. Qed.

End wp_rules.

Lemma bind_run {S A B} (m : M S A) (f : A -> M S B) s a s' :
  m s = Ret a s' -> (m ≫= f) s = f a s'.
Proof. unfold mbind, M_bind. by intros ->. Qed.

Lemma bind_panic {S A B} (m : M S A) (f : A -> M S B) s msg s' :
  m s = Panic msg s' -> (m ≫= f) s = Panic msg s'.
Proof. unfold mbind, M_bind. by intros ->. Qed.

Lemma zoom_run {S T A} {L : Lens S T} (m : M T A) s a t :
  m (lget s) = Ret a t -> (↑ m) s = Ret a (lset t s).
Proof. unfold zoom. by intros ->. Qed.

(** Code that may go to sleep: [wps m Q R s] says that [m] either returns with [Q]
    or stops in sched() with [R]; it does not panic, spin or run out of fuel. *)
Definition wps {S A} (m : M S A) (Q : A -> S -> Prop) (R : S -> Prop) (s : S) : Prop :=
  match m s with Ret a s' => Q a s' | Asleep s' => R s' | _ => False end.
#[global] Arguments wps : simpl never.

Section wps_rules.
Context {S : Type}.
Implicit Types s : S.

Lemma wps_wp {A} (m : M S A) Q R s : wp m Q s -> wps m Q R s.
Proof. unfold wp, wps. by destruct (m s). Qed.

Lemma wps_bind {A B} (m : M S A) (f : A -> M S B) Q R s :
  wps m (fun a s' => wps (f a) Q R s') R s -> wps (m ≫= f) Q R s.
Proof. unfold wps, mbind, M_bind. by destruct (m s). Qed.

(** The first computation returns. *)
Lemma wps_seq {A B} (m : M S A) (f : A -> M S B) Q R s :
  wp m (fun a s' => wps (f a) Q R s') s -> wps (m ≫= f) Q R s.
Proof. intros. by apply wps_bind, wps_wp. Qed.

Lemma wps_zoom {T A} {L : Lens S T} (m : M T A) Q R s :
  wps m (fun a t => Q a (lset t s)) (fun t => R (lset t s)) (lget s) -> wps (↑ m) Q R s.
Proof. unfold wps, zoom. by destruct (m (lget s)). Qed.

Lemma wps_mono {A} (m : M S A) (Q Q' : A -> S -> Prop) (R R' : S -> Prop) s :
  wps m Q R s -> (forall a s', Q a s' -> Q' a s') -> (forall s', R s' -> R' s') -> wps m Q' R' s.
Proof. unfold wps. destruct (m s); naive_solver. Qed.
End wps_rules.

(** [mstep]: one step of symbolic execution under [wp]. *)
Ltac mstep :=
  lazymatch goal with
  | |- wp (mret _) _ _ => apply wp_ret
  | |- wp (mbind _ _) _ _ => apply wp_bind
  | |- wp get _ _ => apply wp_get
  | |- wp (gets _) _ _ => apply wp_gets
  | |- wp (modify _) _ _ => apply wp_modify
  | |- wp (zoom _) _ _ => apply wp_zoom
  | |- wp (when _ _) _ _ => unfold when
  end.
(** The same, stopping at calls of other components. *)
Ltac bstep :=
  lazymatch goal with
  | |- wp (mret _) _ _ => apply wp_ret
  | |- wp (mbind _ _) _ _ => apply wp_bind
  | |- wp get _ _ => apply wp_get
  | |- wp (gets _) _ _ => apply wp_gets
  | |- wp (modify _) _ _ => apply wp_modify
  | |- wp (when true _) _ _ => cbn [when]
  | |- wp (when false _) _ _ => cbn [when]
  end.
Ltac bsteps := repeat (bstep; cbn beta).
Ltac msteps := repeat (mstep; cbn beta).

(** Decide the test on a pointer just returned. *)
Ltac null_case := change (0 =? 0) with true; cbn iota.
Ltac nonnull_case := rewrite (proj2 (Z.eqb_neq _ 0)) by done; cbn iota.

(** [lia] with division and remainder by constants. *)
Ltac divlia := Z.to_euclidean_division_equations; lia.

(** ** Machine integers *)

Definition u8 (x : Z) : Z := x mod 2 ^ 8.
Definition u16 (x : Z) : Z := x mod 2 ^ 16.
Definition u32 (x : Z) : Z := x mod 2 ^ 32.
Definition u64 (x : Z) : Z := x mod 2 ^ 64.
(** Conversion to a signed 8-bit, 16-bit or 32-bit integer (two's complement). *)
Definition i8 (x : Z) : Z := (x + 2 ^ 7) mod 2 ^ 8 - 2 ^ 7.
Definition i16 (x : Z) : Z := (x + 2 ^ 15) mod 2 ^ 16 - 2 ^ 15.
Definition i32 (x : Z) : Z := (x + 2 ^ 31) mod 2 ^ 32 - 2 ^ 31.

Definition is_u8 (x : Z) : Prop := 0 <= x < 2 ^ 8.
Definition is_u32 (x : Z) : Prop := 0 <= x < 2 ^ 32.
Definition is_u64 (x : Z) : Prop := 0 <= x < 2 ^ 64.
Definition is_i32 (x : Z) : Prop := - 2 ^ 31 <= x < 2 ^ 31.

Lemma u32_range x : is_u32 (u32 x).
Proof. unfold is_u32, u32. apply Z.mod_pos_bound. lia. Qed.
Lemma u64_range x : is_u64 (u64 x).
Proof. unfold is_u64, u64. apply Z.mod_pos_bound. lia. Qed.
Lemma u8_range x : is_u8 (u8 x).
Proof. unfold is_u8, u8. apply Z.mod_pos_bound. lia. Qed.
Lemma i32_range x : is_i32 (i32 x).
Proof.
  unfold is_i32, i32. pose proof (Z.mod_pos_bound (x + 2 ^ 31) (2 ^ 32)). lia.
Qed.

Lemma u32_small x : is_u32 x -> u32 x = x.
Proof. intros. by apply Z.mod_small. Qed.
Lemma u64_small x : is_u64 x -> u64 x = x.
Proof. intros. by apply Z.mod_small. Qed.
Lemma u8_small x : is_u8 x -> u8 x = x.
Proof. intros. by apply Z.mod_small. Qed.
Lemma i32_small x : is_i32 x -> i32 x = x.
Proof. unfold is_i32, i32. intros. rewrite Z.mod_small; lia. Qed.

Create HintDb xv6.
Create Rewrite HintDb xv6.
#[export] Hint Resolve u8_range u32_range u64_range i32_range : xv6.
#[export] Hint Rewrite @lget_lset @lset_lset : xv6.

(** ** Lists *)

(** The integers [a], [a+1], ..., [a+n-1]. *)
Definition zseq (a : Z) (n : nat) : list Z := (fun i => a + Z.of_nat i) <$> seq 0 n.

Lemma length_zseq a n : length (zseq a n) = n.
Proof. unfold zseq. by rewrite length_fmap, length_seq. Qed.

Lemma zseq_S a n : zseq a (S n) = a :: zseq (a + 1) n.
Proof.
  unfold zseq. rewrite <- cons_seq. simpl. f_equal; [lia|].
  rewrite <- fmap_S_seq, <- list_fmap_compose.
  apply list_fmap_ext. intros i x _. simpl. lia.
Qed.

Lemma elem_of_zseq a n x : x ∈ zseq a n <-> a <= x < a + Z.of_nat n.
Proof.
  unfold zseq. rewrite list_elem_of_fmap. split.
  - intros (i & -> & Hi). apply elem_of_seq in Hi. lia.
  - intros Hx. exists (Z.to_nat (x - a)). rewrite elem_of_seq. lia.
Qed.

Lemma NoDup_zseq a n : NoDup (zseq a n).
Proof.
  unfold zseq. apply NoDup_fmap_2; [|apply NoDup_seq]. intros x y; lia.
Qed.

Lemma zseq_lookup a n k : (k < n)%nat -> zseq a n !! k = Some (a + Z.of_nat k).
Proof. intros Hk. unfold zseq. by rewrite list_lookup_fmap, lookup_seq_lt. Qed.

Lemma zseq_app a n m : zseq a (n + m) = zseq a n ++ zseq (a + Z.of_nat n) m.
Proof.
  revert a. induction n as [|n IH]; intros a; cbn [Nat.add]; [by rewrite Z.add_0_r|].
  rewrite !zseq_S, IH. cbn. do 3 f_equal. lia.
Qed.

Lemma drop_zseq a n k : drop k (zseq a n) = zseq (a + Z.of_nat k) (n - k).
Proof.
  revert a n. induction k as [|k IH]; intros a [|n]; [done|by rewrite Z.add_0_r|done|].
  rewrite zseq_S. cbn [drop Nat.sub]. rewrite IH. f_equal. lia.
Qed.

Lemma take_zseq a n k : take k (zseq a n) = zseq a (k `min` n).
Proof.
  revert a n. induction k as [|k IH]; intros a [|n]; [done..|].
  rewrite zseq_S. cbn [take Nat.min]. by rewrite IH, zseq_S.
Qed.

(** C array access with an integer index. *)
Definition zlookup {A} (l : list A) (i : Z) : option A :=
  if 0 <=? i then l !! Z.to_nat i else None.
Definition zinsert {A} (i : Z) (x : A) (l : list A) : list A :=
  if 0 <=? i then <[Z.to_nat i := x]> l else l.

Lemma length_zinsert {A} i (x : A) l : length (zinsert i x l) = length l.
Proof. unfold zinsert. destruct (0 <=? i); [apply length_insert|done]. Qed.
Lemma Forall_zinsert {A} (P : A -> Prop) i x l : Forall P l -> P x -> Forall P (zinsert i x l).
Proof. unfold zinsert. destruct (0 <=? i); [|done]. intros. by apply Forall_insert. Qed.
Lemma zlookup_zinsert {A} i (x : A) l : 0 <= i < Z.of_nat (length l) -> zlookup (zinsert i x l) i = Some x.
Proof.
  intros Hi. unfold zlookup, zinsert. rewrite (proj2 (Z.leb_le 0 i)) by lia.
  apply list_lookup_insert_eq. lia.
Qed.
Lemma zlookup_zinsert_ne {A} i j (x : A) l : 0 <= i -> i <> j -> zlookup (zinsert i x l) j = zlookup l j.
Proof.
  intros Hi Hne. unfold zlookup, zinsert. rewrite (proj2 (Z.leb_le 0 i)) by lia.
  destruct (Z.leb_spec 0 j); [|done]. apply list_lookup_insert_ne. lia.
Qed.

Lemma zlookup_nonneg {A} (l : list A) i : 0 <= i -> zlookup l i = l !! Z.to_nat i.
Proof. intros. unfold zlookup. by rewrite (proj2 (Z.leb_le 0 i)). Qed.
Lemma zinsert_nonneg {A} i (x : A) l : 0 <= i -> zinsert i x l = <[Z.to_nat i := x]> l.
Proof. intros. unfold zinsert. by rewrite (proj2 (Z.leb_le 0 i)). Qed.

(** ** Ring buffers

    [n] elements of a buffer of [N] places, from the free-running index [a] on. *)
Definition ring (N : Z) (buf : list Z) (a : Z) (n : nat) : list Z :=
  (fun k => default 0 (zlookup buf ((a + Z.of_nat k) mod N))) <$> seq 0 n.

Lemma length_ring N buf a n : length (ring N buf a n) = n.
Proof. unfold ring. by rewrite length_fmap, length_seq. Qed.

Lemma ring_app N buf a n k : ring N buf a (n + k) = ring N buf a n ++ ring N buf (a + Z.of_nat n) k.
Proof.
  unfold ring. rewrite seq_app, fmap_app. f_equal. rewrite Nat.add_0_l.
  rewrite <- (Nat.add_0_r n) at 1. rewrite <- fmap_add_seq, <- list_fmap_compose.
  apply list_fmap_ext. intros i x _. cbn. do 2 f_equal. f_equal. lia.
Qed.

Lemma ring_1 N buf a : ring N buf a 1 = [default 0 (zlookup buf (a mod N))].
Proof. unfold ring. cbn. by rewrite Z.add_0_r. Qed.

Lemma ring_cons N buf a n :
  ring N buf a (S n) = default 0 (zlookup buf (a mod N)) :: ring N buf (a + 1) n.
Proof. change (S n) with (1 + n)%nat. by rewrite ring_app, ring_1. Qed.

Lemma ring_snoc N buf a n :
  ring N buf a (S n) = ring N buf a n ++ [default 0 (zlookup buf ((a + Z.of_nat n) mod N))].
Proof. rewrite <- Nat.add_1_r. by rewrite ring_app, ring_1. Qed.

(** Only the index modulo [N] matters. *)
Lemma ring_mod N buf a a' n : N <> 0 -> a mod N = a' mod N -> ring N buf a n = ring N buf a' n.
Proof.
  intros HN E. unfold ring. apply list_fmap_ext. intros k x _. do 2 f_equal.
  rewrite <- (Z.add_mod_idemp_l a), E, Z.add_mod_idemp_l by done. done.
Qed.

(** Storing at the place after the last element. *)
Lemma ring_insert N buf a n x :
  length buf = Z.to_nat N -> Z.of_nat n < N ->
  ring N (zinsert ((a + Z.of_nat n) mod N) x buf) a (S n) = ring N buf a n ++ [x].
Proof.
  intros Hlen Hn. rewrite ring_snoc. f_equal.
  - unfold ring. apply list_fmap_ext. intros k i Hi. apply lookup_seq in Hi as [-> Hi].
    rewrite zlookup_zinsert_ne; [done|apply Z.mod_pos_bound; lia|]. rewrite Nat.add_0_l.
    intros E. pose proof (Z.div_mod (a + Z.of_nat n) N ltac:(lia)) as E1.
    pose proof (Z.div_mod (a + Z.of_nat k) N ltac:(lia)) as E2. rewrite E in E1.
    set (d := (a + Z.of_nat n) / N - (a + Z.of_nat k) / N).
    assert (Z.of_nat n - Z.of_nat k = N * d) as Ed by (unfold d; lia).
    destruct (Z_le_gt_dec d 0); nia.
  - rewrite zlookup_zinsert; [done|]. rewrite Hlen. pose proof (Z.mod_pos_bound (a + Z.of_nat n) N). lia.
Qed.

(** ** Little-endian fields in a block of bytes *)

(** The unsigned integer in the [w] bytes at offset [off]. *)
Fixpoint get_le (w : nat) (d : list Z) (off : nat) : Z :=
  match w with
  | O => 0
  | S w' => default 0 (d !! off) + 256 * get_le w' d (S off)
  end.

Fixpoint put_le (w : nat) (d : list Z) (off : nat) (v : Z) : list Z :=
  match w with
  | O => d
  | S w' => <[off := v mod 256]> (put_le w' d (S off) (v / 256))
  end.

Lemma length_put_le w d off v : length (put_le w d off v) = length d.
Proof. revert off v. induction w as [|w IH]; intros; cbn; [done|]. by rewrite length_insert. Qed.

Lemma put_le_lookup_ne w d off v i :
  ~ (off <= i < off + w)%nat -> put_le w d off v !! i = d !! i.
Proof.
  revert off v. induction w as [|w IH]; intros off v Hi; cbn; [done|].
  rewrite list_lookup_insert_ne by lia. apply IH. lia.
Qed.

Lemma get_le_ext w d d' off :
  (forall i, (off <= i < off + w)%nat -> d !! i = d' !! i) -> get_le w d off = get_le w d' off.
Proof.
  revert off. induction w as [|w IH]; intros off Hi; cbn; [done|].
  rewrite Hi by lia. f_equal. f_equal. apply IH. intros i Hi'. apply Hi. lia.
Qed.

Lemma get_put_le w d off v :
  (off + w <= length d)%nat -> get_le w (put_le w d off v) off = v mod 256 ^ Z.of_nat w.
Proof.
  revert off v. induction w as [|w IH]; intros off v Hl; cbn [get_le put_le].
  { by rewrite Z.mod_1_r. }
  rewrite list_lookup_insert_eq by (rewrite length_put_le; lia). cbn [default].
  rewrite (get_le_ext _ _ (put_le w d (S off) (v / 256))).
  - rewrite IH by lia. replace (Z.of_nat (S w)) with (1 + Z.of_nat w) by lia.
    rewrite Z.pow_add_r by lia. change (256 ^ 1) with 256. symmetry. apply Z.rem_mul_r; lia.
  - intros i Hi. by rewrite list_lookup_insert_ne by lia.
Qed.

(** Writing one field leaves the others alone. *)
Lemma get_put_le_ne w w' d off off' v :
  (off + w <= off' \/ off' + w' <= off)%nat ->
  get_le w (put_le w' d off' v) off = get_le w d off.
Proof. intros Hd. apply get_le_ext. intros i Hi. apply put_le_lookup_ne. lia. Qed.

(** ** Strings *)

(** The bytes of a string literal. *)
Definition str (s : string) : list Z := (fun c => Z.of_N (N_of_ascii c)) <$> String.list_ascii_of_string s.
Definition newline : Z := 10.
Definition slash : Z := 47.

(** The bytes of a char array up to its NUL. *)
Fixpoint until_nul (l : list Z) : list Z :=
  match l with
  | c :: l' => if c =? 0 then [] else c :: until_nul l'
  | [] => []
  end.
