(* ===== verification/KString.v ===== *)
(** * Physical memory and kernel/string.c

    The kernel runs with an identity map of RAM, so a kernel pointer is a
    physical address and memory is a map from addresses to bytes.  [rd] and
    [wr] are the byte accesses; [ldn] and [stn] the little-endian accesses of
    several bytes (RISC-V is little endian).  The second part is
    kernel/string.c: the routines that move memory work on the shared memory
    (overlap matters to memmove), the ones that scan strings work on a pointer
    seen as the function from offsets to the bytes there. *)

From Stdlib Require Import ZArith Lia.
From stdpp Require Import base list gmap strings.
From S2P Require Import Prelude.

(** ** Memory *)

Abbreviation memory := (gmap Z Z).

Definition rd (m : memory) (a : Z) : Z := u8 (default 0 (m !! a)).
Definition wr (m : memory) (a v : Z) : memory := <[a := u8 v]> m.

Fixpoint ldn (n : nat) (m : memory) (a : Z) : Z :=
  match n with
  | O => 0
  | S n' => rd m a + 256 * ldn n' m (a + 1)
  end.

Fixpoint stn (n : nat) (m : memory) (a v : Z) : memory :=
  match n with
  | O => m
  | S n' => stn n' (wr m a v) (a + 1) (v / 256)
  end.

Definition ld32 := ldn 4.
Definition st32 := stn 4.
Definition ld64 := ldn 8.
Definition st64 := stn 8.

(** The [n] bytes at [a], and storing a list of bytes at [a]. *)
Definition rd_bytes (m : memory) (a : Z) (n : nat) : list Z := rd m <$> zseq a n.

Fixpoint wr_bytes (m : memory) (a : Z) (l : list Z) : memory :=
  match l with
  | [] => m
  | b :: l' => wr_bytes (wr m a b) (a + 1) l'
  end.

#[global] Arguments ld64 : simpl never.
#[global] Arguments st64 : simpl never.
#[global] Arguments ld32 : simpl never.
#[global] Arguments st32 : simpl never.
#[global] Arguments rd : simpl never.
#[global] Arguments wr : simpl never.

Lemma u8_idemp x : u8 (u8 x) = u8 x.
Proof. apply u8_small, u8_range. Qed.

Lemma rd_range m a : is_u8 (rd m a).
Proof. apply u8_range. Qed.

Lemma rd_wr m a v b : rd (wr m a v) b = if decide (a = b) then u8 v else rd m b.
Proof.
  unfold rd, wr. rewrite lookup_insert. case_decide; simpl; [apply u8_idemp|done].
Qed.

Lemma rd_wr_eq m a v : rd (wr m a v) a = u8 v.
Proof. rewrite rd_wr. by rewrite decide_True. Qed.

Lemma rd_wr_ne m a v b : a <> b -> rd (wr m a v) b = rd m b.
Proof. intros. rewrite rd_wr. by rewrite decide_False. Qed.

Lemma rd_stn_other n m a v b : ~ (a <= b < a + Z.of_nat n) -> rd (stn n m a v) b = rd m b.
Proof.
  revert m a v. induction n as [|n IH]; intros m a v Hb; simpl; [done|].
  rewrite IH by lia. apply rd_wr_ne. lia.
Qed.

Lemma ldn_ext n m m' a :
  (forall b, a <= b < a + Z.of_nat n -> rd m b = rd m' b) -> ldn n m a = ldn n m' a.
Proof.
  revert a. induction n as [|n IH]; intros a H; simpl; [done|].
  rewrite (H a) by lia. rewrite (IH (a + 1)); [done|]. intros; apply H; lia.
Qed.

Lemma ldn_range n m a : 0 <= ldn n m a < 256 ^ Z.of_nat n.
Proof.
  revert a. induction n as [|n IH]; intros a; simpl ldn; [lia|].
  specialize (IH (a + 1)). pose proof (rd_range m a) as R. unfold is_u8 in R.
  rewrite Nat2Z.inj_succ, Z.pow_succ_r by lia. lia.
Qed.

Lemma ldn_stn_eq n m a v : ldn n (stn n m a v) a = v mod 256 ^ Z.of_nat n.
Proof.
  revert m a v. induction n as [|n IH]; intros m a v; simpl ldn; simpl stn.
  - by rewrite Z.mod_1_r.
  - rewrite IH, rd_stn_other, rd_wr_eq by lia.
    rewrite Nat2Z.inj_succ, Z.pow_succ_r by lia. unfold u8.
    rewrite Z.rem_mul_r by lia. change (2 ^ 8) with 256. lia.
Qed.

Lemma ldn_stn_other n k m a v b :
  b + Z.of_nat n <= a \/ a + Z.of_nat k <= b -> ldn n (stn k m a v) b = ldn n m b.
Proof. intros. apply ldn_ext. intros. apply rd_stn_other. lia. Qed.

Lemma ld64_range m a : is_u64 (ld64 m a).
Proof. apply (ldn_range 8). Qed.

Lemma ld64_st64_eq m a v : is_u64 v -> ld64 (st64 m a v) a = v.
Proof. intros. unfold ld64, st64. rewrite ldn_stn_eq. by apply Z.mod_small. Qed.

Lemma ld64_st64_other m a v b :
  b + 8 <= a \/ a + 8 <= b -> ld64 (st64 m a v) b = ld64 m b.
Proof. intros. apply ldn_stn_other. lia. Qed.

Lemma rd_st64_other m a v b : ~ (a <= b < a + 8) -> rd (st64 m a v) b = rd m b.
Proof. intros. apply rd_stn_other. lia. Qed.

Lemma ld64_ext m m' a :
  (forall b, a <= b < a + 8 -> rd m b = rd m' b) -> ld64 m a = ld64 m' a.
Proof. intros. by apply ldn_ext. Qed.

Lemma rd_wr_bytes m a l b :
  rd (wr_bytes m a l) b =
  if decide (a <= b < a + Z.of_nat (length l))
  then u8 (default 0 (l !! Z.to_nat (b - a))) else rd m b.
Proof.
  revert m a. induction l as [|x l IH]; intros m a; simpl wr_bytes.
  - rewrite decide_False by (simpl; lia). done.
  - rewrite IH. simpl length. destruct (decide (b = a)) as [->|Hne].
    + rewrite decide_False by lia. rewrite rd_wr_eq, decide_True by lia.
      by rewrite Z.sub_diag.
    + rewrite rd_wr_ne by lia.
      destruct (decide (a + 1 <= b < a + 1 + Z.of_nat (length l))).
      * rewrite decide_True by lia.
        replace (Z.to_nat (b - a)) with (S (Z.to_nat (b - (a + 1)))) by lia. done.
      * rewrite decide_False by lia. done.
Qed.

Lemma length_rd_bytes m a n : length (rd_bytes m a n) = n.
Proof. unfold rd_bytes. by rewrite length_fmap, length_zseq. Qed.

Lemma lookup_rd_bytes m a n i :
  (i < n)%nat -> rd_bytes m a n !! i = Some (rd m (a + Z.of_nat i)).
Proof.
  intros. unfold rd_bytes, zseq. rewrite !list_lookup_fmap.
  rewrite lookup_seq_lt by lia. done.
Qed.

Lemma rd_bytes_ext m m' a n :
  (forall b, a <= b < a + Z.of_nat n -> rd m b = rd m' b) -> rd_bytes m a n = rd_bytes m' a n.
Proof.
  intros. unfold rd_bytes. apply list_fmap_ext. intros i x Hx.
  apply H, elem_of_zseq, list_elem_of_lookup. eauto.
Qed.

(** ** memset, memcmp, memmove *)

Fixpoint memset_loop (n : nat) (m : memory) (cdst c : Z) : memory :=
  match n with
  | O => m
  | S n' => memset_loop n' (wr m cdst c) (cdst + 1) c
  end.

(** The loop stores [c] converted to char at dst[0], ..., dst[n-1]. *)
Definition memset (m : memory) (dst c n : Z) : memory :=
  memset_loop (Z.to_nat n) m dst c.

Fixpoint memcmp_loop (n : nat) (s1 s2 : nat -> Z) : Z :=
  match n with
  | O => 0
  | S n' =>
      if negb (u8 (s1 O) =? u8 (s2 O)) then u8 (s1 O) - u8 (s2 O)
      else memcmp_loop n' (fun i => s1 (S i)) (fun i => s2 (S i))
  end.

Definition memcmp (v1 v2 : nat -> Z) (n : Z) : Z := memcmp_loop (Z.to_nat n) v1 v2.

(** [*d++ = *s++], [n] times. *)
Fixpoint copy_up (n : nat) (m : memory) (d s : Z) : memory :=
  match n with
  | O => m
  | S n' => copy_up n' (wr m d (rd m s)) (d + 1) (s + 1)
  end.

(** [*--d = *--s], [n] times. *)
Fixpoint copy_down (n : nat) (m : memory) (d s : Z) : memory :=
  match n with
  | O => m
  | S n' => copy_down n' (wr m (d - 1) (rd m (s - 1))) (d - 1) (s - 1)
  end.

Definition memmove (m : memory) (dst src n : Z) : memory :=
  if (src <? dst) && (dst <? src + n)
  then copy_down (Z.to_nat n) m (dst + n) (src + n)
  else copy_up (Z.to_nat n) m dst src.

Definition memcpy (m : memory) (dst src n : Z) : memory := memmove m dst src n.

#[global] Arguments memset : simpl never.
#[global] Arguments memmove : simpl never.

(** ** Strings: a pointer is the function from offsets to bytes *)

Definition at_ (p : nat -> Z) (k : nat) : nat -> Z := fun i => p (k + i)%nat.

Fixpoint strncmp (p q : nat -> Z) (n : nat) : Z :=
  match n with
  | O => 0
  | S n' =>
      if negb (p O =? 0) && (p O =? q O) then strncmp (at_ p 1) (at_ q 1) n'
      else u8 (p O) - u8 (q O)
  end.

(** strncpy stores exactly [n] bytes at its destination: the string up to and
    including its NUL, then zeros. *)
Fixpoint strncpy (t : nat -> Z) (n : nat) : list Z :=
  match n with
  | O => []
  | S n' => if t O =? 0 then 0 :: replicate n' 0 else t O :: strncpy (at_ t 1) n'
  end.

(** [while(--n > 0 && ( *s++ = *t++ ) != 0); *s = 0;]: the bytes stored. *)
Fixpoint safestrcpy_loop (t : nat -> Z) (n : nat) : list Z :=
  match n with
  | O => [0]
  | S n' => if t O =? 0 then [0; 0] else t O :: safestrcpy_loop (at_ t 1) n'
  end.

Definition safestrcpy (t : nat -> Z) (n : Z) : list Z :=
  if n <=? 0 then [] else safestrcpy_loop t (Z.to_nat (n - 1)).

(** [for(n = 0; s[n]; n++)], bounded by [fuel] steps. *)
Fixpoint strlen_loop (fuel : nat) (s : nat -> Z) (n : nat) : option nat :=
  match fuel with
  | O => None
  | S fuel' => if s n =? 0 then Some n else strlen_loop fuel' s (S n)
  end.

Definition strlen (fuel : nat) (s : nat -> Z) : option nat := strlen_loop fuel s 0.

(** ** Correctness of the memory routines *)

Lemma rd_memset m dst c n b :
  rd (memset m dst c n) b = if decide (dst <= b < dst + n) then u8 c else rd m b.
Proof.
  unfold memset. destruct (decide (n < 0)) as [Hn|Hn].
  { replace (Z.to_nat n) with O by lia. simpl. by rewrite decide_False by lia. }
  remember (Z.to_nat n) as k eqn:Hk. replace n with (Z.of_nat k) by lia. clear Hk Hn n.
  revert m dst. induction k as [|k IH]; intros m dst; simpl.
  - by rewrite decide_False by lia.
  - rewrite IH, rd_wr. destruct (decide (dst + 1 <= b < dst + 1 + Z.of_nat k)).
    + by rewrite decide_True by lia.
    + destruct (decide (dst = b)) as [->|].
      * by rewrite decide_True by lia.
      * by rewrite decide_False by lia.
Qed.

Lemma rd_copy_up n m d s b :
  ~ (s < d < s + Z.of_nat n) ->
  rd (copy_up n m d s) b =
  if decide (d <= b < d + Z.of_nat n) then rd m (s + (b - d)) else rd m b.
Proof.
  revert m d s. induction n as [|n IH]; intros m d s Hov; simpl.
  - by rewrite decide_False by lia.
  - rewrite IH by lia. destruct (decide (b = d)) as [->|Hne].
    + rewrite decide_False by lia. rewrite rd_wr_eq, decide_True by lia.
      rewrite u8_small by apply rd_range. f_equal; lia.
    + destruct (decide (d + 1 <= b < d + 1 + Z.of_nat n)).
      * rewrite decide_True by lia. rewrite rd_wr_ne by lia. f_equal; lia.
      * rewrite decide_False by lia. by rewrite rd_wr_ne by lia.
Qed.

Lemma rd_copy_down n m d s b :
  s <= d ->
  rd (copy_down n m d s) b =
  if decide (d - Z.of_nat n <= b < d) then rd m (s + (b - d)) else rd m b.
Proof.
  revert m d s. induction n as [|n IH]; intros m d s Hov; simpl.
  - by rewrite decide_False by lia.
  - rewrite IH by lia. destruct (decide (b = d - 1)) as [->|Hne].
    + rewrite decide_False by lia. rewrite rd_wr_eq, decide_True by lia.
      rewrite u8_small by apply rd_range. f_equal; lia.
    + destruct (decide (d - 1 - Z.of_nat n <= b < d - 1)).
      * rewrite decide_True by lia. rewrite rd_wr_ne by lia. f_equal; lia.
      * rewrite decide_False by lia. by rewrite rd_wr_ne by lia.
Qed.

Lemma rd_memmove m dst src n b :
  rd (memmove m dst src n) b =
  if decide (dst <= b < dst + n) then rd m (src + (b - dst)) else rd m b.
Proof.
  unfold memmove. destruct (decide (n < 0)) as [Hn|Hn].
  { replace (Z.to_nat n) with O by lia. rewrite decide_False by lia.
    by destruct (_ && _). }
  destruct (src <? dst) eqn:E1; destruct (dst <? src + n) eqn:E2; simpl;
    rewrite ?rd_copy_down, ?rd_copy_up by lia.
  1: { destruct (decide (dst <= b < dst + n)).
       - rewrite decide_True by lia. f_equal; lia.
       - by rewrite decide_False by lia. }
  all: destruct (decide (dst <= b < dst + n));
       [by rewrite decide_True by lia | by rewrite decide_False by lia].
Qed.

Lemma ld64_memset m dst c n a :
  a + 8 <= dst \/ dst + n <= a -> ld64 (memset m dst c n) a = ld64 m a.
Proof. intros. apply ld64_ext. intros. rewrite rd_memset. by rewrite decide_False by lia. Qed.

Lemma ld64_memset_0 m dst n a : dst <= a -> a + 8 <= dst + n -> ld64 (memset m dst 0 n) a = 0.
Proof.
  intros H1 H2. unfold ld64. simpl. rewrite !rd_memset.
  by rewrite !decide_True by lia.
Qed.

(** memmove is the simultaneous copy: whatever the overlap of the two
    regions, the destination holds the bytes the source had, and nothing else
    changes. *)
Lemma memmove_bytes m dst src n :
  0 <= n ->
  rd_bytes (memmove m dst src n) dst (Z.to_nat n) = rd_bytes m src (Z.to_nat n).
Proof.
  intros. apply list_eq. intros i.
  destruct (decide (i < Z.to_nat n)%nat).
  - rewrite !lookup_rd_bytes by lia. rewrite rd_memmove.
    rewrite decide_True by lia. do 2 f_equal. lia.
  - rewrite !lookup_ge_None_2; rewrite ?length_rd_bytes; try done; lia.
Qed.

(** Memmove copies [n] bytes from [src] to [dst] also when the two ranges
    overlap in either direction, and writes nothing outside [dst, dst + n). *)
Theorem memmove_correct m dst src n :
  0 <= n ->
  rd_bytes (memmove m dst src n) dst (Z.to_nat n) = rd_bytes m src (Z.to_nat n) /\
  forall b, ~ (dst <= b < dst + n) -> rd (memmove m dst src n) b = rd m b.
Proof.
  intros Hn. split; [by apply memmove_bytes|].
  intros b Hb. rewrite rd_memmove. by rewrite decide_False.
Qed.

Lemma memmove_correct_witness :
  let m := wr_bytes ∅ 100 [1; 2; 3; 4] in
  rd_bytes (memmove m 101 100 3) 101 3 = [1; 2; 3] /\ rd (memmove m 101 100 3) 100 = 1.
Proof.
  cbn zeta. destruct (memmove_correct (wr_bytes ∅ 100 [1; 2; 3; 4]) 101 100 3 ltac:(lia)) as [H1 H2].
  split; [change 3%nat with (Z.to_nat 3); rewrite H1; reflexivity|]. rewrite H2 by lia. reflexivity.
Defined.

(** ** Correctness of the string routines *)

(** [s] is a string of length [k] at [p]. *)
Definition is_str (p : nat -> Z) (k : nat) : Prop :=
  p k = 0 /\ forall i, (i < k)%nat -> p i <> 0.

Lemma strlen_loop_str fuel s n k :
  (n <= k)%nat -> s k = 0 -> (forall i, (n <= i < k)%nat -> s i <> 0) ->
  (k - n < fuel)%nat -> strlen_loop fuel s n = Some k.
Proof.
  revert n. induction fuel as [|fuel IH]; intros n Hle H0 Hnz Hf; [lia|]. simpl.
  destruct (decide (n = k)) as [->|].
  - by rewrite H0.
  - destruct (Z.eqb_spec (s n) 0); [exfalso; by apply (Hnz n); [lia|]|].
    apply IH; try done; try lia. intros; apply Hnz; lia.
Qed.

Lemma strlen_str fuel s k : is_str s k -> (k < fuel)%nat -> strlen fuel s = Some k.
Proof.
  intros [H0 Hnz] Hf. apply strlen_loop_str; try done; try lia.
  intros i Hi. apply Hnz. lia.
Qed.

Lemma length_strncpy t n : length (strncpy t n) = n.
Proof.
  revert t. induction n as [|n IH]; intros t; simpl; [done|].
  destruct (t O =? 0); simpl; [by rewrite length_replicate|by rewrite IH].
Qed.

(** The bytes of strncpy's result: the string's bytes up to its NUL, then zeros. *)
Lemma strncpy_before t n i :
  (i < n)%nat -> (forall j, (j < i)%nat -> t j <> 0) -> strncpy t n !! i = Some (t i).
Proof.
  revert t i. induction n as [|n IH]; intros t i Hi Hnz; [lia|]. simpl.
  destruct i as [|i].
  - destruct (Z.eqb_spec (t O) 0) as [->|]; done.
  - destruct (Z.eqb_spec (t O) 0); [exfalso; by apply (Hnz O); [lia|]|].
    simpl. rewrite IH; [done|lia|]. intros j Hj. apply Hnz. lia.
Qed.

Lemma strncpy_after t n i j :
  (i < n)%nat -> (j < i)%nat -> t j = 0 -> strncpy t n !! i = Some 0.
Proof.
  revert t i j. induction n as [|n IH]; intros t i j Hi Hj H0; [lia|]. simpl.
  destruct i as [|i]; [lia|].
  destruct (Z.eqb_spec (t O) 0); simpl.
  - by rewrite lookup_replicate_2 by lia.
  - destruct j as [|j]; [done|]. apply (IH (at_ t 1) i j); try lia. done.
Qed.

(** strncmp finds no difference exactly when the two strings agree on their
    first [n] bytes or up to a common NUL. *)
Lemma strncmp_zero p q n :
  (forall i, is_u8 (p i)) -> (forall i, is_u8 (q i)) ->
  strncmp p q n = 0 <->
  forall i, (i < n)%nat -> (forall j, (j < i)%nat -> p j <> 0) -> p i = q i.
Proof.
  revert p q. induction n as [|n IH]; intros p q Hp Hq; simpl.
  { split; [intros; lia|done]. }
  rewrite !u8_small by auto.
  destruct (Z.eqb_spec (p O) 0) as [E0|E0]; simpl.
  - split.
    + intros H [|i] Hi Hnz; [lia|]. exfalso. by apply (Hnz O); [lia|].
    + intros H. specialize (H O). rewrite H; lia.
  - destruct (Z.eqb_spec (p O) (q O)) as [E|E].
    + rewrite IH by (intros; unfold at_; auto). unfold at_. split.
      * intros H [|i] Hi Hnz; [done|]. apply H; [lia|]. intros j Hj. apply Hnz. lia.
      * intros H i Hi Hnz. apply H; [lia|].
        intros [|j] Hj; [done|]. apply Hnz. lia.
    + split; [lia|]. intros H. exfalso. apply E, H; lia.
Qed.

(** strncpy and strncmp fit together: a name compares equal to its own copy. *)
Lemma strncmp_strncpy p n :
  (forall i, is_u8 (p i)) ->
  strncmp p (fun i => default 0 (strncpy p n !! i)) n = 0.
Proof.
  intros Hp. apply strncmp_zero; [done| |].
  - intros i. destruct (strncpy p n !! i) as [x|] eqn:E; simpl; [|unfold is_u8; lia].
    assert (i < n)%nat as Hi by (apply lookup_lt_Some in E; by rewrite length_strncpy in E).
    clear -E Hp Hi. revert p i E Hi Hp. induction n as [|n IH]; intros p i E Hi Hp; [lia|].
    simpl in E. destruct (p O =? 0) eqn:?; destruct i as [|i]; simplify_eq/=.
    + unfold is_u8; lia.
    + apply lookup_replicate in E as [-> _]. unfold is_u8; lia.
    + done.
    + apply (IH (at_ p 1) i); try done; [lia|]. intros; apply Hp.
  - intros i Hi Hnz. by rewrite strncpy_before.
Qed.

Lemma length_safestrcpy_loop t n : (length (safestrcpy_loop t n) <= S n)%nat.
Proof.
  revert t. induction n as [|n IH]; intros t; simpl; [lia|].
  destruct (t O =? 0); simpl; [lia|]. specialize (IH (at_ t 1)). lia.
Qed.

Lemma safestrcpy_loop_nul t n :
  exists k, (k <= n)%nat /\ safestrcpy_loop t n !! k = Some 0 /\
    forall i, (i < k)%nat -> safestrcpy_loop t n !! i = Some (t i) /\ t i <> 0.
Proof.
  revert t. induction n as [|n IH]; intros t; simpl.
  - exists O. split_and!; [lia|done|lia].
  - destruct (Z.eqb_spec (t O) 0).
    + exists O. split_and!; [lia|done|lia].
    + destruct (IH (at_ t 1)) as (k & Hk & H0 & H). exists (S k).
      split_and!; [lia|done|]. intros [|i] Hi; simpl; [done|].
      apply (H i). lia.
Qed.

(** Safestrcpy always leaves a NUL-terminated prefix of [t] in the [n] bytes
    of its destination. *)
Theorem safestrcpy_terminates t n :
  0 < n ->
  Z.of_nat (length (safestrcpy t n)) <= n /\
  exists k, (Z.of_nat k < n) /\ safestrcpy t n !! k = Some 0 /\
    forall i, (i < k)%nat -> safestrcpy t n !! i = Some (t i) /\ t i <> 0.
Proof.
  intros Hn. unfold safestrcpy. rewrite (proj2 (Z.leb_gt _ _)) by lia. split.
  - pose proof (length_safestrcpy_loop t (Z.to_nat (n - 1))). lia.
  - destruct (safestrcpy_loop_nul t (Z.to_nat (n - 1))) as (k & Hk & H0 & H).
    exists k. split_and!; [lia|done|done].
Qed.

Lemma safestrcpy_terminates_witness :
  Z.of_nat (length (safestrcpy (fun _ => 65) 4)) <= 4.
Proof. apply (safestrcpy_terminates (fun _ => 65) 4). lia. Defined.

#[global] Opaque memset memmove.
