(* ===== verification/User.v ===== *)
(** * User programs and their system calls

    A user program interacts with the kernel by system calls only.  Its state is
    the list of replies that the kernel will give and the trace of the calls made
    so far with their replies: a theorem about a program for every list of replies covers every
    behaviour of the kernel and of the other processes, and after fork() both the
    parent (the reply is a pid) and the child (the reply is 0).  A program whose
    next call the kernel never answers stops as [Asleep]; so does one that calls
    exit().  A loop makes a call in every turn, so the number of replies bounds it:
    [loop] never runs out of fuel, which its rule [wps_loop] shows. *)

From Stdlib Require Import ZArith Lia.
From stdpp Require Import base list strings.
From S2P Require Import Prelude.

(** ** System calls (user/user.h) *)

(** An argument of a call that is made with addresses which are no objects of the
    program: a number or such an address, a string, a vector of strings or of addresses. *)
Inductive rarg :=
| Num (n : Z)
| Str (s : list Z)
| Strs (v : list (list Z))
| Ptrs (v : list Z).

Inductive sysc :=
| Sfork
| Sexit (status : Z)
| Swait
| Spipe
| Swrite (fd : Z) (data : list Z)
| Sread (fd n : Z)
| Sclose (fd : Z)
| Skill (pid : Z)
| Sexec (path : list Z) (argv : list (list Z))
| Sopen (path : list Z) (mode : Z)
| Smknod (path : list Z) (major minor : Z)
| Sunlink (path : list Z)
| Sfstat (fd : Z)
| Slink (old new : list Z)
| Smkdir (path : list Z)
| Schdir (path : list Z)
| Sdup (fd : Z)
| Sgetpid
| Ssbrk (n : Z)
| Ssleep (n : Z)
| Suptime
(** The call with number [num] (kernel/syscall.h) and an address that may be invalid. *)
| Sraw (num : Z) (args : list rarg)
(** Not system calls: the load or store of a byte at an address that is no object of the
    program, where a page fault may end the process, and a value that the program does not
    determine (a register, an argument that was not passed). *)
| Sload (a : Z)
| Sstore (a v : Z)
| Sundet.

#[global] Instance rarg_eq_dec : EqDecision rarg.
Proof. solve_decision. Defined.
#[global] Instance sysc_eq_dec : EqDecision sysc.
Proof. solve_decision. Defined.

(** The value of a call, and what the kernel stored through its pointer argument:
    the bytes of read, the two descriptors of pipe, the fields of struct stat. *)
Record reply := mk_reply { ret : Z; out : list Z }.

(** A call, and its reply unless it did not return. *)
Definition event : Type := sysc * option reply.

#[global] Instance reply_eq_dec : EqDecision reply.
Proof. solve_decision. Defined.
#[global] Instance event_eq_dec : EqDecision event.
Proof. unfold event. apply _. Defined.

Record ust := mk_ust {
  u_env : list reply;    (* the replies to come *)
  u_trace : list event;  (* the calls made *)
}.

Definition sys (c : sysc) : M ust reply := fun s =>
  match u_env s with
  | [] => Asleep (mk_ust [] (u_trace s ++ [(c, None)]))
  | r :: env => Ret r (mk_ust env (u_trace s ++ [(c, Some r)]))
  end.

(** A call of which the program only looks at the value. *)
Definition call (c : sysc) : M ust Z :=
  r ← sys c;
  mret (ret r).

(** exit() does not return. *)
Definition uexit {A} (status : Z) : M ust A := fun s =>
  Asleep (mk_ust (u_env s) (u_trace s ++ [(Sexit status, None)])).

Fixpoint iterate {A R} (fuel : nat) (body : A -> M ust (A + R)) (a : A) : M ust R :=
  r ← body a;
  match r with
  | inr r => mret r
  | inl a' =>
      match fuel with
      | O => out_of_fuel
      | S fuel' => iterate fuel' body a'
      end
  end.

(** A loop with a system call in every turn: [body] ends it with [inr]. *)
Definition loop {A R} (body : A -> M ust (A + R)) (a : A) : M ust R :=
  n ← gets (fun s => length (u_env s));
  iterate n body a.

(** What the calls of a trace wrote to [fd]. *)
Definition written_by (fd : Z) (e : event) : list Z :=
  match e.1 with
  | Swrite fd' d => if fd' =? fd then d else []
  | _ => []
  end.
Definition outs (fd : Z) (tr : list event) : list Z := tr ≫= written_by fd.

(** What the calls of a trace read from [fd]. *)
Definition read_by (fd : Z) (e : event) : list Z :=
  match e with
  | (Sread fd' _, Some r) => if (fd' =? fd) && (0 <? ret r) then out r else []
  | _ => []
  end.
Definition ins (fd : Z) (tr : list event) : list Z := tr ≫= read_by fd.

(** The contract of read(): it stores as many bytes as it says, at most the number
    that was asked for. *)
Definition read_ok (e : event) : Prop :=
  match e with
  | (Sread _ n, Some r) =>
      0 < ret r -> Z.of_nat (length (out r)) = ret r /\ ret r <= n /\ Forall is_u8 (out r)
  | _ => True
  end.
Definition kernel_ok (tr : list event) : Prop := Forall read_ok tr.

Lemma outs_app fd t1 t2 : outs fd (t1 ++ t2) = outs fd t1 ++ outs fd t2.
Proof. apply bind_app. Qed.
Lemma ins_app fd t1 t2 : ins fd (t1 ++ t2) = ins fd t1 ++ ins fd t2.
Proof. apply bind_app. Qed.
Lemma outs_1 fd e : outs fd [e] = written_by fd e.
Proof. apply app_nil_r. Qed.
Lemma ins_1 fd e : ins fd [e] = read_by fd e.
Proof. apply app_nil_r. Qed.

Lemma outs_snoc fd tr e : outs fd (tr ++ [e]) = outs fd tr ++ written_by fd e.
Proof. by rewrite outs_app, outs_1. Qed.
Lemma ins_snoc fd tr e : ins fd (tr ++ [e]) = ins fd tr ++ read_by fd e.
Proof. by rewrite ins_app, ins_1. Qed.

(** A read() changes nothing that is written, and gives what it stores. *)
Lemma outs_read fd tr fd' n o : outs fd (tr ++ [(Sread fd' n, o)]) = outs fd tr.
Proof. rewrite outs_snoc. apply app_nil_r. Qed.
Lemma ins_read fd tr n r :
  ins fd (tr ++ [(Sread fd n, Some r)]) = ins fd tr ++ (if 0 <? ret r then out r else []).
Proof. rewrite ins_snoc. cbn. by rewrite Z.eqb_refl. Qed.

(** ** Rules *)

Lemma wps_ret {S A} (a : A) (Q : A -> S -> Prop) R s : Q a s -> wps (mret a) Q R s.
Proof. done. Qed.

Lemma wps_sys c (Q : reply -> ust -> Prop) (R : ust -> Prop) s :
  match u_env s with
  | [] => R (mk_ust [] (u_trace s ++ [(c, None)]))
  | r :: env => Q r (mk_ust env (u_trace s ++ [(c, Some r)]))
  end -> wps (sys c) Q R s.
Proof. unfold wps, sys. by destruct (u_env s). Qed.

Lemma wps_call c (Q : Z -> ust -> Prop) (R : ust -> Prop) s :
  match u_env s with
  | [] => R (mk_ust [] (u_trace s ++ [(c, None)]))
  | r :: env => Q (ret r) (mk_ust env (u_trace s ++ [(c, Some r)]))
  end -> wps (call c) Q R s.
Proof. intros H. apply wps_bind, wps_sys. by destruct (u_env s). Qed.

Lemma wps_exit {A} st (Q : A -> ust -> Prop) (R : ust -> Prop) s :
  R (mk_ust (u_env s) (u_trace s ++ [(Sexit st, None)])) -> wps (uexit st) Q R s.
Proof. done. Qed.

Lemma wps_iterate {A T} (Inv : A -> ust -> Prop) (body : A -> M ust (A + T)) Q R :
  (forall a s, Inv a s ->
     wps (body a) (fun r s' =>
       match r with
       | inl a' => (length (u_env s') < length (u_env s))%nat /\ Inv a' s'
       | inr t => Q t s'
       end) R s) ->
  forall n a s, (length (u_env s) <= n)%nat -> Inv a s -> wps (iterate n body a) Q R s.
Proof.
  intros Hb n. induction n as [|n IH]; intros a s Hn Ha; cbn [iterate]; apply wps_bind;
    (eapply wps_mono; [by apply Hb| |done]); intros [a'|t] s'; try done; intros [Hl Hi]; [lia|].
  apply IH; [lia|done].
Qed.

(** An invariant of a loop: a turn after which it goes on has consumed a reply. *)
Lemma wps_loop {A T} (Inv : A -> ust -> Prop) (body : A -> M ust (A + T)) a Q R s :
  Inv a s ->
  (forall a s, Inv a s ->
     wps (body a) (fun r s' =>
       match r with
       | inl a' => (length (u_env s') < length (u_env s))%nat /\ Inv a' s'
       | inr t => Q t s'
       end) R s) ->
  wps (loop body a) Q R s.
Proof. intros Ha Hb. apply wps_bind, wps_wp, wp_gets. by apply (wps_iterate Inv). Qed.

(** ** Traces *)

(** [s'] is reached from [s] by the events [tr]. *)
Definition extends (s s' : ust) (tr : list event) : Prop :=
  u_trace s' = u_trace s ++ tr /\ u_env s' `suffix_of` u_env s.

Lemma extends_trans s s1 s2 t1 t2 : extends s s1 t1 -> extends s1 s2 t2 -> extends s s2 (t1 ++ t2).
Proof. intros [E1 H1] [E2 H2]. split; [by rewrite E2, E1, app_assoc|by etrans]. Qed.

Lemma extends_nil s : extends s s [].
Proof. split; [by rewrite app_nil_r|done]. Qed.

Lemma extends_call s c r env :
  u_env s = r :: env -> extends s (mk_ust env (u_trace s ++ [(c, Some r)])) [(c, Some r)].
Proof. intros E. split; [done|]. rewrite E. by exists [r]. Qed.

Lemma extends_stop s c : extends s (mk_ust [] (u_trace s ++ [(c, None)])) [(c, None)].
Proof. split; [done|apply suffix_nil]. Qed.

Lemma extends_length s s' tr : extends s s' tr -> (length (u_env s') <= length (u_env s))%nat.
Proof. intros [_ H]. by apply suffix_length. Qed.

(** Code that only writes to [fd]. *)
Definition only_writes (fd : Z) (tr : list event) : Prop :=
  Forall (fun e => exists d, e.1 = Swrite fd d) tr.

Lemma only_writes_ins fd fd' tr : only_writes fd' tr -> ins fd tr = [].
Proof.
  induction 1 as [|[c o] tr [d Hd] _ IH]; cbn; [done|]. cbn in Hd. subst. exact IH.
Qed.

Lemma only_writes_outs fd fd' tr : fd <> fd' -> only_writes fd' tr -> outs fd tr = [].
Proof.
  intros Hne. induction 1 as [|[c o] tr [d Hd] _ IH]; cbn; [done|]. cbn in Hd. subst. cbn.
  rewrite (proj2 (Z.eqb_neq _ _)) by congruence. exact IH.
Qed.

Lemma only_writes_app fd t1 t2 : only_writes fd t1 -> only_writes fd t2 -> only_writes fd (t1 ++ t2).
Proof. intros. by apply Forall_app. Qed.

Lemma only_writes_1 fd d o : only_writes fd [(Swrite fd d, o)].
Proof. repeat econstructor. Qed.

(** [m] writes [l] to [fd] and makes no other call; it may be stopped before the end. *)
Definition prints {A} (fd : Z) (l : list Z) (m : M ust A) : Prop :=
  forall (Q : A -> ust -> Prop) (R : ust -> Prop) s,
    (forall a s' tr, extends s s' tr -> only_writes fd tr -> outs fd tr = l -> Q a s') ->
    (forall s' tr, extends s s' tr -> only_writes fd tr -> outs fd tr `prefix_of` l -> R s') ->
    wps m Q R s.

Lemma prints_ret {A} fd (a : A) : prints fd [] (mret a).
Proof. intros Q R s HQ HR. eapply HQ; [apply extends_nil|constructor|done]. Qed.

Lemma prints_bind {A B} fd l1 l2 (m : M ust A) (f : A -> M ust B) :
  prints fd l1 m -> (forall a, prints fd l2 (f a)) -> prints fd (l1 ++ l2) (m ≫= f).
Proof.
  intros Hm Hf Q R s HQ HR. apply wps_bind, Hm.
  - intros a s1 t1 E1 W1 O1. apply Hf.
    + intros b s2 t2 E2 W2 O2. eapply HQ; [by eapply extends_trans|by apply only_writes_app|].
      by rewrite outs_app, O1, O2.
    + intros s2 t2 E2 W2 O2. eapply HR; [by eapply extends_trans|by apply only_writes_app|].
      rewrite outs_app, O1. by apply prefix_app.
  - intros s1 t1 E1 W1 O1. eapply HR; [done..|]. by apply prefix_app_r.
Qed.

Lemma prints_cons {A B} fd c l2 (m : M ust A) (f : A -> M ust B) :
  prints fd [c] m -> (forall a, prints fd l2 (f a)) -> prints fd (c :: l2) (m ≫= f).
Proof. apply (prints_bind fd [c]). Qed.

Lemma prints_write fd d : prints fd d (call (Swrite fd d)).
Proof.
  intros Q R s HQ HR. apply wps_call. destruct (u_env s) as [|r env] eqn:E.
  - eapply HR; [apply extends_stop|apply only_writes_1|]. rewrite outs_1. cbn. by rewrite Z.eqb_refl.
  - eapply HQ; [by apply extends_call|apply only_writes_1|]. rewrite outs_1. cbn. by rewrite Z.eqb_refl.
Qed.

(** [m] only makes calls that satisfy [P], and does not run out of fuel. *)
Definition makes {A} (P : event -> Prop) (m : M ust A) : Prop :=
  forall (Q : A -> ust -> Prop) (R : ust -> Prop) s,
    (forall a s' tr, extends s s' tr -> Forall P tr -> Q a s') ->
    (forall s' tr, extends s s' tr -> Forall P tr -> R s') ->
    wps m Q R s.

Lemma makes_ret {A} P (a : A) : makes P (mret a).
Proof. intros Q R s HQ HR. eapply HQ; [apply extends_nil|constructor]. Qed.

Lemma makes_bind {A B} P (m : M ust A) (f : A -> M ust B) :
  makes P m -> (forall a, makes P (f a)) -> makes P (m ≫= f).
Proof.
  intros Hm Hf Q R s HQ HR. apply wps_bind, Hm; [|done]. intros a s1 t1 E1 W1.
  apply Hf; intros; [eapply HQ|eapply HR]; (by eapply extends_trans) || by apply Forall_app.
Qed.

Lemma makes_sys (P : event -> Prop) c : (forall o, P (c, o)) -> makes P (sys c).
Proof.
  intros HP Q R s HQ HR. apply wps_sys. destruct (u_env s) as [|r env] eqn:E.
  - eapply HR; [apply extends_stop|by repeat constructor].
  - eapply HQ; [by apply extends_call|by repeat constructor].
Qed.

Lemma makes_call (P : event -> Prop) c : (forall o, P (c, o)) -> makes P (call c).
Proof. intros. apply makes_bind; [by apply makes_sys|intros; apply makes_ret]. Qed.

Lemma makes_exit {A} (P : event -> Prop) st : P (Sexit st, None) -> makes P (uexit st : M ust A).
Proof. intros HP Q R s HQ HR. apply wps_exit. eapply HR; [by split|by repeat constructor]. Qed.

Lemma makes_prints {A} (P : event -> Prop) fd l (m : M ust A) :
  (forall d o, P (Swrite fd d, o)) -> prints fd l m -> makes P m.
Proof.
  intros HP Hm Q R s HQ HR.
  assert (forall tr, only_writes fd tr -> Forall P tr) as HW.
  { intros tr Hw. eapply Forall_impl; [exact Hw|]. intros [c o] [d Hd]. cbn in Hd. subst. apply HP. }
  apply Hm; eauto.
Qed.

(** A loop that starts every turn with a call. *)
Lemma makes_loop {A T} (P : event -> Prop) c (f : A -> reply -> M ust (A + T)) a :
  (forall a o, P (c a, o)) -> (forall a r, makes P (f a r)) ->
  makes P (loop (fun a => sys (c a) ≫= f a) a).
Proof.
  intros Hc Hf Q R s HQ HR.
  apply (wps_loop (fun _ s1 => exists tr, extends s s1 tr /\ Forall P tr)).
  { exists []. split; [apply extends_nil|constructor]. }
  intros a1 s1 (tr & E & HP). apply wps_bind, wps_sys. destruct (u_env s1) as [|r env] eqn:Ee.
  { eapply HR; [eapply extends_trans; [exact E|apply extends_stop]|].
    apply Forall_app. by repeat constructor. }
  assert (extends s (mk_ust env (u_trace s1 ++ [(c a1, Some r)])) (tr ++ [(c a1, Some r)])) as E2
    by (eapply extends_trans; [exact E|by apply extends_call]).
  assert (Forall P (tr ++ [(c a1, Some r)])) as HP2 by (apply Forall_app; by repeat constructor).
  apply Hf; [intros [a2|t] s3 t3 E3 P3|intros s3 t3 E3 P3].
  - split; [apply extends_length in E3; cbn in *; lia|].
    eexists. split; [by eapply extends_trans|by apply Forall_app].
  - eapply HQ; [by eapply extends_trans|by apply Forall_app].
  - eapply HR; [by eapply extends_trans|by apply Forall_app].
Qed.

Ltac ustep :=
  lazymatch goal with
  | |- wps (mret _) _ _ _ => apply wps_ret
  | |- wps (mbind _ _) _ _ _ => apply wps_bind
  | |- wps (sys _) _ _ _ => apply wps_sys
  | |- wps (call _) _ _ _ => apply wps_call
  | |- wps (uexit _) _ _ _ => apply wps_exit
  | |- wps (gets _) _ _ _ => apply wps_wp, wp_gets
  end.
Ltac usteps := repeat (ustep; cbn beta).
