(* ===== verification/Ulib.v ===== *)
(** * The user library: user/ulib.c and user/printf.c

    A string is the list of its bytes, without the NUL; a pointer into it is a
    suffix.  The routines that move memory work on a memory as those of the kernel
    do.  char is unsigned on RISC-V.  [memmove_agrees] relates the memmove of the
    library to that of the kernel, [atoi_printint] is the round trip between
    printf's %d and atoi. *)

From Stdlib Require Import ZArith Lia.
From stdpp Require Import base list gmap sets strings.
From S2P Require Import Prelude KString User.

(** ** user/ulib.c *)

(** [None]: the string does not fit in the array [s]. *)
Fixpoint strcpy (s t : list Z) : option (list Z) :=
  match s, t with
  | [], _ => None
  | _ :: s', [] => Some (0 :: s')
  | _ :: s', c :: t' => cons c <$> strcpy s' t'
  end.

Fixpoint strcmp (p q : list Z) : Z :=
  match p, q with
  | c :: p', d :: q' => if c =? d then strcmp p' q' else u8 c - u8 d
  | c :: _, [] => u8 c
  | [], d :: _ => - u8 d
  | [], [] => 0
  end.

Fixpoint strlen (s : list Z) : Z :=
  match s with
  | [] => 0
  | _ :: s' => 1 + strlen s'
  end.

(** cdst[i] = c for i from [i] on, [n] times. *)
Fixpoint memset_from (n : nat) (m : memory) (dst i c : Z) : memory :=
  match n with
  | O => m
  | S n' => memset_from n' (wr m (dst + i) c) dst (i + 1) c
  end.
Definition memset (m : memory) (dst c n : Z) : memory := memset_from (Z.to_nat n) m dst 0 c.

(** The suffix of [s] from the first [c] on. *)
Fixpoint strchr (s : list Z) (c : Z) : option (list Z) :=
  match s with
  | [] => None
  | d :: s' => if d =? c then Some s else strchr s' c
  end.

(** The loop of gets: [buf] is what has been read. *)
Definition gets_body (max : Z) (buf : list Z) : M ust (list Z + list Z) :=
  if Z.of_nat (length buf) + 1 <? max then
    r ← sys (Sread 0 1);
    if ret r <? 1 then mret (inr buf) else
    let c := default 0 (head (out r)) in
    let buf' := buf ++ [c] in
    if (c =? 10) || (c =? 13) then mret (inr buf') else mret (inl buf')
  else mret (inr buf).

(** The string that gets leaves in its buffer. *)
Definition ugets (max : Z) : M ust (list Z) := loop (gets_body max) [].

Definition O_RDONLY : Z := 0.

(** The value of stat() and the fields of struct stat. *)
Definition ustat (n : list Z) : M ust (Z * list Z) :=
  fd ← call (Sopen n O_RDONLY);
  if fd <? 0 then mret (-1, []) else
  r ← sys (Sfstat fd);
  call (Sclose fd);;
  mret (ret r, out r).

Fixpoint atoi_loop (s : list Z) (n : Z) : Z :=
  match s with
  | c :: s' => if (48 <=? c) && (c <=? 57) then atoi_loop s' (i32 (n * 10 + c - 48)) else n
  | [] => n
  end.
Definition atoi (s : list Z) : Z := atoi_loop s 0.

Definition memmove (m : memory) (dst src n : Z) : memory :=
  if dst <? src then copy_up (Z.to_nat n) m dst src
  else copy_down (Z.to_nat n) m (dst + n) (src + n).

Fixpoint memcmp_from (n : nat) (p1 p2 : nat -> Z) : Z :=
  match n with
  | O => 0
  | S n' => if negb (p1 O =? p2 O) then p1 O - p2 O else memcmp_from n' (at_ p1 1) (at_ p2 1)
  end.
Definition memcmp (s1 s2 : nat -> Z) (n : Z) : Z := memcmp_from (Z.to_nat n) s1 s2.

Definition memcpy (m : memory) (dst src n : Z) : memory := memmove m dst src n.

(** ** user/printf.c *)

Definition digits : list Z := str "0123456789ABCDEF".

Definition putc (fd c : Z) : M ust unit :=
  call (Swrite fd [u8 c]);;
  mret tt.

Fixpoint puts (fd : Z) (s : list Z) : M ust unit :=
  match s with
  | [] => mret tt
  | c :: s' => putc fd c;; puts fd s'
  end.

(** The do-while loop of printint, the lowest digit first. *)
Fixpoint digits_from (fuel : nat) (x base : Z) : list Z :=
  match fuel with
  | O => []
  | S fuel' =>
      default 0 (zlookup digits (x mod base)) ::
      (if x / base =? 0 then [] else digits_from fuel' (x / base) base)
  end.

(** The characters that printint prints; [xx] is an int. *)
Definition int_chars (xx base : Z) (sgn : bool) : list Z :=
  let neg := sgn && (xx <? 0) in
  let x := if neg then u32 (- xx) else u32 xx in
  reverse (digits_from 32 x base ++ (if neg then [45] else [])).
Definition printint (fd xx base : Z) (sgn : bool) : M ust unit := puts fd (int_chars xx base sgn).

Fixpoint ptr_chars (k : nat) (x : Z) : list Z :=
  match k with
  | O => []
  | S k' => default 0 (zlookup digits (Z.shiftr x 60)) :: ptr_chars k' (u64 (Z.shiftl x 4))
  end.
Definition printptr (fd x : Z) : M ust unit := putc fd 48;; putc fd 120;; puts fd (ptr_chars 16 x).

(** An argument: a number, or a string that may be null. *)
Inductive uarg := UInt (x : Z) | UStr (s : option (list Z)).
Definition arg_int (a : option uarg) : Z := match a with Some (UInt x) => i32 x | _ => 0 end.
Definition arg_u64 (a : option uarg) : Z := match a with Some (UInt x) => u64 x | _ => 0 end.
Definition arg_str (a : option uarg) : option (list Z) := match a with Some (UStr s) => s | _ => None end.

(** [percent]: the variable state is '%'. *)
Fixpoint vprintf (fd : Z) (fmt : list Z) (percent : bool) (ap : list uarg) : M ust unit :=
  match fmt with
  | [] => mret tt
  | c :: fmt' =>
      if negb percent then
        if c =? 37 then vprintf fd fmt' true ap
        else putc fd c;; vprintf fd fmt' false ap
      else
        if c =? 100 then printint fd (arg_int (head ap)) 10 true;; vprintf fd fmt' false (tail ap)
        else if c =? 108 then printint fd (i32 (arg_u64 (head ap))) 10 false;; vprintf fd fmt' false (tail ap)
        else if c =? 120 then printint fd (arg_int (head ap)) 16 false;; vprintf fd fmt' false (tail ap)
        else if c =? 112 then printptr fd (arg_u64 (head ap));; vprintf fd fmt' false (tail ap)
        else if c =? 115 then
          puts fd (default (str "(null)") (arg_str (head ap)));; vprintf fd fmt' false (tail ap)
        else if c =? 99 then putc fd (arg_int (head ap));; vprintf fd fmt' false (tail ap)
        else if c =? 37 then putc fd c;; vprintf fd fmt' false ap
        else putc fd 37;; putc fd c;; vprintf fd fmt' false ap
  end.

Definition fprintf (fd : Z) (fmt : list Z) (ap : list uarg) : M ust unit := vprintf fd fmt false ap.
Definition printf (fmt : list Z) (ap : list uarg) : M ust unit := fprintf 1 fmt ap.

#[global] Arguments memmove : simpl never.
#[global] Arguments memset : simpl never.

(** ** Theorems *)

(** The memmove of the user library, which chooses its direction by the order
    of the addresses alone, has the same effect on memory as the kernel's, which
    goes down only when the ranges overlap: in every case of overlap and for every
    length, negative ones included. *)
Theorem memmove_agrees m dst src n b :
  rd (memmove m dst src n) b = rd (KString.memmove m dst src n) b.
Proof.
  rewrite rd_memmove. unfold memmove. destruct (decide (n < 0)) as [Hn|Hn].
  { replace (Z.to_nat n) with O by lia. rewrite decide_False by lia. by destruct (dst <? src). }
  destruct (Z.ltb_spec dst src).
  - rewrite rd_copy_up by lia. repeat case_decide; lia || done.
  - rewrite rd_copy_down by lia. repeat case_decide; try done; try lia. f_equal; lia.
Qed.

(** *** Strings *)

Lemma strchr_spec s c :
  match strchr s c with
  | None => c ∉ s
  | Some q => exists a b, s = a ++ q /\ q = c :: b /\ c ∉ a
  end.
Proof.
  induction s as [|d s IH]; cbn; [set_solver|]. destruct (Z.eqb_spec d c) as [->|Hd].
  - exists [], s. set_solver.
  - destruct (strchr s c) as [q|].
    + destruct IH as (a & b & -> & -> & Ha). exists (d :: a), b. set_solver.
    + set_solver.
Qed.

Lemma strchr_elem s c : is_Some (strchr s c) <-> c ∈ s.
Proof.
  pose proof (strchr_spec s c) as H. destruct (strchr s c) as [q|].
  - destruct H as (a & b & -> & -> & _). split; [set_solver|by eauto].
  - split; [by intros [? ?]|done].
Qed.

(** *** Numbers *)

Lemma digit_10 d : 0 <= d < 10 -> default 0 (zlookup digits d) = 48 + d.
Proof.
  intros Hd. assert (Forall (fun d => default 0 (zlookup digits d) = 48 + d) (zseq 0 10)) as H
    by (apply (bool_decide_unpack _); by vm_compute).
  rewrite Forall_forall in H. apply H, elem_of_zseq. lia.
Qed.

(** atoi reads the digits of printint, the highest first. *)
Lemma atoi_digits fuel x t :
  0 <= x < 10 ^ Z.of_nat fuel -> x < 2 ^ 31 -> (0 < fuel)%nat ->
  atoi_loop (reverse (digits_from fuel x 10) ++ t) 0 = atoi_loop t x.
Proof.
  revert x t. induction fuel as [|fuel IH]; intros x t Hx H31 Hf; [lia|]. cbn [digits_from].
  pose proof (Z.mod_pos_bound x 10) as Hm. rewrite digit_10 by lia. rewrite reverse_cons, <- app_assoc.
  assert (forall y, y = x / 10 -> atoi_loop ([48 + x mod 10] ++ t) y = atoi_loop t x) as Hlast.
  { intros y ->. cbn [app atoi_loop].
    rewrite (proj2 (Z.leb_le 48 _)), (proj2 (Z.leb_le _ 57)) by lia. cbn [andb]. f_equal.
    rewrite i32_small; [|unfold is_i32]; divlia. }
  destruct (Z.eqb_spec (x / 10) 0) as [E|Hne]; [by apply Hlast|].
  assert (0 < x / 10) by divlia.
  destruct fuel as [|fuel]; [change (10 ^ Z.of_nat 1) with 10 in Hx; divlia|].
  rewrite IH; [by apply Hlast| |divlia|lia].
  split; [lia|]. apply Z.div_lt_upper_bound; [lia|].
  replace (Z.of_nat (S (S fuel))) with (1 + Z.of_nat (S fuel)) in Hx by lia.
  rewrite Z.pow_add_r, Z.pow_1_r in Hx by lia. lia.
Qed.

(** A number printed with %d and read by atoi is the number again, for every int
    that is not negative; atoi stops at the first character that is no digit. *)
Theorem atoi_printint n t :
  0 <= n < 2 ^ 31 -> (forall c t', t = c :: t' -> ~ 48 <= c <= 57) ->
  atoi (int_chars n 10 true ++ t) = n.
Proof.
  intros Hn Ht. unfold atoi, int_chars. rewrite (proj2 (Z.ltb_ge n 0)) by lia. cbn [andb].
  rewrite app_nil_r, u32_small by (unfold is_u32; lia).
  rewrite atoi_digits; [|split; [lia|]; apply (Z.lt_trans _ (2 ^ 31)); [lia|by vm_compute]|lia..].
  destruct t as [|c t]; cbn; [done|]. specialize (Ht _ _ eq_refl).
  destruct (Z.leb_spec 48 c), (Z.leb_spec c 57); try done. lia.
Qed.

Lemma atoi_printint_witness : atoi (int_chars 2147483647 10 true ++ [32]) = 2147483647.
Proof. apply (atoi_printint 2147483647 [32]); [lia|]. intros c t' [= <- <-]. lia. Defined.

(** *** printf *)

(** The characters that vprintf writes. *)
Fixpoint fmt_chars (fmt : list Z) (percent : bool) (ap : list uarg) : list Z :=
  match fmt with
  | [] => []
  | c :: fmt' =>
      if negb percent then
        if c =? 37 then fmt_chars fmt' true ap else u8 c :: fmt_chars fmt' false ap
      else
        if c =? 100 then (u8 <$> int_chars (arg_int (head ap)) 10 true) ++ fmt_chars fmt' false (tail ap)
        else if c =? 108 then (u8 <$> int_chars (i32 (arg_u64 (head ap))) 10 false) ++ fmt_chars fmt' false (tail ap)
        else if c =? 120 then (u8 <$> int_chars (arg_int (head ap)) 16 false) ++ fmt_chars fmt' false (tail ap)
        else if c =? 112 then (48 :: 120 :: (u8 <$> ptr_chars 16 (arg_u64 (head ap)))) ++ fmt_chars fmt' false (tail ap)
        else if c =? 115 then
          (u8 <$> default (str "(null)") (arg_str (head ap))) ++ fmt_chars fmt' false (tail ap)
        else if c =? 99 then u8 (arg_int (head ap)) :: fmt_chars fmt' false (tail ap)
        else if c =? 37 then u8 c :: fmt_chars fmt' false ap
        else 37 :: u8 c :: fmt_chars fmt' false ap
  end.

Lemma prints_putc fd c : prints fd [u8 c] (putc fd c).
Proof. apply (prints_bind fd [u8 c] []); [apply prints_write|intros; apply prints_ret]. Qed.

Lemma prints_puts fd l : prints fd (u8 <$> l) (puts fd l).
Proof.
  induction l as [|c l IH]; [apply prints_ret|].
  rewrite fmap_cons. apply prints_cons; [apply prints_putc|by intros].
Qed.

Lemma prints_vprintf fd fmt percent ap : prints fd (fmt_chars fmt percent ap) (vprintf fd fmt percent ap).
Proof.
  revert percent ap. induction fmt as [|c fmt IH]; intros percent ap; cbn [vprintf fmt_chars]; [apply prints_ret|].
  destruct percent; cbn [negb].
  - repeat case_match; try (apply prints_bind; [apply prints_puts|by intros]).
    + apply prints_bind; [|by intros]. unfold printptr.
      apply prints_cons; [exact (prints_putc fd 48)|intros _].
      apply prints_cons; [exact (prints_putc fd 120)|intros _]. apply prints_puts.
    + apply prints_cons; [apply prints_putc|by intros].
    + apply prints_cons; [apply prints_putc|by intros].
    + apply prints_cons; [exact (prints_putc fd 37)|intros _].
      apply prints_cons; [apply prints_putc|by intros].
  - case_match; [apply IH|]. apply prints_cons; [apply prints_putc|by intros].
Qed.

Lemma prints_printf fmt ap : prints 1 (fmt_chars fmt false ap) (printf fmt ap).
Proof. apply prints_vprintf. Qed.
