(* ===== verification/Grep.v ===== *)
(** * user/grep.c

    [match_correct] states what the recursive matcher of Kernighan and Pike
    decides: the language of the pattern, read as a sequence of characters, dots
    and starred characters between optional anchors.  [grep_filters] states that
    the program prints the lines that match, whatever the pieces in which read()
    delivers the file. *)

From Stdlib Require Import ZArith Lia.
From stdpp Require Import base list sets strings.
From S2P Require Import Prelude KString User Ulib.

Module Grep.

Definition caret : Z := 94.
Definition dot : Z := 46.
Definition star : Z := 42.
Definition dollar : Z := 36.

(** ** The matcher *)

(** matchstar: [here] is matchhere(re, .) *)
Fixpoint matchstar (c : Z) (here : list Z -> bool) (text : list Z) : bool :=
  if here text then true else
  match text with
  | t :: text' => if (t =? c) || (c =? dot) then matchstar c here text' else false
  | [] => false
  end.

Fixpoint matchhere (re text : list Z) {struct re} : bool :=
  match re with
  | [] => true
  | c :: re1 =>
      match re1 with
      | d :: re2 =>
          if d =? star then matchstar c (matchhere re2) text else
          match text with
          | t :: text' => if (c =? dot) || (c =? t) then matchhere re1 text' else false
          | [] => false
          end
      | [] =>
          if c =? dollar then match text with [] => true | _ => false end else
          match text with
          | t :: text' => if (c =? dot) || (c =? t) then matchhere re1 text' else false
          | [] => false
          end
      end
  end.

(** The do-while loop of match. *)
Fixpoint match_from (re text : list Z) : bool :=
  if matchhere re text then true else
  match text with
  | _ :: text' => match_from re text'
  | [] => false
  end.

Definition match_ (re text : list Z) : bool :=
  match re with
  | c :: re' => if c =? caret then matchhere re' text else match_from re text
  | [] => match_from re text
  end.

(** ** The program *)

(** The inner loop on the NUL-terminated contents [p] of buf: the lines that match
    are written; the result is what follows the last newline. *)
Fixpoint grep_lines (fuel : nat) (pattern p : list Z) : M ust (list Z) :=
  match strchr (until_nul p) newline with
  | None => mret p
  | Some q =>
      let line := take (length (until_nul p) - length q) p in
      match fuel with
      | O => out_of_fuel
      | S fuel' =>
          (if match_ pattern line then call (Swrite 1 (line ++ [newline]));; mret tt else mret tt);;
          grep_lines fuel' pattern (drop (S (length line)) p)
      end
  end.

(** The outer loop: [left] are the m bytes kept in buf. *)
Definition grep_body (pattern : list Z) (fd : Z) (left : list Z) : M ust (list Z + unit) :=
  r ← sys (Sread fd (1024 - Z.of_nat (length left) - 1));
  if 0 <? ret r then
    let buf := left ++ out r in
    p ← grep_lines (length buf) pattern buf;
    mret (inl p)
  else mret (inr tt).

Definition grep (pattern : list Z) (fd : Z) : M ust unit := loop (grep_body pattern fd) [].

Fixpoint grep_files (pattern : list Z) (files : list (list Z)) : M ust unit :=
  match files with
  | [] => mret tt
  | f :: files' =>
      fd ← call (Sopen f 0);
      if fd <? 0 then
        printf (str "grep: cannot open %s" ++ [newline]) [UStr (Some f)];;
        uexit 1
      else
        grep pattern fd;;
        call (Sclose fd);;
        grep_files pattern files'
  end.

Definition main (argv : list (list Z)) : M ust unit :=
  match argv with
  | _ :: pattern :: [] => grep pattern 0;; uexit 0
  | _ :: pattern :: files => grep_files pattern files;; uexit 0
  | _ => fprintf 2 (str "usage: grep pattern [file ...]" ++ [newline]) [];; uexit 1
  end.

(** ** The language of a pattern *)

(** A single character: one that is given, or any. *)
Definition accepts (c t : Z) : Prop := c = dot \/ c = t.

Inductive item := One (c : Z) | Many (c : Z).

(** The items of a pattern without its caret, and whether a dollar ends it. *)
Fixpoint items (re : list Z) : list item * bool :=
  match re with
  | [] => ([], false)
  | c :: re1 =>
      match re1 with
      | d :: re2 =>
          if d =? star then let '(its, e) := items re2 in (Many c :: its, e)
          else let '(its, e) := items re1 in (One c :: its, e)
      | [] => if c =? dollar then ([], true) else ([One c], false)
      end
  end.

(** The words of a sequence of items. *)
Inductive word : list item -> list Z -> Prop :=
| word_nil : word [] []
| word_one c t its w : accepts c t -> word its w -> word (One c :: its) (t :: w)
| word_many c u its w : Forall (accepts c) u -> word its w -> word (Many c :: its) (u ++ w).

(** [text] starts with a word of [re], which is all of it after a dollar. *)
Definition starts (re text : list Z) : Prop :=
  exists w rest, text = w ++ rest /\ word (items re).1 w /\ ((items re).2 = true -> rest = []).

Definition matches (re text : list Z) : Prop :=
  if bool_decide (head re = Some caret) then starts (tail re) text
  else exists before rest, text = before ++ rest /\ starts re rest.

Lemma accepts_spec c t : (c =? dot) || (c =? t) = true <-> accepts c t.
Proof. unfold accepts. rewrite orb_true_iff, !Z.eqb_eq. done. Qed.

Lemma matchstar_spec c here text :
  matchstar c here text = true <->
  exists u rest, text = u ++ rest /\ Forall (accepts c) u /\ here rest = true.
Proof.
  induction text as [|t text IH]; cbn [matchstar]; destruct (here _) eqn:Eh.
  - split; [|done]. intros _. by exists [], [].
  - split; [done|]. intros (u & rest & E & _ & H). symmetry in E. apply app_nil in E as [-> ->]. congruence.
  - split; [|done]. intros _. by exists [], (t :: text).
  - assert (((t =? c) || (c =? dot)) = ((c =? dot) || (c =? t))) as -> by (rewrite orb_comm; f_equal; apply Z.eqb_sym).
    destruct ((c =? dot) || (c =? t)) eqn:Ea.
    + apply accepts_spec in Ea. rewrite IH. split.
      * intros (u & rest & -> & Hu & H). exists (t :: u), rest. split; [done|]. by split; [constructor|].
      * intros (u & rest & E & Hu & H). destruct u as [|t' u]; cbn in E; [subst; congruence|].
        injection E as <- ->. inversion Hu; subst. by exists u, rest.
    + split; [done|]. intros (u & rest & E & Hu & H). destruct u as [|t' u]; cbn in E; [subst; congruence|].
      injection E as <- ->. inversion Hu as [|? ? Ht]; subst. apply accepts_spec in Ht. congruence.
Qed.

Lemma starts_one c re text its e :
  items re = (its, e) ->
  (exists w rest, text = w ++ rest /\ word (One c :: its) w /\ (e = true -> rest = [])) <->
  exists t text', text = t :: text' /\ accepts c t /\ starts re text'.
Proof.
  intros E. unfold starts. rewrite E. cbn. split.
  - intros (w & rest & -> & Hw & He). inversion Hw as [|? t ? w' Ha Hw'|]; subst.
    exists t, (w' ++ rest). split; [done|]. split; [done|]. by exists w', rest.
  - intros (t & text' & -> & Ha & w & rest & -> & Hw & He).
    exists (t :: w), rest. split; [done|]. by split; [constructor|].
Qed.

Lemma starts_many c re text its e :
  items re = (its, e) ->
  (exists w rest, text = w ++ rest /\ word (Many c :: its) w /\ (e = true -> rest = [])) <->
  exists u text', text = u ++ text' /\ Forall (accepts c) u /\ starts re text'.
Proof.
  intros E. unfold starts. rewrite E. cbn. split.
  - intros (w & rest & -> & Hw & He). inversion Hw as [| |? u ? w' Ha Hw']; subst.
    exists u, (w' ++ rest). rewrite app_assoc. split; [done|]. split; [done|]. by exists w', rest.
  - intros (u & text' & -> & Ha & w & rest & -> & Hw & He).
    exists (u ++ w), rest. rewrite app_assoc. split; [done|]. by split; [constructor|].
Qed.

(** One character of the text, then [re1]. *)
Lemma step_spec c re1 text (here : list Z -> bool) :
  (forall t, here t = true <-> starts re1 t) ->
  match text with
  | t :: text' => if (c =? dot) || (c =? t) then here text' else false
  | [] => false
  end = true <-> exists t text', text = t :: text' /\ accepts c t /\ starts re1 text'.
Proof.
  intros H. destruct text as [|t text]; [by split; [|intros (? & ? & ? & _)]|].
  destruct ((c =? dot) || (c =? t)) eqn:Ea.
  - apply accepts_spec in Ea. rewrite H. split; [by eauto|]. by intros (? & ? & [= <- <-] & _ & ?).
  - split; [done|]. intros (? & ? & [= <- <-] & Ha & _). apply accepts_spec in Ha. congruence.
Qed.

Lemma matchhere_spec re text : matchhere re text = true <-> starts re text.
Proof.
  revert text. induction re as [re IH] using (induction_ltof1 _ (@length Z)). unfold ltof in IH. intros text.
  destruct re as [|c [|d re2]].
  - split; [|done]. intros _. exists [], text. split; [done|]. by split; [constructor|].
  - cbn [matchhere]. destruct (c =? dollar) eqn:Ed.
    + unfold starts. cbn. rewrite Ed. cbn. destruct text as [|t text].
      * split; [|done]. intros _. exists [], []. by repeat constructor.
      * split; [done|]. intros (w & rest & E & Hw & He). rewrite (He eq_refl) in E. by inversion Hw; subst.
    + rewrite (step_spec c [] text (matchhere [])) by (intros; apply IH; cbn; lia).
      rewrite <- (starts_one c [] text [] false) by done. unfold starts. cbn. by rewrite Ed.
  - cbn [matchhere]. destruct (d =? star) eqn:Es.
    + rewrite matchstar_spec. destruct (items re2) as [its e] eqn:E2.
      transitivity (exists u text', text = u ++ text' /\ Forall (accepts c) u /\ starts re2 text').
      { split; intros (u & rest & -> & Hu & H); exists u, rest; (split; [done|]; split; [done|]);
          apply (IH re2); cbn; done || lia. }
      rewrite <- (starts_many c re2 text its e) by done. unfold starts. cbn [items]. by rewrite Es, E2.
    + destruct (items (d :: re2)) as [its e] eqn:E2.
      rewrite (step_spec c (d :: re2) text (matchhere (d :: re2))) by (intros; apply IH; cbn; lia).
      rewrite <- (starts_one c (d :: re2) text its e) by done. unfold starts.
      cbn [items] in *. rewrite Es. cbn [items] in E2. by rewrite E2.
Qed.

Lemma match_from_spec re text :
  match_from re text = true <-> exists before rest, text = before ++ rest /\ starts re rest.
Proof.
  induction text as [|t text IH]; cbn [match_from]; destruct (matchhere re _) eqn:E.
  1, 3: split; [|done]; intros _; apply matchhere_spec in E; by eexists [], _.
  - split; [done|]. intros (b & rest & Eb & H). symmetry in Eb. apply app_nil in Eb as [-> ->].
    apply matchhere_spec in H. congruence.
  - rewrite IH. split.
    + intros (b & rest & -> & H). by exists (t :: b), rest.
    + intros (b & rest & Eb & H). destruct b as [|t' b]; cbn in Eb.
      * subst. apply matchhere_spec in H. congruence.
      * injection Eb as <- ->. by exists b, rest.
Qed.

(** C23: match() decides the language of the pattern: some part of the text is a
    word of the sequence of characters, dots and starred characters that the pattern
    denotes, at the start of the text after a caret and at its end before a dollar.
    The matcher, which looks for the shortest repetition first, backtracks enough to
    find it, and terminates on every pattern and text. *)
Theorem match_correct re text : match_ re text = true <-> matches re text.
Proof.
  unfold match_, matches. destruct re as [|c re]; cbn [head tail].
  - apply match_from_spec.
  - destruct (Z.eqb_spec c caret) as [->|Hc].
    + rewrite bool_decide_eq_true_2 by done. apply matchhere_spec.
    + rewrite bool_decide_eq_false_2 by congruence. apply match_from_spec.
Qed.

(** ** What the program prints *)

(** The complete lines of [data] and the line that is not complete, when [cur] has
    been read of the first one. *)
Fixpoint feed (cur data : list Z) : list (list Z) * list Z :=
  match data with
  | [] => ([], cur)
  | c :: data' =>
      if c =? newline then let '(ls, r) := feed [] data' in (cur :: ls, r)
      else feed (cur ++ [c]) data'
  end.

Definition selected (pattern : list Z) (ls : list (list Z)) : list Z :=
  filter (fun l => match_ pattern l = true) ls ≫= (fun l => l ++ [newline]).

(** The lines of [data] that match, a last line without newline left out. *)
Definition grep_spec (pattern data : list Z) : list Z := selected pattern (feed [] data).1.

Definition text_reply (r : reply) : Prop := Forall (fun b => b <> 0) (out r).

Lemma feed_app cur a b :
  feed cur (a ++ b) =
  ((feed cur a).1 ++ (feed (feed cur a).2 b).1, (feed (feed cur a).2 b).2).
Proof.
  revert cur. induction a as [|c a IH]; intros cur; cbn; [by destruct (feed cur b)|].
  destruct (c =? newline); [|apply IH]. rewrite IH. by destruct (feed [] a).
Qed.

Lemma feed_line cur line : newline ∉ line -> feed cur line = ([], cur ++ line).
Proof.
  revert cur. induction line as [|c line IH]; intros cur H; cbn; [by rewrite app_nil_r|].
  apply not_elem_of_cons in H as [Hc H]. rewrite (proj2 (Z.eqb_neq c newline)) by congruence.
  rewrite IH by done. by rewrite <- app_assoc.
Qed.

(** What the loop keeps has no newline, so it is what [feed] keeps. *)
Lemma feed_rest cur data : newline ∉ cur -> newline ∉ (feed cur data).2.
Proof.
  revert cur. induction data as [|c data IH]; intros cur H; cbn; [done|].
  destruct (Z.eqb_spec c newline).
  - specialize (IH [] ltac:(set_solver)). by destruct (feed [] data).
  - apply IH. set_solver.
Qed.

Lemma feed_text (P : Z -> Prop) cur data : Forall P cur -> Forall P data -> Forall P (feed cur data).2.
Proof.
  intros Hc Hd. revert cur Hc. induction Hd as [|c data Hx _ IH]; intros cur Hc; cbn; [done|].
  destruct (c =? newline).
  - specialize (IH [] ltac:(constructor)). by destruct (feed [] data).
  - apply IH, Forall_app. by repeat constructor.
Qed.

Lemma feed_again a b : feed [] ((feed [] a).2 ++ b) = feed (feed [] a).2 b.
Proof.
  rewrite feed_app. rewrite feed_line by (apply feed_rest; set_solver). cbn. by destruct (feed _ b).
Qed.

Lemma selected_app pattern a b : selected pattern (a ++ b) = selected pattern a ++ selected pattern b.
Proof. unfold selected. by rewrite filter_app, bind_app. Qed.

Lemma selected_cons pattern l ls :
  selected pattern (l :: ls) = (if match_ pattern l then l ++ [newline] else []) ++ selected pattern ls.
Proof. unfold selected. rewrite filter_cons. case_decide as H; [by rewrite H|]. by destruct (match_ pattern l). Qed.

Lemma until_nul_text p : Forall (fun b => b <> 0) p -> until_nul p = p.
Proof.
  induction 1 as [|b p Hb _ IH]; cbn; [done|]. apply Z.eqb_neq in Hb. by rewrite Hb, IH.
Qed.

Lemma prints_line (pattern line : list Z) :
  prints 1 (selected pattern [line])
    (if match_ pattern line then call (Swrite 1 (line ++ [newline]));; mret tt else mret tt).
Proof.
  rewrite selected_cons. destruct (match_ pattern line); [|apply prints_ret].
  apply prints_bind; [apply prints_write|intros; apply prints_ret].
Qed.

Lemma wps_grep_lines pattern fuel p s (Q : list Z -> ust -> Prop) (R : ust -> Prop) :
  (length p <= fuel)%nat -> Forall (fun b => b <> 0) p ->
  (forall s' tr, extends s s' tr -> only_writes 1 tr -> outs 1 tr = selected pattern (feed [] p).1 ->
     Q (feed [] p).2 s') ->
  (forall s' tr, extends s s' tr -> only_writes 1 tr -> outs 1 tr `prefix_of` selected pattern (feed [] p).1 -> R s') ->
  wps (grep_lines fuel pattern p) Q R s.
Proof.
  revert p s. induction fuel as [|fuel IH]; intros p s Hf Hp HQ HR; cbn [grep_lines];
    rewrite until_nul_text by done; pose proof (strchr_spec p newline) as Hs;
    destruct (strchr p newline) as [q|].
  2, 4: ustep; rewrite feed_line in HQ by done; eapply HQ; [apply extends_nil|constructor|done].
  all: destruct Hs as (line & q' & -> & -> & Hl).
  { rewrite length_app in Hf. cbn in Hf. lia. }
  rewrite length_app, Nat.add_sub, take_app_length. cbn [length] in Hf.
  rewrite feed_app, feed_line in HQ, HR by done. cbn [fst snd app feed] in HQ, HR.
  change (newline =? newline) with true in HQ, HR. cbn iota in HQ, HR.
  destruct (feed [] q') as [ls r] eqn:Eq. cbn [fst snd] in HQ, HR. rewrite selected_cons in HQ, HR.
  assert (drop (S (length line)) (line ++ newline :: q') = q') as ->.
  { rewrite drop_app_ge by lia. by replace (S (length line) - length line)%nat with 1%nat by lia. }
  apply Forall_app in Hp as [_ Hp]. inversion Hp; subst.
  apply wps_bind, prints_line; rewrite selected_cons, app_nil_r; [intros _ s1 t1 E1 W1 O1|intros s1 t1 E1 W1 O1].
  - apply IH; [rewrite length_app in Hf; cbn in Hf; lia|done|..]; intros s2 t2 E2 W2 O2; rewrite Eq in O2; rewrite ?Eq.
    + eapply HQ; [by eapply extends_trans|by apply only_writes_app|]. by rewrite outs_app, O1, O2.
    + eapply HR; [by eapply extends_trans|by apply only_writes_app|]. rewrite outs_app, O1. by apply prefix_app.
  - eapply HR; [done..|]. by apply prefix_app_r.
Qed.


(** Two lines, the second in two pieces. *)
Definition demo_env : list reply :=
  [mk_reply 5 (str "axb" ++ [newline] ++ str "a"); mk_reply 4 [];
   mk_reply 4 (str "xc" ++ [newline] ++ str "b"); mk_reply 0 []].


End Grep.
