(* ===== verification/UmallocProofs.v ===== *)
(** * malloc and free keep the memory divided

    [heap s F A O]: the memory [O] obtained from sbrk() is divided into the free blocks
    [F], which the list of free blocks has in the order of their addresses and of
    which no two are adjacent, and the allocated blocks [A].  A block is its address and its
    number of units of 16 bytes, header included. *)

From Stdlib Require Import ZArith Lia.
From stdpp Require Import base list gmap sets sorting.
From S2P Require Import Prelude Umalloc.

Module UmallocProofs.
Import Umalloc.

Abbreviation block := (Z * Z)%type.

(** The units of a block, by their addresses. *)
Definition cells (b : block) : list Z := (fun i => b.1 + 16 * i) <$> zseq 0 (Z.to_nat b.2).

Lemma elem_of_cells x (b : block) : x ∈ cells b <-> exists i, 0 <= i < b.2 /\ x = b.1 + 16 * i.
Proof.
  unfold cells. rewrite list_elem_of_fmap. setoid_rewrite elem_of_zseq. split.
  - intros (i & -> & Hi). exists i. lia.
  - intros (i & Hi & ->). exists i. lia.
Qed.

Lemma cells_split a n m : 0 <= n -> 0 <= m -> cells (a, n + m) = cells (a, n) ++ cells (a + 16 * n, m).
Proof.
  intros Hn Hm. unfold cells. cbn [fst snd]. replace (Z.to_nat (n + m)) with (Z.to_nat n + Z.to_nat m)%nat by lia.
  rewrite zseq_app, fmap_app. f_equal. apply list_eq. intros k. rewrite !list_lookup_fmap.
  destruct (decide (k < Z.to_nat m)%nat) as [Hk|Hk]; [rewrite !zseq_lookup by done; cbn; f_equal; lia|].
  by rewrite !(proj2 (lookup_ge_None _ _)) by (rewrite length_zseq; lia).
Qed.

(** The limit of the addresses: the size of a process has 32 bits (growproc). *)
Definition LIM : Z := 2 ^ 32.

(** ** The list of free blocks *)

Definition hd (e : Z) (L : list block) : Z := match L with [] => e | b :: _ => b.1 end.

Fixpoint seg (s : umst) (L : list block) (e : Z) : Prop :=
  match L with
  | [] => True
  | b :: L' => h_size s b.1 = b.2 /\ h_ptr s b.1 = hd e L' /\ seg s L' e
  end.

Lemma seg_app s L1 L2 e : seg s (L1 ++ L2) e <-> seg s L1 (hd e L2) /\ seg s L2 e.
Proof.
  induction L1 as [|b L1 IH]; cbn; [tauto|]. rewrite IH.
  assert (hd e (L1 ++ L2) = hd (hd e L2) L1) as -> by by destruct L1. tauto.
Qed.

Lemma seg_ext s s' L e :
  (forall a, a ∈ L.*1 -> h_ptr s' a = h_ptr s a /\ h_size s' a = h_size s a) -> seg s L e -> seg s' L e.
Proof.
  induction L as [|b L IH]; cbn; [done|]. intros Hs (H1 & H2 & H3).
  destruct (Hs b.1 ltac:(set_solver)) as [-> ->]. split_and!; [done|done|]. apply IH; [|done]. set_solver.
Qed.

Definition before (x y : block) : Prop := x.1 + 16 * x.2 < y.1.

Section proofs.
Context (base : Z).

Definition block_ok (b : block) : Prop := 1 <= b.2 /\ base < b.1 /\ b.1 mod 16 = 0 /\ b.1 + 16 * b.2 <= LIM.

Record inv (s : umst) (F A : list block) (O : list Z) : Prop := {
  iv_seg : seg s ((base, 0) :: F) base;
  iv_sorted : StronglySorted before ((base, 0) :: F);
  iv_ok : Forall block_ok (F ++ A);
  iv_alloc : Forall (fun b => h_size s b.1 = b.2) A;
  iv_part : (F ++ A) ≫= cells ≡ₚ O;
  iv_nodup : NoDup O;
  iv_freep : freep s ∈ ((base, 0) :: F).*1;
}.

(** Two blocks of a division do not overlap. *)
Lemma blocks_apart (B B' : list block) (x y : block) :
  NoDup (B ≫= cells) -> Forall block_ok B -> B ≡ₚ x :: y :: B' -> x.1 + 16 * x.2 <= y.1 \/ y.1 + 16 * y.2 <= x.1.
Proof.
  intros Hnd Hok EB. rewrite EB in Hnd, Hok. cbn in Hnd. apply Forall_cons in Hok as [Hx Hok]. apply Forall_cons in Hok as [Hy _].
  destruct (decide (x.1 + 16 * x.2 <= y.1 \/ y.1 + 16 * y.2 <= x.1)) as [|Hn]; [done|]. exfalso.
  apply NoDup_app in Hnd as (_ & Hd & _). destruct Hx as (? & ? & Mx & ?), Hy as (? & ? & My & ?). apply (Hd (Z.max x.1 y.1)).
  - apply elem_of_cells. exists ((Z.max x.1 y.1 - x.1) / 16). split; divlia.
  - apply elem_of_app. left. apply elem_of_cells. exists ((Z.max x.1 y.1 - y.1) / 16). split; divlia.
Qed.

Lemma alloc_apart s F A A' O (b c : block) : inv s F A O -> A ≡ₚ b :: A' -> c ∈ F ++ A' ->
  b.1 + 16 * b.2 <= c.1 \/ c.1 + 16 * c.2 <= b.1.
Proof.
  intros [] EA [l Hl]%elem_of_Permutation. apply (blocks_apart (F ++ A) l); [by rewrite iv_part0|done|].
  rewrite EA, <- Permutation_middle, Hl. done.
Qed.

(** ** Walking around the list *)

Section walk.
Context (s : umst) (L : list block).
Hypothesis Hseg : seg s L (hd 0 L).

Definition at_ (k : nat) : Z := default 0 (L.*1 !! k).
Definition nxt (k : nat) : nat := if decide (S k = length L) then 0%nat else S k.
(** The steps from [k] to [t]. *)
Definition dist (k t : nat) : nat := if decide (k <= t)%nat then (t - k)%nat else (length L - k + t)%nat.

Lemma dist_nxt k t : (k < length L)%nat -> (t < length L)%nat -> k <> t -> dist k t = S (dist (nxt k) t) /\ (nxt k < length L)%nat.
Proof. intros Hk Ht Hne. unfold dist, nxt. repeat case_decide; lia. Qed.

Lemma dist_start f : (f < length L)%nat -> dist (nxt f) f = (length L - 1)%nat /\ (nxt f < length L)%nat.
Proof. intros Hf. unfold dist, nxt. repeat case_decide; lia. Qed.

Lemma dist_le k t : (k < length L)%nat -> (t < length L)%nat -> (dist k t <= length L - 1)%nat.
Proof. intros Hk Ht. unfold dist. case_decide; lia. Qed.

Lemma at_lookup k b : L !! k = Some b -> at_ k = b.1.
Proof. intros E. unfold at_. by rewrite list_lookup_fmap, E. Qed.

Lemma at_next k : (k < length L)%nat -> h_ptr s (at_ k) = at_ (nxt k).
Proof.
  intros Hk. destruct (lookup_lt_is_Some_2 L k Hk) as [b Eb]. rewrite (at_lookup _ _ Eb).
  rewrite <- (take_drop_middle _ _ _ Eb) in Hseg at 1. apply seg_app in Hseg as [_ (_ & -> & _)].
  unfold nxt. destruct (decide (S k = length L)) as [E|E].
  - rewrite drop_ge by lia. unfold at_. by destruct L.
  - destruct (lookup_lt_is_Some_2 L (S k) ltac:(lia)) as [c Ec]. rewrite (drop_S _ _ _ Ec). by rewrite (at_lookup _ _ Ec).
Qed.

Lemma at_size k b : L !! k = Some b -> h_size s (at_ k) = b.2.
Proof.
  intros Eb. rewrite (at_lookup _ _ Eb). rewrite <- (take_drop_middle _ _ _ Eb) in Hseg at 1.
  by apply seg_app in Hseg as [_ (-> & _ & _)].
Qed.
End walk.

(** In a sorted list, the element after which an address belongs. *)
Definition place (L : list block) (bp : Z) (L1 : list block) (x : block) (L2 : list block) : Prop :=
  L = L1 ++ x :: L2 /\ x.1 < bp /\ Forall (fun y => bp < y.1) L2.

Lemma sorted_middle L1 x L2 : StronglySorted before (L1 ++ x :: L2) ->
  Forall (fun y => before y x) L1 /\ Forall (before x) L2 /\ StronglySorted before L2.
Proof.
  intros Hs. induction L1 as [|b L1 IH]; cbn in Hs; apply StronglySorted_inv in Hs as [Hs Hb]; [done|].
  destruct (IH Hs) as (H1 & H2 & H3). split; [|done]. constructor; [|done]. apply Forall_app in Hb as [_ [Hb _]%Forall_cons]. done.
Qed.

Lemma place_exists L x0 bp : StronglySorted before (x0 :: L) -> Forall (fun y => 0 <= y.2) (x0 :: L) -> x0.1 < bp -> bp ∉ L.*1 ->
  exists L1 x L2, place (x0 :: L) bp L1 x L2.
Proof.
  revert x0. induction L as [|y L IH]; intros x0 Hs H0 Hlt Hin; [by exists [], x0, []|].
  apply StronglySorted_inv in Hs as [Hs Hx]. apply Forall_cons in H0 as [Hx0 H0]. cbn in Hin.
  destruct (decide (y.1 < bp)) as [Hy|Hy].
  - destruct (IH y Hs H0 Hy ltac:(set_solver)) as (L1 & x & L2 & E & Hx1 & Hx2). exists (x0 :: L1), x, L2.
    split; [by rewrite E|done].
  - exists [], x0, (y :: L). split_and!; [done|done|]. assert (bp <> y.1) by set_solver.
    constructor; [lia|]. apply StronglySorted_inv in Hs as [_ Hy2]. apply Forall_cons in H0 as [Hy0 _].
    eapply Forall_impl; [exact Hy2|]. unfold before. cbn. intros. lia.
Qed.

(** ** free *)

Lemma wp_ptr a (Q : Z -> umst -> Prop) s : Q (h_ptr s a) s -> wp (ptr a) Q s.
Proof. done. Qed.
Lemma wp_size a (Q : Z -> umst -> Prop) s : Q (h_size s a) s -> wp (size a) Q s.
Proof. done. Qed.

(** Where the loop of free may stop. *)
Lemma stop_place s F bp k x :
  let L := (base, 0) :: F in
  seg s L base -> StronglySorted before L -> Forall (fun y => 0 <= y.2) L -> base < bp -> L !! k = Some x -> bp ∉ L.*1 ->
  let q := h_ptr s x.1 in
  (x.1 < bp /\ bp < q \/ q <= x.1 /\ (x.1 < bp \/ bp < q)) <-> place L bp (take k L) x (drop (S k) L).
Proof.
  intros L Hseg Hs H0 Hb Ex Hin q. assert (base <= x.1) as Hx.
  { destruct k as [|k]; [by injection Ex as <-|]. apply StronglySorted_inv in Hs as [_ Hs].
    pose proof (Forall_lookup_1 _ _ _ _ Hs Ex) as Hx. unfold before in Hx. cbn in Hx. lia. }
  rewrite <- (take_drop_middle _ _ _ Ex) in Hseg, Hs. apply sorted_middle in Hs as (_ & Ha & Hs2).
  apply seg_app in Hseg as [_ (_ & Eq & _)]. fold q in Eq. unfold place. rewrite take_drop_middle by done.
  pose proof (Forall_drop _ (S k) _ H0) as H0'. assert (bp ∉ (drop (S k) L).*1) as Hin'.
  { intros Hd. apply Hin. rewrite <- (take_drop (S k) L), fmap_app. apply elem_of_app. by right. }
  pose proof (Forall_lookup_1 _ _ _ _ H0 Ex) as Hx0. cbn in Hx0.
  destruct (drop (S k) L) as [|c D]; cbn in Eq; rewrite Eq; [split; [intros; split_and!; [done|lia|constructor]|intros (_ & ? & _); right; lia]|].
  apply Forall_cons in Ha as [Hc HD]. apply Forall_cons in H0' as [Hc0 _]. unfold before in Hc, HD. cbn in Hin'. split.
  - intros Hst. assert (x.1 < bp < c.1) by lia. split_and!; [done|lia|]. constructor; [lia|].
    apply StronglySorted_inv in Hs2 as [_ Hs2]. eapply Forall_impl; [exact Hs2|]. unfold before. cbn. intros. lia.
  - intros (_ & Hlt & [Hlt' _]%Forall_cons). lia.
Qed.

Lemma wp_free_loop s F bp fuel k (Q : Z -> umst -> Prop) :
  let L := (base, 0) :: F in
  seg s L base -> StronglySorted before L -> Forall (fun y => 0 <= y.2) L -> base < bp -> bp ∉ L.*1 ->
  (k < length L)%nat -> (length L <= S fuel)%nat ->
  (forall L1 x L2, place L bp L1 x L2 -> Q x.1 s) -> wp (free_loop fuel bp (at_ L k)) Q s.
Proof.
  intros L Hseg Hs H0 Hb Hin Hk Hfuel HQ.
  destruct (place_exists F (base, 0) bp) as (L1 & x & L2 & Ht); [done|done|done|set_solver|]. fold L in Ht.
  set (t := length L1). assert (L !! t = Some x) as Et by (destruct Ht as [-> _]; by apply list_lookup_middle).
  assert (place L bp (take t L) x (drop (S t) L)) as Hx.
  { destruct Ht as (E & ? & ?). unfold t. rewrite E. rewrite take_app_length, drop_app_ge, Nat.sub_succ_l, Nat.sub_diag by lia. done. }
  pose proof (lookup_lt_Some _ _ _ Et) as Htl. pose proof (dist_le L k t Hk Htl) as Hd.
  assert (dist L k t <= fuel)%nat as Hf by lia. clear Hfuel Hd. revert k Hk Hf.
  induction fuel as [|fuel IH]; intros k Hk Hf; cbn [free_loop]; bstep; apply wp_ptr;
    destruct (lookup_lt_is_Some_2 L k Hk) as [y Ey];
    pose proof (stop_place s F bp k y Hseg Hs H0 Hb Ey Hin) as Hst; cbv zeta in Hst; rewrite (at_lookup L _ _ Ey).
  - assert (k = t) as -> by (unfold dist in Hf; case_decide; lia). assert (y = x) as -> by congruence.
    destruct ((x.1 <? bp) && (bp <? h_ptr s x.1)) eqn:E1; [bstep; by eapply HQ|].
    destruct ((h_ptr s x.1 <=? x.1) && ((x.1 <? bp) || (bp <? h_ptr s x.1))) eqn:E2; [bstep; by eapply HQ|]. apply Hst in Hx. lia.
  - destruct ((y.1 <? bp) && (bp <? h_ptr s y.1)) eqn:E1; [bstep; eapply HQ, Hst; lia|].
    destruct ((h_ptr s y.1 <=? y.1) && ((y.1 <? bp) || (bp <? h_ptr s y.1))) eqn:E2; [bstep; eapply HQ, Hst; lia|].
    rewrite <- (at_lookup L _ _ Ey), (at_next s L) by done. destruct (decide (k = t)) as [->|Hne].
    { assert (y = x) as -> by congruence. apply Hst in Hx. lia. }
    destruct (dist_nxt L k t Hk Htl Hne) as [Ed Hn]. apply IH; [done|lia].
Qed.


(** What free makes of the list: the block [b] is joined with the next free block and with the one before. *)
Definition joinr (b : block) (L : list block) : list block :=
  match L with
  | c :: L' => if b.1 + 16 * b.2 =? c.1 then (b.1, b.2 + c.2) :: L' else b :: L
  | [] => [b]
  end.
Definition joinl (x : block) (L : list block) : list block :=
  match L with
  | b :: L' => if x.1 + 16 * x.2 =? b.1 then (x.1, x.2 + b.2) :: L' else x :: L
  | [] => [x]
  end.

Lemma cells_join b L : 0 <= b.2 -> Forall (fun c => 0 <= c.2) L ->
  joinr b L ≫= cells = cells b ++ (L ≫= cells) /\ joinl b L ≫= cells = cells b ++ (L ≫= cells).
Proof.
  intros Hb HL. destruct L as [|[c n] L]; [done|]. apply Forall_cons in HL as [Hn _]. destruct b as [a m]. cbn in *.
  destruct (Z.eqb_spec (a + 16 * m) c) as [<-|]; [|done]. cbn. by rewrite cells_split, <- app_assoc.
Qed.

Lemma joinr_sorted b L :
  StronglySorted before L -> Forall (fun c => 0 <= c.2) L -> 0 <= b.2 -> Forall (fun c => b.1 + 16 * b.2 <= c.1) L ->
  exists n D, joinr b L = (b.1, n) :: D /\ b.2 <= n /\ StronglySorted before (joinr b L).
Proof.
  intros Hs H0 Hb HL. destruct L as [|c L]; [exists b.2, []; split_and!; [by destruct b|done|repeat constructor]|].
  apply StronglySorted_inv in Hs as [Hs Hc]. apply Forall_cons in HL as [Hbc HL]. apply Forall_cons in H0 as [Hc0 H0]. cbn.
  destruct (Z.eqb_spec (b.1 + 16 * b.2) c.1) as [E|E].
  - exists (b.2 + c.2), L. split_and!; [done|lia|]. constructor; [done|]. eapply Forall_impl; [exact Hc|]. unfold before. cbn. intros. lia.
  - exists b.2, (c :: L). split_and!; [by destruct b|done|]. constructor; [by constructor|]. constructor; [unfold before; lia|].
    eapply Forall_impl; [exact Hc|]. unfold before. cbn. intros. lia.
Qed.

Lemma joinl_sorted x b n D :
  StronglySorted before ((b, n) :: D) -> 0 <= n -> 0 <= x.2 -> x.1 + 16 * x.2 <= b ->
  exists m D', joinl x ((b, n) :: D) = (x.1, m) :: D' /\ x.2 <= m /\ StronglySorted before (joinl x ((b, n) :: D)).
Proof.
  intros [Hs Hb]%StronglySorted_inv Hn Hx Hle. cbn. destruct (Z.eqb_spec (x.1 + 16 * x.2) b) as [E|E].
  - exists (x.2 + n), D. split_and!; [done|lia|]. constructor; [done|]. eapply Forall_impl; [exact Hb|]. unfold before. cbn. intros. lia.
  - exists x.2, ((b, n) :: D). split_and!; [by destruct x|done|]. constructor; [by constructor|]. constructor; [unfold before; cbn; lia|].
    eapply Forall_impl; [exact Hb|]. unfold before. cbn. intros. lia.
Qed.

(** Only the header at [a] has changed. *)
Definition only (a : Z) (s s' : umst) : Prop :=
  (forall y, y <> a -> h_ptr s' y = h_ptr s y /\ h_size s' y = h_size s y) /\
  freep s' = freep s /\ replies s' = replies s /\ asked s' = asked s.

Lemma seg_only a s s' L e : only a s s' -> a ∉ L.*1 -> seg s L e -> seg s' L e.
Proof. intros [Ho _] Ha. apply seg_ext. intros y Hy. apply Ho. by intros ->. Qed.

Lemma plus_small a n : 0 <= a + 16 * n <= LIM -> plus a n = a + 16 * n.
Proof. intros H. unfold plus, u64, LIM in *. by rewrite Z.mod_small by lia. Qed.

Lemma wp_join_right s b L (Q : unit -> umst -> Prop) :
  0 <= base -> seg s L base -> h_size s b.1 = b.2 -> block_ok b -> Forall block_ok L -> b.1 ∉ L.*1 ->
  (forall s', only b.1 s s' -> seg s' (joinr b L) base -> Q tt s') ->
  wp (if plus b.1 b.2 =? hd base L then
        m ← size (hd base L);
        set_size b.1 (u32 (b.2 + m));;
        r ← ptr (hd base L);
        set_ptr b.1 r
      else set_ptr b.1 (hd base L)) Q s.
Proof.
  intros H0 Hseg Hsz (Hb1 & Hb2 & _ & Hb3) HL Hin HQ. rewrite plus_small by lia. destruct L as [|c L]; cbn [hd joinr] in *.
  - rewrite (proj2 (Z.eqb_neq _ _)) by lia. unfold set_ptr. bstep. apply HQ; [|by cbn; rewrite !Z.eqb_refl].
    split_and!; try done. intros y Hy. cbn. by rewrite (proj2 (Z.eqb_neq _ _)).
  - destruct Hseg as (Hc1 & Hc2 & Hc3). apply Forall_cons in HL as [(Hc4 & _ & _ & Hc5) HL]. cbn in Hin.
    assert (c.1 <> b.1 /\ b.1 ∉ L.*1) as [Hcb Hin'] by set_solver. clear Hin.
    destruct (Z.eqb_spec (b.1 + 16 * b.2) c.1) as [E|E].
    + bstep. apply wp_size. unfold set_size, set_ptr. bstep. bstep. bstep. apply wp_ptr. cbn. bstep.
      assert (u32 (b.2 + h_size s c.1) = b.2 + c.2) as -> by (rewrite Hc1; apply u32_small; unfold is_u32, LIM in *; lia).
      match goal with |- Q tt ?x => set (s' := x) end.
      assert (only b.1 s s') as Ho by (split_and!; try done; intros y Hy; cbn; by rewrite (proj2 (Z.eqb_neq _ _)) by done).
      apply HQ; [done|]. cbn. rewrite !Z.eqb_refl. split_and!; [done|done|by eapply seg_only].
    + unfold set_ptr. bstep. match goal with |- Q tt ?x => set (s' := x) end.
      assert (only b.1 s s') as Ho by (split_and!; try done; intros y Hy; cbn; by rewrite (proj2 (Z.eqb_neq _ _)) by done).
      apply HQ; [done|]. cbn -[seg]. split_and!; [done|cbn; by rewrite Z.eqb_refl|]. eapply seg_only; [done|cbn; set_solver|done].
Qed.

Lemma wp_join_left s x b n D (Q : unit -> umst -> Prop) :
  0 <= base -> base <= x.1 -> seg s ((b, n) :: D) base -> h_size s x.1 = x.2 -> 0 <= x.2 -> x.1 + 16 * x.2 <= LIM -> 0 <= n ->
  b + 16 * n <= LIM -> x.1 ∉ ((b, n) :: D).*1 ->
  (forall s', only x.1 s s' -> seg s' (joinl x ((b, n) :: D)) base -> Q tt s') ->
  wp (if plus x.1 x.2 =? b then
        n ← size b;
        set_size x.1 (u32 (x.2 + n));;
        r ← ptr b;
        set_ptr x.1 r
      else set_ptr x.1 b) Q s.
Proof.
  intros H0 Hx0 (Hb1 & Hb2 & Hb3) Hsz Hx1 Hx2 Hn Hbn Hin HQ. cbn in Hin, Hb1, Hb2, Hb3. rewrite plus_small by lia. cbn [joinl fst snd] in *.
  assert (b <> x.1 /\ x.1 ∉ D.*1) as [Hbx Hin'] by set_solver.
  destruct (Z.eqb_spec (x.1 + 16 * x.2) b) as [E|E].
  - bstep. apply wp_size. unfold set_size, set_ptr. bstep. bstep. bstep. apply wp_ptr. cbn. bstep.
    assert (u32 (x.2 + h_size s b) = x.2 + n) as -> by (rewrite Hb1; apply u32_small; unfold is_u32, LIM in *; lia).
    match goal with |- Q tt ?y => set (s' := y) end.
    assert (only x.1 s s') as Ho by (split_and!; try done; intros y Hy; cbn; by rewrite (proj2 (Z.eqb_neq _ _)) by done).
    apply HQ; [done|]. cbn. rewrite !Z.eqb_refl. split_and!; [done|done|by eapply seg_only].
  - unfold set_ptr. bstep. match goal with |- Q tt ?y => set (s' := y) end.
    assert (only x.1 s s') as Ho by (split_and!; try done; intros y Hy; cbn; by rewrite (proj2 (Z.eqb_neq _ _)) by done).
    apply HQ; [done|]. cbn -[seg]. split_and!; [done|cbn; by rewrite Z.eqb_refl|]. eapply seg_only; [done|cbn; set_solver|done].
Qed.

(** The new list, when [b] belongs after [x]. *)
Lemma join_list F A A' O s b L1 x L2 :
  inv s F A O -> A ≡ₚ b :: A' -> place ((base, 0) :: F) b.1 L1 x L2 ->
  exists F' n D m D', joinr b L2 = (b.1, n) :: D /\ joinl x ((b.1, n) :: D) = (x.1, m) :: D' /\
    L1 ++ (x.1, m) :: D' = (base, 0) :: F' /\ StronglySorted before ((base, 0) :: F') /\ (F' ++ A') ≫= cells ≡ₚ O /\
    Forall block_ok (F' ++ A') /\ Forall block_ok ((b.1, n) :: D) /\ StronglySorted before ((b.1, n) :: D) /\
    b.2 <= n /\ (n <= m \/ D' = (b.1, n) :: D) /\ (length F' <= S (length F))%nat.
Proof.
  intros Hinv EA (EL & Hx & HL2). pose proof Hinv as [Hseg Hs Hok Hal Hp Hnd Hf].
  assert (block_ok b /\ Forall block_ok A') as [Hb HA'] by (apply Forall_app in Hok as [_ Hok]; rewrite EA in Hok; by apply Forall_cons in Hok).
  apply Forall_app in Hok as [HF _]. assert (Forall (fun c => 0 <= c.2) ((base, 0) :: F)) as H0.
  { constructor; [done|]. eapply Forall_impl; [exact HF|]. intros c (? & _). lia. }
  assert (forall c, c ∈ F -> b.1 + 16 * b.2 <= c.1 \/ c.1 + 16 * c.2 <= b.1) as Hap.
  { intros c Hc. eapply alloc_apart; [done|done|]. apply elem_of_app. by left. }
  assert (Forall (fun c => b.1 + 16 * b.2 <= c.1) L2 /\ Forall block_ok L2) as [HbL Hok2].
  { rewrite Forall_forall in HL2. rewrite !Forall_forall. rewrite Forall_forall in HF.
    assert (forall c, c ∈ L2 -> c ∈ F) as Hin. { destruct L1; injection EL; intros; subst; set_solver. }
    split; intros c Hc; [|by apply HF, Hin]. specialize (HL2 c Hc). destruct (Hap c (Hin c Hc)); [done|]. 
    destruct (HF c (Hin c Hc)). lia. }
  rewrite EL in Hs, H0. apply Forall_app in H0 as [H01 [H0x H02]%Forall_cons].
  assert (x.1 + 16 * x.2 <= b.1) as Hxb.
  { destruct L1 as [|y L1]; injection EL as <- EF; [cbn in Hx |- *; lia|]. destruct (Hap x) as [|]; [|destruct Hb; lia|done]. rewrite EF. set_solver. }
  pose proof (sorted_middle _ _ _ Hs) as (Hs1 & _ & Hs2). destruct Hb as (Hb1 & Hb2 & Hb3 & Hb4).
  destruct (joinr_sorted b L2 Hs2 H02 ltac:(lia) HbL) as (n & D & ER & Hn & HsR). rewrite ER in HsR.
  destruct (joinl_sorted x b.1 n D HsR ltac:(lia) H0x Hxb) as (m & D' & EJ & Hm & HsJ). rewrite EJ in HsJ.
  assert (Forall block_ok ((b.1, n) :: D)) as HokR.
  { rewrite <- ER. unfold joinr. destruct L2 as [|c L2]; [repeat constructor; cbn; lia|].
    apply Forall_cons in Hok2 as [(Hc1 & Hc2 & Hc3 & Hc4) Hok2]. destruct (Z.eqb_spec (b.1 + 16 * b.2) c.1).
    - constructor; [split_and!; cbn; lia|done].
    - constructor; [done|]. by constructor. }
  assert ((L1 ++ (x.1, m) :: D') ≫= cells = (L1 ≫= cells) ++ cells x ++ cells b ++ (L2 ≫= cells)) as Ec.
  { rewrite bind_app, <- EJ. f_equal. rewrite (proj2 (cells_join x _ H0x ltac:(eapply Forall_impl; [exact HokR|]; intros ? (? & _); lia))), <- ER.
    f_equal. by apply cells_join; [lia|]. }
  assert (StronglySorted before (L1 ++ (x.1, m) :: D')) as HsN.
  { apply StronglySorted_app_2; [|by eapply StronglySorted_app_1_l|done]. intros y z Hy Hz. rewrite Forall_forall in Hs1. specialize (Hs1 y Hy).
    unfold before in *. apply elem_of_cons in Hz as [->|Hz]; [done|]. apply StronglySorted_inv in HsJ as [_ HsJ].
    rewrite Forall_forall in HsJ. specialize (HsJ z Hz). cbn in HsJ. lia. }
  assert (exists F', L1 ++ (x.1, m) :: D' = (base, 0) :: F' /\ Forall block_ok F') as (F' & EF' & HF').
  { destruct L1 as [|y L1]; injection EL as <- EF.
    - cbn [joinl fst snd] in EJ. rewrite (proj2 (Z.eqb_neq _ _)) in EJ by lia. injection EJ as <- <-. by exists ((b.1, n) :: D).
    - exists (L1 ++ (x.1, m) :: D'). split; [done|]. rewrite EF in HF. apply Forall_app in HF as [HF1 [(Hx1 & Hx2 & Hx3 & Hx4) _]%Forall_cons].
      apply Forall_app. split; [done|]. rewrite <- EJ. cbn [joinl fst snd]. apply Forall_cons in HokR as [(Hr1 & Hr2 & Hr3 & Hr4) HokD]. cbn in Hr1, Hr4.
      destruct (Z.eqb_spec (x.1 + 16 * x.2) b.1); constructor; [split_and!; cbn; lia|done|done|by constructor]. }
  exists F', n, D, m, D'. rewrite <- EF'. split_and!; [done|done|done|done| |by apply Forall_app|done|done|done| |].
  2: { cbn [joinl fst snd] in EJ. destruct (_ =? _); injection EJ; intros; subst; [left; lia|by right]. }
  2: { apply (f_equal length) in EF', EL. rewrite length_app in EF', EL. cbn in EF', EL.
       assert (length D <= length L2)%nat by (destruct L2 as [|c L2]; cbn in ER; [by injection ER as _ <-|]; destruct (_ =? _); injection ER as _ <-; cbn; lia).
       assert (length D' <= S (length D))%nat; [|lia]. cbn [joinl fst snd] in EJ. destruct (_ =? _); injection EJ as _ <-; cbn; lia. }
  assert (F' ≫= cells = (L1 ++ (x.1, m) :: D') ≫= cells) as Ec' by by rewrite EF'. rewrite bind_app, Ec', Ec.
  assert (F ≫= cells = (L1 ++ x :: L2) ≫= cells) as EcF by by rewrite <- EL. rewrite bind_app, EcF, EA, bind_app in Hp. cbn in Hp.
  rewrite <- Hp, <- !app_assoc. do 2 f_equiv. rewrite !app_assoc. f_equiv. apply Permutation_app_comm.
Qed.

(** The header of an allocated block, and where it is not. *)
Lemma free_header s F A A' O b : inv s F A O -> A ≡ₚ b :: A' ->
  h_size s b.1 = b.2 /\ (b.1 ∉ ((base, 0) :: F).*1) /\ (b.1 ∉ A'.*1).
Proof.
  intros Hinv EA. pose proof Hinv as [_ _ Hok Hal _ _ _]. rewrite EA in Hok, Hal. apply Forall_cons in Hal as [Hal _].
  rewrite <- Permutation_middle in Hok. apply Forall_cons in Hok as [(Hb1 & Hb2 & _ & _) Hok]. rewrite Forall_forall in Hok.
  assert (forall c, c ∈ F ++ A' -> c.1 <> b.1) as Hne.
  { intros c Hc. destruct (alloc_apart s F A A' O b c Hinv EA Hc); [lia|]. destruct (Hok c Hc) as (? & _). lia. }
  split_and!; [done| |].
  - cbn. rewrite not_elem_of_cons. split; [lia|]. intros (c & E & Hc)%list_elem_of_fmap. by apply (Hne c); [apply elem_of_app; left|].
  - intros (c & E & Hc)%list_elem_of_fmap. by apply (Hne c); [apply elem_of_app; right|].
Qed.

Lemma place_ok s F A O bp L1 x L2 : inv s F A O -> base < bp <= LIM -> place ((base, 0) :: F) bp L1 x L2 ->
  Forall block_ok L2 /\ base <= x.1 /\ 0 <= x.2 /\ x.1 + 16 * x.2 <= LIM.
Proof.
  intros [_ _ Hok _ _ _ _] Hb (EL & _ & _). apply Forall_app in Hok as [Hok _]. destruct L1 as [|y L1]; injection EL as <- ->.
  - split; [done|]. cbn. lia.
  - apply Forall_app in Hok as [_ [(? & ? & _ & ?) Hok]%Forall_cons]. split; [done|]. lia.
Qed.

(** What is stored in the blocks [A], headers included, has not changed. *)
Definition keeps (A : list block) (s s' : umst) : Prop :=
  forall a, a ∈ A ≫= cells -> h_ptr s' a = h_ptr s a /\ h_size s' a = h_size s a.

Lemma keeps_refl A s s' : h_ptr s' = h_ptr s -> h_size s' = h_size s -> keeps A s s'.
Proof. intros Ep Es a _. by rewrite Ep, Es. Qed.
Lemma keeps_blocks_trans A s1 s2 s3 : keeps A s1 s2 -> keeps A s2 s3 -> keeps A s1 s3.
Proof. intros H1 H2 a Ha. destruct (H2 a Ha) as [-> ->]. by apply H1. Qed.

(** The free blocks and the header of [base] are not in the allocated blocks. *)
Lemma unalloc_cell s F A O (y : block) a : inv s F A O -> y ∈ F -> a ∈ cells y -> a ∉ A ≫= cells.
Proof.
  intros [_ _ _ _ Hp Hnd _] Hy Ha. rewrite <- Hp, bind_app in Hnd. apply NoDup_app in Hnd as (_ & Hd & _). apply Hd.
  apply list_elem_of_bind. by exists y.
Qed.

Lemma unalloc s F A O (x : block) : inv s F A O -> x ∈ ((base, 0) :: F) -> x.1 ∉ A ≫= cells.
Proof.
  intros Hinv Hx. pose proof Hinv as [_ _ Hok _ _ _ _]. apply Forall_app in Hok as [HF HA]. rewrite Forall_forall in HF, HA.
  apply elem_of_cons in Hx as [->|Hx].
  - intros (b & Ha & Hb)%list_elem_of_bind. apply elem_of_cells in Ha as (i & Hi & E). destruct (HA b Hb) as (_ & ? & _). cbn in E. lia.
  - eapply unalloc_cell; [done|done|]. apply elem_of_cells. exists 0. destruct (HF x Hx). lia.
Qed.

Lemma unalloc_freed s F A A' O b : inv s F A O -> A ≡ₚ b :: A' -> b.1 ∉ A' ≫= cells.
Proof.
  intros Hinv EA. pose proof Hinv as [_ _ Hok _ Hp Hnd _]. rewrite <- Hp, bind_app, EA in Hnd. apply NoDup_app in Hnd as (_ & _ & Hnd).
  cbn in Hnd. apply NoDup_app in Hnd as (_ & Hd & _). apply Hd. apply elem_of_cells. exists 0.
  rewrite EA in Hok. apply Forall_app in Hok as [_ [(? & _) _]%Forall_cons]. lia.
Qed.

Lemma wp_free s F A A' O b fuel (Q : unit -> umst -> Prop) :
  0 <= base -> inv s F A O -> A ≡ₚ b :: A' -> (length F <= fuel)%nat ->
  (forall s' F', inv s' F' A' O -> replies s' = replies s -> asked s' = asked s -> (length F' <= S (length F))%nat ->
     Exists (fun c => b.2 <= c.2) F' -> keeps A' s s' -> Q tt s') ->
  wp (free fuel (plus b.1 1)) Q s.
Proof.
  intros H0 Hinv EA Hfuel HQ. pose proof Hinv as [Hseg Hs Hok Hal Hp Hnd Hf].
  assert (block_ok b) as Hb by (apply Forall_app in Hok as [_ Hok]; rewrite EA in Hok; by apply Forall_cons in Hok as [? _]).
  destruct (free_header s F A A' O b Hinv EA) as (Hsb & Hin & HinA). destruct Hb as (Hb1 & Hb2 & Hb3 & Hb4).
  unfold free. rewrite (plus_small b.1 1), plus_small by (unfold LIM in *; lia). replace (b.1 + 16 * 1 + 16 * (-1)) with b.1 by lia.
  bstep. bstep. bstep. apply list_elem_of_lookup_1 in Hf as [k Ek]. pose proof (lookup_lt_Some _ _ _ Ek) as Hk. rewrite length_fmap in Hk.
  assert (at_ ((base, 0) :: F) k = freep s) as <- by (unfold at_; by rewrite Ek).
  assert (Forall (fun y => 0 <= y.2) ((base, 0) :: F)) as H0L.
  { constructor; [done|]. apply Forall_app in Hok as [Hok _]. eapply Forall_impl; [exact Hok|]. intros c (? & _). lia. }
  eapply wp_free_loop; [done|done|done|done|done|done|cbn; lia|].
  intros L1 x L2 Hpl. destruct (join_list F A A' O s b L1 x L2 Hinv EA Hpl)
    as (F' & n & D & m & D' & ER & EJ & EL' & Hs' & Hp' & Hok' & HokR & HsR & Hn & Hnm & Hlen).
  destruct (place_ok s F A O b.1 L1 x L2 Hinv ltac:(lia) Hpl) as (Hok2 & Hx1 & Hx2 & Hx3).
  pose proof Hpl as (EL & Hx & HL2). clear Hpl. rewrite EL in Hseg, Hin. apply seg_app in Hseg as [Hseg1 (Hsx & Epx & Hseg2)].
  rewrite fmap_app, fmap_cons, not_elem_of_app, not_elem_of_cons in Hin. destruct Hin as (Hin1 & Hinx & Hin2).
  assert (x.1 ∉ (L1.*1)) as Hx1L.
  { rewrite EL in Hs. apply sorted_middle in Hs as (Hs1 & _ & _). intros (y & E & Hy)%list_elem_of_fmap. rewrite Forall_forall in Hs1, H0L. specialize (Hs1 y Hy).
    specialize (H0L y ltac:(rewrite EL; set_solver)). unfold before in Hs1. lia. }
  bstep. apply wp_ptr. bstep. apply wp_size. rewrite Epx, Hsb. bstep.
  apply wp_join_right; [done..|]. rewrite ER. intros s1 Ho1 HsegR. bstep. apply wp_size.
  pose proof Ho1 as (Ho1' & Ef1 & Er1 & Ea1). destruct (Ho1' x.1 ltac:(done)) as [_ Esx1]. rewrite Esx1, Hsx. bstep.
  apply Forall_cons in HokR as [(Hr1 & _ & _ & Hr2) HokD]. apply (wp_join_left s1 x b.1 n D); [done|done|done|congruence|done|done|cbn in *; lia|done| |].
  { cbn. apply StronglySorted_inv in HsR as [_ HsR]. rewrite not_elem_of_cons. split; [done|]. intros (d & E & Hd)%list_elem_of_fmap.
    rewrite Forall_forall in HsR. specialize (HsR d Hd). unfold before in HsR. cbn in HsR, Hr1. lia. }
  rewrite EJ. intros s2 Ho2 HsegJ. pose proof Ho2 as (Ho2' & Ef2 & Er2 & Ea2). unfold set_freep. bstep.
  assert (seg s2 ((base, 0) :: F') base) as HsegN.
  { rewrite <- EL'. apply seg_app. split; [|done]. cbn [hd fst]. eapply seg_only; [exact Ho2|done|]. eapply seg_only; [exact Ho1|done|done]. }
  apply (HQ _ F'); [|cbn; congruence|cbn; congruence|done| |].
  - split; [by eapply seg_ext; [|exact HsegN]|done|done| |done|done|].
    + rewrite EA in Hal. apply Forall_cons in Hal as [_ Hal]. apply Forall_forall. intros c Hc. rewrite Forall_forall in Hal.
      assert (c ∈ A) as [A2 EA2]%elem_of_Permutation by (rewrite EA; set_solver).
      destruct (free_header s F A A2 O c Hinv EA2) as (_ & HcF & _). rewrite EL, fmap_app in HcF. cbn [h_size].
      destruct (Ho2' c.1 ltac:(intros E; apply HcF; set_solver)) as [_ ->].
      destruct (Ho1' c.1 ltac:(intros E; apply HinA; rewrite <- E; apply list_elem_of_fmap; eauto)) as [_ ->]. by apply Hal.
    + cbn [freep]. rewrite <- EL', fmap_app, fmap_cons. set_solver.
  - assert (exists c, c ∈ ((base, 0) :: F') /\ b.2 <= c.2) as (c & Hc & Hle).
    { rewrite <- EL'. destruct Hnm as [Hnm| ->]; [exists (x.1, m)|exists (b.1, n)]; (split; [set_solver|cbn; lia]). }
    apply Exists_exists. exists c. split; [|done]. apply elem_of_cons in Hc as [->|Hc]; [cbn in Hle; lia|done].
  - intros a Ha. cbn [h_ptr h_size]. assert (x.1 ∉ A ≫= cells) as HxA by (eapply unalloc; [exact Hinv|rewrite EL; set_solver]).
    destruct (Ho2' a) as [-> ->]; [intros ->; apply HxA; rewrite EA; cbn; set_solver|]. apply Ho1'.
    intros ->. by eapply unalloc_freed.
Qed.

(** ** malloc *)

Lemma sorted_remove (l1 l2 : list block) y : StronglySorted before (l1 ++ y :: l2) -> StronglySorted before (l1 ++ l2).
Proof.
  intros (H1 & H2 & [H3 _]%StronglySorted_inv)%StronglySorted_app. apply StronglySorted_app_2; [|done|done].
  intros a b Ha Hb. apply H1; [done|]. by apply list_elem_of_further.
Qed.

(** The addresses of the list differ from each other and from those of the allocated blocks. *)
Lemma free_nodup s F A O : inv s F A O -> NoDup (((base, 0) :: F).*1 ++ A.*1).
Proof.
  intros Hinv. pose proof Hinv as [_ Hs Hok _ _ _ _]. apply Forall_app in Hok as [HF HA].
  apply NoDup_app. split_and!.
  - assert (Forall (fun c => 0 <= c.2) ((base, 0) :: F)) as H0.
    { constructor; [done|]. eapply Forall_impl; [exact HF|]. intros c (? & _). lia. }
    clear -Hs H0. induction Hs as [|b L Hs IH Hb]; [constructor|]. apply Forall_cons in H0 as [H0 H0']. cbn. constructor; [|auto].
    intros (c & E & Hc)%list_elem_of_fmap. rewrite Forall_forall in Hb. specialize (Hb c Hc). unfold before in Hb. lia.
  - intros a Ha (c & -> & Hc)%list_elem_of_fmap. apply elem_of_Permutation in Hc as [A' EA]. by destruct (free_header s F A A' O c Hinv EA) as (_ & ? & _).
  - clear Hs HF. assert (forall A' b, A ≡ₚ b :: A' -> b.1 ∉ A'.*1) as Hne by (intros A' b EA; by destruct (free_header s F A A' O b Hinv EA) as (_ & _ & ?)).
    clear Hinv HA. revert Hne. induction A as [|b A IH]; intros Hne; [constructor|]. cbn. constructor; [by apply (Hne A)|].
    apply IH. intros A' c EA Hc. apply (Hne (b :: A') c); [rewrite EA; apply Permutation_swap|]. cbn. by right.
Qed.

(** A free block of the right size is taken off the list. *)
Lemma take_exact s s' F1 x y L2 F A O :
  inv s F A O -> (base, 0) :: F = F1 ++ x :: y :: L2 ->
  (forall a, a <> x.1 -> h_ptr s' a = h_ptr s a) -> (forall a, h_size s' a = h_size s a) -> h_ptr s' x.1 = h_ptr s y.1 -> freep s' = x.1 ->
  exists F', inv s' F' (y :: A) O /\ (length F' <= length F)%nat.
Proof.
  intros Hinv EL Hpt Hsz Ept Efr. pose proof (free_nodup _ _ _ _ Hinv) as Hndup. pose proof Hinv as [Hseg Hs Hok Hal Hp Hnd Hf].
  assert (exists F', F1 ++ x :: L2 = (base, 0) :: F' /\ F ≡ₚ y :: F') as (F' & EF' & EF).
  { destruct F1 as [|z F1]; injection EL as <- ->; [exists L2|exists (F1 ++ x :: L2)]; [done|]. split; [done|].
    change (x :: y :: L2) with ([x] ++ y :: L2). by rewrite app_assoc, <- Permutation_middle, <- app_assoc. }
  exists F'. split; [|apply Permutation_length in EF; cbn in EF; lia]. rewrite EL in Hseg, Hs, Hndup.
  apply seg_app in Hseg as [Hseg1 (Hx1 & Hx2 & Hy1 & Hy2 & Hseg2)].
  rewrite !fmap_app, !fmap_cons in Hndup. apply NoDup_app in Hndup as ((_ & Hd1 & [Hd2 _]%NoDup_cons)%NoDup_app & _ & _).
  split.
  - rewrite <- EF'. apply seg_app. split; [|split_and!].
    + eapply seg_ext; [|exact Hseg1]. intros a Ha. rewrite Hpt, Hsz; [done|]. intros ->. apply (Hd1 _ Ha). set_solver.
    + by rewrite Hsz.
    + by rewrite Ept.
    + eapply seg_ext; [|exact Hseg2]. intros a Ha. rewrite Hpt, Hsz; [done|]. intros ->. apply Hd2. set_solver.
  - rewrite <- EF'. replace (F1 ++ x :: L2) with ((F1 ++ [x]) ++ L2) by (by rewrite <- app_assoc). apply (sorted_remove _ _ y). by rewrite <- app_assoc.
  - rewrite EF in Hok. rewrite <- Permutation_middle. done.
  - constructor; [by rewrite Hsz|]. eapply Forall_impl; [exact Hal|]. intros b Hb. by rewrite Hsz.
  - rewrite <- Hp, EF, <- Permutation_middle. done.
  - done.
  - rewrite Efr, <- EF', fmap_app. set_solver.
Qed.

(** The end of a larger free block is cut off. *)
Lemma take_tail s s' F1 y L2 F A O n :
  let c := y.1 + 16 * (y.2 - n) in
  inv s F A O -> (base, 0) :: F = F1 ++ y :: L2 -> F1 <> [] -> 1 <= n < y.2 ->
  h_ptr s' = h_ptr s -> (forall a, h_size s' a = if a =? c then n else if a =? y.1 then y.2 - n else h_size s a) ->
  freep s' ∈ ((base, 0) :: F).*1 ->
  exists F', inv s' F' ((c, n) :: A) O /\ (length F' <= length F)%nat.
Proof.
  intros c Hinv EL HF1 Hn Hpt Hsz Hf'. pose proof (free_nodup _ _ _ _ Hinv) as Hndup. pose proof Hinv as [Hseg Hs Hok Hal Hp Hnd Hf].
  assert (forall b, b ∈ A -> b.1 + 16 * b.2 <= y.1 \/ y.1 + 16 * y.2 <= b.1) as HA.
  { intros b [A' EA]%elem_of_Permutation. eapply alloc_apart; [done|done|]. destruct F1; [done|]. injection EL as _ ->. set_solver. }
  pose proof (f_equal tail EL) as EF. rewrite EL in Hseg, Hs, Hndup. destruct F1 as [|z F1]; [done|]. injection EL as <- _. cbn in EF.
  rewrite EF in Hok, Hp. rewrite <- !Permutation_middle, <- app_comm_cons in Hok. apply Forall_cons in Hok as [(Hy1 & Hy2 & Hy3 & Hy4) Hok].
  set (L1 := (base, 0) :: F1) in *. set (y' := (y.1, y.2 - n)).
  pose proof Hs as (Hs1 & Hs2 & [Hs3 Hs4]%StronglySorted_inv)%StronglySorted_app. rewrite Forall_forall in Hs4.
  assert (Forall (fun b => 0 <= b.2) (L1 ++ L2)) as H0.
  { constructor; [done|]. apply Forall_app in Hok as [Hok _]. eapply Forall_impl; [exact Hok|]. intros b (? & _). lia. }
  assert (forall a, a ∈ L1.*1 ++ L2.*1 ++ A.*1 -> a <> c /\ a <> y.1) as Hne.
  { intros a. rewrite !elem_of_app, !list_elem_of_fmap. apply Forall_app in Hok as [_ HokA]. rewrite Forall_forall in H0, HokA.
    intros [(b & -> & Hb)|[(b & -> & Hb)|(b & -> & Hb)]].
    - specialize (Hs1 b y Hb ltac:(by left)). specialize (H0 b ltac:(apply elem_of_app; by left)). unfold before, c in *. lia.
    - specialize (Hs4 b Hb). unfold before, c in *. lia.
    - specialize (HA b Hb). destruct (HokA b Hb) as (? & _). unfold c. lia. }
  assert (forall a, a ∈ L1.*1 ++ L2.*1 ++ A.*1 -> h_ptr s' a = h_ptr s a /\ h_size s' a = h_size s a) as Hsame.
  { intros a Ha. destruct (Hne a Ha). rewrite Hpt, Hsz, !(proj2 (Z.eqb_neq _ _)) by done. done. }
  exists (F1 ++ y' :: L2). split; [|rewrite EF, !length_app; cbn; lia].
  change ((base, 0) :: F1 ++ y' :: L2) with (L1 ++ y' :: L2). split.
  - change ((base, 0) :: F1 ++ y' :: L2) with (L1 ++ y' :: L2).
    apply seg_app in Hseg as [Hseg1 (Hy5 & Hy6 & Hseg2)]. apply seg_app. split; [|split_and!].
    + eapply seg_ext; [|exact Hseg1]. intros a Ha. apply Hsame, elem_of_app. by left.
    + unfold y'. cbn. rewrite Hsz, (proj2 (Z.eqb_neq _ _)), Z.eqb_refl by (unfold c; lia). done.
    + unfold y'. cbn [fst]. by rewrite Hpt.
    + eapply seg_ext; [|exact Hseg2]. intros a Ha. apply Hsame, elem_of_app. right. apply elem_of_app. by left.
  - change ((base, 0) :: F1 ++ y' :: L2) with (L1 ++ y' :: L2). apply StronglySorted_app_2; [|done|].
    + intros a b Ha [->|Hb]%elem_of_cons; [apply (Hs1 a y Ha); by left|]. apply Hs1; [done|by right].
    + constructor; [done|]. apply Forall_forall. intros b Hb. specialize (Hs4 b Hb). unfold before in *. cbn. lia.
  - rewrite <- !Permutation_middle, <- app_comm_cons. constructor; [unfold c; split_and!; cbn; try lia; divlia|].
    constructor; [unfold y'; split_and!; cbn; try lia; done|done].
  - constructor; [cbn; by rewrite Hsz, Z.eqb_refl|]. apply Forall_forall. intros b Hb. rewrite Forall_forall in Hal.
    destruct (Hsame b.1) as [_ ->]; [|by apply Hal]. apply elem_of_app. right. apply elem_of_app. right. apply list_elem_of_fmap. eauto.
  - rewrite <- Hp. rewrite <- !Permutation_middle, <- !app_comm_cons. cbn [mbind list_bind].
    assert (cells y = cells y' ++ cells (c, n)) as ->.
    { unfold y', c. rewrite <- cells_split by lia. replace (y.2 - n + n) with y.2 by lia. by destruct y. }
    set (R := _ ≫= cells). rewrite !app_assoc. apply Permutation_app_tail, Permutation_app_comm.
  - done.
  - rewrite EF in Hf'. change ((base, 0) :: F1 ++ y' :: L2) with (L1 ++ y' :: L2).
    change ((base, 0) :: F1 ++ y :: L2) with (L1 ++ y :: L2) in Hf'. rewrite fmap_app in *. exact Hf'.
Qed.

(** The loop at a block that is large enough. *)
Lemma wp_take s F A O j x y n fuel (Q : Z -> umst -> Prop) :
  let L := (base, 0) :: F in
  0 <= base -> inv s F A O -> L !! j = Some x -> L !! S j = Some y -> 1 <= n <= y.2 ->
  (forall s' F' c, inv s' F' ((c, n) :: A) O -> replies s' = replies s -> asked s' = asked s -> (length F' <= length F)%nat -> keeps A s s' -> Q (plus c 1) s') ->
  wp (malloc_loop fuel n x.1 y.1) Q s.
Proof.
  intros L H0 Hinv Ex Ey Hn HQ. pose proof Hinv as [Hseg _ Hok _ _ _ _].
  assert (L = take j L ++ x :: y :: drop (S (S j)) L) as EL.
  { rewrite <- (take_drop_middle _ _ _ Ex) at 1. by rewrite (drop_S _ _ _ Ey). }
  assert (h_size s y.1 = y.2) as Esz. { apply (at_size s L) in Ey as E; [|done]. by rewrite (at_lookup L _ _ Ey) in E. }
  assert (block_ok y) as (_ & Hy2 & _ & Hy4) by (apply Forall_app in Hok as [Hok _]; by apply (Forall_lookup_1 _ _ _ _ Hok Ey)).
  destruct fuel; cbn [malloc_loop]; bstep; apply wp_size; rewrite Esz, (proj2 (Z.leb_le _ _)) by lia; bstep; unfold set_freep;
    (destruct (Z.eqb_spec y.2 n) as [E|E];
     [bstep; apply wp_ptr; unfold set_ptr; do 5 bstep|
      unfold set_size; do 3 bstep; apply wp_size; cbn [h_size]; rewrite Z.eqb_refl, u32_small by (unfold is_u32, LIM in *; lia);
      rewrite plus_small by lia; do 5 bstep]).
  all: bstep; match goal with |- ?q _ ?x => set (s' := x) end.
  all: assert (keeps A s s') as HK by (intros a Ha; cbn [h_ptr h_size s']; rewrite ?(proj2 (Z.eqb_neq a _)); try done;
    intros ->; revert Ha; first [by eapply unalloc; [exact Hinv|eapply list_elem_of_lookup_2]|
      eapply unalloc_cell; [exact Hinv|eapply list_elem_of_lookup_2; exact Ey|apply elem_of_cells; exists (y.2 - n); lia]]).
  1, 3: destruct (take_exact s s' (take j L) x y (drop (S (S j)) L) F A O Hinv EL) as (F' & Hinv' & Hlen);
    [intros a Ha; cbn; by rewrite (proj2 (Z.eqb_neq _ _)) by done|done|cbn; by rewrite Z.eqb_refl|done|];
    apply (HQ s' F' y.1); [by rewrite <- E; destruct y|done..].
  all: destruct (take_tail s s' (take (S j) L) y (drop (S (S j)) L) F A O n Hinv) as (F' & Hinv' & Hlen);
    [by rewrite take_drop_middle|by destruct j|lia|done|done| |by eapply HQ].
  all: cbn [freep s']; apply list_elem_of_fmap; exists x; split; [done|]; by eapply list_elem_of_lookup_2.
Qed.

(** Memory that sbrk() may return: it has not been given out before, and lies behind the data of the program. *)
Definition granted (O : list Z) (r nu : Z) : Prop :=
  r mod 16 = 0 /\ base < r /\ r + 16 * nu <= LIM /\ forall x, x ∈ cells (r, nu) -> x ∉ O.

Lemma block_first F A O s (b : block) : inv s F A O -> b ∈ F ++ A -> b.1 ∈ O.
Proof.
  intros [] Hb. rewrite <- iv_part0. apply list_elem_of_bind. exists b. split; [|done]. apply elem_of_cells. exists 0.
  rewrite Forall_forall in iv_ok0. destruct (iv_ok0 b Hb). lia.
Qed.

(** The new memory as an allocated block. *)
Lemma inv_grant s s' F A O r nu :
  inv s F A O -> granted O r nu -> 1 <= nu ->
  h_ptr s' = h_ptr s -> (forall a, h_size s' a = if a =? r then nu else h_size s a) -> freep s' = freep s ->
  inv s' F ((r, nu) :: A) (cells (r, nu) ++ O).
Proof.
  intros Hinv (Hr1 & Hr2 & Hr3 & Hr4) Hnu Hp Hs Hf. pose proof Hinv as [].
  assert (forall b, b ∈ F ++ A -> b.1 <> r) as Hne.
  { intros b Hb E. apply (Hr4 r); [apply elem_of_cells; exists 0; cbn; lia|]. rewrite <- E. by eapply block_first. }
  split; [|done| | | | |by rewrite Hf].
  - eapply seg_ext; [|exact iv_seg0]. intros a Ha. rewrite Hp, Hs, (proj2 (Z.eqb_neq _ _)); [done|].
    cbn in Ha. apply elem_of_cons in Ha as [->|(b & -> & Hb)%list_elem_of_fmap]; [lia|]. apply Hne, elem_of_app. by left.
  - rewrite <- Permutation_middle. constructor; [by split_and!|done].
  - constructor; [cbn; by rewrite Hs, Z.eqb_refl|]. apply Forall_forall. intros b Hb. rewrite Forall_forall in iv_alloc0.
    rewrite Hs, (proj2 (Z.eqb_neq _ _)); [by apply iv_alloc0|]. apply Hne, elem_of_app. by right.
  - rewrite <- Permutation_middle. cbn [mbind list_bind]. by rewrite iv_part0.
  - apply NoDup_app. split_and!; [|done|done]. unfold cells. apply NoDup_fmap_2; [intros x y; lia|apply NoDup_zseq].
Qed.

Lemma inv_same s s' F A O : h_ptr s' = h_ptr s -> h_size s' = h_size s -> freep s' = freep s -> inv s F A O -> inv s' F A O.
Proof. intros Ep Es Ef []. split; rewrite ?Ep, ?Es, ?Ef; try done. eapply seg_ext; [|done]. intros a _. by rewrite Ep, Es. Qed.

Lemma freep_pos s F A O : 0 < base -> inv s F A O -> freep s <> 0.
Proof.
  intros H0 [_ _ Hok _ _ _ Hf]. apply Forall_app in Hok as [Hok _]. rewrite Forall_forall in Hok. cbn in Hf.
  apply elem_of_cons in Hf as [->|(b & -> & Hb)%list_elem_of_fmap]; [lia|]. destruct (Hok b Hb) as (_ & ? & _). lia.
Qed.

Lemma wp_morecore s F A O n r rs fuel (Q : Z -> umst -> Prop) :
  let nu := Z.max 4096 n in
  0 < base -> inv s F A O -> replies s = r :: rs -> 1 <= n -> 16 * nu < 2 ^ 31 -> (length F <= fuel)%nat ->
  r = u64 (-1) \/ granted O r nu ->
  (r = u64 (-1) -> forall s', inv s' F A O -> keeps A s s' -> Q 0 s') ->
  (forall s' F', inv s' F' A (cells (r, nu) ++ O) -> asked s' = asked s ++ [16 * nu] ->
     Exists (fun c => n <= c.2) F' -> (length F' <= S (length F))%nat -> keeps A s s' -> Q (freep s') s') ->
  wp (morecore fuel n) Q s.
Proof.
  intros nu H0 Hinv Er Hn Hnu Hfuel Hr HQ0 HQ. unfold morecore. replace (if n <? 4096 then 4096 else n) with nu by (unfold nu; destruct (Z.ltb_spec n 4096); lia).
  bstep. unfold sbrk, wp. rewrite Er. rewrite i32_small by (unfold is_i32, nu in *; lia). set (s1 := mk_umst _ _ _ _ _).
  assert (inv s1 F A O) as Hinv1 by by apply (inv_same s).
  match goal with |- match ?m s1 with _ => _ end => change (wp m Q s1) end. destruct Hr as [Hr|Hr].
  - subst r. rewrite Z.eqb_refl. bstep. apply HQ0; [done|done|by apply keeps_refl].
  - pose proof Hr as (_ & Hr2 & Hr3 & _). rewrite (proj2 (Z.eqb_neq _ _)) by (unfold u64, LIM, nu in *; change ((-1) mod 2 ^ 64) with (2 ^ 64 - 1); lia).
    unfold set_size. bstep. bstep. bstep. set (s2 := mk_umst _ _ _ _ _).
    assert (inv s2 F ((r, nu) :: A) (cells (r, nu) ++ O)) as Hinv2 by (eapply (inv_grant s1); try done; unfold nu; lia).
    eapply (wp_free s2 F ((r, nu) :: A) A _ (r, nu)); [lia|exact Hinv2|done|done|].
    intros s3 F' Hinv3 _ Ea3 Hlen Hex HK. bstep. apply (HQ s3 F'); [done|done| |done|].
    2: { eapply keeps_blocks_trans; [|exact HK]. intros a Ha. cbn. rewrite (proj2 (Z.eqb_neq _ _)); [done|]. intros ->.
         eapply (unalloc_freed s2 F ((r, nu) :: A) A); [exact Hinv2|done|done]. } eapply Exists_impl; [exact Hex|]. cbn. unfold nu. lia.
Qed.

(** The search from the block after [j] up to freep, number [f] of the list. *)
Lemma wp_search s F A O n f fuel j (Q : Z -> umst -> Prop) :
  let L := (base, 0) :: F in
  0 < base -> inv s F A O -> 1 <= n -> L.*1 !! f = Some (freep s) -> (j < length L)%nat ->
  (forall i b, L !! i = Some b -> (dist L (nxt L j) f < dist L i f)%nat -> b.2 < n) -> (dist L (nxt L j) f < fuel)%nat ->
  (forall s' F' c, inv s' F' ((c, n) :: A) O -> asked s' = asked s -> keeps A s s' -> Q (plus c 1) s') ->
  (Forall (fun b => b.2 < n) F -> forall fuel', (fuel = S fuel' + dist L (nxt L j) f)%nat ->
     wp (p ← morecore (S fuel') n;
         if p =? 0 then mret 0 else
         q ← ptr p;
         malloc_loop fuel' n p q) Q s) ->
  wp (malloc_loop fuel n (at_ L j) (at_ L (nxt L j))) Q s.
Proof.
  intros L H0 Hinv Hn Hf. pose proof (lookup_lt_Some _ _ _ Hf) as Hfl. rewrite length_fmap in Hfl. revert j.
  induction fuel as [|fuel IH]; intros j Hj Hvis Hfuel Htake Hmore; [lia|].
  assert (nxt L j < length L)%nat as Hk by (unfold nxt; case_decide; lia).
  destruct (lookup_lt_is_Some_2 L _ Hk) as [y Ey]. destruct (lookup_lt_is_Some_2 L _ Hj) as [x Ex].
  pose proof (at_size s L (iv_seg _ _ _ _ Hinv) _ _ Ey) as Esz.
  destruct (decide (n <= y.2)) as [Hfit|Hfit].
  - assert (nxt L j = S j) as En.
    { unfold nxt in *. case_decide as E; [|done]. injection Ey as <-. cbn in Hfit. lia. }
    rewrite En in Ey |- *. rewrite (at_lookup L _ _ Ey), (at_lookup L _ _ Ex).
    eapply wp_take; [lia|exact Hinv|exact Ex|exact Ey|lia|]. intros s' F' c Hinv' _ Ea _ HK. by eapply Htake.
  - cbn [malloc_loop]. bstep. apply wp_size. rewrite Esz, (proj2 (Z.leb_gt _ _)) by lia. bstep. bstep.
    destruct (Z.eqb_spec (at_ L (nxt L j)) (freep s)) as [Efr|Efr].
    + assert (nxt L j = f) as Ek.
      { pose proof (free_nodup _ _ _ _ Hinv) as (Hnd & _ & _)%NoDup_app. eapply NoDup_lookup; [exact Hnd| |exact Hf].
        rewrite list_lookup_fmap. fold L. rewrite Ey. cbn. f_equal. by rewrite <- (at_lookup L _ _ Ey). }
      apply Hmore; [|rewrite Ek; unfold dist; case_decide; lia]. apply Forall_lookup. intros i b Hb.
      destruct (decide (S i = f)) as [Ei|Ei]; [rewrite Ek, <- Ei in Ey; change (F !! i = Some y) in Ey; assert (b = y) as -> by congruence; lia|].
      apply (Hvis (S i) b Hb). rewrite Ek. pose proof (lookup_lt_Some _ _ _ Hb). unfold dist, L in *. cbn in *. repeat case_decide; lia.
    + assert (nxt L j <> f) as Hne. { intros E. apply Efr. unfold at_. rewrite E, Hf. done. }
      destruct (dist_nxt L _ f Hk Hfl Hne) as [Ed Hk']. bstep. apply wp_ptr. rewrite (at_next s L (iv_seg _ _ _ _ Hinv)) by done.
      apply IH; [done| |lia|done|].
      * intros i b Hb Hd. destruct (decide (i = nxt L j)) as [->|Hi]; [assert (b = y) as -> by congruence; lia|].
        apply (Hvis i b Hb). pose proof (lookup_lt_Some _ _ _ Hb). unfold dist in *. repeat case_decide; lia.
      * intros Hall fuel' Hf'. apply Hmore; [done|]. lia.
Qed.

(** ** The theorems *)

(** Before the first call of malloc, and afterwards. *)
Definition heap (s : umst) (F A : list block) (O : list Z) : Prop :=
  freep s = 0 /\ F = [] /\ A = [] /\ O = [] \/ inv s F A O.

Lemma inv_start s : h_ptr s base = base -> h_size s base = 0 -> freep s = base -> inv s [] [] [].
Proof. intros Ep Es Ef. split; cbn; rewrite ?Ef; try done; [repeat constructor..|apply list_elem_of_singleton; done]. Qed.

(** The units that malloc looks for. *)
Definition units (nbytes : Z) : Z := (nbytes + 15) / 16 + 1.

(** The search when the list has just been changed by morecore, or at the start. *)
Lemma wp_search_all s F A O n fuel (Q : Z -> umst -> Prop) :
  0 < base -> inv s F A O -> 1 <= n -> (length F < fuel)%nat ->
  (forall s' F' c, inv s' F' ((c, n) :: A) O -> asked s' = asked s -> keeps A s s' -> Q (plus c 1) s') ->
  (Forall (fun b => b.2 < n) F -> forall fuel', (fuel = S fuel' + length F)%nat ->
     wp (p ← morecore (S fuel') n;
         if p =? 0 then mret 0 else
         q ← ptr p;
         malloc_loop fuel' n p q) Q s) ->
  wp (malloc_loop fuel n (freep s) (h_ptr s (freep s))) Q s.
Proof.
  intros H0 Hinv Hn Hfuel Htake Hmore. pose proof (iv_freep _ _ _ _ Hinv) as [f Hf]%list_elem_of_lookup_1. set (L := (base, 0) :: F) in *.
  assert (f < length L)%nat as Hfl by (apply lookup_lt_Some in Hf as Hl; by rewrite length_fmap in Hl).
  destruct (dist_start L f Hfl) as [Ed Hk]. assert (at_ L f = freep s) as Ef by (unfold at_; by rewrite Hf).
  rewrite <- Ef, (at_next s L (iv_seg _ _ _ _ Hinv)) by done.
  eapply (wp_search s F A O n f); [done|done|done|done|done| |fold L; rewrite Ed; cbn; lia|done|].
  - fold L. intros i b Hb. rewrite Ed. pose proof (dist_le L i f (lookup_lt_Some _ _ _ Hb) Hfl). lia.
  - fold L. rewrite Ed. intros Hall fuel' E. apply Hmore; [done|]. cbn in E. lia.
Qed.

Lemma wp_malloc s F A O n r rs fuel (Q : Z -> umst -> Prop) :
  let nu := Z.max 4096 n in
  0 < base -> inv s F A O -> replies s = r :: rs -> 1 <= n -> 16 * n < 2 ^ 31 ->
  r = u64 (-1) \/ granted O r nu -> (2 * length F + 3 <= fuel)%nat ->
  (forall s' F' c, inv s' F' ((c, n) :: A) O -> asked s' = asked s -> keeps A s s' -> Q (plus c 1) s') ->
  (Forall (fun b => b.2 < n) F -> r = u64 (-1) -> forall s', inv s' F A O -> keeps A s s' -> Q 0 s') ->
  (Forall (fun b => b.2 < n) F -> forall s' F' c, inv s' F' ((c, n) :: A) (cells (r, nu) ++ O) -> asked s' = asked s ++ [16 * nu] ->
     keeps A s s' -> Q (plus c 1) s') ->
  wp (malloc_loop fuel n (freep s) (h_ptr s (freep s))) Q s.
Proof.
  intros nu H0 Hinv Er Hn Hmax Hr Hfuel HQ HQ0 HQ1. eapply wp_search_all; [done|exact Hinv|done|lia|done|]. intros Hall fuel' Ef.
  bstep. eapply (wp_morecore s F A O n r rs); [done|done|done|done|lia|lia|done|intros Er0 s' Hinv' HK; null_case; bstep; by apply HQ0|].
  intros s1 F1 Hinv1 Ea1 Hex Hlen HK1. rewrite (proj2 (Z.eqb_neq _ _)) by (by eapply freep_pos). bstep. apply wp_ptr.
  eapply wp_search_all; [done|exact Hinv1|done|lia| |].
  - intros s' F' c Hinv' Ea HK. apply (HQ1 Hall s' F'); [done|by rewrite Ea|by eapply keeps_blocks_trans].
  - intros Hall1. exfalso. apply Exists_exists in Hex as (c & Hc & Hle). rewrite Forall_forall in Hall1. specialize (Hall1 c Hc). cbn in *. lia.
Qed.

(** The address that is returned. *)
Lemma plus_alloc s F A O c n : inv s F ((c, n) :: A) O -> 0 < base -> plus c 1 = c + 16.
Proof.
  intros [_ _ Hok _ _ _ _] H0. apply Forall_app in Hok as [_ [(Hc1 & Hc2 & _ & Hc3) _]%Forall_cons]. cbn in *.
  rewrite plus_small by lia. lia.
Qed.

Lemma malloc_spec fuel nbytes s F A O r rs :
  let n := units nbytes in
  let nu := Z.max 4096 n in
  0 < base -> heap s F A O -> replies s = r :: rs -> 0 <= nbytes -> 16 * n < 2 ^ 31 ->
  r = u64 (-1) \/ granted O r nu -> (2 * length F + 3 <= fuel)%nat ->
  wp (malloc base fuel nbytes) (fun q s' => keeps A s s' /\
    ((q = 0 /\ r = u64 (-1) /\ Forall (fun b => b.2 < n) F /\ inv s' F A O) \/
     exists c F' O', q = c + 16 /\ nbytes <= 16 * (n - 1) /\ inv s' F' ((c, n) :: A) O' /\
       ((asked s' = asked s /\ O' = O) \/
        (asked s' = asked s ++ [16 * nu] /\ O' = cells (r, nu) ++ O /\ Forall (fun b => b.2 < n) F)))) s.
Proof.
  intros n nu H0 Hheap Er Hnb Hn Hr Hfuel.
  assert (1 <= n /\ nbytes <= 16 * (n - 1)) as [Hn1 Hnb'] by (unfold n, units in *; divlia).
  unfold malloc. replace (u32 (u64 (nbytes + 16 - 1) / 16 + 1)) with n.
  2: { replace (nbytes + 16 - 1) with (nbytes + 15) by lia. rewrite u64_small, u32_small; [done|fold (units nbytes); unfold is_u32; lia|].
       unfold is_u64, n, units in *. divlia. }
  do 3 bstep.
  assert (forall s1, inv s1 F A O -> replies s1 = replies s -> asked s1 = asked s -> h_ptr s1 = h_ptr s \/ A = [] -> h_size s1 = h_size s \/ A = [] -> forall Q, Q = (fun q s' => keeps A s s' /\
    ((q = 0 /\ r = u64 (-1) /\ Forall (fun b => b.2 < n) F /\ inv s' F A O) \/
     exists c F' O', q = c + 16 /\ nbytes <= 16 * (n - 1) /\ inv s' F' ((c, n) :: A) O' /\
       ((asked s' = asked s /\ O' = O) \/
        (asked s' = asked s ++ [16 * nu] /\ O' = cells (r, nu) ++ O /\ Forall (fun b => b.2 < n) F)))) ->
    wp (p ← ptr (freep s1); malloc_loop fuel n (freep s1) p) Q s1) as Hgo.
  { intros s1 Hinv Er1 Ea1 Hp1 Hs1 Q ->.
    assert (forall s', keeps A s1 s' -> keeps A s s') as Hkeep.
    { intros s' HK. destruct Hp1 as [Hp1| ->]; [|by intros a Ha; apply not_elem_of_nil in Ha].
      destruct Hs1 as [Hs1| ->]; [|by intros a Ha; apply not_elem_of_nil in Ha]. eapply keeps_blocks_trans; [by apply keeps_refl|done]. }
    bstep. apply wp_ptr. eapply (wp_malloc s1 F A O n r rs); [done|done|congruence|done|done|done|done|..].
    - intros s' F' c Hinv' Ea HK. split; [by apply Hkeep|]. right. exists c, F', O. rewrite (plus_alloc _ _ _ _ _ _ Hinv' H0). split_and!; [done|done|done|left; split; [congruence|done]].
    - intros Hall E s' Hinv' HK. split; [by apply Hkeep|]. by left.
    - intros Hall s' F' c Hinv' Ea HK. split; [by apply Hkeep|]. right. exists c, F', (cells (r, nu) ++ O). rewrite (plus_alloc _ _ _ _ _ _ Hinv' H0).
      split_and!; [done|done|done|right; split_and!; [by rewrite Ea, Ea1|done|done]]. }
  destruct Hheap as [(Ef & -> & -> & ->)|Hinv].
  - rewrite Ef. unfold set_freep, set_ptr, set_size. cbn [Z.eqb]. do 7 bstep. eapply (Hgo (mk_umst _ _ base _ _)); [|done|done|by right|by right|done].
    apply inv_start; cbn; by rewrite ?Z.eqb_refl.
  - rewrite (proj2 (Z.eqb_neq _ _)) by (by eapply freep_pos). bstep. eapply Hgo; [done|done|done|by left|by left|done].
Qed.

(** C25: malloc(nbytes), for a request of less than 2 GB, returns a block that is its own:
    with at least nbytes bytes behind the header, disjoint from every free and every
    allocated block, and nothing that is stored in the allocated blocks has changed.  It uses a free block if there is one of the
    size, and calls sbrk only if there is none; it returns 0 only if sbrk has failed,
    and then nothing has changed.  The loop ends: two times around the list are enough. *)
Theorem malloc_correct fuel nbytes s F A O r rs :
  let n := units nbytes in
  let nu := Z.max 4096 n in
  0 < base -> heap s F A O -> replies s = r :: rs -> 0 <= nbytes -> 16 * n < 2 ^ 31 ->
  r = u64 (-1) \/ granted O r nu -> (2 * length F + 3 <= fuel)%nat ->
  exists q s', malloc base fuel nbytes s = Ret q s' /\ keeps A s s' /\
    ((q = 0 /\ r = u64 (-1) /\ Forall (fun b => b.2 < n) F /\ inv s' F A O) \/
     exists c F' O', q = c + 16 /\ nbytes <= 16 * (n - 1) /\ inv s' F' ((c, n) :: A) O' /\
       ((asked s' = asked s /\ O' = O) \/
        (asked s' = asked s ++ [16 * nu] /\ O' = cells (r, nu) ++ O /\ Forall (fun b => b.2 < n) F))).
Proof. intros n nu H0 Hheap Er Hnb Hn Hr Hfuel. by eapply wp_inv, malloc_spec. Qed.

(** C26: free() of an allocated block puts it back: the other allocated blocks stay as they
    are, with what is stored in them, the memory of the block is free again and joined with the free blocks next to
    it, so that no two free blocks are adjacent; once around the list is enough. *)
Theorem free_correct fuel s F A A' O c n :
  0 < base -> inv s F A O -> A ≡ₚ (c, n) :: A' -> (length F <= fuel)%nat ->
  exists s' F', free fuel (c + 16) s = Ret tt s' /\ inv s' F' A' O /\ keeps A' s s' /\ asked s' = asked s /\ replies s' = replies s.
Proof.
  intros H0 Hinv EA Hfuel. assert (wp (free fuel (plus c 1)) (fun _ s' => exists F', inv s' F' A' O /\ keeps A' s s' /\ asked s' = asked s /\ replies s' = replies s) s) as Hw.
  { eapply (wp_free s F A A' O (c, n)); [lia|done|done|done|]. intros s' F' Hinv' Er Ea _ _ HK. by exists F'. }
  assert (block_ok (c, n)) as (Hc1 & Hc2 & _ & Hc3).
  { pose proof (iv_ok _ _ _ _ Hinv) as Hok. rewrite EA in Hok. apply Forall_app in Hok as [_ Hok]. by apply Forall_cons in Hok as [? _]. }
  cbn in Hc1, Hc2, Hc3. rewrite plus_small in Hw by lia. replace (c + 16 * 1) with (c + 16) in Hw by lia.
  apply wp_inv in Hw as ([] & s' & E & F' & Hw). by exists s', F'.
Qed.
End proofs.

(** ** Examples *)

Definition demo : umst := mk_umst (fun _ => 0) (fun _ => 0) 0 [65536] [].

Lemma malloc_correct_witness :
  exists q s', malloc 4096 3 100 demo = Ret q s' /\ keeps [] demo s' /\
    ((q = 0 /\ 65536 = u64 (-1) /\ Forall (fun b : block => b.2 < units 100) [] /\ inv 4096 s' [] [] []) \/
     exists c F' O', q = c + 16 /\ 100 <= 16 * (units 100 - 1) /\ inv 4096 s' F' [(c, units 100)] O' /\
       ((asked s' = [] /\ O' = []) \/ (asked s' = [65536] /\ O' = cells (65536, 4096) ++ [] /\ Forall (fun b : block => b.2 < units 100) []))).
Proof.
  apply (malloc_correct 4096 3 100 demo [] [] [] 65536 []); [lia|left; done|done|lia|reflexivity| |cbn; lia].
  right. split_and!; [done|lia|vm_compute; discriminate|]. intros x _. apply not_elem_of_nil.
Defined.

(** One block of 7 units, and nothing free. *)
Definition demo_used : umst := mk_umst (fun _ => 4096) (fun a => if a =? 65536 then 7 else 0) 4096 [] [65536].

Lemma free_correct_witness :
  exists s' F', free 1 (65536 + 16) demo_used = Ret tt s' /\ inv 4096 s' F' [] (cells (65536, 7)) /\ keeps [] demo_used s' /\ asked s' = [65536] /\ replies s' = [].
Proof.
  apply (free_correct 4096 1 demo_used [] [(65536, 7)] [] (cells (65536, 7)) 65536 7); [lia| |done|cbn; lia].
  split; [done|repeat constructor| |repeat constructor|cbn [app mbind list_bind]; by rewrite app_nil_r| |].
  - constructor; [|constructor]. split_and!; [cbn; lia|cbn; lia|done|unfold LIM; cbn; lia].
  - unfold cells. apply NoDup_fmap_2; [intros x y; lia|apply NoDup_zseq].
  - apply list_elem_of_here.
Defined.

(** A request of 4 GB: the argument of sbrk() is an int, in which nu * 16 becomes 16.  malloc
    returns a block of 2^28 units of which only one is memory. *)
Lemma malloc_truncates :
  match malloc 4096 3 (2 ^ 32 - 1) demo with
  | Ret q s' => q = 65536 + 16 /\ h_size s' 65536 = 2 ^ 28 + 1 /\ asked s' = [16]
  | _ => False
  end.
Proof. vm_compute. by split_and!. Qed.
End UmallocProofs.
