(* ===== verification/Programs.v ===== *)
(** * The smaller user programs

    One module per program of user/: its functions, with main taking the list of
    its arguments (argv[0] included), as programs over the system calls of User.
    Buffers are the lists of the bytes in use. *)

From Stdlib Require Import ZArith Lia.
From stdpp Require Import base list sets strings.
From S2P Require Import Prelude KString User Ulib.

Definition DIRSIZ : nat := 14.
Definition MAXARG : nat := 32.
Definition T_DIR : Z := 1.
Definition T_FILE : Z := 2.
Definition O_RDWR : Z := 2.
Definition O_CREATE : Z := 512.
Definition CONSOLE : Z := 1.

(** A line of output. *)
Definition line (s : string) : list Z := str s ++ [newline].

(** [f] on each argument, until it says to stop. *)
Fixpoint each {A} (l : list A) (f : A -> M ust bool) : M ust unit :=
  match l with
  | [] => mret tt
  | a :: l' => go ← f a; if go : bool then each l' f else mret tt
  end.

Module Cat.

Definition cat_body (fd : Z) (_ : unit) : M ust (unit + Z) :=
  r ← sys (Sread fd 512);
  let n := ret r in
  if 0 <? n then
    w ← call (Swrite 1 (out r));
    if negb (w =? n) then fprintf 2 (line "cat: write error") [];; uexit 1
    else mret (inl tt)
  else mret (inr n).

Definition cat (fd : Z) : M ust unit :=
  n ← loop (cat_body fd) tt;
  if n <? 0 then fprintf 2 (line "cat: read error") [];; uexit 1 else mret tt.

Definition main (argv : list (list Z)) : M ust unit :=
  if (length argv <=? 1)%nat then cat 0;; uexit 0 else
  each (tail argv) (fun f =>
    fd ← call (Sopen f 0);
    if fd <? 0 then fprintf 2 (line "cat: cannot open %s") [UStr (Some f)];; uexit 1 else
    cat fd;;
    call (Sclose fd);;
    mret true);;
  uexit 0.

End Cat.

Module Echo.

Fixpoint words (args : list (list Z)) : M ust unit :=
  match args with
  | [] => mret tt
  | a :: args' =>
      call (Swrite 1 a);;
      call (Swrite 1 (match args' with [] => [newline] | _ => [32] end));;
      words args'
  end.

Definition main (argv : list (list Z)) : M ust unit := words (tail argv);; uexit 0.

End Echo.

Module Kill.

Definition main (argv : list (list Z)) : M ust unit :=
  if (length argv <? 2)%nat then fprintf 2 (line "usage: kill pid...") [];; uexit 1 else
  each (tail argv) (fun a => call (Skill (atoi a));; mret true);;
  uexit 0.

End Kill.

Module Ln.

Definition main (argv : list (list Z)) : M ust unit :=
  match argv with
  | [_; old; new] =>
      r ← call (Slink old new);
      (if r <? 0 then fprintf 2 (line "link %s %s: failed") [UStr (Some old); UStr (Some new)] else mret tt);;
      uexit 0
  | _ => fprintf 2 (line "Usage: ln old new") [];; uexit 1
  end.

End Ln.

Module Mkdir.

Definition main (argv : list (list Z)) : M ust unit :=
  if (length argv <? 2)%nat then fprintf 2 (line "Usage: mkdir files...") [];; uexit 1 else
  each (tail argv) (fun f =>
    r ← call (Smkdir f);
    if r <? 0 then fprintf 2 (line "mkdir: %s failed to create") [UStr (Some f)];; mret false
    else mret true);;
  uexit 0.

End Mkdir.

Module Rm.

Definition main (argv : list (list Z)) : M ust unit :=
  if (length argv <? 2)%nat then fprintf 2 (line "Usage: rm files...") [];; uexit 1 else
  each (tail argv) (fun f =>
    r ← call (Sunlink f);
    if r <? 0 then fprintf 2 (line "rm: %s failed to delete") [UStr (Some f)];; mret false
    else mret true);;
  uexit 0.

End Rm.

Module Sleep.

Definition main (argv : list (list Z)) : M ust unit :=
  match argv with
  | [_; n] => call (Ssleep (atoi n));; uexit 0
  | _ => fprintf 2 (str "Uasage of sleep : sleep number of ticks") [];; uexit 1
  end.

End Sleep.

Module Zombie.

Definition main : M ust unit :=
  pid ← call Sfork;
  (if 0 <? pid then call (Ssleep 5);; mret tt else mret tt);;
  uexit 0.

End Zombie.

Module Init.

(** The loop that waits for the shell [pid]. *)
Definition wait_shell (pid : Z) : M ust unit :=
  loop (fun _ : unit =>
    wpid ← call Swait;
    if wpid =? pid then mret (inr tt)
    else if wpid <? 0 then printf (line "init: wait returned an error") [];; uexit 1
    else mret (inl tt)) tt.

Definition main : M ust unit :=
  fd ← call (Sopen (str "console") O_RDWR);
  (if fd <? 0 then call (Smknod (str "console") CONSOLE 0);; call (Sopen (str "console") O_RDWR);; mret tt
   else mret tt);;
  call (Sdup 0);;
  call (Sdup 0);;
  loop (fun _ : unit =>
    printf (line "init: starting sh") [];;
    pid ← call Sfork;
    if pid <? 0 then printf (line "init: fork failed") [];; uexit 1 else
    if pid =? 0 then
      call (Sexec (str "sh") [str "sh"]);;
      printf (line "init: exec sh failed") [];;
      uexit 1
    else
      wait_shell pid;;
      mret (inl tt)) tt.

End Init.

Module Pingpong.

Definition SIZE : Z := 4.

(** printf("%d: received %s\n", getpid(), buf), where [after] are the bytes that
    follow the four of buf on the stack, up to a NUL. *)
Definition received (buf after : list Z) : M ust unit :=
  pid ← call Sgetpid;
  printf (line "%d: received %s") [UInt pid; UStr (Some (until_nul (buf ++ after)))].

(** [buf]: the contents of the stack before read(). *)
Definition main (buf after : list Z) : M ust unit :=
  r ← sys Spipe;
  let p0 := default 0 (out r !! 0%nat) in
  let p1 := default 0 (out r !! 1%nat) in
  let stored b := out b ++ drop (length (out b)) buf in
  pid ← call Sfork;
  if 0 <? pid then
    call (Swrite p1 (str "ping"));;
    call Swait;;
    b ← sys (Sread p0 SIZE);
    received (stored b) after;;
    uexit 0
  else
    b ← sys (Sread p0 SIZE);
    received (stored b) after;;
    call (Swrite p1 (str "pong"));;
    uexit 0.

End Pingpong.

Module Wc.

(** The counters l, w, c and the flag inword. *)
Record counts := mk_counts { l : Z; w : Z; c : Z; inword : bool }.

Definition wc_char (k : counts) (b : Z) : counts :=
  let c' := c k + 1 in
  let l' := if b =? newline then l k + 1 else l k in
  match strchr [32; 13; 9; 10; 11] b with
  | Some _ => mk_counts l' (w k) c' false
  | None => if negb (inword k) then mk_counts l' (w k + 1) c' true else mk_counts l' (w k) c' (inword k)
  end.

Definition wc_body (fd : Z) (k : counts) : M ust (counts + (Z * counts)) :=
  r ← sys (Sread fd 512);
  if 0 <? ret r then mret (inl (fold_left wc_char (out r) k)) else mret (inr (ret r, k)).

Definition wc (fd : Z) (name : list Z) : M ust unit :=
  r ← loop (wc_body fd) (mk_counts 0 0 0 false);
  let '(n, k) := r in
  if n <? 0 then printf (line "wc: read error") [];; uexit 1 else
  printf (line "%d %d %d %s") [UInt (l k); UInt (w k); UInt (c k); UStr (Some name)].

Definition main (argv : list (list Z)) : M ust unit :=
  if (length argv <=? 1)%nat then wc 0 [];; uexit 0 else
  each (tail argv) (fun f =>
    fd ← call (Sopen f 0);
    if fd <? 0 then printf (line "wc: cannot open %s") [UStr (Some f)];; uexit 1 else
    wc fd f;;
    call (Sclose fd);;
    mret true);;
  uexit 0.

End Wc.

Module Forktest.

Definition N : Z := 1000.

Definition print (s : list Z) : M ust unit := call (Swrite 1 s);; mret tt.

(** The loop that forks: the number of children. *)
Definition fork_all : M ust Z :=
  loop (fun n =>
    if N <=? n then mret (inr n) else
    pid ← call Sfork;
    if pid <? 0 then mret (inr n)
    else if pid =? 0 then uexit 0
    else mret (inl (n + 1))) 0.

Definition wait_all (n : Z) : M ust unit :=
  loop (fun n =>
    if 0 <? n then
      r ← call Swait;
      if r <? 0 then print (line "wait stopped early");; uexit 1 else mret (inl (n - 1))
    else mret (inr tt)) n.

Definition forktest : M ust unit :=
  print (line "fork test");;
  n ← fork_all;
  if n =? N then print (line "fork claimed to work N times!");; uexit 1 else
  wait_all n;;
  r ← call Swait;
  if negb (r =? -1) then print (line "wait got too many");; uexit 1 else
  print (line "fork test OK").

Definition main : M ust unit := forktest;; uexit 0.

End Forktest.

Module Stressfs.

(** [m], [n] times. *)
Fixpoint times (n : nat) (m : M ust unit) : M ust unit :=
  match n with
  | O => mret tt
  | S n' => m;; times n' m
  end.

(** The loop that forks until it is in a parent: the value of i. *)
Fixpoint fork_some (n : nat) (i : Z) : M ust Z :=
  match n with
  | O => mret i
  | S n' => pid ← call Sfork; if 0 <? pid then mret i else fork_some n' (i + 1)
  end.

Definition main : M ust unit :=
  printf (line "stressfs starting") [];;
  i ← fork_some 4 0;
  printf (line "write %d") [UInt i];;
  let path := str "stressfs" ++ [48 + i] in
  fd ← call (Sopen path (Z.lor O_CREATE O_RDWR));
  times 20 (call (Swrite fd (replicate 512 97));; mret tt);;
  call (Sclose fd);;
  printf (line "read") [];;
  fd ← call (Sopen path O_RDONLY);
  times 20 (call (Sread fd 512);; mret tt);;
  call (Sclose fd);;
  call Swait;;
  uexit 0.

End Stressfs.

(** The name after the last slash of a path. *)
Fixpoint after_slash (path : list Z) : list Z :=
  match path with
  | [] => []
  | c :: path' =>
      match strchr path' slash with
      | Some _ => after_slash path'
      | None => if c =? slash then path' else path
      end
  end.

(** The fields of struct stat, and of struct dirent in the bytes of a read(). *)
Definition st_ino (st : list Z) : Z := default 0 (st !! 1%nat).
Definition st_type (st : list Z) : Z := default 0 (st !! 2%nat).
Definition st_size (st : list Z) : Z := default 0 (st !! 4%nat).
Definition de_inum (de : list Z) : Z := get_le 2 de 0.
Definition de_name (de : list Z) : list Z := until_nul (take DIRSIZ (drop 2 de)).

Module Ls.

Definition fmtname (path : list Z) : list Z :=
  let p := after_slash path in
  if (DIRSIZ <=? length p)%nat then p
  else p ++ replicate (DIRSIZ - length p) 32.

(** One directory entry of the loop. *)
Definition ls_entry (path de : list Z) : M ust unit :=
  if de_inum de =? 0 then mret tt else
  let buf := path ++ [slash] ++ de_name de in
  r ← ustat buf;
  let '(v, st) := r in
  if v <? 0 then printf (line "ls: cannot stat %s") [UStr (Some buf)] else
  printf (line "%s %d %d %d")
    [UStr (Some (fmtname buf)); UInt (st_type st); UInt (st_ino st); UInt (st_size st)].

Definition ls_dir (fd : Z) (path : list Z) : M ust unit :=
  loop (fun _ : unit =>
    r ← sys (Sread fd 16);
    if ret r =? 16 then ls_entry path (out r);; mret (inl tt) else mret (inr tt)) tt.

Definition ls (path : list Z) : M ust unit :=
  fd ← call (Sopen path 0);
  if fd <? 0 then fprintf 2 (line "ls: cannot open %s") [UStr (Some path)] else
  r ← sys (Sfstat fd);
  if ret r <? 0 then
    fprintf 2 (line "ls: cannot stat %s") [UStr (Some path)];;
    call (Sclose fd);;
    mret tt
  else
    let st := out r in
    (if st_type st =? T_FILE then
       printf (line "%s %d %d %l")
         [UStr (Some (fmtname path)); UInt (st_type st); UInt (st_ino st); UInt (st_size st)]
     else if st_type st =? T_DIR then
       if (512 <? length path + 1 + DIRSIZ + 1)%nat then printf (line "ls: path too long") []
       else ls_dir fd path
     else mret tt);;
    call (Sclose fd);;
    mret tt.

Definition main (argv : list (list Z)) : M ust unit :=
  if (length argv <? 2)%nat then ls (str ".");; uexit 0 else
  each (tail argv) (fun f => ls f;; mret true);;
  uexit 0.

End Ls.

Module Find.

Definition fmtname (path : list Z) : list Z :=
  let p := after_slash path in
  if (DIRSIZ <=? length p)%nat then p else p.

(** One directory entry: [search] is the recursive call. *)
Definition find_entry (search : list Z -> M ust unit) (path de : list Z) : M ust unit :=
  if (de_inum de =? 0) || (strcmp (de_name de) (str ".") =? 0) || (strcmp (de_name de) (str "..") =? 0)
  then mret tt else
  let buf := path ++ [slash] ++ de_name de in
  r ← ustat buf;
  let '(v, _) := r in
  if v <? 0 then printf (line "ls: cannot stat %s") [UStr (Some buf)] else
  search buf.

Definition find_dir (search : list Z -> M ust unit) (fd : Z) (path : list Z) : M ust unit :=
  loop (fun _ : unit =>
    r ← sys (Sread fd 16);
    if ret r =? 16 then find_entry search path (out r);; mret (inl tt) else mret (inr tt)) tt.

(** The depth of the recursion is bounded by the length of paths: search does not
    go into a directory whose path has more than 496 bytes. *)
Fixpoint search (fuel : nat) (searchName path : list Z) : M ust unit :=
  fd ← call (Sopen path 0);
  if fd <? 0 then fprintf 2 (line "find: cannot open %s") [UStr (Some path)] else
  r ← sys (Sfstat fd);
  if ret r <? 0 then
    fprintf 2 (line "find: cannot stat %s") [UStr (Some path)];;
    call (Sclose fd);;
    mret tt
  else
    let st := out r in
    (if st_type st =? T_FILE then
       if strcmp (fmtname path) searchName =? 0 then printf (line "%s") [UStr (Some path)] else mret tt
     else if st_type st =? T_DIR then
       if (512 <? length path + 1 + DIRSIZ + 1)%nat then printf (line "ls: path too long") []
       else
         match fuel with
         | O => out_of_fuel
         | S fuel' => find_dir (search fuel' searchName) fd path
         end
     else mret tt);;
    call (Sclose fd);;
    mret tt.

Definition main (argv : list (list Z)) : M ust unit :=
  match argv with
  | [_; path; name] => search 512 name path;; uexit 0
  | _ => fprintf 2 (line "Usage: find <path> <search>") [];; uexit 1
  end.

End Find.

Module Xargs.

(** while (read(0, &buf, MAXARG) == 0) {}: the contents of buf, [buf0] before. *)
Definition fill (buf0 : list Z) : M ust (list Z) :=
  loop (fun _ : unit =>
    r ← sys (Sread 0 (Z.of_nat MAXARG));
    if ret r =? 0 then mret (inl tt) else mret (inr (out r ++ drop (length (out r)) buf0))) tt.

(** The loop on i: [p] are the bytes from p to buf + i, [buf] those from buf + i on. *)
Fixpoint run_lines (xargv : list (list Z)) (p buf : list Z) : M ust unit :=
  match buf with
  | [] => mret tt
  | b :: buf' =>
      if b =? newline then
        pid ← call Sfork;
        if pid =? 0 then
          let argv := xargv ++ [until_nul p] in
          call (Sexec (default [] (head argv)) argv);;
          uexit 0
        else
          call Swait;;
          run_lines xargv [] buf'
      else run_lines xargv (p ++ [b]) buf'
  end.

Definition main (buf0 : list Z) (argv : list (list Z)) : M ust unit :=
  buf ← fill buf0;
  run_lines (tail argv) [] (take MAXARG buf);;
  uexit 0.

End Xargs.

Module Primes.

(** An int of four bytes as write() and read() move it. *)
Definition int_bytes (x : Z) : list Z := put_le 4 (replicate 4 0) 0 x.
Definition bytes_int (d : list Z) : Z := i32 (get_le 4 d 0).

(** read(fd, &x, sizeof(x)): its value and x afterwards. *)
Definition read_int (fd x : Z) : M ust (Z * Z) :=
  r ← sys (Sread fd 4);
  mret (ret r, if 0 <? ret r then bytes_int (out r ++ drop (length (out r)) (int_bytes x)) else x).

(** The loop that forwards the numbers that [prime] does not divide. *)
Definition sieve (prime rd wr : Z) : M ust unit :=
  loop (fun buffer =>
    r ← read_int rd buffer;
    let '(n, buffer) := r in
    if n =? 0 then mret (inr tt) else
    (if negb (Z.rem buffer prime =? 0) then call (Swrite wr (int_bytes buffer));; mret tt else mret tt);;
    mret (inl buffer)) 0.

(** The two descriptors that pipe() stored. *)
Definition pipe_ends (r : reply) : Z * Z := (default 0 (out r !! 0%nat), default 0 (out r !! 1%nat)).

(** The body of childFunction: [inl newp] is the recursive call in the child. *)
Definition child_turn (p : Z * Z) : M ust (Z * Z + unit) :=
  call (Sclose p.2);;
  r ← read_int p.1 0;
  let prime := r.2 in
  if prime =? 0 then call (Sclose p.1);; uexit 0 else
  printf (line "prime %d") [UInt prime];;
  np ← sys Spipe;
  let newp := pipe_ends np in
  pid ← call Sfork;
  if 0 <? pid then
    call (Sclose newp.1);;
    sieve prime p.1 newp.2;;
    call (Sclose p.1);;
    call (Sclose newp.2);;
    call Swait;;
    mret (inr tt)
  else
    call (Sclose p.1);;
    mret (inl newp).

Definition childFunction (p : Z * Z) : M ust unit := loop child_turn p.

(** The numbers that main writes. *)
Fixpoint write_from (n : nat) (fd i : Z) : M ust unit :=
  match n with
  | O => mret tt
  | S n' => call (Swrite fd (int_bytes i));; write_from n' fd (i + 1)
  end.

Definition main (argv : list (list Z)) : M ust unit :=
  if negb (length argv =? 1)%nat then fprintf 2 (line "usage: primes") [];; uexit 1 else
  np ← sys Spipe;
  let p := pipe_ends np in
  pid ← call Sfork;
  (if 0 <? pid then
     call (Sclose p.1);;
     write_from 34 p.2 2;;
     call (Sclose p.2);;
     call Swait;;
     mret tt
   else childFunction p);;
  uexit 0.

End Primes.
