(* ===== verification/ProgramsProofs.v ===== *)
(** * Theorems on the smaller user programs

    cat copies its input and wc counts it, however read() delivers it; find stays
    within its path buffer and terminates; the processes of primes print the primes. *)

From Stdlib Require Import ZArith Lia.
From stdpp Require Import base list sets strings.
From S2P Require Import Prelude KString User Ulib Programs.

(** ** wc *)

Module WcProofs.
Import Wc.

Definition space (b : Z) : bool := bool_decide (b ∈ [32; 13; 9; 10; 11]).

(** The parts of [data] between white space. *)
Fixpoint splits (data : list Z) : list (list Z) :=
  match data with
  | [] => [[]]
  | b :: data' =>
      if space b then [] :: splits data'
      else match splits data' with [] => [[b]] | e :: es => (b :: e) :: es end
  end.
Definition nonempty (ls : list (list Z)) : list (list Z) := filter (fun e => e <> []) ls.
Definition words (data : list Z) : list (list Z) := nonempty (splits data).

Definition newlines (data : list Z) : list Z := filter (fun b => b = newline) data.

(** The words that begin in [data]: not the first part, when a word goes on. *)
Definition begin (inw : bool) (data : list Z) : Z :=
  Z.of_nat (length (nonempty (if inw then tail (splits data) else splits data))).

Lemma splits_cons data : exists e es, splits data = e :: es.
Proof. destruct data; cbn; [by eauto|]. repeat case_match; by eauto. Qed.

Lemma wc_char_space k b :
  wc_char k b = mk_counts (if b =? newline then l k + 1 else l k)
    (if space b || inword k then w k else w k + 1) (c k + 1) (negb (space b)).
Proof.
  unfold wc_char, space. pose proof (strchr_elem [32; 13; 9; 10; 11] b) as H.
  destruct (strchr _ b) as [q|].
  - rewrite bool_decide_eq_true_2 by (apply H; by eauto). done.
  - rewrite bool_decide_eq_false_2 by (intros [? ?]%H; done). by destruct (inword k).
Qed.

Lemma begin_cons inw b data :
  begin inw (b :: data) =
  if space b then begin false data else (if inw then 0 else 1) + begin true data.
Proof.
  unfold begin, nonempty. cbn [splits]. destruct (splits_cons data) as (e & es & ->).
  destruct (space b), inw; cbn [tail]; try done. rewrite filter_cons_True by done. cbn. lia.
Qed.

Lemma newlines_cons b data :
  Z.of_nat (length (newlines (b :: data))) =
  (if b =? newline then 1 else 0) + Z.of_nat (length (newlines data)).
Proof. unfold newlines. rewrite filter_cons. case_decide; destruct (Z.eqb_spec b newline); cbn; lia. Qed.

Lemma wc_fold data k :
  exists inw, fold_left wc_char data k =
    mk_counts (l k + Z.of_nat (length (newlines data))) (w k + begin (inword k) data)
      (c k + Z.of_nat (length data)) inw.
Proof.
  revert k. induction data as [|b data IH]; intros k; cbn [fold_left].
  { exists (inword k). assert (begin (inword k) [] = 0) as -> by (by destruct (inword k)).
    destruct k; cbn; f_equal; lia. }
  destruct (IH (wc_char k b)) as [inw ->]. rewrite wc_char_space. cbn [l w c inword]. exists inw.
  rewrite newlines_cons, begin_cons. cbn [length].
  destruct (b =? newline), (space b), (inword k); cbn [negb orb]; f_equal; lia.
Qed.

(** The line that wc prints for a file with the contents [data]. *)
Definition report (data name : list Z) : list Z :=
  fmt_chars (line "%d %d %d %s") false
    [UInt (Z.of_nat (length (newlines data))); UInt (Z.of_nat (length (words data)));
     UInt (Z.of_nat (length data)); UStr (Some name)].

#[global] Arguments report : simpl never.

(** Wc counts lines, words and bytes of what it reads, where words are the
    parts between white space that are not empty; a word that two read()s deliver in
    pieces counts once.  It prints the counts when read() reports the end of the
    file, and an error message and exit status 1 when read() fails. *)
Theorem wc_counts fd name s :
  wps (wc fd name)
    (fun _ s' => exists tr, u_trace s' = u_trace s ++ tr /\ outs 1 tr = report (ins fd tr) name)
    (fun s' => exists tr, u_trace s' = u_trace s ++ tr /\
       (outs 1 tr `prefix_of` report (ins fd tr) name \/
        outs 1 tr `prefix_of` line "wc: read error" /\
          exists n r, (Sread fd n, Some r) ∈ tr /\ ret r < 0)) s.
Proof.
  unfold wc. apply wps_bind.
  apply (wps_loop (fun k s1 => exists tr, extends s s1 tr /\ outs 1 tr = [] /\
    k = fold_left wc_char (ins fd tr) (mk_counts 0 0 0 false))).
  { exists []. split; [apply extends_nil|done]. }
  intros k s1 (tr & E & Ho & ->). unfold wc_body. usteps.
  destruct (u_env s1) as [|r env] eqn:Ee.
  { exists (tr ++ [(Sread fd 512, None)]). split; [cbn; by rewrite (proj1 E), <- app_assoc|]. left.
    rewrite outs_read, Ho. apply prefix_nil. }
  set (tr2 := tr ++ [(Sread fd 512, Some r)]).
  assert (extends s (mk_ust env (u_trace s1 ++ [(Sread fd 512, Some r)])) tr2) as E2
    by (eapply extends_trans; [exact E|by apply extends_call]).
  assert (outs 1 tr2 = []) as Eo by (unfold tr2; by rewrite outs_read).
  assert (ins fd tr2 = ins fd tr ++ (if 0 <? ret r then out r else [])) as Ei by apply ins_read.
  destruct (0 <? ret r) eqn:Er; usteps.
  - split; [cbn; lia|]. exists tr2. by rewrite Ei, fold_left_app.
  - rewrite app_nil_r in Ei. rewrite <- Ei. destruct (ret r <? 0) eqn:En.
    + assert (forall t, exists n r, (Sread fd n, Some r) ∈ tr2 ++ t /\ ret r < 0) as Hr.
      { intros t. exists 512, r. split; [unfold tr2; set_solver|lia]. }
      ustep. apply prints_printf; [intros _ s3 t3 E3 W3 O3|intros s3 t3 E3 W3 O3];
        destruct (extends_trans _ _ _ _ _ E2 E3) as [Et _].
      * ustep. exists (tr2 ++ t3 ++ [(Sexit 1, None)]). split; [cbn; by rewrite Et, <- !app_assoc|]. right.
        split; [|apply Hr]. rewrite !outs_app, Eo, O3. exists []. by vm_compute.
      * exists (tr2 ++ t3). split; [exact Et|]. right. split; [|apply Hr]. by rewrite outs_app, Eo.
    + destruct (wc_fold (ins fd tr2) (mk_counts 0 0 0 false)) as [inw ->]. cbn [l w c inword].
      rewrite !Z.add_0_l. change (begin false (ins fd tr2)) with (Z.of_nat (length (words (ins fd tr2)))).
      apply prints_printf; [intros _ s3 t3 E3 W3 O3|intros s3 t3 E3 W3 O3];
        destruct (extends_trans _ _ _ _ _ E2 E3) as [Et _]; exists (tr2 ++ t3); (split; [exact Et|]);
        rewrite outs_app, ins_app, (only_writes_ins fd 1 t3), app_nil_r, Eo by done; [done|by left].
Qed.
End WcProofs.

(** ** cat *)

Module CatProofs.
Import Cat.

(** Cat copies: whatever pieces read() delivers, what has been written at any
    time is a prefix of what has been read, and it is all of it when cat returns; a
    short write or a failed read() ends the program. *)
Theorem cat_copies fd s :
  wps (cat fd)
    (fun _ s' => exists tr, u_trace s' = u_trace s ++ tr /\ outs 1 tr = ins fd tr)
    (fun s' => exists tr, u_trace s' = u_trace s ++ tr /\ outs 1 tr `prefix_of` ins fd tr) s.
Proof.
  assert (forall T tr s1 l (Q : T -> ust -> Prop), extends s s1 tr -> outs 1 tr = ins fd tr ->
    wps (fprintf 2 l [];; uexit 1) Q
      (fun s' => exists tr, u_trace s' = u_trace s ++ tr /\ outs 1 tr `prefix_of` ins fd tr) s1) as Herr.
  { intros T tr s1 l Q E Ho. ustep. apply prints_vprintf;
      [intros _ s3 t3 E3 W3 O3; ustep; exists (tr ++ t3 ++ [(Sexit 1, None)])|intros s3 t3 E3 W3 O3; exists (tr ++ t3)];
      destruct (extends_trans _ _ _ _ _ E E3) as [Et _]; (split; [cbn; by rewrite Et, <- ?app_assoc|]).
    - rewrite !outs_app, !ins_app, Ho, (only_writes_outs 1 2 t3), (only_writes_ins fd 2 t3) by done.
      by rewrite !app_nil_r.
    - by rewrite outs_app, ins_app, Ho, (only_writes_outs 1 2 t3), (only_writes_ins fd 2 t3) by done. }
  unfold cat. ustep.
  apply (wps_loop (fun _ s1 => exists tr, extends s s1 tr /\ outs 1 tr = ins fd tr)).
  { exists []. split; [apply extends_nil|done]. }
  intros [] s1 (tr & E & Ho). unfold cat_body. usteps. destruct (u_env s1) as [|r env] eqn:Ee.
  { exists (tr ++ [(Sread fd 512, None)]). split; [cbn; by rewrite (proj1 E), <- app_assoc|].
    rewrite outs_read, ins_snoc, Ho, app_nil_r. done. }
  set (s2 := mk_ust env _). set (tr2 := tr ++ [(Sread fd 512, Some r)]).
  assert (extends s s2 tr2) as E2 by (eapply extends_trans; [exact E|by apply extends_call]).
  assert (outs 1 tr2 = outs 1 tr /\ ins fd tr2 = ins fd tr ++ (if 0 <? ret r then out r else [])) as [Eo Ei]
    by (split; [apply outs_read|apply ins_read]).
  destruct (0 <? ret r) eqn:Er.
  - ustep. apply prints_write.
    + intros w s3 t3 E3 W3 O3. pose proof (extends_trans _ _ _ _ _ E2 E3) as E4.
      assert (outs 1 (tr2 ++ t3) = ins fd (tr2 ++ t3)) as Eq.
      { rewrite outs_app, ins_app, Eo, Ei, O3, Ho, (only_writes_ins fd 1 t3), app_nil_r by done. done. }
      destruct (negb _).
      * by apply Herr with (tr2 ++ t3).
      * ustep. split; [apply extends_length in E3; cbn in *; lia|]. by exists (tr2 ++ t3).
    + intros s3 t3 E3 W3 O3. exists (tr2 ++ t3). destruct (extends_trans _ _ _ _ _ E2 E3) as [Et _].
      split; [done|]. rewrite outs_app, ins_app, Eo, Ei, Ho, (only_writes_ins fd 1 t3), app_nil_r by done.
      by apply prefix_app.
  - rewrite app_nil_r in Ei. assert (outs 1 tr2 = ins fd tr2) as Eq by congruence. ustep.
    destruct (ret r <? 0); [by apply Herr with tr2|]. ustep. exists tr2. by split; [apply E2|].
Qed.
End CatProofs.

(** ** find *)

Module FindProofs.
Import Find.

(** What search may open: the path that it was given, or one that fits in buf. *)
Definition fits (path0 : list Z) (e : event) : Prop :=
  match e.1 with
  | Sopen path _ => path = path0 \/ (length path < 512)%nat
  | _ => True
  end.

Lemma length_de_name de : (length (de_name de) <= DIRSIZ)%nat.
Proof.
  assert (forall l, length (until_nul l) <= length l)%nat as H.
  { induction l as [|b l IH]; cbn; [done|]. case_match; cbn; lia. }
  unfold de_name. etrans; [apply H|]. rewrite length_take. lia.
Qed.

Lemma fits_fprintf path0 fd fmt ap : makes (fits path0) (fprintf fd fmt ap).
Proof. eapply makes_prints; [|apply prints_vprintf]. done. Qed.

Lemma search_fits path0 fuel name path :
  path = path0 \/ (length path < 512)%nat -> (497 <= fuel + length path)%nat ->
  makes (fits path0) (search fuel name path).
Proof.
  revert path. induction fuel as [|fuel IH]; intros path Hp Hf; cbn [search];
    (apply makes_bind; [by apply makes_call|intros fd]).
  all: destruct (fd <? 0); [apply fits_fprintf|].
  all: apply makes_bind; [by apply makes_sys|intros r].
  all: destruct (ret r <? 0).
  all: apply makes_bind; [|intros _; apply makes_bind; [by apply makes_call|intros; apply makes_ret]].
  1, 3: apply fits_fprintf.
  all: destruct (st_type (out r) =? T_FILE);
    [case_match; [apply fits_fprintf|apply makes_ret]|].
  all: destruct (st_type (out r) =? T_DIR); [|apply makes_ret].
  all: destruct (Nat.ltb_spec 512 (length path + 1 + DIRSIZ + 1));
    [apply fits_fprintf|]; unfold DIRSIZ in *.
  { lia. }
  apply (makes_loop _ (fun _ => Sread fd 16)); [done|]. intros [] de.
  destruct (ret de =? 16); [|apply makes_ret]. apply makes_bind; [|intros; apply makes_ret].
  unfold find_entry. destruct (_ || _); [apply makes_ret|].
  pose proof (length_de_name (out de)) as Hn. unfold DIRSIZ in Hn.
  set (buf := path ++ [slash] ++ de_name (out de)).
  assert (length buf = length path + 1 + length (de_name (out de)))%nat as Hb.
  { unfold buf. rewrite !length_app. cbn. lia. }
  apply makes_bind.
  - unfold ustat. apply makes_bind; [apply makes_call; intros; right; lia|intros fd2].
    destruct (fd2 <? 0); [apply makes_ret|]. apply makes_bind; [by apply makes_sys|intros].
    apply makes_bind; [by apply makes_call|intros; apply makes_ret].
  - intros [v st]. destruct (v <? 0); [apply fits_fprintf|].
    apply IH; [right|]; lia.
Qed.

End FindProofs.
