(* ===== verification/PrimesProofs.v ===== *)
(** * user/primes.c prints the primes

    The processes of primes form a chain, each of which reads numbers from a pipe,
    prints the first and passes on the others that it does not divide.  [stage]
    describes one process for every behaviour of the kernel, [primes_correct] the
    chain, whose processes are connected as the pipes connect them. *)

From Stdlib Require Import ZArith Lia.
From stdpp Require Import base list sets strings.
From S2P Require Import Prelude KString User Ulib Programs.
Import Primes.

(** ** Numbers in a pipe *)

(** The ints in a sequence of bytes. *)
Fixpoint ints (d : list Z) : list Z :=
  match d with
  | a :: b :: c :: e :: d' => bytes_int [a; b; c; e] :: ints d'
  | _ => []
  end.

Lemma ints_4 d1 d2 : length d1 = 4%nat -> ints (d1 ++ d2) = bytes_int d1 :: ints d2.
Proof. destruct d1 as [|? [|? [|? [|? [|]]]]]; done. Qed.

Definition whole (d : list Z) : Prop := exists k, length d = (4 * k)%nat.

Lemma ints_app d1 d2 : whole d1 -> ints (d1 ++ d2) = ints d1 ++ ints d2.
Proof.
  intros [k Hk]. revert d1 Hk. induction k as [|k IH]; intros d1 Hk.
  { by destruct d1. }
  destruct d1 as [|x1 [|x2 [|x3 [|x4 d1]]]]; cbn in Hk; try lia. cbn. f_equal. apply IH. lia.
Qed.

Lemma int_roundtrip x : is_i32 x -> bytes_int (int_bytes x) = x.
Proof.
  intros Hx. unfold bytes_int, int_bytes. rewrite get_put_le by (cbn; lia).
  change (256 ^ Z.of_nat 4) with (2 ^ 32). unfold is_i32 in Hx. unfold i32. divlia.
Qed.

Lemma length_int_bytes x : length (int_bytes x) = 4%nat.
Proof. apply length_put_le. Qed.

Lemma ints_bytes l : Forall is_i32 l -> ints (l ≫= int_bytes) = l.
Proof.
  induction 1 as [|x l Hx _ IH]; cbn [mbind list_bind]; [done|].
  rewrite ints_4 by apply length_int_bytes. by rewrite IH, int_roundtrip.
Qed.

Lemma bytes_int_range d : is_i32 (bytes_int d).
Proof. apply i32_range. Qed.

Lemma ints_range d : Forall is_i32 (ints d).
Proof.
  induction d as [d IH] using (induction_ltof1 _ (@length Z)). unfold ltof in IH.
  destruct d as [|x1 [|x2 [|x3 [|x4 d]]]]; try by constructor. cbn [ints].
  constructor; [apply bytes_int_range|]. apply IH. cbn. lia.
Qed.

(** ** One process *)

(** read() from the pipe [rd] gives a number or reports the end, as it does while
    the writer writes whole numbers; pipe() does not return the descriptor 1, which
    is in use. *)
Definition good_event (rd : Z) (e : event) : Prop :=
  match e with
  | (Sread fd _, Some r) => fd = rd -> ret r = 0 \/ ret r = 4 /\ length (out r) = 4%nat
  | (Spipe, Some r) => (pipe_ends r).2 <> 1
  | _ => True
  end.
Definition good (rd : Z) (tr : list event) : Prop := Forall (good_event rd) tr.

(** What is left of the numbers [l] after the process of [prime]. *)
Definition survivors (prime : Z) (l : list Z) : list Z := filter (fun x => Z.rem x prime <> 0) l.

Lemma survivors_snoc prime l x :
  survivors prime (l ++ [x]) = survivors prime l ++ (if negb (Z.rem x prime =? 0) then [x] else []).
Proof.
  unfold survivors. rewrite filter_app, filter_cons, filter_nil.
  case_decide; destruct (Z.eqb_spec (Z.rem x prime) 0); done.
Qed.

Definition exited (tr : list event) : Prop := (Sexit 0, None) ∈ tr.

Lemma only_writes_exited fd tr : only_writes fd tr -> ~ exited tr.
Proof. intros H Hx. unfold only_writes in H. rewrite Forall_forall in H. by destruct (H _ Hx). Qed.

Lemma exited_app t1 t2 : ~ exited t1 -> ~ exited t2 -> ~ exited (t1 ++ t2).
Proof. unfold exited. set_solver. Qed.

(** The loop of sieve passes on the survivors. *)
Lemma wps_sieve prime rd wr s (Q : unit -> ust -> Prop) (R : ust -> Prop) :
  (forall s' tr, extends s s' tr -> outs 1 tr = [] \/ wr = 1 -> ~ exited tr ->
     (good rd tr -> whole (ins rd tr) /\ outs wr tr = survivors prime (ints (ins rd tr)) ≫= int_bytes) -> Q tt s') ->
  (forall s' tr, extends s s' tr -> ~ exited tr -> R s') ->
  wps (sieve prime rd wr) Q R s.
Proof.
  intros HQ HR. unfold sieve.
  apply (wps_loop (fun _ s1 => exists tr, extends s s1 tr /\ (outs 1 tr = [] \/ wr = 1) /\ ~ exited tr /\
    (good rd tr -> whole (ins rd tr) /\ outs wr tr = survivors prime (ints (ins rd tr)) ≫= int_bytes))).
  { exists []. split; [apply extends_nil|]. split; [by left|]. split; [unfold exited; set_solver|].
    intros _. by split; [exists 0%nat|]. }
  intros x s1 (tr & E & H1 & Hx & H2). unfold read_int. usteps. destruct (u_env s1) as [|r env] eqn:Ee.
  { eapply HR; [eapply extends_trans; [exact E|apply extends_stop]|]. apply exited_app; [done|]. unfold exited. set_solver. }
  usteps. set (tr2 := tr ++ [(Sread rd 4, Some r)]). set (s2 := mk_ust env _).
  assert (extends s s2 tr2) as E2 by (eapply extends_trans; [exact E|by apply extends_call]).
  assert (~ exited tr2) as Hx2 by (apply exited_app; [done|unfold exited; set_solver]).
  assert (forall fd, outs fd tr2 = outs fd tr) as Eo by (intros; apply outs_read).
  assert (ins rd tr2 = ins rd tr ++ (if 0 <? ret r then out r else [])) as Ei by apply ins_read.
  destruct (Z.eqb_spec (ret r) 0) as [Er|Er].
  { ustep. eapply HQ; [exact E2|by rewrite Eo|done|]. intros [Hg _]%Forall_app.
    rewrite Er in Ei. cbn in Ei. rewrite app_nil_r in Ei. rewrite Ei, Eo. by apply H2. }
  set (y := if 0 <? ret r then _ else _).
  assert (good rd tr2 -> whole (ins rd tr2) /\ ints (ins rd tr2) = ints (ins rd tr) ++ [y] /\ good rd tr) as Hg.
  { intros [Hg Hr]%Forall_app. apply (Forall_inv (P := good_event rd)) in Hr. cbn in Hr.
    destruct (Hr eq_refl) as [?|[H4 Hl]]; [done|]. destruct (H2 Hg) as [[k Hk] _].
    rewrite Ei. unfold y. rewrite H4. cbn iota beta. change (0 <? 4) with true. cbn iota.
    rewrite Hl, drop_ge, app_nil_r by (rewrite length_int_bytes; lia).
    split_and!; [exists (S k); rewrite length_app; lia| |done].
    rewrite ints_app by (by exists k). f_equal.
    pose proof (ints_4 (out r) [] Hl) as X. by rewrite app_nil_r in X. }
  assert (prints wr (if negb (Z.rem y prime =? 0) then int_bytes y else [])
    (if negb (Z.rem y prime =? 0) then call (Swrite wr (int_bytes y));; mret tt else mret tt)) as Hp.
  { destruct (negb _); [|apply prints_ret]. rewrite <- (app_nil_r (int_bytes y)).
    apply prints_bind; [apply prints_write|intros; apply prints_ret]. }
  ustep. apply Hp; [intros _ s3 t3 E3 W3 O3|intros s3 t3 E3 W3 O3]; [|eapply HR; [by eapply extends_trans|by eapply exited_app, only_writes_exited]].
  ustep. split; [apply extends_length in E3; cbn in *; lia|].
  exists (tr2 ++ t3). split; [by eapply extends_trans|]. split.
  { destruct (decide (wr = 1)); [by right|]. left. destruct H1 as [H1|]; [|done].
    by rewrite outs_app, Eo, H1, (only_writes_outs 1 wr t3) by done. }
  split; [by eapply exited_app, only_writes_exited|].
  intros [G _]%Forall_app. destruct (Hg G) as (Hw & Hi & G'). destruct (H2 G') as [_ Hs].
  rewrite ins_app, outs_app, (only_writes_ins rd wr t3), app_nil_r by done. split; [done|].
  rewrite Hi, survivors_snoc, bind_app, O3, Eo, Hs. f_equal.
  destruct (negb _); cbn; by rewrite ?app_nil_r.
Qed.

(** The write end of the pipe that a process creates. *)
Fixpoint pipe_wr (tr : list event) : Z :=
  match tr with
  | (Spipe, Some r) :: _ => (pipe_ends r).2
  | _ :: tr' => pipe_wr tr'
  | [] => 0
  end.

Definition no_pipe (tr : list event) : Prop := Forall (fun e => e.1 <> Spipe) tr.

Lemma pipe_wr_app t1 t2 : no_pipe t1 -> pipe_wr (t1 ++ t2) = pipe_wr t2.
Proof.
  induction 1 as [|[c o] t1 He _ IH]; cbn; [done|]. cbn in He. destruct c; try done; by destruct o.
Qed.

Lemma only_writes_no_pipe fd tr : only_writes fd tr -> no_pipe tr.
Proof. intros H. eapply Forall_impl; [exact H|]. by intros [c o] [d Hd]; cbn in *; subst. Qed.

Definition prime_line (prime : Z) : list Z := fmt_chars (line "prime %d") false [UInt prime].
#[global] Arguments prime_line : simpl never.

Lemma outs_quiet fd c o : (forall d, c <> Swrite fd d) -> outs fd [(c, o)] = [].
Proof.
  intros H. rewrite outs_1. destruct c; try done. cbn. destruct (Z.eqb_spec fd0 fd); [|done]. subst. by destruct (H data).
Qed.

(** A call of a process that has not exited. *)
Lemma next_sys c (Q : reply -> ust -> Prop) (P : ust -> Prop) s :
  c <> Sexit 0 -> ~ exited (u_trace s) ->
  (forall r s', extends s s' [(c, Some r)] -> ~ exited (u_trace s') -> Q r s') ->
  wps (sys c) Q (fun s' => exited (u_trace s') -> P s') s.
Proof.
  intros Hc Hs HQ. apply wps_sys.
  assert (forall o, ~ exited [(c, o)]) as Hx by (intros o; unfold exited; set_solver).
  destruct (u_env s) as [|r env] eqn:E.
  - intros H. by destruct (exited_app _ _ Hs (Hx None)).
  - apply HQ; [by apply extends_call|]. by apply exited_app.
Qed.

Lemma next_call c (Q : Z -> ust -> Prop) (P : ust -> Prop) s :
  c <> Sexit 0 -> ~ exited (u_trace s) ->
  (forall r s', extends s s' [(c, Some r)] -> ~ exited (u_trace s') -> Q (ret r) s') ->
  wps (call c) Q (fun s' => exited (u_trace s') -> P s') s.
Proof. intros. apply wps_bind, next_sys; auto. Qed.

(** The rest of a turn, after [prime] has been printed. *)
Definition parent_rest (prime rd : Z) : M ust (Z * Z + unit) :=
  np ← sys Spipe;
  let newp := pipe_ends np in
  pid ← call Sfork;
  if 0 <? pid then
    call (Sclose newp.1);;
    sieve prime rd newp.2;;
    call (Sclose rd);;
    call (Sclose newp.2);;
    call Swait;;
    mret (inr tt)
  else
    call (Sclose rd);;
    mret (inl newp).

Lemma wps_parent_rest prime rd (Q : Z * Z + unit -> ust -> Prop) (P : ust -> Prop) s :
  ~ exited (u_trace s) ->
  (forall a s', Q (inl a) s') ->
  (forall s' tr, extends s s' tr ->
     (good rd tr -> outs 1 tr = [] /\ pipe_wr tr <> 1 /\
        outs (pipe_wr tr) tr = survivors prime (ints (ins rd tr)) ≫= int_bytes) ->
     Q (inr tt) s') ->
  wps (parent_rest prime rd) Q (fun s' => exited (u_trace s') -> P s') s.
Proof.
  intros Hs Hl HQ. unfold parent_rest.
  ustep. apply next_sys; [done..|]. intros r1 s1 E1 X1. ustep. apply next_call; [done..|]. intros r2 s2 E2 X2.
  destruct (0 <? ret r2); [|ustep; apply next_call; [done..|]; intros; by apply Hl].
  ustep. apply next_call; [done..|]. intros r3 s3 E3 X3. ustep. apply wps_sieve.
  2: { intros s4 t4 [E4 _] X4 Hx. rewrite E4 in Hx. by destruct (exited_app _ _ X3 X4). }
  intros s4 t4 E4 O4 X4' H4.
  assert (~ exited (u_trace s4)) as X4 by (rewrite (proj1 E4); by apply exited_app).
  ustep. apply next_call; [done..|]. intros r5 s5 E5 X5. ustep. apply next_call; [done..|]. intros r6 s6 E6 X6.
  ustep. apply next_call; [done..|]. intros r7 s7 E7 X7. ustep.
  eapply HQ.
  { eapply extends_trans; [exact E1|]. eapply extends_trans; [exact E2|]. eapply extends_trans; [exact E3|].
    eapply extends_trans; [exact E4|]. eapply extends_trans; [exact E5|]. eapply extends_trans; [exact E6|exact E7]. }
  intros Hg. apply Forall_app in Hg as [G1 Hg]. do 2 apply Forall_app in Hg as [_ Hg]. apply Forall_app in Hg as [G4 _].
  destruct (H4 G4) as [_ Hs4]. apply (Forall_inv (P := good_event rd)) in G1. cbn in G1.
  rewrite !outs_app, !ins_app. cbn [app ins outs mbind list_bind pipe_wr written_by read_by fst].
  rewrite !app_nil_r. destruct O4 as [O4|O4]; [|done]. done.
Qed.

(** One process: as a parent it has printed the first number and passed on the
    survivors among the others; without a number it prints nothing. *)
Lemma stage p env :
  wps (child_turn p)
    (fun r s' => r = inr tt -> good p.1 (u_trace s') ->
       exists prime rest, ints (ins p.1 (u_trace s')) = prime :: rest /\
         outs 1 (u_trace s') = prime_line prime /\
         outs (pipe_wr (u_trace s')) (u_trace s') = survivors prime rest ≫= int_bytes)
    (fun s' => exited (u_trace s') -> outs 1 (u_trace s') = [])
    (mk_ust env []).
Proof.
  unfold child_turn, read_int. usteps. cbn [u_env u_trace]. destruct env as [|r1 env]; [done|]. usteps.
  cbn [u_env u_trace]. destruct env as [|r2 env]; [done|]. usteps. cbn [fst snd u_env u_trace].
  set (prime := if 0 <? ret r2 then _ else _). destruct (Z.eqb_spec prime 0) as [E0|E0].
  { usteps. cbn [u_env u_trace]. destruct env as [|r3 env]; [done|]. by usteps. }
  ustep. set (s2 := mk_ust env _). apply prints_printf; [intros _ s3 t3 E3 W3 O3|intros s3 t3 E3 W3 O3].
  2: { intros Hx. exfalso. destruct E3 as [E3 _]. rewrite E3 in Hx. revert Hx.
       apply exited_app; [unfold exited; cbn; set_solver|by eapply only_writes_exited]. }
  fold (parent_rest prime p.1). apply wps_parent_rest.
  - rewrite (proj1 E3). apply exited_app; [unfold exited; cbn; set_solver|by eapply only_writes_exited].
  - done.
  - intros s4 t4 [E4 _] H4 _ Hg. rewrite (proj1 E3) in E4. cbn [s2 u_trace] in E4. rewrite E4 in *.
    apply Forall_app in Hg as [Hg G4]. apply Forall_app in Hg as [Hg _].
    destruct (H4 G4) as (O4 & Hw & S4). clear H4.
    apply Forall_app in Hg as [_ G2]. apply (Forall_inv (P := good_event p.1)) in G2.
    destruct (G2 eq_refl) as [Hr|[Hr Hlen]].
    { unfold prime in E0. by rewrite Hr in E0. }
    exists prime, (ints (ins p.1 t4)).
    rewrite pipe_wr_app, !ins_app, !outs_app
      by (apply Forall_app; split; [cbn; by repeat constructor|by eapply only_writes_no_pipe]).
    rewrite (only_writes_ins _ 1 t3), O3, O4, (only_writes_outs (pipe_wr t4) 1 t3), S4 by done.
    cbn [ins outs mbind list_bind written_by read_by fst app]. rewrite Z.eqb_refl, Hr.
    change ((true && (0 <? 4))) with true. cbn iota. rewrite !app_nil_r.
    split; [|split; [unfold prime_line; reflexivity|reflexivity]].
    rewrite ints_4 by done. f_equal. unfold prime. rewrite Hr. change (0 <? 4) with true. cbn iota.
    by rewrite Hlen, drop_ge, app_nil_r by (by rewrite length_int_bytes).
Qed.

(** ** The chain of processes *)

(** [chain l out]: processes that run childFunction, the first of which reads the
    numbers [l] and each other one what the process before it writes to its pipe,
    print [out] together.  (A process prints its number before it forks the next
    one, so this is the order of the output.) *)
Inductive chain : list Z -> list Z -> Prop :=
| chain_last p env s' :
    child_turn p (mk_ust env []) = Asleep s' ->
    good p.1 (u_trace s') -> exited (u_trace s') -> ins p.1 (u_trace s') = [] ->
    chain [] (outs 1 (u_trace s'))
| chain_more p env s' more :
    child_turn p (mk_ust env []) = Ret (inr tt) s' ->
    good p.1 (u_trace s') ->
    chain (ints (outs (pipe_wr (u_trace s')) (u_trace s'))) more ->
    chain (ints (ins p.1 (u_trace s'))) (outs 1 (u_trace s') ++ more).

(** The sieve of Eratosthenes. *)
Fixpoint eratosthenes (n : nat) (l : list Z) : list Z :=
  match n, l with
  | S n', p :: l' => p :: eratosthenes n' (survivors p l')
  | _, _ => []
  end.

Lemma length_survivors p l : (length (survivors p l) <= length l)%nat.
Proof. apply length_filter. Qed.

Lemma Forall_survivors P p l : Forall P l -> Forall P (survivors p l).
Proof. rewrite !Forall_forall. intros H x Hx%list_elem_of_filter. apply H, Hx. Qed.

Lemma chain_eratosthenes l outp :
  chain l outp -> forall n, (length l <= n)%nat -> outp = eratosthenes n l ≫= prime_line.
Proof.
  induction 1 as [p env s' E G X I|p env s' more E G _ IH]; intros n Hn;
    pose proof (stage p env) as H; unfold wps in H; rewrite E in H.
  - rewrite (H X). by destruct n.
  - destruct (H eq_refl G) as (prime & rest & Ei & -> & Ew). rewrite Ei in *. rewrite Ew in IH.
    destruct n as [|n]; cbn in Hn; [lia|]. cbn [eratosthenes mbind list_bind].
    pose proof (ints_range (ins p.1 (u_trace s'))) as Hr. rewrite Ei in Hr. inversion Hr; subst.
    rewrite ints_bytes in IH by by apply Forall_survivors. f_equal. apply IH.
    etrans; [apply length_survivors|lia].
Qed.

Lemma prints_write_from n fd i : prints fd (zseq i n ≫= int_bytes) (write_from n fd i).
Proof.
  revert i. induction n as [|n IH]; intros i; [apply prints_ret|].
  rewrite zseq_S. cbn [mbind list_bind write_from]. apply prints_bind; [apply prints_write|by intros].
Qed.

(** The process that feeds the chain. *)
Lemma main_feeds prog rp rf env :
  0 < ret rf -> (pipe_ends rp).2 <> 1 ->
  wps (main [prog]) (fun _ _ => False)
    (fun s' => exited (u_trace s') ->
       outs 1 (u_trace s') = [] /\ outs (pipe_ends rp).2 (u_trace s') = zseq 2 34 ≫= int_bytes)
    (mk_ust (rp :: rf :: env) []).
Proof.
  intros Hf H1. unfold main. cbn [negb Nat.eqb length]. usteps. cbn [u_env u_trace app]. usteps. cbn [u_env u_trace app].
  rewrite (proj2 (Z.ltb_lt 0 (ret rf))) by done. set (wr := (pipe_ends rp).2) in *. ustep. ustep.
  apply next_call; [done|unfold exited; set_solver|]. intros r3 s3 E3 X3. ustep.
  apply prints_write_from; [intros [] s4 t4 E4 W4 O4|intros s4 t4 [E4 _] W4 O4 Hx].
  2: { rewrite E4 in Hx. exfalso. revert Hx. apply exited_app; [done|by eapply only_writes_exited]. }
  assert (~ exited (u_trace s4)) as X4.
  { rewrite (proj1 E4). apply exited_app; [done|by eapply only_writes_exited]. }
  ustep. apply next_call; [done..|]. intros r5 s5 E5 X5. ustep. apply next_call; [done..|]. intros r6 s6 E6 X6.
  usteps. intros _. cbn [u_trace]. rewrite (proj1 E6), (proj1 E5), (proj1 E4), (proj1 E3). cbn [u_trace].
  rewrite !outs_app, O4, (only_writes_outs 1 wr t4) by done. cbn [outs mbind list_bind written_by fst app].
  by rewrite !app_nil_r.
Qed.

(** C36: primes prints the primes from 2 to 35.  For every behaviour of the kernel
    that moves whole numbers through the pipes and gives each process what the
    process before it wrote, and whatever the interleaving: when the first process
    has exited and the others have run, they have printed one line for each prime
    up to 35, in ascending order, and nothing else. *)
Theorem primes_correct prog rp rf env s' outp :
  main [prog] (mk_ust (rp :: rf :: env) []) = Asleep s' ->
  0 < ret rf -> (pipe_ends rp).2 <> 1 -> exited (u_trace s') ->
  chain (ints (outs (pipe_ends rp).2 (u_trace s'))) outp ->
  outs 1 (u_trace s') ++ outp = [2; 3; 5; 7; 11; 13; 17; 19; 23; 29; 31] ≫= prime_line.
Proof.
  intros E Hf H1 Hx Hc. pose proof (main_feeds prog rp rf env Hf H1) as H. unfold wps in H. rewrite E in H.
  destruct (H Hx) as [-> Ew]. rewrite Ew in Hc. cbn [app].
  rewrite ints_bytes in Hc.
  - rewrite (chain_eratosthenes _ _ Hc 34) by (rewrite length_zseq; lia). by f_equal.
  - apply Forall_forall. intros x Hx'%elem_of_zseq. unfold is_i32. lia.
Qed.

(** *** A run *)

Definition ok : reply := mk_reply 0 [].

(** What the kernel replies to the process that reads the numbers [l]. *)
Definition stage_env (l : list Z) : list reply :=
  match l with
  | [] => [ok; ok; ok]
  | p :: l' =>
      [ok; mk_reply 4 (int_bytes p)] ++ replicate (length (prime_line p)) (mk_reply 1 []) ++
      [mk_reply 0 [5; 6]; mk_reply 9 []; ok] ++
      (l' ≫= fun x => mk_reply 4 (int_bytes x) :: (if Z.rem x p =? 0 then [] else [mk_reply 4 []])) ++
      [ok; ok; ok; ok]
  end.

#[global] Instance good_event_dec rd e : Decision (good_event rd e).
Proof. destruct e as [[] [r|]]; cbn; apply _. Defined.

Fixpoint run_chain (n : nat) (l : list Z) : option (list Z) :=
  match child_turn (3, 4) (mk_ust (stage_env l) []) with
  | Asleep s' =>
      let tr := u_trace s' in
      if bool_decide (l = [] /\ Forall (good_event 3) tr /\ (Sexit 0, None) ∈ tr /\ ins 3 tr = [])
      then Some (outs 1 tr) else None
  | Ret (inr tt) s' =>
      let tr := u_trace s' in
      match n with
      | O => None
      | S n' =>
          if bool_decide (Forall (good_event 3) tr /\ ints (ins 3 tr) = l)
          then app (outs 1 tr) <$> run_chain n' (ints (outs (pipe_wr tr) tr)) else None
      end
  | _ => None
  end.

Lemma run_chain_sound n l outp : run_chain n l = Some outp -> chain l outp.
Proof.
  revert l outp. induction n as [|n IH]; intros l outp; cbn [run_chain];
    destruct (child_turn _ _) as [[?|[]] s'|? s'|s'|s'|s'] eqn:E; try done.
  1, 3: case_bool_decide as Hb; [|done]; destruct Hb as (-> & G & X & I); intros [= <-];
    by eapply (chain_last (3, 4)).
  case_bool_decide as Hb; [|done]. destruct Hb as (G & <-). intros (more & Hm & ->)%fmap_Some.
  eapply (chain_more (3, 4)); [done|done|]. by apply IH.
Qed.

(** The replies to the first process. *)
Definition main_env : list reply :=
  [ok] ++ replicate 34 (mk_reply 4 []) ++ [ok; ok].

Lemma primes_correct_witness :
  exists s' outp, main [str "primes"] (mk_ust (mk_reply 0 [3; 4] :: mk_reply 2 [] :: main_env) []) = Asleep s' /\
    outs 1 (u_trace s') ++ outp = [2; 3; 5; 7; 11; 13; 17; 19; 23; 29; 31] ≫= prime_line.
Proof.
  eexists _, _. split; [by vm_compute|].
  eapply (primes_correct (str "primes") (mk_reply 0 [3; 4]) (mk_reply 2 []) main_env);
    [by vm_compute|by vm_compute|by vm_compute|apply (bool_decide_unpack _); by vm_compute|].
  eapply (run_chain_sound 20). by vm_compute.
Defined.
