(* ===== verification/Sh.v ===== *)
(** * user/sh.c

    The line is a buffer of bytes without NUL; a pointer into it is the suffix of
    the bytes from there on, so that [*ps] is the state of the parser and a token is
    the pair of its first byte and the byte after it.  The node of an EXEC command is
    shared between cmd and ret in parseexec: [add_arg] updates it inside the
    redirections that have been wrapped around it.  panic() of the shell prints a
    message and exits; in the parser it is the outcome [Panic].  nulterminate stores
    NULs into the buffer, and runcmd takes its strings from the buffer. *)

From Stdlib Require Import ZArith Lia.
From stdpp Require Import base list sets strings.
From S2P Require Import Prelude KString User Ulib.

Module Sh.

Definition MAXARGS : nat := 10.

Definition O_WRONLY : Z := 1.
Definition O_RDWR : Z := 2.
Definition O_CREATE : Z := 512.
Definition O_TRUNC : Z := 1024.

(** A pointer into the line. *)
Abbreviation ptr := (list Z).

Inductive cmd :=
| EXEC (argv : list (ptr * ptr))  (* argv[i], eargv[i] *)
| REDIR (c : cmd) (file efile : ptr) (mode fd : Z)
| PIPE (left right : cmd)
| LIST (left right : cmd)
| BACK (c : cmd).

(** *** Constructors *)

Definition execcmd : cmd := EXEC [].
Definition redircmd (subcmd : cmd) (file efile : ptr) (mode fd : Z) : cmd := REDIR subcmd file efile mode fd.
Definition pipecmd (left right : cmd) : cmd := PIPE left right.
Definition listcmd (left right : cmd) : cmd := LIST left right.
Definition backcmd (subcmd : cmd) : cmd := BACK subcmd.

(** ** Tokens *)

Definition whitespace : list Z := [32; 9; 13; 10; 11].
Definition symbols : list Z := str "<|>&;()".

Definition is_in (c : Z) (l : list Z) : bool := match strchr l c with Some _ => true | None => false end.

Fixpoint skip_ws (s : ptr) : ptr :=
  match s with
  | c :: s' => if is_in c whitespace then skip_ws s' else s
  | [] => []
  end.

Fixpoint skip_word (s : ptr) : ptr :=
  match s with
  | c :: s' => if negb (is_in c whitespace) && negb (is_in c symbols) then skip_word s' else s
  | [] => []
  end.

(** The token at [q]: its kind and what follows it. *)
Definition token (q : ptr) : Z * ptr :=
  match q with
  | [] => (0, [])
  | c :: q1 =>
      if is_in c (str "|();&<") then (c, q1)
      else if c =? 62 then
        match q1 with
        | d :: q2 => if d =? 62 then (43, q2) else (62, q1)
        | [] => (62, q1)
        end
      else (97, skip_word q)
  end.

(** The value of gettoken, q and eq. *)
Definition gettoken : M ptr (Z * ptr * ptr) :=
  s ← get;
  let q := skip_ws s in
  let '(tok, eq) := token q in
  modify (fun _ => skip_ws eq);;
  mret (tok, q, eq).

Definition peek (toks : list Z) : M ptr bool :=
  modify skip_ws;;
  s ← get;
  mret (match s with c :: _ => is_in c toks | [] => false end).

(** ** The parser *)

Definition redir_of (tok : Z) (c : cmd) (q eq : ptr) : cmd :=
  if tok =? 60 then redircmd c q eq O_RDONLY 0
  else if tok =? 62 then redircmd c q eq (Z.lor (Z.lor O_WRONLY O_CREATE) O_TRUNC) 1
  else if tok =? 43 then redircmd c q eq (Z.lor O_WRONLY O_CREATE) 1
  else c.

Fixpoint parseredirs (fuel : nat) (c : cmd) : M ptr cmd :=
  b ← peek (str "<>");
  if b : bool then
    match fuel with
    | O => out_of_fuel
    | S fuel' =>
        t ← gettoken;
        f ← gettoken;
        let '(kind, q, eq) := f in
        if negb (kind =? 97) then panic "missing file for redirection" else
        parseredirs fuel' (redir_of t.1.1 c q eq)
    end
  else mret c.

(** cmd->argv[argc] = q; cmd->eargv[argc] = eq; in the EXEC node of [c]. *)
Fixpoint add_arg (q eq : ptr) (c : cmd) : cmd :=
  match c with
  | EXEC argv => EXEC (argv ++ [(q, eq)])
  | REDIR c' file efile mode fd => REDIR (add_arg q eq c') file efile mode fd
  | _ => c
  end.

(** The loop of parseexec. *)
Fixpoint parseargs (fuel : nat) (argc : nat) (ret : cmd) : M ptr cmd :=
  b ← peek (str "|)&;");
  if b : bool then mret ret else
  t ← gettoken;
  let '(tok, q, eq) := t in
  if tok =? 0 then mret ret else
  if negb (tok =? 97) then panic "syntax" else
  let ret := add_arg q eq ret in
  let argc := S argc in
  if (MAXARGS <=? argc)%nat then panic "too many args" else
  n ← gets length;
  ret ← parseredirs n ret;
  match fuel with
  | O => out_of_fuel
  | S fuel' => parseargs fuel' argc ret
  end.

(** The loop on & in parseline. *)
Fixpoint parsebacks (fuel : nat) (c : cmd) : M ptr cmd :=
  b ← peek (str "&");
  if b : bool then
    match fuel with
    | O => out_of_fuel
    | S fuel' => gettoken;; parsebacks fuel' (backcmd c)
    end
  else mret c.

(** parseline, parsepipe, parseexec and parseblock. *)
Fixpoint parseline (fuel : nat) : M ptr cmd :=
  match fuel with
  | O => out_of_fuel
  | S fuel' =>
      c ← parsepipe fuel';
      n ← gets length;
      c ← parsebacks n c;
      b ← peek (str ";");
      if b : bool then gettoken;; r ← parseline fuel'; mret (listcmd c r) else mret c
  end
with parsepipe (fuel : nat) : M ptr cmd :=
  match fuel with
  | O => out_of_fuel
  | S fuel' =>
      c ← parseexec fuel';
      b ← peek (str "|");
      if b : bool then gettoken;; r ← parsepipe fuel'; mret (pipecmd c r) else mret c
  end
with parseexec (fuel : nat) : M ptr cmd :=
  match fuel with
  | O => out_of_fuel
  | S fuel' =>
      b ← peek (str "(");
      if b : bool then parseblock fuel' else
      n ← gets length;
      ret ← parseredirs n execcmd;
      n ← gets length;
      parseargs n 0 ret
  end
with parseblock (fuel : nat) : M ptr cmd :=
  match fuel with
  | O => out_of_fuel
  | S fuel' =>
      b ← peek (str "(");
      if negb b then panic "parseblock" else
      gettoken;;
      c ← parseline fuel';
      b ← peek (str ")");
      if negb b then panic "syntax - missing )" else
      gettoken;;
      n ← gets length;
      parseredirs n c
  end.

(** *p = 0: the buffer has one more byte than the line, its NUL, to which the empty suffix
    of the line points. *)
Definition terminate (line buf : list Z) (p : ptr) : list Z :=
  <[(length line - length p)%nat := 0]> buf.

Fixpoint nulterminate (line buf : list Z) (c : cmd) : list Z :=
  match c with
  | EXEC argv => foldl (fun buf a => terminate line buf a.2) buf argv
  | REDIR c' _ efile _ _ => terminate line (nulterminate line buf c') efile
  | PIPE l r => nulterminate line (nulterminate line buf l) r
  | LIST l r => nulterminate line (nulterminate line buf l) r
  | BACK c' => nulterminate line buf c'
  end.

(** The command and the buffer.  The message "leftovers" stands for the line that
    parsecmd prints before panic("syntax"). *)
Definition parsecmd (line : list Z) : M ptr (cmd * list Z) :=
  c ← parseline (4 * length line + 4);
  peek [];;
  s ← get;
  if bool_decide (s = []) then mret (c, nulterminate line (line ++ [0]) c)
  else panic "leftovers".

(** ** Running commands *)

(** The string at a pointer into the line, in the buffer. *)
Definition string_at (line buf : list Z) (p : ptr) : list Z :=
  until_nul (drop (length line - length p) buf).

Definition upanic {A} (s : list Z) : M ust A :=
  fprintf 2 (str "%s" ++ [newline]) [UStr (Some s)];;
  uexit 1.

Definition fork1 : M ust Z :=
  pid ← call Sfork;
  if pid =? -1 then upanic (str "fork") else mret pid.

Section runcmd.
Variables line buf : list Z.
#[local] Abbreviation deref := (string_at line buf).

Fixpoint runcmd (c : cmd) : M ust unit :=
  match c with
  | EXEC argv =>
      match argv with
      | [] => uexit 1
      | a :: _ =>
          call (Sexec (deref a.1) ((fun a => deref a.1) <$> argv));;
          fprintf 2 (str "exec %s failed" ++ [newline]) [UStr (Some (deref a.1))];;
          uexit 0
      end
  | REDIR c' file _ mode fd =>
      call (Sclose fd);;
      r ← call (Sopen (deref file) mode);
      if r <? 0 then
        fprintf 2 (str "open %s failed" ++ [newline]) [UStr (Some (deref file))];;
        uexit 1
      else
        runcmd c';;
        uexit 0
  | LIST l r =>
      pid ← fork1;
      (if pid =? 0 then runcmd l else mret tt);;
      call Swait;;
      runcmd r;;
      uexit 0
  | PIPE l r =>
      p ← sys Spipe;
      if ret p <? 0 then upanic (str "pipe") else
      let p0 := default 0 (out p !! 0%nat) in
      let p1 := default 0 (out p !! 1%nat) in
      pid ← fork1;
      (if pid =? 0 then
         call (Sclose 1);; call (Sdup p1);; call (Sclose p0);; call (Sclose p1);;
         runcmd l
       else mret tt);;
      pid ← fork1;
      (if pid =? 0 then
         call (Sclose 0);; call (Sdup p0);; call (Sclose p0);; call (Sclose p1);;
         runcmd r
       else mret tt);;
      call (Sclose p0);;
      call (Sclose p1);;
      call Swait;;
      call Swait;;
      uexit 0
  | BACK c' =>
      pid ← fork1;
      (if pid =? 0 then runcmd c' else mret tt);;
      uexit 0
  end.
End runcmd.

(** runcmd(parsecmd(buf)) *)
Definition parse_and_run (line : list Z) : M ust unit :=
  match parsecmd line line with
  | Ret (c, buf) _ => runcmd line buf c
  | Panic msg s =>
      if bool_decide (msg = "leftovers"%string) then
        fprintf 2 (str "leftovers: %s" ++ [newline]) [UStr (Some s)];;
        upanic (str "syntax")
      else upanic (str msg)
  | Fuel _ | Asleep _ | Spin _ => out_of_fuel
  end.

(** The line, unless it is empty. *)
Definition getcmd (nbuf : Z) : M ust (option (list Z)) :=
  fprintf 2 (str "$ ") [];;
  buf ← ugets nbuf;
  mret (match until_nul buf with [] => None | _ => Some (until_nul buf) end).

Definition open_console : M ust unit :=
  loop (fun _ : unit =>
    fd ← call (Sopen (str "console") O_RDWR);
    if fd <? 0 then mret (inr tt)
    else if 3 <=? fd then call (Sclose fd);; mret (inr tt)
    else mret (inl tt)) tt.

Definition main : M ust unit :=
  open_console;;
  loop (fun _ : unit =>
    r ← getcmd 100;
    match r with
    | None => mret (inr tt)
    | Some buf =>
        if bool_decide (take 3 buf = str "cd ") then
          let dir := drop 3 (take (length buf - 1) buf) in
          r ← call (Schdir dir);
          (if r <? 0 then fprintf 2 (str "cannot cd %s" ++ [newline]) [UStr (Some dir)] else mret tt);;
          mret (inl tt)
        else
          pid ← fork1;
          (if pid =? 0 then parse_and_run buf else mret tt);;
          call Swait;;
          mret (inl tt)
    end) tt;;
  uexit 0.

End Sh.
