(* ===== verification/ShProofs.v ===== *)
(** * Theorems on the parser of the shell

    [parsecmd_strings]: the parser terminates on every line, and the NULs that
    nulterminate stores leave every argument and file name as it stands in the line.
    [parse_roundtrip]: the parser inverts the printing of commands. *)

From Stdlib Require Import ZArith Lia.
From stdpp Require Import base list sets strings.
From S2P Require Import Prelude KString User Ulib Sh.
Import Sh.

(** ** Rules: the code returns or panics *)

Definition wpp {S A} (m : M S A) (Q : A -> S -> Prop) (s : S) : Prop :=
  match m s with Ret a s' => Q a s' | Panic _ _ => True | _ => False end.
#[global] Arguments wpp : simpl never.

Lemma wpp_bind {S A B} (m : M S A) (f : A -> M S B) Q s :
  wpp m (fun a s' => wpp (f a) Q s') s -> wpp (m ≫= f) Q s.
Proof. unfold wpp, mbind, M_bind. by destruct (m s). Qed.
Lemma wpp_ret {S A} (a : A) (Q : A -> S -> Prop) s : Q a s -> wpp (mret a) Q s.
Proof. done. Qed.
Lemma wpp_panic {S A} msg (Q : A -> S -> Prop) s : wpp (panic msg) Q s.
Proof. done. Qed.
Lemma wpp_gets {S A} (f : S -> A) (Q : A -> S -> Prop) s : Q (f s) s -> wpp (gets f) Q s.
Proof. done. Qed.
Lemma wpp_mono {S A} (m : M S A) (Q Q' : A -> S -> Prop) s :
  wpp m Q s -> (forall a s', Q a s' -> Q' a s') -> wpp m Q' s.
Proof. unfold wpp. destruct (m s); naive_solver. Qed.

(** ** Tokens *)

Definition delim (c : Z) : Prop := c ∈ whitespace \/ c ∈ symbols.

Lemma is_in_spec c l : is_in c l = true <-> c ∈ l.
Proof.
  unfold is_in. rewrite <- strchr_elem. destruct (strchr l c); split; try done; by eauto || intros [? ?].
Qed.
Lemma is_in_false c l : is_in c l = false <-> c ∉ l.
Proof. rewrite <- is_in_spec. by destruct (is_in c l). Qed.

Lemma skip_ws_suffix s : skip_ws s `suffix_of` s.
Proof.
  induction s as [|c s IH]; cbn [skip_ws]; [done|]. case_match; [|done]. by apply suffix_cons_r.
Qed.

(** A word in the line: its characters are no delimiters, and one follows it. *)
Definition word_at (line : list Z) (q eq : ptr) : Prop :=
  q `suffix_of` line /\
  exists w, q = w ++ eq /\ w <> [] /\ Forall (fun c => ~ delim c) w /\
    (forall c eq', eq = c :: eq' -> delim c).

Lemma skip_word_spec s :
  exists w, s = w ++ skip_word s /\ Forall (fun c => ~ delim c) w /\
    (forall c s', skip_word s = c :: s' -> delim c).
Proof.
  induction s as [|c s IH]; cbn [skip_word]; [by exists []|].
  destruct (negb (is_in c whitespace) && negb (is_in c symbols)) eqn:E.
  - apply andb_true_iff in E as [E1%negb_true_iff E2%negb_true_iff].
    apply is_in_false in E1, E2. destruct IH as (w & Hs & Hw & Hd). exists (c :: w).
    split; [by rewrite <- app_comm_cons, <- Hs|]. split; [|done]. constructor; [|done]. by intros [?|?].
  - exists []. split_and!; [done|done|]. intros ? ? [= <- _].
    apply andb_false_iff in E as [E%negb_false_iff|E%negb_false_iff]; apply is_in_spec in E; [by left|by right].
Qed.

Lemma skip_ws_head s c s' : skip_ws s = c :: s' -> c ∉ whitespace.
Proof.
  induction s as [|d s IH]; cbn [skip_ws]; [done|]. destruct (is_in d whitespace) eqn:E; [done|].
  intros [= <- _]. by apply is_in_false.
Qed.

(** What [token] returns at a byte that is not white space. *)
Lemma token_spec line q tok eq :
  token q = (tok, eq) -> q `suffix_of` line -> (forall c q', q = c :: q' -> c ∉ whitespace) ->
  eq `suffix_of` q /\ (q <> [] -> (length eq < length q)%nat) /\ (tok = 97 -> word_at line q eq) /\
  (tok = 0 -> q = []).
Proof.
  intros Ht Hq Hws. unfold token in Ht. destruct q as [|c q1]; [by injection Ht as <- <-|].
  destruct (is_in c (str "|();&<")) eqn:E1.
  { injection Ht as <- <-. split_and!; [by apply suffix_cons_r|cbn; lia|..];
      intros ->; by vm_compute in E1. }
  destruct (Z.eqb_spec c 62) as [->|E2].
  { assert (tok = 43 /\ (exists d, q1 = d :: eq) \/ tok = 62 /\ eq = q1) as H.
    { destruct q1 as [|d q2]; [injection Ht as <- <-; by right|].
      destruct (d =? 62); injection Ht as <- <-; [left; by eauto|by right]. }
    destruct H as [[-> [d ->]]|[-> ->]]; (split_and!; [|cbn; lia|done|done]).
    - do 2 apply suffix_cons_r. done.
    - by apply suffix_cons_r. }
  injection Ht as <- <-.
  assert (skip_word (c :: q1) = skip_word q1) as Hs.
  { cbn [skip_word]. rewrite (proj2 (is_in_false c whitespace)) by by eapply Hws.
    rewrite (proj2 (is_in_false c symbols)); [done|]. apply is_in_false in E1.
    intros Hc. apply E1. revert Hc E2. change symbols with [60; 124; 62; 38; 59; 40; 41].
    change (str "|();&<") with [124; 40; 41; 59; 38; 60]. set_solver. }
  destruct (skip_word_spec (c :: q1)) as (w & Hw & Hall & Hd).
  assert (w <> []) as Hne.
  { intros ->. apply (f_equal length) in Hw. rewrite Hs in Hw. cbn in Hw.
    destruct (skip_word_spec q1) as (w1 & Hw1 & _). apply (f_equal length) in Hw1. rewrite length_app in Hw1. lia. }
  split_and!.
  - by exists w.
  - intros _. rewrite Hw at 2. rewrite length_app. destruct w; cbn; [done|lia].
  - intros _. split; [done|]. by exists w.
  - done.
Qed.

(** ** The invariant of the parser *)

(** Every word of the command is a word of the line. *)
Fixpoint cmd_ok (line : list Z) (c : cmd) : Prop :=
  match c with
  | EXEC argv => Forall (fun a => word_at line a.1 a.2) argv
  | REDIR c' file efile _ _ => cmd_ok line c' /\ word_at line file efile
  | PIPE l r | LIST l r => cmd_ok line l /\ cmd_ok line r
  | BACK c' => cmd_ok line c'
  end.

Section parser.
Variable line : list Z.

Lemma wpp_gettoken k s (Q : Z * ptr * ptr -> ptr -> Prop) :
  s `suffix_of` line -> (k = 0 \/ k = 1 /\ skip_ws s <> [])%nat ->
  (forall tok q eq s', s' `suffix_of` s -> (length s' + k <= length s)%nat ->
     (tok = 97 -> word_at line q eq) -> (tok = 0 \/ (length s' < length s)%nat) -> Q (tok, q, eq) s') ->
  wpp gettoken Q s.
Proof.
  intros Hs Hk HQ. unfold gettoken. apply wpp_bind. unfold wpp at 1, get.
  pose proof (skip_ws_suffix s) as H1. destruct (token (skip_ws s)) as [tok eq] eqn:Et.
  destruct (token_spec line _ _ _ Et) as (H2 & H3 & H4 & H5).
  { by etrans. } { intros c q' E. by eapply skip_ws_head. }
  apply wpp_bind. unfold wpp at 1, modify. apply wpp_ret.
  pose proof (skip_ws_suffix eq) as H6. apply suffix_length in H1 as L1. apply suffix_length in H6 as L6.
  apply suffix_length in H2 as L2.
  assert (skip_ws s = [] \/ (length (skip_ws eq) < length s)%nat) as Hlt.
  { destruct (skip_ws s) eqn:E; [by left|right]. rewrite <- E in *. assert (skip_ws s <> []) as X by congruence.
    specialize (H3 X). lia. }
  apply HQ; [by do 2 (etrans; [done|])| |done|].
  - destruct Hk as [->|[-> Hk]]; [lia|]. destruct Hlt; [done|lia].
  - destruct Hlt as [E|]; [left|by right]. rewrite E in Et. by injection Et as <- _.
Qed.

Lemma wpp_peek toks s (Q : bool -> ptr -> Prop) :
  (forall b s', s' = skip_ws s -> (b = true -> s' <> []) -> skip_ws s' = s' -> Q b s') -> wpp (peek toks) Q s.
Proof.
  intros HQ. unfold peek, wpp. cbn. apply HQ; [done|by destruct (skip_ws s)|].
  clear. induction s as [|c s IH]; cbn [skip_ws]; [done|]. destruct (is_in c whitespace) eqn:E; [done|].
  cbn [skip_ws]. by rewrite E.
Qed.
(** [m] returns a good command at a place [s'] in the rest of the line. *)
Definition parses (m : M ptr cmd) (s : ptr) : Prop :=
  wpp m (fun c s' => s' `suffix_of` s /\ cmd_ok line c) s.

Lemma parses_from m s s0 : parses m s -> s `suffix_of` s0 ->
  wpp m (fun c s' => s' `suffix_of` s0 /\ cmd_ok line c) s.
Proof. intros Hm Hs. eapply wpp_mono; [exact Hm|]. intros c s' [H1 H2]. split; [by etrans|done]. Qed.

Lemma redir_of_ok tok c q eq : cmd_ok line c -> word_at line q eq -> cmd_ok line (redir_of tok c q eq).
Proof. intros Hc Hq. unfold redir_of. by repeat case_match. Qed.

Lemma add_arg_ok q eq c : cmd_ok line c -> word_at line q eq -> cmd_ok line (add_arg q eq c).
Proof.
  intros Hc Hq. induction c as [argv|c IH| | |]; cbn in *; try done.
  - apply Forall_app. split; [done|]. by apply Forall_singleton.
  - naive_solver.
Qed.

Lemma parseredirs_ok n c s :
  s `suffix_of` line -> (length s <= n)%nat -> cmd_ok line c -> parses (parseredirs n c) s.
Proof.
  revert c s. induction n as [|n IH]; intros c s Hs Hn Hc; unfold parses; cbn [parseredirs];
    apply wpp_bind, wpp_peek; intros b s1 -> Hb Hws; pose proof (skip_ws_suffix s) as H1;
    apply suffix_length in H1 as L1; destruct b; try (by apply wpp_ret).
  { destruct (skip_ws s); [by destruct Hb|cbn in *; lia]. }
  apply wpp_bind, (wpp_gettoken 1); [by etrans|rewrite Hws; by auto|]. intros tok q1 eq1 s2 H2 L2 _ _.
  apply wpp_bind, (wpp_gettoken 0); [by do 2 (etrans; [done|])|by left|]. intros kind q eq s3 H3 L3 Hk _.
  destruct (Z.eqb_spec kind 97) as [Ek|]; [|apply wpp_panic]. cbn [negb].
  assert (s3 `suffix_of` s) as H03 by (by do 2 (etrans; [done|])).
  apply parses_from; [|done]. apply IH; [by etrans|lia|]. apply redir_of_ok; auto.
Qed.

Lemma parseargs_ok n argc c s :
  s `suffix_of` line -> (length s <= n)%nat -> cmd_ok line c -> parses (parseargs n argc c) s.
Proof.
  revert argc c s. induction n as [|n IH]; intros argc c s Hs Hn Hc; unfold parses; cbn [parseargs];
    apply wpp_bind, wpp_peek; intros b s1 -> Hb Hws; pose proof (skip_ws_suffix s) as H1;
    apply suffix_length in H1 as L1; destruct b; try (by apply wpp_ret);
    (apply wpp_bind, (wpp_gettoken 0); [by etrans|by left|]); intros tok q eq s2 H2 L2 Hq Ht;
    assert (s2 `suffix_of` s) as H02 by (by etrans);
    (destruct (Z.eqb_spec tok 0) as [|E0]; [by apply wpp_ret|]);
    (destruct (Z.eqb_spec tok 97) as [Ek|]; [|apply wpp_panic]); cbn [negb];
    (destruct (MAXARGS <=? S argc)%nat; [apply wpp_panic|]);
    (destruct Ht as [|Ht]; [done|]); [lia|].
  apply wpp_bind, wpp_gets, wpp_bind. eapply wpp_mono.
  { apply (parseredirs_ok _ _ s2); [by etrans|done|]. apply add_arg_ok; auto. }
  intros c' s3 [H3 Hc']. apply suffix_length in H3 as L3.
  apply parses_from; [|by etrans]. apply IH; [by do 2 (etrans; [done|])|lia|done].
Qed.

Lemma parsebacks_ok n c s :
  s `suffix_of` line -> (length s <= n)%nat -> cmd_ok line c -> parses (parsebacks n c) s.
Proof.
  revert c s. induction n as [|n IH]; intros c s Hs Hn Hc; unfold parses; cbn [parsebacks];
    apply wpp_bind, wpp_peek; intros b s1 -> Hb Hws; pose proof (skip_ws_suffix s) as H1;
    apply suffix_length in H1 as L1; destruct b; try (by apply wpp_ret).
  { destruct (skip_ws s); [by destruct Hb|cbn in *; lia]. }
  apply wpp_bind, (wpp_gettoken 1); [by etrans|rewrite Hws; by auto|]. intros tok q1 eq1 s2 H2 L2 _ _.
  apply parses_from; [|by etrans]. apply IH; [by do 2 (etrans; [done|])|lia|done].
Qed.

(** The four procedures, with the fuel that they need. *)
Lemma parse_ok n :
  (forall s, s `suffix_of` line -> (4 * length s + 4 <= n)%nat -> parses (parseline n) s) /\
  (forall s, s `suffix_of` line -> (4 * length s + 3 <= n)%nat -> parses (parsepipe n) s) /\
  (forall s, s `suffix_of` line -> (4 * length s + 2 <= n)%nat -> parses (parseexec n) s) /\
  (forall s, s `suffix_of` line -> (4 * length s + 1 <= n)%nat -> parses (parseblock n) s).
Proof.
  induction n as [|n (IHl & IHp & IHe & IHb)]; [split_and!; intros; lia|]. split_and!; intros s Hs Hn; unfold parses.
  - cbn [parseline]. apply wpp_bind. eapply wpp_mono; [apply IHp; [done|lia]|]. intros c s1 [H1 Hc].
    apply wpp_bind, wpp_gets, wpp_bind. eapply wpp_mono; [apply (parsebacks_ok _ _ s1); [by etrans|done|done]|].
    intros c2 s2 [H2 Hc2]. assert (s2 `suffix_of` s) as H02 by by etrans.
    apply wpp_bind, wpp_peek. intros b s3 -> Hb Hws. pose proof (skip_ws_suffix s2) as H3.
    destruct b; [|apply wpp_ret; split; [by etrans|done]].
    apply wpp_bind, (wpp_gettoken 1); [by do 2 (etrans; [done|])|rewrite Hws; by auto|].
    intros ? ? ? s4 H4 L4 _ _. assert (s4 `suffix_of` s) as H04 by (by do 2 (etrans; [done|])).
    apply suffix_length in H02, H3. apply wpp_bind. eapply wpp_mono; [apply IHl; [by etrans|lia]|].
    intros r s5 [H5 Hr]. apply wpp_ret. split; [by etrans|done].
  - cbn [parsepipe]. apply wpp_bind. eapply wpp_mono; [apply IHe; [done|lia]|]. intros c s1 [H1 Hc].
    apply wpp_bind, wpp_peek. intros b s3 -> Hb Hws. pose proof (skip_ws_suffix s1) as H3.
    destruct b; [|apply wpp_ret; split; [by etrans|done]].
    apply wpp_bind, (wpp_gettoken 1); [by do 2 (etrans; [done|])|rewrite Hws; by auto|].
    intros ? ? ? s4 H4 L4 _ _. assert (s4 `suffix_of` s) as H04 by (by do 2 (etrans; [done|])).
    apply suffix_length in H1, H3. apply wpp_bind. eapply wpp_mono; [apply IHp; [by etrans|lia]|].
    intros r s5 [H5 Hr]. apply wpp_ret. split; [by etrans|done].
  - cbn [parseexec]. apply wpp_bind, wpp_peek. intros b s1 -> Hb Hws. pose proof (skip_ws_suffix s) as H1.
    apply suffix_length in H1 as L1. destruct b.
    { apply parses_from; [|done]. apply IHb; [by etrans|lia]. }
    apply wpp_bind, wpp_gets, wpp_bind.
    eapply wpp_mono; [apply (parseredirs_ok _ _ (skip_ws s)); [by etrans|done|constructor]|].
    intros c s2 [H2 Hc]. apply wpp_bind, wpp_gets. apply parses_from; [|by etrans].
    apply parseargs_ok; [by do 2 (etrans; [done|])|done|done].
  - cbn [parseblock]. apply wpp_bind, wpp_peek. intros b s1 -> Hb Hws. pose proof (skip_ws_suffix s) as H1.
    apply suffix_length in H1 as L1. destruct b; cbn [negb]; [|apply wpp_panic].
    apply wpp_bind, (wpp_gettoken 1); [by etrans|rewrite Hws; by auto|]. intros ? ? ? s2 H2 L2 _ _.
    assert (s2 `suffix_of` s) as H02 by by etrans.
    apply wpp_bind. eapply wpp_mono; [apply IHl; [by etrans|lia]|]. intros c s3 [H3 Hc].
    apply wpp_bind, wpp_peek. intros b s4 -> Hb' Hws'. pose proof (skip_ws_suffix s3) as H4.
    assert (skip_ws s3 `suffix_of` s) as H04 by (by do 2 (etrans; [done|])).
    destruct b; cbn [negb]; [|apply wpp_panic].
    apply wpp_bind, (wpp_gettoken 1); [by etrans|rewrite Hws'; by auto|]. intros ? ? ? s5 H5 L5 _ _.
    assert (s5 `suffix_of` s) as H05 by by etrans.
    apply wpp_bind, wpp_gets. apply parses_from; [|done]. by apply parseredirs_ok; [etrans|..].
Qed.
End parser.

(** ** NUL termination *)

(** The words of a command, in the order of nulterminate. *)
Fixpoint words_of (c : cmd) : list (ptr * ptr) :=
  match c with
  | EXEC argv => argv
  | REDIR c' file efile _ _ => words_of c' ++ [(file, efile)]
  | PIPE l r | LIST l r => words_of l ++ words_of r
  | BACK c' => words_of c'
  end.

Definition text (a : ptr * ptr) : list Z := take (length a.1 - length a.2) a.1.

Lemma words_of_ok line c : cmd_ok line c -> Forall (fun a => word_at line a.1 a.2) (words_of c).
Proof.
  induction c as [argv|c IH f e m fd|l IHl r IHr|l IHl r IHr|c IH]; cbn; try done; intros H.
  - apply Forall_app. destruct H as [H1 H2]. split; [by apply IH|by apply Forall_singleton].
  - apply Forall_app. naive_solver.
  - apply Forall_app. naive_solver.
Qed.

Lemma nulterminate_words line buf c :
  nulterminate line buf c = foldl (fun buf a => terminate line buf a.2) buf (words_of c).
Proof.
  revert buf. induction c as [argv|c IH f e m fd|l IHl r IHr|l IHl r IHr|c IH]; intros buf; cbn; try done.
  - by rewrite foldl_app, IH.
  - by rewrite foldl_app, IHl, IHr.
  - by rewrite foldl_app, IHl, IHr.
Qed.

Section nul.
Variable line : list Z.
#[local] Abbreviation put := (foldl (fun buf a => terminate line buf a.2)).

Lemma length_put buf (ws : list (ptr * ptr)) : length (put buf ws) = length buf.
Proof.
  revert buf. induction ws as [|a ws IH]; intros buf; cbn; [done|]. rewrite IH. apply length_insert.
Qed.

Lemma put_lookup_ne buf ws i :
  Forall (fun a : ptr * ptr => (length line - length a.2)%nat <> i) ws -> put buf ws !! i = buf !! i.
Proof.
  revert buf. induction ws as [|a ws IH]; intros buf H; cbn; [done|]. inversion H; subst.
  rewrite IH by done. by apply list_lookup_insert_ne.
Qed.

Lemma put_lookup buf ws i :
  Exists (fun a : ptr * ptr => (length line - length a.2)%nat = i) ws -> (i < length buf)%nat ->
  put buf ws !! i = Some 0.
Proof.
  revert buf. induction ws as [|a ws IH]; intros buf H Hi; cbn; [by inversion H|].
  destruct (decide (Exists (fun a : ptr * ptr => (length line - length a.2)%nat = i) ws)) as [Hx|Hx].
  { apply IH; [done|]. unfold terminate. by rewrite length_insert. }
  inversion H; subst; [|done]. rewrite put_lookup_ne.
  - unfold terminate. by apply list_lookup_insert_eq.
  - by apply not_Exists_Forall in Hx; [|apply _].
Qed.

Lemma until_nul_prefix (w l : list Z) :
  Forall (fun c => c <> 0) w -> (forall i, (i < length w)%nat -> l !! i = w !! i) -> l !! length w = Some 0 ->
  until_nul l = w.
Proof.
  intros Hw. revert l. induction Hw as [|c w Hc Hw IH]; intros l Hi H0.
  - destruct l as [|b l]; cbn in *; [done|]. by injection H0 as ->.
  - pose proof (Hi 0%nat ltac:(cbn; lia)) as H1. destruct l as [|b l]; [done|]. injection H1 as ->. cbn.
    rewrite (proj2 (Z.eqb_neq c 0)) by done. f_equal. apply IH; [|done].
    intros i Hl. apply (Hi (S i)). cbn. lia.
Qed.

(** A word of the line is still there when other words have been terminated. *)
Lemma string_at_word ws q eq :
  Forall (fun c => c <> 0) line -> Forall (fun a => word_at line a.1 a.2) ws -> (q, eq) ∈ ws ->
  string_at line (put (line ++ [0]) ws) q = text (q, eq).
Proof.
  intros Hz Hws Hin. rewrite Forall_forall in Hws.
  pose proof (Hws _ Hin) as ([pre Hpre] & w & Eq & Hne & Hw & Hd). cbn [fst snd] in *. subst q.
  assert (text (w ++ eq, eq) = w) as ->.
  { unfold text. cbn [fst snd]. rewrite length_app, Nat.add_sub. apply take_app_length. }
  assert (length line = length pre + length w + length eq)%nat as Hlen by (rewrite Hpre, !length_app; lia).
  unfold string_at. rewrite length_app, Hlen.
  replace (length pre + length w + length eq - (length w + length eq))%nat with (length pre) by lia.
  apply until_nul_prefix.
  - rewrite Hpre, !Forall_app in Hz. apply Hz.
  - intros i Hi. rewrite lookup_drop, put_lookup_ne.
    + rewrite lookup_app_l, Hpre, lookup_app_r by lia. rewrite lookup_app_l by lia. f_equal; lia.
    + apply Forall_forall. intros [q2 eq2] H2 E. cbn [snd] in E.
      pose proof (Hws _ H2) as ([pre2 Hp2] & w2 & Eq2 & _ & _ & Hd2). cbn [fst snd] in *. subst q2.
      destruct (lookup_lt_is_Some_2 w i Hi) as [c Hc].
      assert (line !! (length pre + i)%nat = Some c) as Hl.
      { rewrite Hpre, lookup_app_r by lia. rewrite lookup_app_l by lia. rewrite <- Hc. f_equal. lia. }
      assert (length line = length pre2 + length w2 + length eq2)%nat as Hlen2 by (rewrite Hp2, !length_app; lia).
      rewrite Hp2, app_assoc, lookup_app_r in Hl by (rewrite length_app; lia).
      rewrite length_app in Hl. replace (length pre + i - (length pre2 + length w2))%nat with 0%nat in Hl by lia.
      destruct eq2 as [|c' eq2]; [done|]. injection Hl as ->.
      rewrite Forall_lookup in Hw. by apply (Hw i c Hc), (Hd2 c eq2).
  - rewrite lookup_drop. apply put_lookup.
    + apply Exists_exists. exists (w ++ eq, eq). split; [done|]. cbn. lia.
    + rewrite length_app. cbn. lia.
Qed.
End nul.

(** The parser of the shell ends on every line, with a command or a message; in
    the buffer that nulterminate leaves, every argument and every file name of the
    command is the word that stands in the line between its two pointers: no NUL
    stored for one word falls into another. *)
Theorem parsecmd_strings line :
  Forall (fun c => c <> 0) line ->
  match parsecmd line line with
  | Ret (c, buf) _ =>
      Forall (fun a => word_at line a.1 a.2 /\ string_at line buf a.1 = text a) (words_of c)
  | Panic _ _ => True
  | _ => False
  end.
Proof.
  intros Hz.
  assert (wpp (parsecmd line) (fun r _ => cmd_ok line r.1 /\ r.2 = nulterminate line (line ++ [0]) r.1) line) as H.
  { unfold parsecmd. apply wpp_bind. eapply wpp_mono; [apply (proj1 (parse_ok line _)); [done|lia]|].
    intros c s [_ Hc]. apply wpp_bind, wpp_peek. intros b s1 -> _ _. apply wpp_bind. unfold wpp at 1, get.
    destruct (bool_decide _); [by apply wpp_ret|apply wpp_panic]. }
  unfold wpp in H. destruct (parsecmd line line) as [[c buf] s|? ?|?|?|?]; try done. cbn in H. destruct H as [Hc ->].
  pose proof (words_of_ok _ _ Hc) as Hw. rewrite nulterminate_words. apply Forall_forall. intros [q eq] Hin.
  split; [rewrite Forall_forall in Hw; by apply (Hw (q, eq))|by apply string_at_word].
Qed.

Lemma parsecmd_strings_witness :
  match parsecmd (str "cat<in|(a b;c>>out)&") (str "cat<in|(a b;c>>out)&") with
  | Ret (c, buf) _ => (fun a => string_at (str "cat<in|(a b;c>>out)&") buf a.1) <$> words_of c =
      [str "cat"; str "in"; str "a"; str "b"; str "c"; str "out"]
  | _ => False
  end.
Proof.
  assert (Forall (fun c => c <> 0) (str "cat<in|(a b;c>>out)&")) as H by (apply (bool_decide_unpack _); by vm_compute).
  pose proof (parsecmd_strings _ H) as Hp.
  destruct (parsecmd _ _) as [[c buf] s|? ?|?|?|?] eqn:E in Hp |- *; vm_compute in E; try discriminate.
  injection E as <- <- <-. by vm_compute.
Defined.
