(* ===== verification/ShRoundtrip.v ===== *)
(** * The parser of the shell inverts printing

    [toks] prints a command as a sequence of tokens, with parentheses where the
    grammar needs them; [parse_roundtrip] states that parsecmd reads the printed line
    as a command with the same structure and the same words. *)

From Stdlib Require Import ZArith Lia.
From stdpp Require Import base list sets strings.
From S2P Require Import Prelude KString User Ulib Sh ShProofs.
Import Sh.

(** ** Tokens and commands *)

Inductive tok := Word (w : list Z) | Sym (c : Z) | Append.

Definition show_tok (t : tok) : list Z :=
  match t with Word w => w | Sym c => [c] | Append => [62; 62] end.
Definition kind (t : tok) : Z := match t with Word _ => 97 | Sym c => c | Append => 43 end.

(** A space after every token. *)
Definition print (ts : list tok) : list Z := ts ≫= (fun t => show_tok t ++ [32]).

Definition word_ok (w : list Z) : Prop := w <> [] /\ Forall (fun c => ~ delim c) w.
Definition tok_ok (t : tok) : Prop :=
  match t with Word w => word_ok w | Sym c => c ∈ symbols | Append => True end.

Inductive rkind := RIn | ROut | RApp.
Definition rtok (k : rkind) : tok := match k with RIn => Sym 60 | ROut => Sym 62 | RApp => Append end.
Definition rmode (k : rkind) : Z :=
  match k with
  | RIn => O_RDONLY
  | ROut => Z.lor (Z.lor O_WRONLY O_CREATE) O_TRUNC
  | RApp => Z.lor O_WRONLY O_CREATE
  end.
Definition rfd (k : rkind) : Z := match k with RIn => 0 | _ => 1 end.

Inductive tree :=
| TExec (ws : list (list Z))
| TRedir (t : tree) (k : rkind) (f : list Z)
| TPipe (l r : tree)
| TList (l r : tree)
| TBack (t : tree).

(** The command [c] has the structure and the words of [t]. *)
Fixpoint denotes (c : cmd) (t : tree) : Prop :=
  match c, t with
  | EXEC argv, TExec ws => text <$> argv = ws
  | REDIR c' f e m fd, TRedir t' k w => denotes c' t' /\ text (f, e) = w /\ m = rmode k /\ fd = rfd k
  | PIPE l r, TPipe l' r' => denotes l l' /\ denotes r r'
  | LIST l r, TList l' r' => denotes l l' /\ denotes r r'
  | BACK c', TBack t' => denotes c' t'
  | _, _ => False
  end.

Fixpoint tree_ok (t : tree) : Prop :=
  match t with
  | TExec ws => Forall word_ok ws /\ (length ws < MAXARGS)%nat
  | TRedir t' _ f => tree_ok t' /\ word_ok f
  | TPipe l r | TList l r => tree_ok l /\ tree_ok r
  | TBack t' => tree_ok t'
  end.

Definition paren (b : bool) (ts : list tok) : list tok :=
  if b then [Sym 40] ++ ts ++ [Sym 41] else ts.

(** The tokens of a command where the grammar wants a line (0), a pipeline with & (1),
    a pipeline (2) or a simple command (3). *)
Fixpoint toks (lvl : nat) (t : tree) : list tok :=
  match t with
  | TExec ws => Word <$> ws
  | TRedir t' k f => toks 3 t' ++ [rtok k; Word f]
  | TPipe l r => paren (2 <? lvl)%nat (toks 3 l ++ [Sym 124] ++ toks 2 r)
  | TBack t' => paren (1 <? lvl)%nat (toks 1 t' ++ [Sym 38])
  | TList l r => paren (0 <? lvl)%nat (toks 1 l ++ [Sym 59] ++ toks 0 r)
  end.

Definition redirs (rs : list (rkind * list Z)) : list tok := rs ≫= (fun r => [rtok r.1; Word r.2]).
Definition wrap (t : tree) (rs : list (rkind * list Z)) : tree := foldl (fun t r => TRedir t r.1 r.2) t rs.

(** ** The parser on printed tokens *)

Lemma delim_in c : delim c <-> c ∈ [32; 9; 13; 10; 11; 60; 124; 62; 38; 59; 40; 41].
Proof.
  unfold delim. change symbols with [60; 124; 62; 38; 59; 40; 41]. unfold whitespace. set_solver.
Qed.

Lemma symbols_ws c : c ∈ symbols -> c ∉ whitespace.
Proof. change symbols with [60; 124; 62; 38; 59; 40; 41]. unfold whitespace. rewrite !elem_of_cons, elem_of_nil. lia. Qed.

Lemma show_tok_head t : tok_ok t -> exists c l, show_tok t = c :: l /\ c ∉ whitespace.
Proof.
  destruct t as [w|c|]; cbn.
  - intros [Hne Hw]. destruct w as [|c w]; [done|]. inversion Hw as [|? ? Hc]; subst.
    exists c, w. split; [done|]. intros ?. apply Hc. by left.
  - intros Hc. exists c, []. split; [done|by apply symbols_ws].
  - intros _. exists 62, [62]. split; [done|]. by apply symbols_ws, (bool_decide_unpack _).
Qed.

Lemma skip_ws_here c l : c ∉ whitespace -> skip_ws (c :: l) = c :: l.
Proof. intros H. cbn [skip_ws]. by rewrite (proj2 (is_in_false c whitespace)). Qed.

Lemma print_cons t ts : print (t :: ts) = show_tok t ++ 32 :: print ts.
Proof. unfold print. cbn. by rewrite <- app_assoc. Qed.

Lemma skip_ws_print ts : Forall tok_ok ts -> skip_ws (print ts) = print ts.
Proof.
  destruct 1 as [|t ts Ht _]; [done|]. rewrite print_cons.
  destruct (show_tok_head t Ht) as (c & l & -> & Hc). by apply skip_ws_here.
Qed.

Lemma skip_ws_space ts : Forall tok_ok ts -> skip_ws (32 :: print ts) = print ts.
Proof. intros H. by apply skip_ws_print. Qed.

Lemma skip_word_app w s : Forall (fun c => ~ delim c) w -> skip_word (w ++ 32 :: s) = 32 :: s.
Proof.
  induction 1 as [|c w Hc _ IH]; [done|]. cbn [app skip_word].
  rewrite (proj2 (is_in_false c whitespace)), (proj2 (is_in_false c symbols)).
  - exact IH.
  - intros ?. apply Hc. by right.
  - intros ?. apply Hc. by left.
Qed.

Lemma token_print t ts : tok_ok t -> token (print (t :: ts)) = (kind t, 32 :: print ts).
Proof.
  intros Ht. rewrite print_cons. destruct t as [w|c|]; cbn [show_tok kind].
  - destruct Ht as [Hne Hw]. destruct w as [|c w]; [done|]. pose proof (Forall_inv Hw) as Hc. cbn beta in Hc.
    rewrite delim_in in Hc. cbn [app token]. rewrite (proj2 (is_in_false c _)).
    + destruct (Z.eqb_spec c 62) as [->|_]; [set_solver|]. f_equal. exact (skip_word_app (c :: w) _ Hw).
    + change (str "|();&<") with [124; 40; 41; 59; 38; 60]. set_solver.
  - cbn [tok_ok] in Ht. change symbols with [60; 124; 62; 38; 59; 40; 41] in Ht. cbn [app token].
    rewrite !elem_of_cons, elem_of_nil in Ht. by destruct Ht as [->|[->|[->|[->|[->|[->|[->|[]]]]]]]].
  - done.
Qed.

Lemma gettoken_print t ts : tok_ok t -> Forall tok_ok ts ->
  gettoken (print (t :: ts)) = Ret (kind t, print (t :: ts), 32 :: print ts) (print ts).
Proof.
  intros Ht Hts. unfold gettoken, get, modify, mbind, M_bind. rewrite skip_ws_print by by constructor.
  rewrite token_print by done. by rewrite skip_ws_space.
Qed.

Lemma text_print w ts : text (print (Word w :: ts), 32 :: print ts) = w.
Proof.
  unfold text. rewrite print_cons. cbn [fst snd show_tok]. rewrite length_app, Nat.add_sub. apply take_app_length.
Qed.

(** The first token is one of the symbols [l]. *)
Definition starts (l : list Z) (ts : list tok) : bool :=
  match ts with
  | Sym c :: _ => is_in c l
  | Append :: _ => is_in 62 l
  | _ => false
  end.

Lemma peek_print l ts : Forall tok_ok ts -> (forall c, c ∈ l -> c ∈ symbols) ->
  peek l (print ts) = Ret (starts l ts) (print ts).
Proof.
  intros Hts Hl. unfold peek, modify, get, mbind, M_bind. rewrite skip_ws_print by done. unfold mret, M_ret. f_equal.
  destruct Hts as [|t ts Ht _]; [done|]. rewrite print_cons. destruct t as [w|c|]; cbn [show_tok starts]; try done.
  destruct Ht as [Hne Hw]. destruct w as [|c w]; [done|]. cbn. apply is_in_false. intros Hc%Hl.
  apply (Forall_inv Hw). by right.
Qed.

(** ** Redirections and arguments *)

Definition redir_ok (r : rkind * list Z) : Prop := word_ok r.2.

Lemma rtok_ok k : tok_ok (rtok k).
Proof. destruct k; cbn; try done; by apply (bool_decide_unpack _). Qed.

Lemma redirs_ok rs : Forall redir_ok rs -> Forall tok_ok (redirs rs).
Proof.
  induction 1 as [|r rs Hr _ IH]; cbn; [constructor|]. constructor; [apply rtok_ok|]. by constructor.
Qed.

Lemma denotes_redir c t k q e :
  denotes c t -> denotes (redir_of (kind (rtok k)) c q e) (TRedir t k (text (q, e))).
Proof. by destruct k. Qed.

Lemma redir_symbols c : c ∈ str "<>" -> c ∈ symbols.
Proof. change symbols with [60; 124; 62; 38; 59; 40; 41]. change (str "<>") with [60; 62]. set_solver. Qed.
Lemma end_symbols c : c ∈ str "|)&;" -> c ∈ symbols.
Proof. change symbols with [60; 124; 62; 38; 59; 40; 41]. change (str "|)&;") with [124; 41; 38; 59]. set_solver. Qed.
Lemma sym_symbols d c : c ∈ [d] -> d ∈ [124; 38; 59; 40; 41] -> c ∈ symbols.
Proof. change symbols with [60; 124; 62; 38; 59; 40; 41]. set_solver. Qed.

Lemma parseredirs_none n c ts :
  Forall tok_ok ts -> starts (str "<>") ts = false -> parseredirs n c (print ts) = Ret c (print ts).
Proof.
  intros Hts Hst. destruct n; cbn [parseredirs];
    rewrite (bind_run _ _ _ _ _ (peek_print (str "<>") ts Hts redir_symbols)), Hst; done.
Qed.

Lemma length_print ts : (length ts <= length (print ts))%nat.
Proof.
  induction ts as [|t ts IH]; [done|]. rewrite print_cons, length_app. cbn. lia.
Qed.

Lemma length_redirs rs : length (redirs rs) = (2 * length rs)%nat.
Proof.
  induction rs as [|r rs IH]; [done|]. change (redirs (r :: rs)) with ([rtok r.1; Word r.2] ++ redirs rs).
  rewrite length_app, IH. cbn [length]. lia.
Qed.

Lemma redirs_fuel rs rest : (length rs <= length (print (redirs rs ++ rest)))%nat.
Proof. etrans; [|apply length_print]. rewrite length_app, length_redirs. lia. Qed.

Lemma parseredirs_print n rs c t rest :
  denotes c t -> Forall redir_ok rs -> Forall tok_ok rest -> starts (str "<>") rest = false ->
  (length rs <= n)%nat ->
  exists c', parseredirs n c (print (redirs rs ++ rest)) = Ret c' (print rest) /\ denotes c' (wrap t rs).
Proof.
  intros Hc Hrs Hrest Hst. revert n c t Hc. induction Hrs as [|[k f] rs Hr Hrs IH]; intros n c t Hc Hn.
  - exists c. split; [|done]. by apply parseredirs_none.
  - destruct n as [|n]; cbn in Hn; [lia|].
    assert (Forall tok_ok (redirs rs ++ rest)) as H2 by (apply Forall_app; split; [by apply redirs_ok|done]).
    assert (Forall tok_ok (Word f :: redirs rs ++ rest)) as H1 by by constructor.
    change (redirs ((k, f) :: rs) ++ rest) with (rtok k :: Word f :: redirs rs ++ rest).
    destruct (IH n _ _ (denotes_redir c t k (print (Word f :: redirs rs ++ rest)) (32 :: print (redirs rs ++ rest)) Hc))
      as (c' & E & Hd); [lia|].
    rewrite text_print in Hd. exists c'. split; [|exact Hd]. cbn [parseredirs].
    rewrite (bind_run _ _ _ _ _ (peek_print (str "<>") (rtok k :: _) ltac:(by constructor; [apply rtok_ok|]) redir_symbols)).
    assert (starts (str "<>") (rtok k :: Word f :: redirs rs ++ rest) = true) as -> by by destruct k.
    rewrite (bind_run _ _ _ _ _ (gettoken_print (rtok k) _ (rtok_ok k) H1)).
    rewrite (bind_run _ _ _ _ _ (gettoken_print (Word f) _ Hr H2)). cbn [kind fst snd]. exact E.
Qed.

(** What may follow a simple command. *)
Definition follows (l : list Z) (rest : list tok) : Prop := rest = [] \/ starts l rest = true.

Lemma parseargs_end n argc ret rest :
  Forall tok_ok rest -> follows (str "|)&;") rest -> parseargs n argc ret (print rest) = Ret ret (print rest).
Proof.
  intros Hr Hf.
  destruct n; cbn [parseargs]; rewrite (bind_run _ _ _ _ _ (peek_print (str "|)&;") rest Hr end_symbols));
    (destruct Hf as [-> | ->]; [|done]); done.
Qed.

Lemma follows_redirs rest : follows (str "|)&;") rest -> starts (str "<>") rest = false.
Proof.
  intros [->|H]; [done|]. destruct rest as [|[w|c|] rest]; try done. cbn in *. apply is_in_spec in H.
  apply is_in_false. revert H. change (str "|)&;") with [124; 41; 38; 59]. change (str "<>") with [60; 62].
  rewrite !elem_of_cons, !elem_of_nil. lia.
Qed.

Lemma words_ok ws : Forall word_ok ws -> Forall tok_ok (Word <$> ws).
Proof. induction 1; cbn; by constructor. Qed.

Lemma parseargs_print n ws rs argv rest :
  Forall word_ok ws -> ws <> [] -> Forall redir_ok rs -> Forall tok_ok rest -> follows (str "|)&;") rest ->
  (length argv + length ws < MAXARGS)%nat -> (length ws <= n)%nat ->
  exists c', parseargs n (length argv) (EXEC argv) (print ((Word <$> ws) ++ redirs rs ++ rest)) = Ret c' (print rest) /\
    denotes c' (wrap (TExec ((text <$> argv) ++ ws)) rs).
Proof.
  intros Hws Hne Hrs Hrest Hf. revert n argv Hne. induction Hws as [|w ws Hw Hws IH]; intros n argv Hne Hlen Hn; [done|].
  destruct n as [|n]; cbn in Hn, Hlen; [lia|].
  set (ts := (Word <$> ws) ++ redirs rs ++ rest).
  assert (Forall tok_ok ts) as Hts.
  { unfold ts. rewrite !Forall_app. split_and!; [by apply words_ok|by apply redirs_ok|done]. }
  change ((Word <$> (w :: ws)) ++ redirs rs ++ rest) with (Word w :: ts). cbn [parseargs].
  rewrite (bind_run _ _ _ _ _ (peek_print (str "|)&;") (Word w :: ts) ltac:(by constructor) end_symbols)). cbn [starts].
  rewrite (bind_run _ _ _ _ _ (gettoken_print (Word w) ts Hw Hts)). cbn [kind add_arg].
  set (argv' := argv ++ [(print (Word w :: ts), 32 :: print ts)]).
  assert (text <$> argv' = (text <$> argv) ++ [w]) as Ea by (unfold argv'; rewrite fmap_app; f_equal; cbn [fmap list_fmap]; by rewrite text_print).
  assert (length argv' = S (length argv)) as El by (unfold argv'; rewrite length_app; cbn; lia).
  change (97 =? 0) with false. change (negb (97 =? 97)) with false. cbn iota.
  rewrite (proj2 (Nat.leb_gt MAXARGS (S (length argv)))) by lia.
  rewrite (bind_run (gets length) _ _ (length (print ts)) (print ts) eq_refl).
  destruct ws as [|w2 ws].
  - destruct (parseredirs_print (length (print ts)) rs (EXEC argv') (TExec ((text <$> argv) ++ [w])) rest)
      as (c' & E & Hd); [done|done|done|by apply follows_redirs|apply redirs_fuel|].
    exists c'. rewrite (bind_run _ _ _ _ _ E). split; [|done]. by apply parseargs_end.
  - rewrite (bind_run _ _ _ _ _ (parseredirs_none (length (print ts)) (EXEC argv') ts Hts eq_refl)).
    rewrite <- El. destruct (IH n argv') as (c'' & E2 & Hd2); [done|cbn in *; lia|cbn in *; lia|].
    exists c''. split; [exact E2|]. by rewrite Ea, <- app_assoc in Hd2.
Qed.

(** ** Commands *)

Lemma print_app a b : print (a ++ b) = print a ++ print b.
Proof. apply bind_app. Qed.

Lemma length_print_cons t ts : (length (print (t :: ts)) > length (print ts))%nat.
Proof. rewrite print_cons, length_app. cbn. lia. Qed.

Lemma sym_ok c : c ∈ [60; 124; 62; 38; 59; 40; 41] -> tok_ok (Sym c).
Proof. done. Qed.

Ltac symbol := apply sym_ok; set_solver.

Lemma toks_ok lvl t : tree_ok t -> Forall tok_ok (toks lvl t).
Proof.
  assert (forall b ts, Forall tok_ok ts -> Forall tok_ok (paren b ts)) as Hp.
  { intros [] ts H; [|done]. unfold paren. rewrite !Forall_app, !Forall_singleton. split_and!; [symbol|done|symbol]. }
  revert lvl. induction t as [ws|t IH k f|l IHl r IHr|l IHl r IHr|t IH]; intros lvl; cbn [tree_ok toks].
  - intros [H _]. by apply words_ok.
  - intros [H Hf]. apply Forall_app. split; [by apply IH|]. repeat constructor; [apply rtok_ok|apply Hf..].
  - intros [H1 H2]. apply Hp. rewrite !Forall_app, !Forall_singleton. split_and!; [by apply IHl|symbol|by apply IHr].
  - intros [H1 H2]. apply Hp. rewrite !Forall_app, !Forall_singleton. split_and!; [by apply IHl|symbol|by apply IHr].
  - intros H. apply Hp. rewrite !Forall_app, !Forall_singleton. split; [by apply IH|symbol].
Qed.

(** [m] reads [ts] before [rest] as the command [t]. *)
Definition reads (m : M ptr cmd) (ts rest : list tok) (t : tree) : Prop :=
  exists c, m (print (ts ++ rest)) = Ret c (print rest) /\ denotes c t.

Definition P3 (t : tree) : Prop := forall rest f, Forall tok_ok rest -> follows (str "|)&;") rest ->
  (4 * length (print (toks 3 t ++ rest)) + 2 <= f)%nat -> reads (parseexec f) (toks 3 t) rest t.
Definition P2 (t : tree) : Prop := forall rest f, Forall tok_ok rest -> follows (str ")&;") rest ->
  (4 * length (print (toks 2 t ++ rest)) + 3 <= f)%nat -> reads (parsepipe f) (toks 2 t) rest t.
Definition backs (k : nat) (t : tree) : tree := Nat.iter k TBack t.
Definition P1 (t : tree) : Prop := forall k rest f, Forall tok_ok rest -> follows (str ");") rest ->
  (4 * length (print (toks 1 t ++ replicate k (Sym 38) ++ rest)) + 3 <= f)%nat ->
  reads (c ← parsepipe f; n ← gets length; parsebacks n c) (toks 1 t ++ replicate k (Sym 38)) rest (backs k t).
Definition P0 (t : tree) : Prop := forall rest f, Forall tok_ok rest -> follows (str ")") rest ->
  (4 * length (print (toks 0 t ++ rest)) + 4 <= f)%nat -> reads (parseline f) (toks 0 t) rest t.

Lemma follows_mono l l' rest : follows l rest -> (forall c, c ∈ l -> c ∈ l') -> 62 ∉ l -> follows l' rest.
Proof.
  intros [->|H] Hl H62; [by left|right]. destruct rest as [|[w|c|] rest]; try done; cbn in *.
  - apply is_in_spec. apply is_in_spec in H. auto.
  - by apply is_in_spec in H.
Qed.

Lemma follows_not l l' rest : follows l rest -> (forall c, c ∈ l -> c ∉ l') -> starts l' rest = false.
Proof.
  intros [->|H] Hl; [done|]. destruct rest as [|[w|c|] rest]; try done; cbn in *;
    apply is_in_false, Hl; by apply is_in_spec in H.
Qed.

Ltac charset :=
  change (str "|)&;") with [124; 41; 38; 59] in *; change (str ")&;") with [41; 38; 59] in *;
  change (str ");") with [41; 59] in *; change (str ")") with [41] in *; change (str "(") with [40] in *;
  change (str "&") with [38] in *; change (str ";") with [59] in *; change (str "|") with [124] in *;
  change symbols with [60; 124; 62; 38; 59; 40; 41] in *;
  rewrite ?elem_of_cons, ?elem_of_nil in *; lia.

(** A pipeline of one command. *)
Lemma P2_of_P3 t : toks 2 t = toks 3 t -> tree_ok t -> P3 t -> P2 t.
Proof.
  intros E Ht H3 rest f Hr Hf Hl. rewrite E in *. destruct f as [|f]; [lia|].
  destruct (H3 rest f) as (c & Ec & Hd); [done|eapply follows_mono; [done|intros; charset|charset]|lia|].
  exists c. split; [|done]. cbn [parsepipe]. rewrite (bind_run _ _ _ _ _ Ec).
  rewrite (bind_run _ _ _ _ _ (peek_print (str "|") rest Hr ltac:(intros; charset))).
  by rewrite (follows_not (str ")&;")) by (done || intros; charset).
Qed.

Lemma parsebacks_print n k c t rest :
  denotes c t -> Forall tok_ok rest -> follows (str ");") rest -> (k <= n)%nat ->
  exists c', parsebacks n c (print (replicate k (Sym 38) ++ rest)) = Ret c' (print rest) /\ denotes c' (backs k t).
Proof.
  intros Hc Hr Hf. revert n c t Hc. induction k as [|k IH]; intros n c t Hc Hn.
  - exists c. split; [|done]. cbn [replicate app].
    destruct n; cbn [parsebacks]; rewrite (bind_run _ _ _ _ _ (peek_print (str "&") rest Hr ltac:(intros; charset)));
      by rewrite (follows_not (str ");")) by (done || intros; charset).
  - destruct n as [|n]; [lia|]. cbn [replicate app parsebacks].
    assert (Forall tok_ok (replicate k (Sym 38) ++ rest)) as H2.
    { apply Forall_app. split; [|done]. apply Forall_replicate. symbol. }
    rewrite (bind_run _ _ _ _ _ (peek_print (str "&") (Sym 38 :: _) ltac:(constructor; [symbol|done]) ltac:(intros; charset))).
    change (starts _ _) with true. cbn iota.
    rewrite (bind_run _ _ _ _ _ (gettoken_print (Sym 38) _ ltac:(symbol) H2)).
    destruct (IH n (BACK c) (TBack t)) as (c' & E & Hd); [done|lia|].
    exists c'. split; [exact E|]. unfold backs in *. by rewrite Nat.iter_succ_r.
Qed.

Lemma P1_of_P2 t : toks 1 t = toks 2 t -> tree_ok t -> P2 t -> P1 t.
Proof.
  intros E Ht H2 k rest f Hr Hf Hl. rewrite E in *.
  assert (Forall tok_ok (replicate k (Sym 38) ++ rest)) as Hk.
  { apply Forall_app. split; [|done]. apply Forall_replicate. symbol. }
  destruct (H2 (replicate k (Sym 38) ++ rest) f) as (c & Ec & Hd); [done| |done|].
  { destruct k as [|k]; cbn [replicate app]; [eapply follows_mono; [done|intros; charset|charset]|by right]. }
  destruct (parsebacks_print (length (print (replicate k (Sym 38) ++ rest))) k c t rest) as (c' & Eb & Hb); try done.
  { etrans; [|apply length_print]. rewrite length_app, length_replicate. lia. }
  exists c'. split; [|done]. rewrite <- app_assoc. rewrite (bind_run _ _ _ _ _ Ec). exact Eb.
Qed.

(** The line of [t], when no list follows. *)
Lemma P0_of_P1 t : toks 0 t = toks 1 t -> tree_ok t -> P1 t -> P0 t.
Proof.
  intros E Ht H1 rest f Hr Hf Hl. rewrite E in *. destruct f as [|f]; [lia|].
  destruct (H1 0%nat rest f) as (c & Ec & Hd); [done|eapply follows_mono; [done|intros; charset|charset]|cbn; lia|].
  cbn [replicate] in Ec. rewrite app_nil_r in Ec.
  exists c. split; [|done]. cbn [parseline].
  assert (forall B (g : cmd -> M ptr B), (parsepipe f ≫= (fun c => gets length ≫= (fun n => parsebacks n c ≫= g)))
    (print (toks 1 t ++ rest)) = g c (print rest)) as ->.
  { intros B g. revert Ec. unfold mbind, M_bind. destruct (parsepipe f _); try done. cbn. intros ->. done. }
  rewrite (bind_run _ _ _ _ _ (peek_print (str ";") rest Hr ltac:(intros; charset))).
  by rewrite (follows_not (str ")")) by (done || intros; charset).
Qed.

(** A block with its redirections. *)
Lemma P3_block b rs :
  toks 3 b = paren true (toks 0 b) -> tree_ok b -> Forall redir_ok rs ->
  toks 3 (wrap b rs) = toks 3 b ++ redirs rs -> P0 b -> P3 (wrap b rs).
Proof.
  intros Eb Hb Hrs Ew H0 rest f Hr Hf Hl. unfold reads. rewrite Ew, Eb in *. unfold paren in *.
  assert (Forall tok_ok (redirs rs ++ rest)) as Hrr by (apply Forall_app; split; [by apply redirs_ok|done]).
  rewrite <- !app_assoc in *. cbn [app] in *.
  assert (Forall tok_ok (Sym 41 :: redirs rs ++ rest)) as H41 by (constructor; [symbol|done]).
  assert (Forall tok_ok (toks 0 b ++ Sym 41 :: redirs rs ++ rest)) as Hin
    by (apply Forall_app; split; [by apply toks_ok|done]).
  pose proof (length_print_cons (Sym 40) (toks 0 b ++ Sym 41 :: redirs rs ++ rest)) as Hl2.
  destruct f as [|[|f]]; [lia|lia|].
  destruct (H0 (Sym 41 :: redirs rs ++ rest) f) as (c & Ec & Hd); [done|by right|lia|].
  destruct (parseredirs_print (length (print (redirs rs ++ rest))) rs c b rest) as (c' & Er & Hd');
    [done|done|done|by apply follows_redirs|apply redirs_fuel|].
  exists c'. split; [|done]. cbn [parseexec].
  rewrite (bind_run _ _ _ _ _ (peek_print (str "(") (Sym 40 :: _) ltac:(constructor; [symbol|done]) ltac:(intros; charset))).
  change (starts _ (Sym 40 :: _)) with true. cbn [parseblock].
  rewrite (bind_run _ _ _ _ _ (peek_print (str "(") (Sym 40 :: _) ltac:(constructor; [symbol|done]) ltac:(intros; charset))).
  change (starts _ (Sym 40 :: _)) with true. cbn [negb].
  rewrite (bind_run _ _ _ _ _ (gettoken_print (Sym 40) _ ltac:(symbol) Hin)), (bind_run _ _ _ _ _ Ec).
  rewrite (bind_run _ _ _ _ _ (peek_print (str ")") (Sym 41 :: _) H41 ltac:(intros; charset))).
  change (starts _ (Sym 41 :: _)) with true. cbn [negb].
  rewrite (bind_run _ _ _ _ _ (gettoken_print (Sym 41) _ ltac:(symbol) Hrr)). exact Er.
Qed.

(** A simple command with its redirections. *)
Lemma P3_exec ws rs :
  tree_ok (TExec ws) -> Forall redir_ok rs ->
  toks 3 (wrap (TExec ws) rs) = toks 3 (TExec ws) ++ redirs rs -> P3 (wrap (TExec ws) rs).
Proof.
  intros [Hws Hlen] Hrs Ew rest f Hr Hf Hl. unfold reads. rewrite Ew in *. cbn [toks] in *. rewrite <- app_assoc in *.
  set (ts := (Word <$> ws) ++ redirs rs ++ rest) in *.
  assert (Forall tok_ok ts) as Hts.
  { unfold ts. rewrite !Forall_app. split_and!; [by apply words_ok|by apply redirs_ok|done]. }
  destruct f as [|f]; [lia|]. cbn [parseexec].
  rewrite (bind_run _ _ _ _ _ (peek_print (str "(") ts Hts ltac:(intros; charset))).
  assert (starts (str "(") ts = false) as ->.
  { unfold ts. destruct ws; [|done]. destruct rs as [|[[] ?] ?]; try done.
    eapply follows_not; [exact Hf|intros; charset]. }
  rewrite (bind_run (gets length) _ _ (length (print ts)) (print ts) eq_refl).
  destruct ws as [|w ws].
  - destruct (parseredirs_print (length (print ts)) rs (EXEC []) (TExec []) rest) as (c & Ec & Hd);
      [done|done|done|by apply follows_redirs|apply redirs_fuel|].
    exists c. split; [|done]. rewrite (bind_run _ _ _ _ _ Ec).
    rewrite (bind_run (gets length) _ _ (length (print rest)) (print rest) eq_refl). by apply parseargs_end.
  - rewrite (bind_run _ _ _ _ _ (parseredirs_none (length (print ts)) (EXEC []) ts Hts eq_refl)).
    rewrite (bind_run (gets length) _ _ (length (print ts)) (print ts) eq_refl).
    apply (parseargs_print (length (print ts)) (w :: ws) rs [] rest); try done.
    etrans; [|apply length_print]. unfold ts. rewrite length_app, length_fmap. lia.
Qed.

(** *** Trees and their redirections *)

Fixpoint size (t : tree) : nat :=
  match t with
  | TExec _ => 1
  | TRedir t' _ _ | TBack t' => S (size t')
  | TPipe l r | TList l r => S (size l + size r)
  end.

Definition plain (t : tree) : Prop := match t with TRedir _ _ _ => False | _ => True end.

Lemma wrap_snoc b rs r : wrap b (rs ++ [r]) = TRedir (wrap b rs) r.1 r.2.
Proof. unfold wrap. by rewrite foldl_app. Qed.

Lemma unwrap t : tree_ok t -> exists b rs, t = wrap b rs /\ plain b /\ tree_ok b /\ Forall redir_ok rs /\
  (rs = [] \/ size b < size t)%nat /\ toks 3 t = toks 3 b ++ redirs rs.
Proof.
  induction t as [ws|t IH k f| | |]; intros Ht.
  2: { destruct Ht as [Ht Hf]. destruct (IH Ht) as (b & rs & -> & Hp & Hb & Hrs & Hs & Ew).
       exists b, (rs ++ [(k, f)]). rewrite wrap_snoc. split_and!; try done.
       - apply Forall_app. split; [done|by apply Forall_singleton].
       - right. cbn [size]. destruct Hs as [->|Hs]; cbn; lia.
       - cbn [toks]. rewrite Ew. unfold redirs. by rewrite bind_app, app_assoc. }
  all: eexists _, []; cbn [redirs mbind list_bind]; rewrite app_nil_r;
    split_and!; [reflexivity|done|done|constructor|by left|done].
Qed.

(** ** The round trip *)

(** A pipe, from its parts. *)
Lemma P2_pipe l r : tree_ok l -> tree_ok r -> P3 l -> P2 r -> P2 (TPipe l r).
Proof.
  intros Hl Hr Pl Pr rest f Hrest Hf Hlen. cbn [toks paren Nat.ltb Nat.leb] in *. unfold reads.
  rewrite <- !app_assoc in *. cbn [app] in *.
  assert (Forall tok_ok (toks 2 r ++ rest)) as H1 by (apply Forall_app; split; [by apply toks_ok|done]).
  pose proof (length_print_cons (Sym 124) (toks 2 r ++ rest)) as L1. rewrite print_app, length_app in Hlen.
  destruct f as [|f]; [lia|].
  destruct (Pl (Sym 124 :: toks 2 r ++ rest) f) as (c & Ec & Hc); [constructor; [symbol|done]|by right| |].
  { rewrite print_app, length_app. lia. }
  destruct (Pr rest f) as (c' & Er & Hc'); [done|done|lia|].
  exists (PIPE c c'). split; [|done]. cbn [parsepipe]. rewrite (bind_run _ _ _ _ _ Ec).
  rewrite (bind_run _ _ _ _ _ (peek_print (str "|") (Sym 124 :: _) ltac:(constructor; [symbol|done]) ltac:(intros; charset))).
  change (starts _ _) with true. cbn iota.
  rewrite (bind_run _ _ _ _ _ (gettoken_print (Sym 124) _ ltac:(symbol) H1)). by rewrite (bind_run _ _ _ _ _ Er).
Qed.

Lemma P1_back t : P1 t -> P1 (TBack t).
Proof.
  intros H k rest f Hr Hf Hl. cbn [toks paren Nat.ltb Nat.leb] in *. rewrite <- !app_assoc in *.
  destruct (H (S k) rest f Hr Hf) as (c & Ec & Hd); [exact Hl|]. exists c.
  rewrite <- app_assoc in Ec |- *. split; [by rewrite <- app_assoc|]. unfold backs in *. by rewrite Nat.iter_succ_r in Hd.
Qed.

Lemma P0_list l r : tree_ok l -> tree_ok r -> P1 l -> P0 r -> P0 (TList l r).
Proof.
  intros Hl Hr Pl Pr rest f Hrest Hf Hlen. cbn [toks paren Nat.ltb Nat.leb] in *. unfold reads.
  rewrite <- !app_assoc in *. cbn [app] in *.
  assert (Forall tok_ok (toks 0 r ++ rest)) as H1 by (apply Forall_app; split; [by apply toks_ok|done]).
  pose proof (length_print_cons (Sym 59) (toks 0 r ++ rest)) as L1. rewrite print_app, length_app in Hlen.
  destruct f as [|f]; [lia|].
  destruct (Pl 0%nat (Sym 59 :: toks 0 r ++ rest) f) as (c & Ec & Hc); [constructor; [symbol|done]|by right| |].
  { cbn [replicate app]. rewrite print_app, length_app. lia. }
  destruct (Pr rest f) as (c' & Er & Hc'); [done|done|lia|].
  exists (LIST c c'). split; [|done]. cbn [parseline replicate] in *. rewrite app_nil_r in Ec.
  assert (forall B (g : cmd -> M ptr B), (parsepipe f ≫= (fun c => gets length ≫= (fun n => parsebacks n c ≫= g)))
    (print (toks 1 l ++ Sym 59 :: toks 0 r ++ rest)) = g c (print (Sym 59 :: toks 0 r ++ rest))) as ->.
  { intros B g. revert Ec. unfold mbind, M_bind. destruct (parsepipe f _); try done. cbn. intros ->. done. }
  rewrite (bind_run _ _ _ _ _ (peek_print (str ";") (Sym 59 :: _) ltac:(constructor; [symbol|done]) ltac:(intros; charset))).
  change (starts _ _) with true. cbn iota.
  rewrite (bind_run _ _ _ _ _ (gettoken_print (Sym 59) _ ltac:(symbol) H1)). by rewrite (bind_run _ _ _ _ _ Er).
Qed.

(** A compound command in parentheses. *)
Lemma P3_paren b : toks 3 b = paren true (toks 0 b) -> tree_ok b -> P0 b -> P3 b.
Proof. intros Eb Hb H0. apply (P3_block b []); try done. by rewrite app_nil_r. Qed.

Lemma parses_up t :
  tree_ok t -> toks 0 t = toks 3 t -> toks 1 t = toks 3 t -> toks 2 t = toks 3 t -> P3 t ->
  P0 t /\ P1 t /\ P2 t /\ P3 t.
Proof.
  intros Ht E0 E1 E2 H3.
  assert (P2 t) by (apply P2_of_P3; congruence || done).
  assert (P1 t) by (apply P1_of_P2; congruence || done).
  assert (P0 t) by (apply P0_of_P1; congruence || done). done.
Qed.

Lemma parses_tree n t : (size t <= n)%nat -> tree_ok t -> P0 t /\ P1 t /\ P2 t /\ P3 t.
Proof.
  revert t. induction n as [|n IH]; intros t Hn Ht; [by destruct t; cbn in Hn; lia|].
  destruct t as [ws|t k f|l r|l r|t].
  - apply parses_up; try done. apply (P3_exec ws []); try done. by rewrite app_nil_r.
  - apply parses_up; try done. destruct (unwrap _ Ht) as (b & rs & Et & Hp & Hb & Hrs & Hs & Ew).
    destruct Hs as [->|Hs]; [by cbn in Et; subst|]. destruct (IH b) as (B0 & _); [lia|done|]. rewrite Et in *.
    destruct b; [by apply P3_exec|done|by apply P3_block..].
  - destruct Ht as [Hl Hr]. cbn in Hn.
    destruct (IH l) as (_ & _ & _ & L3); [lia|done|]. destruct (IH r) as (_ & _ & R2 & _); [lia|done|].
    assert (P2 (TPipe l r)) as H2 by by apply P2_pipe. assert (P1 (TPipe l r)) as H1 by by apply P1_of_P2.
    assert (P0 (TPipe l r)) as H0 by by apply P0_of_P1. split_and!; try done. by apply P3_paren.
  - destruct Ht as [Hl Hr]. cbn in Hn.
    destruct (IH l) as (_ & L1 & _); [lia|done|]. destruct (IH r) as (R0 & _); [lia|done|].
    assert (P0 (TList l r)) as H0 by by apply P0_list. assert (P3 (TList l r)) as H3 by by apply P3_paren.
    assert (P2 (TList l r)) as H2 by by apply P2_of_P3. split_and!; try done. by apply P1_of_P2.
  - cbn in Hn, Ht. destruct (IH t) as (_ & T1 & _); [lia|done|].
    assert (P1 (TBack t)) as H1 by by apply P1_back. assert (P0 (TBack t)) as H0 by by apply P0_of_P1.
    assert (P3 (TBack t)) as H3 by by apply P3_paren. split_and!; try done. by apply P2_of_P3.
Qed.

(** C22: parsing inverts printing.  For every command whose words are neither empty
    nor contain white space or symbols and that has fewer than ten words per simple
    command, parsecmd accepts the printed line and returns a command of the same
    structure, pipelines, lists, background commands, blocks and redirections
    included, with the same words. *)
Theorem parse_roundtrip t :
  tree_ok t ->
  let line := print (toks 0 t) in
  exists c, parsecmd line line = Ret (c, nulterminate line (line ++ [0]) c) [] /\ denotes c t.
Proof.
  intros Ht line. destruct (parses_tree (size t) t) as (H0 & _); [done|done|].
  destruct (H0 [] (4 * length line + 4)%nat) as (c & Ec & Hd); [constructor|by left|by rewrite app_nil_r|].
  exists c. split; [|done]. unfold parsecmd. rewrite app_nil_r in Ec. by rewrite (bind_run _ _ _ _ _ Ec).
Qed.

Definition demo_tree : tree :=
  TList (TBack (TPipe (TRedir (TExec [str "cat"]) RIn (str "in")) (TExec [str "wc"; str "-l"])))
        (TRedir (TList (TExec [str "a"]) (TPipe (TBack (TExec [])) (TExec [str "b"]))) RApp (str "out")).

Lemma parse_roundtrip_witness :
  exists c, parsecmd (print (toks 0 demo_tree)) (print (toks 0 demo_tree)) =
      Ret (c, nulterminate (print (toks 0 demo_tree)) (print (toks 0 demo_tree) ++ [0]) c) [] /\
    denotes c demo_tree.
Proof.
  apply (parse_roundtrip demo_tree).
  assert (forall w, forallb (fun c => negb (is_in c whitespace || is_in c symbols)) w = true -> w <> [] -> word_ok w) as Hw.
  { intros w H Hne. split; [done|]. apply Forall_forall. intros c Hc Hd.
    rewrite forallb_forall in H. specialize (H c (proj1 (list_elem_of_In _ _) Hc)).
    apply negb_true_iff, orb_false_iff in H as [H1%is_in_false H2%is_in_false]. by destruct Hd. }
  cbn [demo_tree tree_ok length]. rewrite ?Forall_cons, ?Forall_nil. unfold MAXARGS.
  split_and!; try lia; try done; by apply Hw.
Defined.
