(* ===== verification/Grind.v ===== *)
(** * user/grind.c

    The random generator and the loop of random system calls.  [do_rand_correct]
    states that the generator computes the Park-Miller recurrence without leaving 31
    bits; [go_progress] that the loop makes a system call at least every 500 turns,
    so that it is bounded by the number of replies. *)

From Stdlib Require Import ZArith Lia.
From stdpp Require Import base list strings.
From S2P Require Import Prelude KString User Ulib Programs.

Module Grind.

(** ** Random numbers *)

(** The new value of *ctx, which is also the value of the function; long has 64 bits. *)
Definition do_rand (ctx : Z) : Z :=
  let x := ctx mod 2147483646 + 1 in
  let hi := x / 127773 in
  let lo := x mod 127773 in
  let x := 16807 * lo - 2836 * hi in
  let x := if x <? 0 then x + 2147483647 else x in
  x - 1.

(** ** Random system calls *)

Record gst := mk_gst {
  rand_next : Z;
  iters : Z;
  g_fd : Z;  (* fd *)
  g_buf : list Z;  (* the static buf[999] *)
}.

Definition O_CR : Z := Z.lor O_CREATE O_RDWR.

Definition close_open (path : list Z) : M ust unit :=
  fd ← call (Sopen path O_CR);
  call (Sclose fd);;
  mret tt.

Definition fail {A} (fd : Z) (msg : list Z) (status : Z) : M ust A := fprintf fd msg [];; uexit status.

(** fork(), with [child] in the child and a message if it fails. *)
Definition fork_do (fd : Z) (msg : list Z) (status : Z) (child : M ust unit) : M ust Z :=
  pid ← call Sfork;
  if pid =? 0 then child;; uexit 0
  else if pid <? 0 then fail fd msg status
  else mret pid.

Definition ends (r : reply) : Z * Z := (default 0 (out r !! 0%nat), default 0 (out r !! 1%nat)).

(** if(pipe(fds) < 0) ... *)
Definition pipe_or_fail (fd : Z) (msg : list Z) : M ust (Z * Z) :=
  r ← sys Spipe;
  if ret r <? 0 then fail fd msg 1 else mret (ends r).

(** what == 21 *)
Definition create_c : M ust unit :=
  call (Sunlink (str "c"));;
  fd1 ← call (Sopen (str "c") O_CR);
  if fd1 <? 0 then fail 1 (line "create c failed") 1 else
  w ← call (Swrite fd1 (str "x"));
  if negb (w =? 1) then fail 1 (line "write c failed") 1 else
  r ← sys (Sfstat fd1);
  if negb (ret r =? 0) then fail 1 (line "fstat failed") 1 else
  let st := out r in
  if negb (st_size st =? 1) then
    printf (line "fstat reports wrong size %d") [UInt (st_size st)];; uexit 1
  else if 200 <? st_ino st then
    printf (line "fstat reports crazy i-number %d") [UInt (st_ino st)];; uexit 1
  else
    call (Sclose fd1);;
    call (Sunlink (str "c"));;
    mret tt.

(** what == 22: echo hi | cat *)
Definition echo_child (aa bb : Z * Z) : M ust unit :=
  call (Sclose bb.1);; call (Sclose bb.2);; call (Sclose aa.1);;
  call (Sclose 1);;
  d ← call (Sdup aa.2);
  if negb (d =? 1) then fail 2 (line "dup failed") 1 else
  call (Sclose aa.2);;
  call (Sexec (str "grindir/../echo") [str "echo"; str "hi"]);;
  fail 2 (line "echo: not found") 2.

Definition cat_child (aa bb : Z * Z) : M ust unit :=
  call (Sclose aa.2);; call (Sclose bb.1);;
  call (Sclose 0);;
  d ← call (Sdup aa.1);
  if negb (d =? 0) then fail 2 (line "dup failed") 4 else
  call (Sclose aa.1);;
  call (Sclose 1);;
  d ← call (Sdup bb.2);
  if negb (d =? 1) then fail 2 (line "dup failed") 5 else
  call (Sclose bb.2);;
  call (Sexec (str "/cat") [str "cat"]);;
  fail 2 (line "cat: not found") 6.

(** The status that wait(&st) stores in st, [st0] before. *)
Definition wait_status (st0 : Z) : M ust Z :=
  r ← sys Swait;
  mret (default st0 (head (out r))).

(** [st0]: what is on the stack in st1 and st2. *)
Definition pipeline (st0 : Z * Z) : M ust unit :=
  aa ← pipe_or_fail 2 (line "pipe failed");
  bb ← pipe_or_fail 2 (line "pipe failed");
  fork_do 2 (line "fork failed") 3 (echo_child aa bb);;
  fork_do 2 (line "fork failed") 7 (cat_child aa bb);;
  call (Sclose aa.1);; call (Sclose aa.2);; call (Sclose bb.2);;
  b0 ← sys (Sread bb.1 1);
  b1 ← sys (Sread bb.1 1);
  call (Sclose bb.1);;
  st1 ← wait_status st0.1;
  st2 ← wait_status st0.2;
  let buf := until_nul [default 0 (head (out b0)); default 0 (head (out b1))] in
  if negb (st1 =? 0) || negb (st2 =? 0) || negb (strcmp buf (str "hi") =? 0) then
    printf (str "exec pipeline failed %d %d " ++ [34] ++ str "%s" ++ [34; newline])
      [UInt st1; UInt st2; UStr (Some buf)];;
    uexit 1
  else mret tt.

Definition unit_call (c : sysc) : M ust unit := call c;; mret tt.

(** The branches of go on [what], for the descriptor [fd] and the buffer [buf]: their new values. *)
Definition act (what fd break0 : Z) (buf : list Z) (st0 : Z * Z) : M ust (Z * list Z) :=
  let keep (m : M ust unit) : M ust (Z * list Z) := m;; mret (fd, buf) in
  let reopen path : M ust (Z * list Z) := call (Sclose fd);; fd ← call (Sopen path O_CR); mret (fd, buf) in
  if what =? 1 then keep (close_open (str "grindir/../a"))
  else if what =? 2 then keep (close_open (str "grindir/../grindir/../b"))
  else if what =? 3 then keep (unit_call (Sunlink (str "grindir/../a")))
  else if what =? 4 then keep (
    r ← call (Schdir (str "grindir"));
    if negb (r =? 0) then fail 1 (line "chdir grindir failed") 1 else
    call (Sunlink (str "../b"));; unit_call (Schdir (str "/")))
  else if what =? 5 then reopen (str "/grindir/../a")
  else if what =? 6 then reopen (str "/./grindir/./../b")
  else if what =? 7 then keep (unit_call (Swrite fd buf))
  else if what =? 8 then (r ← sys (Sread fd 999); mret (fd, out r ++ drop (length (out r)) buf))
  else if what =? 9 then keep (
    call (Smkdir (str "grindir/../a"));; close_open (str "a/../a/./a");; unit_call (Sunlink (str "a/a")))
  else if what =? 10 then keep (
    call (Smkdir (str "/../b"));; close_open (str "grindir/../b/b");; unit_call (Sunlink (str "b/b")))
  else if what =? 11 then keep (
    call (Sunlink (str "b"));; unit_call (Slink (str "../grindir/./../a") (str "../b")))
  else if what =? 12 then keep (
    call (Sunlink (str "../grindir/../a"));; unit_call (Slink (str ".././b") (str "/grindir/../a")))
  else if what =? 13 then keep (
    fork_do 1 (line "grind: fork failed") 1 (mret tt);; unit_call Swait)
  else if what =? 14 then keep (
    fork_do 1 (line "grind: fork failed") 1 (call Sfork;; unit_call Sfork);; unit_call Swait)
  else if what =? 15 then keep (unit_call (Ssbrk 6011))
  else if what =? 16 then keep (
    b ← call (Ssbrk 0);
    if u64 break0 <? u64 b then b ← call (Ssbrk 0); unit_call (Ssbrk (i32 (- (b - break0)))) else mret tt)
  else if what =? 17 then keep (
    pid ← fork_do 1 (line "grind: fork failed") 1 (close_open (str "a"));
    r ← call (Schdir (str "../grindir/.."));
    if negb (r =? 0) then fail 1 (line "chdir failed") 1 else
    call (Skill pid);; unit_call Swait)
  else if what =? 18 then keep (
    fork_do 1 (line "grind: fork failed") 1 (pid ← call Sgetpid; unit_call (Skill pid));; unit_call Swait)
  else if what =? 19 then keep (
    fds ← pipe_or_fail 1 (line "grind: pipe failed");
    fork_do 1 (line "grind: fork failed") 1 (
      call Sfork;; call Sfork;;
      w ← call (Swrite fds.2 (str "x"));
      (if negb (w =? 1) then printf (line "grind: pipe write failed") [] else mret tt);;
      r ← call (Sread fds.1 1);
      if negb (r =? 1) then printf (line "grind: pipe read failed") [] else mret tt);;
    call (Sclose fds.1);; call (Sclose fds.2);; unit_call Swait)
  else if what =? 20 then keep (
    fork_do 1 (line "fork failed") 1 (
      call (Sunlink (str "a"));; call (Smkdir (str "a"));; call (Schdir (str "a"));;
      call (Sunlink (str "../a"));; call (Sopen (str "x") O_CR);; unit_call (Sunlink (str "x")));;
    unit_call Swait)
  else if what =? 21 then keep create_c
  else if what =? 22 then keep (pipeline st0)
  else mret (fd, buf).

(** One turn of the loop.  [garbage] are the values on the stack in st1 and st2. *)
Definition go_turn (which_child break0 : Z) (garbage : Z * Z) (g : gst) : M ust (gst + unit) :=
  let iters' := u64 (iters g + 1) in
  (if iters' mod 500 =? 0 then unit_call (Swrite 1 (if negb (which_child =? 0) then str "B" else str "A"))
   else mret tt);;
  let next := do_rand (rand_next g) in
  '(fd, buf) ← act (Z.rem next 23) (g_fd g) break0 (g_buf g) garbage;
  mret (inl (mk_gst next iters' fd buf)).

(** A loop with a call in every [k] turns. *)
Definition loop_every {A R} (k : nat) (body : A -> M ust (A + R)) (a : A) : M ust R :=
  n ← gets (fun s => length (u_env s));
  iterate (k * S n) body a.

Definition go (which_child seed : Z) (garbage : Z * Z) : M ust unit :=
  break0 ← call (Ssbrk 0);
  call (Smkdir (str "grindir"));;
  r ← call (Schdir (str "grindir"));
  if negb (r =? 0) then fail 1 (line "chdir grindir failed") 1 else
  call (Schdir (str "/"));;
  loop_every 500 (go_turn which_child break0 garbage) (mk_gst seed 0 (-1) (replicate 999 0)).

Definition iter (garbage : Z * Z) : M ust unit :=
  call (Sunlink (str "a"));;
  call (Sunlink (str "b"));;
  pid1 ← call Sfork;
  if pid1 <? 0 then fail 1 (line "grind: fork failed") 1 else
  if pid1 =? 0 then go 0 31 garbage;; uexit 0 else
  pid2 ← call Sfork;
  if pid2 <? 0 then fail 1 (line "grind: fork failed") 1 else
  if pid2 =? 0 then go 1 7177 garbage;; uexit 0 else
  st1 ← wait_status (-1);
  (if negb (st1 =? 0) then call (Skill pid1);; unit_call (Skill pid2) else mret tt);;
  wait_status (-1);;
  uexit 0.

Definition main (garbage : Z * Z) : M ust unit :=
  loop (fun _ : unit =>
    pid ← call Sfork;
    if pid =? 0 then iter garbage;; uexit 0 else
    (if 0 <? pid then unit_call Swait else mret tt);;
    call (Ssleep 20);;
    mret (inl tt)) tt.

(** ** Theorems *)

(** Do_rand computes the Park-Miller generator x -> 7^5 x mod (2^31 - 1), shifted
    by one to the range from 0 to 2^31 - 3, and its intermediate values stay within
    31 bits, as its comment says: Schrage's decomposition never overflows. *)
Theorem do_rand_correct ctx :
  0 <= ctx ->
  let x := ctx mod (2 ^ 31 - 2) + 1 in
  do_rand ctx + 1 = (7 ^ 5 * x) mod (2 ^ 31 - 1) /\
  0 <= do_rand ctx <= 2 ^ 31 - 3 /\
  - 2 ^ 31 <= 16807 * (x mod 127773) - 2836 * (x / 127773) < 2 ^ 31 /\
  16807 * (x mod 127773) < 2 ^ 31 /\ 2836 * (x / 127773) < 2 ^ 31.
Proof.
  intros Hc x. unfold do_rand. change 2147483646 with (2 ^ 31 - 2). fold x.
  assert (1 <= x <= 2 ^ 31 - 2) as Hx by (unfold x; pose proof (Z.mod_pos_bound ctx (2 ^ 31 - 2)); lia).
  clearbody x. pose proof (Z.div_mod x 127773) as Hdm. pose proof (Z.mod_pos_bound x 127773) as Hm.
  set (hi := x / 127773) in *. set (lo := x mod 127773) in *. clearbody hi lo.
  assert (0 <= hi <= 16807) as Hhi by lia.
  assert (forall y, 0 < y < 2 ^ 31 - 1 -> (exists q, 16807 * x = (2 ^ 31 - 1) * q + y) ->
    (7 ^ 5 * x) mod (2 ^ 31 - 1) = y) as Hmod.
  { intros y Hy [q Hq]. change (7 ^ 5) with 16807. rewrite Hq. symmetry. apply (Z.mod_unique _ _ q); lia. }
  assert (16807 * lo - 2836 * hi <> 0) as Hne.
  { intros E. assert (16807 | 2836 * hi) as Hd by (exists lo; lia).
    apply Z.gauss in Hd as [q Hq]; [|done]. lia. }
  destruct (Z.ltb_spec (16807 * lo - 2836 * hi) 0).
  - split_and!; try lia. rewrite (Hmod (16807 * lo - 2836 * hi + 2147483647)); [lia|lia|]. exists (hi - 1). lia.
  - split_and!; try lia. rewrite (Hmod (16807 * lo - 2836 * hi)); [lia|lia|]. exists hi. lia.
Qed.

Lemma do_rand_correct_witness : do_rand 1 + 1 = (7 ^ 5 * 2) mod (2 ^ 31 - 1) /\ do_rand 1 = 33613.
Proof. split; [apply (do_rand_correct 1); lia|by vm_compute]. Defined.

(** *** Progress *)

(** Any calls. *)
Definition any (e : event) : Prop := True.

Ltac total :=
  repeat first
    [ apply makes_ret
    | apply makes_call; done
    | apply makes_sys; done
    | apply makes_exit; done
    | eapply makes_prints; [|apply prints_vprintf]; done
    | apply makes_bind; [|intros]
    | progress cbv beta zeta
    | match goal with |- makes _ (if ?b then _ else _) => destruct b end ].

Lemma total_fail {A} fd msg st : makes any (fail fd msg st : M ust A).
Proof. unfold fail. total. Qed.

Lemma total_fork_do fd msg st child : makes any child -> makes any (fork_do fd msg st child).
Proof. intros H. unfold fork_do. total; try done; apply total_fail. Qed.

Lemma total_pipe fd msg : makes any (pipe_or_fail fd msg).
Proof. unfold pipe_or_fail. total; apply total_fail. Qed.

Lemma total_create_c : makes any create_c.
Proof. unfold create_c. total; apply total_fail. Qed.

Lemma total_pipeline st0 : makes any (pipeline st0).
Proof.
  unfold pipeline, wait_status, echo_child, cat_child. total; try apply total_pipe;
    apply total_fork_do; total; apply total_fail.
Qed.

Lemma total_act what fd break0 buf st0 : makes any (act what fd break0 buf st0).
Proof.
  unfold act, close_open, unit_call.
  total; try apply total_fail; try apply total_fork_do; try apply total_pipe; try apply total_create_c;
    try apply total_pipeline; total.
Qed.

(** The replies that turn [i] consumes for its letter. *)
Definition letter (i : Z) : nat := if u64 (i + 1) mod 500 =? 0 then 1 else 0.

(** One turn: fewer replies are left if the turn writes its letter. *)
Lemma go_turn_total which break0 garbage g (Q : gst + unit -> ust -> Prop) s :
  (forall g' s', iters g' = u64 (iters g + 1) ->
     (length (u_env s') + letter (iters g) <= length (u_env s))%nat ->
     Q (inl g') s') ->
  wps (go_turn which break0 garbage g) Q (fun _ => True) s.
Proof.
  intros HQ. unfold go_turn. apply wps_bind.
  assert (forall s1 k, (length (u_env s1) + k <= length (u_env s))%nat -> k = letter (iters g) ->
    wps ('(fd, buf) ← act (Z.rem (do_rand (rand_next g)) 23) (g_fd g) break0 (g_buf g) garbage;
         mret (inl (mk_gst (do_rand (rand_next g)) (u64 (iters g + 1)) fd buf))) Q (fun _ => True) s1) as Hact.
  { intros s1 k Hk Ek. apply wps_bind, total_act; [|done]. intros [fd buf] s2 tr E _. apply wps_ret, HQ; [done|].
    apply extends_length in E. rewrite <- Ek. lia. }
  unfold letter in Hact. destruct (_ =? 0).
  - unfold unit_call. apply wps_bind, wps_call. destruct (u_env s) as [|r env] eqn:Ee; [done|].
    apply wps_ret, (Hact _ 1%nat); [cbn; lia|done].
  - apply wps_ret, (Hact _ 0%nat); [lia|done].
Qed.

(** The letters: after the turns up to a multiple of 500 a reply has been consumed. *)
Lemma iters_measure i L L' :
  is_u64 i -> (L' + letter i <= L)%nat ->
  is_u64 (u64 (i + 1)) /\
  500 * Z.of_nat L' + (499 - u64 (i + 1) mod 500) < 500 * Z.of_nat L + (499 - i mod 500).
Proof.
  intros Hi HL. split; [apply u64_range|]. pose proof (Z.mod_pos_bound i 500) as Hm.
  unfold letter in HL. destruct (Z.eqb_spec (u64 (i + 1) mod 500) 0) as [->|Hne]; [lia|].
  assert (u64 (i + 1) = i + 1) as E.
  { unfold is_u64 in Hi. destruct (decide (i + 1 = 2 ^ 64)) as [E|]; [|apply u64_small; unfold is_u64; lia].
    rewrite E in Hne. by destruct Hne. }
  rewrite E in *. assert ((i + 1) mod 500 = i mod 500 + 1) as ->; [|lia].
  destruct (decide (i mod 500 = 499)) as [E9|]; [exfalso; apply Hne|]; divlia.
Qed.

Lemma go_loop which break0 garbage n g s :
  is_u64 (iters g) ->
  500 * Z.of_nat (length (u_env s)) + (499 - iters g mod 500) <= Z.of_nat n ->
  wps (iterate n (go_turn which break0 garbage) g) (fun _ _ => False) (fun _ => True) s.
Proof.
  revert g s. induction n as [|n IH]; intros g s Hg Hn; cbn [iterate]; apply wps_bind, go_turn_total;
    intros g' s' Hi Hl; destruct (iters_measure _ _ _ Hg Hl) as [Hg' Hd].
  - pose proof (Z.mod_pos_bound (u64 (iters g + 1)) 500). lia.
  - apply IH; rewrite Hi; [done|lia].
Qed.

(** The loop of grind never stops by itself and never idles: it makes a system
    call at least every 500 turns (the letter it writes), whatever the random
    numbers, so for every list of replies the process ends in exit() or waits for the
    kernel; the counter of turns may wrap around. *)
Theorem go_progress which seed garbage s : exists s', go which seed garbage s = Asleep s'.
Proof.
  assert (wps (go which seed garbage) (fun _ _ => False) (fun _ => True) s) as H.
  { unfold go. apply wps_bind, (makes_call any); [done| |done]. intros break0 s1 t1 _ _.
    apply wps_bind, (makes_call any); [done| |done]. intros _ s2 t2 _ _.
    apply wps_bind, (makes_call any); [done| |done]. intros r s3 t3 _ _.
    destruct (negb _); [unfold fail; apply wps_bind, prints_vprintf; done|].
    apply wps_bind, (makes_call any); [done| |done]. intros _ s4 t4 _ _.
    apply wps_bind, wps_wp, wp_gets, go_loop; [done|]. cbn [iters]. rewrite Z.mod_0_l by done. lia. }
  unfold wps in H. destruct (go _ _ _ s); try done. by eexists.
Qed.

End Grind.
