(* ===== verification/UtBase.v ===== *)
(** * The common parts of the tests of user/usertests.c

    Every test runs in a process of its own, a child of the test runner that shares no
    memory with the other tests: the globals buf and name are zero at its start.  The functions
    here are the phrases of the tests: a failed check that prints a message and exits, printf
    with an address that is no string of the program, a buffer that read() fills in part.
    [settles] is the property that the files on the tests prove of each of them: for every list of
    replies the code returns, exits, waits for the kernel or sits in a loop without calls; it
    does not run out of fuel. *)

From Stdlib Require Import ZArith Lia.
From stdpp Require Import base list strings.
From S2P Require Import Prelude KString User Ulib Programs.

(** ** Constants *)

Definition O_WRONLY : Z := 1.
Definition O_TRUNC : Z := 1024.
Definition BSIZE : Z := 1024.
Definition MAXOPBLOCKS : Z := 10.
Definition MAXPATH : Z := 128.
Definition MAXFILE : Z := 12 + BSIZE / 4.
Definition NINODE : Z := 50.
Definition PGSIZE : Z := 4096.
Definition KERNBASE : Z := 2147483648.
Definition BUFSZ : Z := (MAXOPBLOCKS + 2) * BSIZE.
Definition SYS_pipe : Z := 4.
Definition SYS_read : Z := 5.
Definition SYS_exec : Z := 7.
Definition SYS_open : Z := 15.
Definition SYS_write : Z := 16.
Definition SYS_unlink : Z := 18.
Definition SYS_link : Z := 19.

(** A system call whose value is not used. *)
Definition do (c : sysc) : M ust unit := call c;; mret tt.

(** O_CREATE|O_WRONLY and the like. *)
Definition O_CW : Z := Z.lor O_CREATE O_WRONLY.
Definition O_CRW : Z := Z.lor O_CREATE O_RDWR.
Definition O_CTW : Z := Z.lor (Z.lor O_CREATE O_TRUNC) O_WRONLY.

(** close(open(path, mode)) *)
Definition close_open (path : list Z) (mode : Z) : M ust unit :=
  fd ← call (Sopen path mode);
  do (Sclose fd).

(** printf(...); exit(1) *)
Definition die {A} (fmt : list Z) (ap : list uarg) : M ust A := printf fmt ap;; uexit 1.

(** if(b){ printf(...); exit(1); } *)
Definition fail_if (b : bool) (fmt : list Z) (ap : list uarg) : M ust unit :=
  if b then die fmt ap else mret tt.

(** The argument of %s. *)
Definition sa (s : list Z) : uarg := UStr (Some s).

Fixpoint for_all {A} (l : list A) (f : A -> M ust unit) : M ust unit :=
  match l with
  | [] => mret tt
  | x :: l' => f x;; for_all l' f
  end.

(** for(i = 0; i < n; i++) *)
Definition for_n (n : Z) (f : Z -> M ust unit) : M ust unit := for_all (zseq 0 (Z.to_nat n)) f.

(** What the array [buf] holds after a read() of at most [n] bytes into it. *)
Definition into (buf : list Z) (n : Z) (r : reply) : list Z :=
  let d := take (Z.to_nat n) (out r) in
  d ++ drop (length d) buf.

(** The descriptors of pipe(). *)
Definition fds (r : reply) : Z * Z := (default 0 (out r !! 0%nat), default 0 (out r !! 1%nat)).

(** wait(&xstatus): the value of the call and of xstatus afterwards, which is arbitrary if the
    call fails. *)
Definition wait : M ust (Z * Z) :=
  r ← sys Swait;
  mret (ret r, default 0 (head (out r))).

Definition fork : M ust Z := call Sfork.

(** The break as a pointer; (char* )-1 on failure. *)
Definition sbrk (n : Z) : M ust Z :=
  a ← call (Ssbrk (i32 n));
  mret (u64 a).
Definition MINUS1 : Z := 2 ^ 64 - 1.

(** *a and *a = v for an address that is no object of the program. *)
Definition load (a : Z) : M ust Z := v ← call (Sload (u64 a)); mret (u8 v).
Definition store (a v : Z) : M ust unit := do (Sstore (u64 a) v).

(** %s of printf for an address that is no object of the program. *)
Definition puts_at (p : Z) : M ust unit :=
  if u64 p =? 0 then puts 1 (str "(null)") else
  loop (fun p =>
    c ← load p;
    if c =? 0 then mret (inr tt) else
    putc 1 c;;
    mret (inl (p + 1))) p.

(** printf("%s...", p, ap) for such an address [p]; [rest] is the format after the %s. *)
Definition printf_at (p : Z) (rest : list Z) (ap : list uarg) : M ust unit :=
  puts_at p;; printf rest ap.

Definition undet : M ust Z := call Sundet.

(** ** Code that settles *)

(** Whatever its outcome, the code only adds calls to the trace. *)
Definition grows {A} (m : M ust A) : Prop := forall s, u_trace s `prefix_of` u_trace (final (m s)).

(** [sp]: it may sit in a loop without calls. *)
Definition runs {A} (sp : Prop) (k : A -> nat) (m : M ust A) : Prop := grows m /\ forall s,
  match m s with
  | Ret a s' => (length (u_env s') + k a <= length (u_env s))%nat
  | Asleep _ => True
  | Spin _ => sp
  | Panic _ _ | Fuel _ => False
  end.

Definition settles {A} (sp : Prop) (m : M ust A) : Prop := runs sp (fun _ => 0%nat) m.
(** It consumes a reply if it returns. *)
Definition eats {A} (sp : Prop) (m : M ust A) : Prop := runs sp (fun _ => 1%nat) m.
(** A turn of a loop, which consumes a reply if the loop goes on. *)
Definition turn {A R} (sp : Prop) (m : M ust (A + R)) : Prop :=
  runs sp (fun r => match r with inl _ => 1%nat | inr _ => 0%nat end) m.

Section settles.
Context {sp : Prop}.

Lemma grows_bind {A B} (m : M ust A) (f : A -> M ust B) : grows m -> (forall a, grows (f a)) -> grows (m ≫= f).
Proof.
  intros Hm Hf s. specialize (Hm s). unfold mbind, M_bind. destruct (m s) as [a s1| | | |]; try done.
  cbn in Hm. etrans; [exact Hm|apply Hf].
Qed.

Lemma runs_bind {A B} (k : A -> nat) (k' k'' : B -> nat) (m : M ust A) (f : A -> M ust B) :
  runs sp k m -> (forall a, runs sp k' (f a)) -> (forall a b, k'' b <= k a + k' b)%nat -> runs sp k'' (m ≫= f).
Proof.
  intros [Gm Hm] Hf Hk. split; [apply grows_bind; [done|apply Hf]|]. intros s.
  specialize (Hm s). unfold mbind, M_bind. destruct (m s) as [a s1| | | |]; try done.
  pose proof (proj2 (Hf a) s1) as H1. destruct (f a s1) as [b s2| | | |]; try done. specialize (Hk a b). lia.
Qed.

Lemma settles_ret {A} (a : A) : settles sp (mret a).
Proof. split; intros s; cbn; [done|lia]. Qed.
Lemma turn_ret {A R} (r : R) : turn sp (mret (inr r : A + R)).
Proof. split; intros s; cbn; [done|lia]. Qed.
Lemma eats_sys c : eats sp (sys c).
Proof. split; intros s; unfold sys; destruct (u_env s); cbn; try done; [by eexists..|lia]. Qed.
Lemma eats_call c : eats sp (call c).
Proof. eapply runs_bind; [apply eats_sys|intros; apply settles_ret|]. cbn. lia. Qed.
Lemma runs_exit {A} (k : A -> nat) st : runs sp k (uexit st).
Proof. split; [|done]. intros s. by eexists. Qed.
Lemma runs_spin {A} (k : A -> nat) : sp -> runs sp k spin.
Proof. intros Hsp. split; intros s; cbn; done. Qed.

Lemma runs_weaken {A} (k k' : A -> nat) (m : M ust A) : runs sp k m -> (forall a, k' a <= k a)%nat -> runs sp k' m.
Proof.
  intros [Gm Hm] Hk. split; [done|]. intros s. specialize (Hm s). destruct (m s); try done. specialize (Hk a). lia.
Qed.
Lemma eats_settles {A} (m : M ust A) : eats sp m -> settles sp m.
Proof. intros H. eapply runs_weaken; [exact H|]. cbn. lia. Qed.
Lemma settles_sys c : settles sp (sys c).
Proof. apply eats_settles, eats_sys. Qed.
Lemma settles_call c : settles sp (call c).
Proof. apply eats_settles, eats_call. Qed.

Lemma settles_bind {A B} (m : M ust A) (f : A -> M ust B) :
  settles sp m -> (forall a, settles sp (f a)) -> settles sp (m ≫= f).
Proof. intros. eapply runs_bind; [done..|]. cbn. lia. Qed.

Lemma settles_weaken {A} (sp' : Prop) (m : M ust A) : settles sp m -> (sp -> sp') -> settles sp' m.
Proof. intros [G H] Hs. split; [done|]. intros s. specialize (H s). destruct (m s); auto. Qed.

(** A turn that starts with code that consumes a reply. *)
Lemma turn_eats {A B R} (m : M ust A) (f : A -> M ust (B + R)) :
  eats sp m -> (forall a, settles sp (f a)) -> turn sp (m ≫= f).
Proof. intros. eapply runs_bind; [done..|]. intros a [b|r]; cbn; lia. Qed.
Lemma turn_bind {A B R} (m : M ust A) (f : A -> M ust (B + R)) :
  settles sp m -> (forall a, turn sp (f a)) -> turn sp (m ≫= f).
Proof. intros. eapply runs_bind; [done..|]. intros a [b|r]; cbn; lia. Qed.

Lemma settles_prints {A} fd l (m : M ust A) : prints fd l m -> settles sp m.
Proof.
  intros Hm.
  assert (forall s, wps m (fun _ s' => (length (u_env s') <= length (u_env s))%nat /\ u_trace s `prefix_of` u_trace s')
    (fun s' => u_trace s `prefix_of` u_trace s') s) as H.
  { intros s. apply Hm.
    - intros a s' tr E _ _. split; [by eapply extends_length|]. exists tr. apply E.
    - intros s' tr E _ _. exists tr. apply E. }
  split; intros s; specialize (H s); unfold wps in H; destruct (m s); try done; cbn; [apply H|lia].
Qed.

Lemma runs_iterate {A R} (body : A -> M ust (A + R)) n a s :
  (forall a, turn sp (body a)) -> (length (u_env s) <= n)%nat ->
  u_trace s `prefix_of` u_trace (final (iterate n body a s)) /\
  match iterate n body a s with
  | Ret _ s' => (length (u_env s') <= length (u_env s))%nat
  | Asleep _ => True
  | Spin _ => sp
  | Panic _ _ | Fuel _ => False
  end.
Proof.
  intros Hb. revert a s. induction n as [|n IH]; intros a s Hn; cbn [iterate]; unfold mbind, M_bind;
    pose proof (proj1 (Hb a) s) as G; pose proof (proj2 (Hb a) s) as H;
    destruct (body a s) as [[a'|r] s'| | | |]; try done; cbn in *; try lia; try (split; [done|lia]).
  destruct (IH a' s' ltac:(lia)) as [G' H']. split; [by etrans|]. destruct (iterate n body a' s'); try done. lia.
Qed.

Lemma settles_loop {A R} (body : A -> M ust (A + R)) a : (forall a, turn sp (body a)) -> settles sp (loop body a).
Proof.
  intros Hb. split; intros s; destruct (runs_iterate body (length (u_env s)) a s Hb ltac:(done)) as [G H];
    unfold loop, gets, mbind, M_bind; [done|]. destruct (iterate _ body a s); try done. cbn. lia.
Qed.

Lemma settles_for_all {A} (l : list A) f : (forall x, settles sp (f x)) -> settles sp (for_all l f).
Proof. intros Hf. induction l; cbn; [apply settles_ret|by apply settles_bind]. Qed.
Lemma settles_for_n n f : (forall i, settles sp (f i)) -> settles sp (for_n n f).
Proof. intros. by apply settles_for_all. Qed.
Lemma settles_when b m : settles sp m -> settles sp (when b m).
Proof. intros. destruct b; [done|apply settles_ret]. Qed.

End settles.

Create HintDb settle.

(** Splits the code into its calls; what [settle] knows about the parts it uses. *)
Ltac settle1 :=
  lazymatch goal with
  | |- forall _, _ => intros
  | |- settles _ (mret _) => apply settles_ret
  | |- turn _ (mret (inr _)) => apply turn_ret
  | |- settles _ (mbind _ _) => apply settles_bind
  | |- turn _ (mbind _ (call _)) => apply turn_eats; [apply eats_call|]
  | |- turn _ (mbind _ (sys _)) => apply turn_eats; [apply eats_sys|]
  | |- turn _ (mbind _ _) => solve [auto 1 with settle nocore] || apply turn_bind
  | |- settles _ (when _ _) => apply settles_when
  | |- settles _ (call _) => apply settles_call
  | |- settles _ (sys _) => apply settles_sys
  | |- settles _ (uexit _) => apply runs_exit
  | |- turn _ (uexit _) => apply runs_exit
  | |- settles _ spin => apply runs_spin; exact I
  | |- settles _ (for_all _ _) => apply settles_for_all
  | |- settles _ (for_n _ _) => apply settles_for_n
  | |- settles _ (loop _ _) => apply settles_loop
  | |- settles _ (if ?b then _ else _) => destruct b
  | |- turn _ (if ?b then _ else _) => destruct b
  | |- settles _ (match ?p with _ => _ end) => destruct p
  | |- turn _ (match ?p with _ => _ end) => destruct p
  | |- settles _ (let _ := _ in _) => cbv zeta
  | |- turn _ (let _ := _ in _) => cbv zeta
  | |- _ => solve [auto 1 with settle nocore]
  end; cbv beta.
Ltac settle := repeat settle1.

Lemma settles_do sp c : settles sp (do c).
Proof. unfold do. settle. Qed.
Lemma settles_printf sp fmt ap : settles sp (printf fmt ap).
Proof. eapply settles_prints, prints_printf. Qed.
Lemma settles_puts sp fd l : settles sp (puts fd l).
Proof. eapply settles_prints, prints_puts. Qed.
#[export] Hint Resolve settles_do settles_printf settles_puts : settle.
Lemma settles_close_open sp path mode : settles sp (close_open path mode).
Proof. unfold close_open. settle. Qed.
Lemma runs_die sp {A} (k : A -> nat) fmt ap : runs sp k (die fmt ap).
Proof. eapply runs_bind; [apply settles_printf|intros; apply (runs_exit k)|]. cbn. lia. Qed.
Lemma settles_die sp {A} fmt ap : settles sp (die fmt ap : M ust A).
Proof. apply runs_die. Qed.
Lemma turn_die sp {A R} fmt ap : turn sp (die fmt ap : M ust (A + R)).
Proof. apply runs_die. Qed.
#[export] Hint Resolve settles_close_open settles_die turn_die : settle.
Lemma settles_fail_if sp b fmt ap : settles sp (fail_if b fmt ap).
Proof. unfold fail_if. settle. Qed.
Lemma settles_wait sp : settles sp wait.
Proof. unfold wait. settle. Qed.
Lemma eats_wait sp : eats sp wait.
Proof. eapply runs_bind; [apply eats_sys|intros; apply settles_ret|]. cbn. lia. Qed.
Lemma settles_fork sp : settles sp fork.
Proof. apply settles_call. Qed.
Lemma settles_sbrk sp n : settles sp (sbrk n).
Proof. unfold sbrk. settle. Qed.
Lemma settles_load sp a : settles sp (load a).
Proof. unfold load. settle. Qed.
Lemma settles_store sp a v : settles sp (store a v).
Proof. unfold store. settle. Qed.
Lemma settles_putc sp fd c : settles sp (putc fd c).
Proof. unfold putc. settle. Qed.
Lemma settles_undet sp : settles sp undet.
Proof. apply settles_call. Qed.
#[export] Hint Resolve settles_fail_if settles_wait settles_fork settles_sbrk settles_load settles_store
  settles_putc settles_undet : settle.

Lemma eats_fork sp : eats sp fork.
Proof. apply eats_call. Qed.
Lemma eats_sbrk sp n : eats sp (sbrk n).
Proof. eapply runs_bind; [apply eats_call|intros; apply settles_ret|]. cbn. lia. Qed.
Lemma eats_load sp a : eats sp (load a).
Proof. eapply runs_bind; [apply eats_call|intros; apply settles_ret|]. cbn. lia. Qed.
Lemma eats_do sp c : eats sp (do c).
Proof. eapply runs_bind; [apply eats_call|intros; apply settles_ret|]. cbn. lia. Qed.
Lemma eats_store sp a v : eats sp (store a v).
Proof. apply eats_do. Qed.
Lemma eats_close_open sp path mode : eats sp (close_open path mode).
Proof. eapply runs_bind; [apply eats_call|intros; apply settles_do|]. cbn. lia. Qed.

(** A turn that starts with a call made by one of these functions. *)
#[export] Hint Extern 0 (turn _ (fork ≫= _)) => apply turn_eats; [apply eats_fork|settle] : settle.
#[export] Hint Extern 0 (turn _ (sbrk _ ≫= _)) => apply turn_eats; [apply eats_sbrk|settle] : settle.
#[export] Hint Extern 0 (turn _ (load _ ≫= _)) => apply turn_eats; [apply eats_load|settle] : settle.
#[export] Hint Extern 0 (turn _ (do _ ≫= _)) => apply turn_eats; [apply eats_do|settle] : settle.
#[export] Hint Extern 0 (turn _ (store _ _ ≫= _)) => apply turn_eats; [apply eats_store|settle] : settle.

Lemma settles_puts_at sp p : settles sp (puts_at p).
Proof. unfold puts_at. settle. Qed.
#[export] Hint Resolve settles_puts_at : settle.
Lemma settles_printf_at sp p rest ap : settles sp (printf_at p rest ap).
Proof. unfold printf_at. settle. Qed.
#[export] Hint Resolve settles_printf_at : settle.
