(* ===== verification/UtMem.v ===== *)
(** * user/usertests.c: tests of arguments and of memory

    Invalid addresses as arguments of system calls, sbrk(), the stack, the bss, malloc() and
    exec() without memory; countfree().  A load or a store outside of the objects of the program
    is a step of its own, which the kernel may answer by ending the process.  [uninit] is the
    content of the array of that name when the program starts, [base] the address of the
    base of malloc(). *)

From Stdlib Require Import ZArith Lia.
From stdpp Require Import base list strings.
From S2P Require Import Prelude KString User Ulib Programs Umalloc UtBase.

Module UtMem.

(** ** Invalid addresses *)

Definition addrs : list Z := [2147483648; 18446744073709551615].

Definition copyin (s : list Z) : M ust unit :=
  for_all addrs (fun addr =>
    fd ← call (Sopen (str "copyin1") O_CW);
    fail_if (fd <? 0) (line "open(copyin1) failed") [];;
    n ← call (Sraw SYS_write [Num fd; Num addr; Num 8192]);
    fail_if (0 <=? n) (line "write(fd, %p, 8192) returned %d, not -1") [UInt addr; UInt n];;
    do (Sclose fd);;
    do (Sunlink (str "copyin1"));;
    n ← call (Sraw SYS_write [Num 1; Num addr; Num 8192]);
    fail_if (0 <? n) (line "write(1, %p, 8192) returned %d, not -1 or 0") [UInt addr; UInt n];;
    r ← sys Spipe;
    fail_if (ret r <? 0) (line "pipe() failed") [];;
    n ← call (Sraw SYS_write [Num (fds r).2; Num addr; Num 8192]);
    fail_if (0 <? n) (line "write(pipe, %p, 8192) returned %d, not -1 or 0") [UInt addr; UInt n];;
    do (Sclose (fds r).1);;
    do (Sclose (fds r).2)).

Definition copyout (s : list Z) : M ust unit :=
  for_all addrs (fun addr =>
    fd ← call (Sopen (str "README") 0);
    fail_if (fd <? 0) (line "open(README) failed") [];;
    n ← call (Sraw SYS_read [Num fd; Num addr; Num 8192]);
    fail_if (0 <? n) (line "read(fd, %p, 8192) returned %d, not -1 or 0") [UInt addr; UInt n];;
    do (Sclose fd);;
    r ← sys Spipe;
    fail_if (ret r <? 0) (line "pipe() failed") [];;
    n ← call (Swrite (fds r).2 (str "x"));
    fail_if (negb (n =? 1)) (line "pipe write failed") [];;
    n ← call (Sraw SYS_read [Num (fds r).1; Num addr; Num 8192]);
    fail_if (0 <? n) (line "read(pipe, %p, 8192) returned %d, not -1 or 0") [UInt addr; UInt n];;
    do (Sclose (fds r).1);;
    do (Sclose (fds r).2)).

Definition copyinstr1 (s : list Z) : M ust unit :=
  for_all addrs (fun addr =>
    fd ← call (Sraw SYS_open [Num addr; Num O_CW]);
    fail_if (0 <=? fd) (line "open(%p) returned %d, not -1") [UInt addr; UInt fd]).

Definition copyinstr2 (s : list Z) : M ust unit :=
  let b := replicate (Z.to_nat MAXPATH) 120 in
  r ← call (Sunlink b);
  fail_if (negb (r =? -1)) (line "unlink(%s) returned %d, not -1") [sa b; UInt r];;
  fd ← call (Sopen b O_CW);
  fail_if (negb (fd =? -1)) (line "open(%s) returned %d, not -1") [sa b; UInt fd];;
  r ← call (Slink b b);
  fail_if (negb (r =? -1)) (line "link(%s, %s) returned %d, not -1") [sa b; sa b; UInt r];;
  r ← call (Sexec b [str "xx"]);
  fail_if (negb (r =? -1)) (line "exec(%s) returned %d, not -1") [sa b; UInt fd];;
  pid ← fork;
  fail_if (pid <? 0) (line "fork failed") [];;
  when (pid =? 0) (
    let big := replicate (Z.to_nat PGSIZE) 120 in
    r ← call (Sexec (str "echo") [big; big; big]);
    fail_if (negb (r =? -1)) (line "exec(echo, BIG) returned %d, not -1") [UInt fd];;
    uexit 747);;
  r ← sys Swait;
  (* st is 0 before the call *)
  fail_if (negb (default 0 (head (out r)) =? 747))
    (line "exec(echo, BIG) succeeded, should have failed") [].

Definition copyinstr3 (s : list Z) : M ust unit :=
  sbrk 8192;;
  top ← sbrk 0;
  when (negb (top mod PGSIZE =? 0)) (sbrk (PGSIZE - top mod PGSIZE);; mret tt);;
  top ← sbrk 0;
  fail_if (negb (top mod PGSIZE =? 0)) (line "oops") [];;
  let b := u64 (top - 1) in
  store b 120;;
  r ← call (Sraw SYS_unlink [Num b]);
  when (negb (r =? -1)) (
    printf (str "unlink(") [];; printf_at b (line ") returned %d, not -1") [UInt r];; uexit 1);;
  fd ← call (Sraw SYS_open [Num b; Num O_CW]);
  when (negb (fd =? -1)) (
    printf (str "open(") [];; printf_at b (line ") returned %d, not -1") [UInt fd];; uexit 1);;
  r ← call (Sraw SYS_link [Num b; Num b]);
  when (negb (r =? -1)) (
    printf (str "link(") [];; printf_at b (str ", ") [];;
    printf_at b (line ") returned %d, not -1") [UInt r];; uexit 1);;
  r ← call (Sraw SYS_exec [Num b; Strs [str "xx"]]);
  when (negb (r =? -1)) (
    printf (str "exec(") [];; printf_at b (line ") returned %d, not -1") [UInt fd];; uexit 1).

Definition validatetest (s : list Z) : M ust unit :=
  let hi := 1100 * 1024 in
  for_n (hi / PGSIZE + 1) (fun k =>
    r ← call (Sraw SYS_link [Str (str "nosuchfile"); Num (PGSIZE * k)]);
    fail_if (negb (r =? -1)) (line "%s: link should not succeed") [sa s]).

Definition argptest (s : list Z) : M ust unit :=
  fd ← call (Sopen (str "init") O_RDONLY);
  fail_if (fd <? 0) (line "%s: open failed") [sa s];;
  top ← sbrk 0;
  do (Sraw SYS_read [Num fd; Num (u64 (top - 1)); Num (-1)]);;
  do (Sclose fd).

Definition pgbug (s : list Z) : M ust unit :=
  do (Sraw SYS_exec [Num 16927636109872082782; Ptrs []]);;
  do (Sraw SYS_pipe [Num 16927636109872082782]);;
  uexit 0.

Definition badarg (s : list Z) : M ust unit :=
  for_n 50000 (fun _ => do (Sraw SYS_exec [Str (str "echo"); Ptrs [4294967295]]));;
  uexit 0.

(** The new randstate and the value. *)
Definition rand (randstate : Z) : Z * Z :=
  let r := u64 (randstate * 1664525 + 1013904223) in
  (r, u32 r).

(** ** sbrk() *)

(** 5000 times sbrk(1), from the break [a] on. *)
Fixpoint sbrk_bytes (n : nat) (i a : Z) : M ust Z :=
  match n with
  | O => mret a
  | S n' =>
      b ← sbrk 1;
      when (negb (b =? a)) (
        g ← undet;
        printf_at i (line ": sbrk test failed %d %x %x") [UInt a; UInt b; UInt g];;
        uexit 1);;
      store b 1;;
      sbrk_bytes n' (i + 1) (u64 (b + 1))
  end.

Definition TOOMUCH : Z := 1024 * 1024 * 1024.

Definition sbrkbasic (s : list Z) : M ust unit :=
  pid ← fork;
  fail_if (pid <? 0) (line "fork failed in sbrkbasic") [];;
  when (pid =? 0) (
    a ← sbrk TOOMUCH;
    when (a =? MINUS1) (uexit 0);;
    for_n (TOOMUCH / 4096) (fun i => store (a + 4096 * i) 99);;
    uexit 1);;
  '(_, xstatus) ← wait;
  fail_if (xstatus =? 1) (line "%s: too much memory allocated!") [sa s];;
  a ← sbrk 0;
  a ← sbrk_bytes (Z.to_nat 5000) 0 a;
  pid ← fork;
  fail_if (pid <? 0) (line "%s: sbrk test fork failed") [sa s];;
  sbrk 1;;
  c ← sbrk 1;
  fail_if (negb (c =? u64 (a + 1))) (line "%s: sbrk test failed post-fork") [sa s];;
  when (pid =? 0) (uexit 0);;
  '(_, xstatus) ← wait;
  uexit xstatus.

Definition BIG : Z := 100 * 1024 * 1024.

(** printf("%s: ..., a %x c %x\n", a, c); exit(1) *)
Definition die_a_c (msg : string) (a c : Z) : M ust unit :=
  g ← undet;
  printf_at a (line msg) [UInt c; UInt g];;
  uexit 1.

Definition sbrkmuch (s : list Z) : M ust unit :=
  oldbrk ← sbrk 0;
  a ← sbrk 0;
  p ← sbrk (u64 (BIG - a));
  fail_if (negb (p =? a)) (line "%s: sbrk test failed to grow big address space; enough phys mem?") [sa s];;
  eee ← sbrk 0;
  loop (fun pp =>
    if pp <? eee then store pp 1;; mret (inl (u64 (pp + 4096))) else mret (inr tt)) a;;
  let lastaddr := BIG - 1 in
  store lastaddr 99;;
  a ← sbrk 0;
  c ← sbrk (- PGSIZE);
  fail_if (c =? MINUS1) (line "%s: sbrk could not deallocate") [sa s];;
  c ← sbrk 0;
  when (negb (c =? u64 (a - PGSIZE))) (die_a_c ": sbrk deallocation produced wrong address, a %x c %x" a c);;
  a ← sbrk 0;
  c ← sbrk PGSIZE;
  bad ← (if negb (c =? a) then mret true else e ← sbrk 0; mret (negb (e =? u64 (a + PGSIZE))));
  when bad (die_a_c ": sbrk re-allocation failed, a %x c %x" a c);;
  v ← load lastaddr;
  fail_if (v =? 99) (line "%s: sbrk de-allocation didn't really deallocate") [sa s];;
  a ← sbrk 0;
  e ← sbrk 0;
  c ← sbrk (- (e - oldbrk));
  when (negb (c =? a)) (die_a_c ": sbrk downsize failed, a %x c %x" a c).

Definition kernmem (s : list Z) : M ust unit :=
  for_n (2000000 / 50000) (fun k =>
    let a := KERNBASE + 50000 * k in
    pid ← fork;
    fail_if (pid <? 0) (line "%s: fork failed") [sa s];;
    when (pid =? 0) (
      v ← load a;
      g ← undet;
      printf_at a (line ": oops could read %x = %x") [UInt v; UInt g];;
      uexit 1);;
    '(_, xstatus) ← wait;
    when (negb (xstatus =? -1)) (uexit 1)).

(** The children of sbrkfail, and their pids. *)
Fixpoint hogs (n : nat) (fd : Z * Z) : M ust (list Z) :=
  match n with
  | O => mret []
  | S n' =>
      pid ← fork;
      when (pid =? 0) (
        top ← sbrk 0;
        sbrk (u64 (BIG - top));;
        do (Swrite fd.2 (str "x"));;
        loop (fun _ => do (Ssleep 1000);; mret (inl tt)) tt);;
      when (negb (pid =? -1)) (do (Sread fd.1 1));;
      pids ← hogs n' fd;
      mret (pid :: pids)
  end.

(** n += *(a+i) for [k] pages. *)
Fixpoint sum_pages (k : nat) (a i n : Z) : M ust Z :=
  match k with
  | O => mret n
  | S k' =>
      v ← load (a + i);
      sum_pages k' a (i + PGSIZE) (i32 (n + v))
  end.

Definition sbrkfail (s : list Z) : M ust unit :=
  r ← sys Spipe;
  fail_if (negb (ret r =? 0)) (line "%s: pipe() failed") [sa s];;
  pids ← hogs 10 (fds r);
  c ← sbrk PGSIZE;
  for_all pids (fun pid =>
    when (negb (pid =? -1)) (do (Skill pid);; do Swait));;
  fail_if (c =? MINUS1) (line "%s: failed sbrk leaked memory") [sa s];;
  pid ← fork;
  fail_if (pid <? 0) (line "%s: fork failed") [sa s];;
  when (pid =? 0) (
    a ← sbrk 0;
    sbrk (10 * BIG);;
    n ← sum_pages (Z.to_nat (10 * BIG / PGSIZE)) a 0 0;
    g ← undet;
    printf_at n (line ": allocate a lot of memory succeeded %d") [UInt g];;
    uexit 1);;
  '(_, xstatus) ← wait;
  when (negb (xstatus =? -1) && negb (xstatus =? 2)) (uexit 1).

Definition sbrkarg (s : list Z) : M ust unit :=
  a ← sbrk PGSIZE;
  fd ← call (Sopen (str "sbrk") O_CW);
  do (Sunlink (str "sbrk"));;
  fail_if (fd <? 0) (line "%s: open sbrk failed") [sa s];;
  n ← call (Sraw SYS_write [Num fd; Num a; Num PGSIZE]);
  fail_if (n <? 0) (line "%s: write sbrk failed") [sa s];;
  do (Sclose fd);;
  a ← sbrk PGSIZE;
  r ← call (Sraw SYS_pipe [Num a]);
  fail_if (negb (r =? 0)) (line "%s: pipe() failed") [sa s].

Definition sbrkbugs (s : list Z) : M ust unit :=
  pid ← fork;
  fail_if (pid <? 0) (line "fork failed") [];;
  when (pid =? 0) (
    a ← sbrk 0;
    sbrk (- i32 a);;
    uexit 0);;
  do Swait;;
  pid ← fork;
  fail_if (pid <? 0) (line "fork failed") [];;
  when (pid =? 0) (
    a ← sbrk 0;
    sbrk (- (i32 a - 3500));;
    uexit 0);;
  do Swait;;
  pid ← fork;
  fail_if (pid <? 0) (line "fork failed") [];;
  when (pid =? 0) (
    a ← sbrk 0;
    sbrk (u64 (10 * 4096 + 2048 - a));;
    sbrk (-10);;
    uexit 0);;
  do Swait;;
  uexit 0.

(** ** The stack, the bss and the arguments of exec() *)

Definition bsstest (uninit s : list Z) : M ust unit :=
  for_all uninit (fun c => fail_if (negb (c =? 0)) (line "%s: bss test failed") [sa s]).

Definition bigarg : list Z := line "bigargs test: failed" ++ replicate 199 32.

Definition bigargtest (s : list Z) : M ust unit :=
  do (Sunlink (str "bigarg-ok"));;
  pid ← fork;
  (if pid =? 0 then
     do (Sexec (str "echo") (replicate (MAXARG - 1) bigarg));;
     fd ← call (Sopen (str "bigarg-ok") O_CREATE);
     do (Sclose fd);;
     uexit 0
   else fail_if (pid <? 0) (line "%s: bigargtest: fork failed") [sa s]);;
  '(_, xstatus) ← wait;
  when (negb (xstatus =? 0)) (uexit xstatus);;
  fd ← call (Sopen (str "bigarg-ok") 0);
  fail_if (fd <? 0) (line "%s: bigarg test failed!") [sa s];;
  do (Sclose fd).

Definition stacktest (s : list Z) : M ust unit :=
  pid ← fork;
  (if pid =? 0 then
     sp ← undet;
     v ← load (sp - PGSIZE);
     g ← undet;
     printf_at v (line ": stacktest: read below stack %p") [UInt g];;
     uexit 1
   else fail_if (pid <? 0) (line "%s: fork failed") [sa s]);;
  '(_, xstatus) ← wait;
  if xstatus =? -1 then uexit 0 else uexit xstatus.

(** ** Running out of memory *)

(** Takes all of the memory: while(1) sbrk(4096). *)
Definition take_all (report : M ust unit) : M ust unit :=
  loop (fun _ =>
    a ← sbrk 4096;
    if a =? MINUS1 then mret (inr tt) else
    store (a + 4096 - 1) 1;;
    report;;
    mret (inl tt)) tt.

Definition execout (s : list Z) : M ust unit :=
  for_n 15 (fun avail =>
    pid ← fork;
    if pid <? 0 then die (line "fork failed") []
    else if pid =? 0 then
      take_all (mret tt);;
      for_n avail (fun _ => sbrk (-4096);; mret tt);;
      do (Sclose 1);;
      do (Sexec (str "echo") [str "echo"; str "x"]);;
      uexit 0
    else do Swait);;
  uexit 0.

Definition countfree : M ust Z :=
  r ← sys Spipe;
  fail_if (ret r <? 0) (line "pipe() failed in countfree()") [];;
  pid ← fork;
  fail_if (pid <? 0) (line "fork failed in countfree()") [];;
  when (pid =? 0) (
    do (Sclose (fds r).1);;
    take_all (
      w ← call (Swrite (fds r).2 (str "x"));
      fail_if (negb (w =? 1)) (line "write() failed in countfree()") []);;
    uexit 0);;
  do (Sclose (fds r).2);;
  n ← loop (fun n =>
    cc ← call (Sread (fds r).1 1);
    if cc <? 0 then die (line "read() failed in countfree()") []
    else if cc =? 0 then mret (inr n)
    else mret (inl (n + 1))) 0;
  do (Sclose (fds r).1);;
  do Swait;;
  mret n.

(** ** malloc() *)

(** Code of user/umalloc.c in the program: the replies to its sbrk() are the next replies. *)
Definition with_heap {A} (h : Umalloc.umst) (m : M Umalloc.umst A) : M ust (A * Umalloc.umst) := fun s =>
  let events h' := (fun '(n, r) => (Ssbrk n, r)) <$> zip (Umalloc.asked h') ((Some <$> u_env s) ++ [None]) in
  let after h' := mk_ust (drop (length (Umalloc.asked h')) (u_env s)) (u_trace s ++ events h') in
  match m (Umalloc.mk_umst (Umalloc.h_ptr h) (Umalloc.h_size h) (Umalloc.freep h)
             ((fun r => u64 (ret r)) <$> u_env s) []) with
  | Ret a h' => Ret (a, h') (after h')
  | Asleep h' => Asleep (after h')
  | Panic msg h' => Panic msg (after h')
  | Spin h' => Spin (after h')
  | Fuel h' => Fuel (after h')
  end.

Section mem.
Context (base : Z) (fuel : nat).

(** while((m2 = malloc(10001)) != 0){ *(char** )m2 = m1; m1 = m2; } : the last block *)
Fixpoint take_blocks (n : nat) (m1 : Z) : M Umalloc.umst Z :=
  m2 ← Umalloc.malloc base fuel 10001;
  if m2 =? 0 then mret m1 else
  match n with
  | O => out_of_fuel
  | S n' => Umalloc.set_ptr m2 m1;; take_blocks n' m2
  end.

(** while(m1){ m2 = *(char** )m1; free(m1); m1 = m2; } *)
Fixpoint free_blocks (n : nat) (m1 : Z) : M Umalloc.umst unit :=
  if m1 =? 0 then mret tt else
  match n with
  | O => out_of_fuel
  | S n' =>
      m2 ← Umalloc.ptr m1;
      Umalloc.free fuel m1;;
      free_blocks n' m2
  end.

(** The blocks are taken and freed, and a larger one is requested. *)
Definition mem_blocks : M Umalloc.umst Z :=
  m1 ← take_blocks fuel 0;
  free_blocks fuel m1;;
  Umalloc.malloc base fuel (1024 * 20).

(** The heap of a program that has not called malloc. *)
Definition no_heap : Umalloc.umst := Umalloc.mk_umst (fun _ => 0) (fun _ => 0) 0 [] [].

Definition mem (s : list Z) : M ust unit :=
  pid ← fork;
  if pid =? 0 then
    '(m1, h) ← with_heap no_heap mem_blocks;
    fail_if (m1 =? 0) (line "couldn't allocate mem?!!") [sa s];;
    with_heap h (Umalloc.free fuel m1);;
    uexit 0
  else
    '(_, xstatus) ← wait;
    if xstatus =? -1 then uexit 0 else uexit xstatus.

End mem.

End UtMem.
