(* ===== verification/UtProc.v ===== *)
(** * user/usertests.c: tests of processes and pipes *)

From Stdlib Require Import ZArith Lia.
From stdpp Require Import base list strings.
From S2P Require Import Prelude KString User Ulib Programs UtBase.

Module UtProc.

Definition exectest (s : list Z) : M ust unit :=
  do (Sunlink (str "echo-ok"));;
  pid ← fork;
  fail_if (pid <? 0) (line "%s: fork failed") [sa s];;
  when (pid =? 0) (
    do (Sclose 1);;
    fd ← call (Sopen (str "echo-ok") O_CW);
    fail_if (fd <? 0) (line "%s: create failed") [sa s];;
    fail_if (negb (fd =? 1)) (line "%s: wrong fd") [sa s];;
    r ← call (Sexec (str "echo") [str "echo"; str "OK"]);
    fail_if (r <? 0) (line "%s: exec echo failed") [sa s]);;
  '(wpid, xstatus) ← wait;
  when (negb (wpid =? pid)) (printf (line "%s: wait failed!") [sa s]);;
  when (negb (xstatus =? 0)) (uexit xstatus);;
  fd ← call (Sopen (str "echo-ok") O_RDONLY);
  fail_if (fd <? 0) (line "%s: open failed") [sa s];;
  r ← sys (Sread fd 2);
  fail_if (negb (ret r =? 2)) (line "%s: read failed") [sa s];;
  do (Sunlink (str "echo-ok"));;
  let buf := into [0; 0; 0] 2 r in
  if (default 0 (buf !! 0%nat) =? 79) && (default 0 (buf !! 1%nat) =? 75) then uexit 0
  else die (line "%s: wrong output") [sa s].

(** ** pipe1 *)

Definition N : Z := 5.
Definition SZ : Z := 1033.

(** The child: buf[i] = seq++ for [SZ] bytes, and write(), [n] times. *)
Fixpoint pipe1_writes (n : nat) (s : list Z) (fd seq : Z) : M ust unit :=
  match n with
  | O => mret tt
  | S n' =>
      let buf := u8 <$> zseq seq (Z.to_nat SZ) in
      w ← call (Swrite fd buf);
      fail_if (negb (w =? SZ)) (line "%s: pipe1 oops 1") [sa s];;
      pipe1_writes n' s fd (seq + SZ)
  end.

(** The bytes [d] continue the sequence at [seq]. *)
Fixpoint in_sequence (d : list Z) (seq : Z) : bool :=
  match d with
  | [] => true
  | b :: d' => (Z.land b 255 =? Z.land seq 255) && in_sequence d' (seq + 1)
  end.

(** The loop of the parent over buf, cc, total and seq: [None] if a byte is wrong, else total. *)
Definition pipe1_turn (s : list Z) (fd : Z) (a : list Z * Z * Z * Z) :
    M ust ((list Z * Z * Z * Z) + option Z) :=
  let '(buf, cc, total, seq) := a in
  r ← sys (Sread fd cc);
  let n := ret r in
  if n <=? 0 then mret (inr (Some total)) else
  let buf := into buf cc r in
  if negb (in_sequence (take (Z.to_nat n) buf) seq) then
    printf (line "%s: pipe1 oops 2") [sa s];; mret (inr None)
  else
  let cc := cc * 2 in
  mret (inl (buf, if BUFSZ <? cc then BUFSZ else cc, total + n, seq + n)).

Definition pipe1 (s : list Z) : M ust unit :=
  r ← sys Spipe;
  fail_if (negb (ret r =? 0)) (line "%s: pipe() failed") [sa s];;
  pid ← fork;
  if pid =? 0 then
    do (Sclose (fds r).1);;
    pipe1_writes (Z.to_nat N) s (fds r).2 0;;
    uexit 0
  else if 0 <? pid then
    do (Sclose (fds r).2);;
    t ← loop (pipe1_turn s (fds r).1) (replicate (Z.to_nat BUFSZ) 0, 1, 0, 0);
    match t with
    | None => mret tt  (* return *)
    | Some total =>
        when (negb (total =? N * SZ)) (
          g ← undet;
          printf_at total (line ": pipe1 oops 3 total %d") [UInt g];;
          uexit 1);;
        do (Sclose (fds r).1);;
        '(_, xstatus) ← wait;
        uexit xstatus
    end
  else die (line "%s: fork() failed") [sa s].

(** ** Processes *)

(** printf("%s...") without the argument of %s. *)
Definition printf_missing (rest : list Z) : M ust unit :=
  p ← undet;
  printf_at p rest [].

Definition preempt (s : list Z) : M ust unit :=
  pid1 ← fork;
  when (pid1 <? 0) (printf_missing (str ": fork failed");; uexit 1);;
  when (pid1 =? 0) spin;;
  pid2 ← fork;
  fail_if (pid2 <? 0) (line "%s: fork failed") [sa s];;
  when (pid2 =? 0) spin;;
  r ← sys Spipe;
  let pfds := fds r in
  pid3 ← fork;
  fail_if (pid3 <? 0) (line "%s: fork failed") [sa s];;
  when (pid3 =? 0) (
    do (Sclose pfds.1);;
    w ← call (Swrite pfds.2 (str "x"));
    when (negb (w =? 1)) (printf_missing (str ": preempt write error"));;
    do (Sclose pfds.2);;
    spin);;
  do (Sclose pfds.2);;
  n ← call (Sread pfds.1 BUFSZ);
  if negb (n =? 1) then printf_missing (str ": preempt read error") (* return *) else
  do (Sclose pfds.1);;
  printf (str "kill... ") [];;
  do (Skill pid1);;
  do (Skill pid2);;
  do (Skill pid3);;
  printf (str "wait... ") [];;
  do Swait;;
  do Swait;;
  do Swait.

Definition exitwait (s : list Z) : M ust unit :=
  for_n 100 (fun i =>
    pid ← fork;
    fail_if (pid <? 0) (line "%s: fork failed") [sa s];;
    if negb (pid =? 0) then
      '(wpid, xstate) ← wait;
      fail_if (negb (wpid =? pid)) (line "%s: wait wrong pid") [sa s];;
      fail_if (negb (i =? xstate)) (line "%s: wait wrong exit status") [sa s]
    else uexit i).

Definition reparent (s : list Z) : M ust unit :=
  master_pid ← call Sgetpid;
  for_n 200 (fun _ =>
    pid ← fork;
    fail_if (pid <? 0) (line "%s: fork failed") [sa s];;
    if negb (pid =? 0) then
      wpid ← call Swait;
      fail_if (negb (wpid =? pid)) (line "%s: wait wrong pid") [sa s]
    else
      pid2 ← fork;
      when (pid2 <? 0) (do (Skill master_pid);; uexit 1);;
      uexit 0);;
  uexit 0.

Definition twochildren (s : list Z) : M ust unit :=
  for_n 1000 (fun _ =>
    pid1 ← fork;
    fail_if (pid1 <? 0) (line "%s: fork failed") [sa s];;
    if pid1 =? 0 then uexit 0 else
    pid2 ← fork;
    fail_if (pid2 <? 0) (line "%s: fork failed") [sa s];;
    if pid2 =? 0 then uexit 0 else
    do Swait;;
    do Swait).

Definition forkfork (s : list Z) : M ust unit :=
  for_n 2 (fun _ =>
    pid ← fork;
    fail_if (pid <? 0) (str "%s: fork failed") [sa s];;
    when (pid =? 0) (
      for_n 200 (fun _ =>
        pid1 ← fork;
        when (pid1 <? 0) (uexit 1);;
        when (pid1 =? 0) (uexit 0);;
        do Swait);;
      uexit 0));;
  for_n 2 (fun _ =>
    '(_, xstatus) ← wait;
    fail_if (negb (xstatus =? 0)) (str "%s: fork in child failed") [sa s]).

Definition forkforkfork (s : list Z) : M ust unit :=
  do (Sunlink (str "stopforking"));;
  pid ← fork;
  fail_if (pid <? 0) (str "%s: fork failed") [sa s];;
  when (pid =? 0) (
    loop (fun _ =>
      fd ← call (Sopen (str "stopforking") 0);
      if 0 <=? fd then uexit 0 else
      p ← fork;
      when (p <? 0) (close_open (str "stopforking") O_CRW);;
      mret (inl tt)) tt);;
  do (Ssleep 20);;
  close_open (str "stopforking") O_CRW;;
  do Swait;;
  do (Ssleep 10).

Definition reparent2 (s : list Z) : M ust unit :=
  for_n 800 (fun _ =>
    pid1 ← fork;
    fail_if (pid1 <? 0) (line "fork failed") [];;
    when (pid1 =? 0) (do Sfork;; do Sfork;; uexit 0);;
    do Swait);;
  uexit 0.

(** The loop that forks: its n at the end. *)
Fixpoint fork_up_to (k : nat) (n : Z) : M ust Z :=
  match k with
  | O => mret n
  | S k' =>
      pid ← fork;
      if pid <? 0 then mret n else
      if pid =? 0 then uexit 0 else
      fork_up_to k' (n + 1)
  end.

Definition forktest (s : list Z) : M ust unit :=
  n ← fork_up_to (Z.to_nat 1000) 0;
  fail_if (n =? 0) (line "%s: no fork at all!") [sa s];;
  fail_if (n =? 1000) (line "%s: fork claimed to work 1000 times!") [sa s];;
  for_n n (fun _ =>
    w ← call Swait;
    fail_if (w <? 0) (line "%s: wait stopped early") [sa s]);;
  w ← call Swait;
  fail_if (negb (w =? -1)) (line "%s: wait got too many") [sa s].

End UtProc.
