(* ===== verification/UtFile.v ===== *)
(** * user/usertests.c: tests of files and directories *)

From Stdlib Require Import ZArith Lia.
From stdpp Require Import base list strings.
From S2P Require Import Prelude KString User Ulib Programs UtBase.

Module UtFile.

(** The global buf at the start of a test. *)
Definition buf0 : list Z := replicate (Z.to_nat BUFSZ) 0.

(** ** O_TRUNC *)

Definition truncate1 (s : list Z) : M ust unit :=
  do (Sunlink (str "truncfile"));;
  fd1 ← call (Sopen (str "truncfile") O_CTW);
  do (Swrite fd1 (str "abcd"));;
  do (Sclose fd1);;
  fd2 ← call (Sopen (str "truncfile") O_RDONLY);
  n ← call (Sread fd2 32);
  fail_if (negb (n =? 4)) (line "%s: read %d bytes, wanted 4") [sa s; UInt n];;
  fd1 ← call (Sopen (str "truncfile") (Z.lor O_WRONLY O_TRUNC));
  fd3 ← call (Sopen (str "truncfile") O_RDONLY);
  n ← call (Sread fd3 32);
  when (negb (n =? 0)) (
    printf (line "aaa fd3=%d") [UInt fd3];;
    die (line "%s: read %d bytes, wanted 0") [sa s; UInt n]);;
  n ← call (Sread fd2 32);
  when (negb (n =? 0)) (
    printf (line "bbb fd2=%d") [UInt fd2];;
    die (line "%s: read %d bytes, wanted 0") [sa s; UInt n]);;
  do (Swrite fd1 (str "abcdef"));;
  n ← call (Sread fd3 32);
  fail_if (negb (n =? 6)) (line "%s: read %d bytes, wanted 6") [sa s; UInt n];;
  n ← call (Sread fd2 32);
  fail_if (negb (n =? 2)) (line "%s: read %d bytes, wanted 2") [sa s; UInt n];;
  do (Sunlink (str "truncfile"));;
  do (Sclose fd1);;
  do (Sclose fd2);;
  do (Sclose fd3).

Definition truncate2 (s : list Z) : M ust unit :=
  do (Sunlink (str "truncfile"));;
  fd1 ← call (Sopen (str "truncfile") O_CTW);
  do (Swrite fd1 (str "abcd"));;
  fd2 ← call (Sopen (str "truncfile") (Z.lor O_TRUNC O_WRONLY));
  n ← call (Swrite fd1 (str "x"));
  fail_if (negb (n =? -1)) (line "%s: write returned %d, expected -1") [sa s; UInt n];;
  do (Sunlink (str "truncfile"));;
  do (Sclose fd1);;
  do (Sclose fd2).

Definition truncate3 (s : list Z) : M ust unit :=
  close_open (str "truncfile") O_CTW;;
  pid ← fork;
  fail_if (pid <? 0) (line "%s: fork failed") [sa s];;
  when (pid =? 0) (
    for_n 100 (fun _ =>
      fd ← call (Sopen (str "truncfile") O_WRONLY);
      fail_if (fd <? 0) (line "%s: open failed") [sa s];;
      n ← call (Swrite fd (str "1234567890"));
      fail_if (negb (n =? 10)) (line "%s: write got %d, expected 10") [sa s; UInt n];;
      do (Sclose fd);;
      fd ← call (Sopen (str "truncfile") O_RDONLY);
      do (Sread fd 32);;
      do (Sclose fd));;
    uexit 0);;
  for_n 150 (fun _ =>
    fd ← call (Sopen (str "truncfile") O_CTW);
    fail_if (fd <? 0) (line "%s: open failed") [sa s];;
    n ← call (Swrite fd (str "xxx"));
    fail_if (negb (n =? 3)) (line "%s: write got %d, expected 3") [sa s; UInt n];;
    do (Sclose fd));;
  '(_, xstatus) ← wait;
  do (Sunlink (str "truncfile"));;
  uexit xstatus.

(** ** iput() in a transaction *)

Definition iputtest (s : list Z) : M ust unit :=
  r ← call (Smkdir (str "iputdir"));
  fail_if (r <? 0) (line "%s: mkdir failed") [sa s];;
  r ← call (Schdir (str "iputdir"));
  fail_if (r <? 0) (line "%s: chdir iputdir failed") [sa s];;
  r ← call (Sunlink (str "../iputdir"));
  fail_if (r <? 0) (line "%s: unlink ../iputdir failed") [sa s];;
  r ← call (Schdir (str "/"));
  fail_if (r <? 0) (line "%s: chdir / failed") [sa s].

Definition exitiputtest (s : list Z) : M ust unit :=
  pid ← fork;
  fail_if (pid <? 0) (line "%s: fork failed") [sa s];;
  when (pid =? 0) (
    r ← call (Smkdir (str "iputdir"));
    fail_if (r <? 0) (line "%s: mkdir failed") [sa s];;
    r ← call (Schdir (str "iputdir"));
    fail_if (r <? 0) (line "%s: child chdir failed") [sa s];;
    r ← call (Sunlink (str "../iputdir"));
    fail_if (r <? 0) (line "%s: unlink ../iputdir failed") [sa s];;
    uexit 0);;
  '(_, xstatus) ← wait;
  uexit xstatus.

Definition openiputtest (s : list Z) : M ust unit :=
  r ← call (Smkdir (str "oidir"));
  fail_if (r <? 0) (line "%s: mkdir oidir failed") [sa s];;
  pid ← fork;
  fail_if (pid <? 0) (line "%s: fork failed") [sa s];;
  when (pid =? 0) (
    fd ← call (Sopen (str "oidir") O_RDWR);
    fail_if (0 <=? fd) (line "%s: open directory for write succeeded") [sa s];;
    uexit 0);;
  do (Ssleep 1);;
  r ← call (Sunlink (str "oidir"));
  fail_if (negb (r =? 0)) (line "%s: unlink failed") [sa s];;
  '(_, xstatus) ← wait;
  uexit xstatus.

(** ** Simple tests of files *)

Definition opentest (s : list Z) : M ust unit :=
  fd ← call (Sopen (str "echo") 0);
  fail_if (fd <? 0) (line "%s: open echo failed!") [sa s];;
  do (Sclose fd);;
  fd ← call (Sopen (str "doesnotexist") 0);
  fail_if (0 <=? fd) (line "%s: open doesnotexist succeeded!") [sa s].

Definition writetest (s : list Z) : M ust unit :=
  let SZ := 10 in
  let N := 100 in
  fd ← call (Sopen (str "small") O_CRW);
  fail_if (fd <? 0) (line "%s: error: creat small failed!") [sa s];;
  for_n N (fun i =>
    w ← call (Swrite fd (str "aaaaaaaaaa"));
    when (negb (w =? SZ)) (
      g ← undet; printf_at i (line ": error: write aa %d new file failed") [UInt g];; uexit 1);;
    w ← call (Swrite fd (str "bbbbbbbbbb"));
    when (negb (w =? SZ)) (
      g ← undet; printf_at i (line ": error: write bb %d new file failed") [UInt g];; uexit 1));;
  do (Sclose fd);;
  fd ← call (Sopen (str "small") O_RDONLY);
  fail_if (fd <? 0) (line "%s: error: open small failed!") [sa s];;
  i ← call (Sread fd (N * SZ * 2));
  fail_if (negb (i =? N * SZ * 2)) (line "%s: read failed") [sa s];;
  do (Sclose fd);;
  r ← call (Sunlink (str "small"));
  fail_if (r <? 0) (line "%s: unlink small failed") [sa s].

(** ((int* )buf)[0] *)
Definition first_int (buf : list Z) : Z := i32 (get_le 4 buf 0).

(** The loop of writebig that reads the file again. *)
Definition writebig_turn (fd : Z) (a : list Z * Z) : M ust ((list Z * Z) + unit) :=
  let '(buf, n) := a in
  r ← sys (Sread fd BSIZE);
  let i := ret r in
  let buf := into buf BSIZE r in
  if i =? 0 then
    when (n =? MAXFILE - 1) (
      g ← undet; printf_at n (str ": read only %d blocks from big") [UInt g];; uexit 1);;
    mret (inr tt)
  else if negb (i =? BSIZE) then
    g ← undet; printf_at i (line ": read failed %d") [UInt g];; uexit 1
  else if negb (first_int buf =? n) then
    g ← undet; printf_at n (line ": read content of block %d is %d") [UInt (first_int buf); UInt g];; uexit 1
  else mret (inl (buf, n + 1)).

Definition writebig (s : list Z) : M ust unit :=
  fd ← call (Sopen (str "big") O_CRW);
  fail_if (fd <? 0) (line "%s: error: creat big failed!") [sa s];;
  for_n MAXFILE (fun i =>
    w ← call (Swrite fd (put_le 4 (take (Z.to_nat BSIZE) buf0) 0 i));
    when (negb (w =? BSIZE)) (printf_at i (line ": error: write big file failed") [];; uexit 1));;
  do (Sclose fd);;
  fd ← call (Sopen (str "big") O_RDONLY);
  fail_if (fd <? 0) (line "%s: error: open big failed!") [sa s];;
  loop (writebig_turn fd) (put_le 4 buf0 0 (MAXFILE - 1), 0);;
  do (Sclose fd);;
  r ← call (Sunlink (str "big"));
  fail_if (r <? 0) (line "%s: unlink big failed") [sa s].

Definition createtest (s : list Z) : M ust unit :=
  for_n 52 (fun i =>
    fd ← call (Sopen [97; 48 + i] O_CRW);
    do (Sclose fd));;
  for_n 52 (fun i => do (Sunlink [97; 48 + i])).

Definition dirtest (s : list Z) : M ust unit :=
  printf (line "mkdir test") [];;
  r ← call (Smkdir (str "dir0"));
  fail_if (r <? 0) (line "%s: mkdir failed") [sa s];;
  r ← call (Schdir (str "dir0"));
  fail_if (r <? 0) (line "%s: chdir dir0 failed") [sa s];;
  r ← call (Schdir (str ".."));
  fail_if (r <? 0) (line "%s: chdir .. failed") [sa s];;
  r ← call (Sunlink (str "dir0"));
  fail_if (r <? 0) (line "%s: unlink dir0 failed") [sa s];;
  p ← undet;
  printf_at p (line ": mkdir test ok") [].

(** ** Several processes *)

(** The loop of sharedfd that reads the file again, over buf, nc and np. *)
Definition sharedfd_turn (fd SZ : Z) (a : list Z * Z * Z) : M ust ((list Z * Z * Z) + (Z * Z)) :=
  let '(buf, nc, np) := a in
  r ← sys (Sread fd SZ);
  if ret r <=? 0 then mret (inr (nc, np)) else
  let buf := into buf SZ r in
  let count c := Z.of_nat (length (filter (fun b => b = c) buf)) in
  mret (inl (buf, nc + count 99, np + count 112)).

Definition sharedfd (s : list Z) : M ust unit :=
  let N := 1000 in
  let SZ := 10 in
  do (Sunlink (str "sharedfd"));;
  fd ← call (Sopen (str "sharedfd") O_CRW);
  fail_if (fd <? 0) (str "%s: cannot open sharedfd for writing") [sa s];;
  pid ← fork;
  let buf := replicate (Z.to_nat SZ) (if pid =? 0 then 99 else 112) in
  for_n N (fun _ =>
    w ← call (Swrite fd buf);
    fail_if (negb (w =? SZ)) (line "%s: write sharedfd failed") [sa s]);;
  (if pid =? 0 then uexit 0
   else
     '(_, xstatus) ← wait;
     when (negb (xstatus =? 0)) (uexit xstatus));;
  do (Sclose fd);;
  fd ← call (Sopen (str "sharedfd") 0);
  fail_if (fd <? 0) (line "%s: cannot open sharedfd for reading") [sa s];;
  '(nc, np) ← loop (sharedfd_turn fd SZ) (buf, 0, 0);
  do (Sclose fd);;
  do (Sunlink (str "sharedfd"));;
  if (nc =? N * SZ) && (np =? N * SZ) then uexit 0
  else die (line "%s: nc/np test fails") [sa s].

Definition fname (pi : Z) : list Z := [102; 48 + pi].

(** The loop of fourfiles that reads file [i] again, over buf and total. *)
Definition fourfiles_turn (s : list Z) (fd i : Z) (a : list Z * Z) : M ust ((list Z * Z) + Z) :=
  let '(buf, total) := a in
  r ← sys (Sread fd BUFSZ);
  let n := ret r in
  if n <=? 0 then mret (inr total) else
  let buf := into buf BUFSZ r in
  if negb (forallb (fun b => b =? 48 + i) (take (Z.to_nat n) buf)) then die (line "wrong char") [sa s]
  else mret (inl (buf, total + n)).

Definition fourfiles (s : list Z) : M ust unit :=
  let N := 12 in
  let NCHILD := 4 in
  let SZ := 500 in
  for_n NCHILD (fun pi =>
    do (Sunlink (fname pi));;
    pid ← fork;
    fail_if (pid <? 0) (line "fork failed") [sa s];;
    when (pid =? 0) (
      fd ← call (Sopen (fname pi) O_CRW);
      fail_if (fd <? 0) (line "create failed") [sa s];;
      let buf := replicate (Z.to_nat SZ) (48 + pi) in
      for_n N (fun _ =>
        n ← call (Swrite fd buf);
        fail_if (negb (n =? SZ)) (line "write failed %d") [UInt n]);;
      uexit 0));;
  for_n NCHILD (fun _ =>
    '(_, xstatus) ← wait;
    when (negb (xstatus =? 0)) (uexit xstatus));;
  for_n NCHILD (fun i =>
    fd ← call (Sopen (fname i) 0);
    total ← loop (fourfiles_turn s fd i) (buf0, 0);
    do (Sclose fd);;
    fail_if (negb (total =? N * SZ)) (line "wrong length %d") [UInt total];;
    do (Sunlink (fname i))).

Definition createdelete (s : list Z) : M ust unit :=
  let N := 20 in
  let NCHILD := 4 in
  for_n NCHILD (fun pi =>
    pid ← fork;
    fail_if (pid <? 0) (line "fork failed") [sa s];;
    when (pid =? 0) (
      for_n N (fun i =>
        fd ← call (Sopen [112 + pi; 48 + i] O_CRW);
        fail_if (fd <? 0) (line "%s: create failed") [sa s];;
        do (Sclose fd);;
        when ((0 <? i) && (i mod 2 =? 0)) (
          r ← call (Sunlink [112 + pi; 48 + i / 2]);
          fail_if (r <? 0) (line "%s: unlink failed") [sa s]));;
      uexit 0));;
  for_n NCHILD (fun _ =>
    '(_, xstatus) ← wait;
    when (negb (xstatus =? 0)) (uexit 1));;
  for_n N (fun i =>
    for_n NCHILD (fun pi =>
      let name := [112 + pi; 48 + i] in
      fd ← call (Sopen name 0);
      (if ((i =? 0) || (N / 2 <=? i)) && (fd <? 0) then
         die (line "%s: oops createdelete %s didn't exist") [sa s; sa name]
       else fail_if ((1 <=? i) && (i <? N / 2) && (0 <=? fd))
              (line "%s: oops createdelete %s did exist") [sa s; sa name]);;
      when (0 <=? fd) (do (Sclose fd))));;
  for_n N (fun i =>
    for_n NCHILD (fun _ => do (Sunlink [112 + i; 48 + i]))).

(** ** Links *)

Definition unlinkread (s : list Z) : M ust unit :=
  let SZ := 5 in
  fd ← call (Sopen (str "unlinkread") O_CRW);
  fail_if (fd <? 0) (line "%s: create unlinkread failed") [sa s];;
  do (Swrite fd (str "hello"));;
  do (Sclose fd);;
  fd ← call (Sopen (str "unlinkread") O_RDWR);
  fail_if (fd <? 0) (line "%s: open unlinkread failed") [sa s];;
  r ← call (Sunlink (str "unlinkread"));
  fail_if (negb (r =? 0)) (line "%s: unlink unlinkread failed") [sa s];;
  fd1 ← call (Sopen (str "unlinkread") O_CRW);
  do (Swrite fd1 (str "yyy"));;
  do (Sclose fd1);;
  r ← sys (Sread fd BUFSZ);
  let buf := into buf0 BUFSZ r in
  fail_if (negb (ret r =? SZ)) (str "%s: unlinkread read failed") [sa s];;
  fail_if (negb (default 0 (head buf) =? 104)) (line "%s: unlinkread wrong data") [sa s];;
  w ← call (Swrite fd (take 10 buf));
  fail_if (negb (w =? 10)) (line "%s: unlinkread write failed") [sa s];;
  do (Sclose fd);;
  do (Sunlink (str "unlinkread")).

Definition linktest (s : list Z) : M ust unit :=
  let SZ := 5 in
  do (Sunlink (str "lf1"));;
  do (Sunlink (str "lf2"));;
  fd ← call (Sopen (str "lf1") O_CRW);
  fail_if (fd <? 0) (line "%s: create lf1 failed") [sa s];;
  w ← call (Swrite fd (str "hello"));
  fail_if (negb (w =? SZ)) (line "%s: write lf1 failed") [sa s];;
  do (Sclose fd);;
  r ← call (Slink (str "lf1") (str "lf2"));
  fail_if (r <? 0) (line "%s: link lf1 lf2 failed") [sa s];;
  do (Sunlink (str "lf1"));;
  r ← call (Sopen (str "lf1") 0);
  fail_if (0 <=? r) (line "%s: unlinked lf1 but it is still there!") [sa s];;
  fd ← call (Sopen (str "lf2") 0);
  fail_if (fd <? 0) (line "%s: open lf2 failed") [sa s];;
  n ← call (Sread fd BUFSZ);
  fail_if (negb (n =? SZ)) (line "%s: read lf2 failed") [sa s];;
  do (Sclose fd);;
  r ← call (Slink (str "lf2") (str "lf2"));
  fail_if (0 <=? r) (line "%s: link lf2 lf2 succeeded! oops") [sa s];;
  do (Sunlink (str "lf2"));;
  r ← call (Slink (str "lf2") (str "lf1"));
  fail_if (0 <=? r) (line "%s: link non-existant succeeded! oops") [sa s];;
  r ← call (Slink (str ".") (str "lf1"));
  fail_if (0 <=? r) (line "%s: link . lf1 succeeded! oops") [sa s].

(** The loop of concreate over the directory: de, fa and n. *)
Definition concreate_turn (s : list Z) (fd : Z) (a : list Z * list bool * Z) :
    M ust ((list Z * list bool * Z) + Z) :=
  let '(de, fa, n) := a in
  r ← sys (Sread fd 16);
  if ret r <=? 0 then mret (inr n) else
  let de := into de 16 r in
  let name := drop 2 de in
  if de_inum de =? 0 then mret (inl (de, fa, n)) else
  if (default 0 (name !! 0%nat) =? 67) && (default 0 (name !! 2%nat) =? 0) then
    let i := default 0 (name !! 1%nat) - 48 in
    if (i <? 0) || (Z.of_nat (length fa) <=? i) then
      die (line "%s: concreate weird file %s") [sa s; sa (until_nul name)]
    else if default false (fa !! Z.to_nat i) then
      die (line "%s: concreate duplicate file %s") [sa s; sa (until_nul name)]
    else mret (inl (de, <[Z.to_nat i := true]> fa, n + 1))
  else mret (inl (de, fa, n)).

Definition concreate (s : list Z) : M ust unit :=
  let N := 40 in
  let file i := [67; 48 + i] in
  for_n N (fun i =>
    do (Sunlink (file i));;
    pid ← fork;
    (if negb (pid =? 0) && (i mod 3 =? 1) then do (Slink (str "C0") (file i))
     else if (pid =? 0) && (i mod 5 =? 1) then do (Slink (str "C0") (file i))
     else
       fd ← call (Sopen (file i) O_CRW);
       fail_if (fd <? 0) (line "concreate create %s failed") [sa (file i)];;
       do (Sclose fd));;
    if pid =? 0 then uexit 0 else
    '(_, xstatus) ← wait;
    when (negb (xstatus =? 0)) (uexit 1));;
  fd ← call (Sopen (str ".") 0);
  n ← loop (concreate_turn s fd) (replicate 16 0, replicate (Z.to_nat N) false, 0);
  do (Sclose fd);;
  fail_if (negb (n =? N)) (line "%s: concreate not enough files in directory listing") [sa s];;
  for_n N (fun i =>
    pid ← fork;
    fail_if (pid <? 0) (line "%s: fork failed") [sa s];;
    (if ((i mod 3 =? 0) && (pid =? 0)) || ((i mod 3 =? 1) && negb (pid =? 0)) then
       close_open (file i) 0;; close_open (file i) 0;; close_open (file i) 0;;
       close_open (file i) 0;; close_open (file i) 0;; close_open (file i) 0
     else
       do (Sunlink (file i));; do (Sunlink (file i));; do (Sunlink (file i));;
       do (Sunlink (file i));; do (Sunlink (file i));; do (Sunlink (file i)));;
    if pid =? 0 then uexit 0 else do Swait).

(** The random operations of linkunlink; [x] is an unsigned int. *)
Fixpoint link_ops (n : nat) (x : Z) : M ust unit :=
  match n with
  | O => mret tt
  | S n' =>
      let x := u32 (x * 1103515245 + 12345) in
      (if x mod 3 =? 0 then close_open (str "x") (Z.lor O_RDWR O_CREATE)
       else if x mod 3 =? 1 then do (Slink (str "cat") (str "x"))
       else do (Sunlink (str "x")));;
      link_ops n' x
  end.

Definition linkunlink (s : list Z) : M ust unit :=
  do (Sunlink (str "x"));;
  pid ← fork;
  fail_if (pid <? 0) (line "%s: fork failed") [sa s];;
  link_ops 100 (if negb (pid =? 0) then 1 else 97);;
  if negb (pid =? 0) then do Swait else uexit 0.

(** ** Directories *)

Definition bigdir (s : list Z) : M ust unit :=
  let N := 500 in
  let name i := [120; 48 + i / 64; 48 + i mod 64] in
  do (Sunlink (str "bd"));;
  fd ← call (Sopen (str "bd") O_CREATE);
  fail_if (fd <? 0) (line "%s: bigdir create failed") [sa s];;
  do (Sclose fd);;
  for_n N (fun i =>
    r ← call (Slink (str "bd") (name i));
    fail_if (negb (r =? 0)) (line "%s: bigdir link(bd, %s) failed") [sa s; sa (name i)]);;
  do (Sunlink (str "bd"));;
  for_n N (fun i =>
    r ← call (Sunlink (name i));
    fail_if (negb (r =? 0)) (str "%s: bigdir unlink failed") [sa s]).

(** A call that must succeed, and one that must not. *)
Definition must (c : sysc) (fmt : string) (s : list Z) : M ust unit :=
  r ← call c; fail_if (negb (r =? 0)) (line fmt) [sa s].
Definition must_fail (c : sysc) (fmt : string) (s : list Z) : M ust unit :=
  r ← call c; fail_if (r =? 0) (line fmt) [sa s].
Definition no_open (path : string) (mode : Z) (fmt : string) (s : list Z) : M ust unit :=
  fd ← call (Sopen (str path) mode); fail_if (0 <=? fd) (line fmt) [sa s].

(** subdir() up to the changes of the directory. *)
Definition subdir_files (s : list Z) : M ust unit :=
  do (Sunlink (str "ff"));;
  must (Smkdir (str "dd")) "%s: mkdir dd failed" s;;
  fd ← call (Sopen (str "dd/ff") O_CRW);
  fail_if (fd <? 0) (line "%s: create dd/ff failed") [sa s];;
  do (Swrite fd (str "ff"));;
  do (Sclose fd);;
  r ← call (Sunlink (str "dd"));
  fail_if (0 <=? r) (line "%s: unlink dd (non-empty dir) succeeded!") [sa s];;
  must (Smkdir (str "/dd/dd")) "subdir mkdir dd/dd failed" s;;
  fd ← call (Sopen (str "dd/dd/ff") O_CRW);
  fail_if (fd <? 0) (line "%s: create dd/dd/ff failed") [sa s];;
  do (Swrite fd (str "FF"));;
  do (Sclose fd);;
  fd ← call (Sopen (str "dd/dd/../ff") 0);
  fail_if (fd <? 0) (line "%s: open dd/dd/../ff failed") [sa s];;
  r ← sys (Sread fd BUFSZ);
  fail_if (negb (ret r =? 2) || negb (default 0 (head (into buf0 BUFSZ r)) =? 102))
    (line "%s: dd/dd/../ff wrong content") [sa s];;
  do (Sclose fd);;
  must (Slink (str "dd/dd/ff") (str "dd/dd/ffff")) "link dd/dd/ff dd/dd/ffff failed" s;;
  must (Sunlink (str "dd/dd/ff")) "%s: unlink dd/dd/ff failed" s;;
  no_open "dd/dd/ff" O_RDONLY "%s: open (unlinked) dd/dd/ff succeeded" s.

(** The rest of subdir(). *)
Definition subdir_paths (s : list Z) : M ust unit :=
  must (Schdir (str "dd")) "%s: chdir dd failed" s;;
  must (Schdir (str "dd/../../dd")) "%s: chdir dd/../../dd failed" s;;
  must (Schdir (str "dd/../../../dd")) "chdir dd/../../dd failed" s;;
  must (Schdir (str "./..")) "%s: chdir ./.. failed" s;;
  fd ← call (Sopen (str "dd/dd/ffff") 0);
  fail_if (fd <? 0) (line "%s: open dd/dd/ffff failed") [sa s];;
  n ← call (Sread fd BUFSZ);
  fail_if (negb (n =? 2)) (line "%s: read dd/dd/ffff wrong len") [sa s];;
  do (Sclose fd);;
  no_open "dd/dd/ff" O_RDONLY "%s: open (unlinked) dd/dd/ff succeeded!" s;;
  no_open "dd/ff/ff" O_CRW "%s: create dd/ff/ff succeeded!" s;;
  no_open "dd/xx/ff" O_CRW "%s: create dd/xx/ff succeeded!" s;;
  no_open "dd" O_CREATE "%s: create dd succeeded!" s;;
  no_open "dd" O_RDWR "%s: open dd rdwr succeeded!" s;;
  no_open "dd" O_WRONLY "%s: open dd wronly succeeded!" s;;
  must_fail (Slink (str "dd/ff/ff") (str "dd/dd/xx")) "%s: link dd/ff/ff dd/dd/xx succeeded!" s;;
  must_fail (Slink (str "dd/xx/ff") (str "dd/dd/xx")) "%s: link dd/xx/ff dd/dd/xx succeeded!" s;;
  must_fail (Slink (str "dd/ff") (str "dd/dd/ffff")) "%s: link dd/ff dd/dd/ffff succeeded!" s;;
  must_fail (Smkdir (str "dd/ff/ff")) "%s: mkdir dd/ff/ff succeeded!" s;;
  must_fail (Smkdir (str "dd/xx/ff")) "%s: mkdir dd/xx/ff succeeded!" s;;
  must_fail (Smkdir (str "dd/dd/ffff")) "%s: mkdir dd/dd/ffff succeeded!" s;;
  must_fail (Sunlink (str "dd/xx/ff")) "%s: unlink dd/xx/ff succeeded!" s;;
  must_fail (Sunlink (str "dd/ff/ff")) "%s: unlink dd/ff/ff succeeded!" s;;
  must_fail (Schdir (str "dd/ff")) "%s: chdir dd/ff succeeded!" s;;
  must_fail (Schdir (str "dd/xx")) "%s: chdir dd/xx succeeded!" s;;
  must (Sunlink (str "dd/dd/ffff")) "%s: unlink dd/dd/ff failed" s;;
  must (Sunlink (str "dd/ff")) "%s: unlink dd/ff failed" s;;
  must_fail (Sunlink (str "dd")) "%s: unlink non-empty dd succeeded!" s;;
  r ← call (Sunlink (str "dd/dd"));
  fail_if (r <? 0) (line "%s: unlink dd/dd failed") [sa s];;
  r ← call (Sunlink (str "dd"));
  fail_if (r <? 0) (line "%s: unlink dd failed") [sa s].

Definition subdir (s : list Z) : M ust unit := subdir_files s;; subdir_paths s.

Definition fourteen (s : list Z) : M ust unit :=
  must (Smkdir (str "12345678901234")) "%s: mkdir 12345678901234 failed" s;;
  must (Smkdir (str "12345678901234/123456789012345")) "%s: mkdir 12345678901234/123456789012345 failed" s;;
  fd ← call (Sopen (str "123456789012345/123456789012345/123456789012345") O_CREATE);
  fail_if (fd <? 0) (line "%s: create 123456789012345/123456789012345/123456789012345 failed") [sa s];;
  do (Sclose fd);;
  fd ← call (Sopen (str "12345678901234/12345678901234/12345678901234") 0);
  fail_if (fd <? 0) (line "%s: open 12345678901234/12345678901234/12345678901234 failed") [sa s];;
  do (Sclose fd);;
  must_fail (Smkdir (str "12345678901234/12345678901234")) "%s: mkdir 12345678901234/12345678901234 succeeded!" s;;
  must_fail (Smkdir (str "123456789012345/12345678901234")) "%s: mkdir 12345678901234/123456789012345 succeeded!" s;;
  do (Sunlink (str "123456789012345/12345678901234"));;
  do (Sunlink (str "12345678901234/12345678901234"));;
  do (Sunlink (str "12345678901234/12345678901234/12345678901234"));;
  do (Sunlink (str "123456789012345/123456789012345/123456789012345"));;
  do (Sunlink (str "12345678901234/123456789012345"));;
  do (Sunlink (str "12345678901234")).

Definition rmdot (s : list Z) : M ust unit :=
  must (Smkdir (str "dots")) "%s: mkdir dots failed" s;;
  must (Schdir (str "dots")) "%s: chdir dots failed" s;;
  must_fail (Sunlink (str ".")) "%s: rm . worked!" s;;
  must_fail (Sunlink (str "..")) "%s: rm .. worked!" s;;
  must (Schdir (str "/")) "%s: chdir / failed" s;;
  must_fail (Sunlink (str "dots/.")) "%s: unlink dots/. worked!" s;;
  must_fail (Sunlink (str "dots/..")) "%s: unlink dots/.. worked!" s;;
  must (Sunlink (str "dots")) "%s: unlink dots failed!" s.

Definition dirfile (s : list Z) : M ust unit :=
  fd ← call (Sopen (str "dirfile") O_CREATE);
  fail_if (fd <? 0) (line "%s: create dirfile failed") [sa s];;
  do (Sclose fd);;
  must_fail (Schdir (str "dirfile")) "%s: chdir dirfile succeeded!" s;;
  no_open "dirfile/xx" 0 "%s: create dirfile/xx succeeded!" s;;
  no_open "dirfile/xx" O_CREATE "%s: create dirfile/xx succeeded!" s;;
  must_fail (Smkdir (str "dirfile/xx")) "%s: mkdir dirfile/xx succeeded!" s;;
  must_fail (Sunlink (str "dirfile/xx")) "%s: unlink dirfile/xx succeeded!" s;;
  must_fail (Slink (str "README") (str "dirfile/xx")) "%s: link to dirfile/xx succeeded!" s;;
  must (Sunlink (str "dirfile")) "%s: unlink dirfile failed!" s;;
  no_open "." O_RDWR "%s: open . for writing succeeded!" s;;
  fd ← call (Sopen (str ".") 0);
  w ← call (Swrite fd (str "x"));
  fail_if (0 <? w) (line "%s: write . succeeded!") [sa s];;
  do (Sclose fd).

Definition iref (s : list Z) : M ust unit :=
  for_n (NINODE + 1) (fun _ =>
    must (Smkdir (str "irefd")) "%s: mkdir irefd failed" s;;
    must (Schdir (str "irefd")) "%s: chdir irefd failed" s;;
    do (Smkdir []);;
    do (Slink (str "README") []);;
    fd ← call (Sopen [] O_CREATE);
    when (0 <=? fd) (do (Sclose fd));;
    fd ← call (Sopen (str "xx") O_CREATE);
    when (0 <=? fd) (do (Sclose fd));;
    do (Sunlink (str "xx")));;
  for_n (NINODE + 1) (fun _ =>
    do (Schdir (str ".."));;
    do (Sunlink (str "irefd")));;
  do (Schdir (str "/")).

(** ** Large files *)

Definition bigwrite (s : list Z) : M ust unit :=
  do (Sunlink (str "bigwrite"));;
  for_n ((BUFSZ - 499 + 471 - 1) / 471) (fun k =>
    let sz := 499 + 471 * k in
    fd ← call (Sopen (str "bigwrite") O_CRW);
    fail_if (fd <? 0) (line "%s: cannot create bigwrite") [sa s];;
    for_n 2 (fun _ =>
      cc ← call (Swrite fd (take (Z.to_nat sz) buf0));
      fail_if (negb (cc =? sz)) (line "%s: write(%d) ret %d") [sa s; UInt sz; UInt cc]);;
    do (Sclose fd);;
    do (Sunlink (str "bigwrite"))).

(** The loop of bigfile that reads the file again, over buf, i and total. *)
Definition bigfile_turn (s : list Z) (fd SZ : Z) (a : list Z * Z * Z) : M ust ((list Z * Z * Z) + Z) :=
  let '(buf, i, total) := a in
  r ← sys (Sread fd (SZ / 2));
  let cc := ret r in
  let buf := into buf (SZ / 2) r in
  if cc <? 0 then die (line "%s: read bigfile failed") [sa s]
  else if cc =? 0 then mret (inr total)
  else if negb (cc =? SZ / 2) then die (line "%s: short read bigfile") [sa s]
  else if negb (default 0 (buf !! 0%nat) =? i / 2) ||
          negb (default 0 (buf !! Z.to_nat (SZ / 2 - 1)) =? i / 2) then
    die (line "%s: read bigfile wrong data") [sa s]
  else mret (inl (buf, i + 1, total + cc)).

Definition bigfile (s : list Z) : M ust unit :=
  let N := 20 in
  let SZ := 600 in
  do (Sunlink (str "bigfile.dat"));;
  fd ← call (Sopen (str "bigfile.dat") O_CRW);
  fail_if (fd <? 0) (str "%s: cannot create bigfile") [sa s];;
  for_n N (fun i =>
    w ← call (Swrite fd (replicate (Z.to_nat SZ) i));
    fail_if (negb (w =? SZ)) (line "%s: write bigfile failed") [sa s]);;
  do (Sclose fd);;
  fd ← call (Sopen (str "bigfile.dat") 0);
  fail_if (fd <? 0) (line "%s: cannot open bigfile") [sa s];;
  total ← loop (bigfile_turn s fd SZ) (replicate (Z.to_nat SZ) (N - 1) ++ drop (Z.to_nat SZ) buf0, 0, 0);
  do (Sclose fd);;
  fail_if (negb (total =? N * SZ)) (line "%s: read bigfile wrong total") [sa s];;
  do (Sunlink (str "bigfile.dat")).

(** The file names of fsfull. *)
Definition fs_name (nfiles : Z) : list Z :=
  u8 <$> [102; 48 + nfiles / 1000; 48 + nfiles mod 1000 / 100; 48 + nfiles mod 100 / 10; 48 + nfiles mod 10].

(** The second %s of two of its printf() has no argument. *)
Definition fsfull : M ust unit :=
  printf (line "fsfull test") [];;
  nfiles ← loop (fun nfiles =>
    let name := until_nul (fs_name nfiles) in
    printf (str "%s: writing ") [sa name];;
    p ← undet;
    printf_at p [newline] [];;
    fd ← call (Sopen name O_CRW);
    if fd <? 0 then
      printf (str "%s: open ") [sa name];;
      p ← undet;
      printf_at p (line " failed") [];;
      mret (inr nfiles)
    else
    total ← loop (fun total =>
      cc ← call (Swrite fd (take (Z.to_nat BSIZE) buf0));
      if cc <? BSIZE then mret (inr total) else mret (inl (total + cc))) 0;
    g ← undet;
    printf_at total (line ": wrote %d bytes") [UInt g];;
    do (Sclose fd);;
    if total =? 0 then mret (inr nfiles) else mret (inl (nfiles + 1))) 0;
  for_n (nfiles + 1) (fun k => do (Sunlink (until_nul (fs_name (nfiles - k)))));;
  printf (line "fsfull test finished") [].

Definition badwrite (s : list Z) : M ust unit :=
  let assumed_free := 600 in
  do (Sunlink (str "junk"));;
  for_n assumed_free (fun _ =>
    fd ← call (Sopen (str "junk") O_CW);
    fail_if (fd <? 0) (line "open junk failed") [];;
    do (Sraw SYS_write [Num fd; Num 1099511627775; Num 1]);;
    do (Sclose fd);;
    do (Sunlink (str "junk")));;
  fd ← call (Sopen (str "junk") O_CW);
  fail_if (fd <? 0) (line "open junk failed") [];;
  w ← call (Swrite fd (str "x"));
  fail_if (negb (w =? 1)) (line "write failed") [];;
  do (Sclose fd);;
  do (Sunlink (str "junk"));;
  uexit 0.

End UtFile.
