(* ===== verification/Usertests.v ===== *)
(** * user/usertests.c: the test runner

    run() and main(), with the table of the tests.  [base], [fuel] and [uninit] belong to the tests
    of malloc() and of the bss (UtMem.v). *)

From Stdlib Require Import ZArith Lia.
From stdpp Require Import base list strings.
From S2P Require Import Prelude KString User Ulib Programs UtBase UtMem UtProc UtFile.

Module Usertests.

Definition test : Type := (list Z -> M ust unit) * list Z.

(** The value is true if the status of the child is 0. *)
Definition run (f : list Z -> M ust unit) (s : list Z) : M ust bool :=
  printf (str "test %s: ") [sa s];;
  pid ← fork;
  fail_if (pid <? 0) (line "runtest: fork error") [];;
  if pid =? 0 then
    f s;;
    uexit 0
  else
    '(_, xstatus) ← wait;
    (if negb (xstatus =? 0) then printf (line "FAILED") [] else printf (line "OK") []);;
    mret (xstatus =? 0).

Section main.
Context (base : Z) (fuel : nat) (uninit : list Z).

Definition tests : list test :=
  [(UtMem.execout, str "execout"); (UtMem.copyin, str "copyin"); (UtMem.copyout, str "copyout");
   (UtMem.copyinstr1, str "copyinstr1"); (UtMem.copyinstr2, str "copyinstr2"); (UtMem.copyinstr3, str "copyinstr3");
   (UtFile.truncate1, str "truncate1"); (UtFile.truncate2, str "truncate2"); (UtFile.truncate3, str "truncate3");
   (UtProc.reparent2, str "reparent2"); (UtMem.pgbug, str "pgbug"); (UtMem.sbrkbugs, str "sbrkbugs");
   (UtMem.badarg, str "badarg"); (UtProc.reparent, str "reparent"); (UtProc.twochildren, str "twochildren");
   (UtProc.forkfork, str "forkfork"); (UtProc.forkforkfork, str "forkforkfork"); (UtMem.argptest, str "argptest");
   (UtFile.createdelete, str "createdelete"); (UtFile.linkunlink, str "linkunlink"); (UtFile.linktest, str "linktest");
   (UtFile.unlinkread, str "unlinkread"); (UtFile.concreate, str "concreate"); (UtFile.subdir, str "subdir");
   (UtFile.fourfiles, str "fourfiles"); (UtFile.sharedfd, str "sharedfd"); (UtProc.exectest, str "exectest");
   (UtMem.bigargtest, str "bigargtest"); (UtFile.bigwrite, str "bigwrite"); (UtMem.bsstest uninit, str "bsstest");
   (UtMem.sbrkbasic, str "sbrkbasic"); (UtMem.sbrkmuch, str "sbrkmuch"); (UtMem.kernmem, str "kernmem");
   (UtMem.sbrkfail, str "sbrkfail"); (UtMem.sbrkarg, str "sbrkarg"); (UtMem.validatetest, str "validatetest");
   (UtMem.stacktest, str "stacktest"); (UtFile.opentest, str "opentest"); (UtFile.writetest, str "writetest");
   (UtFile.writebig, str "writebig"); (UtFile.createtest, str "createtest"); (UtFile.openiputtest, str "openiput");
   (UtFile.exitiputtest, str "exitiput"); (UtFile.iputtest, str "iput"); (UtMem.mem base fuel, str "mem");
   (UtProc.pipe1, str "pipe1"); (UtProc.preempt, str "preempt"); (UtProc.exitwait, str "exitwait");
   (UtFile.rmdot, str "rmdot"); (UtFile.fourteen, str "fourteen"); (UtFile.bigfile, str "bigfile");
   (UtFile.dirfile, str "dirfile"); (UtFile.iref, str "iref"); (UtProc.forktest, str "forktest");
   (UtFile.bigdir, str "bigdir")].

(** The loop over the tests that stops at the first failure: the variable fail. *)
Fixpoint run_until (l : list test) : M ust bool :=
  match l with
  | [] => mret false
  | t :: l' =>
      ok ← run t.1 t.2;
      if negb ok then mret true else run_until l'
  end.

(** The loop over the tests, or the one with the name [justone]: the variable fail. *)
Fixpoint run_all (justone : option (list Z)) (l : list test) (fail : bool) : M ust bool :=
  match l with
  | [] => mret fail
  | t :: l' =>
      fail ← (if match justone with None => true | Some n => strcmp t.2 n =? 0 end then
                ok ← run t.1 t.2;
                mret (if negb ok then true else fail)
              else mret fail);
      run_all justone l' fail
  end.

(** A turn of the continuous mode. *)
Definition continuous_turn (continuous : Z) (_ : unit) : M ust (unit + unit) :=
  free0 ← UtMem.countfree;
  fail ← run_until tests;
  when fail (
    printf (line "SOME TESTS FAILED") [];;
    when (negb (continuous =? 2)) (uexit 1));;
  free1 ← UtMem.countfree;
  when (free1 <? free0) (
    printf (line "FAILED -- lost %d free pages") [UInt (free0 - free1)];;
    when (negb (continuous =? 2)) (uexit 1));;
  mret (inl tt).

Definition run_continuous (continuous : Z) : M ust unit :=
  printf (line "continuous usertests starting") [];;
  loop (continuous_turn continuous) tt.

Definition run_once (justone : option (list Z)) : M ust unit :=
  printf (line "usertests starting") [];;
  free0 ← UtMem.countfree;
  fail ← run_all justone tests false;
  if fail : bool then die (line "SOME TESTS FAILED") [] else
  free1 ← UtMem.countfree;
  if free1 <? free0 then
    die (line "FAILED -- lost some free pages %d (out of %d)") [UInt free1; UInt free0]
  else
    printf (line "ALL TESTS PASSED") [];;
    uexit 0.

Definition main (argv : list (list Z)) : M ust unit :=
  let argc := length argv in
  let arg := default [] (argv !! 1%nat) in
  if (argc =? 2)%nat && (strcmp arg (str "-c") =? 0) then run_continuous 1
  else if (argc =? 2)%nat && (strcmp arg (str "-C") =? 0) then run_continuous 2
  else if (argc =? 2)%nat && negb (default 0 (head arg) =? 45) then run_once (Some arg)
  else if (1 <? argc)%nat then die (line "Usage: usertests [-c] [testname]") []
  else run_once None.

End main.
End Usertests.
