(* ===== verification/UsertestsProofs.v ===== *)
(** * The tests come to an end, and the runner reports them *)

From Stdlib Require Import ZArith Lia.
From stdpp Require Import base list strings.
From S2P Require Import Prelude KString User Ulib Programs Umalloc UtBase UtMem UtProc UtFile Usertests.

Module UsertestsProofs.
Import UtMem UtProc UtFile Usertests.

(** ** Every test settles *)

Lemma settles_sbrk_bytes sp n i a : settles sp (sbrk_bytes n i a).
Proof. revert i a. induction n; intros; cbn [sbrk_bytes]; settle; done. Qed.
Lemma settles_hogs sp n fd : settles sp (hogs n fd).
Proof. induction n; cbn [hogs]; settle; done. Qed.
Lemma settles_sum_pages sp k a i n : settles sp (sum_pages k a i n).
Proof. revert i n. induction k; intros; cbn [sum_pages]; settle; done. Qed.
Lemma settles_die_a_c sp msg a c : settles sp (die_a_c msg a c).
Proof. unfold die_a_c. settle. Qed.
Lemma settles_take_all sp report : settles sp report -> settles sp (take_all report).
Proof. intros. unfold take_all. settle; done. Qed.
#[local] Hint Resolve settles_sbrk_bytes settles_hogs settles_sum_pages settles_die_a_c settles_take_all : settle.

Lemma settles_countfree sp : settles sp countfree.
Proof. unfold countfree. settle. apply settles_take_all. settle. Qed.
#[local] Hint Resolve settles_countfree : settle.

Lemma settles_pipe1_writes sp n s fd seq : settles sp (pipe1_writes n s fd seq).
Proof. revert seq. induction n; intros; cbn [pipe1_writes]; settle; done. Qed.
Lemma turn_pipe1 sp s fd a : turn sp (pipe1_turn s fd a).
Proof. unfold pipe1_turn. settle. Qed.
Lemma settles_missing sp rest : settles sp (printf_missing rest).
Proof. unfold printf_missing. settle. Qed.
Lemma settles_fork_up_to sp k n : settles sp (fork_up_to k n).
Proof. revert n. induction k; intros; cbn [fork_up_to]; settle; done. Qed.
#[local] Hint Resolve settles_pipe1_writes turn_pipe1 settles_missing settles_fork_up_to : settle.

Lemma turn_writebig sp fd a : turn sp (writebig_turn fd a).
Proof. unfold writebig_turn. settle. Qed.
Lemma turn_sharedfd sp fd SZ a : turn sp (sharedfd_turn fd SZ a).
Proof. unfold sharedfd_turn. settle. Qed.
Lemma turn_fourfiles sp s fd i a : turn sp (fourfiles_turn s fd i a).
Proof. unfold fourfiles_turn. settle. Qed.
Lemma turn_concreate sp s fd a : turn sp (concreate_turn s fd a).
Proof. unfold concreate_turn. settle. Qed.
Lemma turn_bigfile sp s fd SZ a : turn sp (bigfile_turn s fd SZ a).
Proof. unfold bigfile_turn. settle. Qed.
Lemma settles_link_ops sp n x : settles sp (link_ops n x).
Proof. revert x. induction n; intros; cbn [link_ops]; settle; done. Qed.
Lemma settles_must sp c fmt s : settles sp (must c fmt s).
Proof. unfold must. settle. Qed.
Lemma settles_must_fail sp c fmt s : settles sp (must_fail c fmt s).
Proof. unfold must_fail. settle. Qed.
Lemma settles_no_open sp path mode fmt s : settles sp (no_open path mode fmt s).
Proof. unfold no_open. settle. Qed.
#[local] Hint Resolve turn_writebig turn_sharedfd turn_fourfiles turn_concreate turn_bigfile settles_link_ops
  settles_must settles_must_fail settles_no_open : settle.

(** The tests of UtMem.v, but mem(). *)
Lemma settles_mem_tests sp uninit : Forall (fun f => forall s, settles sp (f s))
  [execout; copyin; copyout; copyinstr1; copyinstr2; copyinstr3; pgbug; sbrkbugs; badarg; argptest; bigargtest;
   bsstest uninit; sbrkbasic; sbrkmuch; kernmem; sbrkfail; sbrkarg; validatetest; stacktest].
Proof.
  unfold execout, copyin, copyout, copyinstr1, copyinstr2, copyinstr3, pgbug, sbrkbugs, badarg, argptest, bigargtest,
    bsstest, sbrkbasic, sbrkmuch, kernmem, sbrkfail, sbrkarg, validatetest, stacktest.
  repeat (constructor; [settle; try (apply settles_take_all; settle)|]). constructor.
Qed.

Lemma settles_proc_tests sp : Forall (fun f => forall s, settles sp (f s))
  [exectest; pipe1; exitwait; reparent; twochildren; forkfork; forkforkfork; reparent2; forktest].
Proof.
  unfold exectest, pipe1, exitwait, reparent, twochildren, forkfork, forkforkfork, reparent2, forktest.
  repeat (constructor; [settle|]). constructor.
Qed.

Lemma settles_preempt s : settles True (preempt s).
Proof. unfold preempt. settle. Qed.

Lemma settles_file_tests sp : Forall (fun f => forall s, settles sp (f s))
  [truncate1; truncate2; truncate3; iputtest; exitiputtest; openiputtest; opentest; writetest; writebig; createtest;
   dirtest; sharedfd; fourfiles; createdelete; unlinkread; linktest; concreate; linkunlink; bigdir; subdir; bigwrite;
   bigfile; fourteen; rmdot; dirfile; iref; badwrite].
Proof.
  unfold truncate1, truncate2, truncate3, iputtest, exitiputtest, openiputtest, opentest, writetest, writebig, createtest,
    dirtest, sharedfd, fourfiles, createdelete, unlinkread, linktest, concreate, linkunlink, bigdir, subdir, subdir_files,
    subdir_paths, bigwrite, bigfile, fourteen, rmdot, dirfile, iref, badwrite.
  repeat (constructor; [settle|]). constructor.
Qed.

Ltac conjuncts := repeat match goal with H : Forall _ (_ :: _) |- _ => apply Forall_cons in H as [? H] end.

Lemma tests_all base fuel uninit :
  Forall (fun t : test => settles (t.2 = str "preempt") (t.1 t.2) \/ t = (mem base fuel, str "mem")) (tests base fuel uninit).
Proof.
  pose proof (settles_mem_tests False uninit). pose proof (settles_proc_tests False). pose proof (settles_file_tests False).
  conjuncts. pose proof settles_preempt. unfold tests.
  repeat (apply Forall_cons; split; [cbn [fst snd]|]); [..|constructor].
  all: match goal with
       | |- settles _ (?f _) \/ _ =>
           match goal with
           | H : forall s, settles False (?g s) |- _ => constr_eq f g; left; exact (settles_weaken _ _ (H _) (False_ind _))
           | H : forall s, settles True (?g s) |- _ => constr_eq f g; left; exact (settles_weaken _ _ (H _) (fun _ => eq_refl))
           end
       | _ => right; reflexivity
       end.
Qed.

(** Whatever the kernel and the other processes reply, every test of the table (mem() is the
    subject of [mem_passes]) comes to an end or waits for the kernel, in all of its processes: none
    of its loops runs for ever on its own, except for the loops without a body of the children of
    preempt(), where the outcome is [Spin]. *)
Theorem tests_settle base fuel uninit name f env :
  (f, name) ∈ tests base fuel uninit -> name <> str "mem" ->
  match f name (mk_ust env []) with
  | Ret _ s' => (length (u_env s') <= length env)%nat
  | Asleep _ => True
  | Spin _ => name = str "preempt"
  | Panic _ _ | Fuel _ => False
  end.
Proof.
  intros Ht Hm. assert (settles (name = str "preempt") (f name)) as [_ H].
  { pose proof (tests_all base fuel uninit) as Hall. rewrite Forall_forall in Hall.
    destruct (Hall _ Ht) as [H|[= -> ->]]; [exact H|by destruct Hm]. }
  specialize (H (mk_ust env [])). destruct (f name _); try done. cbn in H. lia.
Qed.

(** ** The verdict of the runner *)

(** The process of the runner: no fork() has returned 0. *)
Definition parent (tr : list event) : Prop :=
  Forall (fun e => match e with (Sfork, Some r) => ret r <> 0 | _ => True end) tr.

(** [m] in the process of the runner. *)
Definition wpr {A} (m : M ust A) (Q : A -> ust -> Prop) (R : ust -> Prop) (s : ust) : Prop :=
  match m s with
  | Ret a s' => Q a s'
  | Asleep s' => R s'
  | r => ~ parent (u_trace (final r))
  end.

Lemma wpr_wps {A} (m : M ust A) Q R s : wps m Q R s -> wpr m Q R s.
Proof. unfold wps, wpr. by destruct (m s). Qed.

Lemma wpr_bind {A B} (m : M ust A) (f : A -> M ust B) Q R s :
  wpr m (fun a s' => wpr (f a) Q R s') R s -> wpr (m ≫= f) Q R s.
Proof. unfold wpr, mbind, M_bind. by destruct (m s). Qed.

Lemma wpr_mono {A} (m : M ust A) (Q Q' : A -> ust -> Prop) (R R' : ust -> Prop) s :
  wpr m Q R s -> (forall a s', Q a s' -> Q' a s') -> (forall s', R s' -> R' s') -> wpr m Q' R' s.
Proof. unfold wpr. destruct (m s); naive_solver. Qed.

Lemma parent_prefix t1 t2 : t1 `prefix_of` t2 -> parent t2 -> parent t1.
Proof. intros [k ->] [H _]%Forall_app. exact H. Qed.

(** Code that does not return. *)
Definition exits {A} (m : M ust A) : Prop := grows m /\ forall s, match m s with Ret _ _ => False | _ => True end.

Lemma exits_exit {A} st : exits (uexit st : M ust A).
Proof. split; [apply (runs_exit (sp := False) (fun _ => 0%nat))|done]. Qed.
Lemma exits_bind {A B} (m : M ust A) (f : A -> M ust B) : grows m -> (forall a, exits (f a)) -> exits (m ≫= f).
Proof.
  intros Hm Hf. split; [apply grows_bind; [done|apply Hf]|]. intros s. unfold mbind, M_bind.
  destruct (m s) as [a s1| | | |]; try done. by apply Hf.
Qed.

(** The process of a child. *)
Lemma wpr_exits {A} (m : M ust A) (Q : A -> ust -> Prop) (R : ust -> Prop) s :
  exits m -> ~ parent (u_trace s) -> (forall s', ~ parent (u_trace s') -> R s') -> wpr m Q R s.
Proof.
  intros [Hg He] Hp HR. specialize (Hg s). specialize (He s).
  assert (~ parent (u_trace (final (m s)))) as H by (intros H; by eapply Hp, parent_prefix).
  unfold wpr. destruct (m s); cbn in *; auto. done.
Qed.

(** *** What the trace says *)

(** The statuses that wait() has stored. *)
Definition statuses (tr : list event) : list Z :=
  omap (fun e => match e with (Swait, Some r) => Some (default 0 (head (out r))) | _ => None end) tr.

(** The bytes that countfree() has read, one for every free page. *)
Definition pages (tr : list event) : Z :=
  Z.of_nat (length (omap (fun e : event =>
    match e with (Sread _ _, Some r) => if 0 <? ret r then Some tt else None | _ => None end) tr)).

(** A system call on which the runner gives up. *)
Definition refused (e : event) : Prop :=
  match e with
  | (Spipe, Some r) | (Sfork, Some r) | (Sread _ _, Some r) => ret r < 0
  | _ => False
  end.

(** The process has not exited. *)
Definition running (tr : list event) : Prop := Forall (fun e => match e.1 with Sexit _ => False | _ => True end) tr.
(** It has exited with the status [st]. *)
Definition exited (st : Z) (tr : list event) : Prop := exists tr', running tr' /\ tr = tr' ++ [(Sexit st, None)].

Definition report (name : list Z) (ok : bool) : list Z :=
  str "test " ++ name ++ str ": " ++ (if ok then line "OK" else line "FAILED").

(** The runner has not come to its verdict. *)
Definition undecided (s : ust) : Prop :=
  parent (u_trace s) -> running (u_trace s) \/ (exited 1 (u_trace s) /\ Exists refused (u_trace s)).

Lemma undecided_child s : ~ parent (u_trace s) -> undecided s.
Proof. intros H ?. done. Qed.

Lemma running_snoc tr c o : running tr -> (match c with Sexit _ => False | _ => True end) -> running (tr ++ [(c, o)]).
Proof. intros. apply Forall_app. by repeat constructor. Qed.

(** What an addition [t] to the trace means for the verdict. *)
Definition silent (t : list event) : Prop := statuses t = [] /\ pages t = 0 /\ outs 1 t = [].

Lemma statuses_app t1 t2 : statuses (t1 ++ t2) = statuses t1 ++ statuses t2.
Proof. apply omap_app. Qed.
Lemma pages_app t1 t2 : pages (t1 ++ t2) = pages t1 + pages t2.
Proof. unfold pages. rewrite omap_app, length_app. lia. Qed.

Lemma wpr_sys c (Q : reply -> ust -> Prop) s :
  running (u_trace s) -> match c with Sexit _ => False | _ => True end ->
  (forall r s', u_trace s' = u_trace s ++ [(c, Some r)] -> (length (u_env s') < length (u_env s))%nat ->
     running (u_trace s') -> Q r s') ->
  wpr (sys c) Q undecided s.
Proof.
  intros Hr Hc HQ. unfold wpr, sys. destruct (u_env s) eqn:E.
  - intros _. left. by apply running_snoc.
  - apply HQ; [done|cbn; lia|by apply running_snoc].
Qed.

Lemma wpr_call c (Q : Z -> ust -> Prop) s :
  running (u_trace s) -> match c with Sexit _ => False | _ => True end ->
  (forall r s', u_trace s' = u_trace s ++ [(c, Some r)] -> (length (u_env s') < length (u_env s))%nat ->
     running (u_trace s') -> Q (ret r) s') ->
  wpr (call c) Q undecided s.
Proof. intros Hr Hc HQ. apply wpr_bind, wpr_sys; [done..|]. intros. by apply HQ. Qed.

Lemma wpr_do c (Q : unit -> ust -> Prop) s :
  running (u_trace s) -> match c with Sexit _ => False | _ => True end ->
  (forall r s', u_trace s' = u_trace s ++ [(c, Some r)] -> running (u_trace s') -> Q tt s') ->
  wpr (do c) Q undecided s.
Proof. intros Hr Hc HQ. apply wpr_bind, wpr_call; [done..|]. intros. by eapply HQ. Qed.

Lemma only_writes_running fd tr : only_writes fd tr -> running tr /\ statuses tr = [] /\ pages tr = 0.
Proof.
  induction 1 as [|[c o] tr [d Hd] _ (IH1 & IH2 & IH3)]; [by repeat constructor|]. cbn in Hd. subst c.
  split_and!; [apply Forall_cons; by split|exact IH2|exact IH3].
Qed.

Lemma wpr_printf fmt ap (Q : unit -> ust -> Prop) s :
  running (u_trace s) ->
  (forall s' t, u_trace s' = u_trace s ++ t -> running (u_trace s') -> statuses t = [] -> pages t = 0 ->
     outs 1 t = fmt_chars fmt false ap -> Q tt s') ->
  wpr (printf fmt ap) Q undecided s.
Proof.
  intros Hr HQ. apply wpr_wps, prints_printf.
  - intros [] s' t [E _] W O. destruct (only_writes_running _ _ W) as (R & ? & ?). eapply HQ; try done. rewrite E. by apply Forall_app.
  - intros s' t [E _] W _ _. left. rewrite E. apply Forall_app. split; [done|]. by eapply only_writes_running.
Qed.

Lemma wpr_die {A} fmt ap (Q : A -> ust -> Prop) s :
  running (u_trace s) -> Exists refused (u_trace s) -> wpr (die fmt ap) Q undecided s.
Proof.
  intros Hr Hx. apply wpr_bind, wpr_printf; [done|]. intros s' t E Hr' _ _ _. intros _. right. cbn [u_trace]. split; [by exists (u_trace s')|].
  rewrite E. apply Exists_app. left. apply Exists_app. by left.
Qed.

(** fork(), in the process of the runner and in the child. *)
Lemma wpr_fork {A} fmt (k : Z -> M ust A) (Q : A -> ust -> Prop) s :
  running (u_trace s) ->
  (forall s', ~ parent (u_trace s') -> wpr (k 0) Q undecided s') ->
  (forall pid r s', 0 < pid -> u_trace s' = u_trace s ++ [(Sfork, Some r)] -> running (u_trace s') ->
     wpr (k pid) Q undecided s') ->
  wpr (pid ← fork; fail_if (pid <? 0) fmt [];; k pid) Q undecided s.
Proof.
  intros Hr Hc HQ. apply wpr_bind, wpr_call; [done..|]. intros r s1 E1 _ Hr1. apply wpr_bind. unfold fail_if.
  destruct (Z.ltb_spec (ret r) 0).
  { apply wpr_die; [done|]. rewrite E1. apply Exists_app. right. by constructor. }
  apply wpr_wps, wps_ret. destruct (Z.eqb_spec (ret r) 0) as [E0|].
  - rewrite E0. apply Hc. rewrite E1. intros [_ [Hf _]%Forall_cons]%Forall_app. done.
  - apply (HQ _ r); [lia|done..].
Qed.

Lemma wpr_loop {A T} (Inv : A -> ust -> Prop) (body : A -> M ust (A + T)) a Q R s :
  Inv a s ->
  (forall a s, Inv a s ->
     wpr (body a) (fun r s' =>
       match r with
       | inl a' => (length (u_env s') < length (u_env s))%nat /\ Inv a' s'
       | inr t => Q t s'
       end) R s) ->
  wpr (loop body a) Q R s.
Proof.
  intros Ha Hb. apply wpr_bind, wpr_wps, wps_wp, wp_gets.
  assert (length (u_env s) <= length (u_env s))%nat as Hn by done. revert Hn Ha.
  generalize (length (u_env s)) at 2 3 as n. intros n. revert a s. induction n as [|n IH]; intros a s Hn Ha; cbn [iterate];
    apply wpr_bind; (eapply wpr_mono; [by apply Hb| |done]); intros [a'|t] s'; try done; intros [Hl Hi]; [lia|].
  apply IH; [lia|done].
Qed.

(** countfree(): the number of pages that its child has reported. *)
Lemma wpr_countfree (Q : Z -> ust -> Prop) s :
  running (u_trace s) ->
  (forall s' t, u_trace s' = u_trace s ++ t -> running (u_trace s') -> outs 1 t = [] -> Q (pages t) s') ->
  wpr countfree Q undecided s.
Proof.
  intros Hr HQ. unfold countfree. apply wpr_bind, wpr_sys; [done..|]. intros rp s1 E1 _ Hr1. apply wpr_bind. unfold fail_if at 1.
  destruct (Z.ltb_spec (ret rp) 0).
  { apply wpr_die; [done|]. rewrite E1. apply Exists_app. right. by constructor. }
  apply wpr_wps, wps_ret, wpr_fork; [done| |].
  { intros s2 Hp. apply wpr_bind, wpr_exits; [|done|apply undecided_child]. cbn [when Z.eqb].
    apply exits_bind; [apply (settles_do False)|intros _]. apply exits_bind; [|intros; apply exits_exit].
    apply (settles_take_all False). settle. }
  intros pid rf s2 Hpid E2 Hr2. rewrite (proj2 (Z.eqb_neq _ _)) by lia. cbn [when]. apply wpr_bind, wpr_wps, wps_ret.
  apply wpr_bind, wpr_do; [done..|]. intros rc s3 E3 Hr3. apply wpr_bind.
  apply (wpr_loop (fun n s' => exists t, u_trace s' = u_trace s3 ++ t /\ running (u_trace s') /\ outs 1 t = [] /\ pages t = n)).
  { exists []. by rewrite app_nil_r. }
  intros n s4 (t & E4 & Hr4 & Ho & Hn). apply wpr_bind, wpr_call; [done..|]. intros rr s5 E5 Hl Hr5.
  destruct (Z.ltb_spec (ret rr) 0).
  { apply wpr_die; [done|]. rewrite E5. apply Exists_app. right. by constructor. }
  destruct (Z.eqb_spec (ret rr) 0) as [E0|].
  - apply wpr_wps, wps_ret, wpr_bind, wpr_do; [done..|]. intros rc' s6 E6 Hr6. apply wpr_bind, wpr_do; [done..|]. intros rw s7 E7 Hr7.
    apply wpr_wps, wps_ret.
    set (t1 := [(Spipe, Some rp)] ++ [(Sfork, Some rf)] ++ [(Sclose (fds rp).2, Some rc)] ++ t ++ [(Sread (fds rp).1 1, Some rr)] ++
      [(Sclose (fds rp).1, Some rc')] ++ [(Swait, Some rw)]).
    replace n with (pages t1). { apply HQ; [|done|]. + rewrite E7, E6, E5, E4, E3, E2, E1. unfold t1. by rewrite <- !app_assoc. + unfold t1. rewrite !outs_app, Ho. done. }
    unfold t1. rewrite !pages_app, Hn. unfold pages. cbn. rewrite E0. cbn. lia.
  - apply wpr_wps, wps_ret. split; [done|]. exists (t ++ [(Sread (fds rp).1 1, Some rr)]). split_and!; [|done| |].
    + by rewrite E5, E4, app_assoc.
    + rewrite outs_app, Ho. done.
    + rewrite pages_app, Hn. unfold pages. cbn. rewrite (proj2 (Z.ltb_lt _ _)) by lia. done.
Qed.

Lemma u8_all l : Forall is_u8 l -> u8 <$> l = l.
Proof. induction 1 as [|c l Hc _ IH]; cbn; [done|]. by rewrite u8_small, IH. Qed.

(** run(): the report and the value are those of the status of the child. *)
Lemma wpr_run f name (Q : bool -> ust -> Prop) s :
  grows (f name) -> Forall is_u8 name -> running (u_trace s) ->
  (forall st s' t, u_trace s' = u_trace s ++ t -> running (u_trace s') -> statuses t = [st] -> pages t = 0 ->
     outs 1 t = report name (st =? 0) -> Q (st =? 0) s') ->
  wpr (run f name) Q undecided s.
Proof.
  intros Hf Hn Hr HQ. unfold run. apply wpr_bind, wpr_printf; [done|]. intros s1 t1 E1 Hr1 S1 P1 O1.
  apply wpr_fork; [done| |].
  { intros s2 Hp. cbn [Z.eqb]. apply wpr_exits; [|done|apply undecided_child]. apply exits_bind; [done|intros; apply exits_exit]. }
  intros pid rf s2 Hpid E2 Hr2. rewrite (proj2 (Z.eqb_neq _ _)) by lia.
  apply wpr_bind. unfold wait. apply wpr_bind, wpr_sys; [done..|]. intros rw s3 E3 _ Hr3. apply wpr_wps, wps_ret, wpr_bind.
  set (st := default 0 (head (out rw))).
  assert (fmt_chars (str "test %s: ") false [sa name] = str "test " ++ name ++ str ": ") as Ef.
  { change (fmt_chars (str "test %s: ") false [sa name]) with (str "test " ++ (u8 <$> name) ++ str ": ").
    by rewrite u8_all. }
  assert (forall b, b = (st =? 0) -> wpr (printf (if b then line "OK" else line "FAILED") [])
    (fun _ s' => wpr (mret (st =? 0)) Q undecided s') undecided s3) as Hp.
  { intros b Eb. apply wpr_printf; [done|]. intros s4 t4 E4 Hr4 S4 P4 O4. apply wpr_wps, wps_ret.
    apply (HQ st s4 (t1 ++ [(Sfork, Some rf)] ++ [(Swait, Some rw)] ++ t4)).
    - by rewrite E4, E3, E2, E1, <- !app_assoc.
    - done.
    - by rewrite !statuses_app, S1, S4.
    - by rewrite !pages_app, P1, P4.
    - rewrite !outs_app, O1, O4, Ef. unfold report. rewrite <- Eb, <- !app_assoc. by destruct b. }
  fold st. destruct (st =? 0); [exact (Hp true eq_refl)|exact (Hp false eq_refl)].
Qed.

(** The tests that are run. *)
Definition chosen (justone : option (list Z)) (l : list test) : list test :=
  List.filter (fun t => match justone with None => true | Some n => strcmp t.2 n =? 0 end) l.

(** The reports of the tests [l], with the statuses [sts]. *)
Definition reports (l : list test) (sts : list Z) : list Z :=
  concat (zip_with (fun (t : test) st => report t.2 (st =? 0)) l sts).

Lemma wpr_run_all justone l fail (Q : bool -> ust -> Prop) s :
  Forall (fun t : test => grows (t.1 t.2) /\ Forall is_u8 t.2) l -> running (u_trace s) ->
  (forall s' t, u_trace s' = u_trace s ++ t -> running (u_trace s') -> length (statuses t) = length (chosen justone l) ->
     pages t = 0 -> outs 1 t = reports (chosen justone l) (statuses t) ->
     Q (fail || negb (forallb (Z.eqb 0) (statuses t))) s') ->
  wpr (run_all justone l fail) Q undecided s.
Proof.
  intros Hl. revert fail s. induction Hl as [|x l [Hg Hu] Hl IH]; intros fail s Hr HQ; cbn [run_all].
  { apply wpr_wps, wps_ret. specialize (HQ s []). rewrite orb_false_r in HQ. apply HQ; try done. by rewrite app_nil_r. }
  unfold chosen in *. cbn [List.filter] in HQ. apply wpr_bind.
  destruct (match justone with None => true | Some n => strcmp x.2 n =? 0 end).
  - apply wpr_bind, wpr_run; [done..|]. intros st s1 t1 E1 Hr1 S1 P1 O1. apply wpr_wps, wps_ret, IH; [done|].
    intros s2 t2 E2 Hr2 S2 P2 O2. specialize (HQ s2 (t1 ++ t2)). rewrite statuses_app, S1 in HQ.
    rewrite Z.eqb_sym. replace ((if negb (0 =? st) then true else fail) || negb (forallb (Z.eqb 0) (statuses t2)))
      with (fail || negb (forallb (Z.eqb 0) ([st] ++ statuses t2))); [apply HQ|].
    + by rewrite E2, E1, app_assoc.
    + done.
    + cbn. by rewrite S2.
    + by rewrite pages_app, P1, P2.
    + by rewrite outs_app, O1, O2.
    + cbn [app forallb]. destruct (0 =? st), fail, (forallb _ _); done.
  - apply wpr_wps, wps_ret, IH; done.
Qed.

Lemma grows_with_heap {A} h (m : M Umalloc.umst A) : grows (with_heap h m).
Proof. intros s. unfold with_heap. destruct (m _); cbn; by eexists. Qed.

Lemma runs_mem_parent sp : settles sp ('(_, xstatus) ← wait; if xstatus =? -1 then uexit 0 else uexit xstatus : M ust unit).
Proof. settle. Qed.

Lemma grows_mem base fuel s : grows (mem base fuel s).
Proof.
  unfold mem. apply grows_bind; [apply (settles_fork False)|]. intros pid. destruct (pid =? 0); [|apply (runs_mem_parent False)].
  apply grows_bind; [apply grows_with_heap|]. intros [m1 h]. apply grows_bind; [apply (settles_fail_if False)|]. intros _.
  apply grows_bind; [apply grows_with_heap|]. intros _. apply (exits_exit (A := unit)).
Qed.

Lemma tests_grow base fuel uninit : Forall (fun t : test => grows (t.1 t.2) /\ Forall is_u8 t.2) (tests base fuel uninit).
Proof.
  apply Forall_and. split.
  - eapply Forall_impl; [apply tests_all|]. intros [f n] [[G _]|[= -> ->]]; [exact G|apply grows_mem].
  - unfold tests. repeat (apply Forall_cons; split; [apply (bool_decide_unpack _); vm_compute; exact I|]). constructor.
Qed.

(** The last line of the runner, for the free pages [n0] and [n1] and the value of fail. *)
Definition verdict (fail : bool) (n0 n1 : Z) : list Z :=
  if fail then line "SOME TESTS FAILED"
  else if n1 <? n0 then fmt_chars (line "FAILED -- lost some free pages %d (out of %d)") false [UInt n1; UInt n0]
  else line "ALL TESTS PASSED".

(** The runner has ended: [t0] counts the pages, [t1] runs the tests [l], [t2] counts again. *)
Definition decided (l : list test) (tr : list event) : Prop :=
  exists t0 t1 t2, let fail := negb (forallb (Z.eqb 0) (statuses t1)) in
    let ok := negb fail && (pages t0 <=? pages t2) in
    tr = t0 ++ t1 ++ t2 /\ exited (if ok then 0 else 1) tr /\
    length (statuses t1) = length l /\
    outs 1 tr = line "usertests starting" ++ reports l (statuses t1) ++ verdict fail (pages t0) (pages t2).

Definition stops (l : list test) (s : ust) : Prop := undecided s \/ decided l (u_trace s).

Lemma wpr_stops {A} l (m : M ust A) Q s : wpr m Q undecided s -> wpr m Q (stops l) s.
Proof. intros. eapply wpr_mono; [done|done|by left]. Qed.

(** The end of the runner. *)
Lemma wpr_verdict l t0 t1 t2 fmt ap st (Q : unit -> ust -> Prop) s :
  let fail := negb (forallb (Z.eqb 0) (statuses t1)) in
  u_trace s = t0 ++ t1 ++ t2 -> running (u_trace s) ->
  outs 1 t0 = line "usertests starting" -> outs 1 t1 = reports l (statuses t1) -> outs 1 t2 = [] ->
  length (statuses t1) = length l ->
  st = (if negb fail && (pages t0 <=? pages t2) then 0 else 1) ->
  fmt_chars fmt false ap = verdict fail (pages t0) (pages t2) ->
  wpr (printf fmt ap;; uexit st) Q (stops l) s.
Proof.
  intros fail E Hr O0 O1 O2 Hl Hst Hv. apply wpr_bind, wpr_stops, wpr_printf; [done|]. intros s' t E' Hr' _ P O. right. cbn [u_trace].
  exists t0, t1, (t2 ++ t ++ [(Sexit st, None)]). cbv zeta. fold fail. rewrite !pages_app, P. change (pages [(Sexit st, None)]) with 0.
  rewrite !Z.add_0_r, <- Hst, E', E. split_and!; [by rewrite <- !app_assoc| |done|].
  - exists (u_trace s'). split; [done|by rewrite E', E].
  - rewrite !outs_app, O0, O1, O2, O, Hv. change (outs 1 [(Sexit st, None)]) with ([] : list Z).
    by rewrite ?app_nil_r, <- !app_assoc.
Qed.

Lemma run_once_decides base fuel uninit justone env :
  wpr (run_once base fuel uninit justone) (fun _ _ => False) (stops (chosen justone (tests base fuel uninit))) (mk_ust env []).
Proof.
  unfold run_once. set (l := chosen _ _). apply wpr_bind, wpr_stops, wpr_printf; [by constructor|]. intros s1 t1 E1 Hr1 _ P1 O1.
  cbn [u_trace app] in E1. apply wpr_bind, wpr_stops, wpr_countfree; [done|]. intros s2 t2 E2 Hr2 O2.
  apply wpr_bind, wpr_stops, wpr_run_all; [apply tests_grow|done|]. intros s3 t3 E3 Hr3 S3 P3 O3. cbn [orb].
  fold l in S3, O3. clearbody l. rewrite E2, E1 in E3. unfold die.
  assert (outs 1 (t1 ++ t2) = line "usertests starting") as O12 by (rewrite outs_app, O1, O2; done).
  assert (pages (t1 ++ t2) = pages t2) as P12 by (rewrite pages_app, P1; lia).
  destruct (forallb (Z.eqb 0) (statuses t3)) eqn:Ef; cbn [negb].
  - apply wpr_bind, wpr_stops, wpr_countfree; [done|]. intros s4 t4 E4 Hr4 O4. rewrite E3, <- (app_assoc (t1 ++ t2)) in E4.
    destruct (pages t4 <? pages t2) eqn:Ep.
    + apply (wpr_verdict l (t1 ++ t2) t3 t4); [done..| |]; rewrite Ef, P12; cbn [negb andb]; [by rewrite (proj2 (Z.leb_gt _ _)) by lia|].
      unfold verdict. rewrite Ep. reflexivity.
    + apply (wpr_verdict l (t1 ++ t2) t3 t4); [done..| |]; rewrite Ef, P12; cbn [negb andb]; [by rewrite (proj2 (Z.leb_le _ _)) by lia|].
      unfold verdict. rewrite Ep. reflexivity.
  - apply (wpr_verdict l (t1 ++ t2) t3 []); [by rewrite app_nil_r|done..| |]; rewrite Ef; reflexivity.
Qed.

(** The arguments select the tests [l]: all of them, or those with the name. *)
Definition selects (argv : list (list Z)) (l l' : list test) : Prop :=
  match argv with
  | [] | [_] => l' = l
  | [_; name] => Forall is_u8 name /\ default 0 (head name) <> 45 /\ l' = List.filter (fun t => strcmp t.2 name =? 0) l
  | _ => False
  end.

Lemma chosen_all l : chosen None l = l.
Proof. unfold chosen. induction l as [|t l IH]; cbn; [done|by rewrite IH]. Qed.
Lemma chosen_name n l : List.filter (fun t : test => strcmp t.2 n =? 0) l = chosen (Some n) l.
Proof. done. Qed.

Lemma strcmp_head c n d q : is_u8 c -> is_u8 d -> c <> d -> strcmp (c :: n) (d :: q) <> 0.
Proof. intros Hc Hd Hne. cbn. rewrite (proj2 (Z.eqb_neq _ _)) by done. rewrite !u8_small by done. lia. Qed.

Lemma main_name base fuel uninit p n env :
  Forall is_u8 n -> default 0 (head n) <> 45 ->
  main base fuel uninit [p; n] (mk_ust env []) = run_once base fuel uninit (Some n) (mk_ust env []).
Proof.
  intros Hn Hd. unfold main. cbn [length Nat.eqb andb]. change (default [] ([p; n] !! 1%nat)) with n.
  assert (strcmp n (str "-c") <> 0 /\ strcmp n (str "-C") <> 0) as [H1 H2].
  { destruct Hn as [|c n Hc Hn]; [done|]. split; by apply strcmp_head. }
  rewrite !(proj2 (Z.eqb_neq _ _)) by done. done.
Qed.

Lemma main_selects base fuel uninit argv l env :
  selects argv (tests base fuel uninit) l ->
  exists justone, main base fuel uninit argv (mk_ust env []) = run_once base fuel uninit justone (mk_ust env []) /\
    l = chosen justone (tests base fuel uninit).
Proof.
  intros Hs. destruct argv as [|p [|n [|]]]; cbn [selects] in Hs; [exists None|exists None| |done].
  1,2: split; [reflexivity|by rewrite Hs, chosen_all].
  destruct Hs as (Hn & Hd & ->). exists (Some n). split; [exact (main_name base fuel uninit p n env Hn Hd)|apply chosen_name].
Qed.

Lemma stops_outcome (m : M ust unit) s l :
  wpr m (fun _ _ => False) (stops l) s -> parent (u_trace (final (m s))) ->
  (exists s', m s = Asleep s') /\
  (running (u_trace (final (m s))) \/ (exited 1 (u_trace (final (m s))) /\ Exists refused (u_trace (final (m s)))) \/
   decided l (u_trace (final (m s)))).
Proof.
  unfold wpr. intros H Hp. destruct (m s) as [| |s'| |]; try done. split; [by eexists|]. cbn [final] in *. destruct H as [H|H]; [|by right; right].
  destruct (H Hp); [by left|by right; left].
Qed.

(** C27: the verdict of usertests is that of its tests.  In the process of the runner, usertests
    and usertests name exit with the status 0, and print ALL TESTS PASSED, if and only if
    the child of every selected test had the status 0 and countfree() counted at the end
    no fewer pages than at the start; they print OK or FAILED for every test, in the order of
    the table.  Otherwise the runner has printed its complaint and exited with the status 1, it
    has given up on a failed pipe(), fork() or read(), or it waits for the kernel. *)
Theorem main_verdict base fuel uninit argv l env :
  selects argv (tests base fuel uninit) l ->
  let r := main base fuel uninit argv (mk_ust env []) in
  let tr := u_trace (final r) in
  parent tr ->
  (exists s', r = Asleep s') /\
  (running tr \/ (exited 1 tr /\ Exists refused tr) \/ decided l tr).
Proof.
  intros Hs. destruct (main_selects _ _ _ _ _ env Hs) as (jo & Er & ->). cbv zeta. rewrite Er.
  exact (stops_outcome _ _ _ (run_once_decides base fuel uninit jo env)).
Qed.

(** The replies to the runner with the argument [name], the name of one test or of none: the
    kernel grants all calls, one page is free at the start and at the end. *)
Definition demo_env (name : list Z) (one : bool) : list reply :=
  let w n := replicate n (mk_reply 1 []) in
  let count := [mk_reply 0 [3; 4]; mk_reply 5 []; mk_reply 0 []; mk_reply 1 [120]; mk_reply 0 []; mk_reply 0 []; mk_reply 5 [0]] in
  w 19%nat ++ count ++
  (if one then w (7 + length name)%nat ++ [mk_reply 6 []; mk_reply 6 [0]] ++ w 3%nat else []) ++
  count ++ w 17%nat.

Definition demo_run : result ust unit :=
  main 4096 3 [] [str "usertests"; str "pgbug"] (mk_ust (demo_env (str "pgbug") true) []).

Lemma main_verdict_witness :
  last (u_trace (final demo_run)) = Some (Sexit 0, None) /\
  (exists s', demo_run = Asleep s') /\
  (running (u_trace (final demo_run)) \/
   (exited 1 (u_trace (final demo_run)) /\ Exists refused (u_trace (final demo_run))) \/
   decided (List.filter (fun t => strcmp t.2 (str "pgbug") =? 0) (tests 4096 3 [])) (u_trace (final demo_run))).
Proof.
  split; [vm_compute; reflexivity|].
  apply (main_verdict 4096 3 [] [str "usertests"; str "pgbug"]).
  - split; [apply (bool_decide_unpack _); vm_compute; exact I|]. split; [done|reflexivity].
  - vm_compute. repeat constructor; discriminate.
Defined.

(** With a name that is not in the table no test is run, and the runner prints ALL TESTS PASSED. *)
Lemma unknown_test_passes :
  let tr := u_trace (final (main 4096 3 [] [str "usertests"; str "nosuchtest"] (mk_ust (demo_env [] false) []))) in
  last tr = Some (Sexit 0, None) /\ outs 1 tr = line "usertests starting" ++ line "ALL TESTS PASSED".
Proof. vm_compute. done. Qed.

Lemma tests_settle_witness :
  match copyin (str "copyin") (mk_ust [mk_reply (-1) []] []) with
  | Ret _ s' => (length (u_env s') <= 1)%nat
  | Asleep _ => True
  | Spin _ => str "copyin" = str "preempt"
  | Panic _ _ | Fuel _ => False
  end.
Proof.
  apply (tests_settle 4096 3 [] (str "copyin") copyin [mk_reply (-1) []]); [|done].
  apply list_elem_of_further, list_elem_of_here.
Defined.

(** writebig() does not notice that the file which it reads again is too short: here the first
    read() already returns 0. *)
Lemma writebig_accepts_empty :
  let env := [mk_reply 3 []] ++ replicate 268 (mk_reply 1024 []) ++
             [mk_reply 0 []; mk_reply 3 []; mk_reply 0 []; mk_reply 0 []; mk_reply 0 []] in
  match writebig (str "writebig") (mk_ust env []) with
  | Ret _ s' => outs 1 (u_trace s') = [] /\ ins 3 (u_trace s') = []
  | _ => False
  end.
Proof. vm_compute. done. Qed.

(** *** The files that createdelete() leaves *)

Lemma makes_for_all {A} P (l : list A) f : (forall x, makes P (f x)) -> makes P (for_all l f).
Proof. intros Hf. induction l; cbn; [apply makes_ret|by apply makes_bind]. Qed.

Ltac makes1 :=
  lazymatch goal with
  | |- forall _, _ => intros
  | |- makes _ (mret _) => apply makes_ret
  | |- makes _ (mbind _ _) => apply makes_bind
  | |- makes _ (for_n _ _) => apply makes_for_all
  | |- makes _ (for_all _ _) => apply makes_for_all
  | |- makes _ (when ?b _) => unfold when; destruct b eqn:?
  | |- makes _ (if ?b then _ else _) => destruct b eqn:?
  | |- makes _ (fail_if ?b _ _) => unfold fail_if; destruct b
  | |- makes _ (die _ _) => unfold die
  | |- makes _ (printf _ _) => eapply makes_prints; [|apply prints_printf]; done
  | |- makes _ (do _) => unfold do
  | |- makes _ fork => apply makes_call; done
  | |- makes _ wait => unfold wait
  | |- makes _ (sys _) => apply makes_sys; done
  | |- makes _ (uexit _) => apply makes_exit; done
  | |- makes _ (let '(_, _) := ?p in _) => destruct p
  end; cbv beta zeta.

(** No process of createdelete() unlinks the file q0, which its second child creates: the last loop
    composes its names of 'p' + i instead of 'p' + pi. *)
Lemma createdelete_leaves_q0 s : makes (fun e => e.1 <> Sunlink (str "q0")) (createdelete s).
Proof.
  unfold createdelete. cbv zeta. repeat makes1; try (apply makes_call; intros o; cbn [fst]); try done.
  - intros [= _ E]. apply andb_true_iff in Heqb0 as [?%Z.ltb_lt ?%Z.eqb_eq]. divlia.
  - intros [= E1 E2]. lia.
Qed.

End UsertestsProofs.
