(* ===== verification/UtPipe.v ===== *)
(** * pipe1() of user/usertests.c: what its two processes check *)

From Stdlib Require Import ZArith Lia.
From stdpp Require Import base list strings.
From S2P Require Import Prelude KString User Ulib Programs UtBase UtMem UtProc Usertests UsertestsProofs.

Module UtPipe.
Import UtProc Usertests UsertestsProofs.

(** ** Calls of a loop *)

Lemma makes_turns {A T} sp (P : event -> Prop) (body : A -> M ust (A + T)) a :
  (forall a, makes P (body a)) -> (forall a, turn sp (body a)) -> makes P (loop body a).
Proof.
  intros Hm Ht Q R s HQ HR.
  apply (wps_loop (fun _ s1 => exists tr, extends s s1 tr /\ Forall P tr)).
  { exists []. split; [apply extends_nil|constructor]. }
  intros a1 s1 (tr & E & HP).
  assert (wps (body a1) (fun r s' => (exists tr', extends s1 s' tr' /\ Forall P tr') /\ body a1 s1 = Ret r s') R s1) as H.
  { pose proof (Hm a1 (fun _ s' => exists tr', extends s1 s' tr' /\ Forall P tr') R s1) as H. unfold wps in *.
    assert (match body a1 s1 with Ret _ s' => exists tr', extends s1 s' tr' /\ Forall P tr' | Asleep s' => R s' | _ => False end) as H'.
    { apply H; [eauto|]. intros s' tr' E' P'. eapply HR; [by eapply extends_trans|by apply Forall_app]. }
    destruct (body a1 s1); done. }
  eapply wps_mono; [exact H| |done]. intros r s2 [(t2 & E2 & P2) Eb].
  pose proof (proj2 (Ht a1) s1) as Hk. rewrite Eb in Hk. destruct r as [a2|x].
  - split; [lia|]. eexists. split; [by eapply extends_trans|by apply Forall_app].
  - eapply HQ; [by eapply extends_trans|by apply Forall_app].
Qed.

(** The process has not called exit(0). *)
Definition no_exit0 (e : event) : Prop := e.1 <> Sexit 0.

Lemma makes_puts_at p : makes no_exit0 (puts_at p).
Proof.
  unfold puts_at. destruct (u64 p =? 0); [eapply makes_prints; [|apply prints_puts]; done|].
  apply (makes_turns False); [|intros; settle]. intros q.
  apply makes_bind; [apply makes_bind; [by apply makes_call|intros; apply makes_ret]|]. intros c.
  destruct (c =? 0); [apply makes_ret|]. apply makes_bind; [by eapply makes_prints; [|apply prints_putc]|intros; apply makes_ret].
Qed.

Lemma makes_printf (P : event -> Prop) fmt ap : (forall d o, P (Swrite 1 d, o)) -> makes P (printf fmt ap).
Proof. intros. eapply makes_prints; [done|apply prints_printf]. Qed.

Definition expected : list Z := u8 <$> zseq 0 (Z.to_nat (N * SZ)).

(** What a process that ends with exit(0) has done. *)
Definition checked (tr : list event) : Prop :=
  last tr = Some (Sexit 0, None) -> kernel_ok tr ->
  exists rp rf tr', tr = (Spipe, Some rp) :: (Sfork, Some rf) :: tr' /\
    (ret rf = 0 -> outs (fds rp).2 tr' = expected) /\
    (ret rf <> 0 -> ins (fds rp).1 tr' = expected).

Lemma checked_not tr : Forall no_exit0 tr -> checked tr.
Proof.
  intros H Hl _. exfalso. apply last_Some in Hl as [t ->]. apply Forall_app in H as [_ [H _]%Forall_cons]. by apply H.
Qed.

Lemma checked_exit1 tr st : Forall no_exit0 tr -> st <> 0 -> checked (tr ++ [(Sexit st, None)]).
Proof. intros H Hst. apply checked_not, Forall_app. split; [done|]. constructor; [|done]. intros [=]. done. Qed.

(** Code that does not exit, and the failure of a check. *)
Lemma checked_sys c (Q : reply -> ust -> Prop) s :
  Forall no_exit0 (u_trace s) -> c <> Sexit 0 ->
  (forall r s', u_trace s' = u_trace s ++ [(c, Some r)] -> (length (u_env s') < length (u_env s))%nat ->
     Forall no_exit0 (u_trace s') -> Q r s') ->
  wps (sys c) Q (fun s' => checked (u_trace s')) s.
Proof.
  intros Hs Hc HQ. apply wps_sys. destruct (u_env s) eqn:E.
  - apply checked_not, Forall_app. by repeat constructor.
  - apply HQ; [done|cbn; lia|]. apply Forall_app. by repeat constructor.
Qed.

Lemma checked_makes {A} (m : M ust A) (Q : A -> ust -> Prop) s :
  makes no_exit0 m -> Forall no_exit0 (u_trace s) ->
  (forall a s', Forall no_exit0 (u_trace s') -> Q a s') -> wps m Q (fun s' => checked (u_trace s')) s.
Proof.
  intros Hm Hs HQ. apply Hm.
  - intros a s' tr [E _] HP. apply HQ. rewrite E. by apply Forall_app.
  - intros s' tr [E _] HP. apply checked_not. rewrite E. by apply Forall_app.
Qed.

Lemma checked_die {A} fmt ap (Q : A -> ust -> Prop) s :
  Forall no_exit0 (u_trace s) -> wps (die fmt ap) Q (fun s' => checked (u_trace s')) s.
Proof.
  intros Hs. apply wps_bind, checked_makes; [by apply makes_printf|done|]. intros _ s' Hs'. by apply wps_exit, checked_exit1.
Qed.

(** ** The child *)

Lemma zseq_u8_app a n m : u8 <$> zseq a (n + m) = (u8 <$> zseq a n) ++ (u8 <$> zseq (a + Z.of_nat n) m).
Proof. by rewrite zseq_app, fmap_app. Qed.

Lemma child_writes n name fd seq (Q : unit -> ust -> Prop) s :
  Forall no_exit0 (u_trace s) ->
  (forall s' t, u_trace s' = u_trace s ++ t -> Forall no_exit0 (u_trace s') ->
     outs fd t = u8 <$> zseq seq (n * Z.to_nat SZ) -> Q tt s') ->
  wps (pipe1_writes n name fd seq) Q (fun s' => checked (u_trace s')) s.
Proof.
  revert seq s. induction n as [|n IH]; intros seq s Hs HQ; cbn [pipe1_writes].
  { apply wps_ret, (HQ s []); [by rewrite app_nil_r|done|done]. }
  apply wps_bind, wps_bind, checked_sys; [done..|]. intros r s1 E1 _ Hs1. apply wps_ret, wps_bind. unfold fail_if.
  destruct (negb (ret r =? SZ)); [by apply checked_die|]. apply wps_ret, IH; [done|]. intros s2 t E2 Hs2 O2.
  eapply HQ; [by rewrite E2, E1, <- app_assoc|done|]. rewrite outs_app, O2, outs_1. cbn [written_by fst]. rewrite Z.eqb_refl.
  cbn [Nat.mul]. rewrite zseq_u8_app. by rewrite Z2Nat.id by done.
Qed.

(** ** The parent *)

Lemma in_sequence_spec d seq : Forall is_u8 d -> in_sequence d seq = true -> d = u8 <$> zseq seq (length d).
Proof.
  intros Hd. revert seq. induction Hd as [|b d Hb Hd IH]; intros seq; cbn [in_sequence length]; [done|].
  intros [Eb%Z.eqb_eq Es]%andb_prop. rewrite zseq_S, fmap_cons. f_equal; [|by apply IH].
  change 255 with (Z.ones 8) in Eb. rewrite !Z.land_ones in Eb by lia. fold (u8 b) (u8 seq) in Eb. by rewrite u8_small in Eb.
Qed.

Lemma read_exact buf cc r :
  0 < ret r -> Z.of_nat (length (out r)) = ret r -> ret r <= cc -> take (Z.to_nat (ret r)) (into buf cc r) = out r.
Proof.
  intros H0 Hl Hc. unfold into. rewrite (take_ge (out r)) by lia. rewrite take_app_length'; [done|lia].
Qed.

(** The loop has read the sequence up to [seq]. *)
Definition reading (fd : Z) (s0 : ust) (a : list Z * Z * Z * Z) (s : ust) : Prop :=
  let '(buf, cc, total, seq) := a in
  0 <= seq /\ total = seq /\ Forall no_exit0 (u_trace s) /\
  exists t, u_trace s = u_trace s0 ++ t /\ (kernel_ok (u_trace s) -> ins fd t = u8 <$> zseq 0 (Z.to_nat seq)).

Lemma kernel_ok_app t1 t2 : kernel_ok (t1 ++ t2) <-> kernel_ok t1 /\ kernel_ok t2.
Proof. apply Forall_app. Qed.

Lemma parent_turn name fd s0 a s (Q : option Z -> ust -> Prop) :
  reading fd s0 a s ->
  (forall total s', Forall no_exit0 (u_trace s') ->
     (exists t, u_trace s' = u_trace s0 ++ t /\ (kernel_ok (u_trace s') -> ins fd t = u8 <$> zseq 0 (Z.to_nat total))) ->
     Q (Some total) s') ->
  (forall s', Q None s') ->
  wps (pipe1_turn name fd a) (fun r s' =>
    match r with
    | inl a' => (length (u_env s') < length (u_env s))%nat /\ reading fd s0 a' s'
    | inr t => Q t s'
    end) (fun s' => checked (u_trace s')) s.
Proof.
  destruct a as [[[buf cc] total] seq]. intros (H0 & -> & Hs & t & Et & Hk) HQ HN. unfold pipe1_turn.
  apply wps_bind, checked_sys; [done..|]. intros r s1 E1 Hl1 Hs1.
  destruct (Z.leb_spec (ret r) 0) as [Hle|Hpos].
  { apply wps_ret, HQ; [done|]. exists (t ++ [(Sread fd cc, Some r)]). split; [by rewrite E1, Et, app_assoc|].
    rewrite E1. intros [Hk1 _]%kernel_ok_app. rewrite ins_read, (proj2 (Z.ltb_ge _ _)), app_nil_r by done. by apply Hk. }
  destruct (in_sequence _ _) eqn:Eseq; cbn [negb].
  2: { apply wps_bind, checked_makes; [by apply makes_printf|done|]. intros _ s2 _. apply wps_ret, HN. }
  apply wps_ret. split; [done|]. split_and!; [lia|done|done|].
  exists (t ++ [(Sread fd cc, Some r)]). split; [by rewrite E1, Et, app_assoc|].
  rewrite E1. intros [Hk1 [Hr _]%Forall_cons]%kernel_ok_app. destruct (Hr Hpos) as (Hlen & Hcc & Hu8).
  rewrite ins_read, (proj2 (Z.ltb_lt _ _)), (Hk Hk1) by done. rewrite read_exact in Eseq by done.
  apply in_sequence_spec in Eseq; [|done]. rewrite Eseq, Z2Nat.inj_add, zseq_u8_app by lia.
  rewrite Z.add_0_l, Z2Nat.id by done. do 3 f_equal. lia.
Qed.

(** ** The test *)


(** The child. *)
Definition demo_child : list reply :=
  [mk_reply 0 [3; 4]; mk_reply 0 []; mk_reply 0 []] ++ replicate 5 (mk_reply 1033 []).


(** After a wrong byte pipe1() returns instead of calling exit(1): its process, started by run(), ends
    with exit(0), and the runner reports OK. *)
Lemma wrong_byte_passes :
  let env := replicate 12 (mk_reply 1 []) ++ [mk_reply 0 []; mk_reply 0 [3; 4]; mk_reply 7 []; mk_reply 0 []; mk_reply 1 [9]] ++
             replicate 20 (mk_reply 1 []) in
  let tr := u_trace (final (run pipe1 (str "pipe1") (mk_ust env []))) in
  last tr = Some (Sexit 0, None) /\ outs 1 tr = str "test pipe1: " ++ line "pipe1: pipe1 oops 2".
Proof. vm_compute. done. Qed.

End UtPipe.
