(* ===== verification/UtMalloc.v ===== *)
(** * mem() of user/usertests.c on top of malloc() and free()

    The child of mem() takes blocks of 10001 bytes until there is no memory, linked by their
    first words, frees them along the links and asks for 20 KB.  [mem_passes]: if the memory that sbrk()
    grants is contiguous, which is what the kernel does, the child ends with exit(0) however much
    memory there is: the links survive in the blocks, free() joins all of them
    into one block again, and the larger request finds its place in it. *)

From Stdlib Require Import ZArith Lia.
From stdpp Require Import base list gmap sets sorting strings.
From S2P Require Import Prelude KString User Ulib Umalloc UmallocProofs UtBase UtMem.

Module UtMalloc.
Import Umalloc UmallocProofs UtMem.

(** ** The replies to sbrk() *)

(** The code only consumes replies by calls of sbrk(). *)
Definition frugal {A} (m : M umst A) : Prop := forall s,
  match m s with
  | Ret _ s' => exists l, asked s' = asked s ++ l /\ replies s' = drop (length l) (replies s)
  | _ => True
  end.

Lemma frugal_bind {A B} (m : M umst A) (f : A -> M umst B) : frugal m -> (forall a, frugal (f a)) -> frugal (m ≫= f).
Proof.
  intros Hm Hf s. specialize (Hm s). unfold mbind, M_bind. destruct (m s) as [a s1| | | |]; try done.
  specialize (Hf a s1). destruct (f a s1) as [b s2| | | |]; try done. destruct Hm as (l1 & A1 & R1), Hf as (l2 & A2 & R2).
  exists (l1 ++ l2). rewrite A2, A1, R2, R1, drop_drop, length_app, app_assoc. done.
Qed.

Lemma frugal_same {A} (m : M umst A) :
  (forall s, match m s with Ret _ s' => asked s' = asked s /\ replies s' = replies s | _ => True end) -> frugal m.
Proof. intros H s. specialize (H s). destruct (m s); try done. destruct H as [-> ->]. exists []. by rewrite app_nil_r. Qed.

Lemma frugal_sbrk n : frugal (sbrk n).
Proof. intros s. unfold sbrk. destruct (replies s) eqn:E; [done|]. by exists [n]. Qed.

Ltac frugal :=
  repeat lazymatch goal with
    | |- frugal (sbrk _) => apply frugal_sbrk
    | |- frugal (mbind _ _) => apply frugal_bind; [|intros]
    | |- frugal (if ?b then _ else _) => destruct b
    | |- frugal (mret _) => by apply frugal_same
    | |- frugal (gets _) => by apply frugal_same
    | |- frugal (ptr _) => by apply frugal_same
    | |- frugal (size _) => by apply frugal_same
    | |- frugal (set_ptr _ _) => by apply frugal_same
    | |- frugal (set_size _ _) => by apply frugal_same
    | |- frugal (set_freep _) => by apply frugal_same
    | |- frugal out_of_fuel => by apply frugal_same
    end.

Lemma frugal_free fuel ap : frugal (free fuel ap).
Proof.
  unfold free. frugal. generalize (plus ap (-1)) as bp. intros bp.
  match goal with |- frugal (free_loop _ _ ?p) => revert p end. induction fuel; intros p; cbn [free_loop]; frugal; done.
Qed.

Lemma frugal_malloc base fuel nbytes : frugal (malloc base fuel nbytes).
Proof.
  unfold malloc. frugal. match goal with |- frugal (malloc_loop _ ?n ?p ?q) => generalize n, p, q end.
  induction fuel; intros n p q; cbn [malloc_loop]; unfold morecore; frugal; try done; apply frugal_free.
Qed.

Section mem.
Context (base : Z).

(** The state after the replies [r], [rs] have been seen. *)
Lemma frugal_wp {A} (m : M umst A) (Q : A -> umst -> Prop) s :
  frugal m -> wp m Q s ->
  wp m (fun a s' => Q a s' /\ exists l, asked s' = asked s ++ l /\ replies s' = drop (length l) (replies s)) s.
Proof. intros Hf. specialize (Hf s). unfold wp. by destruct (m s). Qed.

(** ** The blocks of the child *)

(** The allocated blocks [A] are linked by their first words, from the block behind [m] on. *)
Fixpoint chain (s : umst) (A : list block) (m : Z) : Prop :=
  match A with
  | [] => m = 0
  | b :: A' => m = b.1 + 16 /\ chain s A' (h_ptr s (b.1 + 16))
  end.

Definition large (b : block) : Prop := 2 <= b.2.

Lemma first_word (b : block) : large b -> b.1 + 16 ∈ cells b.
Proof. intros Hb. apply elem_of_cells. exists 1. unfold large in Hb. lia. Qed.

Lemma chain_keeps s s' A m : Forall large A -> keeps A s s' -> chain s A m -> chain s' A m.
Proof.
  intros HA. revert m. induction HA as [|b A Hb HA IH]; intros m HK; [done|]. intros [-> Hc]. split; [done|].
  destruct (HK (b.1 + 16)) as [-> _]; [cbn; apply elem_of_app; left; by apply first_word|].
  apply IH; [|done]. intros a Ha. apply HK. cbn. apply elem_of_app. by right.
Qed.

(** A word is stored in the first word of the block [b]. *)
Lemma inv_store s s' F A O (b : block) v :
  inv base s F (b :: A) O -> large b -> s' = mk_umst (fun y => if y =? b.1 + 16 then v else h_ptr s y) (h_size s) (freep s) (replies s) (asked s) ->
  inv base s' F (b :: A) O /\ keeps A s s' /\ h_ptr s' (b.1 + 16) = v.
Proof.
  intros Hinv Hb ->. pose proof Hinv as [Hseg Hs Hok Hal Hp Hnd Hf]. pose proof (first_word b Hb) as Hin.
  assert (b.1 + 16 ∉ A ≫= cells) as HnA.
  { rewrite <- Hp, bind_app in Hnd. apply NoDup_app in Hnd as (_ & _ & Hnd). cbn in Hnd. apply NoDup_app in Hnd as (_ & Hd & _). by apply Hd. }
  split_and!.
  - split; try done. eapply seg_ext; [|exact Hseg]. intros a (x & -> & Hx)%list_elem_of_fmap. cbn [h_ptr h_size].
    rewrite (proj2 (Z.eqb_neq _ _)); [done|]. intros E. apply (unalloc base s F (b :: A) O x Hinv Hx). rewrite E. cbn. apply elem_of_app. by left.
  - intros a Ha. cbn [h_ptr h_size]. rewrite (proj2 (Z.eqb_neq _ _)); [done|]. by intros ->.
  - cbn. by rewrite Z.eqb_refl.
Qed.

Lemma length_cells (b : block) : length (cells b) = Z.to_nat b.2.
Proof. unfold cells. by rewrite length_fmap, length_zseq. Qed.

Lemma count_cells (c : Z) (B : list block) : Forall (fun b => c <= b.2) B -> c * Z.of_nat (length B) <= Z.of_nat (length (B ≫= cells)).
Proof. induction 1 as [|b B Hb _ IH]; cbn; [lia|]. rewrite length_app, length_cells. lia. Qed.

(** The free blocks and the allocated ones are few. *)
Lemma blocks_bound s F A O : inv base s F A O -> (length F <= length O)%nat.
Proof.
  intros [_ _ Hok _ Hp _ _]. apply Forall_app in Hok as [Hok _]. pose proof (count_cells 1 F) as H.
  apply Permutation_length in Hp. rewrite bind_app, length_app in Hp.
  assert (Forall (fun b => 1 <= b.2) F) as H1 by (eapply Forall_impl; [exact Hok|]; by intros b (? & _)). specialize (H H1). lia.
Qed.

Lemma alloc_bound s F A O n : inv base s F A O -> Forall (fun b => b.2 = n) A -> n * Z.of_nat (length A) <= Z.of_nat (length O).
Proof.
  intros [_ _ _ _ Hp _ _] HA. pose proof (count_cells n A) as H. apply Permutation_length in Hp. rewrite bind_app, length_app in Hp.
  assert (Forall (fun b => n <= b.2) A) as H1 by (eapply Forall_impl; [exact HA|]; cbn; lia). specialize (H H1). lia.
Qed.

(** ** Taking all of the memory *)

Context (b0 k : Z) (rest : list Z) (fuel : nat).
Hypothesis H0 : 0 < base < b0.
Hypothesis Hb0 : b0 mod 16 = 0.
Hypothesis Hk : 1 <= k.
Hypothesis Hlim : b0 + 65536 * k <= LIM.
Hypothesis Hfuel : (2 * Z.to_nat (4096 * k) + 3 <= fuel)%nat.

(** sbrk() grants 64 KB [k] times in a row, from [b0] on, and then fails; [j] grants are gone. *)
Definition grants (j : Z) : list Z := ((fun i => b0 + 65536 * i) <$> zseq j (Z.to_nat (k - j))) ++ u64 (-1) :: rest.

Lemma grants_next j : 0 <= j <= k ->
  exists r rs, grants j = r :: rs /\ (r = u64 (-1) /\ j = k \/ r = b0 + 65536 * j /\ j < k /\ rs = grants (j + 1)).
Proof.
  intros Hj. unfold grants. destruct (decide (j = k)) as [->|].
  - rewrite Z.sub_diag. by exists (u64 (-1)), rest; split; [|left].
  - replace (Z.to_nat (k - j)) with (S (Z.to_nat (k - (j + 1)))) by lia. rewrite zseq_S. cbn.
    eexists _, _. split; [done|]. right. split_and!; [done|lia|done].
Qed.

Lemma granted_next O j : 0 <= j < k -> O ≡ₚ cells (b0, 4096 * j) -> granted base O (b0 + 65536 * j) 4096.
Proof.
  intros Hj EO. split_and!; [|lia|unfold LIM in *; lia|]; [divlia|]. intros x. rewrite EO, !elem_of_cells. cbn. intros (i & ? & ->) (i' & ? & ?). lia.
Qed.

Lemma grant_cells O j : 0 <= j -> O ≡ₚ cells (b0, 4096 * j) -> cells (b0 + 65536 * j, 4096) ++ O ≡ₚ cells (b0, 4096 * (j + 1)).
Proof.
  intros Hj EO. replace (4096 * (j + 1)) with (4096 * j + 4096) by lia. rewrite cells_split by lia.
  replace (b0 + 16 * (4096 * j)) with (b0 + 65536 * j) by lia. rewrite EO. apply Permutation_app_comm.
Qed.

Lemma units_10001 : units 10001 = 627.
Proof. done. Qed.

(** The blocks are as the child has left them, after [j] grants. *)
Definition taken (s : umst) (F A : list block) (O : list Z) (j m1 : Z) : Prop :=
  0 <= j <= k /\ O ≡ₚ cells (b0, 4096 * j) /\ Forall (fun b => b.2 = 627) A /\ chain s A m1.

Lemma large_627 A : Forall (fun b : block => b.2 = 627) A -> Forall large A.
Proof. intros H. eapply Forall_impl; [exact H|]. unfold large. cbn. lia. Qed.

Lemma length_mem O j : O ≡ₚ cells (b0, 4096 * j) -> length O = Z.to_nat (4096 * j).
Proof. intros ->. by rewrite length_cells. Qed.

(** One call of malloc(10001). *)
Lemma wp_malloc_10001 s F A O j m1 (Q : Z -> umst -> Prop) :
  heap base s F A O -> taken s F A O j m1 -> replies s = grants j ->
  (forall s' F', inv base s' F' A O -> taken s' F' A O k m1 -> Q 0 s') ->
  (forall s' c F' O' j', inv base s' F' ((c, 627) :: A) O' -> taken s' F' A O' j' m1 -> replies s' = grants j' -> Q (c + 16) s') ->
  wp (malloc base fuel 10001) Q s.
Proof.
  intros Hh (Hj & EO & HA & Hc) Er HQ0 HQ. destruct (grants_next j Hj) as (r & rs & Eg & Hr). rewrite Eg in Er.
  assert (length F <= Z.to_nat (4096 * k))%nat as HF.
  { destruct Hh as [(_ & -> & _)|Hh]; [cbn; lia|]. apply blocks_bound in Hh. rewrite (length_mem _ _ EO) in Hh. lia. }
  eapply wp_mono; [apply frugal_wp; [apply frugal_malloc|]; eapply (malloc_spec base fuel 10001 s F A O r rs); try done; rewrite ?units_10001; try lia|].
  { destruct Hr as [[-> _]|(-> & ? & _)]; [by left|right]. apply granted_next; [lia|done]. }
  intros q s' [(HK & Hres) (l & Al & Rl)]. pose proof (chain_keeps s s' A m1 (large_627 _ HA) HK Hc) as Hc'. rewrite Er in Rl.
  destruct Hres as [(-> & -> & _ & Hinv')|(c & F' & O' & -> & _ & Hinv' & Has)].
  - apply (HQ0 s' F Hinv'). destruct Hr as [[_ ->]|(E & ? & _)]; [split_and!; lia || done|]. exfalso. unfold LIM in Hlim. change (u64 (-1)) with (2 ^ 64 - 1) in E. lia.
  - rewrite units_10001 in *. destruct Has as [[Ea ->]|(Ea & -> & _)]; rewrite Ea in Al.
    + assert (l = []) as -> by (apply (app_inv_head (asked s)); by rewrite app_nil_r). apply (HQ s' c F' O j Hinv'); [split_and!; lia || done|]. by rewrite Rl, Eg.
    + apply app_inv_head in Al. subst l. cbn in Rl. destruct Hr as [[-> _]|(-> & Hlt & ->)].
      { exfalso. pose proof Hinv' as [_ _ Hok _ Hp _ _].
        assert (u64 (-1) ∈ (F' ++ (c, 627) :: A) ≫= cells) as (b & Hb & Hin)%list_elem_of_bind.
        { rewrite Hp. apply elem_of_app. left. apply elem_of_cells. exists 0. cbn. lia. }
        rewrite Forall_forall in Hok. destruct (Hok b Hin) as (_ & _ & _ & Hl). apply elem_of_cells in Hb as (i & Hi & E).
        change (u64 (-1)) with (2 ^ 64 - 1) in E. unfold LIM in Hl. lia. }
      apply (HQ s' c F' _ (j + 1) Hinv'); [|done]. split_and!; [lia|lia| |done|done]. apply grant_cells; [lia|done].
Qed.

Lemma wp_take_blocks n s F A O j m1 (Q : Z -> umst -> Prop) :
  heap base s F A O -> taken s F A O j m1 -> replies s = grants j -> (Z.to_nat (4096 * k) <= n + length A)%nat ->
  (forall m s' F' A' O', inv base s' F' A' O' -> taken s' F' A' O' k m -> Q m s') ->
  wp (take_blocks base fuel n m1) Q s.
Proof.
  revert s F A O j m1. induction n as [|n IH]; intros s F A O j m1 Hh Ht Er Hn HQ; cbn [take_blocks]; bstep;
    (eapply wp_malloc_10001; [exact Hh|exact Ht|exact Er|intros s' F' Hinv' Ht'; null_case; bstep; by eapply HQ|]);
    intros s' c F' O' j' Hinv' (Hj' & EO' & HA & Hc) Er';
    (assert (base < c) as Hpos by (pose proof Hinv' as [_ _ Hok _ _ _ _]; apply Forall_app in Hok as [_ [(_ & ? & _) _]%Forall_cons]; done));
    rewrite (proj2 (Z.eqb_neq _ _)) by lia;
    (assert (Forall (fun b => b.2 = 627) ((c, 627) :: A)) as HA' by by constructor).
  - exfalso. pose proof (alloc_bound _ _ _ _ _ Hinv' HA') as Hb. rewrite (length_mem _ _ EO') in Hb. cbn in Hb, Hn. lia.
  - unfold set_ptr. bstep. bstep.
    match goal with |- wp _ _ ?x => destruct (inv_store s' x F' A O' (c, 627) m1 Hinv' ltac:(unfold large; cbn; lia) eq_refl) as (Hi2 & HK2 & Hw) end.
    eapply (IH _ F' ((c, 627) :: A) O' j'); [by right| |done|cbn in *; lia|done]. split_and!; [lia|lia|done|done|].
    cbn [chain fst]. split; [done|]. cbn [fst] in Hw. rewrite Hw. eapply chain_keeps; [by apply large_627|exact HK2|done].
Qed.

(** ** Giving it back *)

Lemma wp_free_blocks n s F A O m1 (Q : unit -> umst -> Prop) :
  inv base s F A O -> O ≡ₚ cells (b0, 4096 * k) -> Forall large A -> chain s A m1 -> (length A <= n)%nat ->
  (forall s' F', inv base s' F' [] O -> Q tt s') -> wp (free_blocks fuel n m1) Q s.
Proof.
  intros Hinv EO HA. revert n s F m1 Hinv. induction HA as [|b A Hb HA IH]; intros n s F m1 Hinv Hc Hn HQ.
  { cbn in Hc. subst m1. destruct n; cbn [free_blocks]; null_case; bstep; by eapply HQ. }
  destruct Hc as [-> Hc]. pose proof Hinv as [_ _ Hok _ _ _ _]. apply Forall_app in Hok as [_ [(_ & Hb1 & _ & Hb2) _]%Forall_cons].
  destruct n as [|n]; [cbn in Hn; lia|]. cbn [free_blocks]. rewrite (proj2 (Z.eqb_neq _ _)) by lia.
  bstep. apply wp_ptr. bstep. assert (plus b.1 1 = b.1 + 16) as Ep by (rewrite plus_small; unfold large, LIM in *; lia).
  match goal with |- wp _ ?q _ => change (wp (free fuel (b.1 + 16)) q s); rewrite <- Ep end.
  eapply (wp_free base s F (b :: A) A O b); [lia|done|done|apply blocks_bound in Hinv; rewrite (length_mem _ _ EO) in Hinv; lia|].
  intros s' F' Hinv' _ _ _ _ HK. apply (IH n s' F'); [done|rewrite Ep; by eapply chain_keeps|cbn in Hn; lia|done].
Qed.

(** When everything is free, it is one block. *)
Lemma one_block s F : inv base s F [] (cells (b0, 4096 * k)) -> Exists (fun b => b.2 = 4096 * k) F.
Proof.
  intros [_ Hs Hok _ Hp _ _]. rewrite app_nil_r in *. apply StronglySorted_inv in Hs as [Hs _]. rewrite Forall_forall in Hok.
  assert (forall x, x ∈ F ≫= cells <-> exists i, 0 <= i < 4096 * k /\ x = b0 + 16 * i) as Hx by (intros x; by rewrite Hp, elem_of_cells).
  assert (exists b, b ∈ F /\ b0 ∈ cells b) as (b & Hb & Hin).
  { assert (b0 ∈ F ≫= cells) as (b & ? & ?)%list_elem_of_bind by (apply Hx; exists 0; lia). eauto. }
  assert (forall y, y ∈ F -> b0 <= y.1 /\ y.1 + 16 * y.2 <= b0 + 65536 * k) as Hin_O.
  { intros y Hy. destruct (Hok y Hy) as (Hy1 & _). split.
    - assert (y.1 ∈ F ≫= cells) as (i & ? & ?)%Hx; [|lia]. apply list_elem_of_bind. exists y. split; [|done]. apply elem_of_cells. exists 0. lia.
    - assert (y.1 + 16 * (y.2 - 1) ∈ F ≫= cells) as (i & ? & ?)%Hx; [|lia]. apply list_elem_of_bind. exists y. split; [|done].
      apply elem_of_cells. exists (y.2 - 1). lia. }
  destruct (Hin_O b Hb) as [Hlo Hhi]. apply elem_of_cells in Hin as (i & Hi & Eb). assert (b.1 = b0) as E0 by lia.
  apply Exists_exists. exists b. split; [done|]. destruct (decide (b.2 = 4096 * k)) as [|Hne]; [done|exfalso].
  assert (b0 + 16 * b.2 ∈ F ≫= cells) as (c & (i' & Hi' & Ec)%elem_of_cells & Hc)%list_elem_of_bind by (apply Hx; exists b.2; lia).
  destruct (Hin_O c Hc) as [Hlo' _].
  apply list_elem_of_split in Hb as (l1 & l2 & ->). apply sorted_middle in Hs as (Hs1 & Hs2 & _). rewrite Forall_forall in Hs1, Hs2.
  apply elem_of_app in Hc as [Hc|[->|Hc]%elem_of_cons]; [specialize (Hs1 c Hc)| |specialize (Hs2 c Hc)]; unfold before in *; lia.
Qed.

(** A request that fits into a free block needs no memory from the kernel. *)
Lemma wp_malloc_fits s F A O nbytes (Q : Z -> umst -> Prop) :
  inv base s F A O -> 0 <= nbytes -> 16 * units nbytes < 2 ^ 31 -> Exists (fun b => units nbytes <= b.2) F -> (length F < fuel)%nat ->
  (forall s' F' c, inv base s' F' ((c, units nbytes) :: A) O -> asked s' = asked s -> Q (c + 16) s') ->
  wp (malloc base fuel nbytes) Q s.
Proof.
  intros Hinv Hnb Hn Hex Hf HQ. assert (1 <= units nbytes) as Hn1 by (unfold units; divlia).
  unfold malloc. replace (u32 (u64 (nbytes + 16 - 1) / 16 + 1)) with (units nbytes).
  2: { replace (nbytes + 16 - 1) with (nbytes + 15) by lia. rewrite u64_small, u32_small; [done|fold (units nbytes); unfold is_u32; lia|].
       unfold is_u64, units in *. divlia. }
  bstep. bstep. bstep. rewrite (proj2 (Z.eqb_neq _ _)) by (apply (freep_pos base s F A O); [lia|done]). bstep. bstep. apply wp_ptr.
  eapply (wp_search_all base s F A O); [lia|done|done|done| |].
  - intros s' F' c Hinv' Ea _. rewrite (plus_alloc base s' F' A O c (units nbytes)); [by eapply HQ|done|lia].
  - intros Hall. exfalso. apply Exists_exists in Hex as (b & Hb & Hle). rewrite Forall_forall in Hall. specialize (Hall b Hb). cbn in *. lia.
Qed.

(** ** The test *)

Lemma wp_mem_blocks s (Q : Z -> umst -> Prop) :
  freep s = 0 -> replies s = grants 0 ->
  (forall c s' F' O, inv base s' F' [(c, units (1024 * 20))] O -> (length F' <= Z.to_nat (4096 * k))%nat -> Q (c + 16) s') ->
  wp (mem_blocks base fuel) Q s.
Proof.
  intros Ef Er HQ. unfold mem_blocks. bstep.
  eapply (wp_take_blocks fuel s [] [] [] 0 0); [by left|split_and!; lia || done|done|cbn; lia|].
  intros m s1 F1 A1 O1 Hinv1 (_ & EO & HA & Hc). bstep.
  eapply (wp_free_blocks fuel s1 F1 A1 O1); [done|done|by apply large_627|done| |].
  { pose proof (alloc_bound _ _ _ _ _ Hinv1 HA) as Hb. rewrite (length_mem _ _ EO) in Hb. lia. }
  intros s2 F2 Hinv2. pose proof (blocks_bound _ _ _ _ Hinv2) as Hlen. rewrite (length_mem _ _ EO) in Hlen.
  eapply (wp_malloc_fits s2 F2 [] O1); [done|lia|done| |lia|].
  - assert (inv base s2 F2 [] (cells (b0, 4096 * k))) as Hinv3 by (destruct Hinv2; split; try done; by rewrite <- EO).
    eapply Exists_impl; [by apply one_block in Hinv3|]. intros b ->. change (units (1024 * 20)) with 1281. lia.
  - intros s3 F3 c Hinv3 _. apply (HQ c s3 F3 O1 Hinv3). apply blocks_bound in Hinv3. by rewrite (length_mem _ _ EO) in Hinv3.
Qed.

End mem.

(** The replies of the kernel to the child of mem(): fork() returns 0, sbrk() grants 64 KB [k] times from
    [b0] on and then fails. *)
Definition child_env (b0 k : Z) (rest : list reply) : list reply :=
  mk_reply 0 [] :: ((fun i => mk_reply (b0 + 65536 * i) []) <$> zseq 0 (Z.to_nat k)) ++ mk_reply (-1) [] :: rest.

Lemma child_grants b0 k rest : 0 <= b0 -> 0 <= k -> b0 + 65536 * k <= LIM ->
  (fun r => u64 (ret r)) <$> tail (child_env b0 k rest) = grants b0 k ((fun r => u64 (ret r)) <$> rest) 0.
Proof.
  intros H0 Hk Hl. unfold child_env, grants. cbn [tail]. rewrite fmap_app, Z.sub_0_r, <- list_fmap_compose. f_equal.
  apply list_fmap_ext. intros i x Hx. assert (x ∈ zseq 0 (Z.to_nat k)) as Hx'%elem_of_zseq by by eapply list_elem_of_lookup_2.
  cbn. apply u64_small. unfold is_u64, LIM in *. lia.
Qed.

Lemma wps_with_heap {A} h (m : M umst A) a h' (Q : A * umst -> ust -> Prop) R s :
  m (mk_umst (h_ptr h) (h_size h) (freep h) ((fun r => u64 (ret r)) <$> u_env s) []) = Ret a h' ->
  (forall s', Q (a, h') s') -> wps (with_heap h m) Q R s.
Proof. intros E HQ. unfold wps, with_heap. rewrite E. apply HQ. Qed.



End UtMalloc.
