(* ===== verification/Spinlock.v ===== *)
(** * kernel/spinlock.c: spin locks and interrupt nesting

    [lks] is what the running CPU sees of the lock layer: its own [struct cpu]
    (kernel/proc.h), the interrupt-enable bit SIE of its sstatus register, and
    the spin locks of the kernel.  A lock is named by the string given to
    initlock and an index; [locks] maps a lock that is held to the CPU recorded
    in it, so an absent lock has [locked = 0] and [cpu = 0].

    The last section refines acquire and release to the individual memory
    operations (the atomic swap, the store of lk->cpu, the releasing swap)
    and interleaves any number of CPUs. *)

From Stdlib Require Import ZArith Lia.
From stdpp Require Import base list gmap strings.
From S2P Require Import Prelude.

Definition lockid : Type := string * Z.

Record lks := mk_lks {
  hart : Z;                   (* r_tp(): which cpu this is *)
  sie : bool;                 (* SSTATUS_SIE *)
  noff : Z;                   (* cpu->noff *)
  intena : bool;              (* cpu->intena *)
  cproc : option nat;         (* cpu->proc *)
  locks : gmap lockid Z;      (* the held spin locks and their cpu field *)
}.

Definition set_sie (b : bool) (s : lks) : lks :=
  mk_lks (hart s) b (noff s) (intena s) (cproc s) (locks s).
Definition set_noff (n : Z) (s : lks) : lks :=
  mk_lks (hart s) (sie s) n (intena s) (cproc s) (locks s).
Definition set_intena (b : bool) (s : lks) : lks :=
  mk_lks (hart s) (sie s) (noff s) b (cproc s) (locks s).
Definition set_cproc (p : option nat) (s : lks) : lks :=
  mk_lks (hart s) (sie s) (noff s) (intena s) p (locks s).
Definition set_locks (m : gmap lockid Z) (s : lks) : lks :=
  mk_lks (hart s) (sie s) (noff s) (intena s) (cproc s) m.

(** kernel/riscv.h *)
Definition intr_on : M lks unit := modify (set_sie true).
Definition intr_off : M lks unit := modify (set_sie false).
Definition intr_get : M lks bool := gets sie.

(** kernel/proc.c *)
Definition cpuid : M lks Z := gets hart.

Definition initlock (l : lockid) : M lks unit :=
  modify (fun s => set_locks (delete l (locks s)) s).

Definition holding (l : lockid) : M lks bool :=
  gets (fun s => bool_decide (locks s !! l = Some (hart s))).

Definition push_off : M lks unit :=
  old ← intr_get;
  intr_off;;
  n ← gets noff;
  when (n =? 0) (modify (set_intena old));;
  modify (fun s => set_noff (noff s + 1) s).

Definition pop_off : M lks unit :=
  on ← intr_get;
  if (on : bool) then panic "pop_off - interruptible" else
  n ← gets noff;
  if n <? 1 then panic "pop_off" else
  modify (fun s => set_noff (noff s - 1) s);;
  n' ← gets noff;
  ie ← gets intena;
  when ((n' =? 0) && ie) intr_on.

(** The loop on the atomic swap ends at once if the lock is free and never
    ends while another CPU holds it. *)
Definition acquire (l : lockid) : M lks unit :=
  push_off;;
  h ← holding l;
  if (h : bool) then panic "acquire" else
  locked ← gets (fun s => bool_decide (is_Some (locks s !! l)));
  if (locked : bool) then spin else
  modify (fun s => set_locks (<[l := hart s]> (locks s)) s).

Definition release (l : lockid) : M lks unit :=
  h ← holding l;
  if negb h then panic "release" else
  modify (fun s => set_locks (delete l (locks s)) s);;
  pop_off.

Definition myproc : M lks (option nat) :=
  push_off;;
  p ← gets cproc;
  pop_off;;
  mret p.

(** ** Interrupt nesting *)

(** Interrupts are off whenever push_offs are pending. *)
Definition intr_wf (s : lks) : Prop := 0 <= noff s /\ (0 < noff s -> sie s = false).

(** [intena] only means something while a push_off is pending: outside of one
    it is the interrupt state the next push_off will record. *)
Definition settle (s : lks) : lks :=
  if noff s =? 0 then set_intena (sie s) s else s.

Definition is_free (s : lks) (l : lockid) : Prop := locks s !! l = None.

Definition push (s : lks) : lks := set_sie false (set_noff (noff s + 1) (settle s)).

#[global] Arguments settle : simpl never.
#[global] Arguments push : simpl never.

Lemma settle_settle s : settle (settle s) = settle s.
Proof. unfold settle. destruct s; simpl. by destruct (noff0 =? 0) eqn:E; simpl; rewrite E. Qed.

Lemma settle_noff s : noff (settle s) = noff s.
Proof. unfold settle. by destruct (noff s =? 0). Qed.
Lemma settle_sie s : sie (settle s) = sie s.
Proof. unfold settle. by destruct (noff s =? 0). Qed.
Lemma settle_hart s : hart (settle s) = hart s.
Proof. unfold settle. by destruct (noff s =? 0). Qed.
Lemma settle_cproc s : cproc (settle s) = cproc s.
Proof. unfold settle. by destruct (noff s =? 0). Qed.
Lemma settle_locks s : locks (settle s) = locks s.
Proof. unfold settle. by destruct (noff s =? 0). Qed.
Lemma settle_wf s : intr_wf s -> intr_wf (settle s).
Proof. unfold intr_wf. by rewrite settle_noff, settle_sie. Qed.
Lemma settle_free s l : is_free s l -> is_free (settle s) l.
Proof. unfold is_free. by rewrite settle_locks. Qed.
#[export] Hint Resolve settle_wf settle_free : xv6.
#[export] Hint Rewrite settle_settle settle_noff settle_sie settle_hart settle_cproc
  settle_locks : xv6.

Lemma push_locks s : locks (push s) = locks s.
Proof. unfold push. simpl. apply settle_locks. Qed.
Lemma push_hart s : hart (push s) = hart s.
Proof. unfold push. simpl. apply settle_hart. Qed.
Lemma push_cproc s : cproc (push s) = cproc s.
Proof. unfold push. simpl. apply settle_cproc. Qed.
Lemma push_noff s : noff (push s) = noff s + 1.
Proof. done. Qed.
#[export] Hint Rewrite push_locks push_hart push_cproc push_noff : xv6.

Lemma push_off_run s : push_off s = Ret tt (push s).
Proof.
  unfold push_off, push, settle, mbind, M_bind, when, mret, M_ret. simpl.
  destruct s; simpl. by destruct (noff0 =? 0).
Qed.

Lemma push_wf s : intr_wf s -> intr_wf (push s).
Proof. unfold intr_wf, push. simpl. rewrite ?settle_noff. lia. Qed.

(** Undoing a push_off, with the locks changed to [m] in between. *)
Lemma pop_off_push s m :
  intr_wf s -> pop_off (set_locks m (push s)) = Ret tt (set_locks m (settle s)).
Proof.
  intros [H1 H2]. unfold pop_off, push, settle, mbind, M_bind, when, mret, M_ret. simpl.
  destruct s as [h si n ie cp lk]; simpl in *.
  destruct (Z.eqb_spec n 0) as [->|Hn]; simpl.
  - by destruct si.
  - rewrite (proj2 (Z.ltb_ge _ _)) by lia. simpl.
    replace (n + 1 - 1) with n by lia.
    rewrite (proj2 (Z.eqb_neq n 0)) by lia. simpl. rewrite H2 by lia. done.
Qed.

Lemma set_locks_id s : set_locks (locks s) s = s.
Proof. by destruct s. Qed.

Lemma set_locks_settle m s : set_locks m (settle s) = settle (set_locks m s).
Proof. unfold settle. destruct s; simpl. by destruct (noff0 =? 0). Qed.

(** ** Acquire and release *)

(** The lock layer while the running CPU holds [l], taken in state [s]. *)
Definition locked_by (l : lockid) (s : lks) : lks :=
  set_locks (<[l := hart s]> (locks s)) (push s).

Lemma acquire_run l s : is_free s l -> acquire l s = Ret tt (locked_by l s).
Proof.
  unfold is_free. intros Hf. unfold acquire.
  rewrite (bind_run _ _ _ _ _ (push_off_run s)).
  unfold holding, mbind, M_bind. cbn.
  rewrite !push_locks, !push_hart, Hf. rewrite bool_decide_false by done. cbn.
  rewrite push_locks, Hf. rewrite bool_decide_false by (intros [? ?]; done).
  unfold locked_by, modify. by rewrite push_locks, push_hart.
Qed.

Lemma acquire_deadlock l s :
  locks s !! l = Some (hart s) -> acquire l s = Panic "acquire" (push s).
Proof.
  intros Hl. unfold acquire. rewrite (bind_run _ _ _ _ _ (push_off_run s)).
  unfold holding, mbind, M_bind. cbn.
  rewrite push_locks, push_hart, Hl. by rewrite bool_decide_true.
Qed.

(** Releasing a lock that was taken in [s], when the critical section left the
    lock layer as it found it. *)
Lemma release_run l s :
  intr_wf s -> is_free s l -> release l (locked_by l s) = Ret tt (settle s).
Proof.
  intros Hwf Hf. unfold release, holding, mbind, M_bind. cbn.
  rewrite push_hart, lookup_insert_eq, bool_decide_true by done. cbn.
  change (set_locks (delete l (<[l:=hart s]> (locks s))) (locked_by l s))
    with (set_locks (delete l (<[l:=hart s]> (locks s))) (push s)).
  rewrite pop_off_push by done. f_equal.
  rewrite delete_insert_id by done. by rewrite set_locks_settle, set_locks_id.
Qed.

Lemma release_not_held l s :
  locks s !! l <> Some (hart s) -> release l s = Panic "release" s.
Proof.
  intros Hl. unfold release, holding, mbind, M_bind. cbn.
  by rewrite bool_decide_false.
Qed.

Lemma myproc_run s : intr_wf s -> myproc s = Ret (cproc s) (settle s).
Proof.
  intros Hwf. unfold myproc. rewrite (bind_run _ _ _ _ _ (push_off_run s)).
  unfold mbind, M_bind. cbn.
  pose proof (pop_off_push s (locks s) Hwf) as H.
  assert (set_locks (locks s) (push s) = push s) as E.
  { rewrite <- push_locks. apply set_locks_id. }
  rewrite E in H. rewrite H, set_locks_settle, set_locks_id. by rewrite push_cproc.
Qed.

Lemma wp_acquire l Q s : is_free s l -> Q tt (locked_by l s) -> wp (acquire l) Q s.
Proof. intros. eapply wp_run; [by apply acquire_run|done]. Qed.

Lemma wp_release l Q s :
  intr_wf s -> is_free s l -> Q tt (settle s) -> wp (release l) Q (locked_by l s).
Proof. intros. eapply wp_run; [by apply release_run|done]. Qed.

(** Two lock layers that differ at most in a meaningless [intena]: what a CPU
    cannot distinguish before its next push_off. *)
Definition lk_eqv (a b : lks) : Prop := settle a = settle b.
Infix "≈" := lk_eqv (at level 70) : xv6_scope.

#[global] Instance lk_eqv_equivalence : Equivalence lk_eqv.
Proof. split; unfold lk_eqv; intro; intros; congruence. Qed.

Lemma settle_eqv s : settle s ≈ s.
Proof. apply settle_settle. Qed.

Lemma lk_eqv_fields a b :
  a ≈ b -> hart a = hart b /\ sie a = sie b /\ noff a = noff b /\ cproc a = cproc b /\
  locks a = locks b.
Proof.
  unfold lk_eqv. intros E.
  by rewrite <- (settle_hart a), <- (settle_sie a), <- (settle_noff a),
    <- (settle_cproc a), <- (settle_locks a), E, settle_hart, settle_sie, settle_noff,
    settle_cproc, settle_locks.
Qed.

#[global] Instance intr_wf_proper : Proper (lk_eqv ==> iff) intr_wf.
Proof. intros a b (_ & E1 & E2 & _)%lk_eqv_fields. unfold intr_wf. by rewrite E1, E2. Qed.
#[global] Instance is_free_proper : Proper (lk_eqv ==> eq ==> iff) is_free.
Proof. intros a b (_ & _ & _ & _ & E)%lk_eqv_fields l _ <-. unfold is_free. by rewrite E. Qed.
#[global] Instance settle_proper : Proper (lk_eqv ==> eq) settle.
Proof. by intros a b. Qed.

(** [n] nested push_offs followed by [n] pop_offs. *)
Fixpoint push_offs (n : nat) : M lks unit :=
  match n with O => mret tt | S n' => push_off;; push_offs n' end.
Fixpoint pop_offs (n : nat) : M lks unit :=
  match n with O => mret tt | S n' => pop_offs n';; pop_off end.

Lemma settle_push s : intr_wf s -> settle (push s) = push s.
Proof.
  intros [H _]. unfold settle at 1. rewrite push_noff.
  by rewrite (proj2 (Z.eqb_neq _ _)) by lia.
Qed.

Lemma push_pop_offs n s :
  intr_wf s ->
  (push_offs n;; pop_offs n) s = Ret tt (match n with O => s | S _ => settle s end).
Proof.
  revert s. induction n as [|n IH]; intros s Hwf; [done|].
  assert ((push_offs n;; pop_offs n) (push s) = Ret tt (push s)) as E.
  { rewrite IH by by apply push_wf. destruct n; [done|]. by rewrite settle_push. }
  pose proof (pop_off_push s (locks s) Hwf) as Hpop.
  rewrite set_locks_settle, set_locks_id in Hpop.
  rewrite <- (push_locks s) in Hpop at 1. rewrite set_locks_id in Hpop.
  unfold mbind, M_bind in E |- *. cbn.
  unfold mbind, M_bind. rewrite push_off_run.
  destruct (push_offs n (push s)) as [[] s1|? ?|?|?|?] eqn:E1; try discriminate.
  by rewrite E.
Qed.

(** With a lock held, [≈] is equality. *)
Lemma lk_eqv_locked a l s : intr_wf s -> a ≈ locked_by l s -> a = locked_by l s.
Proof.
  intros Hwf E. pose proof (lk_eqv_fields _ _ E) as (_ & _ & En & _). unfold lk_eqv in E.
  assert ((noff (locked_by l s) =? 0) = false) as En0.
  { apply Z.eqb_neq. destruct Hwf. cbn. rewrite push_noff. lia. }
  assert ((noff a =? 0) = false) as En1 by by rewrite En.
  unfold settle in E. by rewrite En0, En1 in E.
Qed.

(** acquire and release in the state of a component on top. *)
Section in_component.
Context {S : Type} {L : Lens S lks}.

Lemma wp_lock l Q (s : S) :
  is_free (lget s) l -> Q tt (lset (locked_by l (lget s)) s) -> wp (↑ acquire l) Q s.
Proof. intros. apply wp_zoom. by apply wp_acquire. Qed.

Lemma wp_unlock l lk Q (s : S) :
  intr_wf lk -> is_free lk l -> lget s ≈ locked_by l lk ->
  Q tt (lset (settle lk) s) -> wp (↑ release l) Q s.
Proof.
  intros Hwf Hf E HQ. apply wp_zoom. rewrite (lk_eqv_locked _ _ _ Hwf E).
  by apply wp_release.
Qed.

Lemma wp_myproc Q (s : S) :
  intr_wf (lget s) -> Q (cproc (lget s)) (lset (settle (lget s)) s) -> wp (↑ myproc) Q s.
Proof. intros. apply wp_zoom. eapply wp_run; [by apply myproc_run|done]. Qed.
End in_component.

Lemma locked_by_wf l s : intr_wf s -> intr_wf (locked_by l s).
Proof. intros. by apply (push_wf s). Qed.

Lemma locked_by_free l l' s : l <> l' -> is_free s l' -> is_free (locked_by l s) l'.
Proof. unfold is_free. intros. cbn. by rewrite lookup_insert_ne. Qed.

Lemma locked_by_cproc l s : cproc (locked_by l s) = cproc s.
Proof. cbn. apply push_cproc. Qed.
Lemma locked_by_hart l s : hart (locked_by l s) = hart s.
Proof. cbn. apply push_hart. Qed.
Lemma locked_by_holding l s : locks (locked_by l s) !! l = Some (hart (locked_by l s)).
Proof. rewrite locked_by_hart. cbn. by rewrite lookup_insert_eq. Qed.

(** Releasing the outer of two locks, as sleep() does. *)
Lemma release_swap l l' s :
  intr_wf s -> is_free s l -> l <> l' ->
  release l (locked_by l' (locked_by l s)) = Ret tt (locked_by l' s).
Proof.
  intros Hwf Hf Hne. pose proof (locked_by_wf l s Hwf) as Hwf'.
  assert (Eset : settle (locked_by l s) = locked_by l s).
  { unfold settle. rewrite (proj2 (Z.eqb_neq _ _)); [done|]. destruct Hwf. cbn. rewrite push_noff. lia. }
  unfold release, holding, mbind, M_bind. cbn.
  rewrite lookup_insert_ne, lookup_insert_eq, !push_hart, (locked_by_hart l s) by done.
  rewrite bool_decide_true by done. cbn.
  match goal with |- pop_off (set_locks ?m _) = _ =>
    change (pop_off (set_locks m (push (locked_by l s))) = Ret tt (locked_by l' s)) end.
  rewrite pop_off_push, Eset by done.
  rewrite delete_insert_ne, delete_insert_id, push_hart by done. reflexivity.
Qed.

#[export] Hint Resolve locked_by_wf locked_by_free : xv6.
#[global] Arguments locked_by : simpl never.

(** Push_off and pop_off are matched: [n] of each leave the interrupt flag
    and the nesting depth of the CPU as they were, and interrupts are off in
    between. *)
Theorem push_pop_restores n s :
  intr_wf s ->
  wp (push_offs n;; pop_offs n)
     (fun _ s' => sie s' = sie s /\ noff s' = noff s /\ locks s' = locks s /\
                  (0 < noff s -> intena s' = intena s)) s /\
  wp (push_offs (S n)) (fun _ s' => sie s' = false) s.
Proof.
  intros Hwf. split.
  - eapply wp_run; [by apply push_pop_offs|].
    destruct n; [done|]. autorewrite with xv6. split_and!; try done.
    intros Hn. unfold settle. by rewrite (proj2 (Z.eqb_neq _ _)) by lia.
  - assert (forall k s0, sie s0 = false -> wp (push_offs k) (fun _ s' => sie s' = false) s0) as H.
    { induction k as [|k IH]; intros s0 H0; cbn [push_offs]; [done|].
      apply wp_bind. eapply wp_run; [apply push_off_run|]. by apply IH. }
    cbn [push_offs]. apply wp_bind. eapply wp_run; [apply push_off_run|]. by apply H.
Qed.

Lemma push_pop_restores_witness :
  wp (push_offs 2;; pop_offs 2) (fun _ s' => sie s' = true) (mk_lks 0 true 0 false None ∅).
Proof.
  destruct (push_pop_restores 2 (mk_lks 0 true 0 false None ∅)) as [H _]; [vm_compute; naive_solver lia|].
  eapply wp_mono; [exact H|]. by intros ? ? [-> _].
Defined.

(** ** Any number of CPUs: mutual exclusion

    One lock, and a program counter per CPU.  A CPU runs acquire(), its critical
    section and release() over and over; each step is one access to the lock's
    memory, so the steps of different CPUs interleave between the accesses. *)
Module Smp.

(** Where a CPU is: outside; in the loop on the swap; past the swap but before
    [lk->cpu = mycpu()]; in the critical section; past [lk->cpu = 0] but before
    the releasing swap; stopped in panic(). *)
Inductive pc := Out | Spinning | Swapped | Critical | Releasing | Panicked.

#[global] Instance pc_eq_dec : EqDecision pc.
Proof. solve_decision. Defined.

(** struct spinlock, with [lcpu = None] for a null cpu pointer, and the pcs. *)
Record state := mk { locked : bool; lcpu : option nat; pcs : nat -> pc }.

Definition upd (f : nat -> pc) (c : nat) (p : pc) : nat -> pc :=
  fun c' => if decide (c' = c) then p else f c'.

(** holding(): [lk->locked && lk->cpu == mycpu()]. *)
Definition holds (s : state) (c : nat) : bool :=
  locked s && bool_decide (lcpu s = Some c).

Inductive step : state -> state -> Prop :=
| step_enter s c :                     (* push_off(); if(holding(lk)) panic *)
    pcs s c = Out -> holds s c = false ->
    step s (mk (locked s) (lcpu s) (upd (pcs s) c Spinning))
| step_acquire_panic s c :
    pcs s c = Out -> holds s c = true ->
    step s (mk (locked s) (lcpu s) (upd (pcs s) c Panicked))
| step_swap_busy s c :                 (* the swap returns 1 *)
    pcs s c = Spinning -> locked s = true ->
    step s (mk true (lcpu s) (pcs s))
| step_swap_free s c :                 (* the swap returns 0 *)
    pcs s c = Spinning -> locked s = false ->
    step s (mk true (lcpu s) (upd (pcs s) c Swapped))
| step_record s c :                    (* lk->cpu = mycpu() *)
    pcs s c = Swapped ->
    step s (mk (locked s) (Some c) (upd (pcs s) c Critical))
| step_clear s c :                     (* if(!holding(lk)) panic; lk->cpu = 0 *)
    pcs s c = Critical -> holds s c = true ->
    step s (mk (locked s) None (upd (pcs s) c Releasing))
| step_release_panic s c :
    pcs s c = Critical -> holds s c = false ->
    step s (mk (locked s) (lcpu s) (upd (pcs s) c Panicked))
| step_unlock s c :                    (* __sync_lock_release; pop_off() *)
    pcs s c = Releasing ->
    step s (mk false (lcpu s) (upd (pcs s) c Out)).

(** initlock() *)
Definition init : state := mk false None (fun _ => Out).

Inductive reachable : state -> Prop :=
| reach_init : reachable init
| reach_step s s' : reachable s -> step s s' -> reachable s'.

(** Between the swap that takes the lock and the one that gives it back. *)
Definition inside (p : pc) : bool :=
  match p with Swapped | Critical | Releasing => true | _ => false end.

Record inv (s : state) : Prop := {
  inv_unique : forall c c', inside (pcs s c) = true -> inside (pcs s c') = true -> c = c';
  inv_locked : forall c, inside (pcs s c) = true -> locked s = true;
  inv_free : locked s = true -> exists c, inside (pcs s c) = true;
  inv_cpu : forall c, lcpu s = Some c <-> pcs s c = Critical;
  inv_nopanic : forall c, pcs s c <> Panicked;
}.

Lemma upd_eq f c p : upd f c p c = p.
Proof. unfold upd. by rewrite decide_True. Qed.
Lemma upd_ne f c p c' : c' <> c -> upd f c p c' = f c'.
Proof. intros. unfold upd. by rewrite decide_False. Qed.

Lemma inv_init : inv init.
Proof. split; simpl; try done. Qed.

Ltac cases c c' :=
  destruct (decide (c' = c)) as [->|];
  [rewrite ?upd_eq in * | rewrite ?upd_ne in * by done].

(** A step that leaves the lock word alone and keeps the CPU on the same side
    of the swaps. *)
Lemma inv_stay s c p o :
  inv s -> inside p = inside (pcs s c) -> p <> Panicked ->
  (forall c', o = Some c' <-> upd (pcs s) c p c' = Critical) ->
  inv (mk (locked s) o (upd (pcs s) c p)).
Proof.
  intros [Hu Hl Hf Hc Hp] Hin Hpn Ho. split; simpl; try done.
  - intros c1 c2 H1 H2. apply Hu.
    + cases c c1; congruence.
    + cases c c2; congruence.
  - intros c1 H1. apply (Hl c1). cases c c1; congruence.
  - intros H. destruct (Hf H) as [c0 Hc0]. exists c0. cases c c0; congruence.
  - intros c1. cases c c1; [congruence|apply Hp].
Qed.

Lemma holds_true s c : holds s c = true -> locked s = true /\ lcpu s = Some c.
Proof.
  unfold holds. destruct (locked s); simpl; [|done].
  by intros ?%bool_decide_eq_true.
Qed.

Lemma inv_step s s' : inv s -> step s s' -> inv s'.
Proof.
  intros HI Hs. pose proof HI as [Hu Hl Hf Hc Hp].
  destruct Hs as [s c E Eh|s c E Eh|s c E El|s c E El|s c E|s c E Eh|s c E Eh|s c E]; simpl in *.
  - apply inv_stay; try done; [by rewrite E|].
    intros c'. rewrite Hc. cases c c'; rewrite ?E; done.
  - apply holds_true in Eh as [_ Eh%Hc]. congruence.
  - by destruct s; simpl in *; subst.
  - assert (forall c0, inside (pcs s c0) = false) as Hno.
    { intros c0. destruct (inside (pcs s c0)) eqn:?; [|done]. apply Hl in Heqb. congruence. }
    split; simpl; try done.
    + intros c1 c2 H1 H2. cases c c1; cases c c2; try done; rewrite Hno in *; done.
    + exists c. by rewrite upd_eq.
    + intros c'. rewrite Hc. cases c c'; rewrite ?E; done.
    + intros c'. cases c c'; [done|apply Hp].
  - apply inv_stay; try done; [by rewrite E|]. intros c'. cases c c'; [done|].
    split; [congruence|]. intros H'. exfalso. apply n, Hu; by rewrite ?H', ?E.
  - apply inv_stay; try done; [by rewrite E|]. intros c'. cases c c'; [done|].
    split; [done|]. intros H'. exfalso. apply n, Hu; by rewrite ?H', ?E.
  - unfold holds in Eh. rewrite (Hl c) in Eh by by rewrite E.
    rewrite bool_decide_true in Eh; [done|]. by apply Hc.
  - split; simpl; try done.
    + intros c1 c2 H1 H2. apply Hu; [cases c c1|cases c c2]; done.
    + intros c1 H1. exfalso. cases c c1; [done|]. apply n, Hu; by rewrite ?E.
    + intros c'. rewrite Hc. cases c c'; rewrite ?E; done.
    + intros c'. cases c c'; [done|apply Hp].
Qed.

Lemma inv_reachable s : reachable s -> inv s.
Proof. induction 1; [apply inv_init|by eapply inv_step]. Qed.

(** C30: under every interleaving of the memory accesses of acquire and release
    on any number of CPUs, at most one CPU is in the critical section, holding()
    is true on exactly that CPU, and no panic is reached. *)
Theorem mutual_exclusion s :
  reachable s ->
  (forall c c', pcs s c = Critical -> pcs s c' = Critical -> c = c') /\
  (forall c, holds s c = true <-> pcs s c = Critical) /\
  (forall c, pcs s c <> Panicked).
Proof.
  intros [Hu Hl Hf Hc Hp]%inv_reachable. split_and!; [| |done].
  - intros c c' H H'. apply Hu; by rewrite ?H, ?H'.
  - intros c. split.
    + by intros [_ ?%Hc]%holds_true.
    + intros H. unfold holds. rewrite (Hl c) by by rewrite H.
      apply bool_decide_eq_true. by apply Hc.
Qed.

(** Two CPUs: one takes the lock, the other spins. *)
Lemma mutual_exclusion_witness :
  exists s, reachable s /\ pcs s 0%nat = Critical /\ pcs s 1%nat = Spinning /\
    forall c, pcs s c = Critical -> c = 0%nat.
Proof.
  set (s1 := mk false None (upd (fun _ => Out) 0 Spinning)).
  set (s2 := mk true None (upd (pcs s1) 0 Swapped)).
  set (s3 := mk true (Some 0%nat) (upd (pcs s2) 0 Critical)).
  set (s4 := mk true (Some 0%nat) (upd (pcs s3) 1 Spinning)).
  assert (reachable s4) as R.
  { apply (reach_step s3); [|by apply (step_enter s3 1)].
    apply (reach_step s2); [|by apply (step_record s2 0)].
    apply (reach_step s1); [|by apply (step_swap_free s1 0)].
    apply (reach_step init); [constructor|by apply (step_enter init 0)]. }
  exists s4. split_and!; [exact R|reflexivity|reflexivity|].
  intros c Hc. by apply (proj1 (mutual_exclusion s4 R)).
Defined.

End Smp.
