(* ===== verification/Riscv.v ===== *)
(** * kernel/riscv.h and kernel/memlayout.h: pages, PTEs and addresses

    The address arithmetic of the Sv39 page tables, with the C bit operations,
    and its meaning in terms of division and remainder. *)

From Stdlib Require Import ZArith Lia.
From stdpp Require Import base list.
From S2P Require Import Prelude.

Definition PGSIZE : Z := 4096.
Definition PGSHIFT : Z := 12.
Definition PGROUNDUP (sz : Z) : Z := Z.land (u64 (sz + PGSIZE - 1)) (Z.lnot (PGSIZE - 1)).
Definition PGROUNDDOWN (a : Z) : Z := Z.land a (Z.lnot (PGSIZE - 1)).

Definition PTE_V : Z := Z.shiftl 1 0.
Definition PTE_R : Z := Z.shiftl 1 1.
Definition PTE_W : Z := Z.shiftl 1 2.
Definition PTE_X : Z := Z.shiftl 1 3.
Definition PTE_U : Z := Z.shiftl 1 4.

Definition PA2PTE (pa : Z) : Z := Z.shiftl (Z.shiftr pa 12) 10.
Definition PTE2PA (pte : Z) : Z := u64 (Z.shiftl (Z.shiftr pte 10) 12).
Definition PTE_FLAGS (pte : Z) : Z := Z.land pte 1023.

Definition PXMASK : Z := 511.
Definition PXSHIFT (level : Z) : Z := PGSHIFT + 9 * level.
Definition PX (level va : Z) : Z := Z.land (Z.shiftr va (PXSHIFT level)) PXMASK.
Definition MAXVA : Z := Z.shiftl 1 (9 + 9 + 9 + 12 - 1).

Definition KERNBASE : Z := 2147483648.   (* 0x80000000 *)
Definition PHYSTOP : Z := KERNBASE + 128 * 1024 * 1024.
Definition TRAMPOLINE : Z := MAXVA - PGSIZE.
Definition KSTACK (p : Z) : Z := TRAMPOLINE - (p + 1) * 2 * PGSIZE.
Definition TRAPFRAME : Z := TRAMPOLINE - PGSIZE.

(** [x & bit] as a condition. *)
Definition has (x bit : Z) : bool := negb (Z.land x bit =? 0).

(** ** Arithmetic meaning *)

Lemma land_lnot_ones a n : 0 <= n -> Z.land a (Z.lnot (2 ^ n - 1)) = a - a mod 2 ^ n.
Proof.
  intros. rewrite <- Z.ldiff_land.
  replace (2 ^ n - 1) with (Z.ones n) by (rewrite Z.ones_equiv; lia).
  rewrite Z.ldiff_ones_r, Z.shiftl_mul_pow2, Z.shiftr_div_pow2 by lia.
  pose proof (Z.div_mod a (2 ^ n) (Z.pow_nonzero 2 n ltac:(lia) ltac:(lia))). lia.
Qed.

Lemma PGROUNDDOWN_eq a : PGROUNDDOWN a = a - a mod PGSIZE.
Proof. unfold PGROUNDDOWN. apply (land_lnot_ones a 12). lia. Qed.

Lemma PGROUNDUP_eq sz :
  0 <= sz -> sz + PGSIZE <= 2 ^ 64 -> PGROUNDUP sz = (sz + 4095) / PGSIZE * PGSIZE.
Proof.
  intros. unfold PGROUNDUP. rewrite u64_small by (unfold is_u64, PGSIZE in *; lia).
  rewrite (land_lnot_ones _ 12) by lia. unfold PGSIZE in *.
  change (2 ^ 12) with 4096. divlia.
Qed.

Lemma PA2PTE_eq pa : PA2PTE pa = pa / 4096 * 1024.
Proof.
  unfold PA2PTE. by rewrite Z.shiftl_mul_pow2, Z.shiftr_div_pow2 by lia.
Qed.

Lemma PTE2PA_eq pte : PTE2PA pte = (pte / 1024 * 4096) mod 2 ^ 64.
Proof.
  unfold PTE2PA, u64. by rewrite Z.shiftl_mul_pow2, Z.shiftr_div_pow2 by lia.
Qed.

Lemma PTE_FLAGS_eq pte : PTE_FLAGS pte = pte mod 1024.
Proof. unfold PTE_FLAGS. change 1023 with (Z.ones 10). by rewrite Z.land_ones by lia. Qed.

Lemma PX_eq level va : 0 <= level -> PX level va = (va / 2 ^ (12 + 9 * level)) mod 512.
Proof.
  intros. unfold PX, PXSHIFT, PXMASK, PGSHIFT. change 511 with (Z.ones 9).
  by rewrite Z.land_ones, Z.shiftr_div_pow2 by lia.
Qed.

Lemma MAXVA_eq : MAXVA = 2 ^ 38.
Proof. reflexivity. Qed.

Lemma PX_range level va : 0 <= level -> 0 <= PX level va < 512.
Proof. intros. rewrite PX_eq by done. apply Z.mod_pos_bound. lia. Qed.

(** The three indices determine the page. *)
Lemma PX_inj va va' :
  0 <= va < 2 * MAXVA -> 0 <= va' < 2 * MAXVA ->
  PX 2 va = PX 2 va' -> PX 1 va = PX 1 va' -> PX 0 va = PX 0 va' ->
  PGROUNDDOWN va = PGROUNDDOWN va'.
Proof.
  rewrite MAXVA_eq, !PX_eq, !PGROUNDDOWN_eq by lia. unfold PGSIZE.
  change (2 ^ (12 + 9 * 2)) with 1073741824. change (2 ^ (12 + 9 * 1)) with 2097152.
  change (2 ^ (12 + 9 * 0)) with 4096. intros. divlia.
Qed.

Lemma PX_PGROUNDDOWN level va : 0 <= level -> PX level (PGROUNDDOWN va) = PX level va.
Proof.
  intros. rewrite !PX_eq, PGROUNDDOWN_eq by done. unfold PGSIZE. f_equal.
  rewrite Z.pow_add_r by lia. change (2 ^ 12) with 4096.
  rewrite <- !Z.div_div by lia. f_equal. divlia.
Qed.

Lemma lor_disjoint x f n :
  0 <= n -> 0 <= f < 2 ^ n -> Z.lor (x * 2 ^ n) f = x * 2 ^ n + f.
Proof.
  intros Hn Hf.
  assert (Z.land (x * 2 ^ n) f = 0) as E.
  { apply Z.bits_inj'. intros i Hi. rewrite Z.land_spec, Z.bits_0.
    rewrite <- Z.shiftl_mul_pow2 by lia. rewrite Z.shiftl_spec by lia.
    destruct (decide (i < n)).
    - rewrite Z.testbit_neg_r by lia. done.
    - rewrite <- (Z.mod_small f (2 ^ n)) by lia.
      rewrite Z.mod_pow2_bits_high by lia. apply andb_false_r. }
  rewrite <- Z.lxor_lor by done. by rewrite Z.add_nocarry_lxor.
Qed.

(** The PTE that mappages writes: [PA2PTE(pa) | fl]. *)
Lemma pte_eq pa fl : 0 <= fl < 1024 -> Z.lor (PA2PTE pa) fl = pa / 4096 * 1024 + fl.
Proof. intros. rewrite PA2PTE_eq. by apply (lor_disjoint _ _ 10). Qed.

Lemma PTE2PA_pte pa fl :
  0 <= pa < 2 ^ 56 -> pa mod PGSIZE = 0 -> 0 <= fl < 1024 ->
  PTE2PA (Z.lor (PA2PTE pa) fl) = pa.
Proof.
  intros. rewrite pte_eq, PTE2PA_eq by done. unfold PGSIZE in *. divlia.
Qed.

Lemma PTE_FLAGS_pte pa fl : 0 <= fl < 1024 -> PTE_FLAGS (Z.lor (PA2PTE pa) fl) = fl.
Proof. intros. rewrite pte_eq, PTE_FLAGS_eq by done. divlia. Qed.

Lemma pte_u64 pa fl :
  0 <= pa < 2 ^ 56 -> 0 <= fl < 1024 -> is_u64 (Z.lor (PA2PTE pa) fl).
Proof. intros. rewrite pte_eq by done. unfold is_u64. divlia. Qed.

Lemma land_lor_low x fl b n :
  0 <= n -> 0 <= fl -> 0 <= b < 2 ^ n -> Z.land (Z.lor (x * 2 ^ n) fl) b = Z.land fl b.
Proof.
  intros Hn Hf Hb. rewrite Z.land_lor_distr_l.
  assert (Z.land (x * 2 ^ n) b = 0) as ->; [|by rewrite Z.lor_0_l].
  apply Z.bits_inj'. intros i Hi. rewrite Z.land_spec, Z.bits_0.
  rewrite <- Z.shiftl_mul_pow2 by lia. rewrite Z.shiftl_spec by lia.
  destruct (decide (i < n)).
  - by rewrite Z.testbit_neg_r by lia.
  - rewrite <- (Z.mod_small b (2 ^ n)) by lia.
    rewrite Z.mod_pow2_bits_high by lia. apply andb_false_r.
Qed.

(** The flag bits of a PTE are those of its flags. *)
Lemma has_pte pa fl b :
  0 <= fl -> 0 <= b < 1024 -> has (Z.lor (PA2PTE pa) fl) b = has fl b.
Proof.
  intros. unfold has. rewrite PA2PTE_eq. change 1024 with (2 ^ 10).
  by rewrite (land_lor_low (pa / 4096) fl b 10) by lia.
Qed.

Lemma lor_range a b n : 0 <= n -> 0 <= a < 2 ^ n -> 0 <= b < 2 ^ n -> 0 <= Z.lor a b < 2 ^ n.
Proof.
  intros Hn Ha Hb. assert (0 <= Z.lor a b) by (apply Z.lor_nonneg; lia). split; [done|].
  destruct (decide (Z.lor a b = 0)) as [->|]; [lia|].
  apply Z.log2_lt_pow2; [lia|]. rewrite Z.log2_lor by lia.
  assert (forall x, 0 <= x < 2 ^ n -> x <> 0 -> Z.log2 x < n) as Hlog.
  { intros. apply Z.log2_lt_pow2; lia. }
  destruct (decide (a = 0)) as [->|]; destruct (decide (b = 0)) as [->|];
    [done|..]; simpl; try (apply Z.max_lub_lt); try (apply Hlog; lia);
    change (Z.log2 0) with 0 in *.
  - pose proof (Hlog b). pose proof (Z.log2_nonneg b). lia.
  - pose proof (Hlog a). pose proof (Z.log2_nonneg a). lia.
Qed.

Lemma has_lor_r a b : b <> 0 -> 0 <= b -> has (Z.lor a b) b = true.
Proof.
  intros Hb Hb'. unfold has. rewrite Z.land_lor_distr_l, Z.land_diag.
  apply negb_true_iff, Z.eqb_neq. intros E%Z.lor_eq_0_iff. lia.
Qed.
