(* ===== verification/Kalloc.v ===== *)
(** * kernel/kalloc.c: the physical page allocator

    The free pages form a linked list threaded through the pages themselves:
    the first eight bytes of a free page hold the address of the next one.  The
    model keeps that list in memory.  [end_] stands for the linker symbol [end]
    (kernel/kernel.ld), the first address after the kernel. *)

From Stdlib Require Import ZArith Lia.
From stdpp Require Import base list gmap strings.
From S2P Require Import Prelude KString Spinlock Riscv.

(** struct kmem, the memory and the lock layer. *)
Record kmst := mk_kmst {
  k_lk : lks;
  k_mem : memory;
  k_freelist : Z;
}.

Definition set_klk (x : lks) (s : kmst) : kmst := mk_kmst x (k_mem s) (k_freelist s).
Definition set_kmem (x : memory) (s : kmst) : kmst := mk_kmst (k_lk s) x (k_freelist s).
Definition set_kfreelist (x : Z) (s : kmst) : kmst := mk_kmst (k_lk s) (k_mem s) x.

#[global] Instance lens_k_lk : Lens kmst lks.
Proof. by exists k_lk set_klk; intros; destruct s. Defined.

(** Accesses to memory from kernel code. *)
Definition load64 (a : Z) : M kmst Z := gets (fun s => ld64 (k_mem s) a).
Definition store64 (a v : Z) : M kmst unit := modify (fun s => set_kmem (st64 (k_mem s) a v) s).
Definition mem_update (f : memory -> memory) : M kmst unit :=
  modify (fun s => set_kmem (f (k_mem s)) s).

Definition kmem_lock : lockid := ("kmem", 0).

Section kalloc.
Context (end_ : Z).

Definition kfree (pa : Z) : M kmst unit :=
  if negb (pa mod PGSIZE =? 0) || (pa <? end_) || (PHYSTOP <=? pa) then panic "kfree" else
  mem_update (fun m => memset m pa 1 PGSIZE);;
  ↑ acquire kmem_lock;;
  fl ← gets k_freelist;
  store64 pa fl;;
  modify (set_kfreelist pa);;
  ↑ release kmem_lock.

Definition kalloc : M kmst Z :=
  ↑ acquire kmem_lock;;
  r ← gets k_freelist;
  when (negb (r =? 0)) (nxt ← load64 r; modify (set_kfreelist nxt));;
  ↑ release kmem_lock;;
  when (negb (r =? 0)) (mem_update (fun m => memset m r 5 PGSIZE));;
  mret r.

Fixpoint freerange_loop (fuel : nat) (p pa_end : Z) : M kmst unit :=
  match fuel with
  | O => out_of_fuel
  | S fuel' =>
      if p + PGSIZE <=? pa_end
      then kfree p;; freerange_loop fuel' (p + PGSIZE) pa_end
      else mret tt
  end.

Definition freerange (pa_start pa_end : Z) : M kmst unit :=
  let p := PGROUNDUP pa_start in
  freerange_loop (S (Z.to_nat ((pa_end - p) / PGSIZE))) p pa_end.

Definition kinit : M kmst unit :=
  ↑ initlock kmem_lock;;
  freerange end_ PHYSTOP.

(** ** The free list *)

Definition in_page (p b : Z) : Prop := p <= b < p + PGSIZE.

(** A page that kfree accepts. *)
Definition page_ok (p : Z) : Prop := p mod PGSIZE = 0 /\ end_ <= p < PHYSTOP.

#[global] Instance page_ok_dec p : Decision (page_ok p).
Proof. unfold page_ok. apply _. Defined.

(** [l] is the list of free pages that starts at [head]. *)
Fixpoint freelist (m : memory) (head : Z) (l : list Z) : Prop :=
  match l with
  | [] => head = 0
  | p :: l' => head = p /\ freelist m (ld64 m p) l'
  end.

Record kmem_inv (l : list Z) (s : kmst) : Prop := {
  ki_list : freelist (k_mem s) (k_freelist s) l;
  ki_nodup : NoDup l;
  ki_ok : Forall page_ok l;
}.

(** The lock layer lets this CPU take kmem.lock. *)
Definition kmem_ready (s : kmst) : Prop :=
  intr_wf (k_lk s) /\ is_free (k_lk s) kmem_lock.

Context (end_pos : 0 < end_).

Lemma page_ok_bounds p : page_ok p -> 0 < p /\ p mod PGSIZE = 0 /\ p + PGSIZE <= 2 ^ 56.
Proof. unfold page_ok, PHYSTOP, KERNBASE, PGSIZE. lia. Qed.

Lemma pages_disjoint p q b :
  p mod PGSIZE = 0 -> q mod PGSIZE = 0 -> p <> q -> in_page p b -> ~ in_page q b.
Proof. unfold in_page, PGSIZE. intros ?? Hne ??. divlia. Qed.

Lemma freelist_ext m m' head l :
  (forall p b, p ∈ l -> in_page p b -> rd m b = rd m' b) ->
  freelist m head l -> freelist m' head l.
Proof.
  revert head. induction l as [|p l IH]; intros head Hext; simpl; [done|].
  intros [-> H]. split; [done|]. apply IH.
  - intros q b Hq. apply Hext. set_solver.
  - rewrite <- (ld64_ext m m'); [done|].
    intros b Hb. apply (Hext p); [set_solver|]. unfold in_page, PGSIZE. lia.
Qed.

Lemma kmem_inv_ext l s s' :
  k_freelist s' = k_freelist s ->
  (forall p b, p ∈ l -> in_page p b -> rd (k_mem s) b = rd (k_mem s') b) ->
  kmem_inv l s -> kmem_inv l s'.
Proof.
  intros Hf Hext [H1 H2 H3]. split; try done. rewrite Hf. by eapply freelist_ext.
Qed.

Lemma wp_kfree p l Q s :
  kmem_ready s -> kmem_inv l s -> page_ok p -> p ∉ l ->
  (forall s', kmem_inv (p :: l) s' -> k_lk s' = settle (k_lk s) ->
     (forall b, ~ in_page p b -> rd (k_mem s') b = rd (k_mem s) b) -> Q tt s') ->
  wp (kfree p) Q s.
Proof.
  intros [Hwf Hfree] Hinv Hp Hnin HQ. unfold kfree.
  destruct Hp as [Hal [Hlo Hhi]]. rewrite Hal, Z.eqb_refl.
  rewrite (proj2 (Z.ltb_ge _ _)) by lia. rewrite (proj2 (Z.leb_gt _ _)) by lia. simpl.
  unfold mem_update, store64. msteps. cbn. apply wp_acquire; [done|]. cbn.
  msteps. cbn. apply wp_release; [done..|]. apply HQ; cbn; [|done|].
  - destruct Hinv as [H1 H2 H3]. split.
    + cbn. split; [done|]. rewrite ld64_st64_eq.
      * eapply freelist_ext; [|done]. intros q b Hq Hb. cbn.
        rewrite Forall_forall in H3. destruct (H3 q Hq) as [Hqal _].
        assert (~ in_page p b) as Hnb.
        { apply (pages_disjoint q p b); try done. congruence. }
        unfold in_page, PGSIZE in Hnb.
        rewrite rd_st64_other by lia. rewrite rd_memset, decide_False; [done|].
        unfold PGSIZE. lia.
      * destruct l as [|q l']; simpl in H1; [rewrite H1; unfold is_u64; lia|].
        destruct H1 as [-> _]. inversion H3 as [|?? Hq]; subst.
        apply page_ok_bounds in Hq. unfold is_u64, PGSIZE in *. lia.
    + by constructor.
    + constructor; [|done]. done.
  - intros b Hb. unfold in_page, PGSIZE in Hb.
    rewrite rd_st64_other by lia. rewrite rd_memset, decide_False; [done|].
    unfold PGSIZE. lia.
Qed.

Lemma kfree_bad p s : ~ page_ok p -> kfree p s = Panic "kfree" s.
Proof.
  intros Hp. unfold kfree.
  destruct (Z.eqb_spec (p mod PGSIZE) 0); destruct (Z.ltb_spec p end_);
    destruct (Z.leb_spec PHYSTOP p); simpl; try done.
  exfalso. apply Hp. done.
Qed.

Lemma kalloc_empty s :
  kmem_ready s -> k_freelist s = 0 -> kalloc s = Ret 0 (set_klk (settle (k_lk s)) s).
Proof.
  intros [Hwf Hfree] H0. unfold kalloc.
  erewrite bind_run by by apply zoom_run, acquire_run.
  unfold mbind, M_bind, zoom, gets, when. cbn. rewrite H0. cbn.
  rewrite release_run by done. cbn. by destruct s; simpl in *; subst.
Qed.

(** What kalloc does, in both cases. *)
Lemma wp_kalloc l Q s :
  kmem_ready s -> kmem_inv l s ->
  (l = [] -> Q 0 (set_klk (settle (k_lk s)) s)) ->
  (forall p l' s', l = p :: l' -> page_ok p -> p ∉ l' -> kmem_inv l' s' ->
     k_lk s' = settle (k_lk s) ->
     (forall b, in_page p b -> rd (k_mem s') b = 5) ->
     (forall b, ~ in_page p b -> rd (k_mem s') b = rd (k_mem s) b) -> Q p s') ->
  wp kalloc Q s.
Proof.
  intros Hr Hinv Hnil Hcons. destruct l as [|p l'].
  { eapply wp_run; [|by apply Hnil]. apply kalloc_empty; [done|]. apply Hinv. }
  destruct Hr as [Hwf Hfree]. destruct Hinv as [[Hhead Hl] Hnd Hok].
  inversion Hnd as [|?? Hnin Hnd']; inversion Hok as [|?? Hp Hok']; subst p.
  assert (k_freelist s <> 0) as Hnz by (pose proof (page_ok_bounds _ Hp); lia).
  unfold kalloc, load64, mem_update. msteps. cbn. apply wp_acquire; [done|]. cbn.
  msteps. cbn. rewrite (proj2 (Z.eqb_neq _ _)) by done. cbn. msteps. cbn.
  apply wp_release; [done..|]. cbn. msteps. cbn.
  apply (Hcons (k_freelist s) l'); cbn; [done..| |done| |].
  - eapply (kmem_inv_ext _ (mk_kmst (k_lk s) (k_mem s) (ld64 (k_mem s) (k_freelist s))));
      [reflexivity| |by split]. cbn. intros q b Hq Hb. rewrite rd_memset.
    rewrite decide_False; [done|]. rewrite Forall_forall in Hok'.
    apply (pages_disjoint q); [by apply Hok'|apply Hp|congruence|done].
  - intros b Hb. rewrite rd_memset. by rewrite decide_True.
  - intros b Hb. rewrite rd_memset. by rewrite decide_False.
Qed.

Lemma kfree_page_ok p Q s : wp (kfree p) Q s -> page_ok p.
Proof.
  intros H. destruct (decide (page_ok p)) as [|Hp]; [done|].
  unfold wp in H. by rewrite kfree_bad in H.
Qed.

(** Kalloc returns the first page of the free list, filled with junk and no
    longer on the list, or 0 when the list is empty; no other memory changes. *)
Theorem kalloc_correct l s :
  kmem_ready s -> kmem_inv l s ->
  wp kalloc (fun r s' =>
    k_lk s' = settle (k_lk s) /\
    match l with
    | [] => r = 0 /\ kmem_inv [] s' /\ k_mem s' = k_mem s
    | p :: l' =>
        r = p /\ page_ok p /\ (p ∉ l') /\ kmem_inv l' s' /\
        (forall b, in_page p b -> rd (k_mem s') b = 5) /\
        (forall b, ~ in_page p b -> rd (k_mem s') b = rd (k_mem s) b)
    end) s.
Proof.
  intros Hr Hinv. apply (wp_kalloc l); [done..| |].
  - intros ->. cbn. split_and!; try done. by destruct Hinv.
  - intros p l' s' -> ? ? ? ? ? ?. split_and!; done.
Qed.

(** Kfree of a page that is not free puts it on the list and touches no
    other page; on any address that is not a page of the allocator it panics. *)
Theorem kfree_correct p l s :
  kmem_ready s -> kmem_inv l s -> p ∉ l ->
  (page_ok p /\
   wp (kfree p) (fun (_ : unit) s' =>
     kmem_inv (p :: l) s' /\ k_lk s' = settle (k_lk s) /\
     (forall b, ~ in_page p b -> rd (k_mem s') b = rd (k_mem s) b)) s) \/
  (~ page_ok p /\ kfree p s = Panic "kfree" s).
Proof.
  intros Hr Hinv Hp. destruct (decide (page_ok p)) as [Hok|Hok].
  - left. split; [done|]. by apply (wp_kfree p l).
  - right. split; [done|]. by apply kfree_bad.
Qed.

(** ** Booting *)

(** The pages [p], [p + PGSIZE], ..., [n] of them. *)
Definition page_seq (p : Z) (n : nat) : list Z := (fun i => p + i * PGSIZE) <$> zseq 0 n.

Lemma page_seq_S p n : page_seq p (S n) = p :: page_seq (p + PGSIZE) n.
Proof.
  unfold page_seq, zseq. rewrite <- cons_seq, <- fmap_S_seq, <- !list_fmap_compose.
  rewrite fmap_cons, <- list_fmap_compose. f_equal; [simpl; lia|].
  apply list_fmap_ext. intros i x _. simpl. lia.
Qed.

Lemma wp_freerange_loop fuel p pa_end l Q s :
  kmem_ready s -> kmem_inv l s ->
  p mod PGSIZE = 0 -> end_ <= p -> pa_end <= PHYSTOP ->
  (forall q, q ∈ l -> q < p) ->
  (Z.to_nat ((pa_end - p) / PGSIZE) < fuel)%nat ->
  (forall s', kmem_inv (reverse (page_seq p (Z.to_nat ((pa_end - p) / PGSIZE))) ++ l) s' ->
     kmem_ready s' -> Q tt s') ->
  wp (freerange_loop fuel p pa_end) Q s.
Proof.
  revert p l s. induction fuel as [|fuel IH]; intros p l s Hr Hinv Hal Hlo Hhi Hl Hfuel HQ; [lia|].
  cbn [freerange_loop]. destruct (Z.leb_spec (p + PGSIZE) pa_end) as [Hle|Hgt].
  - mstep. apply (wp_kfree p l); [done..| | |].
    + split; [done|]. unfold PGSIZE in *. lia.
    + intros Hin%Hl. lia.
    + intros s' Hinv' Hlk _.
      assert (Z.to_nat ((pa_end - p) / PGSIZE) = S (Z.to_nat ((pa_end - (p + PGSIZE)) / PGSIZE)))
        as En by (unfold PGSIZE in *; divlia).
      rewrite En, page_seq_S in HQ. apply (IH _ (p :: l)); try done.
      * destruct Hr. unfold kmem_ready. rewrite Hlk. auto with xv6.
      * unfold PGSIZE in *. divlia.
      * unfold PGSIZE. lia.
      * intros q [->|Hq%Hl]%elem_of_cons; unfold PGSIZE; lia.
      * lia.
      * intros s'' H''. apply HQ. by rewrite reverse_cons, <- app_assoc.
  - mstep. apply HQ; [|done].
    replace (Z.to_nat ((pa_end - p) / PGSIZE)) with O; [done|]. unfold PGSIZE in *. divlia.
Qed.

(** After kinit every whole page between the end of the kernel and PHYSTOP
    is on the free list exactly once. *)
Theorem kinit_correct s :
  end_ <= PHYSTOP -> intr_wf (k_lk s) -> k_freelist s = 0 ->
  wp kinit (fun _ s' =>
    kmem_ready s' /\
    kmem_inv (reverse (page_seq (PGROUNDUP end_)
                         (Z.to_nat ((PHYSTOP - PGROUNDUP end_) / PGSIZE)))) s') s.
Proof.
  intros Hend Hwf H0. unfold kinit, freerange.
  assert (PGROUNDUP end_ mod PGSIZE = 0 /\ end_ <= PGROUNDUP end_) as [Hal Hle].
  { unfold PHYSTOP, KERNBASE in Hend.
    rewrite PGROUNDUP_eq by (unfold PGSIZE; lia). unfold PGSIZE. divlia. }
  mstep. mstep. unfold initlock. mstep. apply (wp_freerange_loop _ _ _ []); try done; try lia.
  - split; cbn; [done|]. unfold is_free. cbn. by rewrite lookup_delete_eq.
  - by split; [| constructor | constructor].
  - intros q Hq. by apply not_elem_of_nil in Hq.
  - intros s'. by rewrite app_nil_r.
Qed.

End kalloc.

(** ** A small heap

    Nine free pages, for the instances of the theorems at concrete states. *)
Definition small_pages : list Z := (fun i => 2147491840 + 4096 * i) <$> zseq 0 9.

Definition small_heap : kmst :=
  mk_kmst (mk_lks 0 true 0 false None ∅)
    (foldl (fun m p => st64 m p (p + 4096)) ∅ (take 8 small_pages))
    2147491840.

Lemma small_heap_ready : kmem_ready small_heap.
Proof. split; [split; cbn; [lia|intros; lia]|done]. Qed.

Lemma small_heap_inv : kmem_inv 2147483648 small_pages small_heap.
Proof.
  split; [vm_compute; repeat split|apply (bool_decide_unpack _); vm_compute; exact I|].
  repeat (constructor; [vm_compute; intuition discriminate|]). constructor.
Qed.

Lemma kalloc_correct_witness :
  wp kalloc (fun r s' => r = 2147491840 /\ kmem_inv 2147483648 (tail small_pages) s') small_heap.
Proof.
  eapply wp_mono.
  - apply (kalloc_correct 2147483648 ltac:(lia) small_pages);
      [apply small_heap_ready|apply small_heap_inv].
  - intros r s' (_ & -> & _ & _ & H & _). done.
Defined.

Lemma kfree_correct_witness :
  (page_ok 2147483648 2147532800 /\
   wp (kfree 2147483648 2147532800) (fun _ s' => kmem_inv 2147483648 (2147532800 :: small_pages) s') small_heap) \/
  ~ page_ok 2147483648 2147532800.
Proof.
  destruct (kfree_correct 2147483648 ltac:(lia) 2147532800 small_pages small_heap) as [[H1 H2]|[H _]].
  - apply small_heap_ready.
  - apply small_heap_inv.
  - apply (bool_decide_unpack _). vm_compute. exact I.
  - left. split; [done|]. eapply wp_mono; [exact H2|]. by intros _ s' [H _].
  - by right.
Defined.

Lemma kinit_correct_witness :
  wp (kinit 2281693184) (fun _ s' => kmem_inv 2281693184 [2281693184 + 4096; 2281693184] s')
    (mk_kmst (mk_lks 0 true 0 false None ∅) ∅ 0).
Proof.
  eapply wp_mono.
  - apply (kinit_correct 2281693184 ltac:(lia)); [vm_compute; discriminate|split; cbn; [lia|intros; lia]|done].
  - intros r s' [_ H]. exact H.
Defined.
