(* ===== verification/Vm.v ===== *)
(** * kernel/vm.c: page tables

    Every function of vm.c except kvminithart, which only writes the satp
    register.  A page table is the physical address of its root page; the tables
    live in memory, as the hardware reads them.  [kernel_pagetable] is a global
    in the source and an argument here.  Buffers of the kernel that are not
    pages (a caller's local variable) are lists of bytes.

    Pointers returned as 0 for failure are 0 here too. *)

From Stdlib Require Import ZArith Lia.
From stdpp Require Import base list gmap strings.
From S2P Require Import Prelude KString Spinlock Riscv Kalloc.

Section vm.
Context (end_ : Z).

#[local] Abbreviation kfree := (Kalloc.kfree end_).

(** One level of walk(): from the table page [pagetable], the page that the
    entry for [va] at [level] points to, or 0. *)
Definition walk_level (pagetable va : Z) (alloc : bool) (level : Z) : M kmst Z :=
  let pte := pagetable + 8 * PX level va in
  e ← load64 pte;
  if has e PTE_V then mret (PTE2PA e)
  else if negb alloc then mret 0
  else
    pt ← kalloc;
    if pt =? 0 then mret 0
    else
      mem_update (fun m => memset m pt 0 PGSIZE);;
      store64 pte (Z.lor (PA2PTE pt) PTE_V);;
      mret pt.

(** The loop runs for level 2 and level 1. *)
Definition walk (pagetable va : Z) (alloc : bool) : M kmst Z :=
  if MAXVA <=? va then panic "walk" else
  pt1 ← walk_level pagetable va alloc 2;
  if pt1 =? 0 then mret 0 else
  pt0 ← walk_level pt1 va alloc 1;
  if pt0 =? 0 then mret 0 else
  mret (pt0 + 8 * PX 0 va).

Definition walkaddr (pagetable va : Z) : M kmst Z :=
  if MAXVA <=? va then mret 0 else
  pte ← walk pagetable va false;
  if pte =? 0 then mret 0 else
  e ← load64 pte;
  if negb (has e PTE_V) then mret 0
  else if negb (has e PTE_U) then mret 0
  else mret (PTE2PA e).

(** [for(;;)] from [a] to [last]; if [a] starts past [last] the loop runs on
    until walk panics at MAXVA. *)
Definition mappages_bound (a last : Z) : nat :=
  S (Z.to_nat ((if a <=? last then last - a else MAXVA - a) / PGSIZE)).

Fixpoint mappages_loop (fuel : nat) (pagetable a last pa perm : Z) : M kmst Z :=
  match fuel with
  | O => out_of_fuel
  | S fuel' =>
      pte ← walk pagetable a true;
      if pte =? 0 then mret (-1) else
      e ← load64 pte;
      if has e PTE_V then panic "remap" else
      store64 pte (Z.lor (Z.lor (PA2PTE pa) perm) PTE_V);;
      if a =? last then mret 0
      else mappages_loop fuel' pagetable (a + PGSIZE) last (pa + PGSIZE) perm
  end.

Definition mappages (pagetable va size pa perm : Z) : M kmst Z :=
  let a := PGROUNDDOWN va in
  let last := PGROUNDDOWN (u64 (va + size - 1)) in
  mappages_loop (mappages_bound a last) pagetable a last pa perm.

Definition kvmmap (kernel_pagetable va pa sz perm : Z) : M kmst unit :=
  r ← mappages kernel_pagetable va sz pa perm;
  if negb (r =? 0) then panic "kvmmap" else mret tt.

Definition kvmpa (kernel_pagetable va : Z) : M kmst Z :=
  let off := va mod PGSIZE in
  pte ← walk kernel_pagetable va false;
  if pte =? 0 then panic "kvmpa" else
  e ← load64 pte;
  if negb (has e PTE_V) then panic "kvmpa" else
  mret (PTE2PA e + off).

Definition UART0 : Z := 268435456.      (* 0x10000000 *)
Definition VIRTIO0 : Z := 268439552.    (* 0x10001000 *)
Definition CLINT : Z := 33554432.       (* 0x2000000 *)
Definition PLIC : Z := 201326592.       (* 0x0c000000 *)

(** [etext] and [trampoline] are linker symbols (kernel/kernel.ld,
    kernel/trampoline.S).  Returns the new kernel_pagetable. *)
Definition kvminit (etext trampoline : Z) : M kmst Z :=
  kpt ← kalloc;
  mem_update (fun m => memset m kpt 0 PGSIZE);;
  kvmmap kpt UART0 UART0 PGSIZE (Z.lor PTE_R PTE_W);;
  kvmmap kpt VIRTIO0 VIRTIO0 PGSIZE (Z.lor PTE_R PTE_W);;
  kvmmap kpt CLINT CLINT 65536 (Z.lor PTE_R PTE_W);;
  kvmmap kpt PLIC PLIC 4194304 (Z.lor PTE_R PTE_W);;
  kvmmap kpt KERNBASE KERNBASE (etext - KERNBASE) (Z.lor PTE_R PTE_X);;
  kvmmap kpt etext etext (PHYSTOP - etext) (Z.lor PTE_R PTE_W);;
  kvmmap kpt TRAMPOLINE trampoline PGSIZE (Z.lor PTE_R PTE_X);;
  mret kpt.

Definition uvmunmap (pagetable va npages : Z) (do_free : bool) : M kmst unit :=
  if negb (va mod PGSIZE =? 0) then panic "uvmunmap: not aligned" else
  for_range va (u64 (va + npages * PGSIZE)) PGSIZE (fun a =>
    pte ← walk pagetable a false;
    if pte =? 0 then panic "uvmunmap: walk" else
    e ← load64 pte;
    if negb (has e PTE_V) then panic "uvmunmap: not mapped" else
    if PTE_FLAGS e =? PTE_V then panic "uvmunmap: not a leaf" else
    when do_free (kfree (PTE2PA e));;
    store64 pte 0;;
    mret (None : option unit));;
  mret tt.

Definition uvmcreate : M kmst Z :=
  pagetable ← kalloc;
  if pagetable =? 0 then mret 0 else
  mem_update (fun m => memset m pagetable 0 PGSIZE);;
  mret pagetable.

Definition PTE_WRXU : Z := Z.lor (Z.lor (Z.lor PTE_W PTE_R) PTE_X) PTE_U.

(** [src] holds the [sz] bytes of the initial program. *)
Definition uvminit (pagetable : Z) (src : list Z) : M kmst unit :=
  if PGSIZE <=? Z.of_nat (length src) then panic "inituvm: more than a page" else
  mem ← kalloc;
  mem_update (fun m => memset m mem 0 PGSIZE);;
  mappages pagetable 0 PGSIZE mem PTE_WRXU;;
  mem_update (fun m => wr_bytes m mem src).

(** The page count is an int in the source. *)
Definition uvmdealloc (pagetable oldsz newsz : Z) : M kmst Z :=
  if oldsz <=? newsz then mret oldsz else
  when (PGROUNDUP newsz <? PGROUNDUP oldsz)
    (let npages := i32 ((PGROUNDUP oldsz - PGROUNDUP newsz) / PGSIZE) in
     uvmunmap pagetable (PGROUNDUP newsz) (u64 npages) true);;
  mret newsz.

Definition uvmalloc (pagetable oldsz newsz : Z) : M kmst Z :=
  if newsz <? oldsz then mret oldsz else
  let oldsz := PGROUNDUP oldsz in
  r ← for_range oldsz newsz PGSIZE (fun a =>
    mem ← kalloc;
    if mem =? 0 then
      uvmdealloc pagetable a oldsz;; mret (Some 0)
    else
      mem_update (fun m => memset m mem 0 PGSIZE);;
      ok ← mappages pagetable a PGSIZE mem PTE_WRXU;
      if negb (ok =? 0) then
        kfree mem;; uvmdealloc pagetable a oldsz;; mret (Some 0)
      else mret None);
  mret (default newsz r).

(** [depth] bounds the depth of the recursion: the tables have three levels. *)
Fixpoint freewalk (depth : nat) (pagetable : Z) : M kmst unit :=
  match depth with
  | O => out_of_fuel
  | S depth' =>
      for_range 0 512 1 (fun i =>
        pte ← load64 (pagetable + 8 * i);
        if has pte PTE_V && (Z.land pte (Z.lor (Z.lor PTE_R PTE_W) PTE_X) =? 0) then
          freewalk depth' (PTE2PA pte);;
          store64 (pagetable + 8 * i) 0;;
          mret None
        else if has pte PTE_V then panic "freewalk: leaf"
        else mret (None : option unit));;
      kfree pagetable
  end.

Definition uvmfree (pagetable sz : Z) : M kmst unit :=
  when (0 <? sz) (uvmunmap pagetable 0 (PGROUNDUP sz / PGSIZE) true);;
  freewalk 3 pagetable.

Definition uvmcopy (old new sz : Z) : M kmst Z :=
  r ← for_range 0 sz PGSIZE (fun i =>
    pte ← walk old i false;
    if pte =? 0 then panic "uvmcopy: pte should exist" else
    e ← load64 pte;
    if negb (has e PTE_V) then panic "uvmcopy: page not present" else
    let pa := PTE2PA e in
    let flags := PTE_FLAGS e in
    mem ← kalloc;
    if mem =? 0 then
      uvmunmap new 0 (i / PGSIZE) true;; mret (Some (-1))
    else
      mem_update (fun m => memmove m mem pa PGSIZE);;
      ok ← mappages new i PGSIZE mem flags;
      if negb (ok =? 0) then
        kfree mem;; uvmunmap new 0 (i / PGSIZE) true;; mret (Some (-1))
      else mret None);
  mret (default 0 r).

Definition uvmclear (pagetable va : Z) : M kmst unit :=
  pte ← walk pagetable va false;
  if pte =? 0 then panic "uvmclear" else
  e ← load64 pte;
  store64 pte (Z.land e (Z.lnot PTE_U)).

(** ** Copying between user and kernel memory *)

(** Upper bound on the pages that [len] bytes can touch. *)
Definition copy_bound (len : Z) : nat := Z.to_nat (len / PGSIZE + 2).

(** Bytes left to move on the page of [va]. *)
Definition page_part (va len : Z) : Z :=
  let n := PGSIZE - (va - PGROUNDDOWN va) in
  if len <? n then len else n.

Fixpoint copyout_loop (fuel : nat) (pagetable dstva : Z) (src : list Z) (len : Z)
    : M kmst Z :=
  if 0 <? len then
    match fuel with
    | O => out_of_fuel
    | S fuel' =>
        let va0 := PGROUNDDOWN dstva in
        pa0 ← walkaddr pagetable va0;
        if pa0 =? 0 then mret (-1) else
        let n := page_part dstva len in
        mem_update (fun m => wr_bytes m (pa0 + (dstva - va0)) (take (Z.to_nat n) src));;
        copyout_loop fuel' pagetable (va0 + PGSIZE) (drop (Z.to_nat n) src) (len - n)
    end
  else mret 0.

(** Copies [len] bytes of [src]. *)
Definition copyout (pagetable dstva : Z) (src : list Z) (len : Z) : M kmst Z :=
  copyout_loop (copy_bound len) pagetable dstva src len.

(** [dst] accumulates the bytes stored so far at the destination. *)
Fixpoint copyin_loop (fuel : nat) (pagetable : Z) (dst : list Z) (srcva len : Z)
    : M kmst (Z * list Z) :=
  if 0 <? len then
    match fuel with
    | O => out_of_fuel
    | S fuel' =>
        let va0 := PGROUNDDOWN srcva in
        pa0 ← walkaddr pagetable va0;
        if pa0 =? 0 then mret (-1, dst) else
        let n := page_part srcva len in
        bs ← gets (fun s => rd_bytes (k_mem s) (pa0 + (srcva - va0)) (Z.to_nat n));
        copyin_loop fuel' pagetable (dst ++ bs) (va0 + PGSIZE) (len - n)
    end
  else mret (0, dst).

(** The result and the bytes stored at [dst]. *)
Definition copyin (pagetable srcva len : Z) : M kmst (Z * list Z) :=
  copyin_loop (copy_bound len) pagetable [] srcva len.

(** The inner loop of copyinstr: from [p], at most [n] bytes, up to a NUL. *)
Fixpoint copyinstr_page (n : nat) (m : memory) (p : Z) (dst : list Z) : bool * list Z :=
  match n with
  | O => (false, dst)
  | S n' =>
      if rd m p =? 0 then (true, dst ++ [0])
      else copyinstr_page n' m (p + 1) (dst ++ [rd m p])
  end.

Fixpoint copyinstr_loop (fuel : nat) (pagetable : Z) (dst : list Z) (srcva max : Z)
    : M kmst (Z * list Z) :=
  if 0 <? max then
    match fuel with
    | O => out_of_fuel
    | S fuel' =>
        let va0 := PGROUNDDOWN srcva in
        pa0 ← walkaddr pagetable va0;
        if pa0 =? 0 then mret (-1, dst) else
        let n := page_part srcva max in
        m ← gets k_mem;
        let '(got_null, dst') := copyinstr_page (Z.to_nat n) m (pa0 + (srcva - va0)) dst in
        if got_null then mret (0, dst')
        else copyinstr_loop fuel' pagetable dst' (va0 + PGSIZE) (max - n)
    end
  else mret (-1, dst).

Definition copyinstr (pagetable srcva max : Z) : M kmst (Z * list Z) :=
  copyinstr_loop (copy_bound max) pagetable [] srcva max.

End vm.
