(* ===== verification/VmInv.v ===== *)
(** * The page-table invariant

    Who owns each physical page: the free list, a page table (at the path of
    indices that leads to it), a page of user memory (at a virtual address), or
    the kernel code that has just allocated it.  Ownership is a map, so no page
    has two owners: this is what keeps the tables of a process, its memory and
    the free list apart.  The lemmas here are the memory steps that vm.c is made
    of; Vm's operations are verified with them in VmProofs and VmUser. *)

From Stdlib Require Import ZArith Lia.
From stdpp Require Import base list gmap strings.
From S2P Require Import Prelude KString Spinlock Riscv Kalloc Vm.

(** ** Table pages *)

(** The table that entry [i] of the table page [t] points to. *)
Definition entry (m : memory) (t i : Z) : option Z :=
  let e := ld64 m (t + 8 * i) in
  if has e PTE_V then Some (PTE2PA e) else None.

(** The table page at a path of indices from the root. *)
Definition tbl (m : memory) (root : Z) (p : list Z) : option Z :=
  foldl (fun o i => o ≫= fun t => entry m t i) (Some root) p.

Lemma tbl_nil m root : tbl m root [] = Some root.
Proof. done. Qed.

Lemma tbl_snoc m root p i : tbl m root (p ++ [i]) = tbl m root p ≫= fun t => entry m t i.
Proof. unfold tbl. by rewrite foldl_snoc. Qed.

(** The path to the level-0 table for [va], and the leaf PTE (0 if there is
    no such table). *)
Definition vpath (va : Z) : list Z := [PX 2 va; PX 1 va].

Definition leaf (m : memory) (root va : Z) : Z :=
  match tbl m root (vpath va) with
  | Some t => ld64 m (t + 8 * PX 0 va)
  | None => 0
  end.

Definition valid_ix (i : Z) : Prop := 0 <= i < 512.
Definition valid_path (p : list Z) : Prop := (length p <= 2)%nat /\ Forall valid_ix p.

Lemma valid_path_snoc p i : valid_path (p ++ [i]) -> valid_path p /\ valid_ix i /\ (length p <= 1)%nat.
Proof.
  intros [Hl Hf]. rewrite length_app in Hl. simpl in Hl.
  apply Forall_app in Hf as [Hf1 Hf2]. inversion Hf2; subst.
  split_and!; [split|..]; try done; lia.
Qed.

Lemma valid_vpath va : valid_path (vpath va).
Proof. split; [done|]. unfold vpath, valid_ix. repeat constructor; apply PX_range; lia. Qed.

Lemma valid_PX level va : 0 <= level -> valid_ix (PX level va).
Proof. apply PX_range. Qed.

(** The slot of an entry lies in its page, and slots are disjoint. *)
Lemma slot_in_page t i b : valid_ix i -> t + 8 * i <= b < t + 8 * i + 8 -> in_page t b.
Proof. unfold valid_ix, in_page, PGSIZE. lia. Qed.

Lemma entry_agree m m' t i :
  valid_ix i -> (forall b, in_page t b -> rd m' b = rd m b) ->
  ld64 m' (t + 8 * i) = ld64 m (t + 8 * i).
Proof. intros Hi H. apply ld64_ext. intros b Hb. by apply H, (slot_in_page t i). Qed.

(** ** Ownership *)

Inductive role :=
| RFree                              (* on the free list *)
| RTable (root : Z) (path : list Z)  (* a page-table page *)
| RUser (root va : Z)                (* user memory mapped at va *)
| RHeld.                             (* allocated, not yet linked anywhere *)

#[global] Instance role_eq_dec : EqDecision role.
Proof. solve_decision. Defined.

Abbreviation owners := (gmap Z role).

Definition is_data (r : role) : Prop :=
  match r with RUser _ _ | RHeld => True | _ => False end.

Section inv.
Context (end_ : Z) (end_pos : 0 < end_).
#[local] Abbreviation page_ok := (page_ok end_).
#[local] Abbreviation kmem_inv := (kmem_inv end_).

(** [roots] maps the root of each page table to the bound below which its
    leaves are user memory (0 for the kernel's own table). *)
Implicit Types (own : owners) (roots : gmap Z Z) (m : memory).

Record tab_inv own (l : list Z) roots (s : kmst) : Prop := {
  ti_kmem : kmem_inv l s;
  ti_ok : forall p r, own !! p = Some r -> page_ok p;
  ti_list : forall p, own !! p = Some RFree <-> p ∈ l;
  ti_tables : forall root p t,
    own !! t = Some (RTable root p) <->
    is_Some (roots !! root) /\ valid_path p /\ tbl (k_mem s) root p = Some t;
  ti_canon : forall root lim p t i,
    roots !! root = Some lim -> valid_path (p ++ [i]) -> tbl (k_mem s) root p = Some t ->
    let e := ld64 (k_mem s) (t + 8 * i) in
    has e PTE_V = true -> e = Z.lor (PA2PTE (PTE2PA e)) PTE_V;
}.

Lemma ti_free own l roots s p : tab_inv own l roots s -> p ∈ l -> own !! p = Some RFree.
Proof. intros H. apply (ti_list _ _ _ _ H). Qed.

Lemma ti_tbl own l roots s root lim p t :
  tab_inv own l roots s -> roots !! root = Some lim -> valid_path p ->
  tbl (k_mem s) root p = Some t -> own !! t = Some (RTable root p).
Proof. intros H Hr Hp Ht. apply (ti_tables _ _ _ _ H). eauto. Qed.

(** Mapped user pages are owned by their table, at their address, and only
    user memory is accessible to user code. *)
Definition leaf_inv own roots m : Prop := forall root lim va,
  roots !! root = Some lim -> 0 <= va < 2 * MAXVA -> has (leaf m root va) PTE_V = true ->
  (va < lim -> own !! PTE2PA (leaf m root va) = Some (RUser root (PGROUNDDOWN va))) /\
  (has (leaf m root va) PTE_U = true -> va < lim).

(** Conversely a page owned as user memory is mapped where it says. *)
Definition user_inv own roots m : Prop := forall root va p,
  own !! p = Some (RUser root va) ->
  exists lim, roots !! root = Some lim /\ 0 <= va < lim /\ va < MAXVA /\ PGROUNDDOWN va = va /\
    has (leaf m root va) PTE_V = true /\ PTE2PA (leaf m root va) = p.

Record vm_inv own l roots s : Prop := {
  vi_tab : tab_inv own l roots s;
  vi_leaf : leaf_inv own roots (k_mem s);
  vi_user : user_inv own roots (k_mem s);
}.

(** ** Steps that leave the tables alone *)

(** [tbl] only reads tables at shorter paths. *)
Lemma tbl_agree own l roots s m' root lim p :
  tab_inv own l roots s -> roots !! root = Some lim -> valid_path p ->
  (forall t q b, own !! t = Some (RTable root q) -> (length q < length p)%nat ->
     in_page t b -> rd m' b = rd (k_mem s) b) ->
  tbl m' root p = tbl (k_mem s) root p.
Proof.
  intros Hinv Hroot. induction p as [|i p IH] using rev_ind; intros Hv Hag; [done|].
  apply valid_path_snoc in Hv as (Hvp & Hi & Hlen).
  rewrite !tbl_snoc, IH; [|done|].
  - destruct (tbl (k_mem s) root p) as [t|] eqn:Et; [|done]. simpl.
    pose proof (ti_tbl _ _ _ _ _ _ _ _ Hinv Hroot Hvp Et) as Hown.
    unfold entry. rewrite (entry_agree (k_mem s) m'); [done|done|].
    intros b. apply (Hag t p); [done|]. rewrite length_app; simpl; lia.
  - intros t q b Ht Hq. apply (Hag t q); [done|]. rewrite length_app; simpl; lia.
Qed.

Lemma leaf_agree own l roots s m' root lim va :
  tab_inv own l roots s -> roots !! root = Some lim ->
  (forall t q b, own !! t = Some (RTable root q) -> in_page t b -> rd m' b = rd (k_mem s) b) ->
  leaf m' root va = leaf (k_mem s) root va.
Proof.
  intros Hinv Hroot Hag. unfold leaf.
  rewrite (tbl_agree own l roots s m' root lim); try done;
    [|apply valid_vpath|intros; by eapply Hag].
  destruct (tbl (k_mem s) root (vpath va)) as [t|] eqn:Et; [|done].
  pose proof (ti_tbl _ _ _ _ _ _ _ _ Hinv Hroot (valid_vpath va) Et) as Hown.
  apply entry_agree; [apply valid_PX; lia|]. intros b. by eapply Hag.
Qed.

(** What the rest of the kernel may rely on across an operation: pages keep
    their owner unless they were free, and data pages keep their contents. *)
Definition vm_le own (s : kmst) own' (s' : kmst) : Prop :=
  (forall p r, own !! p = Some r -> r <> RFree -> own' !! p = Some r) /\
  (forall p r b, own !! p = Some r -> is_data r -> in_page p b ->
     rd (k_mem s') b = rd (k_mem s) b) /\
  k_lk s' ≈ k_lk s /\
  (forall p, is_Some (own !! p) -> is_Some (own' !! p)).

Lemma vm_le_trans own s own1 s1 own2 s2 :
  vm_le own s own1 s1 -> vm_le own1 s1 own2 s2 -> vm_le own s own2 s2.
Proof.
  intros (A1 & B1 & C1 & D1) (A2 & B2 & C2 & D2). split_and!.
  - intros p r Hp Hr. apply A2; [|done]. by apply A1.
  - intros p r b Hp Hr Hb. rewrite (B2 p r b); [by apply (B1 p r)| |done|done].
    apply A1; [done|]. by destruct r.
  - by rewrite C2, C1.
  - auto.
Qed.

(** The frame rule of the invariant: free list and data owners may change, the
    table pages and their contents stay. *)
Lemma tab_inv_frame own l roots s own' l' s' :
  tab_inv own l roots s -> kmem_inv l' s' ->
  (forall p r, own' !! p = Some r -> page_ok p) ->
  (forall p, own' !! p = Some RFree <-> p ∈ l') ->
  (forall t root q, own' !! t = Some (RTable root q) <-> own !! t = Some (RTable root q)) ->
  (forall t root q b, own !! t = Some (RTable root q) -> in_page t b ->
     rd (k_mem s') b = rd (k_mem s) b) ->
  tab_inv own' l' roots s'.
Proof.
  intros Hinv Hk Hok Hfree Hown Hag.
  assert (forall root lim p, roots !! root = Some lim -> valid_path p ->
            tbl (k_mem s') root p = tbl (k_mem s) root p) as Htbl.
  { intros root lim p Hr Hp. eapply tbl_agree; eauto. }
  split; [done..| |].
  - intros root p t. rewrite Hown, (ti_tables _ _ _ _ Hinv).
    split; intros ([lim Hr] & Hp & Ht); (split_and!; [eauto|done|]);
      [by rewrite (Htbl root lim)|by rewrite <- (Htbl root lim)].
  - intros root lim p t i Hr Hp Ht.
    pose proof (valid_path_snoc _ _ Hp) as (Hvp & Hi & _). erewrite Htbl in Ht by done.
    pose proof (ti_tbl _ _ _ _ _ _ _ _ Hinv Hr Hvp Ht).
    rewrite (entry_agree (k_mem s) (k_mem s')); [by eapply ti_canon|done|eauto].
Qed.

(** Two pages with different owners have no byte in common. *)
Lemma own_disjoint own l roots s p q b :
  tab_inv own l roots s -> is_Some (own !! p) -> is_Some (own !! q) -> p <> q ->
  in_page p b -> ~ in_page q b.
Proof.
  intros Hinv [r Hp] [r' Hq]. apply (ti_ok _ _ _ _ Hinv) in Hp, Hq.
  apply pages_disjoint; [apply Hp|apply Hq].
Qed.

Lemma data_not_free own l roots s p r :
  tab_inv own l roots s -> own !! p = Some r -> is_data r -> p ∉ l.
Proof. intros Hinv Hp Hr Hin. apply (ti_list _ _ _ _ Hinv) in Hin. by simplify_eq. Qed.

Lemma own_ne own p q r r' :
  own !! p = Some r -> own !! q = Some r' -> r <> r' -> p <> q.
Proof. intros Hp Hq Hr ->. congruence. Qed.

Lemma own_insert_iff own p r r' q x :
  own !! p = Some r -> r <> x -> r' <> x ->
  <[p := r']> own !! q = Some x <-> own !! q = Some x.
Proof.
  intros Hp Hr Hr'. rewrite lookup_insert. case_decide as E; [|done]. subst.
  split; congruence.
Qed.

Lemma data_not_RFree r : is_data r -> r <> RFree.
Proof. by destruct r. Qed.
Lemma data_not_RTable r root q : is_data r -> r <> RTable root q.
Proof. by destruct r. Qed.
#[local] Hint Resolve data_not_RFree data_not_RTable : core.

Lemma own_insert_ok own l roots s p r r' q x :
  tab_inv own l roots s -> own !! p = Some r -> <[p := r']> own !! q = Some x -> page_ok q.
Proof.
  intros Hinv Hp. rewrite lookup_insert. case_decide; [|by apply Hinv].
  subst. intros _. by eapply ti_ok.
Qed.

(** Changing the owner of a page that is neither a table nor free. *)
Lemma tab_inv_own own l roots s p r r' :
  tab_inv own l roots s -> own !! p = Some r -> is_data r -> is_data r' ->
  tab_inv (<[p := r']> own) l roots s.
Proof.
  intros Hinv Hp Hr Hr'.
  apply (tab_inv_frame own l roots s); try done; [apply Hinv|..].
  - intros q r0. by eapply own_insert_ok.
  - intros q. rewrite (own_insert_iff _ _ r) by auto. apply Hinv.
  - intros t root q. rewrite (own_insert_iff _ _ r) by auto. done.
Qed.

(** Writing to a page that is neither a table nor free. *)
Lemma tab_inv_write own l roots s s' p r :
  tab_inv own l roots s -> own !! p = Some r -> is_data r ->
  k_freelist s' = k_freelist s ->
  (forall b, ~ in_page p b -> rd (k_mem s') b = rd (k_mem s) b) ->
  tab_inv own l roots s'.
Proof.
  intros Hinv Hp Hr Hf Hag. pose proof (data_not_free _ _ _ _ _ _ Hinv Hp Hr).
  apply (tab_inv_frame own l roots s); try done; try apply Hinv.
  - eapply (kmem_inv_ext end_ end_pos); [done| |by apply Hinv]. intros q b Hq Hb.
    symmetry. apply Hag. pose proof (ti_free _ _ _ _ q Hinv Hq).
    apply (own_disjoint own l roots s q p); eauto. congruence.
  - intros t root q b Ht Hb. apply Hag.
    apply (own_disjoint own l roots s t p); eauto. intros ->. by simplify_eq.
Qed.

(** ** Allocating and freeing pages *)

Lemma wp_kalloc_tab own l roots Q s :
  tab_inv own l roots s -> kmem_ready s ->
  (forall s', l = [] -> tab_inv own [] roots s' -> k_mem s' = k_mem s ->
     k_lk s' = settle (k_lk s) -> Q 0 s') ->
  (forall p l' s', l = p :: l' -> own !! p = Some RFree -> page_ok p ->
     tab_inv (<[p := RHeld]> own) l' roots s' ->
     (forall b, ~ in_page p b -> rd (k_mem s') b = rd (k_mem s) b) ->
     k_lk s' = settle (k_lk s) -> Q p s') ->
  wp kalloc Q s.
Proof.
  intros Hinv Hr H0 H1. apply (wp_kalloc end_ end_pos l); [done|apply Hinv|..].
  - intros ->. apply H0; try done.
    apply (tab_inv_frame own [] roots s); try done; try apply Hinv.
    by destruct (ti_kmem _ _ _ _ Hinv).
  - intros p l' s' -> Hp Hnin Hk Hlk _ Hag.
    assert (own !! p = Some RFree) as Hfree by (apply Hinv; left).
    apply (H1 p l'); try done.
    apply (tab_inv_frame own (p :: l') roots s); try done.
    + intros q r0. by eapply own_insert_ok.
    + intros q. rewrite lookup_insert. case_decide as E.
      * subst. split; [done|]. by intros.
      * rewrite (ti_list _ _ _ _ Hinv), elem_of_cons. split; [|by right]. by intros [->|].
    + intros t root q. by rewrite (own_insert_iff _ _ RFree) by done.
    + intros t root q b Ht Hb. apply Hag.
      apply (own_disjoint own (p :: l') roots s t p); eauto. congruence.
Qed.

Lemma wp_kfree_tab own l roots p r Q s :
  tab_inv own l roots s -> kmem_ready s -> own !! p = Some r -> is_data r ->
  (forall s', tab_inv (<[p := RFree]> own) (p :: l) roots s' ->
     (forall b, ~ in_page p b -> rd (k_mem s') b = rd (k_mem s) b) ->
     k_lk s' = settle (k_lk s) -> Q tt s') ->
  wp (kfree end_ p) Q s.
Proof.
  intros Hinv Hr Hp Hd HQ. pose proof (data_not_free _ _ _ _ _ _ Hinv Hp Hd).
  apply (wp_kfree end_ end_pos p l); [done|apply Hinv|by eapply ti_ok|done|].
  intros s' Hk Hlk Hag. apply HQ; try done.
  apply (tab_inv_frame own l roots s); try done.
  - intros q r0. by eapply own_insert_ok.
  - intros q. rewrite lookup_insert, elem_of_cons. case_decide as E.
    + subst. split; [by left|done].
    + rewrite (ti_list _ _ _ _ Hinv). split; [by right|]. by intros [->|].
  - intros t root q. by rewrite (own_insert_iff _ _ r) by auto.
  - intros t root q b Ht Hb. apply Hag.
    apply (own_disjoint own l roots s t p); eauto. intros ->. by simplify_eq.
Qed.

(** ** Writing page-table entries *)

Lemma rd_st64_slot m t i v b :
  valid_ix i -> ~ in_page t b -> rd (st64 m (t + 8 * i) v) b = rd m b.
Proof. intros Hi Hb. apply rd_st64_other. intros Hin. by apply Hb, (slot_in_page t i). Qed.

Lemma ld64_st64_slot m t i v j :
  is_u64 v -> ld64 (st64 m (t + 8 * i) v) (t + 8 * j) = if decide (j = i) then v else ld64 m (t + 8 * j).
Proof.
  intros Hv. case_decide as E; [subst; by apply ld64_st64_eq|].
  apply ld64_st64_other. lia.
Qed.

Lemma kmem_inv_slot own l roots s t q root i v :
  tab_inv own l roots s -> own !! t = Some (RTable root q) -> valid_ix i ->
  kmem_inv l (set_kmem (st64 (k_mem s) (t + 8 * i) v) s).
Proof.
  intros Hinv Ht Hi. apply (kmem_inv_ext end_ end_pos l s); [done| |apply Hinv].
  intros p b Hp Hb. cbn. symmetry. apply rd_st64_slot; [done|].
  pose proof (ti_free _ _ _ _ p Hinv Hp).
  apply (own_disjoint own l roots s p t); eauto. congruence.
Qed.

(** A table other than [t] is not changed by a store to an entry of [t]. *)
Lemma slot_other own l roots s t t' i j v :
  tab_inv own l roots s -> is_Some (own !! t) -> is_Some (own !! t') -> t <> t' ->
  valid_ix i -> valid_ix j ->
  ld64 (st64 (k_mem s) (t + 8 * i) v) (t' + 8 * j) = ld64 (k_mem s) (t' + 8 * j).
Proof.
  intros Hinv Ht Ht' Hne Hi Hj. apply entry_agree; [done|]. intros b Hb.
  apply rd_st64_slot; [done|]. by apply (own_disjoint own l roots s t' t).
Qed.

Section set_leaf.
Context own (l : list Z) roots (s : kmst) (root lim va t v : Z).
Context (Hinv : tab_inv own l roots s) (Hroot : roots !! root = Some lim).
Context (Ht : tbl (k_mem s) root (vpath va) = Some t) (Hv : is_u64 v).

Let m' := st64 (k_mem s) (t + 8 * PX 0 va) v.

Lemma set_leaf_own : own !! t = Some (RTable root (vpath va)).
Proof. eapply ti_tbl; eauto using valid_vpath. Qed.

Lemma set_leaf_tbl root' lim' p :
  roots !! root' = Some lim' -> valid_path p -> tbl m' root' p = tbl (k_mem s) root' p.
Proof.
  intros Hr Hp. apply (tbl_agree own l roots s _ _ lim'); try done.
  intros t' q b Ht' Hq Hb. apply rd_st64_slot; [apply valid_PX; lia|].
  pose proof set_leaf_own.
  apply (own_disjoint own l roots s t' t); eauto. intros ->. simplify_eq.
  destruct Hp. simpl in *. lia.
Qed.

Lemma tab_inv_set_leaf : tab_inv own l roots (set_kmem m' s).
Proof.
  split; try apply Hinv.
  - apply (kmem_inv_slot own l roots s t (vpath va) root); [done|apply set_leaf_own|].
    apply valid_PX; lia.
  - cbn. intros root' p t'. rewrite (ti_tables _ _ _ _ Hinv).
    split; intros ([lim' Hr] & Hp & Ht'); (split_and!; [eauto|done|]);
      [by rewrite (set_leaf_tbl root' lim')|by rewrite <- (set_leaf_tbl root' lim')].
  - cbn. intros root' lim' p t' i Hr Hp.
    pose proof (valid_path_snoc _ _ Hp) as (Hvp & Hi & Hlen).
    erewrite set_leaf_tbl by done. intros Ht'.
    pose proof (ti_tbl _ _ _ _ _ _ _ _ Hinv Hr Hvp Ht') as Ho. pose proof set_leaf_own.
    unfold m'. rewrite (slot_other own l roots s); eauto using valid_PX with lia.
    + by eapply ti_canon.
    + intros <-. simplify_eq. simpl in Hlen. lia.
Qed.

Lemma set_leaf_leaf root' lim' va' :
  roots !! root' = Some lim' -> 0 <= va < 2 * MAXVA -> 0 <= va' < 2 * MAXVA ->
  leaf m' root' va' =
  if decide (root' = root /\ PGROUNDDOWN va' = PGROUNDDOWN va) then v
  else leaf (k_mem s) root' va'.
Proof.
  intros Hr Hva Hva'. unfold leaf.
  rewrite (set_leaf_tbl root' lim') by (done || apply valid_vpath). case_decide as E.
  - destruct E as [-> E].
    assert (forall lv, 0 <= lv -> PX lv va' = PX lv va) as HPX.
    { intros lv Hlv. rewrite <- (PX_PGROUNDDOWN _ va'), <- (PX_PGROUNDDOWN _ va) by done.
      by rewrite E. }
    unfold vpath in *. rewrite !HPX by lia. rewrite Ht. unfold m'. by apply ld64_st64_eq.
  - destruct (tbl (k_mem s) root' (vpath va')) as [t'|] eqn:Et'; [|done].
    pose proof (ti_tbl _ _ _ _ _ _ _ _ Hinv Hr (valid_vpath va') Et') as Ho.
    pose proof set_leaf_own as Ho'. unfold m'.
    destruct (decide (t = t')) as [<-|Hne].
    + simplify_eq. rewrite ld64_st64_slot by done. case_decide as E0; [|done].
      exfalso. apply E. split; [done|]. by apply PX_inj.
    + apply (slot_other own l roots s); eauto; apply valid_PX; lia.
Qed.
End set_leaf.

Section install.
Context own (l : list Z) roots (s : kmst) (root lim : Z) (p : list Z) (i t n : Z).
Context (Hinv : tab_inv own l roots s) (Hroot : roots !! root = Some lim).
Context (Hvp : valid_path (p ++ [i])) (Ht : tbl (k_mem s) root p = Some t).
Context (Hinvalid : has (ld64 (k_mem s) (t + 8 * i)) PTE_V = false).
Context (Hn : own !! n = Some RHeld) (Hzero : forall b, in_page n b -> rd (k_mem s) b = 0).

Let e := Z.lor (PA2PTE n) PTE_V.
Let m' := st64 (k_mem s) (t + 8 * i) e.
Let own' := <[n := RTable root (p ++ [i])]> own.

Lemma install_ok : page_ok n.
Proof. by eapply ti_ok. Qed.

Lemma install_t : own !! t = Some (RTable root p).
Proof. eapply ti_tbl; eauto. by apply valid_path_snoc in Hvp as (? & _). Qed.

Lemma install_ix : valid_ix i.
Proof. by apply valid_path_snoc in Hvp as (_ & ? & _). Qed.

Lemma install_u64 : is_u64 e.
Proof.
  pose proof (page_ok_bounds _ end_pos _ install_ok).
  apply pte_u64; [unfold PGSIZE in *; lia|]. change PTE_V with 1. lia.
Qed.

Lemma install_PTE2PA : PTE2PA e = n.
Proof.
  pose proof (page_ok_bounds _ end_pos _ install_ok).
  apply PTE2PA_pte; [unfold PGSIZE in *; lia|tauto|]. change PTE_V with 1. lia.
Qed.

Lemma install_entry_new j : valid_ix j -> entry m' n j = None.
Proof.
  intros Hj. unfold entry. pose proof install_t as Hto. pose proof install_ix.
  assert (n <> t) by (intros ->; simplify_eq).
  unfold m'. rewrite (slot_other own l roots s); eauto.
  assert (ld64 (k_mem s) (n + 8 * j) = 0) as ->; [|done].
  transitivity (ld64 ∅ (n + 8 * j)); [|reflexivity].
  apply ld64_ext. intros b Hb. rewrite Hzero; [|by apply (slot_in_page n j)]. done.
Qed.

Lemma install_none : tbl (k_mem s) root (p ++ [i]) = None.
Proof. rewrite tbl_snoc, Ht. simpl. unfold entry. by rewrite Hinvalid. Qed.

Lemma install_tbl root' lim' q :
  roots !! root' = Some lim' -> valid_path q ->
  tbl m' root' q =
  if decide (root' = root /\ q = p ++ [i]) then Some n else tbl (k_mem s) root' q.
Proof.
  intros Hr. pose proof install_t as Hto. pose proof install_ix as Hi.
  pose proof install_none as Hnone.
  induction q as [|j q IH] using rev_ind; intros Hq.
  { rewrite decide_False; [done|]. intros [_ E]. by destruct p. }
  pose proof (valid_path_snoc _ _ Hq) as (Hvq & Hj & Hlen).
  rewrite !tbl_snoc, IH by done. case_decide as E.
  - destruct E as [-> ->]. simpl. rewrite install_entry_new by done.
    rewrite Hnone, decide_False; [done|].
    intros [_ [E _]%app_inj_tail]. apply (f_equal length) in E.
    rewrite length_app in E. simpl in E. lia.
  - destruct (tbl (k_mem s) root' q) as [t'|] eqn:Et'; simpl.
    + pose proof (ti_tbl _ _ _ _ _ _ _ _ Hinv Hr Hvq Et') as Ho.
      unfold entry, m'. destruct (decide (t' = t)) as [->|Hne].
      * simplify_eq. rewrite ld64_st64_slot by apply install_u64.
        destruct (decide (j = i)) as [->|Hji].
        -- rewrite decide_True by done. unfold e at 1. rewrite has_lor_r by done.
           by rewrite install_PTE2PA.
        -- rewrite decide_False; [done|]. intros [_ [_ ?]%app_inj_tail]. done.
      * rewrite (slot_other own l roots s) by eauto.
        rewrite decide_False; [done|]. intros [-> [-> ->]%app_inj_tail]. simplify_eq.
    + rewrite decide_False; [done|]. intros [-> [-> ->]%app_inj_tail]. by simplify_eq.
Qed.

Lemma install_new : tbl m' root (p ++ [i]) = Some n.
Proof. rewrite (install_tbl root lim) by done. by rewrite decide_True. Qed.

Lemma tab_inv_install : tab_inv own' l roots (set_kmem m' s).
Proof.
  pose proof (data_not_free _ _ _ _ _ _ Hinv Hn ltac:(done)) as Hnl.
  pose proof install_t as Hto. pose proof install_ix as Hi.
  split; cbn.
  - by eapply kmem_inv_slot.
  - intros q r. unfold own'. rewrite lookup_insert.
    case_decide as E; [rewrite <- E; intros _; apply install_ok|apply Hinv].
  - intros q. unfold own'. rewrite (own_insert_iff _ _ RHeld) by done. apply Hinv.
  - intros root' q t'. unfold own'. rewrite lookup_insert. case_decide as E.
    + rewrite <- E. split.
      * intros [= <- <-]. split_and!; [eauto|done|apply install_new].
      * intros ([lim' Hr] & Hq & Ht'). rewrite (install_tbl _ lim') in Ht' by done.
        case_decide as E'; [by destruct E' as [-> ->]|].
        pose proof (ti_tbl _ _ _ _ _ _ _ _ Hinv Hr Hq Ht'). congruence.
    + rewrite (ti_tables _ _ _ _ Hinv).
      split; intros ([lim' Hr] & Hq & Ht'); (split_and!; [eauto|done|]).
      * rewrite (install_tbl _ lim') by done. case_decide as E'; [|done].
        destruct E' as [-> ->]. by rewrite install_none in Ht'.
      * rewrite (install_tbl _ lim') in Ht' by done. case_decide; congruence.
  - intros root' lim' q t' j Hr Hq.
    pose proof (valid_path_snoc _ _ Hq) as (Hvq & Hj & _).
    rewrite (install_tbl _ lim') by done. case_decide as E.
    + intros [= <-] HV. pose proof (install_entry_new j Hj) as Hne.
      unfold entry in Hne. by rewrite HV in Hne.
    + intros Ht'. pose proof (ti_tbl _ _ _ _ _ _ _ _ Hinv Hr Hvq Ht') as Ho.
      unfold m'. destruct (decide (t' = t)) as [->|Hne].
      * rewrite ld64_st64_slot by apply install_u64.
        case_decide; [|by eapply ti_canon].
        intros _. by rewrite install_PTE2PA.
      * rewrite (slot_other own l roots s) by eauto. by eapply ti_canon.
Qed.

Lemma install_leaf root' lim' va :
  roots !! root' = Some lim' -> leaf m' root' va = leaf (k_mem s) root' va.
Proof.
  intros Hr. unfold leaf. rewrite (install_tbl _ lim') by (done || apply valid_vpath).
  pose proof install_t as Hto. pose proof install_ix as Hi.
  case_decide as E.
  - destruct E as [-> E]. rewrite E, tbl_snoc, Ht. simpl.
    assert (entry (k_mem s) t i = None) as -> by (unfold entry; by rewrite Hinvalid).
    assert (n <> t) by (intros ->; simplify_eq).
    unfold m'. rewrite (slot_other own l roots s); eauto; [|apply valid_PX; lia].
    transitivity (ld64 ∅ (n + 8 * PX 0 va)); [|reflexivity].
    apply ld64_ext. intros b Hb. rewrite Hzero; [done|].
    apply (slot_in_page n (PX 0 va)); [apply valid_PX; lia|done].
  - destruct (tbl (k_mem s) root' (vpath va)) as [t'|] eqn:Et'; [|done].
    pose proof (ti_tbl _ _ _ _ _ _ _ _ Hinv Hr (valid_vpath va) Et') as Ho.
    assert (t <> t').
    { intros <-. simplify_eq. apply valid_path_snoc in Hvp as (_ & _ & Hlen).
      simpl in Hlen. lia. }
    apply (slot_other own l roots s); eauto. apply valid_PX; lia.
Qed.
End install.

End inv.
