(* ===== verification/VmProofs.v ===== *)
(** * kernel/vm.c: correctness of the page-table operations

    The specification of a page table is the function from virtual addresses to
    leaf PTEs ([VmInv.leaf]): walk reads it, mappages and uvmunmap update it at
    the pages they name and nowhere else, uvmalloc and uvmcopy extend it and
    restore it when memory runs out, freewalk gives every table page back. *)

From Stdlib Require Import ZArith Lia.
From stdpp Require Import base list gmap strings.
From S2P Require Import Prelude KString Spinlock Riscv Kalloc Vm VmInv.

Section vm_proofs.
Context (end_ : Z) (end_pos : 0 < end_).
#[local] Abbreviation page_ok := (page_ok end_).
#[local] Abbreviation kmem_inv := (kmem_inv end_).
#[local] Abbreviation tab_inv := (tab_inv end_).
#[local] Abbreviation vm_inv := (vm_inv end_).
Implicit Types (own : owners) (roots : gmap Z Z) (m : memory) (s : kmst).

(** ** Growing tables *)

(** Between the two states only free pages were taken, and they became tables. *)
Record grows roots own (l : list Z) s own' (l' : list Z) s' : Prop := {
  gr_tab : tab_inv own' l' roots s';
  gr_le : vm_le own s own' s';
  gr_data : forall p r, is_data r -> own' !! p = Some r <-> own !! p = Some r;
  gr_list : l' `suffix_of` l;
}.

Definition leaves_same roots m m' : Prop := forall root lim va,
  roots !! root = Some lim -> leaf m' root va = leaf m root va.

Lemma ready_le own s own' s' : kmem_ready s -> vm_le own s own' s' -> kmem_ready s'.
Proof. intros [H1 H2] (_ & _ & E & _). unfold kmem_ready. by rewrite E. Qed.

Lemma ready_settle s s' : kmem_ready s -> k_lk s' = settle (k_lk s) -> kmem_ready s'.
Proof. intros [H1 H2] E. unfold kmem_ready. rewrite E. auto with xv6. Qed.

Lemma grows_refl roots own l s : tab_inv own l roots s -> grows roots own l s own l s.
Proof. intros H. by split. Qed.

Lemma grows_trans roots own l s own1 l1 s1 own2 l2 s2 :
  grows roots own l s own1 l1 s1 -> grows roots own1 l1 s1 own2 l2 s2 ->
  grows roots own l s own2 l2 s2.
Proof.
  intros [A1 A2 A3 A4] [B1 B2 B3 B4]. split; [done| | |].
  - by eapply vm_le_trans.
  - intros p r Hr. by rewrite B3, A3.
  - by etrans.
Qed.

Lemma leaves_same_trans roots m m1 m2 :
  leaves_same roots m m1 -> leaves_same roots m1 m2 -> leaves_same roots m m2.
Proof. intros H1 H2 root lim va Hr. by rewrite (H2 root lim), (H1 root lim). Qed.

Lemma vm_inv_grows roots own l s own' l' s' :
  vm_inv own l roots s -> grows roots own l s own' l' s' ->
  leaves_same roots (k_mem s) (k_mem s') -> vm_inv own' l' roots s'.
Proof.
  intros [H1 H2 H3] [G1 G2 G3 _] Hl. split; [done| |].
  - intros root lim va Hr Hva. rewrite (Hl root lim) by done. intros HV.
    destruct (H2 root lim va Hr Hva HV) as [Ha Hb]. split; [|done].
    intros Hlt. apply G3; [done|auto].
  - intros root va p Hp. apply G3 in Hp; [|done].
    destruct (H3 _ _ _ Hp) as (lim & Hr & ? & ? & ? & ? & ?).
    exists lim. rewrite (Hl root lim) by done. split_and!; done || lia.
Qed.

Lemma table_page own l roots s t root p :
  tab_inv own l roots s -> own !! t = Some (RTable root p) -> page_ok t /\ t <> 0.
Proof.
  intros Hinv Ht. pose proof (ti_ok _ _ _ _ _ Hinv _ _ Ht) as Hok.
  split; [done|]. pose proof (page_ok_bounds _ end_pos _ Hok). lia.
Qed.

Lemma entry_Some (m : memory) t i t' :
  entry m t i = Some t' <->
  has (ld64 m (t + 8 * i)) PTE_V = true /\ t' = PTE2PA (ld64 m (t + 8 * i)).
Proof. unfold entry. destruct (has _ _); naive_solver. Qed.

(** The state after allocating and zeroing a table page [n], and the effect of
    hooking it into the empty entry [i] of the table at path [p]. *)
Lemma grows_install own l' roots root lim p i t n s s2 :
  tab_inv own (n :: l') roots s -> own !! n = Some RFree -> roots !! root = Some lim ->
  valid_path (p ++ [i]) -> tbl (k_mem s) root p = Some t ->
  has (ld64 (k_mem s) (t + 8 * i)) PTE_V = false ->
  tab_inv (<[n := RHeld]> own) l' roots s2 ->
  (forall b, ~ in_page n b -> rd (k_mem s2) b = rd (k_mem s) b) ->
  (forall b, in_page n b -> rd (k_mem s2) b = 0) ->
  k_lk s2 = settle (k_lk s) ->
  let s3 := set_kmem (st64 (k_mem s2) (t + 8 * i) (Z.lor (PA2PTE n) PTE_V)) s2 in
  grows roots own (n :: l') s (<[n := RTable root (p ++ [i])]> (<[n := RHeld]> own)) l' s3 /\
  leaves_same roots (k_mem s) (k_mem s3) /\
  tbl (k_mem s3) root (p ++ [i]) = Some n.
Proof.
  intros Hinv Hfree Hroot Hvp Ht HV Hinv2 Hag2 Hz Hlk s3.
  pose proof (valid_path_snoc _ _ Hvp) as (Hvp' & Hix & _).
  pose proof (ti_tbl _ _ _ _ _ _ _ _ _ Hinv Hroot Hvp' Ht) as Hto.
  assert (forall t' root' q b, own !! t' = Some (RTable root' q) -> in_page t' b ->
            rd (k_mem s2) b = rd (k_mem s) b) as Htabs.
  { intros t' root' q b Ht' Hb. apply Hag2.
    apply (own_disjoint end_ own (n :: l') roots s t' n); eauto. congruence. }
  assert (tbl (k_mem s2) root p = Some t) as Ht2.
  { rewrite <- Ht. eapply (tbl_agree end_ own (n :: l') roots s); eauto. }
  assert (has (ld64 (k_mem s2) (t + 8 * i)) PTE_V = false) as HV2.
  { rewrite (entry_agree (k_mem s)); eauto. }
  assert (<[n:=RHeld]> own !! n = Some RHeld) as Hn2 by by rewrite lookup_insert_eq.
  split_and!; [split| |].
  - by apply (tab_inv_install end_ end_pos _ _ _ _ _ lim).
  - split_and!.
    + intros p' r Hp' Hr'. rewrite !lookup_insert_ne; [done|congruence..].
    + intros p' r b Hp' Hd Hb.
      assert (p' <> n) by (apply (own_ne own p' n r RFree); [done..|by destruct r]).
      assert (p' <> t) by (apply (own_ne own p' t r (RTable root p)); [done..|by destruct r]).
      cbn. rewrite rd_st64_slot; [|done|].
      * apply Hag2. apply (own_disjoint end_ own (n :: l') roots s p' n); eauto.
      * apply (own_disjoint end_ own (n :: l') roots s p' t); eauto.
    + cbn. by rewrite Hlk, settle_eqv.
    + intros p' Hp'. do 2 (apply lookup_insert_is_Some'; right). done.
  - intros p' r Hd. rewrite insert_insert_eq.
    apply (own_insert_iff _ _ RFree); [done|by destruct r..].
  - by exists [n].
  - intros root' lim' va' Hroot'. cbn.
    rewrite (install_leaf end_ end_pos _ _ _ _ _ lim _ _ _ _ Hinv2 Hroot Hvp Ht2 HV2 Hn2 Hz
               root' lim') by done.
    eapply (leaf_agree end_ own (n :: l') roots s); eauto.
  - by apply (install_new end_ end_pos _ _ _ _ _ lim _ _ _ _ Hinv2).
Qed.

(** One level of walk with [alloc != 0]. *)
Lemma wp_walk_level own l roots root lim p t va lv Q s :
  tab_inv own l roots s -> kmem_ready s -> roots !! root = Some lim ->
  valid_path (p ++ [PX lv va]) -> tbl (k_mem s) root p = Some t ->
  (forall r s' own' l',
     grows roots own l s own' l' s' -> leaves_same roots (k_mem s) (k_mem s') ->
     r = 0 \/ (r <> 0 /\ tbl (k_mem s') root (p ++ [PX lv va]) = Some r) -> Q r s') ->
  wp (walk_level t va true lv) Q s.
Proof.
  intros Hinv Hr Hroot Hvp Ht HQ. unfold walk_level, load64, mem_update, store64.
  mstep. mstep. destruct (has (ld64 (k_mem s) (t + 8 * PX lv va)) PTE_V) eqn:HV.
  - mstep. assert (tbl (k_mem s) root (p ++ [PX lv va]) =
                   Some (PTE2PA (ld64 (k_mem s) (t + 8 * PX lv va)))) as Hnew.
    { rewrite tbl_snoc, Ht. simpl. by apply entry_Some. }
    pose proof (ti_tbl _ _ _ _ _ _ _ _ _ Hinv Hroot Hvp Hnew) as Ho.
    apply (HQ _ s own l); [by apply grows_refl|done|]. right.
    by destruct (table_page _ _ _ _ _ _ _ Hinv Ho).
  - cbn [negb]. mstep. apply (wp_kalloc_tab end_ end_pos own l roots); [done..| |].
    + intros s' -> Hinv' Hm Hlk. null_case. mstep.
      apply (HQ _ s' own []); [|by rewrite Hm|by left].
      split; [done| |done|done]. split_and!; [done|by rewrite Hm|by rewrite Hlk, settle_eqv|done].
    + intros n l' s1 -> Hfree Hn Hinv1 Hag Hlk.
      assert (n <> 0) as Hn0 by (pose proof (page_ok_bounds _ end_pos _ Hn); lia).
      nonnull_case. mstep. mstep. mstep. mstep. mstep.
      set (s2 := set_kmem (memset (k_mem s1) n 0 PGSIZE) s1).
      destruct (grows_install own l' roots root lim p (PX lv va) t n s s2) as (G & L & T);
        [done..| | | |exact Hlk|].
      * apply (tab_inv_write _ end_pos _ _ _ s1 _ n RHeld); [done|by rewrite lookup_insert_eq|done|reflexivity|].
        intros b Hb. cbn. by rewrite rd_memset, decide_False.
      * intros b Hb. cbn. rewrite rd_memset, decide_False by done. by apply Hag.
      * intros b Hb. cbn. by rewrite rd_memset, decide_True.
      * exact (HQ _ _ _ _ G L (or_intror (conj Hn0 T))).
Qed.

Lemma wp_walk_alloc own l roots root lim va Q s :
  tab_inv own l roots s -> kmem_ready s -> roots !! root = Some lim -> 0 <= va < MAXVA ->
  (forall r s' own' l',
     grows roots own l s own' l' s' -> leaves_same roots (k_mem s) (k_mem s') ->
     r = 0 \/ (r <> 0 /\ exists t, tbl (k_mem s') root (vpath va) = Some t /\
                         r = t + 8 * PX 0 va) -> Q r s') ->
  wp (walk root va true) Q s.
Proof.
  intros Hinv Hr Hroot Hva HQ. unfold walk.
  rewrite (proj2 (Z.leb_gt _ _)) by lia. pose proof (valid_vpath va) as Hvp.
  assert (valid_path [PX 2 va]) as Hv1.
  { split; [simpl; lia|]. destruct Hvp as [_ Hf]. inversion Hf; subst. by constructor. }
  mstep. apply (wp_walk_level own l roots root lim []); try done.
  intros r1 s1 own1 l1 G1 L1 [->|[Hr1 Ht1]].
  { null_case. mstep. eapply HQ; eauto. }
  rewrite (proj2 (Z.eqb_neq r1 0)) by done. mstep.
  apply (wp_walk_level own1 l1 roots root lim [PX 2 va]); try done.
  { apply G1. } { eapply ready_le; [done|apply G1]. }
  intros r2 s2 own2 l2 G2 L2 H2.
  pose proof (grows_trans _ _ _ _ _ _ _ _ _ _ G1 G2) as G.
  pose proof (leaves_same_trans _ _ _ _ L1 L2) as L.
  destruct H2 as [->|[Hr2 Ht2]].
  { null_case. mstep. eapply HQ; eauto. }
  rewrite (proj2 (Z.eqb_neq r2 0)) by done. mstep. eapply HQ; eauto. right.
  pose proof (ti_tbl _ _ _ _ _ _ _ _ _ (gr_tab _ _ _ _ _ _ _ G) Hroot Hvp Ht2) as Ho.
  destruct (table_page _ _ _ _ _ _ _ (gr_tab _ _ _ _ _ _ _ G) Ho) as [Hok _].
  pose proof (page_ok_bounds _ end_pos _ Hok). pose proof (PX_range 0 va).
  split; [lia|eauto].
Qed.

(** walk with [alloc == 0] only reads: it finds the level-0 table. *)
Lemma walk_run own l roots root lim va s :
  tab_inv own l roots s -> roots !! root = Some lim -> 0 <= va < MAXVA ->
  walk root va false s =
  Ret (match tbl (k_mem s) root (vpath va) with
       | Some t => t + 8 * PX 0 va
       | None => 0
       end) s.
Proof.
  intros Hinv Hroot Hva. unfold walk, walk_level, load64.
  rewrite (proj2 (Z.leb_gt _ _)) by lia. unfold vpath.
  change [PX 2 va; PX 1 va] with (([] ++ [PX 2 va]) ++ [PX 1 va]).
  pose proof (valid_vpath va) as Hvp.
  assert (valid_path [PX 2 va]) as Hv1.
  { split; [simpl; lia|]. destruct Hvp as [_ Hf]. inversion Hf; subst. by constructor. }
  rewrite tbl_snoc. destruct (tbl (k_mem s) root ([] ++ [PX 2 va])) as [t1|] eqn:E1.
  - pose proof (ti_tbl _ _ _ _ _ _ _ _ _ Hinv Hroot Hv1 E1) as Ho1.
    destruct (table_page _ _ _ _ _ _ _ Hinv Ho1) as [_ Hnz1].
    pose proof E1 as E1'. rewrite tbl_snoc in E1'. simpl in E1'.
    apply entry_Some in E1' as [HV1 ->].
    unfold mbind, M_bind, gets. cbn [mbind option_bind]. rewrite HV1. cbn [mret M_ret].
    unfold mret, M_ret. rewrite (proj2 (Z.eqb_neq _ 0)) by done.
    destruct (entry (k_mem s) _ (PX 1 va)) as [t0|] eqn:E0; cbn [option_bind].
    + assert (tbl (k_mem s) root (vpath va) = Some t0) as Et0.
      { unfold vpath. change [PX 2 va; PX 1 va] with (([] ++ [PX 2 va]) ++ [PX 1 va]).
        by rewrite tbl_snoc, E1. }
      pose proof (ti_tbl _ _ _ _ _ _ _ _ _ Hinv Hroot Hvp Et0) as Ho0.
      destruct (table_page _ _ _ _ _ _ _ Hinv Ho0) as [_ Hnz0].
      apply entry_Some in E0 as [HV0 ->]. rewrite HV0.
      by rewrite (proj2 (Z.eqb_neq _ 0)) by done.
    + unfold entry in E0. by destruct (has (ld64 (k_mem s) (PTE2PA _ + _)) PTE_V).
  - rewrite tbl_snoc in E1. simpl in E1. unfold entry in E1.
    unfold mbind, M_bind, gets. simpl. by destruct (has _ _).
Qed.

Lemma leaf_tbl m root va :
  has (leaf m root va) PTE_V = true ->
  exists t, tbl m root (vpath va) = Some t /\ leaf m root va = ld64 m (t + 8 * PX 0 va).
Proof. unfold leaf. destruct (tbl m root (vpath va)) as [t|]; [eauto|done]. Qed.

Lemma leaf_u64 m root va : is_u64 (leaf m root va).
Proof.
  unfold leaf. destruct (tbl m root (vpath va)); [apply ld64_range|].
  unfold is_u64. lia.
Qed.

(** The address of the PTE that a read-only walk returns is not null. *)
Lemma slot_nonnull own l roots s root lim va t :
  tab_inv own l roots s -> roots !! root = Some lim ->
  tbl (k_mem s) root (vpath va) = Some t -> t + 8 * PX 0 va <> 0.
Proof.
  intros Hinv Hroot Ht.
  pose proof (ti_tbl _ _ _ _ _ _ _ _ _ Hinv Hroot (valid_vpath va) Ht) as Ho.
  destruct (table_page _ _ _ _ _ _ _ Hinv Ho) as [Hok _].
  pose proof (page_ok_bounds _ end_pos _ Hok). pose proof (PX_range 0 va). lia.
Qed.

Lemma wp_walk_mapped own l roots root lim va Q s :
  tab_inv own l roots s -> roots !! root = Some lim -> 0 <= va < MAXVA ->
  has (leaf (k_mem s) root va) PTE_V = true ->
  (forall t, tbl (k_mem s) root (vpath va) = Some t -> t + 8 * PX 0 va <> 0 ->
     ld64 (k_mem s) (t + 8 * PX 0 va) = leaf (k_mem s) root va -> Q (t + 8 * PX 0 va) s) ->
  wp (walk root va false) Q s.
Proof.
  intros Hinv Hroot Hva HV HQ. destruct (leaf_tbl _ _ _ HV) as (t & Ht & El).
  eapply wp_run; [by eapply walk_run|]. rewrite Ht. apply HQ; [done| |done].
  by eapply slot_nonnull.
Qed.

Lemma walkaddr_run own l roots root lim va s :
  tab_inv own l roots s -> roots !! root = Some lim -> 0 <= va ->
  walkaddr root va s =
  Ret (if decide (va < MAXVA) then
         let e := leaf (k_mem s) root va in
         if has e PTE_V && has e PTE_U then PTE2PA e else 0
       else 0) s.
Proof.
  intros Hinv Hroot Hva. unfold walkaddr. destruct (Z.leb_spec MAXVA va).
  { by rewrite decide_False by lia. }
  rewrite decide_True by lia.
  rewrite (bind_run _ _ _ _ _ (walk_run own l roots root lim va s Hinv Hroot ltac:(lia))).
  unfold leaf. destruct (tbl (k_mem s) root (vpath va)) as [t|] eqn:Ht; [|done].
  pose proof (slot_nonnull _ _ _ _ _ _ _ _ Hinv Hroot Ht). nonnull_case.
  unfold mbind, M_bind, load64, gets. cbn [negb].
  destruct (has _ PTE_V); [|done]. cbn. by destruct (has _ PTE_U).
Qed.

(** ** mappages *)

(** [m'] is [m] with the pages of [a, c) mapped to the pages from [pa] on. *)
Definition mapped roots m m' (root a c pa perm : Z) : Prop := forall root' lim' va,
  roots !! root' = Some lim' -> 0 <= va < 2 * MAXVA ->
  leaf m' root' va =
  if decide (root' = root /\ a <= va < c)
  then Z.lor (Z.lor (PA2PTE (pa + (PGROUNDDOWN va - a))) perm) PTE_V
  else leaf m root' va.

Lemma lor_V perm : 0 <= perm < 1024 -> 0 <= Z.lor perm PTE_V < 1024.
Proof. intros. apply (lor_range _ _ 10); [lia..|]. change PTE_V with 1. lia. Qed.

(** Storing a leaf PTE keeps everything but that leaf. *)
Lemma grows_set_leaf own l roots s root lim va t v own1 l1 s1 :
  grows roots own l s own1 l1 s1 -> roots !! root = Some lim ->
  tbl (k_mem s1) root (vpath va) = Some t -> is_u64 v ->
  grows roots own l s own1 l1 (set_kmem (st64 (k_mem s1) (t + 8 * PX 0 va) v) s1).
Proof.
  intros G Hroot Ht Hv. eapply grows_trans; [done|].
  pose proof (gr_tab _ _ _ _ _ _ _ G) as Hinv.
  pose proof (ti_tbl _ _ _ _ _ _ _ _ _ Hinv Hroot (valid_vpath va) Ht) as Ho.
  split; [|split_and!|done|done]; try done.
  - by eapply tab_inv_set_leaf.
  - intros p r b Hp Hr Hb. cbn. apply rd_st64_slot; [apply valid_PX; lia|].
    apply (own_disjoint end_ own1 l1 roots s1 p t); eauto.
    apply (own_ne own1 p t r (RTable root (vpath va))); [done..|by destruct r].
Qed.

Lemma set_page_leaf own l roots s root lim a t v root' lim' va :
  tab_inv own l roots s -> roots !! root = Some lim -> 0 <= a < MAXVA -> a mod PGSIZE = 0 ->
  tbl (k_mem s) root (vpath a) = Some t -> is_u64 v ->
  roots !! root' = Some lim' -> 0 <= va < 2 * MAXVA ->
  leaf (st64 (k_mem s) (t + 8 * PX 0 a) v) root' va =
  if decide (root' = root /\ a <= va < a + PGSIZE) then v else leaf (k_mem s) root' va.
Proof.
  intros Hinv Hroot Ha Hal Ht Hv Hr' Hva.
  rewrite (set_leaf_leaf end_ own l roots s root lim a t v Hinv Hroot Ht Hv root' lim') by (done || lia).
  rewrite !PGROUNDDOWN_eq. unfold PGSIZE in *.
  destruct (decide (root' = root /\ a <= va < a + 4096)).
  - rewrite decide_True; [done|]. split; [tauto|]. divlia.
  - rewrite decide_False; [done|]. intros [-> E]. apply n. split; [done|]. divlia.
Qed.

Lemma wp_mappages_loop fuel own l roots root lim a last pa perm Q s :
  tab_inv own l roots s -> kmem_ready s -> roots !! root = Some lim ->
  0 <= a <= last -> last < MAXVA -> a mod PGSIZE = 0 -> last mod PGSIZE = 0 ->
  0 <= pa -> pa + (last - a) < 2 ^ 56 -> 0 <= perm < 1024 ->
  (forall va, a <= va < last + PGSIZE -> has (leaf (k_mem s) root va) PTE_V = false) ->
  (last - a) / PGSIZE < Z.of_nat fuel ->
  (forall r c s' own' l', grows roots own l s own' l' s' ->
     r = 0 /\ c = last + PGSIZE \/ r = -1 /\ a <= c <= last /\ c mod PGSIZE = 0 ->
     mapped roots (k_mem s) (k_mem s') root a c pa perm -> Q r s') ->
  wp (mappages_loop fuel root a last pa perm) Q s.
Proof.
  revert own l a pa s. induction fuel as [|fuel IH];
    intros own l a pa s Hinv Hr Hroot Ha Hlast Hal Hlal Hpa Hpa' Hperm Hno Hfuel HQ.
  { exfalso. unfold PGSIZE in *. divlia. }
  cbn [mappages_loop]. mstep. apply (wp_walk_alloc own l roots root lim); [done..|lia|].
  intros r s1 own1 l1 G1 L1 [->|(Hr0 & t & Ht & ->)].
  { null_case. mstep. apply (HQ _ a s1 own1 l1); [done|right; lia|].
    intros root' lim' va Hr' Hva. rewrite decide_False by lia. by eapply L1. }
  nonnull_case. unfold load64, store64. mstep. mstep.
  assert (ld64 (k_mem s1) (t + 8 * PX 0 a) = leaf (k_mem s1) root a) as ->
    by (unfold leaf; by rewrite Ht).
  rewrite (L1 root lim) by done. rewrite Hno by (unfold PGSIZE; lia). mstep. mstep.
  set (v := Z.lor (Z.lor (PA2PTE pa) perm) PTE_V).
  assert (is_u64 v) as Hv.
  { unfold v. rewrite <- Z.lor_assoc. apply pte_u64; [lia|by apply lor_V]. }
  pose proof (grows_set_leaf _ _ _ _ _ _ _ _ v _ _ _ G1 Hroot Ht Hv) as G2.
  set (s2 := set_kmem (st64 (k_mem s1) (t + 8 * PX 0 a) v) s1) in *.
  assert (forall root' lim' va, roots !! root' = Some lim' -> 0 <= va < 2 * MAXVA ->
     leaf (k_mem s2) root' va =
     if decide (root' = root /\ a <= va < a + PGSIZE) then v else leaf (k_mem s) root' va) as L2.
  { intros root' lim' va Hr' Hva. rewrite <- (L1 root' lim') by done.
    eapply set_page_leaf; eauto using gr_tab with lia. }
  destruct (Z.eqb_spec a last) as [->|Hne].
  - mstep. apply (HQ _ (last + PGSIZE) s2 own1 l1); [done|by left|].
    intros root' lim' va Hr' Hva. rewrite (L2 root' lim') by done.
    case_decide as E; [|done]. unfold v. do 3 f_equal.
    rewrite PGROUNDDOWN_eq. unfold PGSIZE in *. divlia.
  - unfold PGSIZE in *.
    apply (IH own1 l1 (a + 4096) (pa + 4096)); [apply G2| |done|divlia|lia|divlia|lia|lia|lia|lia| |divlia|].
    { eapply ready_le; [done|apply G2]. }
    { intros va Hva. rewrite (L2 root lim); [|done|rewrite MAXVA_eq in *; divlia].
      rewrite decide_False by lia. apply Hno. lia. }
    intros r c s3 own3 l3 G3 Hc M3.
    apply (HQ r c s3 own3 l3); [by eapply grows_trans|divlia|].
    intros root' lim' va Hr' Hva. rewrite (M3 root' lim') by done.
    rewrite (L2 root' lim') by done.
    destruct (decide (root' = root /\ a + 4096 <= va < c)) as [[-> E]|E].
    + rewrite decide_True by (split; [done|lia]). do 3 f_equal. lia.
    + destruct (decide (root' = root /\ a <= va < a + 4096)) as [[-> E']|E'].
      * rewrite decide_True by (split; [done|divlia]). unfold v. do 3 f_equal.
        rewrite PGROUNDDOWN_eq. unfold PGSIZE. divlia.
      * rewrite decide_False; [done|]. intros [-> ?]. lia.
Qed.

(** mappages of whole pages. *)
Lemma wp_mappages own l roots root lim va size pa perm Q s :
  tab_inv own l roots s -> kmem_ready s -> roots !! root = Some lim ->
  0 <= va -> 0 < size -> va + size <= MAXVA -> va mod PGSIZE = 0 -> size mod PGSIZE = 0 ->
  0 <= pa -> pa + size <= 2 ^ 56 -> 0 <= perm < 1024 ->
  (forall v, va <= v < va + size -> has (leaf (k_mem s) root v) PTE_V = false) ->
  (forall r c s' own' l', grows roots own l s own' l' s' ->
     r = 0 /\ c = va + size \/ r = -1 /\ va <= c < va + size /\ c mod PGSIZE = 0 ->
     mapped roots (k_mem s) (k_mem s') root va c pa perm -> Q r s') ->
  wp (mappages root va size pa perm) Q s.
Proof.
  intros Hinv Hr Hroot Hva Hsz Hmax Hal Hsal Hpa Hpa' Hperm Hno HQ. unfold mappages.
  assert (PGROUNDDOWN va = va) as -> by (rewrite PGROUNDDOWN_eq; lia).
  assert (PGROUNDDOWN (u64 (va + size - 1)) = va + size - PGSIZE) as ->.
  { rewrite u64_small, PGROUNDDOWN_eq by (rewrite MAXVA_eq in *; unfold is_u64; lia).
    unfold PGSIZE in *. divlia. }
  unfold PGSIZE in *. apply (wp_mappages_loop _ own l roots root lim);
    rewrite ?MAXVA_eq in *; try done; try (unfold PGSIZE; divlia).
  - intros v Hv. apply Hno. unfold PGSIZE in Hv. lia.
  - unfold mappages_bound. rewrite (proj2 (Z.leb_le _ _)) by (unfold PGSIZE; divlia).
    unfold PGSIZE. divlia.
  - intros r c s' own' l' G Hc. apply (HQ r c s' own' l'); [done|].
    unfold PGSIZE in *. destruct Hc as [[-> ->]|(-> & ? & ?)]; [left; lia|right; lia].
Qed.

(** ** New page tables *)

(** At boot every free page is owned by the free list. *)
Lemma vm_inv_boot l s :
  kmem_inv l s -> vm_inv (list_to_map ((fun p => (p, RFree)) <$> l)) l ∅ s.
Proof.
  intros Hk. assert (NoDup ((fun p => (p, RFree)) <$> l).*1) as Hnd.
  { rewrite <- list_fmap_compose. unfold compose. simpl. rewrite list_fmap_id. apply Hk. }
  assert (forall p r, (list_to_map ((fun p => (p, RFree)) <$> l) : owners) !! p = Some r <->
            p ∈ l /\ r = RFree) as Hl.
  { intros p r. rewrite <- elem_of_list_to_map by done. rewrite list_elem_of_fmap. naive_solver. }
  split; [split|..].
  - done.
  - intros p r [Hp _]%Hl. destruct Hk as [_ _ Hok]. rewrite Forall_forall in Hok. by apply Hok.
  - intros p. rewrite Hl. naive_solver.
  - intros root p t. rewrite Hl. split; [naive_solver|]. intros ([? Hx] & _). done.
  - done.
  - done.
  - intros root va p [_ ?]%Hl. done.
Qed.

Section new_root.
Context own (l : list Z) roots (s s' : kmst) (r lim : Z).
Context (Hvm : vm_inv own l roots s) (Hfree : own !! r = Some RFree) (Hok : page_ok r).
Context (Hag : forall b, ~ in_page r b -> rd (k_mem s') b = rd (k_mem s) b).
Context (Hzero : forall b, in_page r b -> rd (k_mem s') b = 0).

Let own' := <[r := RTable r []]> own.
Let roots' := <[r := lim]> roots.

Lemma new_root_fresh : roots !! r = None.
Proof.
  destruct (roots !! r) as [lim'|] eqn:E; [|done].
  pose proof (ti_tbl _ _ _ _ _ _ _ [] r (vi_tab _ _ _ _ _ Hvm) E) as H.
  rewrite H in Hfree; [done| |done]. split; [simpl; lia|constructor].
Qed.

Lemma new_root_entry i : valid_ix i -> ld64 (k_mem s') (r + 8 * i) = 0.
Proof.
  intros Hi. rewrite (ld64_ext _ ∅); [reflexivity|]. intros b Hb.
  rewrite Hzero; [reflexivity|]. by eapply slot_in_page.
Qed.

Lemma new_root_tbl p : valid_path p -> tbl (k_mem s') r p = match p with [] => Some r | _ => None end.
Proof.
  induction p as [|i p IH] using rev_ind; [done|]. intros Hv.
  apply valid_path_snoc in Hv as (Hvp & Hi & _). rewrite tbl_snoc, IH by done.
  destruct p as [|j p]; [|done]. simpl. unfold entry. by rewrite new_root_entry.
Qed.

Lemma new_root_leaf va : leaf (k_mem s') r va = 0.
Proof. unfold leaf. by rewrite (new_root_tbl _ (valid_vpath va)). Qed.

Lemma new_root_old_tbl root' lim' p : roots !! root' = Some lim' -> valid_path p ->
  tbl (k_mem s') root' p = tbl (k_mem s) root' p.
Proof.
  intros Hr Hp. eapply (tbl_agree end_ own l roots s); [apply Hvm|done|done|].
  intros t q b Ht _ Hb. apply Hag. apply (own_disjoint end_ own l roots s t r); eauto; [apply Hvm|congruence].
Qed.

Lemma new_root_old_leaf : leaves_same roots (k_mem s) (k_mem s').
Proof.
  intros root' lim' va Hr. eapply (leaf_agree end_ own l roots s); [apply Hvm|done|].
  intros t q b Ht Hb. apply Hag. apply (own_disjoint end_ own l roots s t r); eauto; [apply Hvm|congruence].
Qed.

Lemma new_root_tab l' : kmem_inv l' s' -> (forall p, p ∈ l' <-> p ∈ l /\ p <> r) ->
  tab_inv own' l' roots' s'.
Proof.
  intros Hk Hl. pose proof (vi_tab _ _ _ _ _ Hvm) as Hinv. pose proof new_root_fresh as Hnew. split.
  - done.
  - intros p r0. unfold own'. rewrite lookup_insert. case_decide; [by subst|]. by eapply ti_ok.
  - intros p. rewrite Hl, <- (ti_list _ _ _ _ _ Hinv). unfold own'. rewrite lookup_insert.
    case_decide; naive_solver.
  - intros root' p t. unfold own', roots'. destruct (decide (root' = r)) as [->|Hne].
    + rewrite lookup_insert_eq. rewrite lookup_insert. split.
      * case_decide as E; [intros [= <-]|].
        -- rewrite <- E. split_and!; [eauto|split; [simpl; lia|constructor]|done].
        -- intros Ho. apply (ti_tables _ _ _ _ _ Hinv) in Ho as ([? Hx] & _). congruence.
      * intros (_ & Hv & Ht). rewrite new_root_tbl in Ht by done. destruct p; [|done].
        injection Ht as <-. by rewrite decide_True.
    + rewrite (lookup_insert_ne roots) by done. rewrite lookup_insert. case_decide as E.
      * split; [naive_solver|]. intros ([lim' Hr] & Hv & Ht). rewrite <- E in Ht.
        rewrite (new_root_old_tbl root' lim') in Ht by done.
        rewrite (ti_tbl _ _ _ _ _ _ _ _ _ Hinv Hr Hv Ht) in Hfree. done.
      * rewrite (ti_tables _ _ _ _ _ Hinv). split; intros ([lim' Hr] & Hv & Ht);
          (split_and!; [eauto|done|]); [by rewrite (new_root_old_tbl root' lim')|
          by rewrite <- (new_root_old_tbl root' lim')].
  - intros root' lim' p t i. unfold roots'. rewrite lookup_insert. case_decide as E.
    + subst root'. intros _ Hp Ht. pose proof (valid_path_snoc _ _ Hp) as (Hvp & Hi & _).
      rewrite new_root_tbl in Ht by done. destruct p; [|done]. injection Ht as <-.
      cbn zeta. by rewrite new_root_entry.
    + intros Hr Hp Ht. pose proof (valid_path_snoc _ _ Hp) as (Hvp & Hi & _).
      rewrite (new_root_old_tbl root' lim') in Ht by done.
      pose proof (ti_tbl _ _ _ _ _ _ _ _ _ Hinv Hr Hvp Ht) as Ho.
      rewrite (entry_agree (k_mem s)); [by eapply ti_canon|done|].
      intros b Hb. apply Hag. apply (own_disjoint end_ own l roots s t r); eauto. congruence.
Qed.

Lemma new_root_vm l' : kmem_inv l' s' -> (forall p, p ∈ l' <-> p ∈ l /\ p <> r) ->
  vm_inv own' l' roots' s'.
Proof.
  intros Hk Hl. split; [by apply new_root_tab|..].
  - intros root' lim' va. unfold roots'. rewrite lookup_insert. case_decide as E.
    + subst root'. intros _ _. by rewrite new_root_leaf.
    + intros Hr Hva. rewrite (new_root_old_leaf root' lim') by done. intros HV.
      destruct (vi_leaf _ _ _ _ _ Hvm root' lim' va Hr Hva HV) as [H1 H2]. split; [|done].
      intros Hlt. unfold own'. rewrite lookup_insert_ne; [auto|]. intros Er. rewrite <- Er in H1.
      rewrite H1 in Hfree; done.
  - intros root' v p. unfold own'. rewrite lookup_insert. case_decide as E; [done|]. intros Hp.
    destruct (vi_user _ _ _ _ _ Hvm _ _ _ Hp) as (lim' & Hr & H). exists lim'.
    rewrite (new_root_old_leaf root' lim') by done. unfold roots'.
    rewrite lookup_insert_ne; [done|]. intros Er. pose proof new_root_fresh. congruence.
Qed.
End new_root.

(** uvmcreate makes an empty page table of a fresh page. *)
Lemma wp_uvmcreate own l roots lim Q s :
  vm_inv own l roots s -> kmem_ready s ->
  (forall s', l = [] -> k_mem s' = k_mem s -> k_lk s' ≈ k_lk s -> vm_inv own l roots s' -> Q 0 s') ->
  (forall r l' s', l = r :: l' -> r <> 0 -> k_lk s' ≈ k_lk s ->
     vm_inv (<[r := RTable r []]> own) l' (<[r := lim]> roots) s' ->
     leaves_same roots (k_mem s) (k_mem s') -> (forall va, leaf (k_mem s') r va = 0) ->
     (forall p x b, own !! p = Some x -> is_data x -> in_page p b -> rd (k_mem s') b = rd (k_mem s) b) ->
     Q r s') ->
  wp uvmcreate Q s.
Proof.
  intros Hvm Hr H0 H1. unfold uvmcreate. mstep.
  apply (wp_kalloc_tab _ end_pos own l roots); [apply Hvm|done|..].
  - intros s' -> Hinv Hm Hlk. null_case. mstep. apply H0; try done; [by rewrite Hlk, settle_eqv|].
    destruct Hvm as [? ? ?]. split; [done|by rewrite Hm..].
  - intros r l' s1 -> Hfree Hok Hinv1 Hag1 Hlk1. pose proof (page_ok_bounds _ end_pos _ Hok).
    rewrite (proj2 (Z.eqb_neq r 0)) by lia. unfold mem_update. mstep. mstep. mstep.
    set (s2 := set_kmem (memset (k_mem s1) r 0 PGSIZE) s1).
    assert (forall b, ~ in_page r b -> rd (k_mem s2) b = rd (k_mem s) b) as Hag.
    { intros b Hb. cbn. rewrite rd_memset, decide_False by done. by apply Hag1. }
    assert (forall b, in_page r b -> rd (k_mem s2) b = 0) as Hz.
    { intros b Hb. cbn. by rewrite rd_memset, decide_True. }
    assert (kmem_inv l' s2) as Hk2.
    { eapply (ti_kmem end_ (<[r:=RHeld]> own) l' roots).
      apply (tab_inv_write _ end_pos _ _ _ s1 _ r RHeld); [done|by rewrite lookup_insert_eq|done|reflexivity|].
      intros b Hb. cbn. by rewrite rd_memset, decide_False. }
    assert (k_lk s2 ≈ k_lk s) as Hlk by (cbn; by rewrite Hlk1, settle_eqv).
    clearbody s2. assert (forall p, p ∈ l' <-> p ∈ r :: l' /\ p <> r) as Hl.
    { pose proof (ki_nodup _ _ _ (ti_kmem _ _ _ _ _ (vi_tab _ _ _ _ _ Hvm))) as Hnd.
      apply NoDup_cons in Hnd as [Hnin _]. intros p. rewrite elem_of_cons. split; [|naive_solver].
      intros Hp. split; [by right|]. by intros ->. }
    apply (H1 r l' s2); try done; try lia.
    + by apply (new_root_vm own (r :: l') roots s s2 r lim).
    + by apply (new_root_old_leaf own (r :: l') roots s s2 r).
    + by apply new_root_leaf.
    + intros p x b Hp Hx Hb. apply Hag.
      apply (own_disjoint end_ own (r :: l') roots s p r); eauto; [apply Hvm|].
      intros ->. by rewrite Hfree in Hp; injection Hp as <-.
Qed.

End vm_proofs.
