(* ===== verification/VmUser.v ===== *)
(** * kernel/vm.c: correctness of the operations on user memory

    uvmunmap, uvmdealloc, uvmalloc and uvmcopy against the invariant of VmInv:
    they change the mappings of the pages they name, keep every other page
    table and every other page of user memory, and give back what they
    allocated when memory runs out. *)

From Stdlib Require Import ZArith Lia.
From stdpp Require Import base list gmap strings.
From S2P Require Import Prelude KString Spinlock Riscv Kalloc Vm VmInv VmProofs.

Section vm_user.
Context (end_ : Z) (end_pos : 0 < end_).
#[local] Abbreviation page_ok := (page_ok end_).
#[local] Abbreviation kmem_inv := (kmem_inv end_).
#[local] Abbreviation tab_inv := (tab_inv end_).
#[local] Abbreviation vm_inv := (vm_inv end_).
#[local] Abbreviation grows := (grows end_).
Implicit Types (own : owners) (roots : gmap Z Z) (m : memory) (s : kmst).

(** ** uvmunmap *)

(** A PTE that uvmunmap accepts. *)
Definition is_leaf (e : Z) : Prop := has e PTE_V = true /\ PTE_FLAGS e <> PTE_V.

(** Exactly the user pages of [root] in [lo, hi) have been unmapped and freed. *)
Record unmapped roots own s own' s' (root lo hi : Z) : Prop := {
  um_leaf : forall root' lim' va, roots !! root' = Some lim' -> 0 <= va < 2 * MAXVA ->
    leaf (k_mem s') root' va =
    if decide (root' = root /\ lo <= va < hi) then 0 else leaf (k_mem s) root' va;
  um_user : forall p v, own !! p = Some (RUser root v) -> lo <= v < hi -> own' !! p = Some RFree;
  um_own : forall p r, own !! p = Some r -> (forall v, r = RUser root v -> ~ lo <= v < hi) ->
    own' !! p = Some r;
  um_new : forall p r, own' !! p = Some r -> r <> RFree -> own !! p = Some r;
  um_data : forall p r b, own' !! p = Some r -> is_data r -> in_page p b ->
    rd (k_mem s') b = rd (k_mem s) b;
  um_lk : k_lk s' ≈ k_lk s;
}.

Lemma unmapped_refl roots own s root lo : unmapped roots own s own s root lo lo.
Proof.
  split; try done.
  - intros. by rewrite decide_False by lia.
  - lia.
Qed.

Lemma unmapped_trans roots own s own1 s1 own2 s2 root lo mid hi :
  lo <= mid <= hi ->
  unmapped roots own s own1 s1 root lo mid -> unmapped roots own1 s1 own2 s2 root mid hi ->
  unmapped roots own s own2 s2 root lo hi.
Proof.
  intros Hle [A1 A2 A3 A4 A5 A6] [B1 B2 B3 B4 B5 B6]. split.
  - intros root' lim' va Hr Hva. rewrite (B1 root' lim'), (A1 root' lim') by done.
    repeat case_decide; try done; exfalso; naive_solver lia.
  - intros p v Hp Hv. destruct (decide (v < mid)) as [Hlt|Hge].
    + assert (own1 !! p = Some RFree) as H1 by (eapply A2; eauto; lia). by apply B3.
    + assert (own1 !! p = Some (RUser root v)) as H1.
      { apply A3; [done|]. intros v' [= <-]. lia. }
      eapply B2; eauto. lia.
  - intros p r Hp Hr. apply B3; [apply A3|]; try done; intros v E; specialize (Hr v E); lia.
  - eauto.
  - intros p r b Hp Hr Hb. rewrite (B5 p r b) by done.
    apply (A5 p r b); try done. apply B4; [done|by destruct r].
  - by rewrite B6, A6.
Qed.

(** No page is lost: an unmapped page is free. *)
Lemma unmapped_dom roots own s own' s' root lo hi p :
  unmapped roots own s own' s' root lo hi -> is_Some (own !! p) -> is_Some (own' !! p).
Proof.
  intros [A1 A2 A3 A4 A5 A6] [r Hp].
  destruct (decide (r = RUser root match r with RUser _ v => v | _ => 0 end /\
                    lo <= match r with RUser _ v => v | _ => 0 end < hi)) as [[E Hv]|Hn].
  - rewrite E in Hp. eauto.
  - exists r. apply A3; [done|]. intros v ->. naive_solver.
Qed.

(** kfree of a mapped page followed by clearing its PTE. *)
Lemma unmap_page own l roots s root lim a t s1 :
  vm_inv own l roots s -> roots !! root = Some lim -> 0 <= a < lim -> a < MAXVA ->
  a mod PGSIZE = 0 -> has (leaf (k_mem s) root a) PTE_V = true ->
  tbl (k_mem s) root (vpath a) = Some t ->
  let pa := PTE2PA (leaf (k_mem s) root a) in
  let own' := <[pa := RFree]> own in
  tab_inv own' (pa :: l) roots s1 ->
  (forall b, ~ in_page pa b -> rd (k_mem s1) b = rd (k_mem s) b) ->
  k_lk s1 = settle (k_lk s) ->
  let s2 := set_kmem (st64 (k_mem s1) (t + 8 * PX 0 a) 0) s1 in
  vm_inv own' (pa :: l) roots s2 /\ unmapped roots own s own' s2 root a (a + PGSIZE).
Proof.
  intros Hvm Hroot Ha Hmax Hal HV Ht pa own' Hinv1 Hag Hlk s2.
  pose proof (vi_tab _ _ _ _ _ Hvm) as Hinv.
  destruct (vi_leaf _ _ _ _ _ Hvm root lim a) as [Hown _]; [done|lia|done|].
  specialize (Hown ltac:(lia)). fold pa in Hown.
  assert (PGROUNDDOWN a = a) as Hpd by (rewrite PGROUNDDOWN_eq; lia). rewrite Hpd in Hown.
  assert (forall p r, own !! p = Some r -> r <> RUser root a -> p <> pa) as Hpa.
  { intros p r Hp Hr. by apply (own_ne own p pa r (RUser root a)). }
  assert (forall p r b, own !! p = Some r -> r <> RUser root a -> in_page p b -> ~ in_page pa b) as Hdis.
  { intros p r b Hp Hr. apply (own_disjoint end_ own l roots s p pa); eauto. }
  assert (tbl (k_mem s1) root (vpath a) = Some t) as Ht1.
  { rewrite <- Ht. eapply (tbl_agree end_ own l roots s); eauto using valid_vpath. }
  assert (forall root' lim' va, roots !! root' = Some lim' -> 0 <= va < 2 * MAXVA ->
    leaf (k_mem s2) root' va =
    if decide (root' = root /\ a <= va < a + PGSIZE) then 0 else leaf (k_mem s) root' va) as Hleaf.
  { intros root' lim' va Hr' Hva. cbn.
    rewrite (set_page_leaf end_ own' (pa :: l) roots s1 root lim a t 0 root' lim')
      by (done || lia).
    case_decide; [done|]. eapply (leaf_agree end_ own l roots s); eauto. }
  pose proof (vi_leaf _ _ _ _ _ Hvm) as Hli. pose proof (vi_user _ _ _ _ _ Hvm) as Hui.
  split; [split|split].
  - by eapply tab_inv_set_leaf.
  - intros root' lim' va Hr' Hva. rewrite (Hleaf root' lim') by done. case_decide as E; [done|].
    intros HV'. destruct (Hli root' lim' va Hr' Hva HV') as [H1 H2]. split; [|done].
    intros Hlt. specialize (H1 Hlt). unfold own'. rewrite lookup_insert_ne; [done|].
    intros E'. rewrite <- E', Hown in H1. injection H1 as ? E1. apply E. split; [done|].
    rewrite PGROUNDDOWN_eq in E1. unfold PGSIZE in *. divlia.
  - intros root' v p. unfold own'. rewrite lookup_insert. case_decide as E; [done|].
    intros Hp. destruct (Hui _ _ _ Hp) as (lim' & Hr' & Hv & Hv' & Hpd' & HV' & E').
    exists lim'. rewrite (Hleaf root' lim') by (done || lia). rewrite decide_False; [done|].
    intros [-> Hin]. assert (v = a) as -> by (rewrite PGROUNDDOWN_eq in Hpd'; unfold PGSIZE in *; divlia).
    by apply E.
  - done.
  - intros p v Hp Hv. assert (v = a) as ->.
    { destruct (Hui _ _ _ Hp) as (? & _ & _ & _ & Hpd' & _).
      rewrite PGROUNDDOWN_eq in Hpd'. unfold PGSIZE in *. divlia. }
    destruct (Hui _ _ _ Hp) as (? & _ & _ & _ & _ & _ & E').
    unfold own'. subst pa. rewrite E'. by rewrite lookup_insert_eq.
  - intros p r Hp Hr. unfold own'. rewrite lookup_insert_ne; [done|].
    intros <-. rewrite Hown in Hp. injection Hp as <-. apply (Hr a eq_refl). unfold PGSIZE. lia.
  - intros p r. unfold own'. rewrite lookup_insert. case_decide; [congruence|done].
  - intros p r b. unfold own'. rewrite lookup_insert. case_decide as E; [by intros [= <-]|].
    intros Hp Hr Hb. cbn.
    pose proof (ti_tbl _ _ _ _ _ _ _ _ _ Hinv Hroot (valid_vpath a) Ht) as Ho.
    assert (p <> t) by (apply (own_ne own p t r (RTable root (vpath a))); [done..|by destruct r]).
    rewrite rd_st64_slot; [|apply valid_PX; lia|apply (own_disjoint end_ own l roots s p t); eauto].
    apply Hag, (own_disjoint end_ own l roots s p pa); eauto.
  - cbn. by rewrite Hlk, settle_eqv.
Qed.

Lemma wp_uvmunmap own l roots root lim va n Q s :
  vm_inv own l roots s -> kmem_ready s -> roots !! root = Some lim ->
  0 <= va -> 0 <= n -> va + n * PGSIZE <= lim -> va + n * PGSIZE <= MAXVA -> va mod PGSIZE = 0 ->
  (forall v, va <= v < va + n * PGSIZE -> is_leaf (leaf (k_mem s) root v)) ->
  (forall own' l' s', vm_inv own' l' roots s' ->
     unmapped roots own s own' s' root va (va + n * PGSIZE) -> Q tt s') ->
  wp (uvmunmap end_ root va n true) Q s.
Proof.
  intros Hvm Hr Hroot Hva Hn Hlim Hmax Hal Hleaf HQ. unfold uvmunmap. rewrite Hal. cbn [negb].
  rewrite u64_small by (rewrite MAXVA_eq in *; unfold PGSIZE, is_u64 in *; lia).
  change (0 =? 0) with true. cbn [negb]. mstep.
  apply (wp_for_range (fun a s' => a <= va + n * PGSIZE /\ exists own' l', vm_inv own' l' roots s' /\
                          unmapped roots own s own' s' root va a)); [done|..].
  { split; [unfold PGSIZE; lia|]. exists own, l. split; [done|]. apply unmapped_refl. }
  2: { intros x s' Hx Hx' _ (Hx'' & own' & l' & Hvm' & Hum).
       assert (x = va + n * PGSIZE) as -> by lia. mstep. by eapply HQ. }
  intros a s' Ha Ham (_ & own' & l' & Hvm' & Hum).
  assert (leaf (k_mem s') root a = leaf (k_mem s) root a) as El.
  { rewrite (um_leaf _ _ _ _ _ _ _ _ Hum root lim) by (done || lia). by rewrite decide_False by lia. }
  destruct (Hleaf a) as [HV HF]; [lia|].
  assert (a mod PGSIZE = 0) as Haal by (unfold PGSIZE in *; divlia).
  assert (kmem_ready s') as Hr'.
  { destruct Hr. unfold kmem_ready. by rewrite (um_lk _ _ _ _ _ _ _ _ Hum). }
  mstep. eapply wp_walk_mapped; [done|apply Hvm'|done|lia|by rewrite El|].
  intros t Ht Hnz Hld. nonnull_case. unfold load64, store64. mstep. mstep. rewrite Hld, El, HV.
  cbn [negb]. rewrite (proj2 (Z.eqb_neq _ _)) by done. mstep. cbn [when].
  destruct (vi_leaf _ _ _ _ _ Hvm' root lim a) as [Hown _]; [done|lia|by rewrite El|].
  specialize (Hown ltac:(lia)). rewrite El in Hown.
  eapply (wp_kfree_tab _ end_pos _ _ _ _ _ _ _ (vi_tab _ _ _ _ _ Hvm') Hr' Hown I).
  intros s1 Hinv1 Hag Hlk. mstep. mstep. mstep.
  destruct (unmap_page own' l' roots s' root lim a t s1) as [Hvm2 Hum2];
    rewrite ?El; try done; [lia|lia|].
  split; [unfold PGSIZE in *; divlia|]. do 2 eexists. split; [exact Hvm2|].
  eapply unmapped_trans; [|done|done]. unfold PGSIZE. lia.
Qed.

(** The bound of a user address space. *)
Definition ulimit (lim : Z) : Prop := 0 <= lim <= MAXVA /\ lim mod PGSIZE = 0.

Lemma PGROUNDUP_bounds sz lim :
  0 <= sz <= lim -> ulimit lim ->
  sz <= PGROUNDUP sz <= lim /\ PGROUNDUP sz mod PGSIZE = 0 /\ PGROUNDUP sz < sz + PGSIZE.
Proof.
  intros Hsz [Hl Hal]. rewrite MAXVA_eq in Hl. rewrite PGROUNDUP_eq by (unfold PGSIZE in *; lia).
  unfold PGSIZE in *. divlia.
Qed.

Lemma wp_uvmdealloc own l roots root lim oldsz newsz Q s :
  vm_inv own l roots s -> kmem_ready s -> roots !! root = Some lim -> ulimit lim ->
  0 <= newsz <= oldsz -> oldsz <= lim ->
  (forall v, PGROUNDUP newsz <= v < PGROUNDUP oldsz -> is_leaf (leaf (k_mem s) root v)) ->
  (forall own' l' s', vm_inv own' l' roots s' ->
     unmapped roots own s own' s' root (PGROUNDUP newsz) (PGROUNDUP oldsz) -> Q newsz s') ->
  wp (uvmdealloc end_ root oldsz newsz) Q s.
Proof.
  intros Hvm Hr Hroot Hul Hsz Hlim Hleaf HQ. unfold uvmdealloc.
  destruct (Z.leb_spec oldsz newsz).
  { mstep. assert (oldsz = newsz) as -> by lia. eapply HQ; [done|]. apply unmapped_refl. }
  destruct (PGROUNDUP_bounds oldsz lim) as (Ho & Hoal & Ho'); [lia|done|].
  destruct (PGROUNDUP_bounds newsz lim) as (Hn & Hnal & Hn'); [lia|done|].
  revert Hleaf HQ Ho Hoal Ho' Hn Hnal Hn'.
  generalize (PGROUNDUP oldsz) (PGROUNDUP newsz). intros o n Hleaf HQ Ho Hoal Ho' Hn Hnal Hn'.
  destruct Hul as [Hul Hlal]. rewrite MAXVA_eq in Hul.
  mstep. unfold when. destruct (Z.ltb_spec n o).
  - assert (u64 (i32 ((o - n) / PGSIZE)) = (o - n) / PGSIZE) as ->.
    { rewrite i32_small, u64_small; unfold is_u64, is_i32, PGSIZE in *; divlia. }
    assert (n + (o - n) / PGSIZE * PGSIZE = o) as E by (unfold PGSIZE in *; divlia).
    eapply (wp_uvmunmap own l roots root lim); rewrite ?E; try done; try lia.
    { unfold PGSIZE in *; divlia. } { rewrite MAXVA_eq. lia. }
  - mstep. mstep. eapply HQ; [done|].
    assert (o = n) as -> by (unfold PGSIZE in *; divlia). apply unmapped_refl.
Qed.

(** ** Adding user pages *)

(** The mapping of [va], 0 if there is none. *)
Definition pte m (root va : Z) : Z :=
  if has (leaf m root va) PTE_V then leaf m root va else 0.

Lemma pte_valid m root va : has (leaf m root va) PTE_V = true -> pte m root va = leaf m root va.
Proof. unfold pte. by intros ->. Qed.

Lemma has_pte_V m root va : has (pte m root va) PTE_V = has (leaf m root va) PTE_V.
Proof. unfold pte. destruct (has (leaf m root va) PTE_V) eqn:E; [done|]. reflexivity. Qed.

Lemma pte_leaf m m' root va :
  pte m' root va = pte m root va -> has (leaf m' root va) PTE_V = true ->
  has (leaf m root va) PTE_V = true /\ leaf m' root va = leaf m root va.
Proof.
  intros E HV. pose proof HV as HV2. rewrite <- has_pte_V, E, has_pte_V in HV2.
  split; [done|]. by rewrite <- (pte_valid m), <- (pte_valid m').
Qed.

(** Between the two states the pages of [lo, hi) were added to [root], with the
    flags [fl] and the contents [f]; all other mappings and all pages in use
    are the same. *)
Record allocated roots own s own' s' (root lo hi : Z) (fl f : Z -> Z) : Prop := {
  al_pte : forall root' lim' va, roots !! root' = Some lim' -> 0 <= va < 2 * MAXVA ->
    ~ (root' = root /\ lo <= va < hi) -> pte (k_mem s') root' va = pte (k_mem s) root' va;
  al_new : forall va, lo <= va < hi ->
    let e := leaf (k_mem s') root va in
    has e PTE_V = true /\ PTE_FLAGS e = fl va /\
    rd (k_mem s') (PTE2PA e + va mod PGSIZE) = f va;
  al_le : vm_le own s own' s';
  al_data : forall p r, own' !! p = Some r -> is_data r ->
    own !! p = Some r \/ exists v, r = RUser root v /\ lo <= v < hi;
}.

Lemma allocated_refl roots own s root lo fl f : allocated roots own s own s root lo lo fl f.
Proof. split; try done; [lia|]. by left. Qed.

(** A mapped user byte lies in a page of user memory. *)
Lemma user_page own l roots s root lim va :
  vm_inv own l roots s -> roots !! root = Some lim -> 0 <= va < 2 * MAXVA -> va < lim ->
  has (leaf (k_mem s) root va) PTE_V = true ->
  let pa := PTE2PA (leaf (k_mem s) root va) in
  own !! pa = Some (RUser root (PGROUNDDOWN va)) /\ in_page pa (pa + va mod PGSIZE).
Proof.
  intros Hvm Hroot Hva Hlim HV pa. split.
  - by eapply (vi_leaf _ _ _ _ _ Hvm).
  - unfold in_page, PGSIZE. divlia.
Qed.

Lemma allocated_trans l1 lim roots own s own1 s1 own2 s2 root lo mid hi fl f :
  vm_inv own1 l1 roots s1 -> roots !! root = Some lim -> ulimit lim ->
  0 <= lo <= mid -> mid <= hi <= lim ->
  allocated roots own s own1 s1 root lo mid fl f ->
  allocated roots own1 s1 own2 s2 root mid hi fl f ->
  allocated roots own s own2 s2 root lo hi fl f.
Proof.
  intros Hvm Hroot [Hul _] Hlo Hhi [A1 A2 A3 A4] [B1 B2 B3 B4]. split.
  - intros root' lim' va Hr Hva Hn. rewrite (B1 root' lim'), (A1 root' lim'); naive_solver lia.
  - intros va Hva. destruct (decide (va < mid)) as [Hlt|Hge]; [|apply B2; lia].
    destruct (A2 va) as (HV & HF & Hf); [lia|].
    assert (leaf (k_mem s2) root va = leaf (k_mem s1) root va) as ->.
    { assert (pte (k_mem s2) root va = pte (k_mem s1) root va) as E.
      { apply (B1 root lim); [done|lia|lia]. }
      destruct (pte_leaf (k_mem s2) (k_mem s1) root va) as [? ?]; by auto. }
    split_and!; [done..|]. rewrite <- Hf.
    destruct (user_page own1 l1 roots s1 root lim va) as [Hu Hin]; try done; try lia.
    destruct B3 as (_ & B3 & _). by apply (B3 _ _ _ Hu).
  - by eapply vm_le_trans.
  - intros p r Hp Hr. destruct (B4 p r Hp Hr) as [H1|(v & -> & Hv)]; [|right; exists v; split; [done|lia]].
    destruct (A4 p r H1 Hr) as [H2|(v & -> & Hv)]; [by left|]. right. exists v. split; [done|lia].
Qed.

(** Undoing an allocation. *)
Lemma allocated_undo l roots own s own1 s1 own2 s2 root lim lo hi fl f :
  vm_inv own l roots s -> roots !! root = Some lim ->
  (forall v, lo <= v < hi -> has (leaf (k_mem s) root v) PTE_V = false) ->
  allocated roots own s own1 s1 root lo hi fl f ->
  unmapped roots own1 s1 own2 s2 root lo hi ->
  allocated roots own s own2 s2 root lo lo fl f.
Proof.
  intros Hvm Hroot Hno [A1 A2 (A3 & A3' & A3'' & A3d) A4] B. pose proof B as [B1 B2 B3 B4 B5 B6].
  assert (forall p r, own !! p = Some r -> forall v, r = RUser root v -> ~ lo <= v < hi) as Hold.
  { intros p r Hp v -> Hv. destruct (vi_user _ _ _ _ _ Hvm _ _ _ Hp) as (? & _ & _ & _ & _ & HV & _).
    by rewrite Hno in HV. }
  split.
  - intros root' lim' va Hr Hva _. destruct (decide (root' = root /\ lo <= va < hi)) as [[-> Hin]|Hn].
    + unfold pte. rewrite (B1 root lim') by done. rewrite decide_True by done.
      change (has 0 PTE_V) with false. by rewrite Hno.
    + rewrite <- (A1 root' lim') by done. unfold pte.
      rewrite (B1 root' lim') by done. by rewrite decide_False.
  - lia.
  - split_and!.
    + intros p r Hp Hr. apply B3; [by apply A3|by eapply Hold].
    + intros p r b Hp Hr Hb. rewrite <- (A3' p r b) by done. apply (B5 p r); try done.
      apply B3; [|by eapply Hold]. apply A3; [done|by destruct r].
    + by rewrite B6, A3''.
    + intros p Hp. by eapply unmapped_dom, A3d.
  - intros p r Hp Hr. left. assert (r <> RFree) as Hnf by by destruct r.
    destruct (A4 p r) as [H|(v & -> & Hv)]; [by apply B4|done|done|].
    rewrite (B2 p v) in Hp; [done|by apply B4|done].
Qed.

(** A page has been taken, filled, and mapped at [a]. *)
Section map_page.
Context own (l l' l3 : list Z) roots (s : kmst) (root lim a p : Z) (perm : Z).
Context (s2 : kmst) own3 (s3 : kmst).
Context (Hvm : vm_inv own l roots s) (Hp : own !! p = Some RFree) (Hok : page_ok p).
Context (Hroot : roots !! root = Some lim) (Hul : ulimit lim) (Ha : 0 <= a < lim).
Context (Hal : a mod PGSIZE = 0) (Hperm : 0 <= perm < 1024).
Context (Hno : has (leaf (k_mem s) root a) PTE_V = false).
Context (Hinv2 : tab_inv (<[p := RHeld]> own) l' roots s2).
Context (Hag : forall b, ~ in_page p b -> rd (k_mem s2) b = rd (k_mem s) b).
Context (Hlk : k_lk s2 ≈ k_lk s).
Context (G : grows roots (<[p := RHeld]> own) l' s2 own3 l3 s3).

Lemma map_page_leaf2 : leaves_same roots (k_mem s) (k_mem s2).
Proof.
  intros root' lim' va Hr'. eapply (leaf_agree end_ own l roots s); [apply Hvm|done|].
  intros t q b Ht Hb. apply Hag.
  apply (own_disjoint end_ own l roots s t p); eauto; [apply Hvm|congruence].
Qed.

Lemma map_page_held : own3 !! p = Some RHeld.
Proof. apply (gr_data _ _ _ _ _ _ _ _ G); [done|]. by rewrite lookup_insert_eq. Qed.

Lemma map_page_owner q r : is_data r -> q <> p -> own3 !! q = Some r <-> own !! q = Some r.
Proof. intros Hr Hq. rewrite (gr_data _ _ _ _ _ _ _ _ G) by done. by rewrite lookup_insert_ne. Qed.

Lemma map_page_keep q r : own !! q = Some r -> r <> RFree -> q <> p /\ own3 !! q = Some r.
Proof.
  intros Hq Hr. assert (q <> p) by congruence. split; [done|].
  apply (gr_le _ _ _ _ _ _ _ _ G); [by rewrite lookup_insert_ne|done].
Qed.

Lemma map_page_data q r b : own !! q = Some r -> is_data r -> in_page q b ->
  rd (k_mem s3) b = rd (k_mem s) b.
Proof.
  intros Hq Hr Hb. assert (q <> p) by (intros ->; by simplify_eq).
  destruct (gr_le _ _ _ _ _ _ _ _ G) as (_ & Hd & _). rewrite (Hd q r b); [|by rewrite lookup_insert_ne|done..].
  apply Hag. apply (own_disjoint end_ own l roots s q p); eauto; apply Hvm.
Qed.

Lemma map_page_le own' : own' = own3 \/ (exists r, own' = <[p := r]> own3) ->
  forall s4, (forall b, ~ in_page p b -> rd (k_mem s4) b = rd (k_mem s3) b) -> k_lk s4 ≈ k_lk s3 ->
  vm_le own s own' s4.
Proof.
  intros Hown s4 Hag4 Hlk4. split_and!.
  - intros q r Hq Hr. destruct (map_page_keep q r Hq Hr) as [Hne Hq3].
    destruct Hown as [->|[r' ->]]; [done|]. by rewrite lookup_insert_ne.
  - intros q r b Hq Hr Hb. assert (r <> RFree) as Hnf by by destruct r.
    destruct (map_page_keep q r Hq Hnf) as [Hne _].
    rewrite Hag4; [by apply (map_page_data q r)|].
    apply (own_disjoint end_ own l roots s q p); eauto; apply Hvm.
  - rewrite Hlk4. destruct (gr_le _ _ _ _ _ _ _ _ G) as (_ & _ & -> & _). done.
  - intros q Hq. destruct (gr_le _ _ _ _ _ _ _ _ G) as (_ & _ & _ & Hdom).
    assert (is_Some (own3 !! q)) as H3 by (apply Hdom, lookup_insert_is_Some'; by right).
    destruct Hown as [->|[r' ->]]; [done|]. apply lookup_insert_is_Some'. by right.
Qed.

Lemma map_page_ok fl f :
  mapped roots (k_mem s2) (k_mem s3) root a (a + PGSIZE) p perm ->
  (forall va, a <= va < a + PGSIZE ->
     fl va = Z.lor perm PTE_V /\ f va = rd (k_mem s2) (p + (va - a))) ->
  let own' := <[p := RUser root a]> own3 in
  vm_inv own' l3 roots s3 /\ allocated roots own s own' s3 root a (a + PGSIZE) fl f.
Proof.
  intros Hmap Hf own'. destruct Hul as [Hmax Hlal].
  pose proof (page_ok_bounds _ end_pos _ Hok) as (Hp0 & Hpal & Hp56).
  set (e := Z.lor (PA2PTE p) (Z.lor perm PTE_V)).
  assert (PTE2PA e = p) as HPA by (apply PTE2PA_pte; [unfold PGSIZE in *; lia|done|by apply lor_V]).
  assert (has e PTE_V = true) as HV.
  { unfold e. rewrite Z.lor_assoc. by apply has_lor_r. }
  assert (forall root' lim' va, roots !! root' = Some lim' -> 0 <= va < 2 * MAXVA ->
    leaf (k_mem s3) root' va =
    if decide (root' = root /\ a <= va < a + PGSIZE) then e else leaf (k_mem s) root' va) as Hleaf.
  { intros root' lim' va Hr' Hva. rewrite (Hmap root' lim') by done.
    rewrite (map_page_leaf2 root' lim') by done. case_decide as E; [|done].
    rewrite <- Z.lor_assoc. unfold e. do 2 f_equal.
    rewrite PGROUNDDOWN_eq. unfold PGSIZE in *. divlia. }
  assert (forall q r, own !! q = Some r -> is_data r -> own' !! q = Some r) as Hkeep.
  { intros q r Hq Hr. destruct (map_page_keep q r) as [? ?]; [done|by destruct r|].
    unfold own'. by rewrite lookup_insert_ne. }
  split; [split|split].
  - eapply tab_inv_own; [apply G|apply map_page_held|done..].
  - intros root' lim' va Hr' Hva. rewrite (Hleaf root' lim') by done. case_decide as E.
    + destruct E as [-> Hin]. simplify_eq. intros _. rewrite HPA. unfold own'.
      rewrite lookup_insert_eq. split; [|unfold PGSIZE in *; divlia]. intros _. do 2 f_equal.
      rewrite PGROUNDDOWN_eq. unfold PGSIZE in *. divlia.
    + intros HV'. destruct (vi_leaf _ _ _ _ _ Hvm root' lim' va) as [H1 H2]; [done..|]. split; [|done]. intros Hlt. apply Hkeep; [by apply H1|done].
  - intros root' v q. unfold own'. rewrite lookup_insert. case_decide as E.
    + intros [= <- <-]. subst q. exists lim. rewrite (Hleaf root lim) by (done || lia).
      rewrite decide_True by (unfold PGSIZE; lia). split_and!; try done; try lia.
      rewrite PGROUNDDOWN_eq. lia.
    + intros Hq. apply map_page_owner in Hq; [|done|done].
      destruct (vi_user _ _ _ _ _ Hvm _ _ _ Hq) as (lim' & Hr' & Hv & Hv' & Hpd & HV' & E').
      exists lim'. rewrite (Hleaf root' lim') by (done || lia). rewrite decide_False; [done|].
      intros [-> Hin]. assert (v = a) as -> by (rewrite PGROUNDDOWN_eq in Hpd; unfold PGSIZE in *; divlia).
      by rewrite Hno in HV'.
  - intros root' lim' va Hr' Hva Hn. unfold pte. rewrite (Hleaf root' lim') by done.
    by rewrite decide_False.
  - intros va Hva. cbn zeta. rewrite (Hleaf root lim) by (done || unfold PGSIZE in *; divlia).
    rewrite decide_True by done. destruct (Hf va Hva) as [-> ->]. split_and!; [done| |].
    + apply PTE_FLAGS_pte. by apply lor_V.
    + rewrite HPA. replace (p + va mod PGSIZE) with (p + (va - a)) by (unfold PGSIZE in *; divlia).
      destruct (gr_le _ _ _ _ _ _ _ _ G) as (_ & Hd & _). apply (Hd p RHeld).
      * by rewrite lookup_insert_eq.
      * done.
      * unfold in_page, PGSIZE in *. lia.
  - apply map_page_le; [right; by eexists|done|done].
  - intros q r. unfold own'. rewrite lookup_insert. case_decide as E.
    + intros [= <-] _. right. exists a. split; [done|]. unfold PGSIZE. lia.
    + intros Hq Hr. left. by apply map_page_owner in Hq.
Qed.

Lemma map_page_fail s4 fl f :
  mapped roots (k_mem s2) (k_mem s3) root a a p perm ->
  tab_inv (<[p := RFree]> own3) (p :: l3) roots s4 ->
  (forall b, ~ in_page p b -> rd (k_mem s4) b = rd (k_mem s3) b) -> k_lk s4 = settle (k_lk s3) ->
  let own' := <[p := RFree]> own3 in
  vm_inv own' (p :: l3) roots s4 /\ allocated roots own s own' s4 root a a fl f.
Proof.
  intros Hmap Hinv4 Hag4 Hlk4 own'.
  assert (forall root' lim' va, roots !! root' = Some lim' -> 0 <= va < 2 * MAXVA ->
    leaf (k_mem s4) root' va = leaf (k_mem s) root' va) as Hleaf.
  { intros root' lim' va Hr' Hva.
    rewrite (leaf_agree end_ own3 l3 roots s3 (k_mem s4) root' lim'); [|apply G|done|].
    - rewrite (Hmap root' lim') by done. rewrite decide_False by lia.
      by apply (map_page_leaf2 root' lim').
    - intros t q b Ht Hb. apply Hag4. pose proof map_page_held.
      apply (own_disjoint end_ own3 l3 roots s3 t p); eauto; [apply G|congruence]. }
  split; [split|split].
  - done.
  - intros root' lim' va Hr' Hva. rewrite (Hleaf root' lim') by done. intros HV'.
    destruct (vi_leaf _ _ _ _ _ Hvm root' lim' va) as [H1 H2]; [done..|]. split; [|done].
    intros Hlt. destruct (map_page_keep _ _ (H1 Hlt)) as [? ?]; [done|].
    unfold own'. by rewrite lookup_insert_ne.
  - intros root' v q. unfold own'. rewrite lookup_insert. case_decide as E; [done|].
    intros Hq. apply map_page_owner in Hq; [|done|done].
    destruct (vi_user _ _ _ _ _ Hvm _ _ _ Hq) as (lim' & Hr' & Hv & Hv' & H).
    exists lim'. by rewrite (Hleaf root' lim') by (done || lia).
  - intros root' lim' va Hr' Hva _. unfold pte. by rewrite (Hleaf root' lim').
  - lia.
  - apply map_page_le; [right; by eexists|done|]. by rewrite Hlk4, settle_eqv.
  - intros q r. unfold own'. rewrite lookup_insert. case_decide as E; [by intros [= <-]|].
    intros Hq Hr. left. by apply map_page_owner in Hq.
Qed.

End map_page.

(** Filling a page that has just been allocated. *)
Lemma fill_page own l roots p s s1 (fill : memory -> memory) :
  tab_inv (<[p := RHeld]> own) l roots s1 ->
  (forall m b, ~ in_page p b -> rd (fill m) b = rd m b) ->
  (forall b, ~ in_page p b -> rd (k_mem s1) b = rd (k_mem s) b) ->
  k_lk s1 = settle (k_lk s) ->
  let s2 := set_kmem (fill (k_mem s1)) s1 in
  tab_inv (<[p := RHeld]> own) l roots s2 /\
  (forall b, ~ in_page p b -> rd (k_mem s2) b = rd (k_mem s) b) /\ k_lk s2 ≈ k_lk s.
Proof.
  intros Hinv Hfill Hag Hlk s2. split_and!.
  - apply (tab_inv_write _ end_pos _ _ _ s1 _ p RHeld); [done|by rewrite lookup_insert_eq|done|done|].
    intros b Hb. by apply Hfill.
  - intros b Hb. cbn. rewrite Hfill by done. by apply Hag.
  - cbn. by rewrite Hlk, settle_eqv.
Qed.

(** What uvmalloc and uvmcopy do for one page: take a page [p], fill it, map it
    at [a]; on failure give it back. *)
Lemma wp_map_new own l roots root lim a p l' perm fl f Q s s2 :
  vm_inv own l roots s -> own !! p = Some RFree -> page_ok p ->
  roots !! root = Some lim -> ulimit lim -> 0 <= a < lim -> a mod PGSIZE = 0 ->
  0 <= perm < 1024 -> (forall va, a <= va < a + PGSIZE -> has (leaf (k_mem s) root va) PTE_V = false) ->
  tab_inv (<[p := RHeld]> own) l' roots s2 -> kmem_ready s2 ->
  (forall b, ~ in_page p b -> rd (k_mem s2) b = rd (k_mem s) b) -> k_lk s2 ≈ k_lk s ->
  (forall va, a <= va < a + PGSIZE ->
     fl va = Z.lor perm PTE_V /\ f va = rd (k_mem s2) (p + (va - a))) ->
  (forall own' l' s', vm_inv own' l' roots s' ->
     allocated roots own s own' s' root a (a + PGSIZE) fl f -> Q 0 s') ->
  (forall s3, wp (kfree end_ p) (fun _ s' => exists own' l', vm_inv own' l' roots s' /\
     allocated roots own s own' s' root a a fl f) s3 -> Q (-1) s3) ->
  wp (mappages root a PGSIZE p perm) Q s2.
Proof.
  intros Hvm Hp Hok Hroot Hul Ha Hal Hperm Hno Hinv2 Hr2 Hag Hlk Hf HQ HQ'.
  pose proof (page_ok_bounds _ end_pos _ Hok) as (Hp0 & Hpal & Hp56).
  pose proof Hul as [Hmax Hlal].
  eapply (wp_mappages end_ end_pos _ _ roots root lim); try done; try (unfold PGSIZE in *; divlia).
  { intros v Hv. rewrite (map_page_leaf2 own l roots s p s2 Hvm Hp Hag root lim) by done. by apply Hno. }
  intros r c s3 own3 l3 G [[-> ->]|(-> & Hc & Hcal)] Hmap.
  - destruct (map_page_ok own l l' l3 roots s root lim a p perm s2 own3 s3 Hvm Hp Hok Hroot Hul
      Ha Hal Hperm (Hno a ltac:(unfold PGSIZE; lia)) Hag Hlk G fl f Hmap Hf) as [? ?]. by eapply HQ.
  - apply HQ'. assert (c = a) as -> by (unfold PGSIZE in *; divlia).
    pose proof (map_page_held own l' l3 roots p s2 own3 s3 G) as Hheld.
    eapply (wp_kfree_tab _ end_pos own3 l3 roots p RHeld); [apply G| |done|done|].
    { eapply ready_le; [done|apply G]. }
    intros s4 Hinv4 Hag4 Hlk4. do 2 eexists.
    by apply (map_page_fail own l l' l3 roots s root a p perm s2 own3 s3).
Qed.

Lemma PGROUNDUP_aligned v : 0 <= v <= MAXVA -> v mod PGSIZE = 0 -> PGROUNDUP v = v.
Proof.
  rewrite MAXVA_eq. intros. rewrite PGROUNDUP_eq by (unfold PGSIZE in *; lia).
  unfold PGSIZE in *. divlia.
Qed.

Lemma allocated_is_leaf roots own s own' s' root lo hi fl f va :
  allocated roots own s own' s' root lo hi fl f -> lo <= va < hi -> fl va <> PTE_V ->
  is_leaf (leaf (k_mem s') root va).
Proof. intros A Hva Hfl. destruct (al_new _ _ _ _ _ _ _ _ _ _ A va Hva) as (? & E & _). split; congruence. Qed.

Lemma allocated_ready roots own s own' s' root lo hi fl f :
  allocated roots own s own' s' root lo hi fl f -> kmem_ready s -> kmem_ready s'.
Proof. intros A Hr. eapply ready_le; [done|apply A]. Qed.

(** Pages that are still to be mapped are not touched by the pages already done. *)
Lemma allocated_unmapped roots own s own' s' root lim lo hi fl f va :
  allocated roots own s own' s' root lo hi fl f -> roots !! root = Some lim ->
  0 <= va < 2 * MAXVA -> hi <= va ->
  has (leaf (k_mem s) root va) PTE_V = false -> has (leaf (k_mem s') root va) PTE_V = false.
Proof.
  intros A Hroot Hva Hhi HV. rewrite <- has_pte_V.
  rewrite (al_pte _ _ _ _ _ _ _ _ _ _ A root lim) by (done || lia). by rewrite has_pte_V.
Qed.

(** A failed kalloc changes nothing. *)
Lemma vm_inv_same own l roots s s' :
  vm_inv own l roots s -> tab_inv own l roots s' -> k_mem s' = k_mem s -> vm_inv own l roots s'.
Proof. intros [H1 H2 H3] Ht E. split; [done|by rewrite E..]. Qed.

Lemma allocated_same roots own s own1 s1 s2 root lo hi fl f :
  allocated roots own s own1 s1 root lo hi fl f -> k_mem s2 = k_mem s1 -> k_lk s2 ≈ k_lk s1 ->
  allocated roots own s own1 s2 root lo hi fl f.
Proof.
  intros [A1 A2 (A3 & A3' & A3'' & A3d) A4] Em El. split; rewrite ?Em; try done.
  split_and!; [done|by rewrite Em|by rewrite El|done].
Qed.

(** The loop body that uvmalloc and uvmcopy share: take a page, [fill] it, map
    it at [a]; if memory runs out, [undo] the pages done so far. *)
Lemma wp_new_page {B} own l roots s own1 l1 s1 root lim lo a perm fl f
    (fill : Z -> memory -> memory) (undo : M kmst B) (err : Z) Q :
  vm_inv own l roots s -> kmem_ready s -> roots !! root = Some lim -> ulimit lim ->
  0 <= lo <= a -> a < lim -> a mod PGSIZE = 0 -> 0 <= perm < 1024 ->
  (forall v, a <= v < a + PGSIZE -> has (leaf (k_mem s) root v) PTE_V = false) ->
  vm_inv own1 l1 roots s1 -> allocated roots own s own1 s1 root lo a fl f ->
  (forall p m b, ~ in_page p b -> rd (fill p m) b = rd m b) ->
  (forall p m, own1 !! p = Some RFree -> page_ok p ->
     (forall b, ~ in_page p b -> rd m b = rd (k_mem s1) b) ->
     forall va, a <= va < a + PGSIZE ->
       fl va = Z.lor perm PTE_V /\ f va = rd (fill p m) (p + (va - a))) ->
  (forall own2 l2 s2, vm_inv own2 l2 roots s2 -> allocated roots own s own2 s2 root lo a fl f ->
     wp undo (fun _ s3 => exists own3 l3, vm_inv own3 l3 roots s3 /\
       allocated roots own s own3 s3 root lo lo fl f) s2) ->
  (forall own2 l2 s2, vm_inv own2 l2 roots s2 ->
     allocated roots own s own2 s2 root lo (a + PGSIZE) fl f -> Q None s2) ->
  (forall own2 l2 s2, vm_inv own2 l2 roots s2 ->
     allocated roots own s own2 s2 root lo lo fl f -> Q (Some err) s2) ->
  wp (mem ← kalloc;
      if mem =? 0 then undo;; mret (Some err) else
      mem_update (fill mem);;
      ok ← mappages root a PGSIZE mem perm;
      if negb (ok =? 0) then kfree end_ mem;; undo;; mret (Some err) else mret None) Q s1.
Proof.
  intros Hvm Hr Hroot Hul Hlo Ha Hal Hperm Hno Hvm1 A1 Hfill Hnew Hundo HQ HQ'.
  pose proof Hul as [Hmax Hlal]. pose proof (allocated_ready _ _ _ _ _ _ _ _ _ _ A1 Hr) as Hr1.
  assert (a + PGSIZE <= lim) as Ha' by (unfold PGSIZE in *; divlia).
  mstep. apply (wp_kalloc_tab _ end_pos own1 l1 roots); [apply Hvm1|done|..].
  - intros s2 -> Hinv2 Hm2 Hlk2. null_case. mstep.
    eapply wp_mono; [eapply (Hundo own1 [] s2)|].
    + by eapply vm_inv_same.
    + eapply allocated_same; [done..|]. by rewrite Hlk2, settle_eqv.
    + intros _ s3 (own3 & l3 & Hvm3 & A3). mstep. eauto.
  - intros p l' s2 -> Hp Hok Hinv2 Hag2 Hlk2.
    assert (p <> 0) by (pose proof (page_ok_bounds _ end_pos _ Hok); lia). nonnull_case.
    unfold mem_update. mstep. mstep. mstep. specialize (Hnew p (k_mem s2) Hp Hok Hag2).
    destruct (fill_page own1 l' roots p s1 s2 (fill p) Hinv2 (Hfill p) Hag2 Hlk2) as (F1 & F2 & F3).
    eapply (wp_map_new own1 (p :: l') roots root lim a p l' perm fl f); try done; [lia|..].
    + intros va Hva. eapply allocated_unmapped; [done..|lia|lia|]. by apply Hno.
    + destruct Hr1. unfold kmem_ready. by rewrite F3.
    + intros own3 l3 s4 Hvm4 A4. change (negb (0 =? 0)) with false. cbn iota. mstep.
      eapply HQ; [done|].
      eapply (allocated_trans _ lim _ _ _ own1 s1 _ _ _ lo a); try done; unfold PGSIZE in *; lia.
    + intros s4 Hfree. change (negb (-1 =? 0)) with true. cbn iota. mstep.
      eapply wp_mono; [done|]. intros _ s5 (own5 & l5 & Hvm5 & A5). mstep.
      eapply wp_mono; [eapply Hundo; [done|]|].
      * eapply (allocated_trans _ lim _ _ _ own1 s1 _ _ _ lo a); try done; lia.
      * intros _ s6 (own' & l6 & Hvm6 & A6). mstep. eauto.
Qed.

(** ** uvmalloc *)

(** The result of an allocation: [ok] with the pages of [lo, hi) added, or [err]
    with everything as it was. *)
Definition alloc_result roots own s (root lo hi : Z) (fl f : Z -> Z) (ok err : Z) (r : Z) (s' : kmst) : Prop :=
  exists own' l', vm_inv own' l' roots s' /\
    ((r = ok /\ allocated roots own s own' s' root lo hi fl f) \/
     (r = err /\ allocated roots own s own' s' root lo lo fl f)).

Definition uvm_flags : Z := Z.lor PTE_WRXU PTE_V.

Lemma wp_uvmalloc own l roots root lim oldsz newsz s :
  vm_inv own l roots s -> kmem_ready s -> roots !! root = Some lim -> ulimit lim ->
  0 <= oldsz <= newsz -> newsz <= lim ->
  (forall v, PGROUNDUP oldsz <= v < PGROUNDUP newsz -> has (leaf (k_mem s) root v) PTE_V = false) ->
  wp (uvmalloc end_ root oldsz newsz)
    (alloc_result roots own s root (PGROUNDUP oldsz) (PGROUNDUP newsz)
       (fun _ => uvm_flags) (fun _ => 0) newsz 0) s.
Proof.
  intros Hvm Hr Hroot Hul Hsz Hlim Hno. unfold uvmalloc.
  rewrite (proj2 (Z.ltb_ge _ _)) by lia. pose proof Hul as [Hmax Hlal].
  destruct (PGROUNDUP_bounds oldsz lim) as (Ho & Hoal & Ho'); [lia|done|].
  destruct (PGROUNDUP_bounds newsz lim) as (Hn & Hnal & Hn'); [lia|done|].
  assert (PGROUNDUP oldsz <= PGROUNDUP newsz) as Hle by (unfold PGSIZE in *; divlia).
  revert Hno Ho Hoal Ho' Hn Hnal Hn' Hle. generalize (PGROUNDUP oldsz) (PGROUNDUP newsz).
  intros lo hi Hno Ho Hoal Ho' Hn Hnal Hn' Hle.
  mstep. apply (wp_for_range (fun a s' => lo <= a <= hi /\ exists own' l', vm_inv own' l' roots s' /\
         allocated roots own s own' s' root lo a (fun _ => uvm_flags) (fun _ => 0))); [done|..].
  { split; [lia|]. exists own, l. split; [done|]. apply allocated_refl. }
  2: { intros x s' Hx Hx' Hxm (Hxl & own' & l' & Hvm' & A). mstep. exists own', l'. split; [done|].
       left. split; [done|]. assert (x = hi) as <- by (unfold PGSIZE in *; divlia). done. }
  intros a s' Ha Ham (Hahi & own1 & l1 & Hvm1 & A1).
  assert (a mod PGSIZE = 0) as Haal by (unfold PGSIZE in *; divlia).
  assert (a + PGSIZE <= hi) as Hahi' by (unfold PGSIZE in *; divlia).
  eapply (wp_new_page own l roots s own1 l1 s' root lim lo a _ _ _ (fun p m => memset m p 0 PGSIZE));
    [done..|lia|lia|done|done| |exact Hvm1|exact A1| | | | |].
  - intros v Hv. apply Hno. lia.
  - intros p m b Hb. by rewrite rd_memset, decide_False.
  - intros p m _ _ _ va Hva. split; [done|]. rewrite rd_memset, decide_True; [done|]. lia.
  - intros own2 l2 s2 Hvm2 A2. pose proof (allocated_ready _ _ _ _ _ _ _ _ _ _ A2 Hr) as Hr2.
    eapply (wp_uvmdealloc own2 l2 roots root lim); try done; rewrite ?PGROUNDUP_aligned by lia; try lia.
    + intros v Hv. by eapply allocated_is_leaf.
    + intros own' l' s3 Hvm3 Hum. do 2 eexists. split; [done|].
      apply (allocated_undo l roots own s own2 s2 own' s3 root lim lo a); try done.
      intros v Hv. apply Hno. lia.
  - intros own2 l2 s2 Hvm2 A2. split; [unfold PGSIZE in *; lia|]. eauto.
  - intros own2 l2 s2 Hvm2 A2. mstep. exists own2, l2. split; [done|]. by right.
Qed.

(** C18: uvmalloc either maps fresh zeroed pages with flags W|R|X|U|V at every
    address between the old and the new size and returns the new size, or
    returns 0 and leaves every mapping of every process as it was; in both
    cases all pages in use keep their owner and contents, and no page is owned
    twice. *)
Theorem uvmalloc_correct own l roots root lim oldsz newsz s :
  vm_inv own l roots s -> kmem_ready s -> roots !! root = Some lim -> ulimit lim ->
  0 <= oldsz <= newsz -> newsz <= lim ->
  (forall v, PGROUNDUP oldsz <= v < PGROUNDUP newsz -> has (leaf (k_mem s) root v) PTE_V = false) ->
  wp (uvmalloc end_ root oldsz newsz)
    (alloc_result roots own s root (PGROUNDUP oldsz) (PGROUNDUP newsz)
       (fun _ => uvm_flags) (fun _ => 0) newsz 0) s.
Proof. apply wp_uvmalloc. Qed.

(** ** uvmcopy *)

Lemma lor_flags_V e : has e PTE_V = true -> Z.lor (PTE_FLAGS e) PTE_V = PTE_FLAGS e.
Proof.
  unfold has. intros HV. apply Z.bits_inj'. intros n Hn. rewrite Z.lor_spec.
  destruct (decide (n = 0)) as [->|Hn0].
  - change (Z.testbit PTE_V 0) with true. rewrite orb_true_r. unfold PTE_FLAGS.
    rewrite Z.land_spec. change (Z.testbit 1023 0) with true. rewrite andb_true_r.
    apply negb_true_iff, Z.eqb_neq in HV. destruct (Z.testbit e 0) eqn:E; [done|].
    exfalso. apply HV. apply Z.bits_inj'. intros k Hk. rewrite Z.land_spec, Z.bits_0.
    destruct (decide (k = 0)) as [->|]; [by rewrite E|].
    change PTE_V with (2 ^ 0). by rewrite Z.pow2_bits_false, andb_false_r by lia.
  - change PTE_V with (2 ^ 0). by rewrite Z.pow2_bits_false, orb_false_r by lia.
Qed.

Lemma leaf_page m root va va' :
  PGROUNDDOWN va = PGROUNDDOWN va' -> leaf m root va = leaf m root va'.
Proof.
  intros E. assert (forall lv, 0 <= lv -> PX lv va = PX lv va') as HPX.
  { intros lv Hlv. rewrite <- (PX_PGROUNDDOWN _ va), <- (PX_PGROUNDDOWN _ va') by done. by rewrite E. }
  unfold leaf, vpath. by rewrite !HPX by lia.
Qed.

(** The byte that user code sees at [va] through a mapping. *)
Definition ubyte m (root va : Z) : Z := rd m (PTE2PA (leaf m root va) + va mod PGSIZE).

Lemma allocated_other l roots own s own' s' root lo hi fl f root' lim' va :
  vm_inv own l roots s -> allocated roots own s own' s' root lo hi fl f ->
  roots !! root' = Some lim' -> 0 <= va < 2 * MAXVA -> va < lim' -> root' <> root ->
  has (leaf (k_mem s) root' va) PTE_V = true ->
  leaf (k_mem s') root' va = leaf (k_mem s) root' va /\
  ubyte (k_mem s') root' va = ubyte (k_mem s) root' va.
Proof.
  intros Hvm [A1 _ (_ & A3 & _) _] Hroot Hva Hlt Hne HV.
  destruct (pte_leaf (k_mem s') (k_mem s) root' va) as [_ E]; [|done|].
  { symmetry. apply (A1 root' lim'); [done|done|]. by intros [? _]. }
  split; [done|]. unfold ubyte. rewrite <- E.
  destruct (user_page own l roots s root' lim' va) as [Hu Hin]; [done..|].
  by apply (A3 _ _ _ Hu).
Qed.

Lemma wp_uvmcopy own l roots old new lim lim' sz s :
  vm_inv own l roots s -> kmem_ready s ->
  roots !! old = Some lim -> roots !! new = Some lim' -> old <> new ->
  ulimit lim' -> 0 <= sz <= lim' -> lim' <= lim <= MAXVA ->
  (forall v, 0 <= v < PGROUNDUP sz -> is_leaf (leaf (k_mem s) old v)) ->
  (forall v, 0 <= v < PGROUNDUP sz -> has (leaf (k_mem s) new v) PTE_V = false) ->
  wp (uvmcopy end_ old new sz)
    (alloc_result roots own s new 0 (PGROUNDUP sz)
       (fun va => PTE_FLAGS (leaf (k_mem s) old va)) (fun va => ubyte (k_mem s) old va) 0 (-1)) s.
Proof.
  intros Hvm Hr Hold Hnew Hne Hul Hsz Hll Hleaf Hno. unfold uvmcopy. pose proof Hul as [Hmax Hlal].
  destruct (PGROUNDUP_bounds sz lim') as (Ho & Hoal & Ho'); [lia|done|].
  revert Hleaf Hno Ho Hoal Ho'. generalize (PGROUNDUP sz). intros hi Hleaf Hno Ho Hoal Ho'.
  set (fl := fun va : Z => PTE_FLAGS (leaf (k_mem s) old va)).
  set (f := fun va : Z => ubyte (k_mem s) old va).
  mstep. apply (wp_for_range (fun a s' => a <= hi /\ exists own' l', vm_inv own' l' roots s' /\
                     allocated roots own s own' s' new 0 a fl f)); [done|..].
  { split; [lia|]. exists own, l. split; [done|]. apply allocated_refl. }
  2: { intros x s' Hx Hx' Hxm (Hxl & own' & l' & Hvm' & A). mstep. exists own', l'. split; [done|].
       left. split; [done|]. assert (x = hi) as <- by (unfold PGSIZE in *; divlia). done. }
  intros a s' Ha Ham (Hahi & own1 & l1 & Hvm1 & A1).
  assert (a mod PGSIZE = 0) as Haal by (unfold PGSIZE in *; divlia).
  assert (a + PGSIZE <= hi) as Hahi' by (unfold PGSIZE in *; divlia).
  assert (forall va, a <= va < a + PGSIZE -> leaf (k_mem s) old va = leaf (k_mem s) old a /\
            leaf (k_mem s') old va = leaf (k_mem s) old a /\
            ubyte (k_mem s') old va = ubyte (k_mem s) old va) as Hsame.
  { intros va Hva. assert (leaf (k_mem s) old va = leaf (k_mem s) old a) as E.
    { apply leaf_page. rewrite !PGROUNDDOWN_eq. unfold PGSIZE in *. divlia. }
    split; [done|]. rewrite <- E. eapply allocated_other; try done; [lia|lia|]. apply Hleaf. lia. }
  destruct (Hsame a ltac:(unfold PGSIZE; lia)) as (_ & El & _). destruct (Hleaf a ltac:(lia)) as [HV HF].
  mstep. eapply wp_walk_mapped; [done|apply Hvm1|done|lia|by rewrite El|].
  intros t Ht Hnz Hld. nonnull_case. unfold load64. mstep. mstep. rewrite Hld, El, HV. cbn [negb].
  set (pa := PTE2PA (leaf (k_mem s) old a)).
  eapply (wp_new_page own l roots s own1 l1 s' new lim' 0 a _ fl f (fun p m => memmove m p pa PGSIZE));
    [done..|lia|lia|done| | |exact Hvm1|exact A1| | | | |].
  - rewrite PTE_FLAGS_eq. divlia.
  - intros v Hv. apply Hno. lia.
  - intros p m b Hb. by rewrite rd_memmove, decide_False.
  - intros p m Hp Hok Hag va Hva. destruct (Hsame va Hva) as (E1 & E2 & E3).
    split; [unfold fl; by rewrite E1, lor_flags_V|].
    rewrite rd_memmove, decide_True by lia. unfold f. rewrite <- E3. unfold ubyte. rewrite E2. fold pa.
    replace (p + (va - a) - p) with (va mod PGSIZE) by (unfold PGSIZE in *; divlia).
    symmetry. apply Hag.
    destruct (user_page own1 l1 roots s' old lim va) as [Hu Hin]; [done..|lia|lia|by rewrite E2, HV|].
    rewrite E2 in Hu, Hin. fold pa in Hu, Hin.
    apply (own_disjoint end_ own1 l1 roots s' pa p); eauto; [apply Hvm1|congruence].
  - intros own2 l2 s2 Hvm2 A2. pose proof (allocated_ready _ _ _ _ _ _ _ _ _ _ A2 Hr) as Hr2.
    assert (0 + a / PGSIZE * PGSIZE = a) as E by (unfold PGSIZE in *; divlia).
    eapply (wp_uvmunmap own2 l2 roots new lim'); rewrite ?E; try done; try lia.
    + unfold PGSIZE in *; divlia.
    + intros v Hv. eapply allocated_is_leaf; [done..|]. apply Hleaf. lia.
    + intros own' l' s3 Hvm3 Hum. do 2 eexists. split; [done|].
      apply (allocated_undo l roots own s own2 s2 own' s3 new lim' 0 a); try done.
      intros v Hv. apply Hno. lia.
  - intros own2 l2 s2 Hvm2 A2. split; [lia|]. eauto.
  - intros own2 l2 s2 Hvm2 A2. mstep. exists own2, l2. split; [done|]. by right.
Qed.

(** C17: uvmcopy either maps at every address below [sz] of the new table a fresh
    page with the flags and the bytes of the old table's page, or returns -1
    and leaves every mapping as it was. *)
Theorem uvmcopy_correct own l roots old new lim lim' sz s :
  vm_inv own l roots s -> kmem_ready s ->
  roots !! old = Some lim -> roots !! new = Some lim' -> old <> new ->
  ulimit lim' -> 0 <= sz <= lim' -> lim' <= lim <= MAXVA ->
  (forall v, 0 <= v < PGROUNDUP sz -> is_leaf (leaf (k_mem s) old v)) ->
  (forall v, 0 <= v < PGROUNDUP sz -> has (leaf (k_mem s) new v) PTE_V = false) ->
  wp (uvmcopy end_ old new sz)
    (alloc_result roots own s new 0 (PGROUNDUP sz)
       (fun va => PTE_FLAGS (leaf (k_mem s) old va)) (fun va => ubyte (k_mem s) old va) 0 (-1)) s.
Proof. apply wp_uvmcopy. Qed.

End vm_user.

(** ** A small address space

    Two page tables, the first with one page of memory: the concrete state at
    which the theorems on user memory are instantiated. *)
Definition demo_old : Z := 2147491840.
Definition demo_new : Z := 2147495936.

Definition demo_setup : M kmst Z :=
  old ← uvmcreate;
  new ← uvmcreate;
  uvmalloc 2147483648 old 0 4096.

Definition demo : kmst := final (demo_setup small_heap).

Lemma demo_returns : match demo_setup small_heap with Ret r _ => r | _ => 0 end = 4096.
Proof. vm_compute. reflexivity. Qed.

Lemma TRAPFRAME_ulimit : ulimit TRAPFRAME.
Proof. split; [vm_compute; split; discriminate|reflexivity]. Qed.

Lemma demo_wp :
  wp demo_setup (fun r s => r = 4096 -> exists own l roots,
      vm_inv 2147483648 own l roots s /\ kmem_ready s /\
      roots !! demo_old = Some TRAPFRAME /\ roots !! demo_new = Some TRAPFRAME /\
      (forall v, 0 <= v < 4096 -> is_leaf (leaf (k_mem s) demo_old v) /\
                 PTE_FLAGS (leaf (k_mem s) demo_old v) = uvm_flags) /\
      (forall v, 4096 <= v < 2 * MAXVA -> has (leaf (k_mem s) demo_old v) PTE_V = false) /\
      (forall v, 0 <= v < 2 * MAXVA -> has (leaf (k_mem s) demo_new v) PTE_V = false)) small_heap.
Proof.
  pose proof (vm_inv_boot 2147483648 small_pages small_heap small_heap_inv) as Hb.
  unfold demo_setup. mstep.
  eapply (wp_uvmcreate 2147483648 ltac:(lia) _ _ _ TRAPFRAME); [exact Hb|apply small_heap_ready|done|].
  intros r l1 s1 E1 _ Lk1 Hvm1 _ Leaf1 _. assert (r = demo_old) as -> by (by injection E1).
  assert (kmem_ready s1) as Hr1.
  { destruct small_heap_ready. unfold kmem_ready. by rewrite Lk1. }
  mstep. eapply (wp_uvmcreate 2147483648 ltac:(lia) _ _ _ TRAPFRAME); [exact Hvm1|done|..].
  { intros ? ->. done. }
  intros r l2 s2 E2 _ Lk2 Hvm2 Same2 Leaf2 _. assert (r = demo_new) as ->.
  { rewrite E2 in E1. by injection E1. }
  assert (kmem_ready s2) as Hr2.
  { destruct Hr1. unfold kmem_ready. by rewrite Lk2. }
  assert (forall v, leaf (k_mem s2) demo_old v = 0) as Leaf2'.
  { intros v. rewrite (Same2 demo_old TRAPFRAME); [by rewrite Leaf1|by rewrite lookup_insert_eq]. }
  eapply wp_mono; [eapply (wp_uvmalloc 2147483648 ltac:(lia)); [exact Hvm2|done| |apply TRAPFRAME_ulimit|..]|].
  - by rewrite lookup_insert_ne, lookup_insert_eq.
  - lia.
  - vm_compute. discriminate.
  - intros v _. by rewrite Leaf2'.
  - intros r s3 (own3 & l3 & Hvm3 & [[-> A]|[-> A]]) Hr; [|done]. exists own3, l3. eexists.
    assert (forall root v, pte (k_mem s3) root v = 0 -> has (leaf (k_mem s3) root v) PTE_V = false) as Hpte.
    { intros root v E. rewrite <- has_pte_V, E. reflexivity. }
    split_and!; [exact Hvm3|by eapply allocated_ready| | | | |].
    + by rewrite lookup_insert_ne, lookup_insert_eq.
    + by rewrite lookup_insert_eq.
    + intros v Hv. destruct (al_new _ _ _ _ _ _ _ _ _ _ A v) as (HV & HF & _).
      { change (PGROUNDUP 4096) with 4096. change (PGROUNDUP 0) with 0. lia. }
      split; [|done]. split; [done|]. rewrite HF. done.
    + intros v Hv. apply Hpte.
      rewrite (al_pte _ _ _ _ _ _ _ _ _ _ A demo_old TRAPFRAME); [unfold pte; by rewrite Leaf2'| |lia|].
      * by rewrite lookup_insert_ne, lookup_insert_eq.
      * change (PGROUNDUP 4096) with 4096. lia.
    + intros v Hv. apply Hpte.
      rewrite (al_pte _ _ _ _ _ _ _ _ _ _ A demo_new TRAPFRAME); [unfold pte; by rewrite Leaf2| |lia|].
      * by rewrite lookup_insert_eq.
      * by intros [? _].
Qed.

Lemma demo_inv : exists own l roots,
  vm_inv 2147483648 own l roots demo /\ kmem_ready demo /\
  roots !! demo_old = Some TRAPFRAME /\ roots !! demo_new = Some TRAPFRAME /\
  (forall v, 0 <= v < 4096 -> is_leaf (leaf (k_mem demo) demo_old v) /\
             PTE_FLAGS (leaf (k_mem demo) demo_old v) = uvm_flags) /\
  (forall v, 4096 <= v < 2 * MAXVA -> has (leaf (k_mem demo) demo_old v) PTE_V = false) /\
  (forall v, 0 <= v < 2 * MAXVA -> has (leaf (k_mem demo) demo_new v) PTE_V = false).
Proof.
  pose proof demo_wp as H. pose proof demo_returns as Hr. unfold demo, wp in *.
  destruct (demo_setup small_heap) as [r s|? s|s|s|s]; try done. by apply H.
Qed.

#[global] Opaque demo.

Lemma uvmalloc_correct_witness : exists own l roots,
  vm_inv 2147483648 own l roots demo /\
  wp (uvmalloc 2147483648 demo_old 4096 8192)
    (alloc_result 2147483648 roots own demo demo_old 4096 8192 (fun _ => uvm_flags) (fun _ => 0) 8192 0) demo.
Proof.
  destruct demo_inv as (own & l & roots & Hvm & Hr & Hold & Hnew & _ & Hno & _).
  exists own, l, roots. split; [done|].
  apply (uvmalloc_correct 2147483648 ltac:(lia) own l roots demo_old TRAPFRAME 4096 8192 demo);
    [done..|apply TRAPFRAME_ulimit|lia|vm_compute; discriminate|].
  intros v Hv. apply Hno. change (PGROUNDUP 8192) with 8192 in Hv.
  change (PGROUNDUP 4096) with 4096 in Hv. change MAXVA with 274877906944. lia.
Defined.

Lemma uvmcopy_correct_witness : exists own l roots,
  vm_inv 2147483648 own l roots demo /\
  wp (uvmcopy 2147483648 demo_old demo_new 4096)
    (alloc_result 2147483648 roots own demo demo_new 0 4096
       (fun va => PTE_FLAGS (leaf (k_mem demo) demo_old va)) (fun va => ubyte (k_mem demo) demo_old va) 0 (-1)) demo.
Proof.
  destruct demo_inv as (own & l & roots & Hvm & Hr & Hold & Hnew & Hleaf & _ & Hno).
  exists own, l, roots. split; [done|].
  apply (uvmcopy_correct 2147483648 ltac:(lia) own l roots demo_old demo_new TRAPFRAME TRAPFRAME 4096 demo);
    [done|done|done|done|done|apply TRAPFRAME_ulimit|vm_compute; split; discriminate|vm_compute; split; discriminate|..];
    change (PGROUNDUP 4096) with 4096; intros v Hv; [by apply Hleaf|].
  apply Hno. change MAXVA with 274877906944. lia.
Defined.
