(* ===== verification/VmFree.v ===== *)
(** * kernel/vm.c: giving a page table back

    freewalk frees a tree of page-table pages: every table of the tree goes to
    the free list and no other memory changes.  With uvmunmap this gives
    uvmfree: all pages of the address space, tables and memory, are free again. *)

From Stdlib Require Import ZArith Lia.
From stdpp Require Import base list gmap strings.
From S2P Require Import Prelude KString Spinlock Riscv Kalloc Vm VmInv VmProofs VmUser.

(** ** The tree of tables below a table page *)

Definition PTE_RWX : Z := Z.lor (Z.lor PTE_R PTE_W) PTE_X.

Fixpoint tables (m : memory) (d : nat) (t : Z) : list Z :=
  match d with
  | O => []
  | S d' =>
      (zseq 0 512 ≫= fun i =>
         let e := ld64 m (t + 8 * i) in if has e PTE_V then tables m d' (PTE2PA e) else [])
      ++ [t]
  end.

(** All valid entries are links to tables, down to depth [d]. *)
Fixpoint tree_ok (m : memory) (d : nat) (t : Z) : Prop :=
  match d with
  | O => False
  | S d' => forall i, valid_ix i ->
      let e := ld64 m (t + 8 * i) in
      has e PTE_V = true -> Z.land e PTE_RWX = 0 /\ tree_ok m d' (PTE2PA e)
  end.

#[global] Arguments tables : simpl never.

(** The tables below the first [i] entries. *)
Definition subtables (m : memory) (d : nat) (t : Z) (i : Z) : list Z :=
  zseq 0 (Z.to_nat i) ≫= fun i =>
    let e := ld64 m (t + 8 * i) in if has e PTE_V then tables m d (PTE2PA e) else [].

Lemma tables_S m d t : tables m (S d) t = subtables m d t 512 ++ [t].
Proof. done. Qed.

Lemma zseq_snoc a n : zseq a (S n) = zseq a n ++ [a + Z.of_nat n].
Proof. unfold zseq. by rewrite seq_S, fmap_app. Qed.

Lemma subtables_S m d t i : 0 <= i ->
  subtables m d t (i + 1) = subtables m d t i ++
    let e := ld64 m (t + 8 * i) in if has e PTE_V then tables m d (PTE2PA e) else [].
Proof.
  intros Hi. unfold subtables. replace (Z.to_nat (i + 1)) with (S (Z.to_nat i)) by lia.
  rewrite zseq_snoc, bind_app, bind_singleton, Z2Nat.id by done. done.
Qed.

Lemma elem_of_subtables m d t n p :
  p ∈ subtables m d t n <->
  exists i, 0 <= i < n /\ let e := ld64 m (t + 8 * i) in has e PTE_V = true /\ p ∈ tables m d (PTE2PA e).
Proof.
  unfold subtables. rewrite list_elem_of_bind. split.
  - intros (i & Hp & Hi). apply elem_of_zseq in Hi. exists i. split; [lia|].
    cbn zeta in *. destruct (has _ _); [done|]. by apply elem_of_nil in Hp.
  - intros (i & Hi & HV & Hp). exists i. split; [|apply elem_of_zseq; lia].
    cbn zeta in *. by rewrite HV.
Qed.

Lemma subtables_prefix m d t i n : 0 <= i <= n -> exists k, subtables m d t n = subtables m d t i ++ k.
Proof.
  intros Hi. unfold subtables. replace (Z.to_nat n) with (Z.to_nat i + Z.to_nat (n - i))%nat by lia.
  unfold zseq. rewrite seq_app, fmap_app, bind_app. eauto.
Qed.

Lemma tables_agree m m' d t :
  (forall p b, p ∈ tables m d t -> in_page p b -> rd m' b = rd m b) ->
  tables m' d t = tables m d t /\ (tree_ok m d t -> tree_ok m' d t).
Proof.
  revert t. induction d as [|d IH]; intros t Hag; [done|].
  assert (forall i, valid_ix i -> ld64 m' (t + 8 * i) = ld64 m (t + 8 * i)) as He.
  { intros i Hi. apply entry_agree; [done|]. intros b. apply (Hag t). rewrite tables_S. apply elem_of_app. right. left. }
  assert (forall i, valid_ix i -> has (ld64 m (t + 8 * i)) PTE_V = true ->
    tables m' d (PTE2PA (ld64 m (t + 8 * i))) = tables m d (PTE2PA (ld64 m (t + 8 * i))) /\
    (tree_ok m d (PTE2PA (ld64 m (t + 8 * i))) -> tree_ok m' d (PTE2PA (ld64 m (t + 8 * i))))) as Hsub.
  { intros i Hi HV. apply IH. intros p b Hp. apply (Hag p). rewrite tables_S.
    apply elem_of_app. left. apply elem_of_subtables. exists i. split; [apply Hi|done]. }
  split.
  - rewrite !tables_S. f_equal. unfold subtables. apply Forall_bind_ext.
    apply Forall_forall. intros i Hi%elem_of_zseq. cbn zeta.
    assert (valid_ix i) as Hi' by (unfold valid_ix; lia). rewrite He by done.
    destruct (has _ _) eqn:HV; [|done]. by apply Hsub.
  - intros Hok i Hi. cbn zeta. rewrite He by done. intros HV. destruct (Hok i Hi HV) as [H1 H2].
    split; [done|]. by apply Hsub.
Qed.

(** ** freewalk *)

Section vm_free.
Context (end_ : Z) (end_pos : 0 < end_).
#[local] Abbreviation page_ok := (page_ok end_).
#[local] Abbreviation kmem_inv := (kmem_inv end_).
#[local] Abbreviation tab_inv := (tab_inv end_).
#[local] Abbreviation vm_inv := (vm_inv end_).
Implicit Types (own : owners) (roots : gmap Z Z) (m : memory) (s : kmst).

(** The pages of [T] are free again; nothing else has changed. *)
Record freed (l T : list Z) s s' : Prop := {
  fr_kmem : kmem_inv (reverse T ++ l) s';
  fr_mem : forall b, (forall p, p ∈ T -> ~ in_page p b) -> rd (k_mem s') b = rd (k_mem s) b;
  fr_lk : k_lk s' ≈ k_lk s;
}.

(** The pages of [T] can be freed. *)
Definition freeable (l T : list Z) : Prop :=
  NoDup T /\ Forall page_ok T /\ forall p, p ∈ T -> p ∉ l.

Lemma freeable_app l T1 T2 :
  freeable l (T1 ++ T2) -> freeable l T1 /\ freeable (reverse T1 ++ l) T2.
Proof.
  intros (H1 & H2 & H3). apply NoDup_app in H1 as (N1 & N12 & N2).
  apply Forall_app in H2 as [F1 F2]. split; split_and!; try done.
  - intros p Hp. apply H3, elem_of_app. by left.
  - intros p Hp. rewrite elem_of_app, elem_of_reverse. intros [?|?]; [by eapply N12|].
    eapply H3; [|done]. apply elem_of_app. by right.
Qed.

Lemma freeable_disjoint l T p q b :
  freeable l T -> p ∈ T -> q ∈ T -> p <> q -> in_page p b -> ~ in_page q b.
Proof.
  intros (_ & H2 & _) Hp Hq. rewrite Forall_forall in H2.
  apply pages_disjoint; [apply (H2 p Hp)|apply (H2 q Hq)].
Qed.

(** The state in the loop of freewalk: the tables [T] below the first [i]
    entries of [t] are free, these entries may have been cleared. *)
Record walking (l T : list Z) (t i : Z) s s' : Prop := {
  wk_kmem : kmem_inv (reverse T ++ l) s';
  wk_mem : forall b, (forall p, p ∈ T -> ~ in_page p b) -> ~ (t <= b < t + 8 * i) ->
    rd (k_mem s') b = rd (k_mem s) b;
  wk_lk : k_lk s' ≈ k_lk s;
}.

(** Tables still to be walked are as they were. *)
Lemma walking_agree l T T' t i s s' p b :
  walking l T t i s s' -> freeable l (T ++ T') -> t ∈ T' -> p ∈ T' -> 0 <= i <= 512 ->
  p <> t \/ ~ (t <= b < t + 8 * i) -> in_page p b -> rd (k_mem s') b = rd (k_mem s) b.
Proof.
  intros [_ W _] Hfr Ht Hp Hi Hne Hb. pose proof Hfr as (Hnd & _ & _).
  apply NoDup_app in Hnd as (_ & Hd & _). apply W.
  - intros q Hq. apply (freeable_disjoint l (T ++ T') p q); [done|set_solver..| |done].
    intros ->. by eapply Hd.
  - destruct Hne as [Hne|]; [|done]. intros Hin.
    apply (freeable_disjoint l (T ++ T') p t b); [done|set_solver..|].
    unfold in_page, PGSIZE. lia.
Qed.

Lemma walking_store l T T' t i s s1 :
  kmem_inv (reverse T ++ l) s1 -> freeable l (T ++ T') -> t ∈ T' -> valid_ix i ->
  (forall b, (forall p, p ∈ T -> ~ in_page p b) -> ~ (t <= b < t + 8 * i) ->
    rd (k_mem s1) b = rd (k_mem s) b) -> k_lk s1 ≈ k_lk s ->
  walking l T t (i + 1) s (set_kmem (st64 (k_mem s1) (t + 8 * i) 0) s1).
Proof.
  intros Hk Hfr Ht Hi Hag Hlk. pose proof Hfr as (Hnd & Hok & Hl).
  apply NoDup_app in Hnd as (_ & Hd & _). rewrite Forall_forall in Hok.
  split; [|cbn..|done].
  - apply (kmem_inv_ext end_ end_pos _ s1); [done| |done]. intros p b Hp Hb. cbn. symmetry.
    apply rd_st64_slot; [done|].
    assert (p <> t).
    { intros ->. rewrite elem_of_app, elem_of_reverse in Hp. destruct Hp as [Hp|Hp]; [exact (Hd t Hp Ht)|].
      eapply Hl; [|done]. set_solver. }
    destruct Hk as [_ _ Hk]. rewrite Forall_forall in Hk.
    apply (pages_disjoint p t); [by apply (Hk p)| |done..]. apply (Hok t). set_solver.
  - unfold valid_ix in Hi. intros b Hb1 Hb2. rewrite rd_st64_other by lia. apply Hag; [done|lia].
Qed.

Lemma wp_freewalk d l t Q s :
  kmem_ready s -> kmem_inv l s -> tree_ok (k_mem s) d t -> freeable l (tables (k_mem s) d t) ->
  (forall s', freed l (tables (k_mem s) d t) s s' -> Q tt s') ->
  wp (freewalk end_ d t) Q s.
Proof.
  revert l t Q s. induction d as [|d IH]; intros l t Q s Hr Hk Hok Hfr HQ; [done|].
  rewrite tables_S in *. cbn [freewalk]. mstep.
  apply (wp_for_range (fun i s' => i <= 512 /\ walking l (subtables (k_mem s) d t i) t i s s')); [done|..].
  { split; [done|]. by split. }
  - intros i s' Hi _ [_ W].
    destruct (subtables_prefix (k_mem s) d t (i + 1) 512) as [k Ek]; [lia|].
    rewrite Ek in Hfr. rewrite subtables_S in Hfr |- * by lia. rewrite <- !app_assoc in Hfr.
    assert (ld64 (k_mem s') (t + 8 * i) = ld64 (k_mem s) (t + 8 * i)) as El.
    { apply ld64_ext. intros b Hb. eapply (walking_agree _ _ _ t i s s' t); [done..|set_solver|set_solver|lia|lia|].
      unfold in_page, PGSIZE. lia. }
    unfold load64, store64. mstep. mstep. rewrite El. cbn zeta in Hfr |- *.
    destruct (has (ld64 (k_mem s) (t + 8 * i)) PTE_V) eqn:HV.
    + destruct (Hok i Hi HV) as [Hrwx Hsub]. fold PTE_RWX. rewrite Hrwx. cbn [andb Z.eqb].
      set (c := PTE2PA _) in *.
      destruct (tables_agree (k_mem s) (k_mem s') d c) as [Et Htok].
      { intros p b Hp Hb. eapply (walking_agree _ _ _ t i s s' p); [done..|set_solver|set_solver|lia| |done].
        left. intros ->. destruct Hfr as (Hnd & _). rewrite !NoDup_app in Hnd. set_solver. }
      apply freeable_app in Hfr as Hfr2. destruct Hfr2 as [_ Hfr2].
      apply freeable_app in Hfr2 as [Hfr2 _].
      mstep. apply (IH (reverse (subtables (k_mem s) d t i) ++ l)).
      * destruct Hr. unfold kmem_ready. by rewrite (wk_lk _ _ _ _ _ _ W).
      * apply W.
      * auto.
      * by rewrite Et.
      * rewrite Et. intros s1 [F1 F2 F3]. mstep. mstep. mstep. split; [lia|].
        eapply (walking_store _ _ (k ++ [t])); [|by rewrite <- app_assoc|set_solver|done| |].
        -- by rewrite reverse_app, <- app_assoc.
        -- intros b Hb1 Hb2. rewrite F2 by set_solver. apply W; [set_solver|done].
        -- by rewrite F3, (wk_lk _ _ _ _ _ _ W).
    + cbn [andb]. mstep. split; [lia|]. rewrite app_nil_r. destruct W as [W1 W2 W3].
      split; [done| |done]. intros b Hb1 Hb2. apply W2; [done|lia].
  - intros i s' Hi Hi' _ (Hi'' & W). assert (i = 512) as -> by lia.
    destruct W as [W1 W2 W3]. revert W1 W2 HQ Hfr.
    generalize (subtables (k_mem s) d t 512). intros T W1 W2 HQ Hfr. pose proof Hfr as (Hnd & Hpok & _).
    apply freeable_app in Hfr as [_ (_ & _ & Hnl)].
    apply (wp_kfree end_ end_pos t (reverse T ++ l)).
    + destruct Hr. unfold kmem_ready. by rewrite W3.
    + done.
    + rewrite Forall_forall in Hpok. apply Hpok. set_solver.
    + apply Hnl. set_solver.
    + intros s2 K2 L2 M2. apply HQ. split.
      * by rewrite reverse_app.
      * intros b Hb. rewrite M2 by (apply Hb; set_solver). apply W2; [set_solver|].
        intros Hin. apply (Hb t); [set_solver|]. unfold in_page, PGSIZE. lia.
      * by rewrite L2, settle_eqv.
Qed.

(** ** The tables of an empty address space *)

Definition empty_space m (root : Z) : Prop :=
  forall va, 0 <= va < 2 * MAXVA -> has (leaf m root va) PTE_V = false.

(** Every three indices are the path of some address. *)
Lemma path_va i2 i1 i0 :
  valid_ix i2 -> valid_ix i1 -> valid_ix i0 ->
  exists va, 0 <= va < 2 * MAXVA /\ PX 2 va = i2 /\ PX 1 va = i1 /\ PX 0 va = i0.
Proof.
  unfold valid_ix. intros. exists (i2 * 2 ^ 30 + i1 * 2 ^ 21 + i0 * 2 ^ 12).
  rewrite MAXVA_eq, !PX_eq by lia.
  change (2 ^ (12 + 9 * 2)) with (2 ^ 30). change (2 ^ (12 + 9 * 1)) with (2 ^ 21).
  change (2 ^ (12 + 9 * 0)) with (2 ^ 12). split; [lia|]. divlia.
Qed.

Lemma empty_entry m root i2 i1 i0 t :
  empty_space m root -> valid_path [i2; i1] -> valid_ix i0 -> tbl m root [i2; i1] = Some t ->
  has (ld64 m (t + 8 * i0)) PTE_V = false.
Proof.
  intros He [_ Hv] Hi Ht. rewrite !Forall_cons in Hv. destruct Hv as (H2 & H1 & _).
  destruct (path_va i2 i1 i0) as (va & Hva & E2 & E1 & E0); [done..|].
  specialize (He va Hva). unfold leaf, vpath in He. by rewrite E2, E1, Ht, E0 in He.
Qed.

Lemma tbl_app m root p q : tbl m root (p ++ q) = tbl m root p ≫= fun t => tbl m t q.
Proof.
  unfold tbl. rewrite foldl_app. destruct (foldl _ (Some root) p) as [t|]; [done|].
  simpl. induction q as [|i q IH]; [done|]. simpl. done.
Qed.

Lemma canon_link e : is_u64 e -> e = Z.lor (PA2PTE (PTE2PA e)) PTE_V -> Z.land e PTE_RWX = 0.
Proof.
  intros He E. rewrite E. apply Z.bits_inj'. intros n Hn. rewrite Z.land_spec, Z.lor_spec, Z.bits_0.
  destruct (decide (n < 10)) as [Hlt|Hge].
  - unfold PA2PTE. rewrite Z.shiftl_spec_low by lia.
    assert (n = 0 \/ n = 1 \/ n = 2 \/ n = 3 \/ 4 <= n) as [->|[->|[->|[->|?]]]] by lia; try done.
    change PTE_V with (2 ^ 0). by rewrite Z.pow2_bits_false by lia.
  - rewrite (Z.bits_above_log2 PTE_RWX n); [apply andb_false_r|done|].
    change (Z.log2 PTE_RWX) with 3. lia.
Qed.

Lemma tables_own own l roots s root lim d q t :
  tab_inv own l roots s -> roots !! root = Some lim -> empty_space (k_mem s) root ->
  valid_path q -> tbl (k_mem s) root q = Some t -> (length q + d = 3)%nat ->
  tree_ok (k_mem s) d t /\
  (forall p, p ∈ tables (k_mem s) d t <-> exists q', own !! p = Some (RTable root (q ++ q'))) /\
  NoDup (tables (k_mem s) d t).
Proof.
  intros Hinv Hroot Hemp. revert q t. induction d as [|d IH]; intros q t Hq Ht Hlen.
  { destruct Hq. lia. }
  assert (forall i, valid_ix i -> has (ld64 (k_mem s) (t + 8 * i)) PTE_V = true ->
    let c := PTE2PA (ld64 (k_mem s) (t + 8 * i)) in
    valid_path (q ++ [i]) /\ tbl (k_mem s) root (q ++ [i]) = Some c /\
    (length (q ++ [i]) + d = 3)%nat) as Hchild.
  { intros i Hi HV c. destruct Hq as [Hq1 Hq2]. rewrite length_app. simpl.
    destruct (decide (length q = 2)%nat) as [E|E].
    - destruct q as [|i2 [|i1 [|]]]; try done. exfalso.
      pose proof (empty_entry (k_mem s) root i2 i1 i t Hemp (conj Hq1 Hq2) Hi Ht). congruence.
    - split_and!; [split| |lia].
      + rewrite length_app. simpl. lia.
      + apply Forall_app. split; [done|]. by apply Forall_singleton.
      + rewrite tbl_snoc, Ht. by apply entry_Some. }
  assert (forall i p q', own !! p = Some (RTable root (q ++ i :: q')) ->
    valid_ix i /\ has (ld64 (k_mem s) (t + 8 * i)) PTE_V = true) as Hback.
  { intros i p q' Ho. apply (ti_tables _ _ _ _ _ Hinv) in Ho as (_ & Hv & Hp).
    assert (valid_ix i) as Hi.
    { destruct Hv as [_ Hv]. apply Forall_app in Hv as [_ Hv]. by inversion Hv. }
    split; [done|]. replace (q ++ i :: q') with ((q ++ [i]) ++ q') in Hp by by rewrite <- app_assoc.
    rewrite tbl_app, tbl_snoc, Ht in Hp. simpl in Hp. unfold entry in Hp. by destruct (has _ _). }
  assert (forall p i, valid_ix i -> has (ld64 (k_mem s) (t + 8 * i)) PTE_V = true ->
    p ∈ tables (k_mem s) d (PTE2PA (ld64 (k_mem s) (t + 8 * i))) <->
    exists q', own !! p = Some (RTable root (q ++ i :: q'))) as Hsub.
  { intros p i Hi HV. destruct (Hchild i Hi HV) as (Hv & Hc & Hl).
    destruct (IH _ _ Hv Hc Hl) as (_ & -> & _). by setoid_rewrite <- (app_assoc q [i]). }
  pose proof (ti_tbl _ _ _ _ _ _ _ _ _ Hinv Hroot Hq Ht) as Hown.
  assert (forall p, p ∈ subtables (k_mem s) d t 512 <->
     exists i q', own !! p = Some (RTable root (q ++ i :: q'))) as Hsubs.
  { intros p. rewrite elem_of_subtables. split.
    - intros (i & Hi & HV & Hp). apply Hsub in Hp; [|done|done]. eauto.
    - intros (i & q' & Ho). destruct (Hback _ _ _ Ho) as [Hi HV].
      exists i. split; [done|]. split; [done|]. apply Hsub; eauto. }
  rewrite tables_S. split_and!.
  - intros i Hi. cbn zeta. intros HV. destruct (Hchild i Hi HV) as (Hv & Hc & Hl). split; [|by apply (IH _ _ Hv Hc Hl)].
    apply canon_link; [apply ld64_range|]. by eapply ti_canon.
  - intros p. rewrite elem_of_app, list_elem_of_singleton, Hsubs. split.
    + intros [(i & q' & Ho)| ->]; [eauto|]. exists []. by rewrite app_nil_r.
    + intros ([|i q'] & Ho); [|by left; eauto]. right. rewrite app_nil_r in Ho.
      apply (ti_tables _ _ _ _ _ Hinv) in Ho as (_ & _ & Hp). congruence.
  - apply NoDup_app. split_and!; [| |by apply NoDup_singleton].
    + apply NoDup_bind; [| |apply NoDup_zseq].
      * intros i1 i2 p Hi1%elem_of_zseq Hi2%elem_of_zseq Hp1 Hp2. cbn zeta in *.
        destruct (has (ld64 _ (t + 8 * i1)) _) eqn:V1; [|by apply elem_of_nil in Hp1].
        destruct (has (ld64 _ (t + 8 * i2)) _) eqn:V2; [|by apply elem_of_nil in Hp2].
        apply Hsub in Hp1 as [q1 Hp1]; [|unfold valid_ix; lia|done].
        apply Hsub in Hp2 as [q2 Hp2]; [|unfold valid_ix; lia|done].
        rewrite Hp1 in Hp2. injection Hp2 as E. apply app_inv_head in E. congruence.
      * intros i Hi%elem_of_zseq. cbn zeta. destruct (has _ _) eqn:HV; [|constructor].
        destruct (Hchild i) as (Hv & Hc & Hl); [unfold valid_ix; lia|done|].
        by apply (IH _ _ Hv Hc Hl).
    + intros p (i & q' & Ho)%Hsubs. rewrite list_elem_of_singleton. intros ->.
      rewrite Hown in Ho. injection Ho as E. rewrite <- (app_nil_r q) in E at 1.
      by apply app_inv_head in E.
Qed.

(** ** Freeing a page table *)

(** The owner once the page table [root] and its memory are gone. *)
Definition release_role (root : Z) (r : role) : role :=
  match r with
  | RTable root' _ | RUser root' _ => if decide (root' = root) then RFree else r
  | _ => r
  end.

Lemma release_free root r :
  release_role root r = RFree <->
  r = RFree \/ (exists q, r = RTable root q) \/ (exists v, r = RUser root v).
Proof. destruct r; simpl; try case_decide; naive_solver. Qed.

Lemma release_keep root r r' : r' <> RFree ->
  release_role root r = r' <-> r = r' /\ release_role root r' = r'.
Proof. destruct r; simpl; try case_decide; split; intros; destruct_and?; subst; simpl in *;
  try case_decide; try done. Qed.

Section release.
Context own (l : list Z) roots (s s' : kmst) (root lim : Z).
Context (Hvm : vm_inv own l roots s) (Hroot : roots !! root = Some lim).
Context (Hemp : empty_space (k_mem s) root).
Context (Hfr : freed l (tables (k_mem s) 3 root) s s').

Let own' := release_role root <$> own.
Let roots' := delete root roots.

Lemma release_tables p : p ∈ tables (k_mem s) 3 root <-> exists q, own !! p = Some (RTable root q).
Proof.
  apply (tables_own own l roots s root lim 3 [] root); try done; [apply Hvm|].
  split; [simpl; lia|constructor].
Qed.

Lemma release_lookup p r : r <> RFree ->
  own' !! p = Some r <-> own !! p = Some r /\ release_role root r = r.
Proof.
  intros Hr. unfold own'. rewrite lookup_fmap. destruct (own !! p) as [r0|]; simpl; [|naive_solver].
  pose proof (release_keep root r0 r Hr) as E. split.
  - intros [= H]. apply E in H as [-> ?]. done.
  - intros [[= H] ?]. f_equal. by apply E.
Qed.

(** Pages that keep their owner keep their contents. *)
Lemma release_mem p r b : own !! p = Some r -> (forall q, r <> RTable root q) -> in_page p b ->
  rd (k_mem s') b = rd (k_mem s) b.
Proof.
  intros Hp Hr Hb. apply (fr_mem _ _ _ _ Hfr). intros t [q Ht]%release_tables.
  apply (own_disjoint end_ own l roots s p t); eauto; [apply Hvm|].
  intros ->. rewrite Hp in Ht. injection Ht as ->. by eapply Hr.
Qed.

Lemma release_tbl root' lim' p : roots' !! root' = Some lim' -> valid_path p ->
  tbl (k_mem s') root' p = tbl (k_mem s) root' p.
Proof.
  intros Hr Hp. apply lookup_delete_Some in Hr as [Hne Hr].
  eapply (tbl_agree end_ own l roots s); [apply Hvm|done|done|].
  intros t q b Ht _. apply (release_mem t (RTable root' q)); [done|]. congruence.
Qed.

Lemma release_leaf root' lim' va : roots' !! root' = Some lim' ->
  leaf (k_mem s') root' va = leaf (k_mem s) root' va.
Proof.
  intros [Hne Hr]%lookup_delete_Some.
  eapply (leaf_agree end_ own l roots s); [apply Hvm|done|].
  intros t q b Ht. apply (release_mem t (RTable root' q)); [done|]. congruence.
Qed.

Lemma release_tab_inv : tab_inv own' (reverse (tables (k_mem s) 3 root) ++ l) roots' s'.
Proof.
  pose proof (vi_tab _ _ _ _ _ Hvm) as Hinv. split.
  - apply Hfr.
  - intros p r. unfold own'. rewrite lookup_fmap. intros (r0 & Hp & _)%fmap_Some. by eapply ti_ok.
  - intros p. unfold own'. rewrite lookup_fmap, elem_of_app, elem_of_reverse, release_tables.
    rewrite <- (ti_list _ _ _ _ _ Hinv p). split.
    + intros (r0 & Hp & [->|[[q ->]|[v ->]]]%eq_sym%release_free)%fmap_Some; [by right|eauto|].
      exfalso. destruct (vi_user _ _ _ _ _ Hvm _ _ _ Hp) as (lim' & _ & Hv & Hv' & _ & HV & _).
      rewrite Hemp in HV; [done|lia].
    + intros [[q ->]| ->]; simpl; [by rewrite decide_True|done].
  - intros root' p t. rewrite release_lookup by done. cbn [release_role].
    rewrite (ti_tables _ _ _ _ _ Hinv). case_decide as E; split.
    + naive_solver.
    + subst. intros ([? Hx] & _). by apply lookup_delete_Some in Hx as [? _].
    + intros (([lim' Hr] & Hv & Ht) & _).
      assert (roots' !! root' = Some lim') as Hr' by (unfold roots'; by rewrite lookup_delete_ne).
      split_and!; [eauto|done|]. by rewrite (release_tbl root' lim').
    + intros ([lim' Hr] & Hv & Ht). rewrite (release_tbl root' lim') in Ht by done.
      apply lookup_delete_Some in Hr as [_ Hr]. eauto.
  - intros root' lim' p t i Hr Hp. pose proof (valid_path_snoc _ _ Hp) as (Hvp & Hi & _).
    rewrite (release_tbl root' lim') by done. intros Ht. apply lookup_delete_Some in Hr as [Hne Hr].
    pose proof (ti_tbl _ _ _ _ _ _ _ _ _ Hinv Hr Hvp Ht) as Ho.
    rewrite (entry_agree (k_mem s)); [by eapply ti_canon|done|].
    intros b. apply (release_mem t (RTable root' p)); [done|congruence].
Qed.

Lemma release_vm_inv : vm_inv own' (reverse (tables (k_mem s) 3 root) ++ l) roots' s'.
Proof.
  split; [apply release_tab_inv|..].
  - intros root' lim' va Hr Hva. rewrite (release_leaf root' lim') by done. intros HV.
    apply lookup_delete_Some in Hr as [Hne Hr].
    destruct (vi_leaf _ _ _ _ _ Hvm root' lim' va Hr Hva HV) as [H1 H2]. split; [|done].
    intros Hlt. apply release_lookup; [done|]. cbn [release_role]. rewrite decide_False by done. auto.
  - intros root' v p [Hp E]%release_lookup; [|done]. simpl in E. case_decide as E'; [done|].
    destruct (vi_user _ _ _ _ _ Hvm _ _ _ Hp) as (lim' & Hr & H). exists lim'.
    assert (roots' !! root' = Some lim') as Hr' by (unfold roots'; by rewrite lookup_delete_ne).
    by rewrite (release_leaf root' lim').
Qed.
End release.

(** freewalk of a page table that maps nothing. *)
Lemma wp_freewalk_root own l roots s root lim Q :
  vm_inv own l roots s -> kmem_ready s -> roots !! root = Some lim ->
  empty_space (k_mem s) root ->
  (forall l' s', vm_inv (release_role root <$> own) l' (delete root roots) s' ->
     (forall p r b, own !! p = Some r -> (forall q, r <> RTable root q) -> in_page p b ->
        rd (k_mem s') b = rd (k_mem s) b) ->
     leaves_same (delete root roots) (k_mem s) (k_mem s') -> k_lk s' ≈ k_lk s -> Q tt s') ->
  wp (freewalk end_ 3 root) Q s.
Proof.
  intros Hvm Hr Hroot Hemp HQ. pose proof (vi_tab _ _ _ _ _ Hvm) as Hinv.
  destruct (tables_own own l roots s root lim 3 [] root) as (Hok & Hel & Hnd); try done.
  { split; [simpl; lia|constructor]. }
  apply (wp_freewalk 3 l); [done|apply Hinv|done| |].
  - split_and!; [done|apply Forall_forall|]; intros p [q Hp]%Hel; [by eapply ti_ok|].
    rewrite <- (ti_list _ _ _ _ _ Hinv). congruence.
  - intros s' Hfr. apply (HQ (reverse (tables (k_mem s) 3 root) ++ l));
    [|intros p r b|intros root' lim' va|apply (fr_lk _ _ _ _ Hfr)].
    + exact (release_vm_inv own l roots s s' root lim Hvm Hroot Hemp Hfr).
    + exact (release_mem own l roots s s' root lim Hvm Hroot Hemp Hfr p r b).
    + exact (release_leaf own l roots s s' root lim Hvm Hroot Hemp Hfr root' lim' va).
Qed.

Lemma unmapped_empty roots own s own' s' root lim hi :
  unmapped roots own s own' s' root 0 hi -> roots !! root = Some lim ->
  (forall v, hi <= v < 2 * MAXVA -> has (leaf (k_mem s) root v) PTE_V = false) ->
  empty_space (k_mem s') root.
Proof.
  intros U Hroot Hno va Hva. rewrite (um_leaf _ _ _ _ _ _ _ _ U root lim) by done.
  case_decide; [done|]. apply Hno. lia.
Qed.

Lemma unmapped_release l roots own s own' s' root hi p r :
  vm_inv own l roots s -> unmapped roots own s own' s' root 0 hi ->
  (forall v, hi <= v < 2 * MAXVA -> has (leaf (k_mem s) root v) PTE_V = false) ->
  own !! p = Some r -> release_role root <$> own' !! p = Some (release_role root r).
Proof.
  intros Hvm U Hno Hp. destruct (decide (r = RUser root match r with RUser _ v => v | _ => 0 end)) as [E|E].
  - destruct r as [| |root' v|]; try done. injection E as ->.
    destruct (vi_user _ _ _ _ _ Hvm _ _ _ Hp) as (? & _ & Hv & Hv' & _ & HV & _).
    rewrite (um_user _ _ _ _ _ _ _ _ U p v); [|done|].
    + simpl. by rewrite decide_True.
    + destruct (decide (v < hi)); [lia|]. rewrite Hno in HV; [done|lia].
  - rewrite (um_own _ _ _ _ _ _ _ _ U p r); [done..|]. intros v ->. done.
Qed.

Lemma wp_uvmfree own l roots root lim sz s :
  vm_inv own l roots s -> kmem_ready s -> roots !! root = Some lim -> ulimit lim ->
  0 <= sz <= lim ->
  (forall v, 0 <= v < PGROUNDUP sz -> is_leaf (leaf (k_mem s) root v)) ->
  (forall v, PGROUNDUP sz <= v < 2 * MAXVA -> has (leaf (k_mem s) root v) PTE_V = false) ->
  wp (uvmfree end_ root sz) (fun _ s' => exists own' l', vm_inv own' l' (delete root roots) s' /\
    (forall p r, own !! p = Some r -> own' !! p = Some (release_role root r)) /\
    (forall p r, own' !! p = Some r -> r <> RFree -> own !! p = Some r) /\
    (forall p r b, own !! p = Some r -> is_data r -> release_role root r = r -> in_page p b ->
       rd (k_mem s') b = rd (k_mem s) b) /\
    (forall root' lim' v, delete root roots !! root' = Some lim' -> 0 <= v < 2 * MAXVA ->
       leaf (k_mem s') root' v = leaf (k_mem s) root' v) /\
    k_lk s' ≈ k_lk s) s.
Proof.
  intros Hvm Hr Hroot Hul Hsz Hleaf Hno. pose proof Hul as [Hmax _].
  destruct (PGROUNDUP_bounds sz lim) as (Ho & Hoal & _); [lia|done|].
  assert (0 + PGROUNDUP sz / PGSIZE * PGSIZE = PGROUNDUP sz) as E by (unfold PGSIZE in *; divlia).
  assert (forall own1 l1 s1, vm_inv own1 l1 roots s1 ->
    unmapped roots own s own1 s1 root 0 (PGROUNDUP sz) ->
    wp (freewalk end_ 3 root) (fun _ s' => exists own' l', vm_inv own' l' (delete root roots) s' /\
      (forall p r, own !! p = Some r -> own' !! p = Some (release_role root r)) /\
      (forall p r, own' !! p = Some r -> r <> RFree -> own !! p = Some r) /\
      (forall p r b, own !! p = Some r -> is_data r -> release_role root r = r -> in_page p b ->
         rd (k_mem s') b = rd (k_mem s) b) /\
      (forall root' lim' v, delete root roots !! root' = Some lim' -> 0 <= v < 2 * MAXVA ->
         leaf (k_mem s') root' v = leaf (k_mem s) root' v) /\
      k_lk s' ≈ k_lk s) s1) as Hfin.
  { intros own1 l1 s1 Hvm1 U. eapply wp_freewalk_root; [done| |done|by eapply unmapped_empty|].
    { destruct Hr. unfold kmem_ready. by rewrite (um_lk _ _ _ _ _ _ _ _ U). }
    intros l' s' Hvm' Hag Hsame Hlk. do 2 eexists. split; [done|]. pose proof U as [U1 U2 U3 U4 U5 U6].
    split_and!.
    - intros p r Hp. rewrite lookup_fmap. by apply (unmapped_release l roots own s own1 s1 root (PGROUNDUP sz) p r).
    - intros p r Hp Hf. apply release_lookup in Hp as [Hp _]; [by apply U4|done].
    - intros p r b Hp Hd Hrel Hb. assert (own1 !! p = Some r) as Hp1.
      { apply U3; [done|]. intros v ->. simpl in Hrel. by rewrite decide_True in Hrel. }
      rewrite (Hag p r b); [by eapply U5|done| |done]. intros q ->. done.
    - intros root' lim' v Hr' Hv. rewrite (Hsame root' lim') by done.
      apply lookup_delete_Some in Hr' as [Hne Hr']. rewrite (U1 root' lim' v Hr' Hv).
      apply decide_False. naive_solver.
    - by rewrite Hlk. }
  unfold uvmfree. mstep. unfold when. destruct (Z.ltb_spec 0 sz).
  - eapply (wp_uvmunmap end_ end_pos own l roots root lim); rewrite ?E; try done; try lia.
    unfold PGSIZE in *. divlia.
  - mstep. apply (Hfin own l s); [done|]. assert (sz = 0) as -> by lia. apply unmapped_refl.
Qed.

(** C19: uvmfree gives back every page of the address space: afterwards each
    page that held its memory or one of its page tables is on the free list,
    each other page has the owner and the contents it had, the other page tables
    map what they mapped, and the invariant holds without this page table. *)
Theorem uvmfree_correct own l roots root lim sz s :
  vm_inv own l roots s -> kmem_ready s -> roots !! root = Some lim -> ulimit lim ->
  0 <= sz <= lim ->
  (forall v, 0 <= v < PGROUNDUP sz -> is_leaf (leaf (k_mem s) root v)) ->
  (forall v, PGROUNDUP sz <= v < 2 * MAXVA -> has (leaf (k_mem s) root v) PTE_V = false) ->
  wp (uvmfree end_ root sz) (fun _ s' => exists own' l', vm_inv own' l' (delete root roots) s' /\
    (forall p r, own !! p = Some r -> own' !! p = Some (release_role root r)) /\
    (forall p r, own' !! p = Some r -> r <> RFree -> own !! p = Some r) /\
    (forall p r b, own !! p = Some r -> is_data r -> release_role root r = r -> in_page p b ->
       rd (k_mem s') b = rd (k_mem s) b) /\
    (forall root' lim' v, delete root roots !! root' = Some lim' -> 0 <= v < 2 * MAXVA ->
       leaf (k_mem s') root' v = leaf (k_mem s) root' v) /\
    k_lk s' ≈ k_lk s) s.
Proof. apply wp_uvmfree. Qed.

End vm_free.

Lemma uvmfree_correct_witness : exists own l roots,
  vm_inv 2147483648 own l roots demo /\
  wp (uvmfree 2147483648 demo_old 4096) (fun _ s' => exists own' l',
    vm_inv 2147483648 own' l' (delete demo_old roots) s') demo.
Proof.
  destruct demo_inv as (own & l & roots & Hvm & Hr & Hold & Hnew & Hleaf & Hno & _).
  exists own, l, roots. split; [done|]. eapply wp_mono.
  - apply (uvmfree_correct 2147483648 ltac:(lia) own l roots demo_old TRAPFRAME 4096 demo);
      [done|done|done|apply TRAPFRAME_ulimit|vm_compute; split; discriminate|..];
      change (PGROUNDUP 4096) with 4096; intros v Hv; [by apply Hleaf|by apply Hno].
  - intros _ s' (own' & l' & H & _). by exists own', l'.
Defined.
