(* ===== verification/VmCopy.v ===== *)
(** * kernel/vm.c: copying between user and kernel memory

    copyout, copyin and copyinstr against the abstract address space of a
    process: the function from virtual addresses to bytes that its page table
    defines.  They reach exactly the bytes that user code may access, and
    copyout changes no other byte of any process. *)

From Stdlib Require Import ZArith Lia.
From stdpp Require Import base list gmap strings.
From S2P Require Import Prelude KString Spinlock Riscv Kalloc Vm VmInv VmProofs VmUser.

(** User code may access [va]. *)
Definition accessible (m : memory) (root va : Z) : Prop :=
  va < MAXVA /\ has (leaf m root va) PTE_V = true /\ has (leaf m root va) PTE_U = true.

#[global] Instance accessible_dec m root va : Decision (accessible m root va).
Proof. unfold accessible. apply _. Defined.

(** [n] bytes of user memory from [va]. *)
Definition ubytes (m : memory) (root va : Z) (n : nat) : list Z := ubyte m root <$> zseq va n.

Lemma ubytes_app m root va n k :
  ubytes m root va (n + k) = ubytes m root va n ++ ubytes m root (va + Z.of_nat n) k.
Proof.
  unfold ubytes, zseq. rewrite seq_app, !fmap_app. f_equal. rewrite Nat.add_0_l.
  rewrite <- (Nat.add_0_r n) at 1. rewrite <- fmap_add_seq, <- !list_fmap_compose.
  apply list_fmap_ext. intros i x _. simpl. f_equal. lia.
Qed.

Lemma accessible_page m root va va' :
  PGROUNDDOWN va = PGROUNDDOWN va' -> accessible m root va <-> accessible m root va'.
Proof.
  intros E. unfold accessible. rewrite (leaf_page m root va va') by done.
  rewrite !PGROUNDDOWN_eq in E. rewrite MAXVA_eq. unfold PGSIZE in E. split; intros (? & ? & ?);
    (split_and!; [divlia|done|done]).
Qed.

Lemma PGROUNDDOWN_idem va : PGROUNDDOWN (PGROUNDDOWN va) = PGROUNDDOWN va.
Proof. rewrite !PGROUNDDOWN_eq. unfold PGSIZE. divlia. Qed.

(** The bytes of one page. *)
Lemma page_part_bounds va len : 0 < len ->
  0 < page_part va len <= len /\ page_part va len <= PGROUNDDOWN va + PGSIZE - va /\
  (page_part va len < len -> PGROUNDDOWN va + PGSIZE = va + page_part va len).
Proof.
  intros. unfold page_part. rewrite PGROUNDDOWN_eq. unfold PGSIZE.
  destruct (Z.ltb_spec len (4096 - (va - (va - va mod 4096)))); divlia.
Qed.

(** The invariant is about the memory and the free list. *)
Lemma vm_inv_ext {end_ own l roots} (k k' : kmst) :
  k_mem k' = k_mem k -> k_freelist k' = k_freelist k -> vm_inv end_ own l roots k -> vm_inv end_ own l roots k'.
Proof.
  destruct k, k'. cbn. intros -> -> [[[] ? ? ? ?] ? ?]. by split; [split|..].
Qed.

Section vm_copy.
Context (end_ : Z) (end_pos : 0 < end_).
#[local] Abbreviation page_ok := (page_ok end_).
#[local] Abbreviation tab_inv := (tab_inv end_).
#[local] Abbreviation vm_inv := (vm_inv end_).
Implicit Types (own : owners) (roots : gmap Z Z) (m : memory) (s : kmst).

(** walkaddr on the page of [va]. *)
Lemma walkaddr_page own l roots root lim va s :
  vm_inv own l roots s -> roots !! root = Some lim -> 0 <= va ->
  walkaddr root (PGROUNDDOWN va) s =
    Ret (if decide (accessible (k_mem s) root va) then PTE2PA (leaf (k_mem s) root va) else 0) s.
Proof.
  intros Hvm Hroot Hva.
  assert (0 <= PGROUNDDOWN va) by (rewrite PGROUNDDOWN_eq; unfold PGSIZE; divlia).
  rewrite (walkaddr_run end_ end_pos own l roots root lim) by (done || apply Hvm).
  rewrite (leaf_page _ _ (PGROUNDDOWN va) va) by apply PGROUNDDOWN_idem.
  cbn zeta. f_equal. pose proof (accessible_page (k_mem s) root (PGROUNDDOWN va) va (PGROUNDDOWN_idem va)) as E.
  destruct (decide (accessible (k_mem s) root va)) as [Ha|Ha]; pose proof Ha as Ha'.
  - apply E in Ha' as (? & _). destruct Ha as (_ & -> & ->). by rewrite decide_True.
  - case_decide; [|done]. destruct (has _ PTE_V) eqn:HV; [|done].
    destruct (has _ PTE_U) eqn:HU; [|done]. exfalso. apply Ha, E. unfold accessible.
    by rewrite (leaf_page _ _ (PGROUNDDOWN va) va) by apply PGROUNDDOWN_idem.
Qed.

(** The page that an accessible address lies in. *)
Lemma accessible_owner own l roots root lim va s :
  vm_inv own l roots s -> roots !! root = Some lim -> ulimit lim -> 0 <= va ->
  accessible (k_mem s) root va ->
  let pa := PTE2PA (leaf (k_mem s) root va) in
  own !! pa = Some (RUser root (PGROUNDDOWN va)) /\ pa <> 0.
Proof.
  intros Hvm Hroot [Hmax _] Hva (Hlt & HV & HU) pa.
  destruct (vi_leaf _ _ _ _ _ Hvm root lim va) as [H1 H2]; [done|lia|done|].
  specialize (H1 (H2 HU)). split; [done|].
  pose proof (page_ok_bounds _ end_pos _ (ti_ok _ _ _ _ _ (vi_tab _ _ _ _ _ Hvm) _ _ H1)).
  unfold pa. lia.
Qed.

(** Reading from the page of [va]. *)
Lemma rd_bytes_user m root va n :
  0 <= va -> 0 <= n <= PGROUNDDOWN va + PGSIZE - va ->
  rd_bytes m (PTE2PA (leaf m root va) + (va - PGROUNDDOWN va)) (Z.to_nat n) =
  ubytes m root va (Z.to_nat n).
Proof.
  intros Hva Hn. unfold rd_bytes, ubytes, zseq. rewrite <- !list_fmap_compose.
  apply list_fmap_ext. intros k i Hi. apply lookup_seq in Hi as [-> Hi]. simpl.
  unfold ubyte. rewrite (leaf_page _ _ (va + Z.of_nat k) va).
  - f_equal. rewrite PGROUNDDOWN_eq in *. unfold PGSIZE in *. divlia.
  - rewrite !PGROUNDDOWN_eq in *. unfold PGSIZE in *. divlia.
Qed.

Lemma accessible_part m root va len v :
  accessible m root va -> 0 <= va -> 0 < len -> va <= v < va + page_part va len ->
  accessible m root v.
Proof.
  intros Ha Hva Hlen Hv. destruct (page_part_bounds va len Hlen) as (P1 & P2 & _).
  apply (accessible_page m root v va); [|done].
  rewrite !PGROUNDDOWN_eq in *. unfold PGSIZE in *. divlia.
Qed.

(** The loops end: a page is done in each round. *)
Lemma copy_bound_round va len fuel :
  0 <= va -> 0 < len ->
  (va mod PGSIZE + len + PGSIZE - 1) / PGSIZE < Z.of_nat (S fuel) + 1 ->
  let n := page_part va len in
  len - n <= 0 \/ ((PGROUNDDOWN va + PGSIZE) mod PGSIZE + (len - n) + PGSIZE - 1) / PGSIZE < Z.of_nat fuel + 1.
Proof.
  intros Hva Hlen Hf n. destruct (page_part_bounds va len Hlen) as (H1 & H2 & H3). fold n in H1, H2, H3.
  destruct (decide (n < len)) as [Hlt|]; [right|left; lia]. specialize (H3 Hlt).
  rewrite PGROUNDDOWN_eq in *. unfold PGSIZE in *. divlia.
Qed.

Lemma copyin_loop_run own l roots root lim s :
  vm_inv own l roots s -> roots !! root = Some lim -> ulimit lim ->
  forall fuel dst va len, 0 <= va -> 0 <= len ->
  len <= 0 \/ (va mod PGSIZE + len + PGSIZE - 1) / PGSIZE < Z.of_nat fuel + 1 ->
  exists n, 0 <= n <= len /\ (forall v, va <= v < va + n -> accessible (k_mem s) root v) /\
    (n < len -> ~ accessible (k_mem s) root (va + n)) /\
    copyin_loop fuel root dst va len s =
    Ret (if decide (n = len) then 0 else -1, dst ++ ubytes (k_mem s) root va (Z.to_nat n)) s.
Proof.
  intros Hvm Hroot Hul. induction fuel as [|fuel IH]; intros dst va len Hva Hlen Hf.
  { assert (len = 0) as -> by (unfold PGSIZE in *; divlia). exists 0. split_and!; try lia.
    by rewrite app_nil_r. }
  destruct (decide (len = 0)) as [->|Hne].
  { exists 0. split_and!; try lia. by rewrite app_nil_r. }
  cbn [copyin_loop]. rewrite (proj2 (Z.ltb_lt _ _)) by lia.
  rewrite (bind_run _ _ _ _ _ (walkaddr_page own l roots root lim va s Hvm Hroot Hva)).
  destruct (page_part_bounds va len) as (P1 & P2 & P3); [lia|].
  case_decide as Ha.
  2: { exists 0. split_and!; try lia; [by rewrite Z.add_0_r|].
       rewrite decide_False by lia. by rewrite app_nil_r. }
  destruct (accessible_owner own l roots root lim va s Hvm Hroot Hul Hva Ha) as [_ Hpa].
  nonnull_case. unfold mbind, M_bind, gets. rewrite rd_bytes_user by lia.
  pose proof (copy_bound_round va len fuel Hva ltac:(lia) ltac:(lia)) as Hround. cbn zeta in Hround.
  destruct (IH (dst ++ ubytes (k_mem s) root va (Z.to_nat (page_part va len)))
         (PGROUNDDOWN va + PGSIZE) (len - page_part va len)) as (n & Hn & Hacc & Hnacc & E);
    [rewrite PGROUNDDOWN_eq in *; unfold PGSIZE in *; divlia|lia|lia|].
  exists (page_part va len + n). split_and!; [lia|lia|..].
  - intros v Hv. destruct (decide (v < va + page_part va len)); [|apply Hacc; lia].
    apply (accessible_part _ _ va len); [done|lia..].
  - intros Hlt. rewrite P3 in Hnacc by lia. rewrite Z.add_assoc. apply Hnacc. lia.
  - rewrite E. do 2 f_equal; [repeat case_decide; lia|]. rewrite <- app_assoc. f_equal.
    rewrite Z2Nat.inj_add, ubytes_app by lia. f_equal. rewrite Z2Nat.id by lia.
    destruct (decide (page_part va len < len)); [by rewrite P3|].
    by replace n with 0 by lia.
Qed.

Lemma copy_bound_enough va len :
  0 <= va -> 0 <= len -> (va mod PGSIZE + len + PGSIZE - 1) / PGSIZE < Z.of_nat (copy_bound len) + 1.
Proof. intros. unfold copy_bound, PGSIZE. divlia. Qed.

Lemma copyin_run own l roots root lim va len s :
  vm_inv own l roots s -> roots !! root = Some lim -> ulimit lim -> 0 <= va -> 0 <= len ->
  exists r dst, copyin root va len s = Ret (r, dst) s /\
    ((r = 0 /\ (forall v, va <= v < va + len -> accessible (k_mem s) root v) /\
      dst = ubytes (k_mem s) root va (Z.to_nat len)) \/
     (r = -1 /\ exists v, va <= v < va + len /\ ~ accessible (k_mem s) root v)).
Proof.
  intros Hvm Hroot Hul Hva Hlen.
  destruct (copyin_loop_run own l roots root lim s Hvm Hroot Hul (copy_bound len) [] va len)
    as (n & Hn & Hacc & Hnacc & E); [done|done|right; by apply copy_bound_enough|].
  do 2 eexists. split; [exact E|]. case_decide as En.
  - left. subst. done.
  - right. split; [done|]. exists (va + n). split; [lia|]. apply Hnacc. lia.
Qed.

(** ** copyinstr *)

Lemma copyinstr_page_spec n m p dst :
  (exists k, (k < n)%nat /\ rd m (p + Z.of_nat k) = 0 /\
     (forall j, (j < k)%nat -> rd m (p + Z.of_nat j) <> 0) /\
     copyinstr_page n m p dst = (true, dst ++ rd_bytes m p (S k))) \/
  ((forall j, (j < n)%nat -> rd m (p + Z.of_nat j) <> 0) /\
     copyinstr_page n m p dst = (false, dst ++ rd_bytes m p n)).
Proof.
  revert p dst. induction n as [|n IH]; intros p dst.
  { right. split; [lia|]. by rewrite app_nil_r. }
  cbn [copyinstr_page]. destruct (Z.eqb_spec (rd m p) 0) as [E|E].
  - left. exists 0%nat. rewrite Z.add_0_r. split_and!; [lia|done|lia|].
    unfold rd_bytes. rewrite zseq_S. simpl. by rewrite E.
  - assert (forall k, rd_bytes m p (S k) = rd m p :: rd_bytes m (p + 1) k) as Hc.
    { intros k. unfold rd_bytes. by rewrite zseq_S. }
    assert (forall k, p + Z.of_nat (S k) = p + 1 + Z.of_nat k) as Hp by lia.
    destruct (IH (p + 1) (dst ++ [rd m p])) as [(k & Hk & H0 & Hj & Er)|[Hj Er]].
    + left. exists (S k). rewrite Hp. split_and!; [lia|done| |].
      * intros [|j] Hlt; [by rewrite Z.add_0_r|]. rewrite Hp. apply Hj. lia.
      * rewrite Er. f_equal. rewrite (Hc (S k)), <- app_assoc. done.
    + right. split.
      * intros [|j] Hlt; [by rewrite Z.add_0_r|]. rewrite Hp. apply Hj. lia.
      * rewrite Er. f_equal. by rewrite (Hc n), <- app_assoc.
Qed.

Lemma rd_user m root va k :
  0 <= va -> 0 <= k < PGROUNDDOWN va + PGSIZE - va ->
  rd m (PTE2PA (leaf m root va) + (va - PGROUNDDOWN va) + k) = ubyte m root (va + k).
Proof.
  intros Hva Hk. unfold ubyte. rewrite (leaf_page _ _ (va + k) va).
  - f_equal. rewrite PGROUNDDOWN_eq in *. unfold PGSIZE in *. divlia.
  - rewrite !PGROUNDDOWN_eq in *. unfold PGSIZE in *. divlia.
Qed.

(** The string at [va] ends after [n] bytes. *)
Definition user_string m (root va n : Z) : Prop :=
  (forall v, va <= v <= va + n -> accessible m root v) /\
  (forall v, va <= v < va + n -> ubyte m root v <> 0) /\ ubyte m root (va + n) = 0.

Lemma copyinstr_loop_run own l roots root lim s :
  vm_inv own l roots s -> roots !! root = Some lim -> ulimit lim ->
  forall fuel dst va max, 0 <= va -> 0 <= max ->
  max <= 0 \/ (va mod PGSIZE + max + PGSIZE - 1) / PGSIZE < Z.of_nat fuel + 1 ->
  (exists n, 0 <= n < max /\ user_string (k_mem s) root va n /\
     copyinstr_loop fuel root dst va max s =
     Ret (0, dst ++ ubytes (k_mem s) root va (Z.to_nat (n + 1))) s) \/
  (exists dst', copyinstr_loop fuel root dst va max s = Ret (-1, dst') s /\
     forall n, 0 <= n < max -> ~ user_string (k_mem s) root va n).
Proof.
  intros Hvm Hroot Hul. induction fuel as [|fuel IH]; intros dst va max Hva Hmax Hf.
  { assert (max = 0) as -> by (unfold PGSIZE in *; divlia). right. eexists. split; [done|lia]. }
  destruct (decide (max = 0)) as [->|Hne].
  { right. eexists. split; [done|lia]. }
  cbn [copyinstr_loop]. rewrite (proj2 (Z.ltb_lt _ _)) by lia.
  rewrite (bind_run _ _ _ _ _ (walkaddr_page own l roots root lim va s Hvm Hroot Hva)).
  destruct (page_part_bounds va max) as (P1 & P2 & P3); [lia|].
  case_decide as Ha.
  2: { right. eexists. split; [done|]. intros n Hn [H _]. apply Ha, H. lia. }
  destruct (accessible_owner own l roots root lim va s Hvm Hroot Hul Hva Ha) as [_ Hpa].
  nonnull_case. rewrite (bind_run _ _ s (k_mem s) s) by done.
  set (pp := page_part va max) in *. set (p0 := PTE2PA _ + _).
  assert (forall v, va <= v < va + pp -> accessible (k_mem s) root v) as Hacc.
  { intros v Hv. apply (accessible_part _ _ va max); [done|lia..]. }
  assert (forall k, 0 <= k < pp -> rd (k_mem s) (p0 + k) = ubyte (k_mem s) root (va + k)) as Hrd.
  { intros k Hk. apply rd_user; lia. }
  destruct (copyinstr_page_spec (Z.to_nat pp) (k_mem s) p0 dst) as [(k & Hk & H0 & Hj & ->)|[Hj ->]].
  - left. exists (Z.of_nat k). split; [lia|]. split; [split_and!|].
    + intros v Hv. apply Hacc. lia.
    + intros v Hv. replace v with (va + (v - va)) by lia. rewrite <- Hrd by lia.
      replace (v - va) with (Z.of_nat (Z.to_nat (v - va))) by lia. apply Hj. lia.
    + rewrite <- Hrd by lia. done.
    + do 3 f_equal. replace (S k) with (Z.to_nat (Z.of_nat k + 1)) by lia.
      apply rd_bytes_user; lia.
  - pose proof (copy_bound_round va max fuel Hva ltac:(lia) ltac:(lia)) as Hround. cbn zeta in Hround.
    fold pp in Hround.
    assert (forall n, 0 <= n < pp -> ~ user_string (k_mem s) root va n) as Hnone.
    { intros n Hn (_ & _ & H0). rewrite <- Hrd in H0 by lia.
      apply (Hj (Z.to_nat n)); [lia|]. by rewrite Z2Nat.id by lia. }
    assert (forall n, pp <= n -> user_string (k_mem s) root va n ->
              user_string (k_mem s) root (va + pp) (n - pp)) as Hrest.
    { intros n Hn (A1 & A2 & A3). split_and!; [intros; apply A1; lia|intros; apply A2; lia|].
      by replace (va + pp + (n - pp)) with (va + n) by lia. }
    destruct (IH (dst ++ rd_bytes (k_mem s) p0 (Z.to_nat pp)) (PGROUNDDOWN va + PGSIZE) (max - pp))
      as [(n & Hn & (A1 & A2 & A3) & E)|(dst' & E & Hno)];
      [rewrite PGROUNDDOWN_eq in *; unfold PGSIZE in *; divlia|lia|lia|..].
    + rewrite P3 in A1, A2, A3, E by lia. left. exists (pp + n). split; [lia|].
      split; [split_and!|].
      * intros v Hv. destruct (decide (v < va + pp)); [apply Hacc|apply A1]; lia.
      * intros v Hv. destruct (decide (v < va + pp)); [|apply A2; lia].
        replace v with (va + (v - va)) by lia. rewrite <- Hrd by lia.
        replace (v - va) with (Z.of_nat (Z.to_nat (v - va))) by lia. apply Hj. lia.
      * by rewrite Z.add_assoc.
      * rewrite P3 by lia. rewrite E. do 2 f_equal. rewrite <- app_assoc. f_equal.
        replace (Z.to_nat (pp + n + 1)) with (Z.to_nat pp + Z.to_nat (n + 1))%nat by lia.
        rewrite ubytes_app, Z2Nat.id by lia. f_equal. apply rd_bytes_user; lia.
    + right. exists dst'. split; [exact E|]. intros n Hn Hus.
      destruct (decide (n < pp)); [apply (Hnone n); [lia|done]|].
      apply (Hno (n - pp)); [lia|]. rewrite P3 by lia. apply Hrest; [lia|done].
Qed.

(** C21: copyinstr returns 0 and the user's string with its NUL exactly when a
    NUL lies within [max] accessible bytes from [va], and -1 otherwise. *)
Theorem copyinstr_correct own l roots root lim va max s :
  vm_inv own l roots s -> roots !! root = Some lim -> ulimit lim -> 0 <= va -> 0 <= max ->
  (exists n, 0 <= n < max /\ user_string (k_mem s) root va n /\
     copyinstr root va max s = Ret (0, ubytes (k_mem s) root va (Z.to_nat (n + 1))) s) \/
  (exists dst, copyinstr root va max s = Ret (-1, dst) s /\
     forall n, 0 <= n < max -> ~ user_string (k_mem s) root va n).
Proof.
  intros Hvm Hroot Hul Hva Hmax.
  apply (copyinstr_loop_run own l roots root lim s Hvm Hroot Hul (copy_bound max) [] va max);
    [done|done|right; by apply copy_bound_enough].
Qed.

(** ** copyout *)

(** Writing bytes of the user page at [va] keeps the invariant and the page
    tables, and changes exactly those bytes of user memory. *)
Lemma write_user own l roots s root lim va bs :
  vm_inv own l roots s -> roots !! root = Some lim -> ulimit lim -> 0 <= va ->
  accessible (k_mem s) root va ->
  va + Z.of_nat (length bs) <= PGROUNDDOWN va + PGSIZE -> Forall is_u8 bs ->
  let s' := set_kmem (wr_bytes (k_mem s) (PTE2PA (leaf (k_mem s) root va) + (va - PGROUNDDOWN va)) bs) s in
  vm_inv own l roots s' /\ leaves_same roots (k_mem s) (k_mem s') /\
  (forall root' lim' v, roots !! root' = Some lim' -> 0 <= v < lim' -> v < MAXVA ->
     has (leaf (k_mem s) root' v) PTE_V = true ->
     ubyte (k_mem s') root' v =
     if decide (root' = root /\ va <= v < va + Z.of_nat (length bs))
     then default 0 (bs !! Z.to_nat (v - va)) else ubyte (k_mem s) root' v).
Proof.
  intros Hvm Hroot Hul Hva Ha Hlen Hbs s'.
  pose proof (vi_tab _ _ _ _ _ Hvm) as Hinv.
  destruct (accessible_owner own l roots root lim va s Hvm Hroot Hul Hva Ha) as [Hown Hpa].
  set (pa := PTE2PA (leaf (k_mem s) root va)) in *.
  assert (forall b, ~ in_page pa b -> rd (k_mem s') b = rd (k_mem s) b) as Hag.
  { intros b Hb. cbn. rewrite rd_wr_bytes, decide_False; [done|]. intros Hin. apply Hb.
    rewrite PGROUNDDOWN_eq in *. unfold in_page, PGSIZE in *. divlia. }
  assert (leaves_same roots (k_mem s) (k_mem s')) as Hsame.
  { intros root' lim' v Hr'. eapply (leaf_agree end_ own l roots s); [done..|].
    intros t q b Ht Hb. apply Hag. apply (own_disjoint end_ own l roots s t pa); eauto. congruence. }
  split_and!; [split| |].
  - by apply (tab_inv_write _ end_pos own l roots s _ pa (RUser root (PGROUNDDOWN va))).
  - intros root' lim' v Hr' Hv. rewrite (Hsame root' lim') by done. by apply (vi_leaf _ _ _ _ _ Hvm).
  - intros root' v p Hp. destruct (vi_user _ _ _ _ _ Hvm _ _ _ Hp) as (lim' & Hr' & H).
    exists lim'. by rewrite (Hsame root' lim').
  - done.
  - intros root' lim' v Hr' Hv Hv' HV. unfold ubyte. rewrite (Hsame root' lim') by done.
    destruct (user_page end_ own l roots s root' lim' v) as [Hu Hin]; [done..|lia|lia|done|].
    destruct (decide (root' = root /\ PGROUNDDOWN v = PGROUNDDOWN va)) as [[-> Epg]|Hother].
    + rewrite (leaf_page _ _ v va) by done. fold pa. cbn. rewrite rd_wr_bytes.
      rewrite !PGROUNDDOWN_eq in *.
      assert (pa + (va - (va - va mod PGSIZE)) = pa + v mod PGSIZE - (v - va)) as ->
        by (unfold PGSIZE in *; divlia).
      destruct (decide (va <= v < va + Z.of_nat (length bs))) as [Hr|Hr].
      * rewrite !decide_True by (done || lia).
        replace (pa + v mod PGSIZE - (pa + v mod PGSIZE - (v - va))) with (v - va) by lia.
        apply u8_small. destruct (bs !! Z.to_nat (v - va)) as [x|] eqn:E; [|done].
        rewrite Forall_forall in Hbs. by eapply Hbs, list_elem_of_lookup_2.
      * rewrite !decide_False; [done| |lia]. by intros [_ ?].
    + assert (PTE2PA (leaf (k_mem s) root' v) <> pa).
      { intros E. rewrite E, Hown in Hu. injection Hu as ? ?. by apply Hother. }
      rewrite Hag by (by apply (own_disjoint end_ own l roots s (PTE2PA (leaf (k_mem s) root' v)) pa); eauto).
      rewrite decide_False; [done|]. intros [-> Hv2]. apply Hother. split; [done|].
      rewrite !PGROUNDDOWN_eq in *. unfold PGSIZE in *. divlia.
Qed.

(** The user bytes of [root] at [va], ... are [bs] now, all others as before. *)
Definition user_written roots m m' (root va : Z) (bs : list Z) : Prop :=
  forall root' lim' v, roots !! root' = Some lim' -> 0 <= v < lim' -> v < MAXVA ->
    has (leaf m root' v) PTE_V = true ->
    ubyte m' root' v =
    if decide (root' = root /\ va <= v < va + Z.of_nat (length bs))
    then default 0 (bs !! Z.to_nat (v - va)) else ubyte m root' v.

Lemma user_written_nil roots m root va : user_written roots m m root va [].
Proof. intros root' lim' v _ _ _ _. rewrite decide_False by (simpl; lia). done. Qed.

Lemma user_written_app roots m m1 m2 root va bs1 bs2 :
  leaves_same roots m m1 -> user_written roots m m1 root va bs1 ->
  user_written roots m1 m2 root (va + Z.of_nat (length bs1)) bs2 ->
  user_written roots m m2 root va (bs1 ++ bs2).
Proof.
  intros L W1 W2 root' lim' v Hr Hv Hv' HV.
  rewrite (W2 root' lim') by (rewrite ?(L root' lim') by done; done).
  rewrite (W1 root' lim') by done. rewrite length_app.
  repeat case_decide; try lia; try done; try tauto.
  - rewrite lookup_app_r by lia. do 2 f_equal. lia.
  - by rewrite lookup_app_l by lia.
Qed.

Lemma wp_copyout_loop own l roots root lim :
  roots !! root = Some lim -> ulimit lim ->
  forall fuel va src len Q s, vm_inv own l roots s -> 0 <= va -> Z.of_nat (length src) = len ->
  Forall is_u8 src ->
  len <= 0 \/ (va mod PGSIZE + len + PGSIZE - 1) / PGSIZE < Z.of_nat fuel + 1 ->
  (forall n s', 0 <= n <= len -> vm_inv own l roots s' -> k_lk s' = k_lk s ->
     leaves_same roots (k_mem s) (k_mem s') ->
     (forall v, va <= v < va + n -> accessible (k_mem s) root v) ->
     (n < len -> ~ accessible (k_mem s) root (va + n)) ->
     user_written roots (k_mem s) (k_mem s') root va (take (Z.to_nat n) src) ->
     Q (if decide (n = len) then 0 else -1) s') ->
  wp (copyout_loop fuel root va src len) Q s.
Proof.
  intros Hroot Hul. induction fuel as [|fuel IH]; intros va src len Q s Hvm Hva Hlen Hsrc Hf HQ.
  all: assert (len = 0 -> Q 0 s) as Hzero by
    (intros ->; apply (HQ 0 s); try done; try lia; apply user_written_nil).
  { assert (len = 0) as -> by (unfold PGSIZE in *; divlia). by apply Hzero. }
  destruct (decide (len = 0)) as [->|Hne]; [by apply Hzero|].
  cbn [copyout_loop]. rewrite (proj2 (Z.ltb_lt _ _)) by lia.
  destruct (page_part_bounds va len) as (P1 & P2 & P3); [lia|].
  mstep. eapply wp_run; [by eapply walkaddr_page|]. case_decide as Ha.
  2: { null_case. mstep. replace (-1) with (if decide (0 = len) then 0 else -1)
         by (rewrite decide_False; lia). apply HQ; try done; try lia; [|apply user_written_nil].
       by rewrite Z.add_0_r. }
  destruct (accessible_owner own l roots root lim va s Hvm Hroot Hul Hva Ha) as [_ Hpa].
  nonnull_case. unfold mem_update. mstep. mstep. set (n0 := page_part va len) in *.
  assert (length (take (Z.to_nat n0) src) = Z.to_nat n0) as Htl by (rewrite length_take; lia).
  destruct (write_user own l roots s root lim va (take (Z.to_nat n0) src)) as (Hvm1 & L1 & W1);
    [done..|rewrite Htl; lia|by apply Forall_take|].
  revert Hvm1 L1 W1. match goal with |- context [wp _ _ ?x] =>
    assert (k_lk x = k_lk s) as Hk by done; revert Hk; generalize x end.
  intros s1 Hk Hvm1 L1 W1.
  pose proof (copy_bound_round va len fuel Hva ltac:(lia) ltac:(lia)) as Hround. cbn zeta in Hround. fold n0 in Hround.
  apply IH.
  { done. }
  { rewrite PGROUNDDOWN_eq; unfold PGSIZE. clear -Hva. divlia. }
  { rewrite length_drop. lia. }
  { by apply Forall_drop. }
  { exact Hround. }
  assert (forall v, accessible (k_mem s1) root v <-> accessible (k_mem s) root v) as Eacc.
  { intros v. unfold accessible. by rewrite (L1 root lim). }
  intros n s2 Hn Hvm2 Hk2 L2 Hacc Hnacc W2.
  replace (if decide (n = len - n0) then 0 else -1) with (if decide (n0 + n = len) then 0 else -1)
    by (repeat case_decide; lia).
  apply HQ; [lia|done|congruence|by eapply leaves_same_trans|..].
  - intros v Hv. destruct (decide (v < va + n0)); [|apply Eacc, Hacc; lia].
    apply (accessible_part _ _ va len); [done|lia..].
  - intros Hlt. rewrite P3 in Hnacc by lia. rewrite Z.add_assoc, <- Eacc. apply Hnacc. lia.
  - rewrite Z2Nat.inj_add, <- take_take_drop by lia.
    eapply user_written_app; [done..|]. rewrite Htl, Z2Nat.id by lia.
    destruct (decide (n0 < len)); [by rewrite <- P3|].
    assert (n = 0) as -> by lia. intros root' lim' v Hr Hv Hv' HV.
    rewrite (W2 root' lim') by done. rewrite !decide_False; [done|simpl; lia..].
Qed.

Lemma wp_copyout own l roots root lim va src s :
  roots !! root = Some lim -> ulimit lim -> vm_inv own l roots s -> 0 <= va -> Forall is_u8 src ->
  let len := Z.of_nat (length src) in
  wp (copyout root va src len) (fun r s' =>
    vm_inv own l roots s' /\ k_lk s' = k_lk s /\ leaves_same roots (k_mem s) (k_mem s') /\
    exists n, 0 <= n <= len /\
      user_written roots (k_mem s) (k_mem s') root va (take (Z.to_nat n) src) /\
      (forall v, va <= v < va + n -> accessible (k_mem s) root v) /\
      (r = 0 /\ n = len \/ r = -1 /\ ~ accessible (k_mem s) root (va + n))) s.
Proof.
  intros Hroot Hul Hvm Hva Hsrc len.
  apply (wp_copyout_loop own l roots root lim); try done.
  { right. apply copy_bound_enough; lia. }
  intros n s' Hn Hvm' Hk L Hacc Hnacc W. split_and!; [done..|]. exists n. split_and!; try done; try lia.
  case_decide; [by left|]. right. split; [done|]. apply Hnacc. lia.
Qed.

(** C20: copyout writes the bytes to exactly the user addresses it is given and
    to no other byte of any process, as far as the addresses are accessible to
    the user; it returns 0 if all are and -1 at the first one that is not. *)
Theorem copyout_correct own l roots root lim va src s :
  roots !! root = Some lim -> ulimit lim -> vm_inv own l roots s -> 0 <= va -> Forall is_u8 src ->
  let len := Z.of_nat (length src) in
  wp (copyout root va src len) (fun r s' =>
    vm_inv own l roots s' /\ k_lk s' = k_lk s /\ leaves_same roots (k_mem s) (k_mem s') /\
    exists n, 0 <= n <= len /\
      user_written roots (k_mem s) (k_mem s') root va (take (Z.to_nat n) src) /\
      (forall v, va <= v < va + n -> accessible (k_mem s) root v) /\
      (r = 0 /\ n = len \/ r = -1 /\ ~ accessible (k_mem s) root (va + n))) s.
Proof. apply wp_copyout. Qed.

End vm_copy.

(** ** Instances at the small address space of VmUser *)

Lemma copyout_correct_witness : exists own l roots,
  vm_inv 2147483648 own l roots demo /\
  wp (copyout demo_old 4094 [1; 2; 3] 3)
    (fun r s' => exists n, 0 <= n <= 3 /\
       user_written roots (k_mem demo) (k_mem s') demo_old 4094 (take (Z.to_nat n) [1; 2; 3]) /\
       (r = 0 /\ n = 3 \/ r = -1)) demo.
Proof.
  destruct demo_inv as (own & l & roots & Hvm & Hr & Hold & Hnew & Hleaf & Hno & _).
  exists own, l, roots. split; [done|]. eapply wp_mono.
  - apply (copyout_correct 2147483648 ltac:(lia) own l roots demo_old TRAPFRAME 4094 [1; 2; 3] demo);
      [done|apply TRAPFRAME_ulimit|done|lia|].
    repeat constructor; unfold is_u8; lia.
  - intros r s' (_ & _ & _ & n & Hn & W & _ & H). exists n. split; [done|]. split; [done|]. destruct H as [H|[H _]]; [by left|by right].
Defined.

Lemma copyinstr_correct_witness :
  exists dst, copyinstr demo_old 4096 10 demo = Ret (-1, dst) demo.
Proof.
  destruct demo_inv as (own & l & roots & Hvm & Hr & Hold & Hnew & Hleaf & Hno & _).
  destruct (copyinstr_correct 2147483648 ltac:(lia) own l roots demo_old TRAPFRAME 4096 10 demo)
    as [(n & Hn & (Hacc & _) & _)|(dst & E & _)]; [done|done|apply TRAPFRAME_ulimit|lia|lia|..].
  - destruct (Hacc 4096 ltac:(lia)) as (_ & HV & _). rewrite Hno in HV; [done|].
    change MAXVA with 274877906944. lia.
  - by exists dst.
Defined.
