(* ===== verification/VmTyped.v ===== *)
(** * Physical memory stays well typed

    Each page of physical memory has a type: free, a node of one page table, or
    a page of one user address space.  A process's address space of size [sz]
    maps exactly the pages below [sz].  This file composes the operations of
    vm.c in the order proc.c, exec.c and the system calls use them (create,
    grow, shrink, copy for fork, copyout, free) and shows that any sequence of
    them, on any number of address spaces, runs without panic and keeps this
    typing. *)

From Stdlib Require Import ZArith Lia.
From stdpp Require Import base list gmap strings.
From S2P Require Import Prelude KString Spinlock Riscv Kalloc Vm VmInv VmProofs VmUser VmFree VmCopy.

Module VmTyped.

(** The live address spaces: the size of each, by its root page table. *)
Abbreviation spaces := (gmap Z Z).

Section typed.
Context (end_ : Z) (end_pos : 0 < end_).

(** An address space of [sz] bytes maps the pages below [sz] and no other. *)
Record space_ok (m : memory) (root sz : Z) : Prop := {
  so_size : 0 <= sz <= TRAPFRAME;
  so_in : forall v, 0 <= v < PGROUNDUP sz -> is_leaf (leaf m root v);
  so_out : forall v, PGROUNDUP sz <= v < 2 * MAXVA -> has (leaf m root v) PTE_V = false;
}.

(** The bounds of the page tables of [sp]. *)
Definition limits (sp : spaces) : gmap Z Z := (fun _ => TRAPFRAME) <$> sp.

(** The typing of memory by the owners [own]: [pages] are all the pages there
    are, none is lost, none is held by nobody, and the live page tables are
    those of [sp]. *)
Record typing (own : owners) (l pages : list Z) (sp : spaces) (s : kmst) : Prop := {
  ty_vm : vm_inv end_ own l (limits sp) s;
  ty_ready : kmem_ready s;
  ty_pages : forall p, p ∈ pages -> is_Some (own !! p);
  ty_held : forall p, own !! p <> Some RHeld;
  ty_space : map_Forall (space_ok (k_mem s)) sp;
}.

Definition typed (pages : list Z) (sp : spaces) (s : kmst) : Prop :=
  exists own l, typing own l pages sp s.

(** What the kernel does with address spaces: allocproc makes one, growproc
    grows and shrinks it, fork copies it, freeproc and exec free it, and the
    system calls write to it. *)
Inductive vop :=
| Create
| Grow (root n : Z)
| Shrink (root n : Z)
| Copy (root : Z)
| Write (root va : Z) (bytes : list Z)
| Free (root : Z).

(** Requests that the callers rule out (an address space that does not exist,
    a size beyond the trap frame, a growth that shrinks) are skipped. *)
Definition vstep (o : vop) (sp : spaces) : M kmst spaces :=
  match o with
  | Create =>
      r ← uvmcreate;
      mret (if r =? 0 then sp else <[r := 0]> sp)
  | Grow root n =>
      match sp !! root with
      | Some sz =>
          if (sz <=? n) && (n <=? TRAPFRAME) then
            r ← uvmalloc end_ root sz n;
            mret (if r =? 0 then sp else <[root := n]> sp)
          else mret sp
      | None => mret sp
      end
  | Shrink root n =>
      match sp !! root with
      | Some sz =>
          if (0 <=? n) && (n <=? sz) then
            r ← uvmdealloc end_ root sz n;
            mret (<[root := r]> sp)
          else mret sp
      | None => mret sp
      end
  | Copy root =>
      match sp !! root with
      | Some sz =>
          new ← uvmcreate;
          if new =? 0 then mret sp else
          r ← uvmcopy end_ root new sz;
          if r <? 0 then
            uvmfree end_ new 0;;
            mret sp
          else mret (<[new := sz]> sp)
      | None => mret sp
      end
  | Write root va bytes =>
      match sp !! root with
      | Some _ =>
          if (0 <=? va) && forallb (fun b => (0 <=? b) && (b <? 256)) bytes then
            copyout root va bytes (Z.of_nat (length bytes));;
            mret sp
          else mret sp
      | None => mret sp
      end
  | Free root =>
      match sp !! root with
      | Some sz =>
          uvmfree end_ root sz;;
          mret (delete root sp)
      | None => mret sp
      end
  end.

Fixpoint vsteps (os : list vop) (sp : spaces) : M kmst spaces :=
  match os with
  | [] => mret sp
  | o :: os =>
      sp' ← vstep o sp;
      vsteps os sp'
  end.

(** ** Address spaces under the operations *)

Lemma space_ok_same m m' root sz :
  (forall v, 0 <= v < 2 * MAXVA -> pte m' root v = pte m root v) -> space_ok m root sz -> space_ok m' root sz.
Proof.
  intros Hs [H1 H2 H3]. assert (0 <= PGROUNDUP sz <= MAXVA) as Hb.
  { destruct (PGROUNDUP_bounds sz TRAPFRAME) as (? & _ & ?); [lia|apply TRAPFRAME_ulimit|].
    pose proof TRAPFRAME_ulimit as [? _]. lia. }
  split; [done|..]; intros v Hv.
  - assert (has (leaf m' root v) PTE_V = true) as HV.
    { rewrite <- has_pte_V, Hs, has_pte_V by lia. by apply H2. }
    destruct (pte_leaf _ _ _ _ (Hs v ltac:(lia)) HV) as [_ ->]. by apply H2.
  - rewrite <- has_pte_V, Hs, has_pte_V by lia. by apply H3.
Qed.

Lemma limits_lookup sp root lim : limits sp !! root = Some lim <-> lim = TRAPFRAME /\ is_Some (sp !! root).
Proof. unfold limits. rewrite lookup_fmap. destruct (sp !! root); simpl; split; naive_solver. Qed.

Lemma limits_root sp root sz : sp !! root = Some sz -> limits sp !! root = Some TRAPFRAME.
Proof. intros H. apply limits_lookup. eauto. Qed.

Lemma limits_insert sp root sz : limits (<[root := sz]> sp) = <[root := TRAPFRAME]> (limits sp).
Proof. apply fmap_insert. Qed.

Lemma limits_update sp root sz sz' : sp !! root = Some sz -> limits (<[root := sz']> sp) = limits sp.
Proof. intros H. rewrite limits_insert. eapply insert_id, limits_root, H. Qed.

(** The root of a live page table is not a free page. *)
Lemma typing_root own l pages sp s root : typing own l pages sp s -> is_Some (sp !! root) -> root ∉ l.
Proof.
  intros T [sz H] Hl. pose proof (vi_tab _ _ _ _ _ (ty_vm _ _ _ _ _ T)) as Ht.
  apply (ti_list _ _ _ _ _ Ht) in Hl.
  assert (own !! root = Some (RTable root [])) as E; [|congruence].
  apply (ti_tables _ _ _ _ _ Ht). split_and!; [eapply mk_is_Some, limits_root, H| |done].
  split; [simpl; lia|constructor].
Qed.

Lemma space_bounds m root sz : space_ok m root sz ->
  0 <= PGROUNDUP sz <= TRAPFRAME /\ TRAPFRAME <= MAXVA.
Proof.
  intros [H _ _]. pose proof TRAPFRAME_ulimit as Hu. destruct (PGROUNDUP_bounds sz TRAPFRAME H Hu).
  destruct Hu. lia.
Qed.

Lemma PGROUNDUP_mono sz n : 0 <= sz <= n -> n <= TRAPFRAME -> 0 <= PGROUNDUP sz <= PGROUNDUP n.
Proof.
  intros H Hn. pose proof TRAPFRAME_ulimit as [Hu _]. rewrite MAXVA_eq in Hu.
  rewrite !PGROUNDUP_eq by (unfold PGSIZE in *; lia). unfold PGSIZE. divlia.
Qed.

(** A growth from [sz] to [n], or the one that was undone, [n = sz]. *)
Lemma typed_alloc pages own l own' l' sp s s' root sz n fl f :
  typing own l pages sp s -> sp !! root = Some sz -> sz <= n <= TRAPFRAME ->
  (forall v, PGROUNDUP sz <= v < PGROUNDUP n -> fl v <> PTE_V) ->
  vm_inv end_ own' l' (limits sp) s' ->
  allocated (limits sp) own s own' s' root (PGROUNDUP sz) (PGROUNDUP n) fl f ->
  typed pages (<[root := n]> sp) s'.
Proof.
  intros [Hvm Hr Hp Hh Hsp] Hroot Hn Hfl Hvm' A. pose proof (Hsp _ _ Hroot) as Hok.
  pose proof (space_bounds _ _ _ Hok) as Hb.
  pose proof (PGROUNDUP_mono sz n ltac:(destruct Hok; lia) ltac:(lia)) as Hm.
  exists own', l'. split.
  - by erewrite limits_update.
  - by eapply allocated_ready.
  - intros p ?. destruct (al_le _ _ _ _ _ _ _ _ _ _ A) as (_ & _ & _ & Hd). auto.
  - intros p Hp'. destruct (al_data _ _ _ _ _ _ _ _ _ _ A p _ Hp' I) as [H|(v & H & _)]; [by eapply Hh|done].
  - apply map_Forall_lookup. intros root' sz' [[<- <-]|[Hne Hs]]%lookup_insert_Some.
    + destruct Hok as [H1 H2 H3]. split; [lia|..]; intros v Hv.
      * destruct (decide (v < PGROUNDUP sz)) as [Hlt|Hge].
        -- assert (pte (k_mem s') root v = pte (k_mem s) root v) as E.
           { apply (al_pte _ _ _ _ _ _ _ _ _ _ A root TRAPFRAME); [by eapply limits_root|lia|lia]. }
           destruct (H2 v) as [HV HF]; [lia|]. destruct (pte_leaf _ _ _ _ E) as [_ ->]; [|done].
           by rewrite <- has_pte_V, E, has_pte_V.
        -- destruct (al_new _ _ _ _ _ _ _ _ _ _ A v) as (HV & HF & _); [lia|].
           split; [done|]. rewrite HF. apply Hfl. lia.
      * rewrite <- has_pte_V, (al_pte _ _ _ _ _ _ _ _ _ _ A root TRAPFRAME), has_pte_V;
          [|by eapply limits_root|lia|lia].
        apply H3. lia.
    + eapply space_ok_same; [|by apply Hsp]. intros v Hv.
      apply (al_pte _ _ _ _ _ _ _ _ _ _ A root' TRAPFRAME); [by eapply limits_root|done|naive_solver].
Qed.

Lemma typed_create pages own sp s r l' s' :
  typing own (r :: l') pages sp s -> k_lk s' ≈ k_lk s ->
  vm_inv end_ (<[r := RTable r []]> own) l' (<[r := TRAPFRAME]> (limits sp)) s' ->
  leaves_same (limits sp) (k_mem s) (k_mem s') -> (forall va, leaf (k_mem s') r va = 0) ->
  sp !! r = None /\ typing (<[r := RTable r []]> own) l' pages (<[r := 0]> sp) s'.
Proof.
  intros T Hlk Hvm' Hsame Hzero.
  assert (sp !! r = None) as Hnew.
  { apply eq_None_not_Some. intros Hs. apply (typing_root _ _ _ _ _ r T Hs). by left. }
  destruct T as [Hvm Hr Hp Hh Hsp]. split; [done|]. split.
  - by rewrite limits_insert.
  - destruct Hr. unfold kmem_ready. by rewrite Hlk.
  - intros p ?. apply lookup_insert_is_Some'. right. by apply Hp.
  - intros p [[_ ?]|[_ ?]]%lookup_insert_Some; [done|by eapply Hh].
  - apply map_Forall_insert_2.
    + split; [by vm_compute; split|change (PGROUNDUP 0) with 0; lia|]. intros v _. by rewrite Hzero.
    + intros root sz Hs. eapply space_ok_same; [|by apply Hsp]. intros v _.
      unfold pte. by rewrite (Hsame root TRAPFRAME) by by eapply limits_root.
Qed.

Lemma typed_free pages own l own' l' sp s s' root :
  typing own l pages sp s -> vm_inv end_ own' l' (delete root (limits sp)) s' ->
  (forall p r, own !! p = Some r -> own' !! p = Some (release_role root r)) ->
  (forall p r, own' !! p = Some r -> r <> RFree -> own !! p = Some r) ->
  (forall root' lim' v, delete root (limits sp) !! root' = Some lim' -> 0 <= v < 2 * MAXVA ->
     leaf (k_mem s') root' v = leaf (k_mem s) root' v) ->
  k_lk s' ≈ k_lk s -> typed pages (delete root sp) s'.
Proof.
  intros [Hvm Hr Hp Hh Hsp] Hvm' Ho Ho' Hl Hlk. exists own', l'. split.
  - unfold limits in *. by rewrite fmap_delete.
  - destruct Hr. unfold kmem_ready. by rewrite Hlk.
  - intros p Hin. destruct (Hp p Hin) as [r ?]. eauto.
  - intros p H. eapply Hh, Ho'; [exact H|done].
  - apply map_Forall_lookup. intros root' sz Hs. pose proof Hs as [Hne Hs']%lookup_delete_Some.
    eapply space_ok_same; [|by apply Hsp]. intros v Hv. unfold pte.
    rewrite (Hl root' TRAPFRAME); [done| |done]. apply lookup_delete_Some. split; [done|by eapply limits_root].
Qed.

Lemma typed_dealloc pages own l own' l' sp s s' root sz n :
  typing own l pages sp s -> sp !! root = Some sz -> 0 <= n <= sz ->
  vm_inv end_ own' l' (limits sp) s' ->
  unmapped (limits sp) own s own' s' root (PGROUNDUP n) (PGROUNDUP sz) ->
  typed pages (<[root := n]> sp) s'.
Proof.
  intros [Hvm Hr Hp Hh Hsp] Hroot Hn Hvm' U. pose proof (Hsp _ _ Hroot) as Hok.
  pose proof (space_bounds _ _ _ Hok) as Hb. pose proof (so_size _ _ _ Hok) as Hsz.
  pose proof (PGROUNDUP_mono n sz ltac:(lia) ltac:(lia)) as Hm.
  exists own', l'. split.
  - by erewrite limits_update.
  - destruct Hr. unfold kmem_ready. by rewrite (um_lk _ _ _ _ _ _ _ _ U).
  - intros p ?. eapply unmapped_dom; [done|by apply Hp].
  - intros p H. eapply Hh, (um_new _ _ _ _ _ _ _ _ U); [exact H|done].
  - apply map_Forall_lookup. intros root' sz' [[<- <-]|[Hne Hs]]%lookup_insert_Some.
    + destruct Hok as [H1 H2 H3]. split; [lia|..]; intros v Hv;
        rewrite (um_leaf _ _ _ _ _ _ _ _ U root TRAPFRAME) by (by eapply limits_root || lia).
      * rewrite decide_False by lia. apply H2. lia.
      * case_decide as Hd; [done|]. apply H3. lia.
    + eapply space_ok_same; [|by apply Hsp]. intros v Hv. unfold pte.
      rewrite (um_leaf _ _ _ _ _ _ _ _ U root' TRAPFRAME) by (by eapply limits_root || lia).
      rewrite decide_False; [done|naive_solver].
Qed.

(** ** Every step keeps the typing *)

Lemma wp_create pages own l sp s Q :
  typing own l pages sp s ->
  (forall s', typed pages sp s' -> Q 0 s') ->
  (forall r s', r <> 0 -> sp !! r = None -> typed pages (<[r := 0]> sp) s' -> Q r s') ->
  wp uvmcreate Q s.
Proof.
  intros T H0 H1. pose proof T as [Hvm Hr Hp Hh Hsp].
  apply (wp_uvmcreate end_ end_pos own l (limits sp) TRAPFRAME); [done|done|..].
  - intros s' -> Em Hlk Hvm'. apply H0. exists own, []. split; try done.
    + destruct Hr. unfold kmem_ready. by rewrite Hlk.
    + by rewrite Em.
  - intros r l' s' -> Hr0 Hlk Hvm' Hsame Hzero _.
    destruct (typed_create pages own sp s r l' s') as [Hn T']; try done. apply H1; [done..|]. by do 2 eexists.
Qed.

Lemma wp_space_free pages own l sp s root sz Q :
  typing own l pages sp s -> sp !! root = Some sz ->
  (forall s', typed pages (delete root sp) s' -> Q tt s') ->
  wp (uvmfree end_ root sz) Q s.
Proof.
  intros T Hs HQ. pose proof T as [Hvm Hr Hp Hh Hsp]. destruct (Hsp _ _ Hs) as [H1 H2 H3].
  eapply wp_mono.
  - apply (wp_uvmfree end_ end_pos own l (limits sp) root TRAPFRAME); try done.
    by eapply limits_root.
  - intros [] s' (own' & l' & Hvm' & A & B & _ & C & D). apply HQ. by eapply typed_free.
Qed.

Lemma wp_copy pages own l sp s root sz :
  typing own l pages sp s -> sp !! root = Some sz ->
  wp (vstep (Copy root) sp) (typed pages) s.
Proof.
  intros T Hs. cbn [vstep]. rewrite Hs. mstep.
  eapply wp_create; [done|intros s1 T1; by null_case; mstep|].
  intros new s1 Hn Hnew (own1 & l1 & T1). nonnull_case. mstep.
  pose proof T1 as [Hvm Hr Hp Hh Hsp].
  assert (root <> new) as Hne by congruence.
  assert (<[new := 0]> sp !! root = Some sz) as Hs1 by by rewrite lookup_insert_ne.
  assert (<[new := 0]> sp !! new = Some 0) as Hn1 by by rewrite lookup_insert_eq.
  pose proof (Hsp _ _ Hs1) as [A1 A2 A3]. pose proof (Hsp _ _ Hn1) as [B1 B2 B3].
  pose proof (space_bounds _ _ _ (Hsp _ _ Hs1)) as Hb.
  eapply wp_mono.
  - apply (wp_uvmcopy end_ end_pos own1 l1 (limits (<[new := 0]> sp)) root new TRAPFRAME TRAPFRAME);
      try done; try by eapply limits_root; try apply TRAPFRAME_ulimit; try lia.
    intros v Hv. apply B3. change (PGROUNDUP 0) with 0. lia.
  - intros r s2 (own2 & l2 & Hvm2 & [[-> A]|[-> A]]).
    + change (0 <? 0) with false. cbv iota. mstep. rewrite <- (insert_insert_eq sp new sz 0).
      eapply (typed_alloc pages own1 l1 own2 l2 (<[new := 0]> sp) s1 s2 new 0 sz); try done.
      intros v Hv. by apply A2.
    + change (-1 <? 0) with true. cbv iota. mstep.
      eapply (typed_alloc pages own1 l1 own2 l2 (<[new := 0]> sp) s1 s2 new 0 0) in A; try done.
      * rewrite insert_insert_eq in A. destruct A as (own3 & l3 & T3).
        eapply wp_space_free; [done|by rewrite lookup_insert_eq|]. intros s3 T4. mstep.
        by rewrite delete_insert_id in T4.
      * intros v Hv. lia.
Qed.

Lemma wp_grow pages own l sp s root sz n :
  typing own l pages sp s -> sp !! root = Some sz -> sz <= n <= TRAPFRAME ->
  wp (uvmalloc end_ root sz n)
    (fun r => typed pages (if r =? 0 then sp else <[root := n]> sp)) s.
Proof.
  intros T Hs Hn. pose proof T as [Hvm Hr Hp Hh Hsp]. pose proof (Hsp _ _ Hs) as [A1 A2 A3].
  pose proof (PGROUNDUP_mono sz n ltac:(lia) ltac:(lia)) as Hm.
  pose proof (PGROUNDUP_bounds n TRAPFRAME ltac:(lia) TRAPFRAME_ulimit) as (Hb & _ & _).
  pose proof TRAPFRAME_ulimit as [Hu _].
  eapply wp_mono.
  - apply (wp_uvmalloc end_ end_pos own l (limits sp) root TRAPFRAME); try done; try lia.
    + by eapply limits_root.
    + intros v Hv. apply A3. lia.
  - intros r s' (own' & l' & Hvm' & [[-> A]|[-> A]]).
    + assert (typed pages (<[root := n]> sp) s') as T'.
      { eapply typed_alloc; [done..| |done|exact A]. intros v _. vm_compute. discriminate. }
      destruct (Z.eqb_spec n 0) as [->|]; [|done].
      assert (sz = 0) as -> by lia. by rewrite insert_id in T'.
    + null_case. rewrite <- (insert_id sp root sz) by done.
      eapply typed_alloc; [done..|lia| |done|exact A]. lia.
Qed.

Lemma wp_shrink pages own l sp s root sz n :
  typing own l pages sp s -> sp !! root = Some sz -> 0 <= n <= sz ->
  wp (uvmdealloc end_ root sz n) (fun r => typed pages (<[root := r]> sp)) s.
Proof.
  intros T Hs Hn. pose proof T as [Hvm Hr Hp Hh Hsp]. pose proof (Hsp _ _ Hs) as [A1 A2 A3].
  pose proof (PGROUNDUP_mono n sz ltac:(lia) ltac:(lia)) as Hm.
  apply (wp_uvmdealloc end_ end_pos own l (limits sp) root TRAPFRAME); try done; try lia.
  - by eapply limits_root.
  - intros v Hv. apply A2. lia.
  - intros own' l' s' Hvm' U. by eapply typed_dealloc.
Qed.

Lemma wp_write pages own l sp s root sz va bs :
  typing own l pages sp s -> sp !! root = Some sz -> 0 <= va -> Forall is_u8 bs ->
  wp (copyout root va bs (Z.of_nat (length bs))) (fun _ => typed pages sp) s.
Proof.
  intros T Hs Hva Hbs. pose proof T as [Hvm Hr Hp Hh Hsp]. eapply wp_mono.
  - apply (wp_copyout end_ end_pos own l (limits sp) root TRAPFRAME); try done. by eapply limits_root.
  - intros r s' (Hvm' & Hk & Hsame & _). exists own, l. split; try done.
    + destruct Hr. unfold kmem_ready. by rewrite Hk.
    + intros root' sz' Hs'. eapply space_ok_same; [|by apply Hsp]. intros v _.
      unfold pte. by rewrite (Hsame root' TRAPFRAME) by by eapply limits_root.
Qed.

Lemma wp_vstep pages o sp s : typed pages sp s -> wp (vstep o sp) (typed pages) s.
Proof.
  intros (own & l & T).
  assert (wp (mret sp) (typed pages) s) as Hskip by (mstep; by exists own, l).
  destruct o as [|root n|root n|root|root va bs|root]; [|destruct (sp !! root) as [sz|] eqn:Hs..].
  1: { cbn [vstep]. mstep. eapply wp_create; [done|..]; intros.
       - null_case. by mstep.
       - nonnull_case. by mstep. }
  all: cbn [vstep]; rewrite ?Hs; try exact Hskip.
  - destruct (_ && _) eqn:E; [|done]. apply andb_true_iff in E as [?%Z.leb_le ?%Z.leb_le].
    mstep. eapply wp_mono; [by eapply wp_grow|]. intros r s' T'. by mstep.
  - destruct (_ && _) eqn:E; [|done]. apply andb_true_iff in E as [?%Z.leb_le ?%Z.leb_le].
    mstep. eapply wp_mono; [by eapply wp_shrink|]. intros r s' T'. by mstep.
  - pose proof (wp_copy pages own l sp s root sz T Hs) as H. cbn [vstep] in H. by rewrite Hs in H.
  - destruct (_ && _) eqn:E; [|done]. apply andb_true_iff in E as [?%Z.leb_le Hb].
    mstep. eapply wp_mono; [eapply wp_write; [done..|]|]; [|intros r s' T'; by mstep].
    apply Forall_forall. intros b Hin. rewrite List.forallb_forall in Hb.
    specialize (Hb b (proj1 (list_elem_of_In _ _) Hin)). unfold is_u8. lia.
  - mstep. eapply wp_space_free; [done..|]. intros s' T'. by mstep.
Qed.

(** ** What the typing says *)

(** No two live address spaces share a page of physical memory, and none maps a
    page twice. *)
Definition isolated (sp : spaces) (s : kmst) : Prop := forall root1 sz1 v1 root2 sz2 v2,
  sp !! root1 = Some sz1 -> sp !! root2 = Some sz2 -> 0 <= v1 < sz1 -> 0 <= v2 < sz2 ->
  PTE2PA (leaf (k_mem s) root1 v1) = PTE2PA (leaf (k_mem s) root2 v2) ->
  root1 = root2 /\ PGROUNDDOWN v1 = PGROUNDDOWN v2.

Lemma typing_page own l pages sp s root sz v :
  typing own l pages sp s -> sp !! root = Some sz -> 0 <= v < sz ->
  own !! PTE2PA (leaf (k_mem s) root v) = Some (RUser root (PGROUNDDOWN v)).
Proof.
  intros T Hs Hv. pose proof (ty_space _ _ _ _ _ T _ _ Hs) as Hok.
  pose proof (space_bounds _ _ _ Hok). destruct Hok as [A1 A2 A3].
  pose proof (PGROUNDUP_bounds sz TRAPFRAME A1 TRAPFRAME_ulimit) as (Hb & _ & _).
  apply (vi_leaf _ _ _ _ _ (ty_vm _ _ _ _ _ T) root TRAPFRAME);
    [by eapply limits_root|lia|apply A2; lia|lia].
Qed.

Lemma typed_isolated pages sp s : typed pages sp s -> isolated sp s.
Proof.
  intros (own & l & T) root1 sz1 v1 root2 sz2 v2 H1 H2 Hv1 Hv2 E.
  pose proof (typing_page _ _ _ _ _ _ _ _ T H1 Hv1) as P1.
  pose proof (typing_page _ _ _ _ _ _ _ _ T H2 Hv2) as P2.
  rewrite E, P2 in P1. by injection P1 as -> ->.
Qed.

(** Once every address space is gone, every page is on the free list. *)
Lemma typed_empty pages s : typed pages ∅ s -> exists l, kmem_inv end_ l s /\ forall p, p ∈ pages -> p ∈ l.
Proof.
  intros (own & l & [Hvm Hr Hp Hh Hsp]). pose proof (vi_tab _ _ _ _ _ Hvm) as Ht.
  exists l. split; [apply Ht|]. intros p Hin. apply (ti_list _ _ _ _ _ Ht).
  destruct (Hp p Hin) as [[|root q|root v|] Ho]; [done|..|by destruct (Hh p)]; exfalso.
  - apply (ti_tables _ _ _ _ _ Ht) in Ho as ([? H] & _). by apply limits_lookup in H as [_ [? ?]].
  - apply (vi_user _ _ _ _ _ Hvm) in Ho as (? & H & _). by apply limits_lookup in H as [_ [? ?]].
Qed.

(** Memory as kinit leaves it is well typed. *)
Lemma typed_boot pages s : kmem_inv end_ pages s -> kmem_ready s -> typed pages ∅ s.
Proof.
  intros Hk Hr. pose proof (vm_inv_boot end_ pages s Hk) as Hvm.
  pose proof (vi_tab _ _ _ _ _ Hvm) as Ht.
  exists (list_to_map ((fun p => (p, RFree)) <$> pages)), pages. split; [done..| | |by apply map_Forall_empty].
  - intros p Hp. exists RFree. by apply (ti_list _ _ _ _ _ Ht).
  - intros p Hp. apply elem_of_list_to_map_2, list_elem_of_fmap in Hp as (? & [= _ ?] & _).
Qed.

Lemma wp_vsteps pages os sp s : typed pages sp s -> wp (vsteps os sp) (typed pages) s.
Proof.
  revert sp s. induction os as [|o os IH]; intros sp s T; cbn [vsteps]; [by mstep|].
  mstep. eapply wp_mono; [by apply wp_vstep|]. auto.
Qed.

(** C15: any sequence of creations, growths, shrinkings, copies, writes and
    frees of address spaces runs to its end without panic from well typed
    memory, whatever memory runs out on the way, and leaves memory well typed:
    every page has one owner and none is lost, each address space maps exactly
    the pages below its size, no two of them share a page, and when all of them
    have been freed every page is on the free list again. *)
Theorem memory_typed pages os sp s :
  typed pages sp s ->
  wp (vsteps os sp) (fun sp' s' => typed pages sp' s' /\ isolated sp' s' /\
    (sp' = ∅ -> exists l, kmem_inv end_ l s' /\ forall p, p ∈ pages -> p ∈ l)) s.
Proof.
  intros T. eapply wp_mono; [by apply wp_vsteps|]. intros sp' s' T'.
  split_and!; [done|by eapply typed_isolated|]. intros ->. by apply typed_empty.
Qed.

End typed.

(** At boot, with nine free pages: a process is created, grown and forked until
    memory runs out, written to, and everything is freed. *)
Definition life : list vop :=
  [Create; Grow 2147491840 4096; Write 2147491840 4094 [1; 2; 3]; Copy 2147491840;
   Grow 2147491840 1000000; Shrink 2147491840 100; Free 2147491840].

Lemma life_runs :
  match vsteps 2147483648 life ∅ small_heap with
  | Ret sp s => map_to_list sp = [(2147508224, 4096)] /\ ubyte (k_mem s) 2147508224 4095 = 2
  | _ => False
  end.
Proof. vm_compute. by split. Qed.

Lemma memory_typed_witness :
  typed 2147483648 small_pages ∅ small_heap /\
  wp (vsteps 2147483648 (life ++ [Free 2147508224]) ∅) (fun sp' s' =>
    typed 2147483648 small_pages sp' s' /\ isolated sp' s' /\
    (sp' = ∅ -> exists l, kmem_inv 2147483648 l s' /\ forall p, p ∈ small_pages -> p ∈ l)) small_heap.
Proof.
  assert (typed 2147483648 small_pages ∅ small_heap) as T
    by (apply typed_boot; [apply small_heap_inv|apply small_heap_ready]).
  split; [exact T|].
  apply (memory_typed 2147483648 ltac:(lia) small_pages (life ++ [Free 2147508224]) ∅ small_heap T).
Defined.

End VmTyped.
