(* ===== verification/Proc.v ===== *)
(** * kernel/proc.c: processes and the scheduler

    The process table and the part of proc.c that does not use the file system
    (fork, exit, wait and userinit are in ProcLife).  A kernel thread gives up
    the CPU in sched(): the model of a function that does so stops there with
    the outcome [Asleep], and what the C code does after sched() returns is a
    definition of its own ([sleep_back], [yield_back], [sched_back]). *)

From Stdlib Require Import ZArith Lia.
From stdpp Require Import base list gmap strings.
From S2P Require Import Prelude KString Spinlock Riscv Kalloc Vm.

Definition NPROC : nat := 64.
Definition NOFILE : nat := 16.

Inductive procstate := UNUSED | SLEEPING | RUNNABLE | RUNNING | ZOMBIE.

#[global] Instance procstate_eq_dec : EqDecision procstate.
Proof. solve_decision. Defined.

(** What a process sleeps on: the address of an object, by its kind and index. *)
Definition chanid : Type := string * Z.

Record proc := mk_proc {
  p_state : procstate;
  p_parent : option nat;  (* struct proc*, as an index in proc[] *)
  p_chan : option chanid;  (* null or the channel *)
  p_killed : Z;
  p_xstate : Z;
  p_pid : Z;
  p_kstack : Z;
  p_sz : Z;
  p_pagetable : Z;
  p_trapframe : Z;  (* address of the trapframe page *)
  p_context : Z * Z;  (* context.ra and context.sp at the start *)
  p_ofile : list (option nat);  (* struct file*, as indices in ftable *)
  p_cwd : option nat;  (* struct inode*, as an index in icache *)
  p_name : list Z;
  p_intena : bool;  (* sched()'s local, on the kernel stack while switched out *)
}.

Definition set_p_state (x : procstate) (p : proc) : proc :=
  mk_proc x (p_parent p) (p_chan p) (p_killed p) (p_xstate p) (p_pid p) (p_kstack p) (p_sz p) (p_pagetable p) (p_trapframe p) (p_context p) (p_ofile p) (p_cwd p) (p_name p) (p_intena p).
Definition set_p_parent (x : option nat) (p : proc) : proc :=
  mk_proc (p_state p) x (p_chan p) (p_killed p) (p_xstate p) (p_pid p) (p_kstack p) (p_sz p) (p_pagetable p) (p_trapframe p) (p_context p) (p_ofile p) (p_cwd p) (p_name p) (p_intena p).
Definition set_p_chan (x : option chanid) (p : proc) : proc :=
  mk_proc (p_state p) (p_parent p) x (p_killed p) (p_xstate p) (p_pid p) (p_kstack p) (p_sz p) (p_pagetable p) (p_trapframe p) (p_context p) (p_ofile p) (p_cwd p) (p_name p) (p_intena p).
Definition set_p_killed (x : Z) (p : proc) : proc :=
  mk_proc (p_state p) (p_parent p) (p_chan p) x (p_xstate p) (p_pid p) (p_kstack p) (p_sz p) (p_pagetable p) (p_trapframe p) (p_context p) (p_ofile p) (p_cwd p) (p_name p) (p_intena p).
Definition set_p_xstate (x : Z) (p : proc) : proc :=
  mk_proc (p_state p) (p_parent p) (p_chan p) (p_killed p) x (p_pid p) (p_kstack p) (p_sz p) (p_pagetable p) (p_trapframe p) (p_context p) (p_ofile p) (p_cwd p) (p_name p) (p_intena p).
Definition set_p_pid (x : Z) (p : proc) : proc :=
  mk_proc (p_state p) (p_parent p) (p_chan p) (p_killed p) (p_xstate p) x (p_kstack p) (p_sz p) (p_pagetable p) (p_trapframe p) (p_context p) (p_ofile p) (p_cwd p) (p_name p) (p_intena p).
Definition set_p_kstack (x : Z) (p : proc) : proc :=
  mk_proc (p_state p) (p_parent p) (p_chan p) (p_killed p) (p_xstate p) (p_pid p) x (p_sz p) (p_pagetable p) (p_trapframe p) (p_context p) (p_ofile p) (p_cwd p) (p_name p) (p_intena p).
Definition set_p_sz (x : Z) (p : proc) : proc :=
  mk_proc (p_state p) (p_parent p) (p_chan p) (p_killed p) (p_xstate p) (p_pid p) (p_kstack p) x (p_pagetable p) (p_trapframe p) (p_context p) (p_ofile p) (p_cwd p) (p_name p) (p_intena p).
Definition set_p_pagetable (x : Z) (p : proc) : proc :=
  mk_proc (p_state p) (p_parent p) (p_chan p) (p_killed p) (p_xstate p) (p_pid p) (p_kstack p) (p_sz p) x (p_trapframe p) (p_context p) (p_ofile p) (p_cwd p) (p_name p) (p_intena p).
Definition set_p_trapframe (x : Z) (p : proc) : proc :=
  mk_proc (p_state p) (p_parent p) (p_chan p) (p_killed p) (p_xstate p) (p_pid p) (p_kstack p) (p_sz p) (p_pagetable p) x (p_context p) (p_ofile p) (p_cwd p) (p_name p) (p_intena p).
Definition set_p_context (x : Z * Z) (p : proc) : proc :=
  mk_proc (p_state p) (p_parent p) (p_chan p) (p_killed p) (p_xstate p) (p_pid p) (p_kstack p) (p_sz p) (p_pagetable p) (p_trapframe p) x (p_ofile p) (p_cwd p) (p_name p) (p_intena p).
Definition set_p_ofile (x : list (option nat)) (p : proc) : proc :=
  mk_proc (p_state p) (p_parent p) (p_chan p) (p_killed p) (p_xstate p) (p_pid p) (p_kstack p) (p_sz p) (p_pagetable p) (p_trapframe p) (p_context p) x (p_cwd p) (p_name p) (p_intena p).
Definition set_p_cwd (x : option nat) (p : proc) : proc :=
  mk_proc (p_state p) (p_parent p) (p_chan p) (p_killed p) (p_xstate p) (p_pid p) (p_kstack p) (p_sz p) (p_pagetable p) (p_trapframe p) (p_context p) (p_ofile p) x (p_name p) (p_intena p).
Definition set_p_name (x : list Z) (p : proc) : proc :=
  mk_proc (p_state p) (p_parent p) (p_chan p) (p_killed p) (p_xstate p) (p_pid p) (p_kstack p) (p_sz p) (p_pagetable p) (p_trapframe p) (p_context p) (p_ofile p) (p_cwd p) x (p_intena p).
Definition set_p_intena (x : bool) (p : proc) : proc :=
  mk_proc (p_state p) (p_parent p) (p_chan p) (p_killed p) (p_xstate p) (p_pid p) (p_kstack p) (p_sz p) (p_pagetable p) (p_trapframe p) (p_context p) (p_ofile p) (p_cwd p) (p_name p) x.

(** A slot of proc[] at boot (static storage). *)
Definition proc0 : proc :=
  mk_proc UNUSED None None 0 0 0 0 0 0 0 (0, 0) (replicate NOFILE None) None [] false.

Record pst := mk_pst {
  ps_k : kmst;  (* memory, free pages, locks and this cpu *)
  ps_proc : list proc;  (* proc[NPROC] *)
  ps_initproc : option nat;
  ps_nextpid : Z;
  ps_kpt : Z;  (* kernel_pagetable *)
}.

Definition set_ps_k (x : kmst) (p : pst) : pst :=
  mk_pst x (ps_proc p) (ps_initproc p) (ps_nextpid p) (ps_kpt p).
Definition set_ps_proc (x : list proc) (p : pst) : pst :=
  mk_pst (ps_k p) x (ps_initproc p) (ps_nextpid p) (ps_kpt p).
Definition set_ps_initproc (x : option nat) (p : pst) : pst :=
  mk_pst (ps_k p) (ps_proc p) x (ps_nextpid p) (ps_kpt p).
Definition set_ps_nextpid (x : Z) (p : pst) : pst :=
  mk_pst (ps_k p) (ps_proc p) (ps_initproc p) x (ps_kpt p).
Definition set_ps_kpt (x : Z) (p : pst) : pst :=
  mk_pst (ps_k p) (ps_proc p) (ps_initproc p) (ps_nextpid p) x.

#[global] Instance lens_ps_k : Lens pst kmst.
Proof. by exists ps_k set_ps_k; intros; destruct s. Defined.
#[global] Instance lens_ps_lk : Lens pst lks := lens_trans lens_ps_k lens_k_lk.

(** proc[i] *)
Definition proc_at (i : nat) (s : pst) : proc := default proc0 (ps_proc s !! i).
Definition getp {A} (i : nat) (f : proc -> A) : M pst A := gets (fun s => f (proc_at i s)).
Definition setp (i : nat) (f : proc -> proc) : M pst unit :=
  modify (fun s => set_ps_proc (alter f i (ps_proc s)) s).

Definition proc_lock (i : nat) : lockid := ("proc"%string, Z.of_nat i).
Definition pid_lock : lockid := ("nextpid"%string, 0).
Definition proc_chan (i : nat) : chanid := ("proc"%string, Z.of_nat i).

(** The current process.  Code that runs without one dereferences a null
    pointer in C; the model panics. *)
Definition curproc : M pst nat :=
  p ← ↑ myproc;
  match p with Some i => mret i | None => panic "no process" end.

(** Symbols of other objects: the end of the kernel (kernel.ld), the trampoline
    page (trampoline.S) and the address of forkret. *)
Section proc.
Context (end_ trampoline forkret : Z).
#[local] Abbreviation kfree := (kfree end_).

Definition procinit : M pst unit :=
  ↑ initlock pid_lock;;
  for_each (seq 0 NPROC) (fun i =>
    ↑ initlock (proc_lock i);;
    pa ← ↑ kalloc;
    if pa =? 0 then panic "kalloc" else
    let va := KSTACK (Z.of_nat i) in
    kpt ← gets ps_kpt;
    ↑ kvmmap kpt va pa PGSIZE (Z.lor PTE_R PTE_W);;
    setp i (set_p_kstack va);;
    mret (None : option unit));;
  mret tt.

Definition allocpid : M pst Z :=
  ↑ acquire pid_lock;;
  pid ← gets ps_nextpid;
  modify (set_ps_nextpid (i32 (pid + 1)));;
  ↑ release pid_lock;;
  mret pid.

Definition proc_pagetable (i : nat) : M pst Z :=
  pagetable ← ↑ uvmcreate;
  if pagetable =? 0 then mret 0 else
  r ← ↑ mappages pagetable TRAMPOLINE PGSIZE trampoline (Z.lor PTE_R PTE_X);
  if r <? 0 then ↑ uvmfree end_ pagetable 0;; mret 0 else
  tf ← getp i p_trapframe;
  r ← ↑ mappages pagetable TRAPFRAME PGSIZE tf (Z.lor PTE_R PTE_W);
  if r <? 0 then
    ↑ uvmunmap end_ pagetable TRAMPOLINE 1 false;;
    ↑ uvmfree end_ pagetable 0;; mret 0
  else mret pagetable.

Definition proc_freepagetable (pagetable sz : Z) : M kmst unit :=
  uvmunmap end_ pagetable TRAMPOLINE 1 false;;
  uvmunmap end_ pagetable TRAPFRAME 1 false;;
  uvmfree end_ pagetable sz.

Definition freeproc (i : nat) : M pst unit :=
  tf ← getp i p_trapframe;
  when (negb (tf =? 0)) (↑ kfree tf);;
  setp i (set_p_trapframe 0);;
  pt ← getp i p_pagetable;
  sz ← getp i p_sz;
  when (negb (pt =? 0)) (↑ proc_freepagetable pt sz);;
  setp i (set_p_pagetable 0);;
  setp i (set_p_sz 0);;
  setp i (set_p_pid 0);;
  setp i (set_p_parent None);;
  setp i (fun p => set_p_name (<[0%nat := 0]> (p_name p)) p);;
  setp i (set_p_chan None);;
  setp i (set_p_killed 0);;
  setp i (set_p_xstate 0);;
  setp i (set_p_state UNUSED).

(** The part of allocproc after [found:]. *)
Definition allocproc_found (i : nat) : M pst (option nat) :=
  pid ← allocpid;
  setp i (set_p_pid pid);;
  tf ← ↑ kalloc;
  setp i (set_p_trapframe tf);;
  if tf =? 0 then ↑ release (proc_lock i);; mret None else
  pt ← proc_pagetable i;
  setp i (set_p_pagetable pt);;
  if pt =? 0 then freeproc i;; ↑ release (proc_lock i);; mret None else
  ks ← getp i p_kstack;
  setp i (set_p_context (forkret, ks + PGSIZE));;
  mret (Some i).

Definition allocproc : M pst (option nat) :=
  r ← for_each (seq 0 NPROC) (fun i =>
    ↑ acquire (proc_lock i);;
    st ← getp i p_state;
    if decide (st = UNUSED) then mret (Some i)
    else ↑ release (proc_lock i);; mret None);
  match r with
  | None => mret None
  | Some i => allocproc_found i
  end.

Definition growproc (n : Z) : M pst Z :=
  p ← curproc;
  psz ← getp p p_sz;
  pt ← getp p p_pagetable;
  let sz := u32 psz in
  if 0 <? n then
    r ← ↑ uvmalloc end_ pt sz (u32 (sz + n));
    let sz := u32 r in
    if sz =? 0 then mret (-1) else setp p (set_p_sz sz);; mret 0
  else if n <? 0 then
    r ← ↑ uvmdealloc end_ pt sz (u32 (sz + n));
    setp p (set_p_sz (u32 r));; mret 0
  else setp p (set_p_sz sz);; mret 0.

Definition reparent (p : nat) : M pst unit :=
  for_each (seq 0 NPROC) (fun pp =>
    par ← getp pp p_parent;
    when (bool_decide (par = Some p))
      (↑ acquire (proc_lock pp);;
       ip ← gets ps_initproc;
       setp pp (set_p_parent ip);;
       ↑ release (proc_lock pp));;
    mret (None : option unit));;
  mret tt.

(** ** Switching *)

(** One step of the loop of scheduler(): whether proc[i] is switched to. *)
Definition scheduler_try (i : nat) : M pst bool :=
  ↑ acquire (proc_lock i);;
  st ← getp i p_state;
  if decide (st = RUNNABLE) then
    setp i (set_p_state RUNNING);;
    ↑ modify (set_cproc (Some i));;
    mret true
  else ↑ release (proc_lock i);; mret false.

(** After the process has switched back. *)
Definition scheduler_back (i : nat) : M pst unit :=
  ↑ modify (set_cproc None);;
  ↑ release (proc_lock i).

Definition sched : M pst unit :=
  p ← curproc;
  h ← ↑ holding (proc_lock p);
  if negb h then panic "sched p->lock" else
  n ← ↑ gets noff;
  if negb (n =? 1) then panic "sched locks" else
  st ← getp p p_state;
  if decide (st = RUNNING) then panic "sched running" else
  on ← ↑ intr_get;
  if (on : bool) then panic "sched interruptible" else
  ie ← ↑ gets intena;
  setp p (set_p_intena ie);;
  asleep.

(** sched() after swtch() has returned. *)
Definition sched_back : M pst unit :=
  p ← curproc;
  ie ← getp p p_intena;
  ↑ modify (set_intena ie).

Definition yield : M pst unit :=
  p ← curproc;
  ↑ acquire (proc_lock p);;
  setp p (set_p_state RUNNABLE);;
  sched.

Definition yield_back : M pst unit :=
  sched_back;;
  p ← curproc;
  ↑ release (proc_lock p).

(** sleep() up to the switch, and after it. *)
Definition sleep (chan : chanid) (lk : lockid) : M pst unit :=
  p ← curproc;
  when (bool_decide (lk <> proc_lock p))
    (↑ acquire (proc_lock p);;
     ↑ release lk);;
  setp p (set_p_chan (Some chan));;
  setp p (set_p_state SLEEPING);;
  sched.

Definition sleep_back (lk : lockid) : M pst unit :=
  sched_back;;
  p ← curproc;
  setp p (set_p_chan None);;
  when (bool_decide (lk <> proc_lock p))
    (↑ release (proc_lock p);;
     ↑ acquire lk).

Definition wakeup (chan : chanid) : M pst unit :=
  for_each (seq 0 NPROC) (fun i =>
    ↑ acquire (proc_lock i);;
    p ← getp i id;
    when (bool_decide (p_state p = SLEEPING) && bool_decide (p_chan p = Some chan))
      (setp i (set_p_state RUNNABLE));;
    ↑ release (proc_lock i);;
    mret (None : option unit));;
  mret tt.

Definition wakeup1 (i : nat) : M pst unit :=
  h ← ↑ holding (proc_lock i);
  if negb h then panic "wakeup1" else
  p ← getp i id;
  when (bool_decide (p_chan p = Some (proc_chan i)) && bool_decide (p_state p = SLEEPING))
    (setp i (set_p_state RUNNABLE)).

Definition kill (pid : Z) : M pst Z :=
  r ← for_each (seq 0 NPROC) (fun i =>
    ↑ acquire (proc_lock i);;
    p ← getp i id;
    if p_pid p =? pid then
      setp i (set_p_killed 1);;
      when (bool_decide (p_state p = SLEEPING)) (setp i (set_p_state RUNNABLE));;
      ↑ release (proc_lock i);;
      mret (Some 0)
    else
      ↑ release (proc_lock i);;
      mret None);
  mret (default (-1) r).

(** ** Copying to or from user or kernel memory

    A kernel destination is a variable of the caller, which gets the bytes from
    the caller itself; a kernel source is the list of its bytes. *)
Inductive dest := DUser (va : Z) | DKern.
Inductive source := SUser (va : Z) | SKern (bs : list Z).

Definition either_copyout (dst : dest) (src : list Z) (len : Z) : M pst Z :=
  p ← curproc;
  match dst with
  | DUser va =>
      pt ← getp p p_pagetable;
      ↑ copyout pt va src len
  | DKern => mret 0
  end.

Definition either_copyin (src : source) (len : Z) : M pst (Z * list Z) :=
  p ← curproc;
  match src with
  | SUser va =>
      pt ← getp p p_pagetable;
      ↑ copyin pt va len
  | SKern bs => mret (0, take (Z.to_nat len) bs)
  end.

End proc.

(** ** What a running process can rely on *)

(** Other processes may have been woken up. *)
Definition woken1 (p p' : proc) : Prop :=
  p' = p \/ p_state p = SLEEPING /\ p' = set_p_state RUNNABLE p.

(** The memory and the process table are the same but for wakeups; the locks
    are the same. *)
Record pst_le (s s' : pst) : Prop := {
  pl_mem : k_mem (ps_k s') = k_mem (ps_k s);
  pl_freelist : k_freelist (ps_k s') = k_freelist (ps_k s);
  pl_lk : k_lk (ps_k s') ≈ k_lk (ps_k s);
  pl_proc : Forall2 woken1 (ps_proc s) (ps_proc s');
  pl_initproc : ps_initproc s' = ps_initproc s;
  pl_nextpid : ps_nextpid s' = ps_nextpid s;
  pl_kpt : ps_kpt s' = ps_kpt s;
}.

#[global] Instance woken1_preorder : PreOrder woken1.
Proof.
  split; [by left|]. intros p q r [->|[H1 ->]] [->|[H2 ->]]; unfold woken1; auto.
Qed.

#[global] Instance pst_le_preorder : PreOrder pst_le.
Proof.
  split.
  - by intros s.
  - intros s1 s2 s3 [] []. split; try congruence; try by etrans.
Qed.

(** The process that runs on this CPU, with no spin lock held. *)
Record running (i : nat) (s : pst) : Prop := {
  rn_wf : intr_wf (k_lk (ps_k s));
  rn_locks : locks (k_lk (ps_k s)) = ∅;
  rn_cproc : cproc (k_lk (ps_k s)) = Some i;
  rn_len : length (ps_proc s) = NPROC;
  rn_state : p_state (proc_at i s) = RUNNING;
}.

Lemma woken_lookup l l' i p :
  Forall2 woken1 l l' -> l !! i = Some p -> p_state p <> SLEEPING -> l' !! i = Some p.
Proof.
  intros H Hp Hs. destruct (Forall2_lookup_l _ _ _ _ _ H Hp) as (p' & Hp' & [->|[? ->]]); done.
Qed.

Lemma running_lookup i s : running i s -> ps_proc s !! i = Some (proc_at i s).
Proof.
  intros [_ _ _ _ Hs]. unfold proc_at in *. by destruct (ps_proc s !! i).
Qed.

Lemma pst_le_running i s s' : pst_le s s' -> running i s -> running i s' /\ proc_at i s' = proc_at i s.
Proof.
  intros [? ? E ? ? ? ?] Hr. pose proof (running_lookup _ _ Hr) as Hi. destruct Hr as [H1 H2 H3 H4 H5].
  assert (ps_proc s' !! i = Some (proc_at i s)) as Hi'.
  { eapply woken_lookup; [done..|]. by rewrite H5. }
  assert (proc_at i s' = proc_at i s) as Ep by (unfold proc_at at 1; by rewrite Hi').
  split; [|done]. pose proof (lk_eqv_fields _ _ E) as (_ & _ & _ & Ec & El).
  split; [by rewrite E|by rewrite El|by rewrite Ec| |by rewrite Ep].
  rewrite <- H4. symmetry. by eapply Forall2_length.
Qed.

(** ** wakeup *)

Definition wake (chan : chanid) (p : proc) : proc :=
  if bool_decide (p_state p = SLEEPING) && bool_decide (p_chan p = Some chan)
  then set_p_state RUNNABLE p else p.

Lemma wake_woken chan p : woken1 p (wake chan p).
Proof. unfold wake, woken1. repeat case_bool_decide; simpl; auto. Qed.

(** No lock of the process table is held. *)
Definition proc_locks_free (lk : lks) : Prop := forall i, is_free lk (proc_lock i).

#[global] Instance proc_locks_free_proper : Proper (lk_eqv ==> iff) proc_locks_free.
Proof. intros a b E. unfold proc_locks_free. by setoid_rewrite E. Qed.

(** A loop over proc[] that handles each entry on its own. *)
Lemma alter_middle {A} (f : A -> A) (l : list A) k x :
  l !! k = Some x -> alter f k l = take k l ++ f x :: drop (S k) l.
Proof.
  intros Hx. rewrite <- (take_drop_middle l k x Hx) at 1.
  rewrite alter_app_r_alt by (rewrite length_take; lia).
  apply lookup_lt_Some in Hx. rewrite length_take_le, Nat.sub_diag by lia. done.
Qed.

Definition mapped_upto {A} (f : A -> A) (k : nat) (l : list A) : list A := (f <$> take k l) ++ drop k l.

Lemma mapped_upto_lookup {A} (f : A -> A) k (l : list A) : (k < length l)%nat ->
  mapped_upto f k l !! k = l !! k.
Proof.
  intros Hk. unfold mapped_upto. rewrite lookup_app_r; rewrite length_fmap, length_take_le by lia; [|lia].
  rewrite lookup_drop. f_equal. lia.
Qed.

Lemma mapped_upto_S {A} (f : A -> A) k (l : list A) :
  (k < length l)%nat -> alter f k (mapped_upto f k l) = mapped_upto f (S k) l.
Proof.
  intros Hk. destruct (lookup_lt_is_Some_2 l k Hk) as [x Hx].
  rewrite (alter_middle f _ k x) by by rewrite mapped_upto_lookup.
  unfold mapped_upto. rewrite take_app_le by (rewrite length_fmap, length_take; lia).
  rewrite take_ge by (rewrite length_fmap, length_take; lia).
  rewrite drop_app_ge by (rewrite length_fmap, length_take; lia).
  rewrite length_fmap, length_take_le, drop_drop by lia.
  rewrite (take_S_r l k x Hx), fmap_app, <- app_assoc. simpl. do 3 f_equal. f_equal. lia.
Qed.

Lemma alter_id_wake {A} (f : A -> A) k (l : list A) x : l !! k = Some x -> f x = x -> alter f k l = l.
Proof.
  intros Hx E. rewrite (alter_middle f l k x) by done. rewrite E. by apply take_drop_middle.
Qed.

Lemma woken_alter f k (l : list proc) :
  (forall p, woken1 p (f p)) -> Forall2 woken1 l (alter f k l).
Proof.
  intros Hf. revert k. induction l as [|p l IH]; intros [|k]; simpl; [done|done|..].
  - constructor; [apply Hf|reflexivity].
  - constructor; [reflexivity|apply IH].
Qed.

(** The body of the loop of wakeup. *)
Lemma wp_wakeup_one chan k (Q : option unit -> pst -> Prop) s :
  intr_wf (k_lk (ps_k s)) -> proc_locks_free (k_lk (ps_k s)) -> (k < length (ps_proc s))%nat ->
  (forall s', pst_le s s' -> ps_proc s' = alter (wake chan) k (ps_proc s) -> Q None s') ->
  wp (↑ acquire (proc_lock k);;
      p ← getp k id;
      when (bool_decide (p_state p = SLEEPING) && bool_decide (p_chan p = Some chan))
        (setp k (set_p_state RUNNABLE));;
      ↑ release (proc_lock k);;
      mret None) Q s.
Proof.
  intros Hwf Hfree Hk HQ. destruct (lookup_lt_is_Some_2 _ _ Hk) as [p Hp].
  unfold getp, setp. mstep. apply wp_lock; [apply Hfree|]. mstep. mstep. cbn.
  unfold proc_at. cbn. rewrite Hp. cbn.
  assert (wake chan p = if bool_decide (p_state p = SLEEPING) && bool_decide (p_chan p = Some chan)
                        then set_p_state RUNNABLE p else p) as Ew by done.
  pose proof (woken_alter (wake chan) k (ps_proc s) (wake_woken chan)) as Hw.
  rewrite (alter_middle (wake chan) _ k p Hp) in Hw, HQ.
  destruct (bool_decide _ && bool_decide _) eqn:Ec; bsteps;
    (eapply wp_unlock; [exact Hwf|apply Hfree|reflexivity|]); bstep; apply HQ; rewrite Ew in *; cbn.
  - split; try done; cbn; [apply settle_eqv|]. by rewrite (alter_middle _ _ k p Hp).
  - by rewrite (alter_middle _ _ k p Hp).
  - split; try done; cbn; apply settle_eqv.
  - by rewrite take_drop_middle.
Qed.

Lemma wp_wakeup chan Q s :
  intr_wf (k_lk (ps_k s)) -> proc_locks_free (k_lk (ps_k s)) -> length (ps_proc s) = NPROC ->
  (forall s', pst_le s s' -> ps_proc s' = wake chan <$> ps_proc s -> Q tt s') ->
  wp (wakeup chan) Q s.
Proof.
  intros Hwf Hfree Hlen HQ. unfold wakeup. mstep.
  apply (wp_for_each (fun l s' => exists k, (k <= NPROC)%nat /\ l = seq k (NPROC - k) /\
    ps_proc s' = mapped_upto (wake chan) k (ps_proc s) /\ pst_le s s')).
  - exists 0%nat. split_and!; try done. lia.
  - intros i l s' (k & Hk & El & Ep & Hle).
    destruct (NPROC - k)%nat as [|r] eqn:Er; [done|]. injection El as -> ->.
    pose proof (pl_lk _ _ Hle) as Elk.
    apply wp_wakeup_one; [by rewrite Elk|by rewrite Elk| |].
    { erewrite <- Forall2_length by apply Hle. lia. }
    intros s2 Hle2 Ep2. exists (S k). split_and!; [lia|f_equal; lia| |by etrans].
    rewrite Ep2, Ep, mapped_upto_S by lia. done.
  - intros s' (k & Hk & El & Ep & Hle). mstep. apply HQ; [done|].
    assert (k = NPROC) as -> by (destruct (NPROC - k)%nat eqn:E; [lia|done]).
    rewrite Ep. unfold mapped_upto. rewrite take_ge, drop_ge, app_nil_r by lia. done.
Qed.

(** ** sleep *)

Lemma alter_alter {A} (f g : A -> A) i (l : list A) :
  alter f i (alter g i l) = alter (fun x => f (g x)) i l.
Proof. revert i. induction l as [|x l IH]; intros [|i]; cbn; [done..|]. by rewrite <- IH. Qed.

(** What sleep() does to the entry of the process that calls it; [ie] is the
    interrupt state that sched() saves. *)
Definition fall_asleep (chan : chanid) (ie : bool) (p : proc) : proc :=
  set_p_intena ie (set_p_state SLEEPING (set_p_chan (Some chan) p)).

Lemma curproc_locked l i k0 s :
  intr_wf k0 -> cproc k0 = Some i -> k_lk (ps_k s) = locked_by l k0 -> curproc s = Ret i s.
Proof.
  intros Hwf Hc E. destruct s as [[lk0 mem fl] procs init pid kpt]. cbn in E. subst lk0.
  unfold curproc. erewrite bind_run;
    [|unfold zoom; cbn; rewrite (myproc_run _ (locked_by_wf _ _ Hwf)); reflexivity].
  cbn. rewrite locked_by_cproc, Hc.
  by rewrite (lk_eqv_locked _ _ _ Hwf (settle_eqv (locked_by l k0))).
Qed.

(** sched() up to the switch. *)
Lemma sched_run i k0 s :
  intr_wf k0 -> noff k0 = 0 -> cproc k0 = Some i -> k_lk (ps_k s) = locked_by (proc_lock i) k0 ->
  p_state (proc_at i s) <> RUNNING ->
  sched s = Asleep (set_ps_proc (alter (set_p_intena (intena (locked_by (proc_lock i) k0))) i (ps_proc s)) s).
Proof.
  intros Hwf Hn Hc E Hst. unfold sched. rewrite (bind_run _ _ _ _ _ (curproc_locked _ _ _ _ Hwf Hc E)).
  destruct s as [[lk0 mem fl] procs init pid kpt]. cbn in E. subst lk0.
  unfold mbind, M_bind, zoom, holding, getp, setp, intr_get. cbn.
  rewrite locked_by_holding, bool_decide_true by done. cbn.
  assert (En : noff (locked_by (proc_lock i) k0) = 1) by (change (noff k0 + 1 = 1); lia).
  rewrite En. cbn. rewrite decide_False by done. done.
Qed.

(** The exchange of the caller's lock for p->lock. *)
Lemma sleep_swap lk i k0 mem fl procs init pid kpt :
  intr_wf k0 -> proc_locks_free k0 -> is_free k0 lk -> lk <> proc_lock i ->
  (↑ acquire (proc_lock i);; ↑ release lk) (mk_pst (mk_kmst (locked_by lk k0) mem fl) procs init pid kpt) =
  Ret tt (mk_pst (mk_kmst (locked_by (proc_lock i) k0) mem fl) procs init pid kpt).
Proof.
  intros Hwf Hpf Hf Hne.
  erewrite bind_run; [|unfold zoom; cbn; rewrite (acquire_run _ _ (locked_by_free _ _ _ Hne (Hpf i))); reflexivity].
  unfold zoom. cbn. by rewrite release_swap.
Qed.

(** sleep() called with only [lk] held: the process is marked before [lk] is
    available again, and the switch happens with only its own lock held. *)
Lemma sleep_run chan lk i k0 s :
  intr_wf k0 -> noff k0 = 0 -> proc_locks_free k0 -> is_free k0 lk -> cproc k0 = Some i ->
  lk <> proc_lock i -> k_lk (ps_k s) = locked_by lk k0 ->
  sleep chan lk s =
    Asleep (set_ps_k (set_klk (locked_by (proc_lock i) k0) (ps_k s))
      (set_ps_proc (alter (fall_asleep chan (intena (locked_by (proc_lock i) k0))) i (ps_proc s)) s)).
Proof.
  intros Hwf Hn Hpf Hf Hc Hne Elk. unfold sleep.
  rewrite (bind_run _ _ _ _ _ (curproc_locked _ _ _ _ Hwf Hc Elk)).
  rewrite bool_decide_true by done. cbn [when].
  destruct s as [[lk0 mem fl] procs init pid kpt]. cbn in Elk. subst lk0.
  rewrite (bind_run _ _ _ _ _ (sleep_swap lk i k0 mem fl procs init pid kpt Hwf Hpf Hf Hne)).
  erewrite bind_run; [|reflexivity]. erewrite bind_run; [|reflexivity]. cbn.
  rewrite (sched_run i k0); try done.
  - unfold set_ps_proc, set_ps_k, set_klk. cbn. by rewrite !alter_alter.
  - unfold proc_at. cbn. rewrite !list_lookup_alter_eq. by destruct (procs !! i).
Qed.

(** sleep() called with another lock held as well: sched() panics. *)
Lemma sleep_panics chan lk i k1 s :
  intr_wf k1 -> 0 < noff k1 -> proc_locks_free k1 -> is_free k1 lk -> cproc k1 = Some i ->
  lk <> proc_lock i -> k_lk (ps_k s) = locked_by lk k1 ->
  exists s', sleep chan lk s = Panic "sched locks" s'.
Proof.
  intros Hwf Hn Hpf Hf Hc Hne Elk. unfold sleep.
  rewrite (bind_run _ _ _ _ _ (curproc_locked _ _ _ _ Hwf Hc Elk)).
  rewrite bool_decide_true by done. cbn [when].
  destruct s as [[lk0 mem fl] procs init pid kpt]. cbn in Elk. subst lk0.
  rewrite (bind_run _ _ _ _ _ (sleep_swap lk i k1 mem fl procs init pid kpt Hwf Hpf Hf Hne)).
  erewrite bind_run; [|reflexivity]. erewrite bind_run; [|reflexivity]. cbn.
  unfold sched. erewrite bind_run; [|by eapply curproc_locked].
  unfold mbind, M_bind, zoom, holding. cbn.
  rewrite locked_by_holding, bool_decide_true by done. cbn.
  rewrite (proj2 (Z.eqb_neq (noff (locked_by (proc_lock i) k1)) 1)).
  - cbn. by eexists.
  - change (noff k1 + 1 <> 1). lia.
Qed.
