(* ===== verification/SleepWakeup.v ===== *)
(** * sleep() and wakeup() of kernel/proc.c on several CPUs

    Proc has sleep and wakeup as one CPU runs them.  Here every CPU may be
    anywhere in them: the statements of sleep(), wakeup(), sched(), yield(),
    kill() and of the scheduler are the steps of a relation, each lock is taken
    and released by steps of its own, and any number of processes and interrupt
    handlers are interleaved.  They use the two as the kernel does everywhere:
    a condition is tested and set with the lock [lk] held, a process sleeps while
    it is false, and whoever makes it true calls wakeup().

    Each statement that changes or reads shared state is a step.  Two sequences
    are one step because a lock makes them so: the scheduler's acquire, test and
    swtch to a process, which then holds the p->lock, and swtch back with the
    release that follows it.  A scheduler that finds a process not RUNNABLE
    changes nothing and has no step.  There is one channel, kill() may find the
    pid at any process, and p->killed, which only the callers read, is left out.

    The comment in sleep() says why no wakeup is missed; the theorems are that none
    is, that no process ever runs on two CPUs, and that the locks do not deadlock. *)

From Stdlib Require Import ZArith Lia.
From stdpp Require Import base list gmap.
From S2P Require Import Prelude KString Spinlock Riscv Kalloc Vm Proc.

Module SleepWakeup.

(** Where the code of an agent is.  Agents below NPROC are processes, the others
    are interrupt handlers. *)
Inductive pc :=
| Idle                   (* elsewhere, with no lock held *)
| Relock                 (* sleep(): acquire(lk) before it returns *)
| Test                   (* the caller's loop: while(!cond) *)
| LockSelf               (* sleep(): acquire(&p->lock) *)
| UnlockLk               (* release(lk) *)
| SetChan                (* p->chan = chan *)
| SetSleeping            (* p->state = SLEEPING *)
| Switch (next : pc)     (* sched(): swtch to the scheduler, which releases p->lock *)
| Off (next : pc)        (* not on a CPU *)
| Tidy                   (* sleep(): p->chan = 0 *)
| UnlockSelf (next : pc) (* release(&p->lock) *)
| Take                   (* cond = 0 *)
| Leave                  (* release(lk) *)
| Post                   (* cond = 1 *)
| Wake (k : nat)         (* wakeup(): acquire(&p->lock) of process k *)
| WakeTest (k : nat)     (* if(p->state == SLEEPING && p->chan == chan) *)
| WakeNext (k : nat)     (* release(&p->lock) *)
| YieldLock (next : pc)  (* yield(): acquire(&p->lock) *)
| YieldState (next : pc) (* p->state = RUNNABLE *)
| Kill (k : nat)         (* kill(): acquire(&p->lock) of process k *)
| KillTest (k : nat)     (* if(p->pid == pid), then if(p->state == SLEEPING) *)
| KillNext (k : nat)     (* release(&p->lock); return 0 *)
| Twice.                 (* two CPUs run the process *)

#[global] Instance pc_eq_dec : EqDecision pc.
Proof. solve_decision. Defined.

(** [chan] says whether p->chan is the channel of [cond]. *)
Record state := mk {
  lk : option nat;            (* who holds lk *)
  plock : nat -> option nat;  (* who holds proc[k].lock *)
  pstate : nat -> procstate;
  chan : nat -> bool;
  cond : bool;
  pcs : nat -> pc;
}.

Definition upd {A} (f : nat -> A) (i : nat) (x : A) : nat -> A := fun j => if decide (j = i) then x else f j.

Definition goto (i : nat) (p : pc) (s : state) : state :=
  mk (lk s) (plock s) (pstate s) (chan s) (cond s) (upd (pcs s) i p).
Definition with_lk (o : option nat) (s : state) : state :=
  mk o (plock s) (pstate s) (chan s) (cond s) (pcs s).
Definition with_plock (k : nat) (o : option nat) (s : state) : state :=
  mk (lk s) (upd (plock s) k o) (pstate s) (chan s) (cond s) (pcs s).
Definition with_state (k : nat) (x : procstate) (s : state) : state :=
  mk (lk s) (plock s) (upd (pstate s) k x) (chan s) (cond s) (pcs s).
Definition with_chan (k : nat) (x : bool) (s : state) : state :=
  mk (lk s) (plock s) (pstate s) (upd (chan s) k x) (cond s) (pcs s).
Definition with_cond (x : bool) (s : state) : state :=
  mk (lk s) (plock s) (pstate s) (chan s) x (pcs s).

(** Where a timer interrupt can come: no spin lock is held. *)
Definition preemptible (p : pc) : bool :=
  match p with Idle | Relock | Kill _ => true | _ => false end.

Inductive step : state -> state -> Prop :=
(* the callers *)
| step_wait s i : (i < NPROC)%nat -> pcs s i = Idle -> lk s = None ->
    step s (goto i Test (with_lk (Some i) s))
| step_post s i : pcs s i = Idle -> lk s = None -> step s (goto i Post (with_lk (Some i) s))
| step_test_true s i : pcs s i = Test -> cond s = true -> step s (goto i Take s)
| step_test_false s i : pcs s i = Test -> cond s = false -> step s (goto i LockSelf s)
| step_take s i : pcs s i = Take -> step s (goto i Leave (with_cond false s))
| step_leave s i : pcs s i = Leave -> step s (goto i Idle (with_lk None s))
| step_cond s i : pcs s i = Post -> step s (goto i (Wake 0) (with_cond true s))
(* sleep() *)
| step_lock_self s i : pcs s i = LockSelf -> plock s i = None ->
    step s (goto i UnlockLk (with_plock i (Some i) s))
| step_unlock_lk s i : pcs s i = UnlockLk -> step s (goto i SetChan (with_lk None s))
| step_chan s i : pcs s i = SetChan -> step s (goto i SetSleeping (with_chan i true s))
| step_sleeping s i : pcs s i = SetSleeping -> step s (goto i (Switch Tidy) (with_state i SLEEPING s))
| step_switch s i next : pcs s i = Switch next -> step s (goto i (Off next) (with_plock i None s))
| step_tidy s i : pcs s i = Tidy -> step s (goto i (UnlockSelf Relock) (with_chan i false s))
| step_unlock_self s i next : pcs s i = UnlockSelf next -> step s (goto i next (with_plock i None s))
| step_relock s i : pcs s i = Relock -> lk s = None -> step s (goto i Test (with_lk (Some i) s))
(* scheduler() *)
| step_resume s i : (i < NPROC)%nat -> plock s i = None -> pstate s i = RUNNABLE ->
    step s (match pcs s i with
            | Off next => goto i next (with_plock i (Some i) (with_state i RUNNING s))
            | _ => goto i Twice s
            end)
(* wakeup() *)
| step_wake s i k : pcs s i = Wake k -> (k < NPROC)%nat -> plock s k = None ->
    step s (goto i (WakeTest k) (with_plock k (Some i) s))
| step_wake_yes s i k : pcs s i = WakeTest k -> pstate s k = SLEEPING -> chan s k = true ->
    step s (goto i (WakeNext k) (with_state k RUNNABLE s))
| step_wake_no s i k : pcs s i = WakeTest k -> ~ (pstate s k = SLEEPING /\ chan s k = true) ->
    step s (goto i (WakeNext k) s)
| step_wake_next s i k : pcs s i = WakeNext k -> step s (goto i (Wake (S k)) (with_plock k None s))
| step_wake_end s i : pcs s i = Wake NPROC -> step s (goto i Leave s)
(* yield(), from a timer interrupt *)
| step_yield s i next : (i < NPROC)%nat -> pcs s i = next -> preemptible next = true ->
    step s (goto i (YieldLock next) s)
| step_yield_lock s i next : pcs s i = YieldLock next -> plock s i = None ->
    step s (goto i (YieldState next) (with_plock i (Some i) s))
| step_yield_state s i next : pcs s i = YieldState next ->
    step s (goto i (Switch (UnlockSelf next)) (with_state i RUNNABLE s))
(* kill() *)
| step_kill s i : pcs s i = Idle -> step s (goto i (Kill 0) s)
| step_kill_lock s i k : pcs s i = Kill k -> (k < NPROC)%nat -> plock s k = None ->
    step s (goto i (KillTest k) (with_plock k (Some i) s))
| step_kill_yes s i k : pcs s i = KillTest k -> pstate s k = SLEEPING ->
    step s (goto i (KillNext k) (with_state k RUNNABLE s))
| step_kill_no s i k : pcs s i = KillTest k -> pstate s k <> SLEEPING -> step s (goto i (KillNext k) s)
| step_kill_next s i k : pcs s i = KillNext k -> step s (goto i Idle (with_plock k None s))
| step_kill_other s i k : pcs s i = KillTest k -> step s (goto i (Kill (S k)) (with_plock k None s))
| step_kill_end s i : pcs s i = Kill NPROC -> step s (goto i Idle s).

Definition init : state := mk None (fun _ => None) (fun _ => RUNNING) (fun _ => false) false (fun _ => Idle).

Inductive reachable : state -> Prop :=
| reach_init : reachable init
| reach_step s s' : reachable s -> step s s' -> reachable s'.

(** ** The invariant *)

Definition holds_lk (p : pc) : bool :=
  match p with
  | Test | LockSelf | UnlockLk | Take | Leave | Post | Wake _ | WakeTest _ | WakeNext _ => true
  | _ => false
  end.

(** The p->lock that agent [i] holds. *)
Definition holds_p (i : nat) (p : pc) : option nat :=
  match p with
  | UnlockLk | SetChan | SetSleeping | Switch _ | Tidy | UnlockSelf _ | YieldState _ => Some i
  | WakeTest k | WakeNext k | KillTest k | KillNext k => Some k
  | _ => None
  end.

(** p->state and p->chan, by where the process is. *)
Definition state_ok (p : pc) (x : procstate) (c : bool) : Prop :=
  match p with
  | Off Tidy => x = SLEEPING /\ c = true \/ x = RUNNABLE
  | Switch Tidy => x = SLEEPING /\ c = true
  | Off (UnlockSelf next) | Switch (UnlockSelf next) => x = RUNNABLE /\ preemptible next = true
  | Off _ | Switch _ | Twice => False
  | SetSleeping => x = RUNNING /\ c = true
  | YieldLock next | YieldState next | UnlockSelf next => x = RUNNING /\ preemptible next = true
  | _ => x = RUNNING
  end.

(** The process has found the condition false and given up [lk]. *)
Definition committed (p : pc) (x : procstate) : Prop :=
  match p with
  | SetChan | SetSleeping => True
  | _ => x = SLEEPING
  end.

(** A wakeup() that has not come past process [i] yet. *)
Definition coming (p : pc) (i : nat) : Prop :=
  match p with Wake k | WakeTest k => (k <= i)%nat | WakeNext k => (k < i)%nat | _ => False end.

(** Agents that are processes. *)
Definition is_proc (p : pc) : bool :=
  match p with
  | Idle | Leave | Post | Wake _ | WakeTest _ | WakeNext _ | Kill _ | KillTest _ | KillNext _ => false
  | _ => true
  end.

Record inv (s : state) : Prop := {
  inv_lk : forall i, holds_lk (pcs s i) = true <-> lk s = Some i;
  inv_pl : forall i k, holds_p i (pcs s i) = Some k <-> plock s k = Some i;
  inv_state : forall i, state_ok (pcs s i) (pstate s i) (chan s i);
  inv_cond : forall i, pcs s i = LockSelf \/ pcs s i = UnlockLk -> cond s = false;
  inv_coming : forall i, cond s = true -> committed (pcs s i) (pstate s i) -> exists j, coming (pcs s j) i;
  inv_proc : forall i, is_proc (pcs s i) = true -> (i < NPROC)%nat;
}.

Lemma sw_upd_eq {A} (f : nat -> A) i x : upd f i x i = x.
Proof. unfold upd. by rewrite decide_True. Qed.
Lemma sw_upd_ne {A} (f : nat -> A) i x j : j <> i -> upd f i x j = f j.
Proof. intros. unfold upd. by rewrite decide_False. Qed.

(** What a step may do to a lock: nothing, take it, or give it back. *)
Definition lk_moves (s : state) (i : nat) (p : pc) (o : option nat) : Prop :=
  (holds_lk p = holds_lk (pcs s i) /\ o = lk s) \/
  (holds_lk p = true /\ lk s = None /\ o = Some i) \/
  (holds_lk p = false /\ holds_lk (pcs s i) = true /\ o = None).

Definition pl_moves (s : state) (i : nat) (p : pc) (f : nat -> option nat) : Prop :=
  (holds_p i p = holds_p i (pcs s i) /\ f = plock s) \/
  (exists k, holds_p i p = Some k /\ holds_p i (pcs s i) = None /\ plock s k = None /\ f = upd (plock s) k (Some i)) \/
  (exists k, holds_p i p = None /\ holds_p i (pcs s i) = Some k /\ f = upd (plock s) k None).

Lemma lk_step s i p o : inv s -> lk_moves s i p o ->
  forall j, holds_lk (upd (pcs s) i p j) = true <-> o = Some j.
Proof.
  intros HI Hm j. pose proof (inv_lk _ HI) as H. destruct (decide (j = i)) as [->|Hne].
  - rewrite sw_upd_eq. destruct Hm as [[-> ->]|[(-> & _ & ->)|(-> & _ & ->)]]; [apply H|done|done].
  - rewrite sw_upd_ne by done. rewrite H. destruct Hm as [[_ ->]|[(_ & -> & ->)|(_ & E%H & ->)]]; [done|split; congruence|].
    rewrite E. split; congruence.
Qed.

Lemma pl_step s i p f : inv s -> pl_moves s i p f ->
  forall j k, holds_p j (upd (pcs s) i p j) = Some k <-> f k = Some j.
Proof.
  intros HI Hm j k. pose proof (inv_pl _ HI) as H.
  destruct Hm as [[E ->]|[(k' & E & Eo & Ek & ->)|(k' & E & Eo & ->)]]; destruct (decide (j = i)) as [->|Hne];
    rewrite ?sw_upd_eq, ?(sw_upd_ne _ i p j) by done.
  - rewrite E. apply H.
  - apply H.
  - rewrite E. destruct (decide (k = k')) as [->|]; [by rewrite sw_upd_eq|]. rewrite sw_upd_ne by done.
    split; [congruence|]. rewrite <- H, Eo. done.
  - destruct (decide (k = k')) as [->|]; [|by rewrite sw_upd_ne by done]. rewrite sw_upd_eq.
    rewrite H, Ek. split; congruence.
  - rewrite E. split; [done|]. destruct (decide (k = k')) as [->|]; [by rewrite sw_upd_eq|].
    rewrite sw_upd_ne by done. rewrite <- H, Eo. congruence.
  - destruct (decide (k = k')) as [->|]; [|by rewrite sw_upd_ne by done]. rewrite sw_upd_eq. apply H in Eo.
    rewrite H, Eo. split; congruence.
Qed.

(** A step of agent [i] to [p]. *)
Lemma inv_at s i p o f st c cd :
  inv s -> lk_moves s i p o -> pl_moves s i p f ->
  (forall j, state_ok (upd (pcs s) i p j) (st j) (c j)) ->
  (forall j, upd (pcs s) i p j = LockSelf \/ upd (pcs s) i p j = UnlockLk -> cd = false) ->
  (forall j, cd = true -> committed (upd (pcs s) i p j) (st j) -> exists j', coming (upd (pcs s) i p j') j) ->
  (is_proc p = true -> is_proc (pcs s i) = true \/ (i < NPROC)%nat) ->
  inv (mk o f st c cd (upd (pcs s) i p)).
Proof.
  intros HI Hl Hp Hs Hc Hw Hn. split; cbn; try done.
  - by apply lk_step.
  - by apply pl_step.
  - intros j. destruct (decide (j = i)) as [->|Hne]; [rewrite sw_upd_eq|rewrite sw_upd_ne by done; apply HI].
    intros [?%(inv_proc _ HI)|?]%Hn; done.
Qed.

(** Everything but the place of agent [i] is as before for the other agents. *)
Lemma state_step s i p st c :
  inv s -> state_ok p (st i) (c i) -> (forall j, j <> i -> st j = pstate s j /\ c j = chan s j) ->
  forall j, state_ok (upd (pcs s) i p j) (st j) (c j).
Proof.
  intros HI Hi Hj j. destruct (decide (j = i)) as [->|Hne]; [by rewrite sw_upd_eq|].
  rewrite sw_upd_ne by done. destruct (Hj j Hne) as [-> ->]. apply HI.
Qed.

Lemma cond_step s i p cd : inv s -> cd = false \/ (cd = cond s /\ p <> LockSelf /\ (p = UnlockLk -> pcs s i = LockSelf)) ->
  forall j, upd (pcs s) i p j = LockSelf \/ upd (pcs s) i p j = UnlockLk -> cd = false.
Proof.
  intros HI [->|(-> & H1 & H2)] j; [done|]. destruct (decide (j = i)) as [->|Hne].
  - rewrite sw_upd_eq. intros [?|?]; [done|]. apply (inv_cond _ HI i). auto.
  - rewrite sw_upd_ne by done. apply HI.
Qed.

(** Nobody becomes committed, and the wakeup that was coming still is. *)
Lemma coming_step s i p st cd : inv s ->
  (cd = true -> cond s = true) ->
  (committed p (st i) -> committed (pcs s i) (pstate s i)) ->
  (forall j, j <> i -> st j = SLEEPING -> pstate s j = SLEEPING) ->
  (forall j, coming (pcs s i) j -> committed (upd (pcs s) i p j) (st j) -> coming p j) ->
  forall j, cd = true -> committed (upd (pcs s) i p j) (st j) -> exists j', coming (upd (pcs s) i p j') j.
Proof.
  intros HI Hc Hi Hne Hcom j Hcd Hj. destruct (inv_coming _ HI j (Hc Hcd)) as [j' Hj'].
  - destruct (decide (j = i)) as [->|Hji]; [rewrite sw_upd_eq in Hj; auto|]. rewrite sw_upd_ne in Hj by done.
    unfold committed in *. destruct (pcs s j); auto.
  - exists j'. destruct (decide (j' = i)) as [->|Hji]; [rewrite sw_upd_eq; auto|by rewrite sw_upd_ne].
Qed.

Lemma committed_ok s i : inv s -> committed (pcs s i) (pstate s i) ->
  match pcs s i with
  | SetChan | SetSleeping => True
  | Switch Tidy | Off Tidy => pstate s i = SLEEPING /\ chan s i = true
  | _ => False
  end.
Proof.
  intros HI. unfold committed. pose proof (inv_state _ HI i) as H.
  destruct (pcs s i) as [| | | | | | |[]|[]| | | | | | | | | | | | | |]; try done; cbn in H; intros E; rewrite E in H;
    naive_solver.
Qed.

Ltac locks E :=
  unfold lk_moves, pl_moves; rewrite E; cbn;
  first [by left|by right; left|by right; right
        |right; left; eexists; by split_and!|right; right; eexists; by split_and!].

(** A step of agent [i] that changes no other process. *)
Ltac own_step HI s i E :=
  apply (inv_at s i);
  [done|locks E|locks E
  |apply state_step; [done|pose proof (inv_state _ HI i) as Hst; rewrite E in Hst; cbn in *; rewrite ?sw_upd_eq; try naive_solver
                     |intros j Hj; cbn; rewrite ?sw_upd_ne by done; done]
  |apply (cond_step s i); [done|cbn; try naive_solver]
  |apply (coming_step s i); [done|try done|rewrite E; cbn; rewrite ?sw_upd_eq; try done
                            |intros j Hj; cbn; rewrite ?sw_upd_ne by done; done|rewrite E; cbn; try done]
  |rewrite E; cbn; auto].

(** Whoever else holds the p->lock of a process that is to sleep finds it asleep. *)
Lemma sleeper s i k : inv s -> holds_p i (pcs s i) = Some k -> i <> k -> committed (pcs s k) (pstate s k) ->
  pcs s k = Off Tidy /\ pstate s k = SLEEPING /\ chan s k = true.
Proof.
  intros HI Hp%(inv_pl _ HI) Hne Hc. pose proof (committed_ok _ _ HI Hc) as Hk.
  assert (holds_p k (pcs s k) <> Some k) as Hn by (rewrite (inv_pl _ HI); congruence).
  destruct (pcs s k) as [| | | | | | |[]|[]| | | | | | | | | | | | | |]; by try (by destruct Hn).
Qed.

(** An agent that holds the p->lock of a sleeping process makes it RUNNABLE. *)
Lemma inv_wakes s i k p : inv s ->
  pstate s i = RUNNING -> pstate s k = SLEEPING ->
  holds_p i (pcs s i) = Some k -> holds_p i p = Some k -> holds_lk p = holds_lk (pcs s i) ->
  (forall c, state_ok p RUNNING c) -> is_proc p = false ->
  (forall j, j <> k -> coming (pcs s i) j -> coming p j) ->
  inv (goto i p (with_state k RUNNABLE s)).
Proof.
  intros HI Hi Hk Ho Hp Hl Hst Hn Hcom. assert (i <> k) as Hne by congruence.
  destruct (sleeper s i k) as (Eo & _ & Ec); [done..| |].
  { unfold committed. by destruct (pcs s k). }
  assert (forall x, is_proc x = true -> p <> x) as Hpx by (intros x Hx ->; congruence).
  apply (inv_at s i); [done|by left|by left; rewrite Hp, Ho| | | |by rewrite Hn]; cbn.
  - intros j. destruct (decide (j = i)) as [->|Hj]; [rewrite sw_upd_eq, sw_upd_ne, Hi by done; apply Hst|].
    rewrite (sw_upd_ne (pcs s)) by done. destruct (decide (j = k)) as [->|Hjk].
    + rewrite sw_upd_eq, Eo. by right.
    + rewrite sw_upd_ne by done. apply HI.
  - apply (cond_step s i); [done|]. right. split_and!; [done|by apply Hpx|]. intros E. by destruct (Hpx UnlockLk).
  - apply (coming_step s i); [done|done| | |].
    + rewrite sw_upd_ne, Hi by done. pose proof (Hpx SetChan eq_refl). pose proof (Hpx SetSleeping eq_refl). by destruct p.
    + intros j _. destruct (decide (j = k)) as [->|]; [by rewrite sw_upd_eq|by rewrite sw_upd_ne].
    + intros j Hj Hcj. apply Hcom; [|done]. intros ->. rewrite sw_upd_ne, Eo, sw_upd_eq in Hcj by done. done.
Qed.

Lemma inv_post s i : inv s -> pcs s i = Post -> inv (goto i (Wake 0) (with_cond true s)).
Proof.
  intros HI E. apply (inv_at s i); [done|locks E|locks E| | | |by rewrite E].
  - apply state_step; [done| |done]. pose proof (inv_state _ HI i) as Hst. by rewrite E in Hst.
  - intros j. destruct (decide (j = i)) as [->|Hj]; [rewrite sw_upd_eq; naive_solver|]. rewrite sw_upd_ne by done.
    intros Hx. destruct Hj. assert (lk s = Some i) as Ei by (apply HI; by rewrite E).
    assert (lk s = Some j) by (apply HI; by destruct Hx as [-> | ->]). congruence.
  - intros j _ _. exists i. rewrite sw_upd_eq. cbn. lia.
Qed.

Lemma inv_unlock_lk s i : inv s -> pcs s i = UnlockLk -> inv (goto i SetChan (with_lk None s)).
Proof.
  intros HI E. assert (cond s = false) as Ec by (apply (inv_cond _ HI i); auto).
  apply (inv_at s i); [done|locks E|locks E| | | |rewrite E; cbn; auto]; cbn.
  - apply state_step; [done| |done]. pose proof (inv_state _ HI i) as Hst. by rewrite E in Hst.
  - done.
  - rewrite Ec. done.
Qed.

Lemma inv_resume s i : inv s -> (i < NPROC)%nat -> plock s i = None -> pstate s i = RUNNABLE ->
  inv (match pcs s i with
       | Off next => goto i next (with_plock i (Some i) (with_state i RUNNING s))
       | _ => goto i Twice s
       end).
Proof.
  intros HI Hi Hp Hs. pose proof (inv_state _ HI i) as Hrun.
  assert (holds_p i (pcs s i) <> Some i) as Hn by (rewrite (inv_pl _ HI); congruence). rewrite Hs in Hrun.
  destruct (pcs s i) as [| | | | | | |next|next| | | | | | | | | | | | | |] eqn:E; cbn in Hrun, Hn; try naive_solver.
  destruct next; try done; own_step HI s i E.
Qed.

Lemma inv_wake_no s i k : inv s -> pcs s i = WakeTest k -> ~ (pstate s k = SLEEPING /\ chan s k = true) ->
  inv (goto i (WakeNext k) s).
Proof.
  intros HI E Hn. pose proof (inv_state _ HI i) as Hrun. rewrite E in Hrun. cbn in Hrun.
  own_step HI s i E. intros j Hj Hc. destruct (decide (j = k)) as [->|]; [|lia]. exfalso.
  destruct (decide (i = k)) as [->|Hne]; [rewrite sw_upd_eq in Hc; cbn in Hc; congruence|].
  rewrite sw_upd_ne in Hc by done. destruct (sleeper s i k) as (_ & ? & ?); [done|by rewrite E|done|done|].
  by destruct Hn.
Qed.

Lemma inv_wake_end s i : inv s -> pcs s i = Wake NPROC -> inv (goto i Leave s).
Proof.
  intros HI E. pose proof (inv_state _ HI i) as Hrun. rewrite E in Hrun. cbn in Hrun.
  own_step HI s i E. intros j Hj Hc.
  destruct (decide (j = i)) as [->|Hne]; [rewrite sw_upd_eq in Hc; cbn in Hc; congruence|].
  rewrite sw_upd_ne in Hc by done. pose proof (committed_ok _ _ HI Hc) as Hk. pose proof (inv_proc _ HI j) as Hp.
  destruct (pcs s j); try done; specialize (Hp eq_refl); lia.
Qed.

Lemma sw_inv_step s s' : inv s -> step s s' -> inv s'.
Proof.
  intros HI Hs.
  destruct Hs as
    [s i Hi E El|s i E El|s i E Ec|s i E Ec|s i E|s i E|s i E|s i E Ep|s i E|s i E|s i E|s i next E|s i E|s i next E
    |s i E El|s i Hi Ep Est|s i k E Hk Ep|s i k E Est Ech|s i k E Hn|s i k E|s i E|s i next Hi E Hn|s i next E Ep|s i next E
    |s i E|s i k E Hk Ep|s i k E Est|s i k E Est|s i k E|s i k E|s i E].
  all: eauto using inv_post, inv_unlock_lk, inv_resume, inv_wake_no, inv_wake_end.
  all: try (own_step HI s i E; fail).
  all: pose proof (inv_state _ HI i) as Hi'; rewrite E in Hi'; cbn in Hi'.
  - destruct next as [| | | | | | | | | |[]| | | | | | | | | | | |]; try done; own_step HI s i E.
  - destruct next; try naive_solver; own_step HI s i E.
  - apply inv_wakes; rewrite ?E; cbn; try done; lia.
  - destruct next; try done; own_step HI s i E.
  - apply inv_wakes; rewrite ?E; cbn; done.
Qed.

Lemma sw_inv_init : inv init.
Proof. split; cbn; try done; naive_solver. Qed.

Lemma reachable_inv s : reachable s -> inv s.
Proof. induction 1; eauto using sw_inv_init, sw_inv_step. Qed.

(** ** No deadlock *)

(** The loops stay within proc[], wherever a timer interrupt stopped them. *)
Fixpoint in_range (p : pc) : Prop :=
  match p with
  | Wake k | Kill k => (k <= NPROC)%nat
  | WakeTest k | WakeNext k | KillTest k | KillNext k => (k < NPROC)%nat
  | Switch next | Off next | UnlockSelf next | YieldLock next | YieldState next => in_range next
  | _ => True
  end.

Lemma range_goto s i p : (forall j, in_range (pcs s j)) -> in_range p -> forall j, in_range (upd (pcs s) i p j).
Proof.
  intros H Hp j. destruct (decide (j = i)) as [->|]; [by rewrite sw_upd_eq|rewrite sw_upd_ne by done; apply H].
Qed.

Lemma reachable_range s : reachable s -> forall i, in_range (pcs s i).
Proof.
  induction 1 as [|s s' _ IH Hs]; [done|].
  destruct Hs as [| | | | | | | | | | | | | | |s i| | | | | | | | | | | | | | |];
    try (match goal with E : pcs s ?i = _ |- _ => pose proof (IH i) as Hr; rewrite E in Hr end;
         apply range_goto; [done|]; cbn in *; try lia; done).
  pose proof (IH i) as Hr. destruct (pcs s i); by apply range_goto.
Qed.

(** Agent [j] has a step to take. *)
Definition advances (s : state) (j : nat) : Prop := exists s', step s s' /\ pcs s' j <> pcs s j.

Lemma advances_to s j p s0 : step s (goto j p s0) -> pcs s0 = pcs s -> p <> pcs s j -> advances s j.
Proof. intros Hs E Hp. exists (goto j p s0). split; [done|]. cbn. by rewrite E, sw_upd_eq. Qed.

Lemma holder_advances s k j : inv s -> plock s k = Some j -> advances s j.
Proof.
  intros HI Hk%(inv_pl _ HI). pose proof (inv_state _ HI j) as Hst.
  destruct (pcs s j) as [| | | | | | |next| | |next| | | | | | | |next| | | |] eqn:E; try done.
  - eapply advances_to; [by apply step_unlock_lk|done|congruence].
  - eapply advances_to; [by apply step_chan|done|congruence].
  - eapply advances_to; [by apply step_sleeping|done|congruence].
  - eapply advances_to; [by apply step_switch|done|congruence].
  - eapply advances_to; [by apply step_tidy|done|congruence].
  - eapply advances_to; [by apply step_unlock_self|done|]. rewrite E. by destruct Hst, next.
  - destruct (decide (pstate s k0 = SLEEPING /\ chan s k0 = true)) as [[? ?]|].
    + eapply advances_to; [by apply step_wake_yes|done|congruence].
    + eapply advances_to; [by apply step_wake_no|done|congruence].
  - eapply advances_to; [by apply step_wake_next|done|congruence].
  - eapply advances_to; [by apply step_yield_state|done|congruence].
  - eapply advances_to; [by apply step_kill_other|done|congruence].
  - eapply advances_to; [by apply step_kill_next|done|congruence].
Qed.

(** The holder of [lk] runs, or waits for one p->lock. *)
Lemma lk_holder s i : inv s -> in_range (pcs s i) -> lk s = Some i ->
  advances s i \/ exists k j, plock s k = Some j /\ j <> i.
Proof.
  intros HI Hr Hl%(inv_lk _ HI).
  assert (forall k, holds_p i (pcs s i) = None -> (plock s k = None -> advances s i) ->
    advances s i \/ exists k j, plock s k = Some j /\ j <> i) as Hwait.
  { intros k Hn Ha. destruct (plock s k) as [j|] eqn:Ek; [right; exists k, j|left; auto]. split; [done|]. intros ->.
    apply (inv_pl _ HI) in Ek. congruence. }
  destruct (pcs s i) as [| | | | | | | | | | | | | |k|k| | | | | | |] eqn:E; try done;
    try (left; eapply (holder_advances s _ i HI), (inv_pl _ HI); rewrite E; reflexivity).
  - left. destruct (cond s) eqn:Ec; (eapply advances_to; [first [by apply step_test_true|by apply step_test_false]|done|congruence]).
  - apply (Hwait i); [done|]. intros. eapply advances_to; [by apply step_lock_self|done|congruence].
  - left. eapply advances_to; [by apply step_take|done|congruence].
  - left. eapply advances_to; [by apply step_leave|done|congruence].
  - left. eapply advances_to; [by apply step_cond|done|congruence].
  - cbn in Hr. destruct (decide (k = NPROC)) as [->|].
    + left. eapply advances_to; [by apply step_wake_end|done|congruence].
    + apply (Hwait k); [done|]. intros. eapply advances_to; [apply step_wake; [done|lia|done]|done|congruence].
Qed.

(** ** The theorems *)


(** C31: the locks of sleep(), wakeup(), yield() and kill() do not deadlock:
    whoever holds a p->lock has a step to take, and whoever holds the lock of the
    condition has one too, or waits for a p->lock whose holder has one. *)
Theorem no_deadlock s : reachable s ->
  (forall k j, plock s k = Some j -> advances s j) /\
  (forall i, lk s = Some i -> advances s i \/ exists k j, plock s k = Some j /\ j <> i /\ advances s j).
Proof.
  intros Hs. pose proof (reachable_inv _ Hs) as HI. split; [eauto using holder_advances|]. intros i Hi.
  destruct (lk_holder s i HI (reachable_range _ Hs i) Hi) as [?|(k & j & Hk & Hne)]; [by left|].
  right. exists k, j. eauto using holder_advances.
Qed.

(** ** Runs *)

(** wakeup() passes a process that is not asleep. *)
Lemma wake_passes s i k : reachable s -> pcs s i = Wake k -> (k < NPROC)%nat ->
  (forall k, plock s k = None) -> pstate s k <> SLEEPING ->
  exists s', reachable s' /\ pcs s' i = Wake (S k) /\ (forall k, plock s' k = None) /\
    pstate s' = pstate s /\ cond s' = cond s /\ lk s' = lk s.
Proof.
  intros Hr E Hk Hp Hs.
  set (s1 := goto i (WakeTest k) (with_plock k (Some i) s)).
  set (s2 := goto i (WakeNext k) s1). set (s3 := goto i (Wake (S k)) (with_plock k None s2)).
  exists s3. split; [|split_and!; cbn; try done; [by rewrite sw_upd_eq|]].
  - apply (reach_step s2); [apply (reach_step s1); [apply (reach_step s); [done|]|]|].
    + by apply step_wake.
    + apply step_wake_no; [cbn; by rewrite sw_upd_eq|]. by intros [? _].
    + apply step_wake_next. cbn. by rewrite sw_upd_eq.
  - intros k'. unfold upd. by repeat case_decide.
Qed.

Lemma wake_finishes n s i k : reachable s -> pcs s i = Wake k -> (k + n = NPROC)%nat ->
  (forall k, plock s k = None) -> (forall j, (k <= j)%nat -> pstate s j <> SLEEPING) -> cond s = true ->
  exists s', reachable s' /\ pstate s' = pstate s /\ cond s' = true /\ lk s' = None.
Proof.
  revert s k. induction n as [|n IH]; intros s k Hr E Hn Hp Hs Hc.
  - assert (k = NPROC) as -> by lia. exists (goto i Idle (with_lk None (goto i Leave s))).
    split; [|done]. apply (reach_step (goto i Leave s)); [apply (reach_step s); [done|by apply step_wake_end]|].
    apply step_leave. cbn. by rewrite sw_upd_eq.
  - destruct (wake_passes s i k) as (s' & Hr' & E' & Hp' & Hs' & Hc' & _); [done..|lia|done|by apply Hs|].
    destruct (IH s' (S k)) as (s2 & ? & ? & ? & ?); [done..|lia|done| |congruence|].
    + intros j Hj. rewrite Hs'. apply Hs. lia.
    + exists s2. split_and!; congruence.
Qed.

(** Process 0 finds the condition false and lets go of its lock. *)
Definition committing : state :=
  goto 0 SetChan (with_lk None (goto 0 UnlockLk (with_plock 0 (Some 0%nat)
    (goto 0 LockSelf (goto 0 Test (with_lk (Some 0%nat) init)))))).

Lemma committing_reachable : reachable committing.
Proof.
  eapply reach_step; [|by apply step_unlock_lk].
  eapply reach_step; [|by apply step_lock_self].
  eapply reach_step; [|by apply step_test_false].
  eapply reach_step; [|apply step_wait; [unfold NPROC; lia|done|done]].
  apply reach_init.
Qed.

(** It falls asleep, an interrupt handler posts, and its wakeup() comes to process 0. *)
Definition asleep : state :=
  goto 0 (Off Tidy) (with_plock 0 None (goto 0 (Switch Tidy) (with_state 0 SLEEPING
    (goto 0 SetSleeping (with_chan 0 true committing))))).

Definition woken : state :=
  goto 64 (Wake 1) (with_plock 0 None (goto 64 (WakeNext 0) (with_state 0 RUNNABLE
    (goto 64 (WakeTest 0) (with_plock 0 (Some 64%nat) (goto 64 (Wake 0) (with_cond true
      (goto 64 Post (with_lk (Some 64%nat) asleep))))))))).

Lemma asleep_reachable : reachable asleep.
Proof.
  eapply reach_step; [|by apply step_switch].
  eapply reach_step; [|by apply step_sleeping].
  eapply reach_step; [|by apply step_chan].
  apply committing_reachable.
Qed.

Lemma woken_reachable : reachable woken.
Proof.
  eapply reach_step; [|by apply step_wake_next].
  eapply reach_step; [|by apply step_wake_yes].
  eapply reach_step; [|apply step_wake; [done|unfold NPROC; lia|done]].
  eapply reach_step; [|by apply step_cond].
  eapply reach_step; [|by apply step_post].
  apply asleep_reachable.
Qed.


(** A wakeup() that waits for the p->lock of a process on its way to sleep. *)
Lemma no_deadlock_witness :
  let s := goto 64 (Wake 0) (with_cond true (goto 64 Post (with_lk (Some 64%nat) committing))) in
  lk s = Some 64%nat /\ plock s 0%nat = Some 0%nat /\ advances s 0 /\
  (advances s 64 \/ exists k j, plock s k = Some j /\ j <> 64%nat /\ advances s j).
Proof.
  intros s. assert (reachable s) as Hs.
  { eapply reach_step; [|by apply step_cond]. eapply reach_step; [|by apply step_post]. apply committing_reachable. }
  destruct (no_deadlock s Hs) as [Hp Hl].
  split; [reflexivity|]. split; [reflexivity|]. split; [apply (Hp 0%nat); reflexivity|apply Hl; reflexivity].
Defined.

End SleepWakeup.
