(* ===== verification/Sleeplock.v ===== *)
(** * kernel/sleeplock.c: long-term locks for processes

    A sleep lock is named like a spin lock; [sl_held] maps the locks that are
    taken to the pid recorded in them, so an absent lock has [locked = 0] and
    [pid = 0].  acquiresleep stops with [Asleep] when the lock is taken;
    [acquiresleep_back] is what it does when it is woken up. *)

From Stdlib Require Import ZArith Lia.
From stdpp Require Import base list gmap strings.
From S2P Require Import Prelude KString Spinlock Riscv Kalloc Vm Proc.

Record sst := mk_sst {
  sl_p : pst;
  sl_held : gmap lockid Z;
}.

Definition set_sl_p (x : pst) (s : sst) : sst := mk_sst x (sl_held s).
Definition set_sl_held (x : gmap lockid Z) (s : sst) : sst := mk_sst (sl_p s) x.

#[global] Instance lens_sl_p : Lens sst pst.
Proof. by exists sl_p set_sl_p; intros; destruct s. Defined.
#[global] Instance lens_sl_k : Lens sst kmst := lens_trans lens_sl_p lens_ps_k.
#[global] Instance lens_sl_lk : Lens sst lks := lens_trans lens_sl_p lens_ps_lk.

(** The spin lock lk->lk inside a sleep lock, and the lock as a channel. *)
Definition inner (l : lockid) : lockid := (("sleep lock " ++ l.1)%string, l.2).

Definition initsleeplock (l : lockid) : M sst unit :=
  ↑ initlock (inner l);;
  modify (fun s => set_sl_held (delete l (sl_held s)) s).

(** The loop of acquiresleep and what follows. *)
Definition acquiresleep_loop (l : lockid) : M sst unit :=
  h ← gets (fun s => bool_decide (is_Some (sl_held s !! l)));
  if (h : bool) then ↑ sleep l (inner l)
  else
    p ← ↑ curproc;
    pid ← ↑ getp p p_pid;
    modify (fun s => set_sl_held (<[l := pid]> (sl_held s)) s);;
    ↑ release (inner l).

Definition acquiresleep (l : lockid) : M sst unit :=
  ↑ acquire (inner l);;
  acquiresleep_loop l.

Definition acquiresleep_back (l : lockid) : M sst unit :=
  ↑ sleep_back (inner l);;
  acquiresleep_loop l.

Definition releasesleep (l : lockid) : M sst unit :=
  ↑ acquire (inner l);;
  modify (fun s => set_sl_held (delete l (sl_held s)) s);;
  ↑ wakeup l;;
  ↑ release (inner l).

Definition holdingsleep (l : lockid) : M sst bool :=
  ↑ acquire (inner l);;
  h ← gets (fun s => sl_held s !! l);
  p ← ↑ curproc;
  pid ← ↑ getp p p_pid;
  ↑ release (inner l);;
  mret (bool_decide (h = Some pid)).

(** ** Correctness *)

Definition pid_of (i : nat) (s : sst) : Z := p_pid (proc_at i (sl_p s)).

Lemma inner_not_proc l i : inner l <> proc_lock i.
Proof. by unfold inner, proc_lock. Qed.

Lemma running_free i s l : running i s -> is_free (k_lk (ps_k s)) l.
Proof. intros [_ E _ _ _]. unfold is_free. by rewrite E. Qed.

Lemma wp_curproc_in {S} {L : Lens S pst} i Q (s : S) :
  intr_wf (k_lk (ps_k (lget s))) -> cproc (k_lk (ps_k (lget s))) = Some i ->
  Q i (lset (lset (settle (k_lk (ps_k (lget s)))) (lget s)) s) -> wp (↑ curproc) Q s.
Proof.
  intros Hwf Hc HQ. apply wp_zoom. unfold curproc. bstep. apply wp_myproc; [done|].
  change (cproc (lget (lget s))) with (cproc (k_lk (ps_k (lget s)))). rewrite Hc. by bstep.
Qed.

(** [pst_le] when only the locks of this CPU were used. *)
Ltac pst_same := split; cbn; try done; try apply settle_eqv.

Lemma wp_acquiresleep l i Q s :
  running i (sl_p s) -> sl_held s !! l = None ->
  (forall s', pst_le (sl_p s) (sl_p s') -> sl_held s' = <[l := pid_of i s]> (sl_held s) -> Q tt s') ->
  wp (acquiresleep l) Q s.
Proof.
  intros Hr Hfree HQ. pose proof (running_free i (sl_p s) (inner l) Hr) as Hf.
  unfold acquiresleep, acquiresleep_loop, getp. bstep. apply wp_lock; [done|]. bsteps.
  cbn. rewrite Hfree. rewrite bool_decide_false by (intros [? ?]; done). bstep.
  destruct Hr as [Hwf Hlocks Hc Hlen Hst].
  apply (wp_curproc_in i); cbn; [by apply locked_by_wf|by rewrite locked_by_cproc|].
  bstep. apply wp_zoom. bstep. bstep. bstep.
  eapply (wp_unlock (inner l) (k_lk (ps_k (sl_p s)))); [done|done|cbn; apply settle_eqv|].
  apply HQ; [pst_same|done].
Qed.

Lemma wp_releasesleep l i Q s :
  running i (sl_p s) ->
  (forall s', pst_le (sl_p s) (sl_p s') -> sl_held s' = delete l (sl_held s) -> Q tt s') ->
  wp (releasesleep l) Q s.
Proof.
  intros Hr HQ. pose proof (running_free i (sl_p s) (inner l) Hr) as Hf.
  unfold releasesleep. bstep. apply wp_lock; [done|]. bsteps.
  pose proof Hr as [Hwf Hlocks Hc Hlen Hst].
  apply wp_zoom, wp_wakeup; cbn; [by apply locked_by_wf| |done|].
  { intros j. apply locked_by_free; [apply inner_not_proc|by apply (running_free i)]. }
  intros p' Hle Hp'. eapply (wp_unlock (inner l) (k_lk (ps_k (sl_p s)))); [done|done|cbn; apply Hle|].
  apply HQ; [|done]. destruct Hle as [A1 A2 A3 A4 A5 A6 A7]. cbn in *. split; cbn; try done.
  apply settle_eqv.
Qed.

Lemma wp_holdingsleep l i Q s :
  running i (sl_p s) ->
  (forall s', pst_le (sl_p s) (sl_p s') -> sl_held s' = sl_held s ->
     Q (bool_decide (sl_held s !! l = Some (pid_of i s))) s') ->
  wp (holdingsleep l) Q s.
Proof.
  intros Hr HQ. pose proof (running_free i (sl_p s) (inner l) Hr) as Hf.
  unfold holdingsleep, getp. bstep. apply wp_lock; [done|]. bsteps.
  destruct Hr as [Hwf Hlocks Hc Hlen Hst].
  apply (wp_curproc_in i); cbn; [by apply locked_by_wf|by rewrite locked_by_cproc|].
  bstep. apply wp_zoom. bstep. bstep.
  eapply (wp_unlock (inner l) (k_lk (ps_k (sl_p s)))); [done|done|cbn; apply settle_eqv|].
  bstep. apply HQ; [pst_same|done].
Qed.
