(* ===== verification/Bio.v ===== *)
(** * kernel/bio.c: the buffer cache

    The cache is the array of buffers with the list through prev and next as it
    is in the C code: pointers are indices, and index NBUF is bcache.head.

    The disk is a map from block numbers to blocks.  [disk_rw] is the contract
    of virtio_disk_rw(): it has transferred the block when it returns.  The
    writes are recorded in order in [d_writes], so that what a crash leaves on
    the disk can be expressed: the disk after a prefix of the writes. *)

From Stdlib Require Import ZArith Lia.
From stdpp Require Import base list gmap strings.
From S2P Require Import Prelude KString Spinlock Riscv Kalloc Vm Proc Sleeplock.

Definition BSIZE : nat := 1024.
Definition NBUF : nat := 30.
Definition HEAD : nat := NBUF.

Record buf := mk_buf {
  b_valid : bool;  (* has data been read from disk? *)
  b_dev : Z;
  b_blockno : Z;
  b_refcnt : Z;  (* uint *)
  b_prev : nat;  (* struct buf*, an index; NBUF is &bcache.head *)
  b_next : nat;
  b_data : list Z;  (* BSIZE bytes *)
}.

Definition set_b_valid (x : bool) (b : buf) : buf :=
  mk_buf x (b_dev b) (b_blockno b) (b_refcnt b) (b_prev b) (b_next b) (b_data b).
Definition set_b_dev (x : Z) (b : buf) : buf :=
  mk_buf (b_valid b) x (b_blockno b) (b_refcnt b) (b_prev b) (b_next b) (b_data b).
Definition set_b_blockno (x : Z) (b : buf) : buf :=
  mk_buf (b_valid b) (b_dev b) x (b_refcnt b) (b_prev b) (b_next b) (b_data b).
Definition set_b_refcnt (x : Z) (b : buf) : buf :=
  mk_buf (b_valid b) (b_dev b) (b_blockno b) x (b_prev b) (b_next b) (b_data b).
Definition set_b_prev (x : nat) (b : buf) : buf :=
  mk_buf (b_valid b) (b_dev b) (b_blockno b) (b_refcnt b) x (b_next b) (b_data b).
Definition set_b_next (x : nat) (b : buf) : buf :=
  mk_buf (b_valid b) (b_dev b) (b_blockno b) (b_refcnt b) (b_prev b) x (b_data b).
Definition set_b_data (x : list Z) (b : buf) : buf :=
  mk_buf (b_valid b) (b_dev b) (b_blockno b) (b_refcnt b) (b_prev b) (b_next b) x.

Definition zero_block : list Z := replicate BSIZE 0.
Definition buf0 : buf := mk_buf false 0 0 0 0 0 zero_block.

Record bst := mk_bst {
  bc_s : sst;
  bc_buf : list buf;  (* bcache.buf, then bcache.head *)
  d_disk : gmap Z (list Z);  (* the blocks of the disk *)
  d_writes : list (Z * list Z);  (* the block writes done so far, the last one last *)
}.

Definition set_bc_s (x : sst) (s : bst) : bst :=
  mk_bst x (bc_buf s) (d_disk s) (d_writes s).
Definition set_bc_buf (x : list buf) (s : bst) : bst :=
  mk_bst (bc_s s) x (d_disk s) (d_writes s).
Definition set_d_disk (x : gmap Z (list Z)) (s : bst) : bst :=
  mk_bst (bc_s s) (bc_buf s) x (d_writes s).
Definition set_d_writes (x : list (Z * list Z)) (s : bst) : bst :=
  mk_bst (bc_s s) (bc_buf s) (d_disk s) x.

#[global] Instance lens_bc_s : Lens bst sst.
Proof. by exists bc_s set_bc_s; intros; destruct s. Defined.
#[global] Instance lens_bc_p : Lens bst pst := lens_trans lens_bc_s lens_sl_p.
#[global] Instance lens_bc_k : Lens bst kmst := lens_trans lens_bc_s lens_sl_k.
#[global] Instance lens_bc_lk : Lens bst lks := lens_trans lens_bc_s lens_sl_lk.

Definition buf_at (b : nat) (s : bst) : buf := default buf0 (bc_buf s !! b).
Definition getb {A} (b : nat) (f : buf -> A) : M bst A := gets (fun s => f (buf_at b s)).
Definition setb (b : nat) (f : buf -> buf) : M bst unit :=
  modify (fun s => set_bc_buf (alter f b (bc_buf s)) s).

Definition bcache_lock : lockid := ("bcache"%string, 0).
Definition buf_lock (b : nat) : lockid := ("buffer"%string, Z.of_nat b).

Definition dblock (s : bst) (blk : Z) : list Z := default zero_block (d_disk s !! blk).

(** virtio_disk_rw(b, write) *)
Definition disk_rw (b : nat) (write : bool) : M bst unit :=
  x ← getb b id;
  if write then
    modify (fun s => set_d_writes (d_writes s ++ [(b_blockno x, b_data x)])
                       (set_d_disk (<[b_blockno x := b_data x]> (d_disk s)) s))
  else
    modify (fun s => set_bc_buf (alter (set_b_data (dblock s (b_blockno x))) b (bc_buf s)) s).

(** Insert [b] after bcache.head. *)
Definition push_front (b : nat) : M bst unit :=
  hn ← getb HEAD b_next;
  setb b (set_b_next hn);;
  setb b (set_b_prev HEAD);;
  hn ← getb HEAD b_next;
  setb hn (set_b_prev b);;
  setb HEAD (set_b_next b).

Definition binit : M bst unit :=
  ↑ initlock bcache_lock;;
  setb HEAD (set_b_prev HEAD);;
  setb HEAD (set_b_next HEAD);;
  for_each (seq 0 NBUF) (fun b =>
    hn ← getb HEAD b_next;
    setb b (set_b_next hn);;
    setb b (set_b_prev HEAD);;
    ↑ initsleeplock (buf_lock b);;
    hn ← getb HEAD b_next;
    setb hn (set_b_prev b);;
    setb HEAD (set_b_next b);;
    mret (None : option unit));;
  mret tt.

(** The loops of bget: from [b] along [step] to a buffer that is [found]. *)
Fixpoint scan (fuel : nat) (step : buf -> nat) (found : buf -> bool) (b : nat)
    : M bst (option nat) :=
  if Nat.eqb b HEAD then mret None else
  match fuel with
  | O => out_of_fuel
  | S fuel' =>
      x ← getb b id;
      if found x then mret (Some b) else scan fuel' step found (step x)
  end.

Definition bget (dev blockno : Z) : M bst nat :=
  ↑ acquire bcache_lock;;
  b ← getb HEAD b_next;
  r ← scan NBUF b_next (fun x => (b_dev x =? dev) && (b_blockno x =? blockno)) b;
  match r with
  | Some b =>
      setb b (fun x => set_b_refcnt (u32 (b_refcnt x + 1)) x);;
      ↑ release bcache_lock;;
      ↑ acquiresleep (buf_lock b);;
      mret b
  | None =>
      b ← getb HEAD b_prev;
      r ← scan NBUF b_prev (fun x => b_refcnt x =? 0) b;
      match r with
      | Some b =>
          setb b (set_b_dev dev);;
          setb b (set_b_blockno blockno);;
          setb b (set_b_valid false);;
          setb b (set_b_refcnt 1);;
          ↑ release bcache_lock;;
          ↑ acquiresleep (buf_lock b);;
          mret b
      | None => panic "bget: no buffers"
      end
  end.

Definition bread (dev blockno : Z) : M bst nat :=
  b ← bget dev blockno;
  v ← getb b b_valid;
  when (negb v) (disk_rw b false;; setb b (set_b_valid true));;
  mret b.

Definition bwrite (b : nat) : M bst unit :=
  h ← ↑ holdingsleep (buf_lock b);
  if negb h then panic "bwrite" else
  disk_rw b true.

Definition brelse (b : nat) : M bst unit :=
  h ← ↑ holdingsleep (buf_lock b);
  if negb h then panic "brelse" else
  ↑ releasesleep (buf_lock b);;
  ↑ acquire bcache_lock;;
  setb b (fun x => set_b_refcnt (u32 (b_refcnt x - 1)) x);;
  r ← getb b b_refcnt;
  when (r =? 0)
    (nx ← getb b b_next;
     pv ← getb b b_prev;
     setb nx (set_b_prev pv);;
     pv ← getb b b_prev;
     nx ← getb b b_next;
     setb pv (set_b_next nx);;
     push_front b);;
  ↑ release bcache_lock.

Definition bpin (b : nat) : M bst unit :=
  ↑ acquire bcache_lock;;
  setb b (fun x => set_b_refcnt (u32 (b_refcnt x + 1)) x);;
  ↑ release bcache_lock.

Definition bunpin (b : nat) : M bst unit :=
  ↑ acquire bcache_lock;;
  setb b (fun x => set_b_refcnt (u32 (b_refcnt x - 1)) x);;
  ↑ release bcache_lock.

Lemma wp_getb {A} b (f : buf -> A) Q s : Q (f (buf_at b s)) s -> wp (getb b f) Q s.
Proof. done. Qed.
Lemma wp_setb b f Q s : Q tt (set_bc_buf (alter f b (bc_buf s)) s) -> wp (setb b f) Q s.
Proof. done. Qed.

Ltac cstep :=
  lazymatch goal with
  | |- wp (getb _ _) _ _ => apply wp_getb
  | |- wp (setb _ _) _ _ => apply wp_setb
  | _ => bstep
  end.
