(* ===== verification/BioInv.v ===== *)
(** * kernel/bio.c: the list of buffers

    The list through prev and next is a ring of all buffers around bcache.head;
    removing a buffer and inserting it at the front, as brelse does, keeps it
    one.  The scans of bget visit its buffers in order. *)

From Stdlib Require Import ZArith Lia.
From stdpp Require Import base list gmap strings.
From S2P Require Import Prelude KString Spinlock Riscv Kalloc Vm Proc Sleeplock Bio.

(** ** Rings of pointers *)

Definition fupd {A} (f : nat -> A) (i : nat) (v : A) : nat -> A :=
  fun j => if decide (j = i) then v else f j.

Lemma fupd_eq {A} (f : nat -> A) i v : fupd f i v i = v.
Proof. unfold fupd. by rewrite decide_True. Qed.
Lemma fupd_ne {A} (f : nat -> A) i v j : j <> i -> fupd f i v j = f j.
Proof. intros. unfold fupd. by rewrite decide_False. Qed.

(** [x], [l] in order, [y] are linked through [nx] and [pv]. *)
Fixpoint chain (nx pv : nat -> nat) (x : nat) (l : list nat) (y : nat) : Prop :=
  match l with
  | [] => nx x = y /\ pv y = x
  | z :: l' => nx x = z /\ pv z = x /\ chain nx pv z l' y
  end.

Definition ring (nx pv : nat -> nat) (h : nat) (l : list nat) : Prop := chain nx pv h l h.

Lemma chain_app nx pv x l1 z l2 y :
  chain nx pv x (l1 ++ z :: l2) y <-> chain nx pv x l1 z /\ chain nx pv z l2 y.
Proof.
  revert x. induction l1 as [|w l1 IH]; intros x; simpl; [tauto|]. rewrite IH. tauto.
Qed.

(** A chain depends on the links of its members only. *)
Lemma chain_ext nx pv nx' pv' x l y :
  (forall i, i ∈ x :: l -> nx' i = nx i) -> (forall i, i ∈ l ++ [y] -> pv' i = pv i) ->
  chain nx pv x l y -> chain nx' pv' x l y.
Proof.
  revert x. induction l as [|z l IH]; intros x Hn Hp; simpl.
  - intros [H1 H2]. rewrite (Hn x), (Hp y) by set_solver. done.
  - intros (H1 & H2 & H3). rewrite (Hn x), (Hp z) by set_solver. split_and!; try done.
    apply IH; [set_solver..|done].
Qed.

Lemma chain_pv nx pv x l y : chain nx pv x l y -> pv y ∈ x :: l.
Proof.
  revert x. induction l as [|z l IH]; intros x; simpl.
  - intros [_ ->]. set_solver.
  - intros (_ & _ & H). apply IH in H. set_solver.
Qed.

Lemma chain_nx nx pv x l y : chain nx pv x l y -> nx x ∈ l ++ [y].
Proof. destruct l; simpl; intros [-> _]; set_solver. Qed.

(** Unlink [b] between its neighbours. *)
Lemma chain_unlink nx pv x l1 b l2 y :
  chain nx pv x (l1 ++ b :: l2) y -> NoDup (x :: l1 ++ b :: l2) -> NoDup (l1 ++ b :: l2 ++ [y]) ->
  chain (fupd nx (pv b) (nx b)) (fupd pv (nx b) (pv b)) x (l1 ++ l2) y.
Proof.
  intros [H1 H2]%chain_app. revert x H1. induction l1 as [|w l1 IH]; intros x H1 Hnd Hnd'; simpl in *.
  - destruct H1 as [_ ->]. destruct l2 as [|z l2]; simpl in *.
    + destruct H2 as [-> _]. by rewrite !fupd_eq.
    + destruct H2 as (-> & _ & H2). rewrite !fupd_eq. split_and!; [done..|].
      apply (chain_ext nx pv); [| |done].
      * intros i Hi. apply fupd_ne. rewrite !NoDup_cons in Hnd. set_solver.
      * intros i Hi. apply fupd_ne. rewrite !NoDup_cons in Hnd'. set_solver.
  - destruct H1 as (H0 & H0' & H1). pose proof (chain_pv _ _ _ _ _ H1) as Hp.
    pose proof (chain_nx _ _ _ _ _ H2) as Hn.
    rewrite NoDup_cons in Hnd, Hnd'. destruct Hnd as [Hx Hnd], Hnd' as [Hw Hnd'].
    split_and!.
    + rewrite fupd_ne; [done|]. intros ->. set_solver.
    + rewrite fupd_ne; [done|]. intros ->. set_solver.
    + by apply IH.
Qed.

(** Insert [b] behind the head. *)
Lemma ring_push nx pv h l b :
  ring nx pv h l -> NoDup (h :: l) -> b ∉ h :: l ->
  ring (fupd (fupd nx b (nx h)) h b) (fupd (fupd pv b h) (nx h) b) h (b :: l).
Proof.
  unfold ring. intros Hc Hnd Hb. assert (b <> h) as Hbh by set_solver. simpl.
  rewrite fupd_eq. destruct l as [|z l]; simpl in *.
  - destruct Hc as [E1 E2]. rewrite E1, (fupd_ne _ h b b) by done. rewrite !fupd_eq.
    rewrite (fupd_ne _ h b b), fupd_eq by done. done.
  - destruct Hc as (E1 & E2 & Hc). assert (b <> z) as Hbz by set_solver. rewrite E1.
    rewrite (fupd_ne _ z b b), fupd_eq by done. rewrite (fupd_ne _ h b b), fupd_eq, fupd_eq by done.
    split_and!; try done. apply (chain_ext nx pv); [| |done].
    + intros i Hi. rewrite !fupd_ne; [done|set_solver|]. rewrite NoDup_cons in Hnd. set_solver.
    + intros i Hi. rewrite !fupd_ne; [done| |].
      * intros ->. set_solver.
      * intros ->. rewrite !NoDup_cons in Hnd. set_solver.
Qed.

Lemma ring_unlink nx pv h l1 b l2 :
  ring nx pv h (l1 ++ b :: l2) -> NoDup (h :: l1 ++ b :: l2) ->
  ring (fupd nx (pv b) (nx b)) (fupd pv (nx b) (pv b)) h (l1 ++ l2).
Proof.
  intros Hr Hnd. apply chain_unlink; [done|done|].
  rewrite NoDup_cons in Hnd. destruct Hnd as [Hh Hnd].
  replace (l1 ++ b :: l2 ++ [h]) with ((l1 ++ b :: l2) ++ [h]) by by rewrite <- app_assoc.
  apply NoDup_app. split_and!; [done| |apply NoDup_singleton]. set_solver.
Qed.

(** Walking a ring backwards visits it in reverse. *)
Lemma chain_rev nx pv x l y : chain nx pv x l y -> chain pv nx y (reverse l) x.
Proof.
  revert x. induction l as [|z l IH]; intros x; simpl.
  - intros [? ?]. done.
  - intros (E1 & E2 & Hc). rewrite reverse_cons. apply chain_app. split; [by apply IH|]. done.
Qed.

(** ** The scans of bget *)

Definition bat (l : list buf) (b : nat) : buf := default buf0 (l !! b).

Lemma bat_alter f b l b' : (b < length l)%nat ->
  bat (alter f b l) b' = if decide (b' = b) then f (bat l b') else bat l b'.
Proof.
  intros Hb. unfold bat. case_decide as E.
  - subst. rewrite list_lookup_alter_eq. by destruct (lookup_lt_is_Some_2 l b Hb) as [x ->].
  - by rewrite list_lookup_alter_ne.
Qed.

(** The first buffer of [l] that is [found]. *)
Definition first_of (bufs : list buf) (found : buf -> bool) (l : list nat) : option nat :=
  snd <$> list_find (fun b => found (bat bufs b) = true) l.

Lemma scan_run (step : buf -> nat) pv found s : forall l x fuel,
  chain (fun b => step (buf_at b s)) pv x l HEAD -> HEAD ∉ l -> (length l <= fuel)%nat ->
  scan fuel step found (step (buf_at x s)) s = Ret (first_of (bc_buf s) found l) s.
Proof.
  induction l as [|z l IH]; intros x fuel Hc Hh Hf; simpl in Hc.
  - destruct Hc as [-> _]. by destruct fuel.
  - destruct Hc as (-> & _ & Hc). destruct fuel as [|fuel]; simpl in Hf; [lia|].
    cbn [scan]. rewrite (proj2 (Nat.eqb_neq z HEAD)) by set_solver.
    unfold mbind, M_bind, getb, gets. cbn beta iota. unfold first_of. simpl. unfold id.
    change (bat (bc_buf s) z) with (buf_at z s).
    destruct (found (buf_at z s)) eqn:E.
    + rewrite decide_True by done. done.
    + rewrite decide_False by congruence. rewrite (IH z fuel) by (done || set_solver || lia).
      unfold first_of. destruct (list_find _ l) as [[? ?]|]; done.
Qed.

(** ** What the cache holds

    [view blk] is the content of block [blk] as the file system sees it, [refs]
    the reference counts of the blocks in use, and [H] the blocks locked by the
    running process, each with its buffer.  All blocks are on device 1. *)
Definition setref (refs : gmap Z Z) (blk r : Z) : gmap Z Z :=
  if decide (r = 0) then delete blk refs else <[blk := r]> refs.

Definition getref (refs : gmap Z Z) (blk : Z) : Z := default 0 (refs !! blk).

Lemma getref_setref refs blk r blk' :
  getref (setref refs blk r) blk' = if decide (blk' = blk) then r else getref refs blk'.
Proof.
  unfold getref, setref. case_decide as E; case_decide as E'; subst.
  - by rewrite lookup_delete_eq.
  - by rewrite lookup_delete_ne.
  - by rewrite lookup_insert_eq.
  - by rewrite lookup_insert_ne.
Qed.

(** Buffer [a] is for block [blk]. *)
Definition caches (bufs : list buf) (a : nat) (blk : Z) : Prop :=
  (a < NBUF)%nat /\ b_dev (bat bufs a) = 1 /\ b_blockno (bat bufs a) = blk.

Record content (pid : Z) (bufs : list buf) (disk : Z -> list Z) (held : gmap lockid Z)
    (view : Z -> list Z) (refs : gmap Z Z) (H : gmap Z nat) : Prop := {
  ct_uniq : forall a b blk, caches bufs a blk -> caches bufs b blk -> a = b;
  ct_refs : forall a blk, caches bufs a blk -> b_refcnt (bat bufs a) = getref refs blk;
  ct_free : forall a, (a < NBUF)%nat -> b_dev (bat bufs a) <> 1 -> b_refcnt (bat bufs a) = 0;
  ct_dom : forall blk r, refs !! blk = Some r ->
    is_u32 r /\ r <> 0 /\ exists a, caches bufs a blk;
  ct_data : forall a blk, caches bufs a blk -> b_valid (bat bufs a) = true ->
    b_data (bat bufs a) = view blk;
  ct_view : forall blk, (forall a, caches bufs a blk -> b_valid (bat bufs a) = false) ->
    view blk = disk blk;
  ct_clean : forall blk, refs !! blk = None -> view blk = disk blk;
  ct_held : forall blk a, H !! blk = Some a ->
    caches bufs a blk /\ b_valid (bat bufs a) = true /\ held !! buf_lock a = Some pid;
  ct_unlocked : forall a, (a < NBUF)%nat -> (forall blk, H !! blk <> Some a) ->
    held !! buf_lock a = None;
}.

Definition ringed (bufs : list buf) : Prop :=
  length bufs = S NBUF /\
  exists l, ring (fun b => b_next (bat bufs b)) (fun b => b_prev (bat bufs b)) HEAD l /\
    l ≡ₚ seq 0 NBUF.

Record bio_inv (i : nat) (s : bst) (view : Z -> list Z) (refs : gmap Z Z) (H : gmap Z nat)
    : Prop := {
  bi_run : running i (sl_p (bc_s s));
  bi_ring : ringed (bc_buf s);
  bi_cont : content (pid_of i (bc_s s)) (bc_buf s) (dblock s) (sl_held (bc_s s)) view refs H;
}.

(** The layers below, after an operation of the cache. *)
Record bst_le (s s' : bst) : Prop := {
  bl_p : pst_le (sl_p (bc_s s)) (sl_p (bc_s s'));
  bl_sl : forall l, l.1 <> "buffer"%string -> sl_held (bc_s s') !! l = sl_held (bc_s s) !! l;
}.

#[global] Instance bst_le_preorder : PreOrder bst_le.
Proof.
  split; [by intros s|]. intros s1 s2 s3 [A1 A2] [B1 B2]. split; [by etrans|].
  intros l Hl. by rewrite B2, A2.
Qed.

(** ** Changes to single buffers *)

(** An update that keeps the links keeps the ring. *)
Lemma ringed_alter f b bufs :
  (forall x, b_next (f x) = b_next x /\ b_prev (f x) = b_prev x) -> (b < NBUF)%nat ->
  ringed bufs -> ringed (alter f b bufs).
Proof.
  intros Hf Hb [Hlen (l & Hr & Hl)]. split; [by rewrite length_alter|]. exists l. split; [|done].
  apply (chain_ext (fun b => b_next (bat bufs b)) (fun b => b_prev (bat bufs b))); [| |done];
    intros i _; rewrite bat_alter by lia; case_decide; [apply Hf|done|apply Hf|done].
Qed.

(** A reference count changes; nothing else. *)
Lemma content_setref pid bufs bufs' disk held view refs H a blk r :
  content pid bufs disk held view refs H -> caches bufs a blk -> is_u32 r ->
  (r = 0 -> view blk = disk blk) ->
  (forall b, b_dev (bat bufs' b) = b_dev (bat bufs b) /\ b_blockno (bat bufs' b) = b_blockno (bat bufs b) /\
     b_valid (bat bufs' b) = b_valid (bat bufs b) /\ b_data (bat bufs' b) = b_data (bat bufs b)) ->
  (forall b, (b < NBUF)%nat -> b_refcnt (bat bufs' b) = if decide (b = a) then r else b_refcnt (bat bufs b)) ->
  content pid bufs' disk held view (setref refs blk r) H.
Proof.
  intros [C1 C2 C3 C4 C5 C6 C7 C8 C9] Ha Hr Hclean Hsame Href.
  assert (forall b blk, caches bufs' b blk <-> caches bufs b blk) as Hc.
  { intros b blk'. unfold caches. destruct (Hsame b) as (-> & -> & _). done. }
  split.
  - intros x y b Hx Hy. apply Hc in Hx, Hy. eauto.
  - intros x b Hx%Hc. rewrite Href by apply Hx. rewrite getref_setref. case_decide as E.
    + subst x. assert (b = blk) as -> by (destruct Hx as (_ & _ & <-); apply Ha).
      by rewrite decide_True.
    + rewrite decide_False; [eauto|]. intros ->. eauto.
  - intros x Hx Hd. rewrite Href by done. destruct (Hsame x) as (Ed & _). rewrite Ed in Hd.
    rewrite decide_False; [auto|]. intros ->. by destruct Ha as (_ & ? & _).
  - intros b r' Hb. unfold setref in Hb. setoid_rewrite Hc. destruct (decide (b = blk)) as [->|Hne].
    + case_decide; [by rewrite lookup_delete_eq in Hb|]. rewrite lookup_insert_eq in Hb.
      injection Hb as <-. eauto.
    + apply C4. case_decide; [by rewrite lookup_delete_ne in Hb|by rewrite lookup_insert_ne in Hb].
  - intros x b Hx%Hc. destruct (Hsame x) as (_ & _ & -> & ->). eauto.
  - intros b Hb. apply C6. intros x Hx. destruct (Hsame x) as (_ & _ & <- & _). by apply Hb, Hc.
  - intros b. unfold setref. destruct (decide (b = blk)) as [->|Hne].
    + case_decide; [auto|]. by rewrite lookup_insert_eq.
    + case_decide; [rewrite lookup_delete_ne by done|rewrite lookup_insert_ne by done]; auto.
  - intros b x Hx. rewrite Hc. destruct (Hsame x) as (_ & _ & -> & _). eauto.
  - done.
Qed.

(** A buffer that is not in use is given to a block that is not cached. *)
Lemma content_recycle pid bufs bufs' disk held view refs H e blk :
  content pid bufs disk held view refs H -> (e < NBUF)%nat -> b_refcnt (bat bufs e) = 0 ->
  (forall a, ~ caches bufs a blk) -> (forall b a, H !! b = Some a -> is_Some (refs !! b)) ->
  caches bufs' e blk -> b_valid (bat bufs' e) = false -> b_refcnt (bat bufs' e) = 1 ->
  (forall b, b <> e -> bat bufs' b = bat bufs b) ->
  content pid bufs' disk held view (<[blk := 1]> refs) H.
Proof.
  intros [C1 C2 C3 C4 C5 C6 C7 C8 C9] He Hr0 Hno HH Hc' Hv' Hr' Hsame.
  assert (refs !! blk = None) as Hrb.
  { destruct (refs !! blk) eqn:E; [|done]. apply C4 in E as (_ & _ & a & Ha). by eapply Hno in Ha. }
  assert (forall b x, caches bufs' b x -> b = e /\ x = blk \/ b <> e /\ caches bufs b x) as Hinv.
  { intros b x Hb. destruct (decide (b = e)) as [->|Hne].
    - left. split; [done|]. destruct Hb as (_ & _ & <-). apply Hc'.
    - right. split; [done|]. unfold caches in *. by rewrite <- Hsame. }
  assert (forall x, caches bufs e x -> view x = disk x) as Hev.
  { intros x Hx. apply C7. destruct (refs !! x) as [r|] eqn:E; [|done]. exfalso.
    pose proof (C2 e x Hx) as Hgr. unfold getref in Hgr. rewrite E, Hr0 in Hgr. simpl in Hgr. subst r.
    by apply C4 in E as (_ & ? & _). }
  split.
  - intros a b x Ha Hb. destruct (Hinv a x Ha) as [[Ea Ex]|[Hna Ha']];
      destruct (Hinv b x Hb) as [[Eb Ex']|[Hnb Hb']]; subst; try done.
    + by apply Hno in Hb'.
    + by apply Hno in Ha'.
    + eauto.
  - intros a x Ha. destruct (Hinv a x Ha) as [[-> ->]|[Hna Ha']].
    + rewrite Hr'. unfold getref. by rewrite lookup_insert_eq.
    + rewrite Hsame by done. rewrite (C2 a x) by done. unfold getref.
      rewrite lookup_insert_ne; [done|]. intros ->. by apply Hno in Ha'.
  - intros a Ha Hd. destruct (decide (a = e)) as [->|Hne]; [by destruct Hc' as (_ & ? & _)|].
    rewrite Hsame in * by done. auto.
  - intros x r. rewrite lookup_insert. case_decide as E.
    + subst. intros [= <-]. split_and!; [unfold is_u32; lia|lia|eauto].
    + intros Hx. pose proof (C4 _ _ Hx) as (? & Hn0 & a & Ha). split_and!; [done..|]. exists a.
      assert (a <> e) as Hae.
      { intros ->. pose proof (C2 _ _ Ha) as Hgr. unfold getref in Hgr. rewrite Hx, Hr0 in Hgr. done. }
      unfold caches in *. by rewrite Hsame.
  - intros a x Ha. destruct (Hinv a x Ha) as [[-> ->]|[Hna Ha']]; [by rewrite Hv'|].
    rewrite Hsame by done. eauto.
  - intros x Hx. destruct (decide (caches bufs e x)) as [Hex|Hex]; [by apply Hev|].
    apply C6. intros a Ha. assert (a <> e) by (by intros ->). rewrite <- Hsame by done. apply Hx.
    unfold caches in *. by rewrite Hsame.
  - intros x. rewrite lookup_insert. case_decide; [done|]. auto.
  - intros x a Hxa. destruct (C8 x a Hxa) as (Ha & Hv & Hl).
    assert (a <> e) as Hae.
    { intros ->. destruct (HH x e Hxa) as [r Hr]. pose proof (C2 _ _ Ha) as Hgr.
      unfold getref in Hgr. rewrite Hr, Hr0 in Hgr. simpl in Hgr. subst r. by apply C4 in Hr as (_ & ? & _). }
    unfold caches. by rewrite Hsame.
  - done.
Qed.

(** The running process locks a buffer whose data is valid. *)
Lemma content_hold pid bufs disk held view refs H a blk :
  content pid bufs disk held view refs H -> caches bufs a blk -> b_valid (bat bufs a) = true ->
  content pid bufs disk (<[buf_lock a := pid]> held) view refs (<[blk := a]> H).
Proof.
  intros [C1 C2 C3 C4 C5 C6 C7 C8 C9] Ha Hv. split; try done.
  - intros b x. rewrite lookup_insert. case_decide as E.
    + subst. intros [= <-]. by rewrite lookup_insert_eq.
    + intros Hx. destruct (C8 _ _ Hx) as (? & ? & ?). split_and!; try done.
      rewrite lookup_insert. by case_decide.
  - intros b Hb Hn. rewrite lookup_insert_ne.
    + apply C9; [done|]. intros x Hx. destruct (decide (x = blk)) as [->|Hne].
      * destruct (C8 _ _ Hx) as (Hcb & _). apply (Hn blk). rewrite lookup_insert_eq.
        f_equal. by eapply C1.
      * apply (Hn x). by rewrite lookup_insert_ne.
    + intros E. apply (Hn blk). rewrite lookup_insert_eq. f_equal.
      unfold buf_lock in E. injection E. lia.
Qed.

(** A block that was not valid is read from the disk. *)
Lemma content_fill pid bufs bufs' disk held view refs H a blk :
  content pid bufs disk held view refs H -> caches bufs a blk -> b_valid (bat bufs a) = false ->
  (forall b, b <> a -> bat bufs' b = bat bufs b) ->
  caches bufs' a blk -> b_data (bat bufs' a) = disk blk ->
  b_refcnt (bat bufs' a) = b_refcnt (bat bufs a) ->
  content pid bufs' disk held view refs H /\ view blk = disk blk.
Proof.
  intros [C1 C2 C3 C4 C5 C6 C7 C8 C9] Ha Hv Hsame Ha' Hd' Hr'.
  assert (view blk = disk blk) as Hvd.
  { apply C6. intros b Hb. by rewrite (C1 b a blk). }
  assert (forall b x, caches bufs' b x <-> caches bufs b x) as Hc.
  { intros b x. destruct (decide (b = a)) as [->|Hne]; [|unfold caches; by rewrite Hsame].
    unfold caches in *. destruct Ha as (? & -> & ->), Ha' as (_ & -> & ->). done. }
  split; [|done]. split; try done.
  - intros b b' x Hb Hb'. apply Hc in Hb, Hb'. eauto.
  - intros b x Hb%Hc. destruct (decide (b = a)) as [->|Hne]; [rewrite Hr'; eauto|].
    rewrite Hsame by done. eauto.
  - intros b Hb Hd. destruct (decide (b = a)) as [->|Hne]; [by destruct Ha' as (_ & ? & _)|].
    rewrite Hsame in * by done. eauto.
  - intros x r Hx. destruct (C4 _ _ Hx) as (? & ? & b & Hb). split_and!; [done..|]. exists b. by apply Hc.
  - intros b x Hb. destruct (decide (b = a)) as [->|Hne].
    + intros _. assert (x = blk) as -> by (destruct Hb as (_ & _ & <-), Ha' as (_ & _ & <-); done).
      by rewrite Hd', Hvd.
    + apply Hc in Hb. rewrite Hsame by done. eauto.
  - intros x Hx. destruct (decide (x = blk)) as [->|Hne]; [done|]. apply C6. intros b Hb.
    assert (b <> a) as Hba.
    { intros ->. destruct Hb as (_ & _ & E), Ha as (_ & _ & E'). congruence. }
    rewrite <- Hsame by done. by apply Hx, Hc.
  - intros x b Hxb. destruct (C8 _ _ Hxb) as (Hb & Hvb & Hl).
    assert (b <> a) by (intros ->; congruence). rewrite Hc, Hsame by done. done.
Qed.

(** The process writes into a buffer that it has locked. *)
Lemma content_data pid bufs bufs' disk held view refs H a blk d :
  content pid bufs disk held view refs H -> H !! blk = Some a -> is_Some (refs !! blk) ->
  (forall b, b <> a -> bat bufs' b = bat bufs b) ->
  bat bufs' a = set_b_data d (bat bufs a) ->
  content pid bufs' disk held (fun x => if decide (x = blk) then d else view x) refs H.
Proof.
  intros [C1 C2 C3 C4 C5 C6 C7 C8 C9] Ha [r Hr] Hsame Ha'.
  destruct (C8 _ _ Ha) as (Hca & Hva & _).
  assert (forall b, b_dev (bat bufs' b) = b_dev (bat bufs b) /\ b_blockno (bat bufs' b) = b_blockno (bat bufs b) /\
     b_valid (bat bufs' b) = b_valid (bat bufs b) /\ b_refcnt (bat bufs' b) = b_refcnt (bat bufs b)) as Hf.
  { intros b. destruct (decide (b = a)) as [->|Hne]; [by rewrite Ha'|by rewrite Hsame]. }
  assert (forall b x, caches bufs' b x <-> caches bufs b x) as Hc.
  { intros b x. unfold caches. by destruct (Hf b) as (-> & -> & _). }
  split.
  - intros b b' x Hb Hb'. apply Hc in Hb, Hb'. eauto.
  - intros b x Hb%Hc. destruct (Hf b) as (_ & _ & _ & ->). eauto.
  - intros b Hb. destruct (Hf b) as (-> & _ & _ & ->). eauto.
  - intros x r' Hx. destruct (C4 _ _ Hx) as (? & ? & b & Hb). split_and!; [done..|]. exists b. by apply Hc.
  - intros b x Hb%Hc. destruct (Hf b) as (_ & _ & -> & _). intros Hv. case_decide as E.
    + subst. rewrite (C1 b a blk) by done. by rewrite Ha'.
    + rewrite Hsame; [eauto|]. intros ->. destruct Hb as (_ & _ & <-), Hca as (_ & _ & <-). done.
  - intros x Hx. case_decide as E.
    + subst. specialize (Hx a). rewrite Ha' in Hx. simpl in Hx. rewrite Hva in Hx.
      assert (true = false) by (by apply Hx, Hc). done.
    + apply C6. intros b Hb. destruct (Hf b) as (_ & _ & <- & _). by apply Hx, Hc.
  - intros x Hx. case_decide as E; [subst; congruence|]. auto.
  - intros x b Hxb. rewrite Hc. destruct (Hf b) as (_ & _ & -> & _). eauto.
  - done.
Qed.

(** The content of a locked block goes to the disk. *)
Lemma content_write pid bufs disk held view refs H blk :
  content pid bufs disk held view refs H ->
  content pid bufs (fun x => if decide (x = blk) then view blk else disk x) held view refs H.
Proof.
  intros [C1 C2 C3 C4 C5 C6 C7 C8 C9]. split; try done; intros x Hx; case_decide; subst; auto.
Qed.

Lemma content_unhold pid bufs disk held view refs H a blk :
  content pid bufs disk held view refs H -> H !! blk = Some a ->
  content pid bufs disk (delete (buf_lock a) held) view refs (delete blk H).
Proof.
  intros [C1 C2 C3 C4 C5 C6 C7 C8 C9] Ha. split; try done.
  - intros x b Hxb. apply lookup_delete_Some in Hxb as [Hne Hxb].
    destruct (C8 _ _ Hxb) as (Hb & Hv & Hl). split_and!; try done. rewrite lookup_delete_ne; [done|].
    intros E. assert (a = b) as -> by (unfold buf_lock in E; injection E; lia).
    destruct (C8 _ _ Ha) as ((_ & _ & <-) & _). by destruct Hb as (_ & _ & <-).
  - intros b Hb Hn. destruct (decide (b = a)) as [->|Hne]; [by rewrite lookup_delete_eq|].
    rewrite lookup_delete_ne by (unfold buf_lock; intros [= E]; lia). apply C9; [done|].
    intros x Hx. apply (Hn x). apply lookup_delete_Some. split; [|done].
    intros ->. congruence.
Qed.

(** The view and the disk matter only as functions. *)
Lemma content_ext pid bufs disk disk' held view view' refs H :
  (forall x, disk' x = disk x) -> (forall x, view' x = view x) ->
  content pid bufs disk held view refs H -> content pid bufs disk' held view' refs H.
Proof.
  intros Hd Hv [C1 C2 C3 C4 C5 C6 C7 C8 C9]. split; try done; intros; rewrite ?Hd, ?Hv; auto.
Qed.
