(* ===== verification/BioProofs.v ===== *)
(** * kernel/bio.c: correctness of the buffer cache

    The specifications that the log and the file system use: bread returns the
    block as last written, whether it was cached or not; the cache may evict
    only what is on the disk; no block is ever in two buffers. *)

From Stdlib Require Import ZArith Lia.
From stdpp Require Import base list gmap strings.
From S2P Require Import Prelude KString Spinlock Riscv Kalloc Vm Proc Sleeplock Bio BioInv.

(** What a locked buffer holds. *)
Lemma bio_held i s view refs H blk a :
  bio_inv i s view refs H -> H !! blk = Some a ->
  (a < NBUF)%nat /\ b_blockno (buf_at a s) = blk /\ b_data (buf_at a s) = view blk /\
  sl_held (bc_s s) !! buf_lock a = Some (pid_of i (bc_s s)).
Proof.
  intros [_ _ C] Ha. destruct (ct_held _ _ _ _ _ _ _ C _ _ Ha) as (Hc & Hv & Hl).
  pose proof (ct_data _ _ _ _ _ _ _ C _ _ Hc Hv) as Hd. destruct Hc as (? & _ & ?).
  by split_and!.
Qed.

Lemma ring_elem bufs a : ringed bufs -> (a < NBUF)%nat ->
  exists l, ring (fun b => b_next (bat bufs b)) (fun b => b_prev (bat bufs b)) HEAD l /\
    l ≡ₚ seq 0 NBUF /\ a ∈ l.
Proof.
  intros [_ (l & Hr & Hl)] Ha. exists l. split_and!; [done..|]. rewrite Hl. apply elem_of_seq. lia.
Qed.

Lemma perm_seq_elem (l : list nat) a : l ≡ₚ seq 0 NBUF -> a ∈ l <-> (a < NBUF)%nat.
Proof. intros ->. rewrite elem_of_seq. lia. Qed.

Lemma perm_seq_head (l : list nat) : l ≡ₚ seq 0 NBUF -> (HEAD ∉ l) /\ NoDup (HEAD :: l) /\ length l = NBUF.
Proof.
  intros Hl. assert (HEAD ∉ l) as Hh by (rewrite perm_seq_elem by done; unfold HEAD; lia).
  split_and!; [done| |by rewrite Hl, length_seq].
  constructor; [done|]. rewrite Hl. apply NoDup_seq.
Qed.

Lemma first_of_Some bufs found l a :
  first_of bufs found l = Some a -> a ∈ l /\ found (bat bufs a) = true.
Proof.
  unfold first_of. intros ([k b] & E & ->)%fmap_Some.
  apply list_find_Some in E as (Hk & Hf & _). split; [by eapply list_elem_of_lookup_2|done].
Qed.

Lemma first_of_None bufs found l a :
  first_of bufs found l = None -> a ∈ l -> found (bat bufs a) = false.
Proof.
  unfold first_of. intros E%fmap_None Ha. apply list_find_None in E. rewrite Forall_forall in E.
  apply not_true_iff_false. by apply E.
Qed.

(** Both scans of bget. *)
Lemma scan_next_run s found :
  ringed (bc_buf s) -> exists l, l ≡ₚ seq 0 NBUF /\
  scan NBUF b_next found (b_next (buf_at HEAD s)) s = Ret (first_of (bc_buf s) found l) s.
Proof.
  intros [_ (l & Hr & Hl)]. exists l. split; [done|]. destruct (perm_seq_head l Hl) as (Hh & _ & Hlen).
  eapply (scan_run b_next); [exact Hr|done|lia].
Qed.

Lemma scan_prev_run s found :
  ringed (bc_buf s) -> exists l, l ≡ₚ seq 0 NBUF /\
  scan NBUF b_prev found (b_prev (buf_at HEAD s)) s = Ret (first_of (bc_buf s) found l) s.
Proof.
  intros [_ (l & Hr & Hl)]. destruct (perm_seq_head l Hl) as (Hh & _ & Hlen).
  exists (reverse l). split; [by rewrite reverse_Permutation|].
  eapply (scan_run b_prev); [apply chain_rev; exact Hr|by rewrite elem_of_reverse|by rewrite length_reverse, Hlen].
Qed.

(** If fewer than NBUF blocks are in use there is a buffer to recycle. *)
Lemma buffer_available pid bufs disk held view refs H :
  content pid bufs disk held view refs H -> (size refs < NBUF)%nat ->
  exists a, (a < NBUF)%nat /\ b_refcnt (bat bufs a) = 0.
Proof.
  intros C Hsz. destruct (decide (Exists (fun a => b_refcnt (bat bufs a) = 0) (seq 0 NBUF))) as [He|Hn].
  { apply Exists_exists in He as (a & Ha & ?). apply elem_of_seq in Ha. exists a. split; [lia|done]. }
  exfalso. apply not_Exists_Forall in Hn; [|apply _]. rewrite Forall_forall in Hn.
  assert (forall a, (a < NBUF)%nat -> caches bufs a (b_blockno (bat bufs a)) /\
            is_Some (refs !! b_blockno (bat bufs a))) as Hall.
  { intros a Ha. assert (b_refcnt (bat bufs a) <> 0) as Hr by (apply Hn, elem_of_seq; lia).
    destruct (decide (b_dev (bat bufs a) = 1)) as [Hd|Hd].
    - assert (caches bufs a (b_blockno (bat bufs a))) as Hc by done. split; [done|].
      pose proof (ct_refs _ _ _ _ _ _ _ C _ _ Hc) as E. unfold getref in E.
      destruct (refs !! _); [eauto|]. by rewrite E in Hr.
    - by rewrite (ct_free _ _ _ _ _ _ _ C a) in Hr. }
  assert (length ((fun a => b_blockno (bat bufs a)) <$> seq 0 NBUF) <= size (dom refs))%nat as Hle.
  { assert (NoDup ((fun a => b_blockno (bat bufs a)) <$> seq 0 NBUF)) as Hnd.
    { apply NoDup_fmap_2_strong; [|apply NoDup_seq]. intros x y Hx%elem_of_seq Hy%elem_of_seq E.
      eapply (ct_uniq _ _ _ _ _ _ _ C); [apply Hall; lia|]. rewrite E. apply Hall. lia. }
    rewrite <- (size_list_to_set (C := gset Z) _ Hnd). apply subseteq_size.
    intros x Hx%elem_of_list_to_set. apply list_elem_of_fmap in Hx as (a & -> & Ha%elem_of_seq).
    apply elem_of_dom. apply Hall. lia. }
  rewrite length_fmap, length_seq, size_dom in Hle. lia.
Qed.

(** ** bget and bread *)

(** The end of bget: bcache.lock is released and the buffer locked. *)
Lemma wp_bget_end i (s s1 : bst) a (Q : nat -> bst -> Prop) :
  running i (sl_p (bc_s s)) -> sl_held (bc_s s) !! buf_lock a = None ->
  bc_s s1 = lset (locked_by bcache_lock (k_lk (ps_k (sl_p (bc_s s))))) (bc_s s) ->
  (forall s', bst_le s s' -> d_disk s' = d_disk s1 -> d_writes s' = d_writes s1 ->
     bc_buf s' = bc_buf s1 ->
     sl_held (bc_s s') = <[buf_lock a := pid_of i (bc_s s)]> (sl_held (bc_s s)) -> Q a s') ->
  wp (↑ release bcache_lock;; ↑ acquiresleep (buf_lock a);; mret a) Q s1.
Proof.
  intros Hr Hl Es1 HQ. bstep.
  eapply (wp_unlock bcache_lock (k_lk (ps_k (sl_p (bc_s s))))); [apply Hr|by apply (running_free i)| |].
  { cbn. by rewrite Es1. }
  assert (pst_le (sl_p (bc_s s)) (sl_p (bc_s (lset (settle (k_lk (ps_k (sl_p (bc_s s))))) s1)))) as Hle.
  { cbn. rewrite Es1. pst_same. }
  destruct (pst_le_running i _ _ Hle Hr) as [Hr1 Ep1].
  bstep. apply wp_zoom. apply (wp_acquiresleep (buf_lock a) i); [exact Hr1| |].
  { cbn. rewrite Es1. cbn. done. }
  intros s2 Hle2 Eh2. bstep. apply HQ; try done.
  - split; cbn; [by etrans|]. intros l Hn. rewrite Eh2. rewrite lookup_insert_ne by (intros <-; done).
    cbn. by rewrite Es1.
  - cbn. rewrite Eh2. unfold pid_of. cbn in Ep1 |- *. rewrite Ep1. by rewrite Es1.
Qed.

Lemma wp_bget i view refs H blk (Q : nat -> bst -> Prop) s :
  bio_inv i s view refs H -> H !! blk = None -> (forall b a, H !! b = Some a -> is_Some (refs !! b)) ->
  u32 (getref refs blk + 1) <> 0 -> is_Some (refs !! blk) \/ (size refs < NBUF)%nat ->
  (forall a s', bst_le s s' -> d_disk s' = d_disk s -> d_writes s' = d_writes s ->
     ringed (bc_buf s') -> caches (bc_buf s') a blk ->
     content (pid_of i (bc_s s)) (bc_buf s') (dblock s) (sl_held (bc_s s)) view
       (setref refs blk (u32 (getref refs blk + 1))) H ->
     sl_held (bc_s s') = <[buf_lock a := pid_of i (bc_s s)]> (sl_held (bc_s s)) -> Q a s') ->
  wp (bget 1 blk) Q s.
Proof.
  intros [Hr Hring C] HH HHr Hnz Hav HQ. unfold bget, getb, setb. bstep.
  apply wp_lock; [by apply (running_free i)|]. bstep. bstep. bstep.
  set (s1 := lset _ s).
  assert (forall a, caches (bc_buf s) a blk -> sl_held (bc_s s) !! buf_lock a = None) as Hfree.
  { intros a Ha. apply (ct_unlocked _ _ _ _ _ _ _ C); [apply Ha|]. intros x Hx.
    destruct (ct_held _ _ _ _ _ _ _ C _ _ Hx) as (Hc & _).
    assert (x = blk) as -> by (destruct Hc as (_ & _ & <-), Ha as (_ & _ & <-); done). congruence. }
  destruct (scan_next_run s1 (fun x => (b_dev x =? 1) && (b_blockno x =? blk)) Hring) as (l & Hl & Escan).
  eapply wp_run; [exact Escan|]. cbn beta.
  destruct (first_of _ _ l) as [a|] eqn:Ef.
  - (* cached *)
    apply first_of_Some in Ef as [Ha Hf]. apply perm_seq_elem in Ha; [|done].
    apply andb_true_iff in Hf as [Hd%Z.eqb_eq Hb%Z.eqb_eq].
    assert (caches (bc_buf s) a blk) as Hc by done. bstep. bstep.
    apply (wp_bget_end i s); [done|auto|done|].
    intros s' Hle Ed Ew Eb Eh. destruct Hring as [Hlen Hring].
    apply HQ; rewrite ?Eb; try done.
    + apply ringed_alter; [done|done|by split].
    + unfold caches. cbn. rewrite bat_alter by lia. by rewrite decide_True.
    + eapply (content_setref _ (bc_buf s) _ _ _ _ _ _ a); [done|done|apply u32_range|done|..].
      * intros b. cbn. rewrite bat_alter by lia. by case_decide.
      * intros b Hb'. cbn. rewrite bat_alter by lia. case_decide as E; [|done].
        rewrite E. cbn. by rewrite (ct_refs _ _ _ _ _ _ _ C a blk Hc).
  - (* recycle *)
    assert (forall a, ~ caches (bc_buf s) a blk) as Hno.
    { intros a (Ha & Hd & Hb). apply (first_of_None _ _ _ a) in Ef; [|by apply perm_seq_elem].
      change (bc_buf s1) with (bc_buf s) in Ef. cbn beta in Ef.
      by rewrite Hd, Hb, !Z.eqb_refl in Ef. }
    assert (refs !! blk = None) as Hrb.
    { destruct (refs !! blk) eqn:E; [|done]. apply (ct_dom _ _ _ _ _ _ _ C) in E as (_ & _ & a & Ha).
      by apply Hno in Ha. }
    destruct Hav as [[? ?]|Hav]; [congruence|].
    bstep. bstep. bstep. destruct (scan_prev_run s1 (fun x => b_refcnt x =? 0) Hring) as (l' & Hl' & Escan').
    eapply wp_run; [exact Escan'|]. cbn beta.
    destruct (first_of _ _ l') as [e|] eqn:Ef'.
    2: { destruct (buffer_available _ _ _ _ _ _ _ C Hav) as (a & Ha & Hz).
         apply (first_of_None _ _ _ a) in Ef'; [|by apply perm_seq_elem]. 
         change (bc_buf s1) with (bc_buf s) in Ef'. cbn beta in Ef'. by rewrite Hz in Ef'. }
    apply first_of_Some in Ef' as [He Hz%Z.eqb_eq]. change (bc_buf s1) with (bc_buf s) in Hz. apply perm_seq_elem in He; [|done].
    do 8 bstep. apply (wp_bget_end i s); [done| |done|].
    { apply (ct_unlocked _ _ _ _ _ _ _ C); [done|]. intros x Hx.
      destruct (HHr _ _ Hx) as [r Hrx]. destruct (ct_held _ _ _ _ _ _ _ C _ _ Hx) as (Hc & _).
      pose proof (ct_refs _ _ _ _ _ _ _ C _ _ Hc) as E. unfold getref in E. rewrite Hrx, Hz in E.
      apply (ct_dom _ _ _ _ _ _ _ C) in Hrx as (_ & ? & _). by subst. }
    intros s' Hle Ed Ew Eb Eh. cbn in Eb. rewrite !list_alter_alter_eq in Eb.
    pose proof Hring as [Hlen _].
    assert (setref refs blk (u32 (getref refs blk + 1)) = <[blk := 1]> refs) as Eset.
    { unfold getref. rewrite Hrb. reflexivity. }
    rewrite Eset in HQ.
    assert (caches (bc_buf s') e blk) as Hc'.
    { rewrite Eb. unfold caches. rewrite bat_alter by lia. by rewrite decide_True. }
    apply HQ; try done.
    + rewrite Eb. apply ringed_alter; [done|done|done].
    + eapply (content_recycle _ (bc_buf s) _ _ _ _ _ _ e); try done.
      * rewrite Eb, bat_alter by lia. by rewrite decide_True.
      * rewrite Eb, bat_alter by lia. by rewrite decide_True.
      * intros b Hb. rewrite Eb, bat_alter by lia. by rewrite decide_False.
Qed.

Lemma wp_bread i view refs H blk (Q : nat -> bst -> Prop) s :
  bio_inv i s view refs H -> H !! blk = None -> (forall b a, H !! b = Some a -> is_Some (refs !! b)) ->
  u32 (getref refs blk + 1) <> 0 -> is_Some (refs !! blk) \/ (size refs < NBUF)%nat ->
  (forall a s', bst_le s s' -> d_disk s' = d_disk s -> d_writes s' = d_writes s ->
     bio_inv i s' view (setref refs blk (u32 (getref refs blk + 1))) (<[blk := a]> H) -> Q a s') ->
  wp (bread 1 blk) Q s.
Proof.
  intros Hinv HH HHr Hnz Hav HQ. unfold bread, disk_rw, getb, setb. bstep.
  eapply wp_bget; [done..|]. intros a s' Hle Ed Ew Hring Hc C Eh.
  destruct (pst_le_running i _ _ (bl_p _ _ Hle) (bi_run _ _ _ _ _ Hinv)) as [Hr' Ep].
  assert (pid_of i (bc_s s') = pid_of i (bc_s s)) as Epid by (unfold pid_of; by rewrite Ep).
  assert (dblock s' = dblock s) as Edb by (unfold dblock; by rewrite Ed).
  assert ((a < length (bc_buf s'))%nat) as Hlen by (destruct Hring as [-> _]; destruct Hc; lia).
  bstep. bstep. bstep. unfold when. destruct (b_valid (buf_at a s')) eqn:Hv; cbn [negb].
  - bstep. bstep. apply HQ; try done. split; [done|done|]. rewrite Epid, Eh, Edb.
    by apply content_hold.
  - bsteps. apply HQ; [by destruct Hle|done|done|]. cbn. rewrite list_alter_alter_eq.
    set (bufs := alter _ a (bc_buf s')).
    assert (bat bufs a = set_b_valid true (set_b_data (dblock s blk) (bat (bc_buf s') a))) as Ea.
    { unfold bufs. rewrite bat_alter by done. rewrite decide_True by done. destruct Hc as (_ & _ & Hc).
      cbn. unfold buf_at. unfold bat in Hc. by rewrite Hc, Edb. }
    assert (forall b, b <> a -> bat bufs b = bat (bc_buf s') b) as Eo.
    { intros b Hb. unfold bufs. rewrite bat_alter by done. by rewrite decide_False. }
    assert (ringed bufs) as Hring' by (apply ringed_alter; [done|apply Hc|done]).
    clearbody bufs. split; [done|done|]. cbn. change (dblock (set_bc_buf _ _)) with (dblock s').
    change (pid_of _ (bc_s _)) with (pid_of i (bc_s s')). rewrite Epid, Eh, Edb.
    assert (caches bufs a blk) as Hc' by (unfold caches; by rewrite Ea).
    apply content_hold; [|done|by rewrite Ea].
    eapply (content_fill _ (bc_buf s') _ _ _ _ _ _ a blk); rewrite ?Ea; done.
Qed.

(** ** Writing to a locked buffer and to the disk *)

Lemma wp_setdata i view refs H blk a d (Q : unit -> bst -> Prop) s :
  bio_inv i s view refs H -> H !! blk = Some a -> is_Some (refs !! blk) ->
  (forall s', bst_le s s' -> d_disk s' = d_disk s -> d_writes s' = d_writes s ->
     bio_inv i s' (fun x => if decide (x = blk) then d else view x) refs H -> Q tt s') ->
  wp (setb a (set_b_data d)) Q s.
Proof.
  intros [Hr Hring C] Ha Href HQ. unfold setb. bstep.
  destruct (ct_held _ _ _ _ _ _ _ C _ _ Ha) as ((Hlt & _) & _). pose proof Hring as [Hlen _].
  apply HQ; try done. split; [done|by apply ringed_alter|]. cbn.
  eapply (content_data _ (bc_buf s) _ _ _ _ _ _ a); [done..| |].
  - intros b Hb. rewrite bat_alter by lia. by rewrite decide_False.
  - rewrite bat_alter by lia. by rewrite decide_True.
Qed.

Lemma wp_bwrite i view refs H blk a (Q : unit -> bst -> Prop) s :
  bio_inv i s view refs H -> H !! blk = Some a ->
  (forall s', bst_le s s' -> d_disk s' = <[blk := view blk]> (d_disk s) ->
     d_writes s' = d_writes s ++ [(blk, view blk)] ->
     bio_inv i s' view refs H -> Q tt s') ->
  wp (bwrite a) Q s.
Proof.
  intros Hinv Ha HQ. destruct (bio_held _ _ _ _ _ _ _ Hinv Ha) as (Hlt & Eb & Edt & El).
  pose proof Hinv as [Hr Hring C]. unfold bwrite, disk_rw, getb. bstep. apply wp_zoom.
  apply (wp_holdingsleep _ i); [done|]. intros s1 Hle1 Eh1. cbn [lget lens_bc_s].
  rewrite bool_decide_true by done. cbn [negb]. bsteps.
  destruct (pst_le_running i _ _ Hle1 Hr) as [Hr1 Ep1].
  change (buf_at a (lset s1 s)) with (buf_at a s). unfold id. rewrite Eb, Edt.
  apply HQ; try done.
  - split; cbn; [done|]. intros l _. by rewrite Eh1.
  - split; [done|done|]. cbn. rewrite Eh1.
    assert (pid_of i s1 = pid_of i (bc_s s)) as -> by (unfold pid_of; by rewrite Ep1).
    refine (content_ext _ _ _ _ _ _ _ _ _ _ _ (content_write _ _ _ _ _ _ _ blk C)); [|done].
    intros x. unfold dblock. cbn.
    case_decide as E; [rewrite E; by rewrite lookup_insert_eq|by rewrite lookup_insert_ne].
Qed.

(** ** brelse *)

Lemma ring_ext nx pv nx' pv' h l :
  (forall i, nx' i = nx i) -> (forall i, pv' i = pv i) -> ring nx pv h l -> ring nx' pv' h l.
Proof. intros. eapply chain_ext; [| |done]; auto. Qed.

(** The fields of a buffer that are not links. *)
Definition same_but_links (x y : buf) : Prop :=
  b_valid y = b_valid x /\ b_dev y = b_dev x /\ b_blockno y = b_blockno x /\
  b_refcnt y = b_refcnt x /\ b_data y = b_data x.

(** Moving a buffer to the front of the list. *)
Definition relink (b : nat) : M bst unit :=
  nx ← getb b b_next;
  pv ← getb b b_prev;
  setb nx (set_b_prev pv);;
  pv ← getb b b_prev;
  nx ← getb b b_next;
  setb pv (set_b_next nx);;
  push_front b.

#[global] Instance same_but_links_preorder : PreOrder same_but_links.
Proof.
  split; [by intros x|]. unfold same_but_links. intros x y z ? ?. destruct_and?. split_and!; congruence.
Qed.

Abbreviation nexts bufs := (fun i => b_next (bat bufs i)).
Abbreviation prevs bufs := (fun i => b_prev (bat bufs i)).

Lemma wp_set_prev b v (Q : unit -> bst -> Prop) s :
  (b < length (bc_buf s))%nat ->
  (forall bufs, length bufs = length (bc_buf s) -> (forall i, nexts bufs i = nexts (bc_buf s) i) ->
     (forall i, prevs bufs i = fupd (prevs (bc_buf s)) b v i) ->
     (forall c, same_but_links (bat (bc_buf s) c) (bat bufs c)) -> Q tt (set_bc_buf bufs s)) ->
  wp (setb b (set_b_prev v)) Q s.
Proof.
  intros Hb HQ. unfold setb. bstep. apply HQ; [by rewrite length_alter|..];
    intros i; unfold fupd; cbn beta; rewrite bat_alter by done; by case_decide.
Qed.

Lemma wp_set_next b v (Q : unit -> bst -> Prop) s :
  (b < length (bc_buf s))%nat ->
  (forall bufs, length bufs = length (bc_buf s) ->
     (forall i, nexts bufs i = fupd (nexts (bc_buf s)) b v i) ->
     (forall i, prevs bufs i = prevs (bc_buf s) i) ->
     (forall c, same_but_links (bat (bc_buf s) c) (bat bufs c)) -> Q tt (set_bc_buf bufs s)) ->
  wp (setb b (set_b_next v)) Q s.
Proof.
  intros Hb HQ. unfold setb. bstep. apply HQ; [by rewrite length_alter|..];
    intros i; unfold fupd; cbn beta; rewrite bat_alter by done; by case_decide.
Qed.

(** Inserting a buffer that is not in the list. *)
Lemma wp_push_front b l (Q : unit -> bst -> Prop) s :
  length (bc_buf s) = S NBUF -> ring (nexts (bc_buf s)) (prevs (bc_buf s)) HEAD l ->
  NoDup (HEAD :: l) -> b ∉ HEAD :: l -> (b < NBUF)%nat -> (forall x, x ∈ l -> (x < NBUF)%nat) ->
  (forall bufs, length bufs = S NBUF -> ring (nexts bufs) (prevs bufs) HEAD (b :: l) ->
     (forall c, same_but_links (bat (bc_buf s) c) (bat bufs c)) -> Q tt (set_bc_buf bufs s)) ->
  wp (push_front b) Q s.
Proof.
  intros Hlen Hr Hnd Hb Hlt Hin HQ. pose proof (ring_push _ _ _ _ _ Hr Hnd Hb) as Hp.
  pose proof (chain_nx _ _ _ _ _ Hr) as Hn. cbn beta in Hn, Hp.
  assert (nexts (bc_buf s) HEAD < S NBUF)%nat as Hnb.
  { apply elem_of_app in Hn as [Hn|Hn]; [apply Hin in Hn; lia|].
    apply list_elem_of_singleton in Hn. cbn beta. rewrite Hn. unfold HEAD. lia. }
  assert (HEAD <> b) as HbH by set_solver.
  unfold push_front, getb. bstep. bstep. bstep. apply wp_set_next; [lia|]. intros b1 L1 N1 P1 S1.
  bstep. apply wp_set_prev; [cbn; lia|]. intros b2 L2 N2 P2 S2. cbn [bc_buf set_bc_buf] in L2, N2, P2, S2.
  bstep. bstep. bstep.
  assert (forall s', b_next (buf_at HEAD (set_bc_buf b2 s')) = nexts (bc_buf s) HEAD) as ->.
  { intros s'. etrans; [apply N2|]. etrans; [apply N1|]. by rewrite fupd_ne. }
  apply wp_set_prev; [cbn; lia|]. intros b3 L3 N3 P3 S3. cbn [bc_buf set_bc_buf] in L3, N3, P3, S3.
  apply wp_set_next; [cbn; unfold HEAD; lia|]. intros b4 L4 N4 P4 S4. cbn [bc_buf set_bc_buf] in L4, N4, P4, S4.
  apply (HQ b4); [lia| |].
  - eapply ring_ext; [| |exact Hp].
    + intros i. etrans; [apply N4|]. unfold fupd. case_decide; [done|]. etrans; [apply N3|]. etrans; [apply N2|]. apply N1.
    + intros i. etrans; [apply P4|]. etrans; [apply P3|]. unfold fupd. case_decide; [done|].
      etrans; [apply P2|]. unfold fupd. case_decide; [done|]. apply P1.
  - intros c. by rewrite <- S4, <- S3, <- S2.
Qed.

Lemma wp_relink b (Q : unit -> bst -> Prop) s :
  ringed (bc_buf s) -> (b < NBUF)%nat ->
  (forall bufs, ringed bufs -> (forall c, same_but_links (bat (bc_buf s) c) (bat bufs c)) ->
     Q tt (set_bc_buf bufs s)) ->
  wp (relink b) Q s.
Proof.
  intros Hring Hb HQ. destruct (ring_elem _ _ Hring Hb) as (l & Hr & Hl & Hbl).
  destruct Hring as [Hlen _]. destruct (perm_seq_head l Hl) as (Hh & Hnd & _).
  apply list_elem_of_split in Hbl as (l1 & l2 & ->).
  pose proof (ring_unlink _ _ _ _ _ _ Hr Hnd) as Hu. cbn beta in Hu.
  assert (forall x, x ∈ HEAD :: l1 ++ b :: l2 -> (x < S NBUF)%nat) as Hin.
  { intros x [->|Hx]%elem_of_cons; [unfold HEAD; lia|]. apply (perm_seq_elem _ x) in Hl.
    apply Hl in Hx. lia. }
  apply chain_app in Hr as [Hr1 Hr2]. pose proof (chain_pv _ _ _ _ _ Hr1) as Hpv.
  pose proof (chain_nx _ _ _ _ _ Hr2) as Hnx. cbn beta in Hpv, Hnx.
  assert (b_prev (bat (bc_buf s) b) < S NBUF)%nat as Hpb by (apply Hin; set_solver).
  assert (b_next (bat (bc_buf s) b) < S NBUF)%nat as Hnb by (apply Hin; set_solver).
  assert (b_next (bat (bc_buf s) b) <> b) as Hnbb.
  { intros E. rewrite E in Hnx. rewrite NoDup_cons, NoDup_app, NoDup_cons in Hnd. set_solver. }
  unfold relink, getb. do 5 bstep. apply wp_set_prev; [cbn; rewrite Hlen; exact Hnb|].
  intros c1 L1 N1 P1 S1. do 5 bstep. cbn.
  change (buf_at b (set_bc_buf c1 s)) with (bat c1 b). change (buf_at b s) with (bat (bc_buf s) b) in *.
  assert (b_next (bat c1 b) = b_next (bat (bc_buf s) b)) as -> by apply N1.
  assert (b_prev (bat c1 b) = b_prev (bat (bc_buf s) b)) as ->.
  { etrans; [apply P1|]. by rewrite fupd_ne. }
  apply wp_set_next; [cbn; rewrite L1, Hlen; exact Hpb|]. intros c2 L2 N2 P2 S2. cbn [bc_buf set_bc_buf] in L2, N2, P2, S2.
  apply (wp_push_front b (l1 ++ l2)); cbn.
  - congruence.
  - eapply ring_ext; [| |exact Hu].
    + intros i. etrans; [apply N2|]. unfold fupd. case_decide; [done|]. apply N1.
    + intros i. etrans; [apply P2|]. apply P1.
  - rewrite NoDup_cons, NoDup_app, NoDup_cons in Hnd. rewrite NoDup_cons, NoDup_app. set_solver.
  - rewrite NoDup_cons, NoDup_app, NoDup_cons in Hnd. set_solver.
  - done.
  - intros x Hx. assert (x ∈ l1 ++ b :: l2) as Hx' by set_solver.
    by apply (perm_seq_elem _ x) in Hl; apply Hl in Hx'.
  - intros bufs L3 R3 S3. apply (HQ bufs).
    + split; [done|]. exists (b :: l1 ++ l2). split; [exact R3|]. rewrite <- Hl. by rewrite Permutation_middle.
    + intros c. by rewrite <- S3, <- S2.
Qed.

Lemma content_links pid bufs bufs' disk held view refs H :
  (forall c, same_but_links (bat bufs c) (bat bufs' c)) ->
  content pid bufs disk held view refs H -> content pid bufs' disk held view refs H.
Proof.
  intros Hs [C1 C2 C3 C4 C5 C6 C7 C8 C9].
  assert (forall b x, caches bufs' b x <-> caches bufs b x) as Hc.
  { intros b x. unfold caches. destruct (Hs b) as (_ & -> & -> & _). done. }
  split; try done.
  - intros a b x Ha Hb. apply Hc in Ha, Hb. eauto.
  - intros a x Ha%Hc. destruct (Hs a) as (_ & _ & _ & -> & _). eauto.
  - intros a Ha. destruct (Hs a) as (_ & -> & _ & -> & _). eauto.
  - intros x r Hx. destruct (C4 _ _ Hx) as (? & ? & a & Ha). split_and!; [done..|]. exists a. by apply Hc.
  - intros a x Ha%Hc. destruct (Hs a) as (-> & _ & _ & _ & ->). eauto.
  - intros x Hx. apply C6. intros a Ha. destruct (Hs a) as (<- & _). by apply Hx, Hc.
  - intros x a Hx. rewrite Hc. destruct (Hs a) as (-> & _). eauto.
Qed.

Lemma wp_brelse i view refs H blk a (Q : unit -> bst -> Prop) s :
  bio_inv i s view refs H -> H !! blk = Some a ->
  let r := u32 (getref refs blk - 1) in
  (r = 0 -> view blk = dblock s blk) ->
  (forall s', bst_le s s' -> d_disk s' = d_disk s -> d_writes s' = d_writes s ->
     bio_inv i s' view (setref refs blk r) (delete blk H) -> Q tt s') ->
  wp (brelse a) Q s.
Proof.
  intros Hinv Ha r Hclean HQ. destruct (bio_held _ _ _ _ _ _ _ Hinv Ha) as (Hlt & Eb & Edt & El).
  pose proof Hinv as [Hr Hring C]. destruct (ct_held _ _ _ _ _ _ _ C _ _ Ha) as (Hca & _).
  unfold brelse. bstep. apply wp_zoom.
  apply (wp_holdingsleep _ i); [done|]. intros s1 Hle1 Eh1. cbn [lget lens_bc_s].
  rewrite bool_decide_true by done. cbn [negb]. destruct (pst_le_running i _ _ Hle1 Hr) as [Hr1 Ep1].
  bstep. apply wp_zoom, (wp_releasesleep _ i); [done|]. intros s2 Hle2 Eh2.
  destruct (pst_le_running i _ _ Hle2 Hr1) as [Hr2 Ep2]. cbn in Hle2, Eh2.
  bstep. apply wp_lock; [by apply (running_free i _ _ Hr2)|]. do 4 cstep.
  set (bufs1 := alter (fun x => set_b_refcnt (u32 (b_refcnt x - 1)) x) a (bc_buf s)).
  assert (b_refcnt (bat bufs1 a) = r) as Er.
  { unfold bufs1. destruct Hring as [Hlen _]. rewrite bat_alter by lia. rewrite decide_True by done.
    cbn. by rewrite (ct_refs _ _ _ _ _ _ _ C a blk). }
  assert (content (pid_of i (bc_s s)) bufs1 (dblock s) (sl_held (bc_s s)) view (setref refs blk r) H) as C1.
  { destruct Hring as [Hlen _]. eapply (content_setref _ (bc_buf s) _ _ _ _ _ _ a); [done|done|apply u32_range|done|..].
    - intros b. unfold bufs1. rewrite bat_alter by lia. by case_decide.
    - intros b Hb'. unfold bufs1. rewrite bat_alter by lia. case_decide as E; [|done].
      rewrite E. cbn. unfold r. by rewrite (ct_refs _ _ _ _ _ _ _ C a blk Hca). }
  assert (ringed bufs1) as Hring1 by by apply ringed_alter.
  change (buf_at a _) with (bat bufs1 a). rewrite Er.
  assert (forall bufs lk, ringed bufs -> (forall c, same_but_links (bat bufs1 c) (bat bufs c)) ->
    lk = locked_by bcache_lock (k_lk (ps_k (sl_p s2))) ->
    wp (↑ release bcache_lock) Q (set_bc_buf bufs (set_bc_s (lset lk s2) s))) as Hend.
  { intros bufs lk Hrb Hsb ->. eapply (wp_unlock bcache_lock (k_lk (ps_k (sl_p s2))));
      [apply Hr2|by apply (running_free i _ _ Hr2)|reflexivity|].
    apply HQ; [|done|done|].
    - split; cbn; [|intros l Hl; rewrite Eh2, lookup_delete_ne by (intros <-; done); by rewrite Eh1].
      etrans; [exact Hle1|]. etrans; [exact Hle2|]. pst_same.
    - assert (running i (sl_p (lset (settle (k_lk (ps_k (sl_p s2)))) s2))) as Hr3.
      { eapply pst_le_running; [|exact Hr2]. pst_same. }
      split; [done|done|]. cbn. rewrite Eh2, Eh1.
      assert (pid_of i (lset (settle (k_lk (ps_k (sl_p s2)))) s2) = pid_of i (bc_s s)) as Epid.
      { unfold pid_of. change (p_pid (proc_at i (sl_p s2)) = p_pid (proc_at i (sl_p (bc_s s)))).
        cbn in Ep1, Ep2. by rewrite Ep2, Ep1. }
      match goal with |- content ?p _ _ _ _ _ _ => replace p with (pid_of i (bc_s s)) by exact (eq_sym Epid) end.
      apply content_unhold; [|done]. by eapply content_links. }
  bstep. destruct (decide (r = 0)) as [E0|E0].
  - rewrite E0. change (0 =? 0) with true. cbn [when].
    apply (wp_relink a); [done|done|]. intros bufs Hrb Hsb. by apply Hend.
  - rewrite (proj2 (Z.eqb_neq _ _)) by done. bstep. bstep. by apply (Hend bufs1).
Qed.

(** Changes below the cache: locks of this CPU, processes woken up. *)
Lemma bio_inv_le i s (p : pst) view refs H :
  bio_inv i s view refs H -> pst_le (lget s) p -> let s' := lset p s in
  bst_le s s' /\ bio_inv i s' view refs H.
Proof.
  intros [Hr Hring C] Hle s'. change (pst_le (sl_p (bc_s s)) (sl_p (bc_s s'))) in Hle.
  destruct (pst_le_running i _ _ Hle Hr) as [Hr1 Ep1]. split; [by split|]. split; [exact Hr1|done|].
  assert (pid_of i (bc_s s') = pid_of i (bc_s s)) as -> by (unfold pid_of; by rewrite Ep1). exact C.
Qed.

Lemma bio_inv_settle i s view refs H :
  bio_inv i s view refs H -> let s' := lset (settle (lget s)) s in
  bst_le s s' /\ bio_inv i s' view refs H.
Proof.
  intros Hi. assert (pst_le (lget s) (lset (settle (lget s : lks)) (lget s : pst))) as Hle by pst_same.
  exact (bio_inv_le i s _ _ _ _ Hi Hle).
Qed.

(** bpin ([d = 1]) and bunpin ([d = -1]). *)
Definition addref (d : Z) (x : buf) : buf := set_b_refcnt (u32 (b_refcnt x + d)) x.

(** bpin and bunpin; other spin locks may be held. *)
Lemma wp_addref_raw a d (Q : unit -> bst -> Prop) s :
  intr_wf (lget s) -> is_free (lget s) bcache_lock ->
  Q tt (set_bc_buf (alter (addref d) a (bc_buf s)) (lset (settle (lget s)) s)) ->
  wp (↑ acquire bcache_lock;;
      setb a (fun x => set_b_refcnt (u32 (b_refcnt x + d)) x);;
      ↑ release bcache_lock) Q s.
Proof.
  intros Hwf Hfree HQ. bstep. apply wp_lock; [done|]. do 2 cstep.
  eapply (wp_unlock bcache_lock (lget s)); [done|done|reflexivity|]. exact HQ.
Qed.

Lemma bio_inv_addref i s view refs H blk a d :
  bio_inv i s view refs H -> H !! blk = Some a ->
  let r := u32 (getref refs blk + d) in
  (r = 0 -> view blk = dblock s blk) ->
  bio_inv i (set_bc_buf (alter (addref d) a (bc_buf s)) s) view (setref refs blk r) H.
Proof.
  intros [Hr Hring C] Ha r Hclean. destruct (ct_held _ _ _ _ _ _ _ C _ _ Ha) as (Hca & _).
  pose proof Hring as [Hlen _]. pose proof Hca as (Hlt & Hdev & Hbn).
  split; [exact Hr|apply ringed_alter; [done|done|done]|].
  eapply (content_setref _ (bc_buf s) _ _ _ _ _ _ a); [done|done|apply u32_range|done|..]; cbn.
  - intros b. rewrite bat_alter by lia. by case_decide.
  - intros b Hb'. rewrite bat_alter by lia. case_decide as E; [|done].
    rewrite E. cbn. unfold r. by rewrite (ct_refs _ _ _ _ _ _ _ C a blk).
Qed.

Lemma wp_addref i view refs H blk a d (Q : unit -> bst -> Prop) s :
  bio_inv i s view refs H -> H !! blk = Some a ->
  let r := u32 (getref refs blk + d) in
  (r = 0 -> view blk = dblock s blk) ->
  (forall s', bst_le s s' -> d_disk s' = d_disk s -> d_writes s' = d_writes s ->
     bio_inv i s' view (setref refs blk r) H -> Q tt s') ->
  wp (↑ acquire bcache_lock;;
      setb a (fun x => set_b_refcnt (u32 (b_refcnt x + d)) x);;
      ↑ release bcache_lock) Q s.
Proof.
  intros Hi Ha r Hclean HQ. pose proof (bi_run _ _ _ _ _ Hi) as Hr.
  apply wp_addref_raw; [apply Hr|by apply (running_free i)|].
  destruct (bio_inv_settle _ _ _ _ _ Hi) as [Hle Hi'].
  apply HQ; [by destruct Hle|done|done|]. by apply (bio_inv_addref i _ view refs H blk a d Hi').
Qed.

Lemma wp_bpin i view refs H blk a (Q : unit -> bst -> Prop) s :
  bio_inv i s view refs H -> H !! blk = Some a ->
  let r := u32 (getref refs blk + 1) in
  (r = 0 -> view blk = dblock s blk) ->
  (forall s', bst_le s s' -> d_disk s' = d_disk s -> d_writes s' = d_writes s ->
     bio_inv i s' view (setref refs blk r) H -> Q tt s') ->
  wp (bpin a) Q s.
Proof. apply wp_addref. Qed.

Lemma wp_bunpin i view refs H blk a (Q : unit -> bst -> Prop) s :
  bio_inv i s view refs H -> H !! blk = Some a ->
  let r := u32 (getref refs blk - 1) in
  (r = 0 -> view blk = dblock s blk) ->
  (forall s', bst_le s s' -> d_disk s' = d_disk s -> d_writes s' = d_writes s ->
     bio_inv i s' view (setref refs blk r) H -> Q tt s') ->
  wp (bunpin a) Q s.
Proof. apply (wp_addref _ _ _ _ _ _ (-1)). Qed.

(** ** binit *)

(** The body of the loop of binit: like [push_front], and the lock of the
    buffer is initialised. *)
Lemma wp_binit_one b l (Q : option unit -> bst -> Prop) s :
  length (bc_buf s) = S NBUF -> ring (nexts (bc_buf s)) (prevs (bc_buf s)) HEAD l ->
  NoDup (HEAD :: l) -> b ∉ HEAD :: l -> (b < NBUF)%nat -> (forall x, x ∈ l -> (x < NBUF)%nat) ->
  (forall bufs t, length bufs = S NBUF -> ring (nexts bufs) (prevs bufs) HEAD (b :: l) ->
     (forall c, same_but_links (bat (bc_buf s) c) (bat bufs c)) ->
     sl_held t = delete (buf_lock b) (sl_held (bc_s s)) -> Q None (set_bc_buf bufs (set_bc_s t s))) ->
  wp (hn ← getb HEAD b_next;
      setb b (set_b_next hn);;
      setb b (set_b_prev HEAD);;
      ↑ initsleeplock (buf_lock b);;
      hn ← getb HEAD b_next;
      setb hn (set_b_prev b);;
      setb HEAD (set_b_next b);;
      mret None) Q s.
Proof.
  intros Hlen Hr Hnd Hb Hlt Hin HQ. pose proof (ring_push _ _ _ _ _ Hr Hnd Hb) as Hp.
  pose proof (chain_nx _ _ _ _ _ Hr) as Hn. cbn beta in Hn, Hp.
  assert (nexts (bc_buf s) HEAD < S NBUF)%nat as Hnb.
  { apply elem_of_app in Hn as [Hn|Hn]; [apply Hin in Hn; lia|].
    apply list_elem_of_singleton in Hn. cbn beta. rewrite Hn. unfold HEAD. lia. }
  assert (HEAD <> b) as HbH by set_solver.
  unfold getb. bstep. bstep. bstep. apply wp_set_next; [lia|]. intros b1 L1 N1 P1 S1.
  bstep. apply wp_set_prev; [cbn; lia|]. intros b2 L2 N2 P2 S2. cbn [bc_buf set_bc_buf] in L2, N2, P2, S2.
  bstep. unfold initsleeplock, initlock. apply wp_zoom. bstep. apply wp_zoom. do 2 bstep. do 3 bstep.
  match goal with |- context [lset (set_sl_held _ ?t0) _] => set (t := set_sl_held _ t0) end.
  assert (forall s', b_next (buf_at HEAD (lset t (set_bc_buf b2 s'))) = nexts (bc_buf s) HEAD) as ->.
  { intros s'. etrans; [apply N2|]. etrans; [apply N1|]. by rewrite fupd_ne. }
  apply wp_set_prev; [cbn; lia|]. intros b3 L3 N3 P3 S3. cbn [bc_buf set_bc_buf lset lens_bc_s set_bc_s] in L3, N3, P3, S3.
  bstep. apply wp_set_next; [cbn; unfold HEAD; lia|]. intros b4 L4 N4 P4 S4.
  cbn [bc_buf set_bc_buf] in L4, N4, P4, S4. bstep.
  apply (HQ b4 t); [lia| |intros c; by rewrite <- S4, <- S3, <- S2|done].
  eapply ring_ext; [| |exact Hp]; intros i.
  - etrans; [apply N4|]. unfold fupd. case_decide; [done|]. etrans; [apply N3|]. etrans; [apply N2|]. apply N1.
  - etrans; [apply P4|]. etrans; [apply P3|]. unfold fupd. case_decide; [done|].
    etrans; [apply P2|]. unfold fupd. case_decide; [done|]. apply P1.
Qed.

Lemma wp_binit pid (Q : unit -> bst -> Prop) s :
  bc_buf s = replicate (S NBUF) buf0 ->
  (forall s', ringed (bc_buf s') -> d_disk s' = d_disk s -> d_writes s' = d_writes s ->
     content pid (bc_buf s') (dblock s) (sl_held (bc_s s')) (dblock s) ∅ ∅ -> Q tt s') ->
  wp binit Q s.
Proof.
  intros Hb0 HQ. unfold binit, initlock. bstep. apply wp_zoom. bstep. bstep.
  assert (length (bc_buf s) = S NBUF) as Hlen0 by by rewrite Hb0, length_replicate.
  apply wp_set_prev; [change (HEAD < length (bc_buf s))%nat; unfold HEAD; lia|].
  intros b1 L1 N1 P1 S1. change (length b1 = length (bc_buf s)) in L1.
  bstep. apply wp_set_next; [cbn [bc_buf set_bc_buf]; unfold HEAD; lia|]. intros b2 L2 N2 P2 S2.
  cbn [bc_buf set_bc_buf] in L2, N2, P2, S2.
  assert (forall c, same_but_links buf0 (bat b2 c)) as Hs2.
  { intros c. rewrite <- S2, <- S1. change (same_but_links buf0 (bat (bc_buf s) c)). unfold bat. rewrite Hb0.
    destruct (replicate (S NBUF) buf0 !! c) eqn:E; [|done]. apply lookup_replicate in E as [-> _]. done. }
  bstep.
  apply (wp_for_each (fun l s' => exists k, (k <= NBUF)%nat /\ l = seq k (NBUF - k) /\
    length (bc_buf s') = S NBUF /\ ring (nexts (bc_buf s')) (prevs (bc_buf s')) HEAD (reverse (seq 0 k)) /\
    (forall c, same_but_links buf0 (bat (bc_buf s') c)) /\ d_disk s' = d_disk s /\ d_writes s' = d_writes s /\
    (forall c, (c < k)%nat -> sl_held (bc_s s') !! buf_lock c = None))).
  - exists 0%nat. split_and!; try done; [lia|cbn; lia| |lia].
    split; [etrans; [apply N2|]; by rewrite fupd_eq|].
    etrans; [apply P2|]. etrans; [apply P1|]. by rewrite fupd_eq.
  - intros b l s' (k & Hk & El & Hlen & Hring & Hs & Ed & Ew & Hl).
    destruct (NBUF - k)%nat as [|r] eqn:Er; [done|]. injection El as -> ->.
    apply (wp_binit_one k (reverse (seq 0 k))); [done|done| | |lia| |].
    + constructor; [rewrite elem_of_reverse, elem_of_seq; unfold HEAD; lia|].
      rewrite reverse_Permutation. apply NoDup_seq.
    + rewrite elem_of_cons, elem_of_reverse, elem_of_seq. unfold HEAD. lia.
    + intros x. rewrite elem_of_reverse, elem_of_seq. lia.
    + intros bufs t Lb Rb Sb Ht. exists (S k). split_and!; try done; [lia|f_equal; lia| | |].
      * rewrite seq_S, reverse_snoc. exact Rb.
      * intros c. by rewrite <- Sb.
      * intros c Hc. cbn. rewrite Ht. destruct (decide (c = k)) as [->|Hne]; [by rewrite lookup_delete_eq|].
        rewrite lookup_delete_ne by (unfold buf_lock; intros [= E]; lia). apply Hl. lia.
  - intros s' (k & Hk & El & Hlen & Hring & Hs & Ed & Ew & Hl). bstep.
    assert (k = NBUF) as -> by (destruct (NBUF - k)%nat eqn:E; [lia|done]).
    apply HQ; try done.
    + split; [done|]. exists (reverse (seq 0 NBUF)). split; [exact Hring|by rewrite reverse_Permutation].
    + assert (forall a x, ~ caches (bc_buf s') a x) as Hno.
      { intros a x (_ & Hd & _). destruct (Hs a) as (_ & Hd' & _). rewrite Hd' in Hd. done. }
      split; try done; try (intros; exfalso; by eapply Hno).
      * intros a Ha _. by destruct (Hs a) as (_ & _ & _ & -> & _).
      * intros a Ha _. by apply Hl.
Qed.

(** ** A cache after boot *)

(** Process 0 running on CPU 0, and no other process. *)
Definition first_process : pst :=
  mk_pst (mk_kmst (mk_lks 0 true 0 true (Some 0%nat) ∅) ∅ 0)
    (set_p_state RUNNING proc0 :: replicate 63 proc0) (Some 0%nat) 1 0.

(** The state after binit, with the disk [d]. *)
Definition fresh_cache (d : gmap Z (list Z)) : bst :=
  final (binit (mk_bst (mk_sst first_process ∅) (replicate (S NBUF) buf0) d [])).

Lemma fresh_cache_inv d : bio_inv 0 (fresh_cache d) (dblock (fresh_cache d)) ∅ ∅.
Proof.
  unfold fresh_cache. set (s := mk_bst _ _ _ _).
  assert (running 0 (sl_p (bc_s (final (binit s))))) as Hr by (split; vm_compute; done || lia).
  assert (forall pid, wp binit (fun _ s' => running 0 (sl_p (bc_s s')) ->
    ringed (bc_buf s') /\ content pid (bc_buf s') (dblock s') (sl_held (bc_s s')) (dblock s') ∅ ∅) s) as Hw.
  { intros pid. apply (wp_binit pid); [done|]. intros s' Hring Ed _ C _. split; [done|].
    by refine (content_ext _ _ _ _ _ _ _ _ _ _ _ C); intros x; unfold dblock; rewrite Ed. }
  destruct (wp_final _ _ _ (Hw (pid_of 0 (bc_s (final (binit s)))))) as (_ & _ & H).
  destruct (H Hr) as [Hring C]. exact (Build_bio_inv _ _ _ _ _ Hr Hring C).
Qed.

Lemma fresh_cache_d d : d_disk (fresh_cache d) = d.
Proof.
  unfold fresh_cache. set (s := mk_bst _ _ _ _).
  assert (wp binit (fun _ s' => d_disk s' = d_disk s) s) as Hw by (by apply (wp_binit 0)).
  by destruct (wp_final _ _ _ Hw) as (_ & _ & ->).
Qed.

Lemma fresh_cache_disk d x : dblock (fresh_cache d) x = default zero_block (d !! x).
Proof. unfold dblock. by rewrite fresh_cache_d. Qed.

#[global] Opaque fresh_cache.
