(* ===== verification/Log.v ===== *)
(** * kernel/log.c: the log

    Transactions of the file system.  begin_op may have to wait: it then stops
    with [Asleep], and [begin_op_back] is what it does when woken up.  The
    header block holds log.lh as C lays it out: the count and the block numbers
    as little-endian 32-bit integers. *)

From Stdlib Require Import ZArith Lia.
From stdpp Require Import base list gmap strings.
From S2P Require Import Prelude KString Spinlock Riscv Kalloc Vm Proc Sleeplock Bio.

Definition MAXOPBLOCKS : Z := 10.
Definition LOGSIZE : Z := MAXOPBLOCKS * 3.

Record lst := mk_lst {
  lg_b : bst;
  lg_start : Z;
  lg_size : Z;
  lg_outstanding : Z;  (* how many FS sys calls are executing *)
  lg_committing : bool;  (* in commit(), please wait *)
  lg_dev : Z;
  lg_n : Z;  (* log.lh.n *)
  lg_block : list Z;  (* log.lh.block[LOGSIZE] *)
}.

Definition set_lg_b (x : bst) (s : lst) : lst :=
  mk_lst x (lg_start s) (lg_size s) (lg_outstanding s) (lg_committing s) (lg_dev s) (lg_n s) (lg_block s).
Definition set_lg_start (x : Z) (s : lst) : lst :=
  mk_lst (lg_b s) x (lg_size s) (lg_outstanding s) (lg_committing s) (lg_dev s) (lg_n s) (lg_block s).
Definition set_lg_size (x : Z) (s : lst) : lst :=
  mk_lst (lg_b s) (lg_start s) x (lg_outstanding s) (lg_committing s) (lg_dev s) (lg_n s) (lg_block s).
Definition set_lg_outstanding (x : Z) (s : lst) : lst :=
  mk_lst (lg_b s) (lg_start s) (lg_size s) x (lg_committing s) (lg_dev s) (lg_n s) (lg_block s).
Definition set_lg_committing (x : bool) (s : lst) : lst :=
  mk_lst (lg_b s) (lg_start s) (lg_size s) (lg_outstanding s) x (lg_dev s) (lg_n s) (lg_block s).
Definition set_lg_dev (x : Z) (s : lst) : lst :=
  mk_lst (lg_b s) (lg_start s) (lg_size s) (lg_outstanding s) (lg_committing s) x (lg_n s) (lg_block s).
Definition set_lg_n (x : Z) (s : lst) : lst :=
  mk_lst (lg_b s) (lg_start s) (lg_size s) (lg_outstanding s) (lg_committing s) (lg_dev s) x (lg_block s).
Definition set_lg_block (x : list Z) (s : lst) : lst :=
  mk_lst (lg_b s) (lg_start s) (lg_size s) (lg_outstanding s) (lg_committing s) (lg_dev s) (lg_n s) x.

#[global] Instance lens_lg_b : Lens lst bst.
Proof. by exists lg_b set_lg_b; intros; destruct s. Defined.
#[global] Instance lens_lg_s : Lens lst sst := lens_trans lens_lg_b lens_bc_s.
#[global] Instance lens_lg_p : Lens lst pst := lens_trans lens_lg_b lens_bc_p.
#[global] Instance lens_lg_k : Lens lst kmst := lens_trans lens_lg_b lens_bc_k.
#[global] Instance lens_lg_lk : Lens lst lks := lens_trans lens_lg_b lens_bc_lk.

Definition log_lock : lockid := ("log"%string, 0).
Definition log_chan : chanid := ("log"%string, 0).

(** The k-th int of a block. *)
Definition get_int (d : list Z) (k : nat) : Z := i32 (get_le 4 d (4 * k)).
Definition put_int (d : list Z) (k : nat) (v : Z) : list Z := put_le 4 d (4 * k) v.

(** log.lh.block[i] *)
Definition lh_block (i : Z) (s : lst) : Z := default 0 (zlookup (lg_block s) i).
Definition set_lh_block (i v : Z) (s : lst) : lst := set_lg_block (zinsert i v (lg_block s)) s.

(** The data of a buffer. *)
Definition bdata (b : nat) : M lst (list Z) := ↑ getb b b_data.
Definition set_bdata (b : nat) (d : list Z) : M lst unit := ↑ setb b (set_b_data d).

Definition install_trans : M lst unit :=
  n ← gets lg_n;
  for_range 0 n 1 (fun tail =>
    dev ← gets lg_dev;
    start ← gets lg_start;
    lbuf ← ↑ bread dev (u32 (start + tail + 1));
    blk ← gets (lh_block tail);
    dbuf ← ↑ bread dev (u32 blk);
    d ← bdata lbuf;
    set_bdata dbuf d;;
    ↑ bwrite dbuf;;
    ↑ bunpin dbuf;;
    ↑ brelse lbuf;;
    ↑ brelse dbuf;;
    mret (None : option unit));;
  mret tt.

Definition read_head : M lst unit :=
  dev ← gets lg_dev;
  start ← gets lg_start;
  buf ← ↑ bread dev (u32 start);
  d ← bdata buf;
  modify (set_lg_n (get_int d 0));;
  n ← gets lg_n;
  for_range 0 n 1 (fun i =>
    modify (set_lh_block i (get_int d (S (Z.to_nat i))));;
    mret (None : option unit));;
  ↑ brelse buf.

Definition write_head : M lst unit :=
  dev ← gets lg_dev;
  start ← gets lg_start;
  buf ← ↑ bread dev (u32 start);
  n ← gets lg_n;
  d ← bdata buf;
  set_bdata buf (put_int d 0 n);;
  for_range 0 n 1 (fun i =>
    v ← gets (lh_block i);
    d ← bdata buf;
    set_bdata buf (put_int d (S (Z.to_nat i)) v);;
    mret (None : option unit));;
  ↑ bwrite buf;;
  ↑ brelse buf.

Definition recover_from_log : M lst unit :=
  read_head;;
  install_trans;;
  modify (set_lg_n 0);;
  write_head.

(** [logstart] and [nlog] are the fields of the superblock. *)
Definition initlog (dev logstart nlog : Z) : M lst unit :=
  ↑ initlock log_lock;;
  modify (set_lg_start (i32 logstart));;
  modify (set_lg_size (i32 nlog));;
  modify (set_lg_dev dev);;
  recover_from_log.

(** The loop of begin_op. *)
Definition begin_op_loop : M lst unit :=
  c ← gets lg_committing;
  if (c : bool) then ↑ sleep log_chan log_lock else
  n ← gets lg_n;
  o ← gets lg_outstanding;
  if LOGSIZE <? n + (o + 1) * MAXOPBLOCKS then ↑ sleep log_chan log_lock else
  modify (set_lg_outstanding (o + 1));;
  ↑ release log_lock.

Definition begin_op : M lst unit :=
  ↑ acquire log_lock;;
  begin_op_loop.

Definition begin_op_back : M lst unit :=
  ↑ sleep_back log_lock;;
  begin_op_loop.

Definition write_log : M lst unit :=
  n ← gets lg_n;
  for_range 0 n 1 (fun tail =>
    dev ← gets lg_dev;
    start ← gets lg_start;
    to ← ↑ bread dev (u32 (start + tail + 1));
    blk ← gets (lh_block tail);
    from ← ↑ bread dev (u32 blk);
    d ← bdata from;
    set_bdata to d;;
    ↑ bwrite to;;
    ↑ brelse from;;
    ↑ brelse to;;
    mret (None : option unit));;
  mret tt.

Definition commit : M lst unit :=
  n ← gets lg_n;
  when (0 <? n)
    (write_log;;
     write_head;;
     install_trans;;
     modify (set_lg_n 0);;
     write_head).

Definition end_op : M lst unit :=
  ↑ acquire log_lock;;
  modify (fun s => set_lg_outstanding (lg_outstanding s - 1) s);;
  c ← gets lg_committing;
  if (c : bool) then panic "log.committing" else
  o ← gets lg_outstanding;
  let do_commit := o =? 0 in
  (if do_commit then modify (set_lg_committing true) else ↑ wakeup log_chan);;
  ↑ release log_lock;;
  when do_commit
    (commit;;
     ↑ acquire log_lock;;
     modify (set_lg_committing false);;
     ↑ wakeup log_chan;;
     ↑ release log_lock).

(** The index of [blk] in the first [n] entries of log.lh.block, or [n]. *)
Fixpoint log_find (n : nat) (l : list Z) (blk : Z) : nat :=
  match n, l with
  | S n', x :: l' => if u32 x =? blk then O else S (log_find n' l' blk)
  | _, _ => O
  end.

Definition log_write (b : nat) : M lst unit :=
  n ← gets lg_n;
  size ← gets lg_size;
  if (LOGSIZE <=? n) || (size - 1 <=? n) then panic "too big a transaction" else
  o ← gets lg_outstanding;
  if o <? 1 then panic "log_write outside of trans" else
  ↑ acquire log_lock;;
  blk ← ↑ getb b b_blockno;
  n ← gets lg_n;
  i ← gets (fun s => Z.of_nat (log_find (Z.to_nat n) (lg_block s) blk));
  modify (set_lh_block i (i32 blk));;
  when (i =? n) (↑ bpin b;; modify (fun s => set_lg_n (lg_n s + 1) s));;
  ↑ release log_lock.
