(* ===== verification/LogSpec.v ===== *)
(** * What the log promises

    The effect of the log of kernel/log.c on the disk, independently of how the
    code gets there.  A disk is a function from block numbers to contents, and a
    crash leaves the disk with a prefix of the writes that were under way.
    [recovered] is the disk that recovery makes of what it finds.  The theorems
    say that a prefix of the writes of a commit recovers to the contents before
    or after the transaction, and that a crash during recovery is harmless. *)

From Stdlib Require Import ZArith Lia.
From stdpp Require Import base list gmap.
From S2P Require Import Prelude KString Spinlock Riscv Kalloc Vm Proc Sleeplock Bio Log.

Definition disk : Type := Z -> list Z.
Definition write : Type := Z * list Z.

Definition apply_write (f : disk) (w : write) : disk := fun x => if decide (x = w.1) then w.2 else f x.
Definition apply_writes (ws : list write) (f : disk) : disk := foldl apply_write f ws.

Lemma apply_writes_app ws1 ws2 f :
  apply_writes (ws1 ++ ws2) f = apply_writes ws2 (apply_writes ws1 f).
Proof. apply foldl_app. Qed.

Lemma apply_writes_other ws f x : x ∉ ws.*1 -> apply_writes ws f x = f x.
Proof.
  revert f. induction ws as [|w ws IH]; intros f Hx; [done|]. cbn in Hx |- *.
  rewrite not_elem_of_cons in Hx. destruct Hx as [Hw Hx]. unfold apply_writes in IH.
  rewrite IH by done. unfold apply_write. by rewrite decide_False.
Qed.

Lemma apply_writes_in ws f x d : NoDup (ws.*1) -> (x, d) ∈ ws -> apply_writes ws f x = d.
Proof.
  revert f. induction ws as [|w ws IH]; intros f Hnd Hx; [by apply not_elem_of_nil in Hx|].
  cbn in Hnd |- *. apply NoDup_cons in Hnd as [Hw Hnd]. apply elem_of_cons in Hx as [<-|Hx].
  - change (apply_writes ws (apply_write f (x, d)) x = d). rewrite apply_writes_other by done.
    unfold apply_write. by rewrite decide_True.
  - by apply IH.
Qed.

Lemma apply_writes_ext ws f g x : f x = g x -> apply_writes ws f x = apply_writes ws g x.
Proof.
  revert f g. induction ws as [|w ws IH]; intros f g E; [done|]. cbn. apply IH.
  unfold apply_write. by case_decide.
Qed.

Lemma fst_pairs (f : disk) (l : list Z) : ((fun b => (b, f b) : write) <$> l).*1 = l.
Proof. rewrite <- list_fmap_compose. apply list_fmap_id. Qed.

(** ** The header block *)

Fixpoint put_ints (d : list Z) (k : nat) (vs : list Z) : list Z :=
  match vs with
  | [] => d
  | v :: vs' => put_ints (put_int d k v) (S k) vs'
  end.

(** The header block that describes the blocks [bs], written over [d]. *)
Definition header (d : list Z) (bs : list Z) : list Z := put_ints d 0 (Z.of_nat (length bs) :: bs).

(** The block numbers in a header block. *)
Definition hdr_blocks (d : list Z) : list Z :=
  (fun i => get_int d (S i)) <$> seq 0 (Z.to_nat (get_int d 0)).

Lemma length_put_ints d k vs : length (put_ints d k vs) = length d.
Proof.
  revert d k. induction vs as [|v vs IH]; intros; cbn [put_ints]; [done|]. rewrite IH. apply length_put_le.
Qed.

Lemma put_ints_app d k vs1 vs2 :
  put_ints d k (vs1 ++ vs2) = put_ints (put_ints d k vs1) (k + length vs1) vs2.
Proof.
  revert d k. induction vs1 as [|v vs1 IH]; intros; cbn [put_ints app length]; [by rewrite Nat.add_0_r|].
  rewrite IH. f_equal. lia.
Qed.

Lemma get_put_int d k v :
  (4 * k + 4 <= length d)%nat -> is_i32 v -> get_int (put_int d k v) k = v.
Proof.
  intros Hl Hv. unfold get_int, put_int. rewrite get_put_le by lia.
  change (256 ^ Z.of_nat 4) with (2 ^ 32). unfold i32, is_i32 in *. divlia.
Qed.

Lemma get_put_int_ne d k j v : k <> j -> get_int (put_int d k v) j = get_int d j.
Proof. intros Hne. unfold get_int, put_int. rewrite get_put_le_ne by lia. done. Qed.

Lemma get_put_ints_other d k vs j : (j < k)%nat -> get_int (put_ints d k vs) j = get_int d j.
Proof.
  revert d k. induction vs as [|v vs IH]; intros d k Hj; cbn [put_ints]; [done|].
  rewrite IH by lia. apply get_put_int_ne. lia.
Qed.

Lemma get_put_ints d k vs i v :
  (4 * (k + length vs) <= length d)%nat -> Forall is_i32 vs -> vs !! i = Some v ->
  get_int (put_ints d k vs) (k + i) = v.
Proof.
  revert d k i. induction vs as [|w vs IH]; intros d k i Hl Hv Hi; [done|].
  apply Forall_cons in Hv as [Hw Hv]. cbn [length] in Hl. cbn [put_ints]. destruct i as [|i].
  - injection Hi as ->. rewrite Nat.add_0_r. rewrite get_put_ints_other by lia.
    apply get_put_int; [lia|done].
  - rewrite <- Nat.add_succ_comm. apply IH; [|done|done]. unfold put_int. rewrite length_put_le. lia.
Qed.

Lemma hdr_blocks_header d bs :
  (4 * S (length bs) <= length d)%nat -> (length d <= 1024)%nat -> Forall is_i32 bs ->
  hdr_blocks (header d bs) = bs.
Proof.
  intros Hl Hl' Hb. unfold hdr_blocks, header.
  assert (Forall is_i32 (Z.of_nat (length bs) :: bs)) as Hall.
  { apply Forall_cons. split; [unfold is_i32; lia|done]. }
  rewrite (get_put_ints d 0 _ 0 (Z.of_nat (length bs))); [|cbn; lia|done|done].
  rewrite Nat2Z.id. apply list_eq. intros i. rewrite list_lookup_fmap.
  destruct (bs !! i) as [b|] eqn:E.
  - rewrite lookup_seq_lt by by eapply lookup_lt_Some. cbn [fmap option_fmap option_map]. f_equal.
    apply (get_put_ints d 0 _ (S i) b); [cbn; lia|done|done].
  - by rewrite lookup_seq_ge by by apply lookup_ge_None.
Qed.

(** ** Recovery *)

Section log_area.
Context (start size : Z).

Definition in_log (x : Z) : Prop := start <= x < start + size.

(** Equal but for the blocks of the log. *)
Definition same_fs (f g : disk) : Prop := forall x, ~ in_log x -> f x = g x.

#[global] Instance same_fs_equiv : Equivalence same_fs.
Proof.
  split; [by intros f x|by intros f g E x Hx; rewrite E|].
  intros f g h E1 E2 x Hx. by rewrite E1, E2.
Qed.

(** The blocks of a transaction: distinct, none of them in the log, and no
    more than the log has room for.  The cache has a buffer left when all of
    them are in it. *)
Record log_ok (bs : list Z) : Prop := {
  lo_nodup : NoDup bs;
  lo_blocks : Forall (fun b => 0 <= b < 2 ^ 31 /\ ~ in_log b) bs;
  lo_len : Z.of_nat (length bs) < size;
  lo_max : (length bs < NBUF)%nat;
}.

(** Copies of the blocks from the log to their home locations. *)
Definition install_writes (bs : list Z) (f : disk) : list write :=
  imap (fun t b => (b, f (start + Z.of_nat t + 1))) bs.
(** Copies of the blocks to the log. *)
Definition log_writes (bs : list Z) (f : disk) : list write :=
  imap (fun t b => (start + Z.of_nat t + 1, f b)) bs.

(** What recovery makes of the disk [f]. *)
Definition recovered (f : disk) : disk := apply_writes (install_writes (hdr_blocks (f start)) f) f.

Lemma install_writes_fst bs f : (install_writes bs f).*1 = bs.
Proof.
  unfold install_writes. apply list_eq. intros t. rewrite list_lookup_fmap, list_lookup_imap.
  by destruct (bs !! t).
Qed.

Lemma log_writes_in_log bs f x : Z.of_nat (length bs) < size -> x ∈ (log_writes bs f).*1 -> in_log x /\ x <> start.
Proof.
  intros Hl Hx. apply list_elem_of_fmap in Hx as (w & -> & Hw).
  apply list_elem_of_lookup_1 in Hw as [t Ht]. unfold log_writes in Ht. rewrite list_lookup_imap in Ht.
  destruct (bs !! t) eqn:E; [|done]. injection Ht as <-. apply lookup_lt_Some in E. unfold in_log. cbn. lia.
Qed.

Lemma apply_log_writes bs f g t b :
  bs !! t = Some b -> apply_writes (log_writes bs g) f (start + Z.of_nat t + 1) = g b.
Proof.
  intros Ht. apply apply_writes_in.
  - replace ((log_writes bs g).*1) with ((fun t => start + Z.of_nat t + 1) <$> seq 0 (length bs)).
    + apply NoDup_fmap_2; [intros x y; lia|apply NoDup_seq].
    + apply list_eq. intros j. unfold log_writes. rewrite !list_lookup_fmap, list_lookup_imap.
      destruct (bs !! j) eqn:E; [by rewrite lookup_seq_lt by by eapply lookup_lt_Some|].
      by rewrite lookup_seq_ge by by apply lookup_ge_None.
  - apply list_elem_of_lookup_2 with t. unfold log_writes. by rewrite list_lookup_imap, Ht.
Qed.

Lemma apply_install_writes bs f g t b :
  NoDup bs -> bs !! t = Some b -> apply_writes (install_writes bs g) f b = g (start + Z.of_nat t + 1).
Proof.
  intros Hnd Ht. apply apply_writes_in; [by rewrite install_writes_fst|].
  apply list_elem_of_lookup_2 with t. unfold install_writes. by rewrite list_lookup_imap, Ht.
Qed.

(** An empty log: recovery leaves the disk alone. *)
Lemma recovered_empty f : hdr_blocks (f start) = [] -> recovered f = f.
Proof. intros E. unfold recovered. by rewrite E. Qed.

(** A committed transaction: recovery brings its blocks to the contents
    [new], whichever of them are there already. *)
Lemma recovered_committed f new bs :
  log_ok bs -> hdr_blocks (f start) = bs ->
  (forall t b, bs !! t = Some b -> f (start + Z.of_nat t + 1) = new b) ->
  (forall x, x ∉ bs -> ~ in_log x -> f x = new x) ->
  same_fs (recovered f) new.
Proof.
  intros [Hnd _ _ _] Eh Hlog Ho x Hx. unfold recovered. rewrite Eh.
  destruct (decide (x ∈ bs)) as [Hin|Hin].
  - apply list_elem_of_lookup_1 in Hin as [t Ht]. rewrite (apply_install_writes _ _ _ t) by done. by apply Hlog.
  - rewrite apply_writes_other; [by apply Ho|]. by rewrite install_writes_fst.
Qed.

(** ** Crashes *)

(** The writes of commit(): the blocks to the log, the header that commits, the
    blocks to their homes, the empty header. *)
Definition commit_writes (bs : list Z) (hd : list Z) (new : disk) : list write :=
  (log_writes bs new ++ [(start, header hd bs)]) ++
  ((fun b => (b, new b)) <$> bs) ++ [(start, header (header hd bs) [])].

(** The writes of recover_from_log(). *)
Definition recover_writes (f : disk) : list write :=
  install_writes (hdr_blocks (f start)) f ++ [(start, header (f start) [])].

Lemma header_nil_blocks d : (4 <= length d <= 1024)%nat -> hdr_blocks (header d []) = [].
Proof. intros. apply hdr_blocks_header; cbn; [lia|lia|done]. Qed.

Lemma log_ok_i32 bs : log_ok bs -> Forall is_i32 bs.
Proof.
  intros Hok. eapply Forall_impl; [apply (lo_blocks _ Hok)|]. intros b [Hb _]. unfold is_i32. lia.
Qed.

Lemma log_ok_nil : 0 < size -> log_ok [].
Proof. intros. split; cbn; [constructor|constructor|lia|unfold NBUF; lia]. Qed.

Lemma header_log_blocks d bs :
  log_ok bs -> length d = 1024%nat -> hdr_blocks (header d bs) = bs /\ length (header d bs) = 1024%nat.
Proof.
  intros Hok Hl. pose proof (lo_max _ Hok). unfold NBUF in *. split.
  - apply hdr_blocks_header; [lia|lia|by apply log_ok_i32].
  - unfold header. by rewrite length_put_ints.
Qed.

Lemma log_ok_out bs x : log_ok bs -> x ∈ bs -> ~ in_log x.
Proof. intros Hok Hx. pose proof (lo_blocks _ Hok) as Hf. rewrite Forall_forall in Hf. by apply Hf. Qed.

(** A disk after the header has been written, with some of the blocks
    installed. *)
Lemma crash_committed bs f new ws hd :
  log_ok bs -> length hd = 1024%nat -> (forall x, x ∉ bs -> ~ in_log x -> new x = f x) ->
  (forall w, w ∈ ws -> w.1 ∈ bs /\ w.2 = new w.1) ->
  let g := apply_writes ws (apply_writes (log_writes bs new ++ [(start, header hd bs)]) f) in
  g start = header hd bs /\ same_fs (recovered g) new /\
  (forall x, x ∉ bs -> ~ in_log x -> g x = new x).
Proof.
  intros Hok Hl Hnew Hws g.
  assert (forall x, x ∉ bs -> g x = apply_writes (log_writes bs new ++ [(start, header hd bs)]) f x) as Hg.
  { intros x Hx. apply apply_writes_other. intros Hin. apply list_elem_of_fmap in Hin as (w & -> & Hw).
    by apply Hws in Hw as [? _]. }
  assert (forall x, in_log x -> x ∉ bs) as Hlog by (intros x Hx Hin; by eapply log_ok_out).
  pose proof (lo_len _ Hok) as Hlen.
  assert (g start = header hd bs) as Es.
  { rewrite Hg by (apply Hlog; unfold in_log; lia). rewrite apply_writes_app. cbn. unfold apply_write.
    by rewrite decide_True. }
  assert (forall x, x ∉ bs -> ~ in_log x -> g x = new x) as Ho.
  { intros x Hx Hn. rewrite Hg by done. rewrite apply_writes_app. cbn. unfold apply_write. cbn [fst].
    rewrite decide_False by (unfold in_log in Hn; lia). rewrite apply_writes_other; [by rewrite Hnew|].
    intros [? _]%log_writes_in_log; done. }
  split; [done|]. split; [|done]. destruct (header_log_blocks hd bs Hok Hl) as [Eb _].
  apply (recovered_committed g new bs); [done|by rewrite Es|..]; [|done].
  intros t b Ht. pose proof (lookup_lt_Some _ _ _ Ht). rewrite Hg by (apply Hlog; unfold in_log; lia).
  rewrite apply_writes_app. cbn. unfold apply_write. cbn [fst].
  rewrite decide_False by lia. by apply apply_log_writes.
Qed.

End log_area.

Lemma prefix_app_cases {A} (ws l1 l2 : list A) :
  ws `prefix_of` l1 ++ l2 -> ws `prefix_of` l1 \/ exists ws', ws = l1 ++ ws' /\ ws' `prefix_of` l2.
Proof.
  intros Hp. destruct (prefix_weak_total ws l1 (l1 ++ l2)) as [H|[k ->]];
    [done|by apply prefix_app_r|by left|].
  right. exists k. split; [done|]. by apply prefix_app_inv in Hp.
Qed.

Lemma prefix_snoc_cases {A} (ws l : list A) x :
  ws `prefix_of` l ++ [x] -> ws `prefix_of` l \/ ws = l ++ [x].
Proof.
  intros [H|(ws' & -> & [k Hk])]%prefix_app_cases; [by left|].
  destruct ws' as [|y ws']; [left; by rewrite app_nil_r|].
  injection Hk as <- Hk. destruct ws'; [by right|done].
Qed.

Lemma prefix_elem_of {A} (ws l : list A) x : ws `prefix_of` l -> x ∈ ws -> x ∈ l.
Proof. intros [k ->] Hx. apply elem_of_app. by left. Qed.

Section crash.
Context (start size : Z) (bs : list Z) (f new : disk).
Hypothesis Hok : log_ok start size bs.
Hypothesis Hl : length (f start) = 1024%nat.
Hypothesis He : hdr_blocks (f start) = [].
Hypothesis Hnew : forall x, x ∉ bs -> ~ in_log start size x -> new x = f x.

(** A crash before the header is written. *)
Lemma crash_before ws :
  ws `prefix_of` log_writes start bs new ->
  let g := apply_writes ws f in g start = f start /\ same_fs start size (recovered start g) f.
Proof.
  intros Hp g. pose proof (lo_len _ _ _ Hok) as Hlen.
  assert (forall x, ~ in_log start size x \/ x = start -> g x = f x) as Eg.
  { intros x Hx. apply apply_writes_other. intros Hin. apply list_elem_of_fmap in Hin as (w & -> & Hw).
    apply (prefix_elem_of _ _ _ Hp) in Hw. destruct (log_writes_in_log start size bs new w.1); [done| |tauto].
    by apply list_elem_of_fmap_2. }
  split; [by apply Eg; right|]. rewrite recovered_empty by by rewrite Eg by tauto.
  intros x Hx. by apply Eg; left.
Qed.

(** A crash after the last write of the commit. *)
Lemma crash_after :
  let g := apply_writes (commit_writes start bs (f start) new) f in
  g start = header (header (f start) bs) [] /\ same_fs start size g new.
Proof.
  intros g. destruct (crash_committed start size bs f new ((fun b => (b, new b)) <$> bs) (f start))
    as (E1 & _ & E3); [done..| |].
  { intros w Hw. apply list_elem_of_fmap in Hw as (b & -> & Hb). done. }
  cbn zeta in E1, E3. unfold g, commit_writes. rewrite (apply_writes_app (_ ++ [_])), (apply_writes_app (_ <$> _)).
  set (g' := apply_writes ((fun b => (b, new b)) <$> bs) _) in *. split; [cbn; unfold apply_write; by rewrite decide_True|].
  pose proof (lo_len _ _ _ Hok) as Hlen.
  intros x Hx. cbn. unfold apply_write. cbn [fst]. rewrite decide_False by (unfold in_log in Hx; lia).
  destruct (decide (x ∈ bs)) as [Hin|Hin]; [|by apply E3]. unfold g'. apply apply_writes_in.
  - rewrite fst_pairs. apply Hok.
  - by apply (list_elem_of_fmap_2 (fun b => (b, new b))).
Qed.

(** A crash during a commit leaves the file system, once recovered, as it was
    before or after the transaction, and the log it leaves is one that recovery
    can process. *)
Lemma commit_atomic ws :
  ws `prefix_of` commit_writes start bs (f start) new ->
  let g := apply_writes ws f in
  log_ok start size (hdr_blocks (g start)) /\ length (g start) = 1024%nat /\
  (same_fs start size (recovered start g) f \/ same_fs start size (recovered start g) new).
Proof.
  intros Hp g. pose proof (lo_len _ _ _ Hok) as Hlen.
  destruct (header_log_blocks _ _ (f start) _ Hok Hl) as [Eb El].
  assert (forall ws', (forall w, w ∈ ws' -> w.1 ∈ bs /\ w.2 = new w.1) ->
    ws = (log_writes start bs new ++ [(start, header (f start) bs)]) ++ ws' ->
    log_ok start size (hdr_blocks (g start)) /\ length (g start) = 1024%nat /\
    same_fs start size (recovered start g) new) as Hmid.
  { intros ws' Hws Ews. destruct (crash_committed start size bs f new ws' (f start)) as (E1 & E2 & _); [done..|].
    cbn zeta in E1, E2. rewrite <- apply_writes_app, <- Ews in E1, E2. fold g in E1, E2. by rewrite E1, Eb. }
  unfold commit_writes in Hp. apply prefix_app_cases in Hp as [Hp|(ws' & Ews & Hp)].
  - apply prefix_snoc_cases in Hp as [Hp|Ews].
    + destruct (crash_before _ Hp) as [Es Hs]. fold g in Es, Hs. rewrite Es, He.
      split; [apply log_ok_nil; lia|]. tauto.
    + destruct (Hmid []) as (? & ? & ?); [by intros w Hw%not_elem_of_nil|by rewrite app_nil_r|]. tauto.
  - apply prefix_snoc_cases in Hp as [Hp|Ews'].
    + destruct (Hmid ws') as (? & ? & ?); [|done|tauto]. intros w Hw. apply (prefix_elem_of _ _ _ Hp) in Hw.
      by apply list_elem_of_fmap in Hw as (b & -> & Hb).
    + destruct crash_after as [Es Hs].
      assert (g = apply_writes (commit_writes start bs (f start) new) f) as Eg
        by (unfold g, commit_writes; by rewrite Ews, Ews').
      rewrite <- Eg in Es, Hs. rewrite recovered_empty by (rewrite Es; apply header_nil_blocks; lia).
      rewrite Es, header_nil_blocks by lia. split; [apply log_ok_nil; lia|].
      split; [unfold header at 1; rewrite length_put_ints; lia|tauto].
Qed.

End crash.

(** A crash during recovery leaves a disk that recovers to the same contents,
    and recovery that runs to its end leaves these contents and an empty log. *)
Lemma recovery_idempotent start size f ws :
  log_ok start size (hdr_blocks (f start)) -> length (f start) = 1024%nat ->
  ws `prefix_of` recover_writes start f ->
  let g := apply_writes ws f in
  log_ok start size (hdr_blocks (g start)) /\ length (g start) = 1024%nat /\
  same_fs start size (recovered start g) (recovered start f).
Proof.
  intros Hok Hl Hp g. pose proof (lo_len _ _ _ Hok) as Hlen. pose proof (lo_max _ _ _ Hok) as Hmax.
  unfold recover_writes in Hp. set (bs := hdr_blocks (f start)) in *.
  apply prefix_snoc_cases in Hp as [Hp| ->].
  - assert (forall x, x ∉ bs -> g x = f x) as Eg.
    { intros x Hx. apply apply_writes_other. intros Hin. apply list_elem_of_fmap in Hin as (w & -> & Hw).
      apply (prefix_elem_of _ _ _ Hp), (list_elem_of_fmap_2 fst) in Hw. by rewrite install_writes_fst in Hw. }
    assert (forall x, in_log start size x -> g x = f x) as Egl.
    { intros x Hx. apply Eg. intros Hin. by eapply log_ok_out. }
    rewrite Egl by (unfold in_log; lia). split; [done|]. split; [done|].
    apply (recovered_committed start size g _ bs); [done|by rewrite Egl by (unfold in_log; lia)|..].
    + intros t b Ht. pose proof (lookup_lt_Some _ _ _ Ht). rewrite Egl by (unfold in_log; lia).
      symmetry. unfold recovered. fold bs. apply apply_install_writes; [apply Hok|done].
    + intros x Hx _. rewrite Eg by done. unfold recovered. fold bs.
      rewrite apply_writes_other; [done|by rewrite install_writes_fst].
  - assert (g start = header (f start) []) as Es.
    { unfold g. rewrite apply_writes_app. cbn. unfold apply_write. by rewrite decide_True. }
    rewrite recovered_empty by (rewrite Es; apply header_nil_blocks; lia).
    rewrite Es, header_nil_blocks by lia. split; [apply log_ok_nil; lia|].
    split; [unfold header; rewrite length_put_ints; lia|].
    intros x Hx. unfold g. rewrite apply_writes_app. cbn. unfold apply_write. cbn [fst].
    by rewrite decide_False by (unfold in_log in Hx; lia).
Qed.
