(* ===== verification/LogProofs.v ===== *)
(** * kernel/log.c: the code of the log

    The operations of log.c make exactly the writes of [LogSpec], in that order,
    so that what is shown there of every prefix of them holds of a crash at any
    point of commit() and of recover_from_log(). *)

From Stdlib Require Import ZArith Lia.
From stdpp Require Import base list gmap strings.
From S2P Require Import Prelude KString Spinlock Riscv Kalloc Vm Proc Sleeplock Bio BioInv BioProofs Log LogSpec.

(** ** Reference counts *)

Definition incref (refs : gmap Z Z) (blk : Z) : gmap Z Z := setref refs blk (u32 (getref refs blk + 1)).
Definition decref (refs : gmap Z Z) (blk : Z) : gmap Z Z := setref refs blk (u32 (getref refs blk - 1)).

Definition refs_ok (refs : gmap Z Z) : Prop := forall b r, refs !! b = Some r -> is_u32 r /\ r <> 0.

Lemma setref_ok refs b r : refs_ok refs -> is_u32 r -> refs_ok (setref refs b r).
Proof.
  intros Hok Hr x v. unfold setref. case_decide.
  - intros [_ Hx]%lookup_delete_Some. by apply Hok in Hx.
  - rewrite lookup_insert. case_decide; [by intros [= <-]|by apply Hok].
Qed.

Lemma refs_eq refs1 refs2 :
  refs_ok refs1 -> refs_ok refs2 -> (forall b, getref refs1 b = getref refs2 b) -> refs1 = refs2.
Proof.
  intros H1 H2 E. apply map_eq. intros b. specialize (E b). unfold getref in E.
  destruct (refs1 !! b) eqn:E1, (refs2 !! b) eqn:E2; cbn in E; [by subst| | |done].
  - by apply H1 in E1 as [_ ?].
  - by apply H2 in E2 as [_ ?].
Qed.

Lemma getref_ok refs b : refs_ok refs -> is_u32 (getref refs b).
Proof.
  intros H. unfold getref. destruct (refs !! b) eqn:E; [by apply H in E as [? _]|]. unfold is_u32. cbn. lia.
Qed.

Lemma bio_refs_ok i s view refs H : bio_inv i s view refs H -> refs_ok refs.
Proof. intros Hi b r Hb. by destruct (ct_dom _ _ _ _ _ _ _ (bi_cont _ _ _ _ _ Hi) _ _ Hb) as (? & ? & _). Qed.

Lemma bio_clean i s view refs H x : bio_inv i s view refs H -> getref refs x = 0 -> view x = dblock s x.
Proof.
  intros Hi Hx. apply (ct_clean _ _ _ _ _ _ _ (bi_cont _ _ _ _ _ Hi)). unfold getref in Hx.
  destruct (refs !! x) eqn:E; [|done]. by apply (bio_refs_ok _ _ _ _ _ Hi) in E as [_ ?].
Qed.

Lemma decref_incref refs b : refs_ok refs -> decref (incref refs b) b = refs.
Proof.
  intros Hok. apply refs_eq; [repeat apply setref_ok; (done || apply u32_range)|done|].
  intros x. unfold decref, incref. rewrite !getref_setref. case_decide; [|by rewrite ?decide_False].
  subst. rewrite decide_True by done. pose proof (getref_ok _ b Hok). unfold is_u32, u32 in *. divlia.
Qed.

Lemma decref_incref_ne refs b c : refs_ok refs -> b <> c -> decref (incref refs b) c = incref (decref refs c) b.
Proof.
  intros Hok Hne. apply refs_eq; [repeat apply setref_ok; (done || apply u32_range)..|].
  intros x. unfold decref, incref. rewrite !getref_setref. repeat (case_decide; subst; try done).
Qed.

Lemma is_Some_getref refs b : refs_ok refs -> is_Some (refs !! b) <-> getref refs b <> 0.
Proof.
  intros Hok. unfold getref. split.
  - intros [r Hr]. rewrite Hr. cbn. by apply Hok in Hr as [_ ?].
  - destruct (refs !! b); [done|]. done.
Qed.

Lemma getref_incref refs b x :
  getref (incref refs b) x = if decide (x = b) then u32 (getref refs b + 1) else getref refs x.
Proof. apply getref_setref. Qed.
Lemma getref_decref refs b x :
  getref (decref refs b) x = if decide (x = b) then u32 (getref refs b - 1) else getref refs x.
Proof. apply getref_setref. Qed.

Lemma incref_ok refs b : refs_ok refs -> refs_ok (incref refs b).
Proof. intros. apply setref_ok; [done|apply u32_range]. Qed.
Lemma decref_ok refs b : refs_ok refs -> refs_ok (decref refs b).
Proof. intros. apply setref_ok; [done|apply u32_range]. Qed.
#[export] Hint Resolve incref_ok decref_ok bio_refs_ok : xv6.

Lemma size_incref refs b : (size (incref refs b) <= S (size refs))%nat.
Proof.
  unfold incref, setref. case_decide.
  - rewrite map_size_delete. destruct (refs !! b); cbn; lia.
  - rewrite map_size_insert. destruct (refs !! b); cbn; lia.
Qed.

(** ** The cache, used by the log *)

(** [b'] is [b] after the disk writes [ws]. *)
Record evolves (ws : list write) (b b' : bst) : Prop := {
  ev_le : bst_le b b';
  ev_writes : d_writes b' = d_writes b ++ ws;
  ev_disk : forall x, dblock b' x = apply_writes ws (dblock b) x;
}.

Lemma evolves_refl b : evolves [] b b.
Proof. split; [done|by rewrite app_nil_r|done]. Qed.

Lemma evolves_trans ws1 ws2 b1 b2 b3 :
  evolves ws1 b1 b2 -> evolves ws2 b2 b3 -> evolves (ws1 ++ ws2) b1 b3.
Proof.
  intros [A1 A2 A3] [B1 B2 B3]. split; [by etrans|by rewrite B2, A2, app_assoc|].
  intros x. rewrite B3, apply_writes_app. by apply apply_writes_ext.
Qed.

Lemma evolves_same b b' : bst_le b b' -> d_disk b' = d_disk b -> d_writes b' = d_writes b -> evolves [] b b'.
Proof. intros H Ed Ew. split; [done|by rewrite app_nil_r|]. intros x. unfold dblock. by rewrite Ed. Qed.

Lemma evolves_nil_l ws b1 b2 b3 : evolves [] b1 b2 -> evolves ws b2 b3 -> evolves ws b1 b3.
Proof. apply (evolves_trans []). Qed.
Lemma evolves_nil_r ws b1 b2 b3 : evolves ws b1 b2 -> evolves [] b2 b3 -> evolves ws b1 b3.
Proof. intros H1 H2. rewrite <- (app_nil_r ws). by eapply evolves_trans. Qed.

Lemma bio_view_ext i b view view' refs H :
  (forall x, view' x = view x) -> bio_inv i b view refs H -> bio_inv i b view' refs H.
Proof. intros E [? ? C]. split; [done..|]. by apply (content_ext _ _ (dblock b) _ _ view). Qed.

Section cache_ops.
Context (i : nat) (s : lst).

Lemma wp_log_bread b view refs H blk (Q : nat -> lst -> Prop) :
  bio_inv i b view refs H -> H !! blk = None -> (forall x a, H !! x = Some a -> is_Some (refs !! x)) ->
  getref refs blk <> 2 ^ 32 - 1 -> is_Some (refs !! blk) \/ (size refs < NBUF)%nat ->
  (forall a b', evolves [] b b' -> bio_inv i b' view (incref refs blk) (<[blk := a]> H) ->
     Q a (set_lg_b b' s)) ->
  wp (↑ bread 1 blk) Q (set_lg_b b s).
Proof.
  intros Hb HH HHr Hr Ha HQ. apply wp_zoom. eapply (wp_bread i view refs H); [done..| |done|].
  { pose proof (getref_ok refs blk ltac:(by eapply bio_refs_ok)). unfold is_u32, u32 in *.
    intros E. apply Z.mod_divide in E as [k Hk]; lia. }
  intros a b' H1 H2 H3 H4. apply HQ; [by apply evolves_same|done].
Qed.

Lemma wp_log_data b view refs H blk a (Q : list Z -> lst -> Prop) :
  bio_inv i b view refs H -> H !! blk = Some a ->
  Q (view blk) (set_lg_b b s) -> wp (bdata a) Q (set_lg_b b s).
Proof.
  intros Hb HH HQ. unfold bdata. apply wp_zoom, wp_getb. destruct (bio_held _ _ _ _ _ _ _ Hb HH) as (_ & _ & E & _).
  by rewrite <- E in HQ.
Qed.

Lemma wp_log_setdata b view refs H blk a d (Q : unit -> lst -> Prop) :
  bio_inv i b view refs H -> H !! blk = Some a -> is_Some (refs !! blk) ->
  (forall b', evolves [] b b' -> bio_inv i b' (apply_write view (blk, d)) refs H -> Q tt (set_lg_b b' s)) ->
  wp (set_bdata a d) Q (set_lg_b b s).
Proof.
  intros Hb HH Hr HQ. apply wp_zoom. eapply wp_setdata; [done..|]. intros b' H1 H2 H3 H4.
  apply HQ; [by apply evolves_same|done].
Qed.

Lemma wp_log_bwrite b view refs H blk a (Q : unit -> lst -> Prop) :
  bio_inv i b view refs H -> H !! blk = Some a ->
  (forall b', evolves [(blk, view blk)] b b' -> bio_inv i b' view refs H -> Q tt (set_lg_b b' s)) ->
  wp (↑ bwrite a) Q (set_lg_b b s).
Proof.
  intros Hb HH HQ. apply wp_zoom. eapply wp_bwrite; [done..|]. intros b' H1 H2 H3 H4.
  apply HQ; [|done]. split; [done..|]. intros x. unfold dblock. rewrite H2. cbn. unfold apply_write. cbn.
  rewrite lookup_insert. case_decide; case_decide; subst; done.
Qed.

Lemma wp_log_brelse b view refs H blk a (Q : unit -> lst -> Prop) :
  bio_inv i b view refs H -> H !! blk = Some a ->
  (getref (decref refs blk) blk = 0 -> view blk = dblock b blk) ->
  (forall b', evolves [] b b' -> bio_inv i b' view (decref refs blk) (delete blk H) -> Q tt (set_lg_b b' s)) ->
  wp (↑ brelse a) Q (set_lg_b b s).
Proof.
  intros Hb HH Hc HQ. apply wp_zoom. rewrite getref_decref, decide_True in Hc by done.
  eapply wp_brelse; [done..|]. intros b' H1 H2 H3 H4. apply HQ; [by apply evolves_same|done].
Qed.

Lemma wp_log_bunpin b view refs H blk a (Q : unit -> lst -> Prop) :
  bio_inv i b view refs H -> H !! blk = Some a ->
  (getref (decref refs blk) blk = 0 -> view blk = dblock b blk) ->
  (forall b', evolves [] b b' -> bio_inv i b' view (decref refs blk) H -> Q tt (set_lg_b b' s)) ->
  wp (↑ bunpin a) Q (set_lg_b b s).
Proof.
  intros Hb HH Hc HQ. apply wp_zoom. rewrite getref_decref, decide_True in Hc by done.
  eapply wp_bunpin; [done..|]. intros b' H1 H2 H3 H4. apply HQ; [by apply evolves_same|done].
Qed.

Lemma wp_log_bpin b view refs H blk a (Q : unit -> lst -> Prop) :
  bio_inv i b view refs H -> H !! blk = Some a ->
  (getref (incref refs blk) blk = 0 -> view blk = dblock b blk) ->
  (forall b', evolves [] b b' -> bio_inv i b' view (incref refs blk) H -> Q tt (set_lg_b b' s)) ->
  wp (↑ bpin a) Q (set_lg_b b s).
Proof.
  intros Hb HH Hc HQ. apply wp_zoom. rewrite getref_incref, decide_True in Hc by done.
  eapply wp_bpin; [done..|]. intros b' H1 H2 H3 H4. apply HQ; [by apply evolves_same|done].
Qed.

End cache_ops.

(** ** The loops of the log *)

(** log.lh in memory lists the blocks [bs]; the log begins at block [start]
    of device 1. *)
Record log_mem (start : Z) (s : lst) (bs : list Z) : Prop := {
  lm_dev : lg_dev s = 1;
  lm_start : lg_start s = start;
  lm_n : lg_n s = Z.of_nat (length bs);
  lm_blocks : bs `prefix_of` lg_block s;
}.

Lemma log_mem_block start s bs t x : log_mem start s bs -> bs !! t = Some x -> lh_block (Z.of_nat t) s = x.
Proof.
  intros [_ _ _ [k E]] Ht. unfold lh_block, zlookup. rewrite (proj2 (Z.leb_le _ _)) by lia.
  rewrite E, Nat2Z.id. by rewrite lookup_app_l_Some with (x := x).
Qed.

Lemma take_imap {A B} (f : nat -> A -> B) l t x :
  l !! t = Some x -> take (S t) (imap f l) = take t (imap f l) ++ [f t x].
Proof. intros Ht. apply take_S_r. by rewrite list_lookup_imap, Ht. Qed.

(** The cache has room for the two blocks of each round of install_trans, when
    each round takes a reference of its block away. *)
Fixpoint room (refs : gmap Z Z) (bs : list Z) : Prop :=
  match bs with
  | [] => True
  | x :: bs' => (stdpp.base.size refs < NBUF)%nat /\ getref refs x <> 2 ^ 32 - 1 /\
      (is_Some (refs !! x) \/ (S (stdpp.base.size refs) < NBUF)%nat) /\ room (decref refs x) bs'
  end.

Section log_code.
Context (i : nat) (start size : Z) (bs : list Z).
Hypothesis Hstart : 0 <= start.
Hypothesis Hend : start + size < 2 ^ 31.
Hypothesis Hok : log_ok start size bs.

Lemma bs_block t x : bs !! t = Some x ->
  u32 x = x /\ ~ in_log start size x /\ x <> start + Z.of_nat t + 1 /\
  u32 (start + Z.of_nat t + 1) = start + Z.of_nat t + 1 /\ in_log start size (start + Z.of_nat t + 1).
Proof.
  intros Ht. pose proof (lo_blocks _ _ _ Hok) as Hf. rewrite Forall_forall in Hf.
  destruct (Hf x) as [Hx Hn]; [by eapply list_elem_of_lookup_2|]. pose proof (lo_len _ _ _ Hok).
  apply lookup_lt_Some in Ht. unfold in_log in *.
  split_and!; try lia; apply u32_small; unfold is_u32; lia.
Qed.

(** One round of write_log. *)
Lemma wp_write_log_one s b view view' refs t x (Q : option unit -> lst -> Prop) :
  log_mem start s bs -> bs !! Z.to_nat t = Some x -> 0 <= t ->
  bio_inv i b view' refs ∅ -> (forall x, ~ in_log start size x -> view' x = view x) ->
  1 <= getref refs x <= 2 ^ 32 - 2 ->
  (forall x, in_log start size x -> getref refs x = 0) -> (stdpp.base.size refs < NBUF)%nat ->
  (forall b', evolves [(start + t + 1, view x)] b b' ->
     bio_inv i b' (apply_write view' (start + t + 1, view x)) refs ∅ -> Q None (set_lg_b b' s)) ->
  wp (dev ← gets lg_dev;
      start ← gets lg_start;
      to ← ↑ bread dev (u32 (start + t + 1));
      blk ← gets (lh_block t);
      from ← ↑ bread dev (u32 blk);
      d ← bdata from;
      set_bdata to d;;
      ↑ bwrite to;;
      ↑ brelse from;;
      ↑ brelse to;;
      mret (None : option unit)) Q (set_lg_b b s).
Proof.
  intros Hm Hx Ht Hb Hview Hpin Hfree Hsize HQ. pose proof (bio_refs_ok _ _ _ _ _ Hb) as Hrok.
  pose proof (bs_block _ _ Hx) as (Ex & Hxl & Hne & Et & Hl). rewrite Z2Nat.id in * by lia.
  pose proof (log_mem_block _ _ _ _ _ Hm Hx) as Eb. rewrite Z2Nat.id in Eb by lia.
  do 5 bstep. cbn [lg_dev lg_start set_lg_b]. rewrite (lm_dev _ _ _ Hm), (lm_start _ _ _ Hm), Et.
  eapply wp_log_bread; [done|done|by intros ? ?; rewrite lookup_empty| |by right|].
  { rewrite Hfree by done. lia. }
  intros to b1 Hev1 Hb1. do 3 bstep.
  replace (lh_block t (set_lg_b b1 s)) with x by (symmetry; exact Eb). rewrite Ex.
  assert (getref (incref refs (start + t + 1)) x = getref refs x) as Egx
    by (rewrite getref_incref, decide_False; done).
  assert (is_Some (incref refs (start + t + 1) !! x)) as Hsx
    by (rewrite is_Some_getref, Egx by eauto with xv6; lia).
  assert (is_Some (incref refs (start + t + 1) !! (start + t + 1))) as Hst.
  { rewrite is_Some_getref by eauto with xv6. rewrite getref_incref, decide_True, Hfree by done. done. }
  eapply wp_log_bread; [done|by rewrite lookup_insert_ne by done| | |by left|].
  { intros y a [[<- <-]|[_ Hy]]%lookup_insert_Some; [done|]. by rewrite lookup_empty in Hy. }
  { rewrite Egx. lia. }
  intros from b2 Hev2 Hb2. bstep.
  eapply wp_log_data; [exact Hb2|by apply lookup_insert_eq|]. rewrite Hview by done. bstep.
  assert (<[x:=from]> (<[start + t + 1:=to]> (∅ : gmap Z nat)) !! (start + t + 1) = Some to) as Eto.
  { rewrite lookup_insert_ne by done. apply lookup_insert_eq. }
  eapply wp_log_setdata; [exact Hb2|exact Eto| |].
  { rewrite is_Some_getref by eauto with xv6. rewrite getref_incref, decide_False by done.
    by apply is_Some_getref; eauto with xv6. }
  intros b3 Hev3 Hb3. bstep. eapply wp_log_bwrite; [exact Hb3|exact Eto|].
  assert (apply_write view' (start + t + 1, view x) (start + t + 1) = view x) as ->
    by (unfold apply_write; by rewrite decide_True).
  intros b4 Hev4 Hb4. bstep. eapply wp_log_brelse; [exact Hb4|by apply lookup_insert_eq| |].
  { rewrite decref_incref, Egx by eauto with xv6. lia. }
  rewrite decref_incref by eauto with xv6. rewrite delete_insert_id by (by rewrite lookup_insert_ne by done).
  intros b5 Hev5 Hb5. bstep. eapply wp_log_brelse; [exact Hb5|by apply lookup_insert_eq| |].
  { intros _. rewrite (ev_disk _ _ _ Hev5). cbn. rewrite (ev_disk _ _ _ Hev4). cbn. unfold apply_write. by rewrite !decide_True. }
  rewrite decref_incref by done. rewrite delete_insert_id by done. intros b6 Hev6 Hb6. bstep. apply HQ; [|done].
  eauto 8 using evolves_nil_l, evolves_nil_r.
Qed.

Lemma wp_write_log s b view refs (Q : unit -> lst -> Prop) :
  log_mem start s bs -> bio_inv i b view refs ∅ ->
  (forall x, x ∈ bs -> 1 <= getref refs x <= 2 ^ 32 - 2) ->
  (forall x, in_log start size x -> getref refs x = 0) -> (stdpp.base.size refs < NBUF)%nat ->
  (forall b', let ws := log_writes start bs view in
     evolves ws b b' -> bio_inv i b' (apply_writes ws view) refs ∅ -> Q tt (set_lg_b b' s)) ->
  wp write_log Q (set_lg_b b s).
Proof.
  intros Hm Hb Hpin Hfree Hsize HQ. pose proof (bio_refs_ok _ _ _ _ _ Hb) as Hrok.
  unfold write_log. do 3 bstep.
  set (ws := log_writes start bs view) in *.
  apply (wp_for_range (fun t s' => exists b', 0 <= t <= Z.of_nat (length bs) /\ s' = set_lg_b b' s /\
    evolves (take (Z.to_nat t) ws) b b' /\
    bio_inv i b' (apply_writes (take (Z.to_nat t) ws) view) refs ∅)); [lia| | |].
  - exists b. split_and!; [lia|lia|done|apply evolves_refl|done].
  - intros t s' Ht _ (b1 & _ & -> & Hev & Hb1). cbn in Ht. rewrite (lm_n _ _ _ Hm) in Ht.
    destruct (lookup_lt_is_Some_2 bs (Z.to_nat t)) as [x Hx]; [lia|].
    eapply (wp_write_log_one _ _ view);
      [exact Hm|exact Hx|lia|exact Hb1| |apply Hpin; by eapply list_elem_of_lookup_2|done|done|].
    { intros y Hy. apply apply_writes_other. intros Hin. apply Hy.
      apply (log_writes_in_log start size bs view); [apply Hok|]. rewrite fmap_take in Hin.
      by eapply elem_of_take in Hin as (k & ? & _); eapply list_elem_of_lookup_2. }
    intros b2 Hev2 Hb2. exists b2.
    replace (Z.to_nat (t + 1)) with (S (Z.to_nat t)) by lia. unfold ws, log_writes.
    rewrite (take_imap _ _ _ x) by done. rewrite Z2Nat.id by lia. split_and!; [lia|lia|done|by eapply evolves_trans|].
    by rewrite apply_writes_app.
  - intros t s' _ Ht _ (b1 & Ht' & -> & Hev & Hb1). cbn in Ht. rewrite (lm_n _ _ _ Hm) in Ht.
    rewrite take_ge in Hev, Hb1 by (unfold ws, log_writes; rewrite length_imap; lia).
    bstep. by apply HQ.
Qed.

Lemma bio_overwrite b view refs H blk d d' :
  bio_inv i b (apply_write (apply_write view (blk, d)) (blk, d')) refs H ->
  bio_inv i b (apply_write view (blk, d')) refs H.
Proof. apply bio_view_ext. intros x. unfold apply_write. cbn. by case_decide. Qed.

Lemma wp_write_head s b view refs (Q : unit -> lst -> Prop) :
  log_mem start s bs -> bio_inv i b view refs ∅ ->
  getref refs start = 0 -> (stdpp.base.size refs < NBUF)%nat ->
  (forall b', let w := (start, header (view start) bs) in
     evolves [w] b b' -> bio_inv i b' (apply_write view w) refs ∅ -> Q tt (set_lg_b b' s)) ->
  wp write_head Q (set_lg_b b s).
Proof.
  intros Hm Hb Hfree Hsize HQ. pose proof (bio_refs_ok _ _ _ _ _ Hb) as Hrok.
  pose proof (lo_len _ _ _ Hok) as Hlen.
  unfold write_head. do 5 bstep. cbn [lg_dev lg_start set_lg_b]. rewrite (lm_dev _ _ _ Hm), (lm_start _ _ _ Hm).
  rewrite u32_small by (unfold is_u32; lia).
  eapply wp_log_bread; [done|done|by intros ? ?; rewrite lookup_empty|rewrite Hfree; lia|by right|].
  intros a b1 Hev1 Hb1. set (Hd := <[start := a]> (∅ : gmap Z nat)) in *.
  assert (Hd !! start = Some a) as Ha by apply lookup_insert_eq.
  assert (is_Some (incref refs start !! start)) as Hss.
  { rewrite is_Some_getref by eauto with xv6. rewrite getref_incref, decide_True, Hfree by done. done. }
  do 3 bstep. eapply wp_log_data; [exact Hb1|exact Ha|]. bstep.
  eapply wp_log_setdata; [exact Hb1|exact Ha|done|]. intros b2 Hev2 Hb2. bstep.
  cbn [lg_n set_lg_b] in Hb2 |- *. rewrite (lm_n _ _ _ Hm) in *. set (n := Z.of_nat (length bs)) in *.
  apply (wp_for_range (fun t s' => exists b', s' = set_lg_b b' s /\ evolves [] b b' /\
    bio_inv i b' (apply_write view (start, put_ints (view start) 0 (n :: take (Z.to_nat t) bs)))
      (incref refs start) Hd)); [lia| | |].
  - exists b2. split_and!; [done|by eapply evolves_nil_l|exact Hb2].
  - intros t s' Ht _ (b3 & -> & Hev3 & Hb3).
    destruct (lookup_lt_is_Some_2 bs (Z.to_nat t)) as [x Hx]; [lia|].
    pose proof (log_mem_block _ _ _ _ _ Hm Hx) as Ex. rewrite Z2Nat.id in Ex by lia.
    do 3 bstep. eapply wp_log_data; [exact Hb3|exact Ha|]. bstep.
    eapply wp_log_setdata; [exact Hb3|exact Ha|done|]. intros b4 Hev4 Hb4. bstep. exists b4.
    split_and!; [done|by eapply evolves_nil_r|]. replace (Z.to_nat (t + 1)) with (S (Z.to_nat t)) by lia.
    apply bio_overwrite in Hb4. rewrite (take_S_r _ _ x) by done. rewrite app_comm_cons, put_ints_app.
    cbn [length]. rewrite length_take_le by lia. cbn [put_ints Nat.add].
    replace (lh_block t (set_lg_b b3 s)) with x in Hb4 by (symmetry; exact Ex).
    unfold apply_write at 2 in Hb4. cbn [fst snd] in Hb4. by rewrite decide_True in Hb4 by done.
  - intros t s' Ht1 Ht2 _ (b3 & -> & Hev3 & Hb3). rewrite take_ge in Hb3 by lia.
    fold (header (view start) bs) in Hb3. bstep. eapply wp_log_bwrite; [exact Hb3|exact Ha|].
    assert (forall d, apply_write view (start, d) start = d) as ->
      by (intros d; unfold apply_write; by rewrite decide_True).
    intros b4 Hev4 Hb4. eapply wp_log_brelse; [exact Hb4|exact Ha| |].
    { intros _. rewrite (ev_disk _ _ _ Hev4). cbn. unfold apply_write. by rewrite !decide_True. }
    rewrite decref_incref by done. unfold Hd. rewrite delete_insert_id by done.
    intros b5 Hev5 Hb5. apply HQ; [|done]. eauto using evolves_nil_l, evolves_nil_r.
Qed.

(** One round of install_trans. *)
Lemma wp_install_one s b view view' refs t x rest (Q : option unit -> lst -> Prop) :
  log_mem start s bs -> bs !! Z.to_nat t = Some x -> 0 <= t ->
  bio_inv i b view' refs ∅ -> (forall x, in_log start size x -> view' x = view x) ->
  room refs (x :: rest) -> (forall x, in_log start size x -> getref refs x = 0) ->
  (forall b', let w := (x, view (start + t + 1)) in
     evolves [w] b b' -> bio_inv i b' (apply_write view' w) (decref refs x) ∅ -> Q None (set_lg_b b' s)) ->
  wp (dev ← gets lg_dev;
      start ← gets lg_start;
      lbuf ← ↑ bread dev (u32 (start + t + 1));
      blk ← gets (lh_block t);
      dbuf ← ↑ bread dev (u32 blk);
      d ← bdata lbuf;
      set_bdata dbuf d;;
      ↑ bwrite dbuf;;
      ↑ bunpin dbuf;;
      ↑ brelse lbuf;;
      ↑ brelse dbuf;;
      mret (None : option unit)) Q (set_lg_b b s).
Proof.
  intros Hm Hx Ht Hb Hview (Hsize & Hmax & Hav & _) Hfree HQ. pose proof (bio_refs_ok _ _ _ _ _ Hb) as Hrok.
  pose proof (bs_block _ _ Hx) as (Ex & Hxl & Hne & Et & Hl). rewrite Z2Nat.id in * by lia.
  pose proof (log_mem_block _ _ _ _ _ Hm Hx) as Eb. rewrite Z2Nat.id in Eb by lia.
  do 5 bstep. cbn [lg_dev lg_start set_lg_b]. rewrite (lm_dev _ _ _ Hm), (lm_start _ _ _ Hm), Et.
  set (l := start + t + 1) in *.
  eapply wp_log_bread; [done|done|by intros ? ?; rewrite lookup_empty|by rewrite Hfree; [lia|]|by right|].
  intros lbuf b1 Hev1 Hb1. do 3 bstep.
  replace (lh_block t (set_lg_b b1 s)) with x by (symmetry; exact Eb). rewrite Ex.
  assert (getref (incref refs l) x = getref refs x) as Egx by (rewrite getref_incref, decide_False; done).
  assert (is_Some (incref refs l !! l)) as Hsl.
  { rewrite is_Some_getref by eauto with xv6. rewrite getref_incref, decide_True, Hfree by done. done. }
  eapply wp_log_bread; [done|by rewrite lookup_insert_ne by done| |by rewrite Egx| |].
  { intros y a [[<- <-]|[_ Hy]]%lookup_insert_Some; [done|]. by rewrite lookup_empty in Hy. }
  { destruct Hav as [Hav|Hav]; [left|right; pose proof (size_incref refs l); lia].
    rewrite is_Some_getref, Egx by eauto with xv6. by apply is_Some_getref. }
  intros dbuf b2 Hev2 Hb2. set (Hd := <[x:=dbuf]> (<[l:=lbuf]> (∅ : gmap Z nat))) in *.
  assert (Hd !! l = Some lbuf) as El by (unfold Hd; rewrite lookup_insert_ne by done; apply lookup_insert_eq).
  assert (Hd !! x = Some dbuf) as Ed by apply lookup_insert_eq.
  bstep. eapply wp_log_data; [exact Hb2|exact El|]. rewrite Hview by done.
  bstep. eapply wp_log_setdata; [exact Hb2|exact Ed| |].
  { rewrite is_Some_getref by eauto with xv6. rewrite getref_incref, decide_True, Egx by done.
    pose proof (getref_ok refs x Hrok). rewrite u32_small; unfold is_u32 in *; lia. }
  intros b3 Hev3 Hb3. bstep. eapply wp_log_bwrite; [exact Hb3|exact Ed|].
  set (view3 := apply_write view' (x, view l)) in *.
  assert (view3 x = view l) as Ev by (unfold view3, apply_write; by rewrite decide_True). rewrite Ev.
  intros b4 Hev4 Hb4.
  assert (forall b', evolves [] b4 b' -> view3 x = dblock b' x) as Hclean.
  { intros b' Hb'. rewrite Ev, (ev_disk _ _ _ Hb'). cbn. rewrite (ev_disk _ _ _ Hev4). cbn.
    unfold apply_write. by rewrite decide_True. }
  bstep. eapply wp_log_bunpin; [exact Hb4|exact Ed|intros _; apply Hclean, evolves_refl|].
  rewrite decref_incref by eauto with xv6. intros b5 Hev5 Hb5.
  bstep. eapply wp_log_brelse; [exact Hb5|exact El| |].
  { intros _. rewrite (ev_disk _ _ _ Hev5). cbn. rewrite (ev_disk _ _ _ Hev4). cbn. unfold view3, apply_write. cbn.
    rewrite !decide_False by done. rewrite (bio_clean _ _ _ _ _ _ Hb) by by apply Hfree.
    symmetry. apply (ev_disk [] b). eauto using evolves_nil_l. }
  rewrite decref_incref by done. intros b6 Hev6 Hb6.
  bstep. eapply wp_log_brelse; [exact Hb6|by rewrite lookup_delete_ne| |].
  { intros _. apply Hclean. by eapply evolves_nil_l. }
  intros b7 Hev7 Hb7. bstep. apply HQ.
  - eauto 9 using evolves_nil_l, evolves_nil_r.
  - unfold Hd in Hb7. by rewrite delete_insert_ne, delete_insert_eq, delete_insert_id in Hb7.
Qed.

Lemma wp_install_trans s b view refs (Q : unit -> lst -> Prop) :
  log_mem start s bs -> bio_inv i b view refs ∅ -> room refs bs ->
  (forall x, in_log start size x -> getref refs x = 0) ->
  (forall b', let ws := install_writes start bs view in
     evolves ws b b' -> bio_inv i b' (apply_writes ws view) (foldl decref refs bs) ∅ -> Q tt (set_lg_b b' s)) ->
  wp install_trans Q (set_lg_b b s).
Proof.
  intros Hm Hb Hroom Hfree HQ. unfold install_trans. do 3 bstep.
  set (ws := install_writes start bs view) in *.
  apply (wp_for_range (fun t s' => exists b', 0 <= t <= Z.of_nat (length bs) /\ s' = set_lg_b b' s /\
    evolves (take (Z.to_nat t) ws) b b' /\
    let refs' := foldl decref refs (take (Z.to_nat t) bs) in
    bio_inv i b' (apply_writes (take (Z.to_nat t) ws) view) refs' ∅ /\ room refs' (drop (Z.to_nat t) bs) /\
    forall x, in_log start size x -> getref refs' x = 0)); [lia| | |].
  - exists b. cbn zeta. split_and!; [lia|lia|done|apply evolves_refl|done|done|done].
  - intros t s' Ht _ (b1 & _ & -> & Hev & Hb1 & Hroom1 & Hfree1). cbn in Ht. rewrite (lm_n _ _ _ Hm) in Ht.
    destruct (lookup_lt_is_Some_2 bs (Z.to_nat t)) as [x Hx]; [lia|].
    rewrite (drop_S _ _ _ Hx) in Hroom1.
    eapply (wp_install_one _ _ view); [exact Hm|exact Hx|lia|exact Hb1| |exact Hroom1|exact Hfree1|].
    { intros y Hy. apply apply_writes_other. rewrite fmap_take. unfold ws. rewrite install_writes_fst.
      intros (k & Hk & _)%elem_of_take. eapply (log_ok_out start size); [done| |done]. by eapply list_elem_of_lookup_2. }
    intros b2 w Hev2 Hb2. exists b2. replace (Z.to_nat (t + 1)) with (S (Z.to_nat t)) by lia.
    assert (take (S (Z.to_nat t)) ws = take (Z.to_nat t) ws ++ [w]) as ->.
    { unfold ws, install_writes. rewrite (take_imap _ _ _ x) by done. by rewrite Z2Nat.id by lia. }
    rewrite (take_S_r _ _ x Hx), foldl_app, apply_writes_app.
    cbn zeta. split_and!; [lia|lia|done|by eapply evolves_trans|done|apply Hroom1|].
    intros y Hy. cbn. rewrite getref_decref, decide_False; [by apply Hfree1|].
    intros ->. by pose proof (bs_block _ _ Hx) as (_ & ? & _).
  - intros t s' _ Ht _ (b1 & Ht' & -> & Hev & Hb1 & _). cbn in Ht. rewrite (lm_n _ _ _ Hm) in Ht.
    rewrite (take_ge bs) in Hb1 by lia.
    rewrite take_ge in Hev, Hb1 by (unfold ws, install_writes; rewrite length_imap; lia).
    bstep. by apply HQ.
Qed.

End log_code.

(** ** Commit *)

Lemma size_decref refs x : is_Some (refs !! x) -> (stdpp.base.size (decref refs x) <= stdpp.base.size refs)%nat.
Proof.
  intros [r Hr]. unfold decref, setref. case_decide; [rewrite map_size_delete|rewrite map_size_insert];
    rewrite Hr; cbn; lia.
Qed.

(** Whether the blocks are pinned once by the transaction or not at all, the
    cache has room for install_trans. *)
Lemma room_pinned refs bs :
  refs_ok refs -> NoDup bs -> (forall x, x ∈ bs -> 1 <= getref refs x <= 2 ^ 32 - 2) ->
  (stdpp.base.size refs < NBUF)%nat -> room refs bs.
Proof.
  revert refs. induction bs as [|x bs IH]; intros refs Hok Hnd Hpin Hsize; cbn; [done|].
  apply NoDup_cons in Hnd as [Hx Hnd]. pose proof (Hpin x ltac:(by left)) as Hpx.
  assert (is_Some (refs !! x)) as Hs by (apply is_Some_getref; [done|lia]).
  split_and!; [done|lia|by left|]. apply IH; [by apply decref_ok|done| |].
  - intros y Hy. rewrite getref_decref, decide_False by (intros ->; done). apply Hpin. by right.
  - pose proof (size_decref refs x Hs). lia.
Qed.

Lemma size_decrefs refs bs :
  refs_ok refs -> NoDup bs -> (forall x, x ∈ bs -> getref refs x <> 0) ->
  (stdpp.base.size (foldl decref refs bs) <= stdpp.base.size refs)%nat.
Proof.
  revert refs. induction bs as [|x bs IH]; intros refs Hok Hnd Hpin; cbn; [done|].
  apply NoDup_cons in Hnd as [Hx Hnd]. etrans; [apply IH; [by apply decref_ok|done|]|].
  - intros y Hy. rewrite getref_decref, decide_False by (intros ->; done). apply Hpin. by right.
  - apply size_decref, is_Some_getref; [done|]. apply Hpin. by left.
Qed.

Lemma size_decrefs_le refs bs :
  (stdpp.base.size (foldl decref refs bs) <= stdpp.base.size refs + length bs)%nat.
Proof.
  revert refs. induction bs as [|x bs IH]; intros refs; cbn; [lia|]. etrans; [apply IH|].
  unfold decref, setref. case_decide; [rewrite map_size_delete|rewrite map_size_insert];
    destruct (refs !! x); cbn; lia.
Qed.

Lemma room_unpinned refs bs :
  refs_ok refs -> NoDup bs -> (forall x, x ∈ bs -> getref refs x = 0) ->
  (stdpp.base.size refs + length bs < NBUF)%nat -> room refs bs.
Proof.
  revert refs. induction bs as [|x bs IH]; intros refs Hok Hnd Hpin Hsize; cbn; [done|].
  apply NoDup_cons in Hnd as [Hx Hnd]. pose proof (Hpin x ltac:(by left)) as Hpx. cbn in Hsize.
  split_and!; [lia|lia|right; lia|]. apply IH; [by apply decref_ok|done| |].
  - intros y Hy. rewrite getref_decref, decide_False by (intros ->; done). apply Hpin. by right.
  - unfold decref, setref. rewrite Hpx. rewrite decide_False by done. rewrite map_size_insert.
    destruct (refs !! x); cbn; lia.
Qed.

Lemma getref_decrefs refs bs x :
  NoDup bs -> getref (foldl decref refs bs) x = if decide (x ∈ bs) then u32 (getref refs x - 1) else getref refs x.
Proof.
  revert refs. induction bs as [|y bs IH]; intros refs Hnd; cbn [foldl].
  { by rewrite decide_False by apply not_elem_of_nil. }
  apply NoDup_cons in Hnd as [Hy Hnd]. rewrite IH by done. rewrite getref_decref.
  destruct (decide (x = y)) as [->|Hne].
  - rewrite decide_False by done. rewrite decide_True by (by left). done.
  - destruct (decide (x ∈ bs)); [rewrite decide_True by (by right); done|].
    rewrite decide_False; [done|]. intros [?|?]%elem_of_cons; done.
Qed.

(** The state in which end_op calls commit(): the log in memory lists the
    blocks that the operations changed, the cache has the changed blocks
    pinned, and the log on the disk is empty. *)
Record committable (i : nat) (start size : Z) (s : lst) (bs : list Z) (view : disk) (refs : gmap Z Z)
    : Prop := {
  cm_start : 0 <= start;
  cm_end : start + size < 2 ^ 31;
  cm_ok : log_ok start size bs;
  cm_mem : log_mem start s bs;
  cm_cache : bio_inv i (lg_b s) view refs ∅;
  cm_pinned : forall x, x ∈ bs -> 1 <= getref refs x <= 2 ^ 32 - 2;
  cm_log : forall x, in_log start size x -> getref refs x = 0;
  cm_room : (stdpp.base.size refs < NBUF)%nat;
  cm_clean : forall x, x ∉ bs -> ~ in_log start size x -> view x = dblock (lg_b s) x;
  cm_len : length (dblock (lg_b s) start) = 1024%nat;
  cm_empty : hdr_blocks (dblock (lg_b s) start) = [];
}.

Lemma log_mem_b start s b bs : log_mem start (set_lg_b b s) bs <-> log_mem start s bs.
Proof. split; intros [? ? ? ?]; by split. Qed.

Lemma log_mem_clear start s bs : log_mem start s bs -> log_mem start (set_lg_n 0 s) [].
Proof. intros [? ? ? ?]. split; try done. by apply prefix_nil. Qed.

(** The blocks that install_trans copies when the log has just been written. *)
Lemma install_logged start size bs view hd :
  log_ok start size bs ->
  install_writes start bs (apply_write (apply_writes (log_writes start bs view) view) (start, hd)) =
  (fun b => (b, view b)) <$> bs.
Proof.
  intros Hok. apply list_eq. intros t. unfold install_writes. rewrite list_lookup_imap, list_lookup_fmap.
  destruct (bs !! t) as [x|] eqn:Ht; [|done]. cbn. do 2 f_equal. unfold apply_write. cbn.
  rewrite decide_False by lia. by apply apply_log_writes.
Qed.

Lemma wp_commit i start size s bs view refs (Q : unit -> lst -> Prop) :
  committable i start size s bs view refs -> bs <> [] ->
  (forall b' view', let ws := commit_writes start bs (dblock (lg_b s) start) view in
     evolves ws (lg_b s) b' -> bio_inv i b' view' (foldl decref refs bs) ∅ ->
     same_fs start size view' view -> Q tt (set_lg_n 0 (set_lg_b b' s))) ->
  wp commit Q s.
Proof.
  intros [Hs He Hok Hm Hb Hpin Hlog Hroom Hclean Hlen Hempty] Hne HQ.
  pose proof (bio_refs_ok _ _ _ _ _ Hb) as Hrok. pose proof (lo_len _ _ _ Hok) as Hsize.
  assert (in_log start size start) as Hin by (unfold in_log; lia).
  unfold commit. do 2 bstep. rewrite (lm_n _ _ _ Hm).
  replace (0 <? Z.of_nat (length bs)) with true by (destruct bs; [done|symmetry; apply Z.ltb_lt; cbn; lia]).
  cbn [when].
  match goal with |- wp ?m ?K _ => cut (wp m K (set_lg_b (lg_b s) s)); [by destruct s|] end.
  bstep. eapply (wp_write_log i start size bs); [done..|]. cbn zeta. intros b1 Hev1 Hb1.
  set (view1 := apply_writes _ view) in *.
  assert (view1 start = dblock (lg_b s) start) as E1.
  { unfold view1. rewrite apply_writes_other by (intros [_ ?]%(log_writes_in_log _ size); done).
    apply (bio_clean _ _ _ _ _ _ Hb). by apply Hlog. }
  bstep. eapply (wp_write_head i start size bs); [done..|by apply Hlog|done|]. cbn zeta. rewrite E1.
  intros b2 Hev2 Hb2. bstep.
  eapply (wp_install_trans i start size bs); [done..| |done|].
  { apply room_pinned; [done|apply Hok|done|done]. }
  cbn zeta. unfold view1. rewrite (install_logged start size) by done. fold view1. intros b3 Hev3 Hb3. do 2 bstep.
  set (refs' := foldl decref refs bs) in *.
  assert (forall x, in_log start size x -> getref refs' x = 0) as Hlog'.
  { intros x Hx. unfold refs'. rewrite getref_decrefs by apply Hok.
    rewrite decide_False; [by apply Hlog|]. intros Hxb. by eapply log_ok_out. }
  replace (set_lg_n 0 (set_lg_b b3 s)) with (set_lg_b b3 (set_lg_n 0 s)) by done.
  assert (stdpp.base.size refs' < NBUF)%nat as Hsize'.
  { eapply Nat.le_lt_trans; [apply size_decrefs; [done|apply Hok|]|done]. intros x Hx. apply Hpin in Hx. lia. }
  eapply (wp_write_head i start size []); [done|done|apply log_ok_nil; lia|by eapply log_mem_clear|exact Hb3|
    by apply Hlog'|done|].
  cbn zeta. intros b4 Hev4 Hb4. eapply HQ; [|exact Hb4|].
  - unfold commit_writes. rewrite <- app_assoc. eapply evolves_trans; [done|]. cbn [app].
    apply (evolves_trans [_]) with b2; [done|]. eapply evolves_trans; [done|].
    rewrite (apply_writes_other _ _ start) in Hev4; cycle 1.
    { rewrite fst_pairs. intros Hxb. by eapply log_ok_out. }
    unfold apply_write at 1 in Hev4. cbn [fst snd] in Hev4. by rewrite decide_True in Hev4.
  - intros x Hx. unfold apply_write at 1. cbn [fst]. rewrite decide_False by (intros ->; done).
    destruct (decide (x ∈ bs)) as [Hxb|Hxb].
    + apply apply_writes_in; [by rewrite fst_pairs; apply Hok|].
      by apply (list_elem_of_fmap_2 (fun b => (b, view b))).
    + rewrite apply_writes_other by by rewrite fst_pairs. unfold apply_write. cbn [fst].
      rewrite decide_False by (intros ->; done). unfold view1.
      apply apply_writes_other. by intros [? _]%(log_writes_in_log _ size).
Qed.

(** ** Recovery *)

(** What read_head and recovery leave alone. *)
Definition log_frame (s s' : lst) : Prop :=
  lg_dev s' = lg_dev s /\ lg_start s' = lg_start s /\ lg_size s' = lg_size s /\
  lg_outstanding s' = lg_outstanding s /\ lg_committing s' = lg_committing s /\
  length (lg_block s') = length (lg_block s).

Lemma read_blocks d (l : list Z) k :
  (k < length l)%nat -> ((fun j => get_int d (S j)) <$> seq 0 k) `prefix_of` l ->
  ((fun j => get_int d (S j)) <$> seq 0 (S k)) `prefix_of` <[k := get_int d (S k)]> l.
Proof.
  intros Hk [l' ->]. rewrite length_app, length_fmap, length_seq in Hk.
  rewrite seq_S, fmap_app, insert_app_r_alt by (rewrite length_fmap, length_seq; lia).
  rewrite length_fmap, length_seq, Nat.sub_diag. destruct l' as [|y l']; [cbn in Hk; lia|]. cbn.
  exists l'. by rewrite <- app_assoc.
Qed.

Lemma wp_read_head i s b view refs (Q : unit -> lst -> Prop) :
  let start := lg_start s in let d := view start in
  is_u32 start -> lg_dev s = 1 -> bio_inv i b view refs ∅ -> getref refs start = 0 ->
  (stdpp.base.size refs < NBUF)%nat -> get_int d 0 <= Z.of_nat (length (lg_block s)) ->
  (forall s' b', evolves [] b b' -> bio_inv i b' view refs ∅ -> log_frame s s' -> lg_n s' = get_int d 0 ->
     hdr_blocks d `prefix_of` lg_block s' -> Q tt (set_lg_b b' s')) ->
  wp read_head Q (set_lg_b b s).
Proof.
  intros start d Hs Hdev Hb Hfree Hsize Hlen HQ. pose proof (bio_refs_ok _ _ _ _ _ Hb) as Hrok.
  unfold read_head. do 5 bstep. cbn [lg_dev lg_start set_lg_b]. fold start. rewrite Hdev, u32_small by done.
  eapply wp_log_bread; [done|done|by intros ? ?; rewrite lookup_empty|rewrite Hfree; lia|by right|].
  intros a b1 Hev1 Hb1. bstep. eapply wp_log_data; [exact Hb1|apply lookup_insert_eq|]. fold d.
  do 5 bstep. cbn [lg_n set_lg_n].
  apply (wp_for_range (fun t s' => exists s1, 0 <= t /\ (t <= 0 \/ t <= get_int d 0) /\ s' = set_lg_b b1 s1 /\
    log_frame s s1 /\ lg_n s1 = get_int d 0 /\
    ((fun j => get_int d (S j)) <$> seq 0 (Z.to_nat t)) `prefix_of` lg_block s1)); [lia| | |].
  - exists (set_lg_n (get_int d 0) s). split_and!; [lia|lia|done|done|done|apply prefix_nil].
  - intros t s' Ht _ (s1 & _ & _ & -> & (F1 & F2 & F3 & F4 & F5 & F6) & Hn & Hp). do 3 bstep.
    exists (set_lh_block t (get_int d (S (Z.to_nat t))) s1). unfold set_lh_block, zinsert.
    rewrite !(proj2 (Z.leb_le 0 t)) by lia. split_and!; try done; [lia|lia| |].
    + unfold log_frame. cbn. rewrite length_insert. split_and!; done.
    + replace (Z.to_nat (t + 1)) with (S (Z.to_nat t)) by lia. apply read_blocks; [lia|done].
  - intros t s' Ht1 Ht2 _ (s1 & _ & Ht & -> & Hf & Hn & Hp).
    assert (Z.to_nat t = Z.to_nat (get_int d 0)) as Et by lia. rewrite Et in Hp. fold (hdr_blocks d) in Hp.
    eapply wp_log_brelse; [exact Hb1|apply lookup_insert_eq| |].
    { intros _. rewrite (ev_disk _ _ _ Hev1). cbn. by apply (bio_clean _ _ _ _ _ _ Hb). }
    rewrite decref_incref by done. rewrite delete_insert_id by done.
    intros b2 Hev2 Hb2. eapply HQ; [|done..]. by eapply evolves_nil_l.
Qed.

Lemma wp_install_none s (Q : unit -> lst -> Prop) : lg_n s <= 0 -> Q tt s -> wp install_trans Q s.
Proof.
  intros Hn HQ. unfold install_trans. do 3 bstep.
  apply (wp_for_range (fun _ s' => s' = s)); [lia|done|intros; lia|]. intros t s' _ _ _ ->. by bstep.
Qed.

(** The log in memory when initlog calls recover_from_log: nothing in the
    cache is in use yet. *)
Record booted (i : nat) (start size : Z) (s : lst) : Prop := {
  bt_start : 0 <= start;
  bt_end : start + size < 2 ^ 31;
  bt_dev : lg_dev s = 1;
  bt_st : lg_start s = start;
  bt_block : length (lg_block s) = 30%nat;
  bt_cache : bio_inv i (lg_b s) (dblock (lg_b s)) ∅ ∅;
}.

(** A disk with a log that recovery can process. *)
Definition log_readable (start size : Z) (f : disk) : Prop :=
  log_ok start size (hdr_blocks (f start)) /\ length (f start) = 1024%nat.

Lemma wp_recover_from_log i start size s (Q : unit -> lst -> Prop) :
  booted i start size s -> log_readable start size (dblock (lg_b s)) ->
  (forall s' view', let f := dblock (lg_b s) in
     evolves (recover_writes start f) (lg_b s) (lg_b s') ->
     bio_inv i (lg_b s') view' (foldl decref ∅ (hdr_blocks (f start))) ∅ ->
     log_frame s s' -> lg_n s' = 0 -> Q tt s') ->
  wp recover_from_log Q s.
Proof.
  intros [Hs He Hdev Hst Hbl Hb] [Hok Hlen] HQ. set (f := dblock (lg_b s)) in *.
  pose proof (lo_len _ _ _ Hok) as Hsize. pose proof (lo_max _ _ _ Hok) as Hmax. unfold NBUF in Hmax.
  set (bs := hdr_blocks (f start)) in *. unfold recover_from_log.
  match goal with |- wp ?m ?K _ => cut (wp m K (set_lg_b (lg_b s) s)); [by destruct s|] end.
  assert (length bs = Z.to_nat (get_int (f start) 0)) as Ebs by (unfold bs, hdr_blocks; by rewrite length_fmap, length_seq).
  bstep. eapply wp_read_head; [rewrite Hst; unfold is_u32; lia|done|done|done|rewrite map_size_empty; unfold NBUF; lia|rewrite Hst; lia|].
  rewrite Hst. fold bs. intros s1 b1 Hev1 Hb1 (F1 & F2 & F3 & F4 & F5 & F6) Hn Hp.
  assert (Hdone : forall b2 view' , evolves (install_writes start bs f) b1 b2 ->
    bio_inv i b2 view' (foldl decref ∅ bs) ∅ -> view' start = f start ->
    wp (modify (set_lg_n 0);; write_head) Q (set_lg_b b2 s1)); [|bstep].
  { intros b2 view' Hev2 Hb2 E2. do 2 bstep.
    match goal with |- wp _ _ ?x => change x with (set_lg_b b2 (set_lg_n 0 s1)) end.
    eapply (wp_write_head i start size []); [done|done|apply log_ok_nil; lia| |exact Hb2|..].
    - split; [cbn; congruence|cbn; congruence|done|apply prefix_nil].
    - rewrite getref_decrefs by apply Hok. rewrite decide_False; [done|].
      intros Hin. eapply (log_ok_out start size); [done..|]. unfold in_log. lia.
    - pose proof (size_decrefs_le ∅ bs) as Hle. rewrite map_size_empty in Hle. unfold NBUF. lia.
    - cbn zeta. rewrite E2. intros b3 Hev3 Hb3. eapply HQ; [|exact Hb3|done|done].
      cbn. unfold recover_writes. fold bs. eapply evolves_trans; [|done]. by eapply evolves_nil_l. }
  destruct (decide (0 <= get_int (f start) 0)) as [Hpos|Hneg].
  - eapply (wp_install_trans i start size bs); [done|done|done| |exact Hb1| |done|].
    + split; [congruence|congruence|lia|done].
    + apply room_unpinned; [done|apply Hok|done|rewrite map_size_empty; unfold NBUF; lia].
    + cbn zeta. intros b2 Hev2 Hb2. eapply Hdone; [done..|].
      apply apply_writes_other. rewrite install_writes_fst.
      intros Hin. eapply (log_ok_out start size); [done..|]. unfold in_log. lia.
  - apply wp_install_none; [cbn; lia|]. assert (bs = []) as E by (apply length_zero_iff_nil; lia).
    rewrite E in Hdone. eapply Hdone; [apply evolves_refl|exact Hb1|done].
Qed.
