(* ===== verification/LogTxn.v ===== *)
(** * kernel/log.c: transactions are atomic

    A file system operation brackets its updates with begin_op and end_op and
    replaces bwrite by log_write.  Whatever blocks it updates, and wherever a
    crash interrupts it, the recovery that the next boot runs finds the disk
    as it was before the operation or as the operation leaves it. *)

From Stdlib Require Import ZArith Lia.
From stdpp Require Import base list gmap strings.
From S2P Require Import Prelude KString Spinlock Riscv Kalloc Vm Proc Sleeplock Bio BioInv BioProofs Log LogSpec LogProofs.

(** ** What a crash leaves *)

(** If the machine stops after some prefix of the disk writes [ws], and is
    booted again, then recovery runs and leaves the file system as on one of
    the disks that [P] allows. *)
Definition survives (start size : Z) (f : disk) (ws : list write) (P : disk -> Prop) : Prop :=
  forall ws' j r, ws' `prefix_of` ws -> booted j start size r ->
    (forall x, dblock (lg_b r) x = apply_writes ws' f x) ->
    wp recover_from_log (fun _ r' => P (dblock (lg_b r'))) r.

Lemma header_nil_start start f :
  apply_writes (recover_writes start f) f start = header (f start) [].
Proof.
  unfold recover_writes. rewrite apply_writes_app. cbn. unfold apply_write. by rewrite decide_True.
Qed.


Lemma recovered_ext start f g : (forall x, f x = g x) -> forall x, recovered start f x = recovered start g x.
Proof.
  intros E x. unfold recovered. rewrite E. set (bs := hdr_blocks (g start)).
  replace (install_writes start bs f) with (install_writes start bs g); [by apply apply_writes_ext|].
  apply imap_ext. intros t b _. by rewrite E.
Qed.

Lemma recover_writes_fs start size f :
  0 < size -> same_fs start size (apply_writes (recover_writes start f) f) (recovered start f).
Proof.
  intros Hs x Hx. unfold recover_writes. rewrite apply_writes_app. cbn. unfold apply_write. cbn [fst].
  rewrite decide_False; [done|]. intros ->. apply Hx. unfold in_log. lia.
Qed.

(** Recovery runs to its end and leaves the recovered contents. *)
Lemma wp_recover_disk j start size r g :
  booted j start size r -> (forall x, dblock (lg_b r) x = g x) -> log_readable start size g ->
  wp recover_from_log (fun _ r' => same_fs start size (dblock (lg_b r')) (recovered start g)) r.
Proof.
  intros Hr Eg [Hok Hlen]. eapply (wp_recover_from_log j start size); [done|split; by rewrite Eg|].
  cbn zeta. intros r' view' Hev _ _ _ x Hx. rewrite (ev_disk _ _ _ Hev), (recover_writes_fs _ size).
  - by apply recovered_ext.
  - pose proof (lo_len _ _ _ Hok). lia.
  - done.
Qed.

(** A crash during recovery: the next recovery completes the work. *)
Lemma recovery_survives start size f :
  log_readable start size f ->
  survives start size f (recover_writes start f) (fun g => same_fs start size g (recovered start f)).
Proof.
  intros [Hok Hlen] ws j r Hp Hr Eg.
  destruct (recovery_idempotent start size f ws Hok Hlen Hp) as (Hok' & Hlen' & Hs).
  eapply wp_mono; [apply (wp_recover_disk j start size r _ Hr Eg); by split|].
  cbn beta. intros _ r' H'. by rewrite H'.
Qed.

(** A crash during a commit. *)
Lemma commit_survives i start size s bs view refs :
  committable i start size s bs view refs ->
  let f := dblock (lg_b s) in
  survives start size f (commit_writes start bs (f start) view)
    (fun g => same_fs start size g f \/ same_fs start size g view).
Proof.
  intros Hc f ws j r Hp Hr Eg.
  destruct (commit_atomic start size bs f view (cm_ok _ _ _ _ _ _ _ Hc) (cm_len _ _ _ _ _ _ _ Hc)
    (cm_empty _ _ _ _ _ _ _ Hc) (cm_clean _ _ _ _ _ _ _ Hc) ws Hp) as (Hok' & Hlen' & Hs).
  eapply wp_mono; [apply (wp_recover_disk j start size r _ Hr Eg); by split|].
  cbn beta. intros _ r' H'. destruct Hs as [Hs|Hs]; [left|right]; by rewrite H'.
Qed.

(** ** begin_op, log_write and end_op *)

(** Between two calls, in or out of an operation.  [bs] are the blocks logged so
    far, [H] the blocks this process has locked, and [x] (if any) a locked block
    that has been changed but not logged yet.  The reference counts are those of
    the pins and of [H]. *)
Record logging (i : nat) (start size : Z) (s : lst) (bs : list Z) (view : disk) (refs : gmap Z Z)
    (H : gmap Z nat) (x : option Z) : Prop := {
  lo_st : 0 <= start;
  lo_end : start + size < 2 ^ 31;
  lo_size : lg_size s = size;
  lo_committing : lg_committing s = false;
  lo_cap : length (lg_block s) = 30%nat;
  lo_blocks_ok : log_ok start size bs;
  lo_mem : log_mem start s bs;
  lo_cache : bio_inv i (lg_b s) view refs H;
  lo_refs : forall y, getref refs y =
    (if decide (y ∈ bs) then 1 else 0) + (if decide (is_Some (H !! y)) then 1 else 0);
  lo_held : forall y a, H !! y = Some a -> ~ in_log start size y;
  lo_clean : forall y, y ∉ bs -> x <> Some y -> ~ in_log start size y -> view y = dblock (lg_b s) y;
  lo_hlen : length (dblock (lg_b s) start) = 1024%nat;
  lo_hempty : hdr_blocks (dblock (lg_b s) start) = [];
}.

Lemma wp_begin_op i start size s bs view refs H x (Q : unit -> lst -> Prop) :
  logging i start size s bs view refs H x ->
  Z.of_nat (length bs) + (lg_outstanding s + 1) * MAXOPBLOCKS <= LOGSIZE ->
  (forall s', evolves [] (lg_b s) (lg_b s') -> logging i start size s' bs view refs H x ->
     lg_outstanding s' = lg_outstanding s + 1 -> Q tt s') ->
  wp begin_op Q s.
Proof.
  intros [] Hroom HQ. pose proof (bi_run _ _ _ _ _ lo_cache0) as Hr.
  unfold begin_op, begin_op_loop. bstep. apply wp_lock; [by apply (running_free i)|]. do 2 bstep.
  set (s1 := lset _ s). change (lg_committing s1) with (lg_committing s). rewrite lo_committing0. do 4 bstep.
  change (lg_n s1) with (lg_n s). change (lg_outstanding s1) with (lg_outstanding s).
  rewrite (lm_n _ _ _ lo_mem0), (proj2 (Z.ltb_ge _ _)) by done. do 2 bstep.
  eapply (wp_unlock log_lock (lget s)); [apply Hr|by apply (running_free i)|reflexivity|].
  destruct (bio_inv_settle _ _ _ _ _ lo_cache0) as [Hle Hi'].
  apply HQ; [by apply evolves_same| |done].
  split; try done. by destruct lo_mem0.
Qed.

Lemma log_find_spec bs l y :
  Forall (fun b => u32 b = b) bs -> let t := log_find (length bs) (bs ++ l) y in
  bs !! t = Some y \/ ((y ∉ bs) /\ t = length bs).
Proof.
  induction bs as [|b bs IH]; intros Hf; cbn; [right; split; [apply not_elem_of_nil|done]|].
  apply Forall_cons in Hf as [Hb Hf]. rewrite Hb. destruct (b =? y) eqn:E.
  - left. apply Z.eqb_eq in E. by subst.
  - apply Z.eqb_neq in E. destruct (IH Hf) as [H|[H1 H2]]; [by left|right].
    split; [|by rewrite H2]. intros [?|?]%elem_of_cons; [by subst|done].
Qed.

Definition logged (bs : list Z) (y : Z) : list Z := if decide (y ∈ bs) then bs else bs ++ [y].

Lemma logged_ok start size bs y :
  log_ok start size bs -> 0 <= y < 2 ^ 31 -> ~ in_log start size y ->
  Z.of_nat (length bs) < size - 1 -> (S (length bs) < NBUF)%nat -> log_ok start size (logged bs y).
Proof.
  intros Hok Hy Hl H1 H2. unfold logged. case_decide as Hin; [done|]. destruct Hok as [A B C D].
  split; [| |rewrite length_app; cbn; lia|rewrite length_app; cbn; lia].
  - apply NoDup_app. split_and!; [done| |apply NoDup_singleton].
    intros x Hx Hy'. apply list_elem_of_singleton in Hy' as ->. done.
  - apply Forall_app. split; [done|]. by apply Forall_singleton.
Qed.

Lemma elem_of_logged bs y z : z ∈ logged bs y <-> z ∈ bs \/ z = y.
Proof.
  unfold logged. case_decide as Hin; [naive_solver|]. rewrite elem_of_app, list_elem_of_singleton. done.
Qed.

Lemma wp_log_write i start size s bs view refs H y a (Q : unit -> lst -> Prop) :
  logging i start size s bs view refs H (Some y) -> H !! y = Some a ->
  0 <= y < 2 ^ 31 -> 1 <= lg_outstanding s ->
  Z.of_nat (length bs) < size - 1 -> (S (length bs) < NBUF)%nat ->
  (forall s' refs', evolves [] (lg_b s) (lg_b s') ->
     logging i start size s' (logged bs y) view refs' H None ->
     lg_outstanding s' = lg_outstanding s -> Q tt s') ->
  wp (log_write a) Q s.
Proof.
  intros [] Ha Hy Ho Hn1 Hn2 HQ. pose proof (bi_run _ _ _ _ _ lo_cache0) as Hr.
  pose proof (lo_held0 _ _ Ha) as Hyl. destruct lo_mem0 as [M1 M2 M3 [rest M4]].
  assert (Forall (fun b => u32 b = b) bs) as Hu.
  { eapply Forall_impl; [apply (lo_blocks _ _ _ lo_blocks_ok0)|]. intros b [Hb _]. apply u32_small. unfold is_u32. lia. }
  unfold log_write, getb. do 4 bstep. rewrite M3, lo_size0. unfold NBUF in Hn2.
  rewrite (proj2 (Z.leb_gt LOGSIZE _)) by (unfold LOGSIZE, MAXOPBLOCKS; lia).
  rewrite (proj2 (Z.leb_gt _ _)) by lia. cbn [orb]. do 2 bstep. rewrite (proj2 (Z.ltb_ge _ _)) by done.
  bstep. apply wp_lock; [by apply (running_free i)|]. bstep. set (s1 := lset _ s).
  apply wp_zoom. apply wp_gets. destruct (bio_held _ _ _ _ _ _ _ lo_cache0 Ha) as (_ & Eb & _).
  replace (b_blockno (buf_at a (lget s1))) with y by (symmetry; exact Eb).
  do 6 bstep. change (lg_n (lset (lget s1) s1)) with (lg_n s).
  change (lg_block (lset (lget s1) s1)) with (lg_block s). rewrite M3, Nat2Z.id.
  assert (log_ok start size (logged bs y)) as Hok' by by apply logged_ok.
  destruct (bio_inv_settle _ _ _ _ _ lo_cache0) as [Hle Hi'].
  rewrite i32_small by (unfold is_i32; lia). unfold set_lh_block at 1, zinsert.
  rewrite (proj2 (Z.leb_le 0 _)), Nat2Z.id by lia. unfold logged in *.
  destruct (log_find_spec bs rest y Hu) as [Hin|[Hin Et]]; rewrite <- M4 in *;
    set (t := log_find (length bs) (lg_block s) y) in *.
  - pose proof (lookup_lt_Some _ _ _ Hin) as Ht. assert (y ∈ bs) as Hyb by by eapply list_elem_of_lookup_2.
    rewrite (decide_True _ _ Hyb) in *.
    rewrite (proj2 (Z.eqb_neq _ _)) by lia. cbn [when]. do 2 bstep.
    eapply (wp_unlock log_lock (lget s)); [apply Hr|by apply (running_free i)|reflexivity|].
    eapply (HQ _ refs); [by apply evolves_same| |done].
    split; try done; cbn.
    + rewrite length_insert. done.
    + split; try done. cbn. exists rest. rewrite M4. apply list_insert_id. by apply lookup_app_l_Some.
    + intros z Hz _. apply lo_clean0; [done|]. intros [= <-]. done.
  - rewrite (decide_False _ _ Hin) in *. rewrite Et, Z.eqb_refl. cbn [when]. do 2 bstep.
    apply wp_zoom, wp_addref_raw; [by apply locked_by_wf, Hr|by apply locked_by_free, (running_free i)|].
    bstep. eapply (wp_unlock log_lock (lget s)); [apply Hr|by apply (running_free i)|apply settle_eqv|].
    assert (getref refs y = 1) as Ey.
    { rewrite lo_refs0, decide_False by done. rewrite decide_True by done. done. }
    assert (u32 (getref refs y + 1) = 2) as E2 by by rewrite Ey.
    eapply (HQ _ (incref refs y)); [by destruct Hle; apply evolves_same| |done].
    split; try done; cbn.
    + rewrite length_insert. done.
    + split; try done; cbn; [rewrite M3, length_app; cbn; lia|]. rewrite M4.
      rewrite insert_app_r_alt by lia. rewrite Nat.sub_diag.
      rewrite M4, length_app in lo_cap0. destruct rest as [|z rest]; [cbn in lo_cap0; lia|].
      exists rest. by rewrite <- app_assoc.
    + apply (bio_inv_addref i _ view refs H y a 1 Hi'); [done|]. by rewrite E2.
    + intros z. rewrite getref_incref. destruct (decide (z = y)) as [->|Hne].
      * rewrite E2, decide_True by (apply elem_of_app; right; by left). by rewrite decide_True.
      * rewrite lo_refs0. f_equal. apply decide_ext. rewrite elem_of_app, list_elem_of_singleton. tauto.
    + intros z Hz _. rewrite elem_of_app, list_elem_of_singleton in Hz. apply lo_clean0; [tauto|]. intros [= <-]. tauto.
Qed.

(** What an operation that ends leaves: an empty log, nothing pinned, and the
    contents [view] on the disk. *)
Definition done_op (i : nat) (start size : Z) (s : lst) (view : disk) (s' : lst) : Prop :=
  exists view' ws, evolves ws (lg_b s) (lg_b s') /\ logging i start size s' [] view' ∅ ∅ None /\
    same_fs start size view' view /\ same_fs start size (dblock (lg_b s')) view /\
    survives start size (dblock (lg_b s)) ws
      (fun g => same_fs start size g (dblock (lg_b s)) \/ same_fs start size g view).

Lemma refs_empty refs : refs_ok refs -> (forall y, getref refs y = 0) -> refs = ∅.
Proof. intros Hok E. apply refs_eq; [done|done|]. intros y. by rewrite E. Qed.

Lemma size_pinned refs bs :
  refs_ok refs -> NoDup bs -> (forall y, y ∉ bs -> getref refs y = 0) -> (stdpp.base.size refs <= length bs)%nat.
Proof.
  intros Hok Hnd E. rewrite <- size_dom, <- (size_list_to_set (C := gset Z) bs) by done.
  apply subseteq_size. intros y Hy. apply elem_of_list_to_set. apply elem_of_dom in Hy.
  destruct (decide (y ∈ bs)) as [|Hn]; [done|]. apply (is_Some_getref _ _ Hok) in Hy. by rewrite E in Hy.
Qed.

Lemma logging_committable i start size s bs view refs :
  logging i start size s bs view refs ∅ None -> committable i start size s bs view refs.
Proof.
  intros []. pose proof (bio_refs_ok _ _ _ _ _ lo_cache0) as Hrok.
  assert (forall y, getref refs y = if decide (y ∈ bs) then 1 else 0) as Hrefs.
  { intros y. rewrite lo_refs0, (decide_False (P := is_Some _)); [lia|]. rewrite lookup_empty. by intros [? ?]. }
  split; try done.
  - intros x Hx. rewrite Hrefs, decide_True by done. lia.
  - intros x Hx. rewrite Hrefs, decide_False; [done|]. intros Hin. by eapply log_ok_out.
  - eapply Nat.le_lt_trans; [apply (size_pinned _ bs); [done|apply lo_blocks_ok0|]|apply lo_blocks_ok0].
    intros y Hy. by rewrite Hrefs, decide_False.
  - intros x Hx Hl. by apply lo_clean0.
Qed.

(** With nothing in use, the cache and the disk agree. *)
Lemma logging_idle i start size s view refs :
  logging i start size s [] view refs ∅ None -> refs = ∅ /\ same_fs start size (dblock (lg_b s)) view.
Proof.
  intros []. split.
  - apply refs_empty; [by eapply bio_refs_ok|]. intros y.
    rewrite lo_refs0, (decide_False (P := y ∈ [])), decide_False; [done| |apply not_elem_of_nil].
    rewrite lookup_empty. by intros [? ?].
  - intros x Hx. symmetry. by apply lo_clean0; [apply not_elem_of_nil|done|].
Qed.

Lemma wp_commit_op i start size s bs view refs (Q : unit -> lst -> Prop) :
  logging i start size (set_lg_committing false s) bs view refs ∅ None ->
  (forall s', lg_outstanding s' = lg_outstanding s -> lg_committing s' = lg_committing s ->
     done_op i start size s view (set_lg_committing false s') -> Q tt s') ->
  wp commit Q s.
Proof.
  intros Hl HQ. pose proof (logging_committable _ _ _ _ _ _ _ Hl) as Hc.
  set (s0 := set_lg_committing false s) in *.
  assert (committable i start size s bs view refs) as Hc' by (destruct Hc; split; try done; by destruct cm_mem).
  pose proof (lo_len _ _ _ (cm_ok _ _ _ _ _ _ _ Hc)) as Hlen.
  destruct (decide (bs = [])) as [->|Hne].
  - unfold commit. do 2 bstep. rewrite (lm_n _ _ _ (cm_mem _ _ _ _ _ _ _ Hc')). cbn. apply wp_ret.
    apply HQ; [done..|]. destruct (logging_idle _ _ _ _ _ _ Hl) as [-> Hs].
    exists view, []. split_and!; [apply evolves_refl|done|done|done|].
    intros ws j r Hp Hr Eg. apply prefix_nil_inv in Hp as ->.
    eapply wp_mono; [apply (wp_recover_disk j start size r (dblock (lg_b s)) Hr Eg)|].
    + split; [rewrite (cm_empty _ _ _ _ _ _ _ Hc'); apply log_ok_nil; cbn in Hlen; lia|by apply Hc'].
    + cbn beta. intros _ r' H'. left. rewrite H'. by rewrite recovered_empty by apply Hc'.
  - eapply (wp_commit i start size); [exact Hc'|done|]. cbn zeta. intros b' view' Hev Hb' Hview.
    apply HQ; [done..|].
    destruct (crash_after start size bs (dblock (lg_b s)) view (cm_ok _ _ _ _ _ _ _ Hc)
      (cm_len _ _ _ _ _ _ _ Hc) (cm_clean _ _ _ _ _ _ _ Hc)) as [Eh Hfs].
    destruct (header_log_blocks _ _ (dblock (lg_b s) start) _ (cm_ok _ _ _ _ _ _ _ Hc)
      (cm_len _ _ _ _ _ _ _ Hc)) as [_ El]. destruct Hl.
    assert (foldl decref refs bs = ∅) as Er.
    { apply refs_empty; [by eapply bio_refs_ok|]. intros y. rewrite getref_decrefs by apply lo_blocks_ok0.
      pose proof (lo_refs0 y) as Ey. rewrite (decide_False (P := is_Some _)) in Ey
        by (rewrite lookup_empty; by intros [? ?]). rewrite Ey. by case_decide. }
    rewrite Er in Hb'. exists view', (commit_writes start bs (dblock (lg_b s) start) view).
    split_and!; [done| |done| |].
    + split; try done.
      * apply log_ok_nil. lia.
      * destruct lo_mem0. split; try done. apply prefix_nil.
      * intros y _ _ _. by apply (bio_clean _ _ _ _ _ _ Hb').
      * cbn. rewrite (ev_disk _ _ _ Hev), Eh. unfold header at 1. by rewrite length_put_ints.
      * cbn. rewrite (ev_disk _ _ _ Hev), Eh. apply header_nil_blocks. lia.
    + intros x Hx. cbn. rewrite (ev_disk _ _ _ Hev). by apply Hfs.
    + apply (commit_survives i start size s bs view refs Hc').
Qed.

Lemma wp_end_op i start size s bs view refs (Q : unit -> lst -> Prop) :
  logging i start size s bs view refs ∅ None -> lg_outstanding s = 1 ->
  (forall s', lg_outstanding s' = 0 -> done_op i start size s view s' -> Q tt s') ->
  wp end_op Q s.
Proof.
  intros Hl Ho HQ. pose proof (bi_run _ _ _ _ _ (lo_cache _ _ _ _ _ _ _ _ _ Hl)) as Hr.
  unfold end_op. bstep. apply wp_lock; [by apply (running_free i)|]. do 4 bstep. set (s1 := lset _ s).
  change (lg_committing (set_lg_outstanding _ _)) with (lg_committing s).
  rewrite (lo_committing _ _ _ _ _ _ _ _ _ Hl). do 2 bstep. cbn [lg_outstanding set_lg_outstanding].
  change (lg_outstanding s1) with (lg_outstanding s). rewrite Ho. change (1 - 1 =? 0) with true. cbn iota.
  do 3 bstep. eapply (wp_unlock log_lock (lget s)); [apply Hr|by apply (running_free i)|reflexivity|].
  destruct (bio_inv_settle _ _ _ _ _ (lo_cache _ _ _ _ _ _ _ _ _ Hl)) as [Hle Hi'].
  cbn [when]. bstep. eapply (wp_commit_op i start size _ bs view refs).
  { destruct Hl. split; try done. by destruct lo_mem0. }
  intros s2 Eo Ec (view' & ws & Hev & Hl2 & Hv & Hfs & Hsv).
  pose proof (lo_cache _ _ _ _ _ _ _ _ _ Hl2) as Hb2. pose proof (bi_run _ _ _ _ _ Hb2) as Hr2.
  change (lg_b (set_lg_committing false s2)) with (lg_b s2) in *.
  bstep. apply wp_lock; [by apply (running_free i)|]. do 3 bstep.
  apply wp_zoom, wp_wakeup; [by apply locked_by_wf, Hr2| |apply Hr2|].
  { intros j. apply locked_by_free; [done|by apply (running_free i)]. }
  intros p' Hlep _. eapply (wp_unlock log_lock (lget s2)); [apply Hr2|by apply (running_free i)|apply Hlep|].
  assert (pst_le (lget (lg_b s2)) (lset (settle (lget s2 : lks)) p')) as Hle2.
  { destruct Hlep as [A1 A2 A3 A4 A5 A6 A7]. cbn in *. split; cbn; try done. apply settle_eqv. }
  destruct (bio_inv_le i _ _ _ _ _ Hb2 Hle2) as [Hle3 Hb3].
  apply HQ; [done|]. exists view', ws. split_and!; [|clear Hev|done|done|done].
  - eapply evolves_nil_l; [|eapply evolves_nil_r; [exact Hev|]]; by apply evolves_same.
  - destruct Hl2. split; try done. by destruct lo_mem0.
Qed.

(** ** A transaction *)

(** What log.c says of its use: read a block, change it, log_write it and
    release it. *)
Definition update (u : write) : M lst unit :=
  a ← ↑ bread 1 u.1;
  set_bdata a u.2;;
  log_write a;;
  ↑ brelse a.

Definition txn (us : list write) : M lst unit :=
  begin_op;;
  for_each us (fun u => update u;; mret (None : option unit));;
  end_op.

Lemma logging_b i start size s bs view refs H x b' view' refs' H' x' :
  logging i start size s bs view refs H x -> evolves [] (lg_b s) b' -> bio_inv i b' view' refs' H' ->
  (forall y, getref refs' y =
    (if decide (y ∈ bs) then 1 else 0) + (if decide (is_Some (H' !! y)) then 1 else 0)) ->
  (forall y a, H' !! y = Some a -> ~ in_log start size y) ->
  (forall y, y ∉ bs -> x' <> Some y -> ~ in_log start size y -> view' y = dblock (lg_b s) y) ->
  logging i start size (set_lg_b b' s) bs view' refs' H' x'.
Proof.
  intros [] Hev Hb' Hr' Hh' Hc'. split; try done; cbn.
  - by destruct lo_mem0.
  - intros y Hy Hx Hl. rewrite (ev_disk _ _ _ Hev). by apply Hc'.
  - by rewrite (ev_disk _ _ _ Hev).
  - by rewrite (ev_disk _ _ _ Hev).
Qed.

Lemma held_one x a y : is_Some (<[x := a]> (∅ : gmap Z nat) !! y) <-> y = x.
Proof. rewrite lookup_insert_is_Some, lookup_empty. split; [|by left]. intros [->|[_ [? ?]]]; done. Qed.

Lemma wp_update i start size s bs view refs u (Q : unit -> lst -> Prop) :
  logging i start size s bs view refs ∅ None -> 1 <= lg_outstanding s ->
  0 <= u.1 < 2 ^ 31 -> ~ in_log start size u.1 ->
  Z.of_nat (length bs) < size - 1 -> (S (length bs) < NBUF)%nat ->
  (forall s' refs', evolves [] (lg_b s) (lg_b s') ->
     logging i start size s' (logged bs u.1) (apply_write view u) refs' ∅ None ->
     lg_outstanding s' = lg_outstanding s -> Q tt s') ->
  wp (update u) Q s.
Proof.
  destruct u as [x d]. cbn [fst snd]. intros Hl Ho Hx Hxl Hn1 Hn2 HQ. unfold update. cbn [fst snd].
  pose proof (logging_committable _ _ _ _ _ _ _ Hl) as Hc. pose proof (lo_refs _ _ _ _ _ _ _ _ _ Hl) as Hrefs.
  pose proof (lo_cache _ _ _ _ _ _ _ _ _ Hl) as Hb. pose proof (bio_refs_ok _ _ _ _ _ Hb) as Hrok.
  assert (forall y, getref refs y = if decide (y ∈ bs) then 1 else 0) as Hrefs'.
  { intros y. rewrite Hrefs, (decide_False (P := is_Some _)); [lia|]. rewrite lookup_empty. by intros [? ?]. }
  match goal with |- wp ?m ?K _ => cut (wp m K (set_lg_b (lg_b s) s)); [by destruct s|] end.
  bstep. eapply wp_log_bread; [exact Hb|done|by intros ? ?; rewrite lookup_empty| |right; apply Hc|].
  { rewrite Hrefs'. case_decide; lia. }
  intros a b1 Hev1 Hb1. bstep.
  eapply wp_log_setdata; [exact Hb1|apply lookup_insert_eq| |].
  { rewrite is_Some_getref by by apply incref_ok. rewrite getref_incref, decide_True, Hrefs' by done. by case_decide. }
  intros b2 Hev2 Hb2. bstep. eapply (wp_log_write i start size _ bs _ _ _ x a).
  { eapply logging_b; [exact Hl|by eapply evolves_nil_l|exact Hb2|..].
    - intros y. rewrite getref_incref, Hrefs'. rewrite (decide_ext _ _ _ _ (held_one x a y)).
      destruct (decide (y = x)) as [->|]; [|rewrite Hrefs'; lia]. by case_decide.
    - intros y c Hy. assert (y = x) as -> by (apply (held_one x a); eauto). done.
    - intros y Hy Hne Hyl. unfold apply_write. cbn. rewrite decide_False by congruence.
      by apply (cm_clean _ _ _ _ _ _ _ Hc). }
  - apply lookup_insert_eq.
  - done.
  - done.
  - done.
  - done.
  - intros s3 refs3 Hev3 Hl3 Ho3. pose proof (lo_cache _ _ _ _ _ _ _ _ _ Hl3) as Hb3.
    pose proof (lo_refs _ _ _ _ _ _ _ _ _ Hl3) as Hr3. pose proof (bio_refs_ok _ _ _ _ _ Hb3) as Hrok3.
    assert (getref refs3 x = 2) as Ex.
    { rewrite Hr3, (decide_True (P := x ∈ _)) by (apply elem_of_logged; by right).
      by rewrite decide_True by (by apply held_one). }
    match goal with |- wp ?m ?K _ => cut (wp m K (set_lg_b (lg_b s3) s3)); [by destruct s3|] end.
    eapply wp_log_brelse; [exact Hb3|apply lookup_insert_eq| |].
    { rewrite getref_decref, decide_True, Ex by done. done. }
    rewrite delete_insert_id by done. intros b4 Hev4 Hb4. eapply HQ; [| |done].
    + cbn in Hev3. eauto using evolves_nil_l.
    + eapply logging_b; [exact Hl3|done|exact Hb4|..].
      * intros y. rewrite getref_decref, Ex, Hr3. rewrite (decide_False (P := is_Some (∅ !! _)))
          by (rewrite lookup_empty; by intros [? ?]). rewrite (decide_ext _ _ _ _ (held_one x a y)).
        destruct (decide (y = x)) as [->|]; [|lia].
        by rewrite decide_True by (apply elem_of_logged; by right).
      * intros y c. by rewrite lookup_empty.
      * intros y Hy _ Hyl. by apply (lo_clean _ _ _ _ _ _ _ _ _ Hl3).
Qed.

Lemma survives_ext start size f f' ws (P P' : disk -> Prop) :
  (forall x, f x = f' x) -> (forall g, P g -> P' g) ->
  survives start size f ws P -> survives start size f' ws P'.
Proof.
  intros E HP Hs ws' j r Hp Hr Eg. eapply wp_mono; [apply (Hs ws' j r Hp Hr)|].
  - intros x. rewrite Eg. by apply apply_writes_ext.
  - cbn beta. intros _ r'. apply HP.
Qed.

Lemma length_logged bs y : (length (logged bs y) <= S (length bs))%nat.
Proof. unfold logged. case_decide; [lia|]. rewrite length_app. cbn. lia. Qed.

(** The updates of an operation. *)
Lemma wp_updates i start size us s (Q : option unit -> lst -> Prop) : forall bs view refs,
  logging i start size s bs view refs ∅ None -> 1 <= lg_outstanding s ->
  Forall (fun u => 0 <= u.1 < 2 ^ 31 /\ ~ in_log start size u.1) us ->
  Z.of_nat (length bs + length us) < size -> (length bs + length us < NBUF)%nat ->
  (forall s' bs' refs', evolves [] (lg_b s) (lg_b s') ->
     logging i start size s' bs' (apply_writes us view) refs' ∅ None ->
     lg_outstanding s' = lg_outstanding s -> Q None s') ->
  wp (for_each us (fun u => update u;; mret (None : option unit))) Q s.
Proof.
  intros bs view refs Hl Ho Hus Hn1 Hn2 HQ.
  apply (wp_for_each (fun l s' => exists done bs' refs', us = done ++ l /\
    (length bs' <= length bs + length done)%nat /\ evolves [] (lg_b s) (lg_b s') /\
    logging i start size s' bs' (apply_writes done view) refs' ∅ None /\ lg_outstanding s' = lg_outstanding s)).
  - exists [], bs, refs. split_and!; [done|cbn; lia|apply evolves_refl|done|done].
  - intros u l s1 (done & bs1 & refs1 & -> & Hlen & Hev & Hl1 & Ho1).
    apply Forall_app in Hus as [_ [Hu _]%Forall_cons]. rewrite length_app in Hn1, Hn2. cbn in Hn1, Hn2.
    bstep. eapply wp_update; [exact Hl1|lia|apply Hu|apply Hu|lia|lia|].
    intros s2 refs2 Hev2 Hl2 Ho2. bstep. exists (done ++ [u]), (logged bs1 u.1), refs2.
    rewrite apply_writes_app, <- app_assoc. pose proof (length_logged bs1 u.1).
    split_and!; [done|rewrite length_app; cbn; lia|by eapply evolves_nil_l|done|congruence].
  - intros s' (done & bs' & refs' & E & _ & Hev & Hl' & Ho'). rewrite app_nil_r in E. subst done. by eapply HQ.
Qed.

(** C1: A file system operation is atomic with respect to crashes.  Whatever
    blocks it updates between begin_op and end_op, the operation runs to its end,
    leaves the disk with all of its updates and an empty log; and if the machine
    stops after any prefix of the disk writes that it makes, the recovery of the
    next boot leaves the file system either as before or with all updates. *)
Theorem txn_atomic i start size s view us :
  logging i start size s [] view ∅ ∅ None -> lg_outstanding s = 0 ->
  Z.of_nat (length us) <= MAXOPBLOCKS -> MAXOPBLOCKS < size ->
  Forall (fun u => 0 <= u.1 < 2 ^ 31 /\ ~ in_log start size u.1) us ->
  let f := dblock (lg_b s) in
  wp (txn us) (fun _ s' => exists view' ws,
    d_writes (lg_b s') = d_writes (lg_b s) ++ ws /\
    logging i start size s' [] view' ∅ ∅ None /\ lg_outstanding s' = 0 /\
    same_fs start size (dblock (lg_b s')) (apply_writes us f) /\
    survives start size f ws (fun g => same_fs start size g f \/ same_fs start size g (apply_writes us f))) s.
Proof.
  intros Hl Ho Hlen Hsize Hus f. unfold txn. bstep.
  destruct (logging_idle _ _ _ _ _ _ Hl) as [_ Hfs]. unfold MAXOPBLOCKS in *.
  eapply wp_begin_op; [exact Hl|rewrite Ho; done|]. intros s1 Hev1 Hl1 Ho1. bstep.
  eapply wp_updates; [exact Hl1|lia|done|cbn; lia|cbn; unfold NBUF; lia|].
  intros s2 bs refs2 Hev2 Hl2 Ho2.
  assert (evolves [] (lg_b s) (lg_b s2)) as Hev by by eapply evolves_nil_l.
  eapply wp_end_op; [exact Hl2|lia|].
  intros s3 Ho3 (view3 & ws & Hev3 & Hl3 & _ & Hfs3 & Hs3). exists view3, ws.
  assert (same_fs start size (apply_writes us view) (apply_writes us f)) as Hus'.
  { intros x Hx. apply apply_writes_ext. symmetry. by apply Hfs. }
  split_and!; [|done|done|by rewrite Hfs3|].
  - rewrite (ev_writes _ _ _ Hev3), (ev_writes _ _ _ Hev). by rewrite app_nil_r.
  - eapply survives_ext; [apply Hev| |exact Hs3]. cbn beta. intros g [Hg|Hg]; [left|right]; rewrite Hg; [|done].
    intros x _. apply Hev.
Qed.

(** ** Examples *)

(** The log of the image that mkfs makes: 30 blocks from block 2 on. *)
Definition fresh_log (d : gmap Z (list Z)) : lst :=
  mk_lst (fresh_cache d) 2 30 0 false 1 0 (replicate 30 0).

Lemma fresh_log_idle d : d !! 2 = None -> logging 0 2 30 (fresh_log d) [] (dblock (fresh_cache d)) ∅ ∅ None.
Proof.
  intros Hd. assert (dblock (fresh_cache d) 2 = zero_block) as Eh by by rewrite fresh_cache_disk, Hd.
  assert (get_int zero_block 0 = 0) as E0 by (vm_compute; reflexivity).
  split; cbn [fresh_log lg_b lg_size lg_committing lg_block]; rewrite ?Eh.
  - lia.
  - lia.
  - reflexivity.
  - reflexivity.
  - apply length_replicate.
  - apply log_ok_nil. lia.
  - split; [reflexivity..|apply prefix_nil].
  - apply fresh_cache_inv.
  - intros y. rewrite !decide_False; [reflexivity|rewrite lookup_empty; by intros [? ?]|apply not_elem_of_nil].
  - intros y a. by rewrite lookup_empty.
  - reflexivity.
  - apply length_replicate.
  - unfold hdr_blocks. by rewrite E0.
Qed.

(** Two blocks updated after boot, one of them twice. *)
Lemma txn_atomic_witness :
  let us := [(45, replicate 1024 7); (33, replicate 1024 1); (45, replicate 1024 8)] in
  let s := fresh_log ∅ in
  wp (txn us) (fun _ s' => exists view' ws,
    d_writes (lg_b s') = d_writes (lg_b s) ++ ws /\
    logging 0 2 30 s' [] view' ∅ ∅ None /\ lg_outstanding s' = 0 /\
    same_fs 2 30 (dblock (lg_b s')) (apply_writes us (dblock (lg_b s))) /\
    survives 2 30 (dblock (lg_b s)) ws (fun g => same_fs 2 30 g (dblock (lg_b s)) \/
      same_fs 2 30 g (apply_writes us (dblock (lg_b s))))) s.
Proof.
  intros us s. apply (txn_atomic 0 2 30 s (dblock (fresh_cache ∅)) us (fresh_log_idle ∅ (lookup_empty 2))); [reflexivity|..].
  - unfold MAXOPBLOCKS. cbn. lia.
  - unfold MAXOPBLOCKS. lia.
  - unfold us, in_log. repeat constructor; cbn [fst]; lia.
Defined.

(** C2: Recovery completes whatever a crash left in the log, and a crash during
    recovery is harmless: recover_from_log runs to its end, the file system
    then has the contents that the log prescribes and the log is empty; and if
    the machine stops after any prefix of its disk writes, the recovery of the
    next boot reaches the same contents. *)
Theorem recovery_correct i start size s :
  booted i start size s -> log_readable start size (dblock (lg_b s)) ->
  let f := dblock (lg_b s) in
  wp recover_from_log (fun _ s' => exists ws,
    d_writes (lg_b s') = d_writes (lg_b s) ++ ws /\ lg_n s' = 0 /\
    same_fs start size (dblock (lg_b s')) (recovered start f) /\
    hdr_blocks (dblock (lg_b s') start) = [] /\
    survives start size f ws (fun g => same_fs start size g (recovered start f))) s.
Proof.
  intros Hb Hf f. eapply wp_recover_from_log; [done..|]. cbn zeta. intros s' view' Hev _ _ Hn.
  exists (recover_writes start f). pose proof Hf as [Hok Hlen]. pose proof (lo_len _ _ _ Hok).
  split_and!; [apply Hev|done| | |by apply recovery_survives].
  - intros x Hx. rewrite (ev_disk _ _ _ Hev). apply (recover_writes_fs _ size); [lia|done].
  - rewrite (ev_disk _ _ _ Hev), header_nil_start. apply header_nil_blocks. unfold f. lia.
Qed.

(** A disk with a committed transaction on block 45. *)
Definition crashed_disk : gmap Z (list Z) :=
  <[2 := header zero_block [45]]> (<[3 := replicate 1024 9]> ∅).

Lemma crashed_disk_readable : log_readable 2 30 (dblock (fresh_cache crashed_disk)).
Proof.
  assert (dblock (fresh_cache crashed_disk) 2 = header zero_block [45]) as Eh.
  { rewrite fresh_cache_disk. unfold crashed_disk. by rewrite lookup_insert_eq. }
  assert (hdr_blocks (header zero_block [45]) = [45]) as E45 by (vm_compute; reflexivity).
  unfold log_readable. rewrite Eh, E45. split.
  - split; [apply NoDup_singleton| |cbn; lia|unfold NBUF; cbn; lia].
    apply Forall_singleton. unfold in_log. lia.
  - vm_compute. reflexivity.
Qed.

Lemma fresh_log_booted d : booted 0 2 30 (fresh_log d).
Proof. split; cbn [fresh_log lg_b lg_dev lg_start lg_block]; try lia; [apply length_replicate|apply fresh_cache_inv]. Qed.

Lemma recovery_correct_witness :
  let s := fresh_log crashed_disk in let f := dblock (lg_b s) in
  wp recover_from_log (fun _ s' => exists ws,
    d_writes (lg_b s') = d_writes (lg_b s) ++ ws /\ lg_n s' = 0 /\
    same_fs 2 30 (dblock (lg_b s')) (recovered 2 f) /\
    hdr_blocks (dblock (lg_b s') 2) = [] /\
    survives 2 30 f ws (fun g => same_fs 2 30 g (recovered 2 f))) s.
Proof. exact (recovery_correct 0 2 30 _ (fresh_log_booted _) crashed_disk_readable). Defined.

(** ** Two faults *)

(** C38: install_trans drops a pin of every block that it installs, also during
    recovery, when nothing has been pinned.  After recovery no process uses the
    cache, yet each recovered block is in a buffer whose reference count has
    wrapped around to 2^32 - 1: the buffer can never be recycled. *)
Theorem recovery_leaks_buffers i start size s :
  booted i start size s -> log_readable start size (dblock (lg_b s)) ->
  wp recover_from_log (fun _ s' => forall x, x ∈ hdr_blocks (dblock (lg_b s) start) ->
    exists a, (a < NBUF)%nat /\ b_blockno (buf_at a (lg_b s')) = x /\
      b_refcnt (buf_at a (lg_b s')) = 2 ^ 32 - 1) s.
Proof.
  intros Hb Hf. eapply wp_recover_from_log; [done..|]. cbn zeta. intros s' view' _ Hb' _ _ x Hx.
  pose proof (bi_cont _ _ _ _ _ Hb') as C. pose proof (bio_refs_ok _ _ _ _ _ Hb') as Hok.
  assert (getref (foldl decref ∅ (hdr_blocks (dblock (lg_b s) start))) x = 2 ^ 32 - 1) as Er.
  { rewrite getref_decrefs by apply Hf. by rewrite decide_True. }
  assert (is_Some (foldl decref ∅ (hdr_blocks (dblock (lg_b s) start)) !! x)) as [r Hr].
  { apply is_Some_getref; [done|]. rewrite Er. lia. }
  destruct (ct_dom _ _ _ _ _ _ _ C _ _ Hr) as (_ & _ & a & Ha).
  exists a. pose proof (ct_refs _ _ _ _ _ _ _ C _ _ Ha) as Ea. rewrite Er in Ea.
  destruct Ha as (Ha & _ & Hb1). done.
Qed.

Lemma recovery_leaks_buffers_witness :
  let s := fresh_log crashed_disk in
  wp recover_from_log (fun _ s' => forall x, x ∈ hdr_blocks (dblock (lg_b s) 2) ->
    exists a, (a < NBUF)%nat /\ b_blockno (buf_at a (lg_b s')) = x /\
      b_refcnt (buf_at a (lg_b s')) = 2 ^ 32 - 1) s.
Proof. exact (recovery_leaks_buffers 0 2 30 _ (fresh_log_booted _) crashed_disk_readable). Defined.

