(* ===== verification/Fs.v ===== *)
(** * kernel/fs.c: blocks, inodes, directories and paths

    An inode pointer is an index in icache.inode.  The fields of a disk inode and
    of a directory entry are read and written in the bytes of the block, at the
    offsets that the C compiler gives them.  A string of the kernel is the list
    of its bytes, without the NUL; advancing a pointer in it is taking a suffix. *)

From Stdlib Require Import ZArith Lia.
From stdpp Require Import base list gmap strings.
From S2P Require Import Prelude KString Spinlock Riscv Kalloc Vm Proc Sleeplock Bio Log.

Definition ROOTDEV : Z := 1.
Definition ROOTINO : Z := 1.
Definition NINODE : nat := 50.
Definition FSMAGIC : Z := 270544960.
Definition NDIRECT : nat := 12.
Definition NINDIRECT : nat := 256.
Definition MAXFILE : Z := 268.
Definition DIRSIZ : nat := 14.
Definition IPB : Z := 16.
Definition BPB : Z := 8192.
Definition T_DIR : Z := 1.
Definition T_FILE : Z := 2.
Definition T_DEVICE : Z := 3.

Record superblock := mk_superblock {
  sb_magic : Z;
  sb_size : Z;        (* size of file system image (blocks) *)
  sb_nblocks : Z;
  sb_ninodes : Z;
  sb_nlog : Z;
  sb_logstart : Z;
  sb_inodestart : Z;
  sb_bmapstart : Z;
}.

Definition IBLOCK (i : Z) (sb : superblock) : Z := i / IPB + sb_inodestart sb.
Definition BBLOCK (b : Z) (sb : superblock) : Z := b / BPB + sb_bmapstart sb.

Record inode := mk_inode {
  i_dev : Z;
  i_inum : Z;
  i_ref : Z;  (* reference count *)
  i_valid : bool;  (* inode has been read from disk? *)
  i_type : Z;  (* copy of disk inode *)
  i_major : Z;
  i_minor : Z;
  i_nlink : Z;
  i_size : Z;
  i_addrs : list Z;  (* uint addrs[NDIRECT+1] *)
}.

Definition set_i_dev (x : Z) (i : inode) : inode :=
  mk_inode x (i_inum i) (i_ref i) (i_valid i) (i_type i) (i_major i) (i_minor i) (i_nlink i) (i_size i) (i_addrs i).
Definition set_i_inum (x : Z) (i : inode) : inode :=
  mk_inode (i_dev i) x (i_ref i) (i_valid i) (i_type i) (i_major i) (i_minor i) (i_nlink i) (i_size i) (i_addrs i).
Definition set_i_ref (x : Z) (i : inode) : inode :=
  mk_inode (i_dev i) (i_inum i) x (i_valid i) (i_type i) (i_major i) (i_minor i) (i_nlink i) (i_size i) (i_addrs i).
Definition set_i_valid (x : bool) (i : inode) : inode :=
  mk_inode (i_dev i) (i_inum i) (i_ref i) x (i_type i) (i_major i) (i_minor i) (i_nlink i) (i_size i) (i_addrs i).
Definition set_i_type (x : Z) (i : inode) : inode :=
  mk_inode (i_dev i) (i_inum i) (i_ref i) (i_valid i) x (i_major i) (i_minor i) (i_nlink i) (i_size i) (i_addrs i).
Definition set_i_major (x : Z) (i : inode) : inode :=
  mk_inode (i_dev i) (i_inum i) (i_ref i) (i_valid i) (i_type i) x (i_minor i) (i_nlink i) (i_size i) (i_addrs i).
Definition set_i_minor (x : Z) (i : inode) : inode :=
  mk_inode (i_dev i) (i_inum i) (i_ref i) (i_valid i) (i_type i) (i_major i) x (i_nlink i) (i_size i) (i_addrs i).
Definition set_i_nlink (x : Z) (i : inode) : inode :=
  mk_inode (i_dev i) (i_inum i) (i_ref i) (i_valid i) (i_type i) (i_major i) (i_minor i) x (i_size i) (i_addrs i).
Definition set_i_size (x : Z) (i : inode) : inode :=
  mk_inode (i_dev i) (i_inum i) (i_ref i) (i_valid i) (i_type i) (i_major i) (i_minor i) (i_nlink i) x (i_addrs i).
Definition set_i_addrs (x : list Z) (i : inode) : inode :=
  mk_inode (i_dev i) (i_inum i) (i_ref i) (i_valid i) (i_type i) (i_major i) (i_minor i) (i_nlink i) (i_size i) x.

Definition inode0 : inode := mk_inode 0 0 0 false 0 0 0 0 0 (replicate 13 0).

Record fsst := mk_fsst {
  fs_l : lst;  (* the layers below *)
  fs_sb : superblock;  (* sb *)
  fs_inode : list inode;  (* icache.inode[NINODE] *)
}.

Definition set_fs_l (x : lst) (s : fsst) : fsst :=
  mk_fsst x (fs_sb s) (fs_inode s).
Definition set_fs_sb (x : superblock) (s : fsst) : fsst :=
  mk_fsst (fs_l s) x (fs_inode s).
Definition set_fs_inode (x : list inode) (s : fsst) : fsst :=
  mk_fsst (fs_l s) (fs_sb s) x.

#[global] Instance lens_fs_l : Lens fsst lst.
Proof. by exists fs_l set_fs_l; intros; destruct s. Defined.
#[global] Instance lens_fs_b : Lens fsst bst := lens_trans lens_fs_l lens_lg_b.
#[global] Instance lens_fs_s : Lens fsst sst := lens_trans lens_fs_l lens_lg_s.
#[global] Instance lens_fs_p : Lens fsst pst := lens_trans lens_fs_l lens_lg_p.
#[global] Instance lens_fs_k : Lens fsst kmst := lens_trans lens_fs_l lens_lg_k.
#[global] Instance lens_fs_lk : Lens fsst lks := lens_trans lens_fs_l lens_lg_lk.

Definition icache_lock : lockid := ("icache"%string, 0).
Definition inode_lock (ip : nat) : lockid := ("inode"%string, Z.of_nat ip).

Definition inode_at (ip : nat) (s : fsst) : inode := default inode0 (fs_inode s !! ip).
Definition geti {A} (ip : nat) (f : inode -> A) : M fsst A := gets (fun s => f (inode_at ip s)).
Definition seti (ip : nat) (f : inode -> inode) : M fsst unit :=
  modify (fun s => set_fs_inode (alter f ip (fs_inode s)) s).

(** ** Fields of a block *)

Definition get_short (d : list Z) (off : nat) : Z := i16 (get_le 2 d off).
Definition put_short (d : list Z) (off : nat) (v : Z) : list Z := put_le 2 d off v.
Definition get_uint (d : list Z) (off : nat) : Z := get_le 4 d off.
Definition put_uint (d : list Z) (off : nat) (v : Z) : list Z := put_le 4 d off v.

(** [n] uints from offset [off] on. *)
Fixpoint get_uints (d : list Z) (off n : nat) : list Z :=
  match n with
  | O => []
  | S n' => get_uint d off :: get_uints d (4 + off) n'
  end.
Fixpoint put_uints (d : list Z) (off : nat) (vs : list Z) : list Z :=
  match vs with
  | [] => d
  | v :: vs' => put_uints (put_uint d off v) (4 + off) vs'
  end.

(** The offset of (struct dinode* )bp->data + inum%IPB. *)
Definition dinode_off (inum : Z) : nat := (64 * Z.to_nat (inum mod IPB))%nat.

(** memmove to [bp->data + off], of the bytes [bs]. *)
Definition splice (d : list Z) (off : nat) (bs : list Z) : list Z :=
  take off d ++ bs ++ drop (off + length bs) d.

(** ** Blocks *)

Definition readsb (dev : Z) : M fsst unit :=
  bp ← ↑ bread dev 1;
  d ← ↑ bdata bp;
  let f k := get_uint d (4 * k) in
  modify (set_fs_sb (mk_superblock (f 0%nat) (f 1%nat) (f 2%nat) (f 3%nat) (f 4%nat) (f 5%nat)
                       (f 6%nat) (f 7%nat)));;
  ↑ brelse bp.

Definition fsinit (dev : Z) : M fsst unit :=
  readsb dev;;
  sb ← gets fs_sb;
  if negb (sb_magic sb =? FSMAGIC) then panic "invalid file system" else
  ↑ initlog dev (sb_logstart sb) (sb_nlog sb).

Definition bzero (dev bno : Z) : M fsst unit :=
  bp ← ↑ bread dev bno;
  ↑ set_bdata bp zero_block;;
  ↑ log_write bp;;
  ↑ brelse bp.

Definition balloc (dev : Z) : M fsst Z :=
  sb ← gets fs_sb;
  r ← for_range 0 (sb_size sb) BPB (fun b =>
    bp ← ↑ bread dev (BBLOCK b sb);
    r ← for_range 0 (Z.min BPB (sb_size sb - b)) 1 (fun bi =>
      let m := Z.shiftl 1 (bi mod 8) in
      let k := Z.to_nat (bi / 8) in
      d ← ↑ bdata bp;
      let x := default 0 (d !! k) in
      if Z.land x m =? 0 then
        ↑ set_bdata bp (<[k := Z.lor x m]> d);;
        ↑ log_write bp;;
        ↑ brelse bp;;
        bzero dev (b + bi);;
        mret (Some (b + bi))
      else mret None);
    match r with
    | Some x => mret (Some x)
    | None => ↑ brelse bp;; mret None
    end);
  match r with
  | Some x => mret x
  | None => panic "balloc: out of blocks"
  end.

Definition bfree (dev b : Z) : M fsst unit :=
  sb ← gets fs_sb;
  bp ← ↑ bread dev (BBLOCK b sb);
  let bi := b mod BPB in
  let m := Z.shiftl 1 (bi mod 8) in
  let k := Z.to_nat (bi / 8) in
  d ← ↑ bdata bp;
  let x := default 0 (d !! k) in
  if Z.land x m =? 0 then panic "freeing free block" else
  ↑ set_bdata bp (<[k := Z.land x (Z.lnot m)]> d);;
  ↑ log_write bp;;
  ↑ brelse bp.

(** ** Inodes *)

Definition iinit : M fsst unit :=
  ↑ initlock icache_lock;;
  for_each (seq 0 NINODE) (fun i => ↑ initsleeplock (inode_lock i);; mret (None : option unit));;
  mret tt.

Definition iget (dev inum : Z) : M fsst nat :=
  ↑ acquire icache_lock;;
  inodes ← gets fs_inode;
  match list_find (fun x => 0 < i_ref x /\ i_dev x = dev /\ i_inum x = inum) inodes with
  | Some (ip, _) =>
      seti ip (fun x => set_i_ref (i_ref x + 1) x);;
      ↑ release icache_lock;;
      mret ip
  | None =>
      match list_find (fun x => i_ref x = 0) inodes with
      | None => panic "iget: no inodes"
      | Some (ip, _) =>
          seti ip (fun x => set_i_valid false (set_i_ref 1 (set_i_inum inum (set_i_dev dev x))));;
          ↑ release icache_lock;;
          mret ip
      end
  end.

Definition ialloc (dev type : Z) : M fsst nat :=
  sb ← gets fs_sb;
  r ← for_range 1 (sb_ninodes sb) 1 (fun inum =>
    bp ← ↑ bread dev (IBLOCK inum sb);
    d ← ↑ bdata bp;
    let o := dinode_off inum in
    if get_short d o =? 0 then
      ↑ set_bdata bp (put_short (splice d o (replicate 64 0)) o type);;
      ↑ log_write bp;;
      ↑ brelse bp;;
      ip ← iget dev inum;
      mret (Some ip)
    else
      ↑ brelse bp;;
      mret None);
  match r with
  | Some ip => mret ip
  | None => panic "ialloc: no inodes"
  end.

(** The bytes of a disk inode, written over [d] at offset [o]. *)
Definition put_dinode (d : list Z) (o : nat) (x : inode) : list Z :=
  let d := put_short d o (i_type x) in
  let d := put_short d (2 + o) (i_major x) in
  let d := put_short d (4 + o) (i_minor x) in
  let d := put_short d (6 + o) (i_nlink x) in
  let d := put_uint d (8 + o) (i_size x) in
  put_uints d (12 + o) (i_addrs x).

Definition iupdate (ip : nat) : M fsst unit :=
  x ← geti ip id;
  sb ← gets fs_sb;
  bp ← ↑ bread (i_dev x) (IBLOCK (i_inum x) sb);
  d ← ↑ bdata bp;
  ↑ set_bdata bp (put_dinode d (dinode_off (i_inum x)) x);;
  ↑ log_write bp;;
  ↑ brelse bp.

Definition idup (ip : nat) : M fsst nat :=
  ↑ acquire icache_lock;;
  seti ip (fun x => set_i_ref (i_ref x + 1) x);;
  ↑ release icache_lock;;
  mret ip.

(** The fields that ilock copies from the disk inode at offset [o]. *)
Definition get_dinode (d : list Z) (o : nat) (x : inode) : inode :=
  set_i_addrs (get_uints d (12 + o) 13) (set_i_size (get_uint d (8 + o))
    (set_i_nlink (get_short d (6 + o)) (set_i_minor (get_short d (4 + o))
      (set_i_major (get_short d (2 + o)) (set_i_type (get_short d o) x))))).

Definition ilock (ip : nat) : M fsst unit :=
  ref ← geti ip i_ref;
  if ref <? 1 then panic "ilock" else
  ↑ acquiresleep (inode_lock ip);;
  x ← geti ip id;
  when (negb (i_valid x))
    (sb ← gets fs_sb;
     bp ← ↑ bread (i_dev x) (IBLOCK (i_inum x) sb);
     d ← ↑ bdata bp;
     seti ip (get_dinode d (dinode_off (i_inum x)));;
     ↑ brelse bp;;
     seti ip (set_i_valid true);;
     t ← geti ip i_type;
     if t =? 0 then panic "ilock: no type" else mret tt).

Definition iunlock (ip : nat) : M fsst unit :=
  h ← ↑ holdingsleep (inode_lock ip);
  ref ← geti ip i_ref;
  if negb h || (ref <? 1) then panic "iunlock" else
  ↑ releasesleep (inode_lock ip).

(** *** Content *)

Definition bmap (ip : nat) (bn : Z) : M fsst Z :=
  dev ← geti ip i_dev;
  if bn <? Z.of_nat NDIRECT then
    let k := Z.to_nat bn in
    addr ← geti ip (fun x => default 0 (i_addrs x !! k));
    if addr =? 0 then
      addr ← balloc dev;
      seti ip (fun x => set_i_addrs (<[k := addr]> (i_addrs x)) x);;
      mret addr
    else mret addr
  else
    let k := Z.to_nat (bn - Z.of_nat NDIRECT) in
    if bn - Z.of_nat NDIRECT <? Z.of_nat NINDIRECT then
      addr ← geti ip (fun x => default 0 (i_addrs x !! NDIRECT));
      addr ← (if addr =? 0 then
                addr ← balloc dev;
                seti ip (fun x => set_i_addrs (<[NDIRECT := addr]> (i_addrs x)) x);;
                mret addr
              else mret addr);
      bp ← ↑ bread dev addr;
      d ← ↑ bdata bp;
      let addr := get_uint d (4 * k) in
      addr ← (if addr =? 0 then
                addr ← balloc dev;
                d ← ↑ bdata bp;
                ↑ set_bdata bp (put_uint d (4 * k) addr);;
                ↑ log_write bp;;
                mret addr
              else mret addr);
      ↑ brelse bp;;
      mret addr
    else panic "bmap: out of range".

Definition itrunc (ip : nat) : M fsst unit :=
  dev ← geti ip i_dev;
  for_each (seq 0 NDIRECT) (fun i =>
    a ← geti ip (fun x => default 0 (i_addrs x !! i));
    when (negb (a =? 0))
      (bfree dev a;;
       seti ip (fun x => set_i_addrs (<[i := 0]> (i_addrs x)) x));;
    mret (None : option unit));;
  a ← geti ip (fun x => default 0 (i_addrs x !! NDIRECT));
  when (negb (a =? 0))
    (bp ← ↑ bread dev a;
     for_each (seq 0 NINDIRECT) (fun j =>
       d ← ↑ bdata bp;
       when (negb (get_uint d (4 * j) =? 0)) (bfree dev (get_uint d (4 * j)));;
       mret (None : option unit));;
     ↑ brelse bp;;
     bfree dev a;;
     seti ip (fun x => set_i_addrs (<[NDIRECT := 0]> (i_addrs x)) x));;
  seti ip (set_i_size 0);;
  iupdate ip.

Definition iput (ip : nat) : M fsst unit :=
  ↑ acquire icache_lock;;
  x ← geti ip id;
  when ((i_ref x =? 1) && i_valid x && (i_nlink x =? 0))
    (↑ acquiresleep (inode_lock ip);;
     ↑ release icache_lock;;
     itrunc ip;;
     seti ip (set_i_type 0);;
     iupdate ip;;
     seti ip (set_i_valid false);;
     ↑ releasesleep (inode_lock ip);;
     ↑ acquire icache_lock);;
  seti ip (fun x => set_i_ref (i_ref x - 1) x);;
  ↑ release icache_lock.

Definition iunlockput (ip : nat) : M fsst unit := iunlock ip;; iput ip.

Record stat := mk_stat { st_dev : Z; st_ino : Z; st_type : Z; st_nlink : Z; st_size : Z }.

Definition stati (ip : nat) : M fsst stat :=
  geti ip (fun x => mk_stat (i_dev x) (i_inum x) (i_type x) (i_nlink x) (i_size x)).

(** A read into the kernel also returns the bytes. *)
Definition dest_plus (dst : dest) (m : Z) : dest :=
  match dst with DUser va => DUser (u64 (va + m)) | DKern => DKern end.
Definition source_plus (src : source) (m : Z) : source :=
  match src with SUser va => SUser (u64 (va + m)) | SKern bs => SKern (drop (Z.to_nat m) bs) end.

(** The loops of readi and writei run at most once per block touched. *)
Definition blocks_bound (n : Z) : nat := S (S (Z.to_nat (n / 1024))).

Fixpoint readi_loop (fuel : nat) (ip : nat) (dst : dest) (off n tot : Z) (got : list Z)
    : M fsst (Z * list Z) :=
  if tot <? n then
    match fuel with
    | O => out_of_fuel
    | S fuel' =>
        addr ← bmap ip (off / 1024);
        dev ← geti ip i_dev;
        bp ← ↑ bread dev addr;
        d ← ↑ bdata bp;
        let m := Z.min (n - tot) (1024 - off mod 1024) in
        let bs := take (Z.to_nat m) (drop (Z.to_nat (off mod 1024)) d) in
        r ← ↑ either_copyout dst bs m;
        ↑ brelse bp;;
        if r =? -1 then mret (tot, got)
        else readi_loop fuel' ip (dest_plus dst m) (off + m) n (tot + m) (got ++ bs)
    end
  else mret (tot, got).

Definition readi (ip : nat) (dst : dest) (off n : Z) : M fsst (Z * list Z) :=
  size ← geti ip i_size;
  if (size <? off) || (u32 (off + n) <? off) then mret (0, []) else
  let n := if size <? u32 (off + n) then u32 (size - off) else n in
  readi_loop (blocks_bound n) ip dst off n 0 [].

(** The final offset. *)
Fixpoint writei_loop (fuel : nat) (ip : nat) (src : source) (off n tot : Z) : M fsst Z :=
  if tot <? n then
    match fuel with
    | O => out_of_fuel
    | S fuel' =>
        addr ← bmap ip (off / 1024);
        dev ← geti ip i_dev;
        bp ← ↑ bread dev addr;
        let m := Z.min (n - tot) (1024 - off mod 1024) in
        '(r, bs) ← ↑ either_copyin src m;
        d ← ↑ bdata bp;
        ↑ set_bdata bp (splice d (Z.to_nat (off mod 1024)) bs);;
        if r =? -1 then ↑ brelse bp;; mret off
        else
          ↑ log_write bp;;
          ↑ brelse bp;;
          writei_loop fuel' ip (source_plus src m) (off + m) n (tot + m)
    end
  else mret off.

Definition writei (ip : nat) (src : source) (off n : Z) : M fsst Z :=
  size ← geti ip i_size;
  if (size <? off) || (u32 (off + n) <? off) then mret (-1) else
  if MAXFILE * 1024 <? u32 (off + n) then mret (-1) else
  off' ← writei_loop (blocks_bound n) ip src off n 0;
  when (0 <? n)
    (size ← geti ip i_size;
     when (size <? off') (seti ip (set_i_size off'));;
     iupdate ip);;
  mret n.

(** ** Directories *)

(** The bytes of a kernel string, NUL after its end. *)
Definition cstr (s : list Z) : nat -> Z := fun i => default 0 (s !! i).

Definition namecmp (s t : nat -> Z) : Z := strncmp s t DIRSIZ.

(** struct dirent: de.inum, then de.name. *)
Definition DIRENT : Z := 16.
Definition de_inum (de : list Z) : Z := get_le 2 de 0.
Definition de_name (de : list Z) : list Z := drop 2 de.
Definition mk_dirent (inum : Z) (name : list Z) : list Z := put_le 2 [0; 0] 0 inum ++ name.

(** The inode and *poff. *)
Definition dirlookup (dp : nat) (name : list Z) : M fsst (option (nat * Z)) :=
  t ← geti dp i_type;
  if negb (t =? T_DIR) then panic "dirlookup not DIR" else
  size ← geti dp i_size;
  for_range 0 size DIRENT (fun off =>
    '(r, de) ← readi dp DKern off DIRENT;
    if negb (r =? DIRENT) then panic "dirlookup read" else
    if de_inum de =? 0 then mret None else
    if namecmp (cstr name) (cstr (de_name de)) =? 0 then
      dev ← geti dp i_dev;
      ip ← iget dev (de_inum de);
      mret (Some (ip, off))
    else mret None).

Definition dirlink (dp : nat) (name : list Z) (inum : Z) : M fsst Z :=
  r ← dirlookup dp name;
  match r with
  | Some (ip, _) => iput ip;; mret (-1)
  | None =>
      size ← geti dp i_size;
      r ← for_range 0 size DIRENT (fun off =>
        '(r, de) ← readi dp DKern off DIRENT;
        if negb (r =? DIRENT) then panic "dirlink read" else
        if de_inum de =? 0 then mret (Some off) else mret None);
      (* where the loop left off *)
      let off := default (DIRENT * ((size + DIRENT - 1) / DIRENT)) r in
      let de := mk_dirent inum (strncpy (cstr name) DIRSIZ) in
      r ← writei dp (SKern de) off DIRENT;
      if negb (r =? DIRENT) then panic "dirlink" else mret 0
  end.

(** ** Paths *)

Fixpoint skip_slashes (path : list Z) : list Z :=
  match path with
  | c :: path' => if c =? slash then skip_slashes path' else path
  | [] => []
  end.

(** The bytes up to the next slash, and what follows them. *)
Fixpoint take_elem (path : list Z) : list Z * list Z :=
  match path with
  | c :: path' =>
      if c =? slash then ([], path)
      else let '(e, rest) := take_elem path' in (c :: e, rest)
  | [] => ([], [])
  end.

(** The name, of at most DIRSIZ bytes, and the rest of the path. *)
Definition skipelem (path : list Z) : option (list Z * list Z) :=
  match skip_slashes path with
  | [] => None
  | s =>
      let '(e, rest) := take_elem s in
      Some (take DIRSIZ e, skip_slashes rest)
  end.

(** The loop of namex, with the name of the last element taken. *)
Fixpoint namex_loop (fuel : nat) (ip : nat) (path : list Z) (nameiparent : bool) (name : list Z)
    : M fsst (option (nat * list Z)) :=
  match skipelem path with
  | None =>
      if nameiparent then iput ip;; mret None
      else mret (Some (ip, name))
  | Some (name, path) =>
      match fuel with
      | O => out_of_fuel
      | S fuel' =>
          ilock ip;;
          t ← geti ip i_type;
          if negb (t =? T_DIR) then iunlockput ip;; mret None else
          if nameiparent && bool_decide (path = []) then iunlock ip;; mret (Some (ip, name)) else
          next ← dirlookup ip name;
          match next with
          | None => iunlockput ip;; mret None
          | Some (next, _) => iunlockput ip;; namex_loop fuel' next path nameiparent name
          end
      end
  end.

Definition namex (path : list Z) (nameiparent : bool) : M fsst (option (nat * list Z)) :=
  ip ← (if bool_decide (head path = Some slash) then iget ROOTDEV ROOTINO
        else
          p ← ↑ curproc;
          cwd ← ↑ getp p p_cwd;
          match cwd with
          | Some ip => idup ip
          | None => panic "kerneltrap"
          end);
  namex_loop (length path) ip path nameiparent [].

Definition namei (path : list Z) : M fsst (option nat) :=
  r ← namex path false;
  mret (fst <$> r).

Definition nameiparent (path : list Z) : M fsst (option (nat * list Z)) := namex path true.
