(* ===== verification/FsTxn.v ===== *)
(** * Blocks in a transaction

    The rules with which the code of fs.c between begin_op and end_op reads and
    updates blocks.  [in_txn s L view H] is what such code relies on: only blocks of
    [L] have been logged, at most [cap] of them, [view] are the contents of the disk
    as the operation sees them, and [H] are the blocks that it has locked, with their
    buffers.  The rules only change the part of the state below the file system. *)

From Stdlib Require Import ZArith Lia.
From stdpp Require Import base list gmap sets strings.
From S2P Require Import Prelude KString Spinlock Riscv Kalloc Vm VmInv VmProofs VmUser VmCopy Proc Sleeplock Bio BioInv BioProofs Log LogSpec LogProofs LogTxn Fs.

Section txn.
Context (i : nat) (start lsize : Z) (b0 : bst) (cap : nat).

(** The log has room for [cap] blocks, and the cache for those that are locked. *)
Definition fits : Prop := Z.of_nat cap < lsize - 1 /\ (cap + 4 <= NBUF)%nat.

Definition in_op (s : fsst) (L : gset Z) (view : disk) (H : gmap Z nat) (x : option Z) : Prop :=
  exists bs refs, logging i start lsize (fs_l s) bs view refs H x /\ (forall y, y ∈ bs -> y ∈ L) /\
    (size L <= cap)%nat /\ fits /\
    1 <= lg_outstanding (fs_l s) /\ evolves [] b0 (lg_b (fs_l s)).
Definition in_txn (s : fsst) (L : gset Z) (view : disk) (H : gmap Z nat) : Prop := in_op s L view H None.

(** A block of the file system: not one of the log. *)
Definition fs_block (blk : Z) : Prop := 0 <= blk < 2 ^ 31 /\ ~ in_log start lsize blk.

Lemma in_txn_mono s L L' view H : in_txn s L view H -> L ⊆ L' -> (size L' <= cap)%nat -> in_txn s L' view H.
Proof. intros (bs & refs & Hl & Hn & Ho & Hev) Hle Hc. exists bs, refs. split_and!; try tauto. set_solver. Qed.

Lemma in_op_cap s L view H x : in_op s L view H x -> (size L <= cap)%nat.
Proof. by intros (bs & refs & _ & _ & Hc & _). Qed.

Lemma length_subset (bs : list Z) (L : gset Z) : NoDup bs -> (forall y, y ∈ bs -> y ∈ L) -> (length bs <= size L)%nat.
Proof.
  intros Hnd Hs. rewrite <- (size_list_to_set (C := gset Z) bs) by done. apply subseteq_size. intros y.
  rewrite elem_of_list_to_set. apply Hs.
Qed.

(** The fields of the file system itself may change. *)
Lemma in_op_l s s' L view H x : fs_l s' = fs_l s -> in_op s L view H x -> in_op s' L view H x.
Proof. unfold in_op. by intros ->. Qed.

Lemma size_refs (bs : list Z) refs (H : gmap Z nat) :
  refs_ok refs -> NoDup bs ->
  (forall y, getref refs y = (if decide (y ∈ bs) then 1 else 0) + (if decide (is_Some (H !! y)) then 1 else 0)) ->
  (size refs <= length bs + size H)%nat.
Proof.
  intros Hok Hnd E. rewrite <- !size_dom. rewrite <- (size_list_to_set (C := gset Z) bs) by done.
  etrans; [apply (subseteq_size (dom refs) (list_to_set bs ∪ dom H))|].
  - intros y Hy. apply elem_of_dom, (is_Some_getref _ _ Hok) in Hy. rewrite E in Hy.
    apply elem_of_union. rewrite elem_of_list_to_set, elem_of_dom. destruct (decide (y ∈ bs)); [by left|right].
    by destruct (decide (is_Some (H !! y))).
  - pose proof (size_union_alt (list_to_set bs : gset Z) (dom H)) as Eu. rewrite Eu.
    pose proof (subseteq_size (dom H ∖ list_to_set bs) (dom H) ltac:(set_solver)). lia.
Qed.

Lemma wp_fs_bread s L view H blk (Q : nat -> fsst -> Prop) :
  in_txn s L view H -> fs_block blk -> H !! blk = None -> (size H < 4)%nat ->
  (forall a l', in_txn (set_fs_l l' s) L view (<[blk := a]> H) -> Q a (set_fs_l l' s)) ->
  wp (↑ bread 1 blk) Q s.
Proof.
  intros (bs & refs & Hl & Hn & Hc & Hf & Ho & Hev) [Hb Hbl] HH Hs HQ. pose proof Hl as Hl0. destruct Hl0.
  pose proof (bio_refs_ok _ _ _ _ _ lo_cache) as Hrok.
  assert (getref refs blk = if decide (blk ∈ bs) then 1 else 0) as Er.
  { rewrite lo_refs, (decide_False (P := is_Some _)); [lia|]. rewrite HH. by intros [? ?]. }
  apply wp_zoom. eapply wp_bread; [exact lo_cache|done| | | |].
  - intros y a Ha. apply (is_Some_getref _ _ Hrok). rewrite lo_refs, (decide_True (P := is_Some _)) by eauto.
    destruct (decide (y ∈ bs)); lia.
  - rewrite Er. by case_decide.
  - right. pose proof (size_refs bs refs H Hrok (lo_nodup _ _ _ lo_blocks_ok) lo_refs).
    pose proof (length_subset bs L (lo_nodup _ _ _ lo_blocks_ok) Hn). unfold fits in Hf. lia.
  - intros a b' Hle Ed Ew Hb'. assert (evolves [] (lg_b (fs_l s)) b') as Hev' by by apply evolves_same.
    apply HQ. exists bs, (incref refs blk). split_and!; [|done..|by eapply evolves_nil_l].
    eapply logging_b; [exact Hl|done|exact Hb'|..].
    + intros y. rewrite getref_incref, Er, lo_refs. destruct (decide (y = blk)) as [->|Hne].
      * rewrite (decide_True (P := is_Some _)) by (rewrite lookup_insert_eq; eauto). by case_decide.
      * f_equal. apply decide_ext. by rewrite lookup_insert_ne.
    + intros y c Hy. apply lookup_insert_Some in Hy as [[<- _]|[_ Hy]]; [done|by eapply lo_held].
    + intros y Hy _ Hyl. by apply lo_clean.
Qed.

Lemma wp_fs_data s L view H x blk a (Q : list Z -> fsst -> Prop) :
  in_op s L view H x -> H !! blk = Some a -> Q (view blk) s -> wp (↑ bdata a) Q s.
Proof.
  intros (bs & refs & Hl & _) Ha HQ. unfold bdata. apply wp_zoom, wp_zoom, wp_getb.
  destruct (bio_held _ _ _ _ _ _ _ (lo_cache _ _ _ _ _ _ _ _ _ Hl) Ha) as (_ & _ & E & _).
  rewrite <- E in HQ. by destruct s as [[]].
Qed.

Lemma held_refs (bs : list Z) refs (H : gmap Z nat) blk a :
  refs_ok refs -> H !! blk = Some a ->
  (forall y, getref refs y = (if decide (y ∈ bs) then 1 else 0) + (if decide (is_Some (H !! y)) then 1 else 0)) ->
  getref refs blk = (if decide (blk ∈ bs) then 2 else 1) /\ is_Some (refs !! blk).
Proof.
  intros Hok Ha E. assert (getref refs blk = if decide (blk ∈ bs) then 2 else 1) as Er.
  { rewrite E, (decide_True (P := is_Some _)) by eauto. by case_decide. }
  split; [done|]. apply (is_Some_getref _ _ Hok). rewrite Er. by case_decide.
Qed.

(** Changing a block, which must then be logged. *)
Lemma wp_fs_setdata s L view H blk a d (Q : unit -> fsst -> Prop) :
  in_txn s L view H -> H !! blk = Some a ->
  (forall l', in_op (set_fs_l l' s) L (apply_write view (blk, d)) H (Some blk) -> Q tt (set_fs_l l' s)) ->
  wp (↑ set_bdata a d) Q s.
Proof.
  intros (bs & refs & Hl & Hn & Hc & Hf & Ho & Hev) Ha HQ. pose proof Hl as Hl0. destruct Hl0.
  pose proof (bio_refs_ok _ _ _ _ _ lo_cache) as Hrok. destruct (held_refs _ _ _ _ _ Hrok Ha lo_refs) as [_ Hr].
  unfold set_bdata. apply wp_zoom, wp_zoom. eapply wp_setdata; [exact lo_cache|done|done|].
  intros b' Hle Ed Ew Hb'. assert (evolves [] (lg_b (fs_l s)) b') as Hev' by by apply evolves_same.
  apply HQ. exists bs, refs. split_and!; [|done..|by eapply evolves_nil_l].
  eapply logging_b; [exact Hl|done|exact Hb'|done|done|].
  intros y Hy Hne Hyl. unfold apply_write. cbn. rewrite decide_False by congruence. by apply lo_clean.
Qed.

Lemma wp_fs_log_write s L view H blk a (Q : unit -> fsst -> Prop) :
  in_op s L view H (Some blk) -> H !! blk = Some a -> 0 <= blk < 2 ^ 31 ->
  (size ({[blk]} ∪ L) <= cap)%nat ->
  (forall l', in_txn (set_fs_l l' s) ({[blk]} ∪ L) view H -> Q tt (set_fs_l l' s)) ->
  wp (↑ log_write a) Q s.
Proof.
  intros (bs & refs & Hl & Hn & Hc & Hf & Ho & Hev) Ha Hb Hc' HQ. apply wp_zoom.
  pose proof (length_subset bs L (lo_nodup _ _ _ (lo_blocks_ok _ _ _ _ _ _ _ _ _ Hl)) Hn).
  pose proof Hf as [Hf1 Hf2].
  eapply (wp_log_write i start lsize (fs_l s) bs view refs H blk a); [exact Hl|done|done|done|lia|lia|].
  intros l' refs' Hev' Hl' Ho'. apply HQ. exists (logged bs blk), refs'.
  split_and!; [done| |done|done|cbn; lia|by eapply evolves_nil_l].
  unfold logged. intros y Hy. destruct (decide (blk ∈ bs)); set_solver.
Qed.

Lemma wp_fs_brelse s L view H blk a (Q : unit -> fsst -> Prop) :
  in_txn s L view H -> H !! blk = Some a ->
  (forall l', in_txn (set_fs_l l' s) L view (delete blk H) -> Q tt (set_fs_l l' s)) ->
  wp (↑ brelse a) Q s.
Proof.
  intros (bs & refs & Hl & Hn & Hc & Hf & Ho & Hev) Ha HQ. pose proof Hl as Hl0. destruct Hl0.
  pose proof (bio_refs_ok _ _ _ _ _ lo_cache) as Hrok. destruct (held_refs _ _ _ _ _ Hrok Ha lo_refs) as [Er Hr].
  apply wp_zoom. eapply wp_brelse; [exact lo_cache|done| |].
  - intros E. apply lo_clean; [|done|by eapply lo_held]. intros Hin. by rewrite Er, decide_True in E.
  - intros b' Hle Ed Ew Hb'. assert (evolves [] (lg_b (fs_l s)) b') as Hev' by by apply evolves_same.
    apply HQ. exists bs, (decref refs blk). split_and!; [|done..|by eapply evolves_nil_l].
    eapply logging_b; [exact Hl|done|exact Hb'|..].
    + intros y. rewrite getref_decref, Er, lo_refs. destruct (decide (y = blk)) as [->|Hne].
      * rewrite (decide_False (P := is_Some _)) by (rewrite lookup_delete_eq; by intros [? ?]). by case_decide.
      * f_equal. apply decide_ext. by rewrite lookup_delete_ne.
    + intros y c Hy. apply lookup_delete_Some in Hy as [_ Hy]. by eapply lo_held.
    + intros y Hy _ Hyl. by apply lo_clean.
Qed.

(** Code of the layers below the cache that only takes locks and wakes up processes. *)
Lemma wp_fs_below {A} s L view H x (m : M pst A) (Q : A -> fsst -> Prop) :
  in_op s L view H x ->
  (running i (lget s) -> wp m (fun a p' => pst_le (lget s) p' /\
    (forall l', in_op (set_fs_l l' s) L view H x -> Q a (set_fs_l l' s))) (lget s)) ->
  wp (↑ m) Q s.
Proof.
  intros (bs & refs & Hl & Hn & Hc & Hf & Ho & Hev) Hm. pose proof Hl as Hl0. destruct Hl0.
  apply wp_zoom. eapply wp_mono; [apply Hm; apply lo_cache|]. intros a p' [Hle HQ]. apply HQ.
  destruct (bio_inv_le i (lg_b (fs_l s)) p' _ _ _ lo_cache Hle) as [Hle' Hb'].
  assert (evolves [] (lg_b (fs_l s)) (lset p' (lg_b (fs_l s)))) as Hev' by by apply evolves_same.
  exists bs, refs. split_and!; [|done..|by eapply evolves_nil_l]. by eapply logging_b; [exact Hl|..].
Qed.

(** The state after a spin lock has been held. *)
Lemma in_op_settle s L view H x :
  in_op s L view H x -> running i (lget s) /\ in_op (lset (settle (lget s)) s) L view H x.
Proof.
  intros (bs & refs & Hl & Hn & Hc & Hf & Ho & Hev). pose proof Hl as Hl0. destruct Hl0. split; [apply lo_cache|].
  destruct (bio_inv_settle i (lg_b (fs_l s)) _ _ _ lo_cache) as [Hle' Hb'].
  assert (evolves [] (lg_b (fs_l s)) (lset (settle (lget (lg_b (fs_l s)))) (lg_b (fs_l s)))) as Hev' by by apply evolves_same.
  exists bs, refs. split_and!; [|done..|by eapply evolves_nil_l]. by eapply logging_b; [exact Hl|..].
Qed.

Lemma wp_curproc (p : pst) (Q : nat -> pst -> Prop) :
  intr_wf (k_lk (ps_k p)) -> cproc (k_lk (ps_k p)) = Some i ->
  Q i (lset (settle (k_lk (ps_k p))) p) -> wp curproc Q p.
Proof.
  intros Hwf Hc HQ. unfold curproc. bstep. apply wp_myproc; [done|].
  change (cproc (lget p)) with (cproc (k_lk (ps_k p))). rewrite Hc. by bstep.
Qed.

Lemma wp_fs_copyout s L view H x bs n (Q : Z -> fsst -> Prop) :
  in_op s L view H x -> (forall l', in_op (set_fs_l l' s) L view H x -> Q 0 (set_fs_l l' s)) ->
  wp (↑ either_copyout DKern bs n) Q s.
Proof.
  intros Ht HQ. eapply wp_fs_below; [exact Ht|]. intros [Hwf _ Hc _ _]. unfold either_copyout. bstep.
  eapply wp_curproc; [done..|]. bstep. split; [pst_same|done].
Qed.

(** either_copyin from [src] yields the bytes [bs], whatever happens to the processes
    in the meantime. *)
Definition feeds (src : source) (bs : list Z) : Prop :=
  forall p tot m, running i p -> pst_le (sl_p (bc_s b0)) p -> 0 <= tot -> 0 <= m -> tot + m <= Z.of_nat (length bs) ->
    wp (either_copyin (source_plus src tot) m)
      (fun r p' => pst_le p p' /\ r = (0, take (Z.to_nat m) (drop (Z.to_nat tot) bs))) p.

Lemma feeds_kern bs : feeds (SKern bs) bs.
Proof.
  intros p tot m [Hwf _ Hc _ _] _ _ _ _. unfold either_copyin. cbn [source_plus]. bstep. eapply wp_curproc; [done..|]. bstep. split; [pst_same|done].
Qed.

Lemma wp_fs_copyin s L view H x src bs tot m (Q : Z * list Z -> fsst -> Prop) :
  in_op s L view H x -> feeds src bs -> 0 <= tot -> 0 <= m -> tot + m <= Z.of_nat (length bs) ->
  (forall l', in_op (set_fs_l l' s) L view H x -> Q (0, take (Z.to_nat m) (drop (Z.to_nat tot) bs)) (set_fs_l l' s)) ->
  wp (↑ either_copyin (source_plus src tot) m) Q s.
Proof.
  intros Ht Hsrc H1 H2 H3 HQ. eapply wp_fs_below; [exact Ht|]. intros Hr.
  destruct Ht as (bs' & refs & _ & _ & _ & _ & _ & Hev). eapply wp_mono.
  - apply Hsrc; [done| |done..]. apply (ev_le _ _ _ Hev).
  - intros r p' [Hle ->]. by split.
Qed.

(** The source after [tot] bytes, and then [m]. *)
Lemma source_plus_plus src tot m : 0 <= tot -> 0 <= m -> source_plus (source_plus src tot) m = source_plus src (tot + m).
Proof.
  intros H1 H2. destruct src as [va|bs]; cbn [source_plus]; f_equal.
  - unfold u64. rewrite Z.add_assoc. by rewrite Zplus_mod_idemp_l.
  - rewrite drop_drop. f_equal. lia.
Qed.

Definition source_wf (src : source) : Prop := source_plus src 0 = src.

(** The memory of the process, at the start of the operation. *)
Lemma feeds_user end_ own l roots root lim va n :
  let p := sl_p (bc_s b0) in
  0 < end_ -> running i p -> p_pagetable (proc_at i p) = root ->
  vm_inv end_ own l roots (ps_k p) -> roots !! root = Some lim -> ulimit lim ->
  0 <= va -> va + Z.of_nat n < 2 ^ 64 -> (forall v, va <= v < va + Z.of_nat n -> accessible (k_mem (ps_k p)) root v) ->
  feeds (SUser va) (ubytes (k_mem (ps_k p)) root va n).
Proof.
  intros p0 Hend Hr0 Ept Hvm Hroot Hul Hva Hmax Hacc p tot m Hr Hle Htot Hm Hlen.
  unfold ubytes in Hlen. rewrite length_fmap, length_zseq in Hlen.
  destruct (pst_le_running i _ _ Hle Hr0) as [_ Ep]. destruct Hr as [Hwf _ Hc _ _].
  unfold either_copyin. cbn [source_plus]. bstep. eapply wp_curproc; [done..|].
  set (p1 := lset (settle _) p). bstep. apply wp_gets.
  assert (proc_at i p1 = proc_at i p0) as -> by exact Ep. rewrite Ept.
  assert (u64 (va + tot) = va + tot) as Eu by (apply Z.mod_small; lia). rewrite Eu.
  assert (vm_inv end_ own l roots (ps_k p1)) as Hvm1 by (apply (vm_inv_ext (ps_k p0)); [apply Hle|apply Hle|done]).
  assert (k_mem (ps_k p1) = k_mem (ps_k p0)) as Em by apply Hle.
  destruct (copyin_run end_ Hend own l roots root lim (va + tot) m (ps_k p1)) as (r & dst & E & H); [done..|lia|lia|].
  apply wp_zoom. eapply wp_run; [exact E|]. rewrite Em in H. destruct H as [(-> & _ & ->)|(_ & v & Hv & Hno)].
  - split; [pst_same|]. f_equal. unfold ubytes. rewrite <- fmap_drop, <- fmap_take, drop_zseq, take_zseq.
    f_equal. f_equal; lia.
  - destruct Hno. apply Hacc. lia.
Qed.
End txn.
