(* ===== verification/FsAlloc.v ===== *)
(** * The block allocator of kernel/fs.c

    [used] reads the bitmap in the contents of the disk, [mark] sets a bit of it.
    [balloc_correct]: balloc takes the first free block, sets its bit, and clears its
    contents; it panics when there is none.  [bfree_correct]: bfree clears the bit of
    the block, and panics if it is clear. *)

From Stdlib Require Import ZArith Lia.
From stdpp Require Import base list gmap sets strings.
From S2P Require Import Prelude KString Spinlock Riscv Kalloc Vm Proc Sleeplock Bio BioInv BioProofs Log LogSpec LogProofs LogTxn Fs FsTxn.

(** ** The bitmap *)

Definition byte_of (b : Z) : nat := Z.to_nat (b mod BPB / 8).
Definition map_byte (sb : superblock) (view : disk) (b : Z) : Z := default 0 (view (BBLOCK b sb) !! byte_of b).
Definition used (sb : superblock) (view : disk) (b : Z) : bool := Z.testbit (map_byte sb view b) (b mod 8).

(** The first free block, sb.size if there is none. *)
Record first_free (sb : superblock) (view : disk) (f : Z) : Prop := {
  ff_range : 0 <= f <= sb_size sb;
  ff_below : forall b, 0 <= b < f -> used sb view b = true;
  ff_free : f < sb_size sb -> used sb view f = false;
}.

Definition free_blocks (sb : superblock) (view : disk) : gset Z :=
  list_to_set (filter (fun b => used sb view b = false) (zseq 0 (Z.to_nat (sb_size sb)))).
Abbreviation nfree sb view := (size (free_blocks sb view)).

(** The disk with the bit of [b] set to [v]. *)
Definition mark (sb : superblock) (view : disk) (b : Z) (v : bool) : disk :=
  let x := map_byte sb view b in
  let m := Z.shiftl 1 (b mod 8) in
  apply_write view (BBLOCK b sb, <[byte_of b := if v then Z.lor x m else Z.land x (Z.lnot m)]> (view (BBLOCK b sb))).

(** The disk after the allocation of [f]. *)
Definition alloc (sb : superblock) (view : disk) (f : Z) : disk := apply_write (mark sb view f true) (f, zero_block).

Lemma elem_of_free sb view b : b ∈ free_blocks sb view <-> 0 <= b < sb_size sb /\ used sb view b = false.
Proof. unfold free_blocks. rewrite elem_of_list_to_set, list_elem_of_filter, elem_of_zseq. naive_solver lia. Qed.

(** The search of the first free block, the blocks below [b] being in use. *)
Lemma first_free_from sb view k b :
  0 <= b -> b + Z.of_nat k = sb_size sb -> (forall b', 0 <= b' < b -> used sb view b' = true) ->
  exists f, first_free sb view f.
Proof.
  revert b. induction k as [|k IH]; intros b Hb Hk Hu.
  - exists (sb_size sb). split; [lia|intros; apply Hu; lia|lia].
  - destruct (used sb view b) eqn:E; [|exists b; by split; [lia|..]].
    apply (IH (b + 1)); [lia|lia|]. intros b' Hb'. destruct (decide (b' = b)) as [->|]; [done|]. apply Hu. lia.
Qed.

Lemma first_free_exists sb view :
  0 <= sb_size sb -> (0 < nfree sb view)%nat -> exists f, first_free sb view f /\ f < sb_size sb.
Proof.
  intros H Hn. destruct (first_free_from sb view (Z.to_nat (sb_size sb)) 0) as (f & Hf); [lia..|].
  exists f. split; [done|]. destruct (decide (f < sb_size sb)) as [|Hge]; [done|].
  destruct (size_pos_elem_of _ Hn) as (b & [Hb Hu]%elem_of_free). destruct Hf as [Hr Hbel _]. rewrite Hbel in Hu by lia. done.
Qed.

Lemma land_bit x k : 0 <= k -> (Z.land x (Z.shiftl 1 k) =? 0) = negb (Z.testbit x k).
Proof.
  intros Hk. rewrite Z.shiftl_1_l. destruct (Z.testbit x k) eqn:E; cbn.
  - apply Z.eqb_neq. intros E0. apply (f_equal (fun z => Z.testbit z k)) in E0.
    rewrite Z.land_spec, Z.pow2_bits_true, E, Z.bits_0 in E0 by done. done.
  - apply Z.eqb_eq, Z.bits_inj'. intros j Hj. rewrite Z.land_spec, Z.bits_0.
    destruct (decide (j = k)) as [->|Hne]; [by rewrite E|]. rewrite Z.pow2_bits_false by done. apply andb_false_r.
Qed.

Lemma testbit_set x k j : 0 <= k -> 0 <= j ->
  Z.testbit (Z.lor x (Z.shiftl 1 k)) j = (if decide (j = k) then true else Z.testbit x j).
Proof.
  intros Hk Hj. rewrite Z.lor_spec, Z.shiftl_1_l. case_decide as E.
  - subst. rewrite Z.pow2_bits_true by done. apply orb_true_r.
  - rewrite Z.pow2_bits_false by done. apply orb_false_r.
Qed.

Lemma testbit_clear x k j : 0 <= k -> 0 <= j ->
  Z.testbit (Z.land x (Z.lnot (Z.shiftl 1 k))) j = (if decide (j = k) then false else Z.testbit x j).
Proof.
  intros Hk Hj. rewrite Z.land_spec, Z.lnot_spec, Z.shiftl_1_l by done. case_decide as E.
  - subst. rewrite Z.pow2_bits_true by done. apply andb_false_r.
  - rewrite Z.pow2_bits_false by done. apply andb_true_r.
Qed.

(** Two bits in the same byte of the same bitmap block. *)
Lemma same_byte sb b b' :
  0 <= b -> 0 <= b' -> BBLOCK b sb = BBLOCK b' sb -> byte_of b = byte_of b' -> b mod 8 = b' mod 8 -> b = b'.
Proof. unfold BBLOCK, byte_of, BPB. intros. divlia. Qed.

Section alloc.
Context (i : nat) (start lsize : Z) (b0 : bst) (cap : nat) (sb : superblock).

Abbreviation in_txn := (in_txn i start lsize b0 cap).
Abbreviation fs_block := (fs_block start lsize).

(** A block for the contents of files: behind the boot block and the super block, and
    not of the log, the bitmap or the inodes. *)
Record data_block (b : Z) : Prop := {
  db_fs : fs_block b;
  db_low : 1 < b < sb_size sb;
  db_map : forall b', 0 <= b' < sb_size sb -> b <> BBLOCK b' sb;
  db_inode : forall inum, 0 <= inum < sb_ninodes sb -> b <> IBLOCK inum sb;
}.

(** The bitmap covers the blocks below sb.size and its blocks are whole; what it
    shows as free are blocks of files. *)
Record bitmap_ok (view : disk) : Prop := {
  bo_size : 0 <= sb_size sb < 2 ^ 31;
  bo_map : forall b, 0 <= b < sb_size sb -> fs_block (BBLOCK b sb);
  bo_len : forall b, 0 <= b < sb_size sb -> length (view (BBLOCK b sb)) = 1024%nat;
  bo_free : forall b, 0 <= b < sb_size sb -> used sb view b = false -> data_block b;
}.

Lemma byte_of_lt b : (byte_of b < 1024)%nat.
Proof. unfold byte_of, BPB. divlia. Qed.

Lemma used_mark view b b' v :
  bitmap_ok view -> 0 <= b < sb_size sb -> 0 <= b' < sb_size sb ->
  used sb (mark sb view b v) b' = if decide (b' = b) then v else used sb view b'.
Proof.
  intros Hok Hb Hb'. unfold used, map_byte, mark, apply_write. cbn [fst snd].
  pose proof (Z.mod_pos_bound b 8 eq_refl). pose proof (Z.mod_pos_bound b' 8 eq_refl).
  destruct (decide (BBLOCK b' sb = BBLOCK b sb)) as [E|E].
  2: { rewrite decide_False by congruence. done. }
  rewrite E. destruct (decide (byte_of b' = byte_of b)) as [Ek|Ek].
  2: { rewrite list_lookup_insert_ne by congruence. rewrite decide_False by congruence. done. }
  rewrite Ek, list_lookup_insert_eq by (rewrite (bo_len _ Hok) by done; apply byte_of_lt). cbn [default from_option id].
  assert (b' mod 8 = b mod 8 <-> b' = b) as Hiff by (split; [apply (same_byte sb); lia || done|by intros ->]).
  destruct v; [rewrite testbit_set by lia|rewrite testbit_clear by lia];
    (rewrite (decide_ext _ _ _ _ Hiff); case_decide as Eb; [done|]); done.
Qed.

Lemma mark_other view b v blk : blk <> BBLOCK b sb -> mark sb view b v blk = view blk.
Proof. intros E. unfold mark, apply_write. cbn [fst snd]. by rewrite decide_False by congruence. Qed.

Lemma length_mark view b v blk : length (mark sb view b v blk) = length (view blk).
Proof. unfold mark, apply_write. cbn [fst snd]. case_decide as E; [|done]. rewrite length_insert. by subst. Qed.

Lemma bitmap_ok_mark view b v :
  bitmap_ok view -> 0 <= b < sb_size sb -> data_block b -> bitmap_ok (mark sb view b v).
Proof.
  intros Hok Hb Hd. split; [apply Hok|apply Hok|..].
  - intros b' Hb'. rewrite length_mark. by apply Hok.
  - intros b' Hb'. rewrite (used_mark view) by done. case_decide as E; [by subst|by apply Hok].
Qed.

(** What is not in the bitmap may change. *)
Definition off_map (blk : Z) : Prop := forall b, 0 <= b < sb_size sb -> blk <> BBLOCK b sb.

Lemma data_off_map blk : data_block blk -> off_map blk.
Proof. intros Hd b. apply (db_map _ Hd). Qed.

Lemma used_write view blk d b :
  0 <= b < sb_size sb -> off_map blk -> used sb (apply_write view (blk, d)) b = used sb view b.
Proof.
  intros Hb Hd. unfold used, map_byte, apply_write. cbn [fst snd]. rewrite decide_False; [done|]. intros E. by apply (Hd b).
Qed.

Lemma free_write view blk d : off_map blk -> free_blocks sb (apply_write view (blk, d)) = free_blocks sb view.
Proof.
  intros Hd. apply set_eq. intros b. rewrite !elem_of_free.
  split; intros [Hb Hu]; (split; [done|]); [by rewrite used_write in Hu|by rewrite used_write].
Qed.

Lemma bitmap_ok_write view blk d : bitmap_ok view -> off_map blk -> bitmap_ok (apply_write view (blk, d)).
Proof.
  intros Hok Hd. split; [apply Hok|apply Hok|..].
  - intros b Hb. unfold apply_write. cbn [fst snd]. rewrite decide_False; [by apply Hok|].
    intros E. by apply (Hd b).
  - intros b Hb. rewrite used_write by done. by apply Hok.
Qed.

(** The disk after the allocation of a free block. *)
Lemma alloc_data view f : bitmap_ok view -> 0 <= f < sb_size sb -> used sb view f = false -> data_block f.
Proof. intros Hok Hf Hu. by apply (bo_free _ Hok). Qed.

Lemma used_alloc view f b :
  bitmap_ok view -> 0 <= f < sb_size sb -> used sb view f = false -> 0 <= b < sb_size sb ->
  used sb (alloc sb view f) b = bool_decide (b = f) || used sb view b.
Proof.
  intros Hok Hf Hu Hb. unfold alloc. rewrite used_write by eauto using alloc_data, data_off_map.
  rewrite (used_mark view) by done. case_decide as E; [by rewrite bool_decide_true|by rewrite bool_decide_false].
Qed.

Lemma bitmap_ok_alloc view f :
  bitmap_ok view -> 0 <= f < sb_size sb -> used sb view f = false -> bitmap_ok (alloc sb view f).
Proof. intros Hok Hf Hu. pose proof (alloc_data view f Hok Hf Hu) as Hd. apply bitmap_ok_write; [by apply bitmap_ok_mark|by apply data_off_map]. Qed.

Lemma nfree_alloc view f :
  bitmap_ok view -> 0 <= f < sb_size sb -> used sb view f = false -> nfree sb view = S (nfree sb (alloc sb view f)).
Proof.
  intros Hok Hf Hu. assert (free_blocks sb view = {[f]} ∪ free_blocks sb (alloc sb view f)) as ->.
  { apply set_eq. intros b. rewrite elem_of_union, elem_of_singleton, !elem_of_free. destruct (decide (b = f)) as [->|Hne]; [by naive_solver|].
    split.
    - intros [Hb E]. right. rewrite used_alloc, E, bool_decide_false by done. done.
    - intros [?|[Hb E]]; [done|]. rewrite used_alloc, bool_decide_false in E by done. done. }
  rewrite size_union, size_singleton; [done|]. intros b Hb%elem_of_singleton [_ E]%elem_of_free. subst.
  rewrite used_alloc, bool_decide_true in E by done. done.
Qed.

Lemma alloc_zero view f : alloc sb view f f = zero_block.
Proof. unfold alloc, apply_write. cbn. by rewrite decide_True. Qed.

Lemma alloc_other view f blk : blk <> f -> blk <> BBLOCK f sb -> alloc sb view f blk = view blk.
Proof. intros E1 E2. unfold alloc, apply_write at 1. cbn. rewrite decide_False by done. by apply mark_other. Qed.

Lemma set_set_l l l' s : set_fs_l l' (set_fs_l l s) = set_fs_l l' s.
Proof. done. Qed.

Lemma wp_bzero s L view H blk (Q : unit -> fsst -> Prop) :
  in_txn s L view H -> fs_block blk -> H !! blk = None -> (size H < 4)%nat ->
  (size ({[blk]} ∪ L) <= cap)%nat ->
  (forall l', in_txn (set_fs_l l' s) ({[blk]} ∪ L) (apply_write view (blk, zero_block)) H -> Q tt (set_fs_l l' s)) ->
  wp (bzero 1 blk) Q s.
Proof.
  intros Hs Hb HH Hn Hc HQ. unfold bzero. bstep. eapply wp_fs_bread; [done..|]. intros a l1 H1.
  bstep. eapply wp_fs_setdata; [exact H1|apply lookup_insert_eq|]. intros l2 H2.
  bstep. eapply wp_fs_log_write; [exact H2|apply lookup_insert_eq|apply Hb|done|]. intros l3 H3.
  eapply wp_fs_brelse; [exact H3|apply lookup_insert_eq|]. intros l4 H4.
  rewrite delete_insert_id in H4 by done. by apply HQ.
Qed.

(** bfree of a block in use. *)
Lemma wp_bfree s L view H b (Q : unit -> fsst -> Prop) :
  in_txn s L view H -> fs_sb s = sb -> bitmap_ok view -> 0 <= b < sb_size sb -> used sb view b = true ->
  H !! BBLOCK b sb = None -> (size H < 4)%nat -> (size ({[BBLOCK b sb]} ∪ L) <= cap)%nat ->
  (forall l', in_txn (set_fs_l l' s) ({[BBLOCK b sb]} ∪ L) (mark sb view b false) H -> Q tt (set_fs_l l' s)) ->
  wp (bfree 1 b) Q s.
Proof.
  intros Hs Esb Hok Hb Hu HH Hn Hc HQ. pose proof (bo_map _ Hok b Hb) as Hm. unfold bfree.
  bstep. bstep. rewrite Esb. bstep. eapply wp_fs_bread; [done..|]. intros a l1 H1.
  bstep. eapply wp_fs_data; [exact H1|apply lookup_insert_eq|].
  replace (b mod BPB mod 8) with (b mod 8) by (unfold BPB; divlia). fold (byte_of b). fold (map_byte sb view b).
  rewrite land_bit by (apply Z.mod_pos_bound; done). fold (used sb view b). rewrite Hu. cbn [negb].
  bstep. eapply wp_fs_setdata; [exact H1|apply lookup_insert_eq|]. intros l2 H2.
  bstep. eapply wp_fs_log_write; [exact H2|apply lookup_insert_eq|apply Hm|done|]. intros l3 H3.
  eapply wp_fs_brelse; [exact H3|apply lookup_insert_eq|]. intros l4 H4.
  rewrite delete_insert_id in H4 by done. by apply HQ.
Qed.

(** *** The loops of balloc, when [f] is the first free block *)

Section scan.
Context (s : fsst) (L : gset Z) (view : disk) (H : gmap Z nat) (f : Z).
Hypothesis Hok : bitmap_ok view.
Hypothesis Hf : first_free sb view f.
Hypothesis HHmap : forall b, 0 <= b < sb_size sb -> H !! BBLOCK b sb = None.
Hypothesis HHf : f < sb_size sb -> H !! f = None.
Hypothesis Hn : (size H < 3)%nat.
Hypothesis Hc : f < sb_size sb -> (size ({[f; BBLOCK f sb]} ∪ L) <= cap)%nat.

Definition allocated (r : Z) (s' : fsst) : Prop :=
  r = f /\ f < sb_size sb /\ exists l', s' = set_fs_l l' s /\
    in_txn s' ({[f; BBLOCK f sb]} ∪ L) (alloc sb view f) H.

(** The bit of block [b + bi] in the bitmap block of [b]. *)
Lemma bit_in_block b bi : b mod BPB = 0 -> 0 <= bi < BPB ->
  BBLOCK (b + bi) sb = BBLOCK b sb /\ byte_of (b + bi) = Z.to_nat (bi / 8) /\ (b + bi) mod 8 = bi mod 8.
Proof. unfold BBLOCK, byte_of, BPB. intros. split_and!; divlia. Qed.

Lemma wp_take_bit b bi a l (Q : option Z -> fsst -> Prop) :
  0 <= b -> b mod BPB = 0 -> 0 <= bi < BPB -> b + bi = f -> f < sb_size sb ->
  in_txn (set_fs_l l s) L view (<[BBLOCK b sb := a]> H) ->
  (forall s', allocated f s' -> Q (Some f) s') ->
  wp (let m := Z.shiftl 1 (bi mod 8) in
      let k := Z.to_nat (bi / 8) in
      d ← ↑ bdata a;
      let x := default 0 (d !! k) in
      if Z.land x m =? 0 then
        ↑ set_bdata a (<[k := Z.lor x m]> d);;
        ↑ log_write a;;
        ↑ brelse a;;
        bzero 1 (b + bi);;
        mret (Some (b + bi))
      else mret None) Q (set_fs_l l s).
Proof.
  pose proof (ff_range _ _ _ Hf). intros Hb0 Hb Hbi Ef Hlt Ht HQ. destruct (bit_in_block b bi Hb Hbi) as (E1 & E2 & E3).
  destruct (bo_free _ Hok f ltac:(lia) (ff_free _ _ _ Hf Hlt)) as [Hfb _ Hnm _]. rewrite Ef in *.
  pose proof (HHmap f ltac:(lia)) as HHm. pose proof (bo_map _ Hok f ltac:(lia)) as Hm. rewrite <- E1 in *.
  cbv zeta. bstep. eapply wp_fs_data; [exact Ht|apply lookup_insert_eq|].
  rewrite land_bit by (apply Z.mod_pos_bound; done). rewrite <- E2, <- E3.
  change (Z.testbit _ (f mod 8)) with (used sb view f). rewrite (ff_free _ _ _ Hf Hlt). cbn [negb].
  assert (size ({[BBLOCK f sb]} ∪ L) <= cap)%nat as Hc1 by (etrans; [|exact (Hc Hlt)]; apply subseteq_size; set_solver).
  bstep. eapply wp_fs_setdata; [exact Ht|apply lookup_insert_eq|]. intros l2 H2.
  bstep. eapply wp_fs_log_write; [exact H2|apply lookup_insert_eq|apply Hm|done|]. intros l3 H3.
  bstep. eapply wp_fs_brelse; [exact H3|apply lookup_insert_eq|]. intros l4 H4.
  rewrite delete_insert_id in H4 by done. rewrite !set_set_l in *.
  bstep. eapply wp_bzero; [exact H4|done|auto|lia|rewrite (assoc_L (∪)); auto|].
  intros l5 H5. rewrite (assoc_L (∪)) in H5. bstep. apply HQ.
  split; [done|]. split; [done|]. exists l5. by split.
Qed.

Lemma wp_scan_block b a l (Q : option Z -> fsst -> Prop) :
  0 <= b < sb_size sb -> b mod BPB = 0 -> b <= f ->
  in_txn (set_fs_l l s) L view (<[BBLOCK b sb := a]> H) ->
  (forall s', allocated f s' -> Q (Some f) s') ->
  (forall l', in_txn (set_fs_l l' s) L view (<[BBLOCK b sb := a]> H) ->
     b + Z.min BPB (sb_size sb - b) <= f -> Q None (set_fs_l l' s)) ->
  wp (for_range 0 (Z.min BPB (sb_size sb - b)) 1 (fun bi =>
      let m := Z.shiftl 1 (bi mod 8) in
      let k := Z.to_nat (bi / 8) in
      d ← ↑ bdata a;
      let x := default 0 (d !! k) in
      if Z.land x m =? 0 then
        ↑ set_bdata a (<[k := Z.lor x m]> d);;
        ↑ log_write a;;
        ↑ brelse a;;
        bzero 1 (b + bi);;
        mret (Some (b + bi))
      else mret None)) Q (set_fs_l l s).
Proof.
  pose proof (ff_range _ _ _ Hf). intros Hb Hbm Hbf Ht HQ HQn.
  apply (wp_for_range (fun bi s1 => b + bi <= f /\ exists l1, s1 = set_fs_l l1 s /\
    in_txn s1 L view (<[BBLOCK b sb := a]> H))); [lia|split; [lia|by exists l]|..].
  - intros bi s1 Hbi _ (Hle & l1 & -> & H1). assert (0 <= bi < BPB) as Hbi' by lia.
    destruct (decide (b + bi = f)) as [Ef|Ene].
    { eapply wp_take_bit; [lia|done|done|done|lia|exact H1|done]. }
    destruct (bit_in_block b bi Hbm Hbi') as (E1 & E2 & E3).
    cbv zeta. bstep. eapply wp_fs_data; [exact H1|apply lookup_insert_eq|].
    rewrite land_bit by (apply Z.mod_pos_bound; done). rewrite <- E1, <- E2, <- E3.
    change (Z.testbit _ ((b + bi) mod 8)) with (used sb view (b + bi)). rewrite (ff_below _ _ _ Hf) by lia. cbn [negb].
    bstep. split; [lia|]. exists l1. by rewrite E1.
  - intros bi s1 _ Hbi _ (Hle & l1 & -> & H1). apply HQn; [done|lia].
Qed.

Lemma wp_balloc_loop l (Q : option Z -> fsst -> Prop) :
  in_txn (set_fs_l l s) L view H ->
  (forall s', allocated f s' -> Q (Some f) s') ->
  (forall s', f = sb_size sb -> Q None s') ->
  wp (for_range 0 (sb_size sb) BPB (fun b =>
    bp ← ↑ bread 1 (BBLOCK b sb);
    r ← for_range 0 (Z.min BPB (sb_size sb - b)) 1 (fun bi =>
      let m := Z.shiftl 1 (bi mod 8) in
      let k := Z.to_nat (bi / 8) in
      d ← ↑ bdata bp;
      let x := default 0 (d !! k) in
      if Z.land x m =? 0 then
        ↑ set_bdata bp (<[k := Z.lor x m]> d);;
        ↑ log_write bp;;
        ↑ brelse bp;;
        bzero 1 (b + bi);;
        mret (Some (b + bi))
      else mret None);
    match r with
    | Some x => mret (Some x)
    | None => ↑ brelse bp;; mret None
    end)) Q (set_fs_l l s).
Proof.
  pose proof (ff_range _ _ _ Hf). intros Ht HQ HQn.
  apply (wp_for_range (fun b s1 => (b <= f \/ f = sb_size sb) /\ exists l1, s1 = set_fs_l l1 s /\
    in_txn s1 L view H)); [done|split; [lia|by exists l]|..].
  - intros b s1 Hb Hbm (Hle & l1 & -> & H1). rewrite Z.sub_0_r in Hbm.
    bstep. eapply wp_fs_bread; [exact H1|by apply (bo_map _ Hok)|by apply HHmap|lia|]. intros a l2 H2.
    rewrite set_set_l in *. bstep. eapply wp_scan_block; [done|done|lia|exact H2|..].
    + intros s3 H3. bstep. by apply HQ.
    + intros l3 H3 Hf3. bstep. eapply wp_fs_brelse; [exact H3|apply lookup_insert_eq|]. intros l4 H4.
      rewrite delete_insert_id in H4 by by apply HHmap. bstep. split; [unfold BPB in *; lia|]. by exists l4.
  - intros b s1 _ Hb _ (Hle & l1 & -> & H1). apply HQn. lia.
Qed.
End scan.

Lemma wp_balloc s L view H f (Q : Z -> fsst -> Prop) :
  in_txn s L view H -> fs_sb s = sb -> bitmap_ok view -> first_free sb view f -> f < sb_size sb ->
  (forall b, 0 <= b < sb_size sb -> H !! BBLOCK b sb = None) -> H !! f = None -> (size H < 3)%nat ->
  (size ({[f; BBLOCK f sb]} ∪ L) <= cap)%nat ->
  (forall l', in_txn (set_fs_l l' s) ({[f; BBLOCK f sb]} ∪ L) (alloc sb view f) H -> Q f (set_fs_l l' s)) ->
  wp (balloc 1) Q s.
Proof.
  intros Ht Esb Hok Hf Hlt HHm HHf Hn Hc HQ. unfold balloc. bstep. bstep. rewrite Esb. bstep.
  destruct s as [l sb' ino]. eapply (wp_balloc_loop (mk_fsst l sb' ino) L view H f) with (l := l); try done.
  - intros s' (_ & _ & l' & -> & H'). bstep. by apply HQ.
  - intros s' E. lia.
Qed.

Lemma balloc_full s L view H :
  in_txn s L view H -> fs_sb s = sb -> bitmap_ok view -> first_free sb view (sb_size sb) ->
  (forall b, 0 <= b < sb_size sb -> H !! BBLOCK b sb = None) -> (size H < 3)%nat ->
  exists s', balloc 1 s = Panic "balloc: out of blocks" s'.
Proof.
  intros Ht Esb Hok Hf HHm Hn. destruct s as [l sb' ino]. unfold balloc, mbind, M_bind, gets.
  rewrite Esb. eassert (wp _ _ _) as Hw.
  { eapply (wp_balloc_loop (mk_fsst l sb' ino) L view H _ Hok Hf HHm) with (l := l) (Q := fun r _ => r = None); [lia|lia|lia|done| |done].
    intros s' (_ & E & _). lia. }
  apply wp_inv in Hw as (r & s' & E & ->). unfold mbind, M_bind, set_fs_l in E. cbn [fs_sb fs_inode] in E.
  rewrite E. by exists s'.
Qed.

Lemma bfree_free s L view H b :
  in_txn s L view H -> fs_sb s = sb -> bitmap_ok view -> 0 <= b < sb_size sb -> used sb view b = false ->
  H !! BBLOCK b sb = None -> (size H < 4)%nat ->
  exists s', bfree 1 b s = Panic "freeing free block" s'.
Proof.
  intros Hs Esb Hok Hb Hu HH Hn. pose proof (bo_map _ Hok b Hb) as Hm.
  assert (wp (↑ bread 1 (BBLOCK b sb)) (fun a s1 => exists L1, in_txn s1 L view (<[BBLOCK b sb := a]> H) /\ s1 = set_fs_l L1 s) s)
    as Hw by (eapply wp_fs_bread; [done..|]; eauto).
  apply wp_inv in Hw as (a & s1 & E1 & l1 & H1 & ->).
  assert (wp (↑ bdata a) (fun d s2 => d = view (BBLOCK b sb) /\ s2 = set_fs_l l1 s) (set_fs_l l1 s)) as Hw
    by (eapply wp_fs_data; [exact H1|apply lookup_insert_eq|done]).
  apply wp_inv in Hw as (d & s2 & E2 & -> & ->).
  exists (set_fs_l l1 s). unfold bfree. erewrite bind_run by done. rewrite Esb. erewrite bind_run by exact E1.
  cbv zeta. erewrite bind_run by exact E2.
  replace (b mod BPB mod 8) with (b mod 8) by (unfold BPB; divlia). fold (byte_of b). fold (map_byte sb view b).
  rewrite land_bit by (apply Z.mod_pos_bound; done). fold (used sb view b). by rewrite Hu.
Qed.
End alloc.

(** ** The theorems *)

(** Balloc returns the first free block of the bitmap, with its contents cleared and
    its bit set, and changes no other bit and no other block; when every block is in
    use it panics. *)
Theorem balloc_correct i start lsize b0 cap sb s L view H f :
  in_txn i start lsize b0 cap s L view H -> fs_sb s = sb -> bitmap_ok start lsize sb view ->
  first_free sb view f ->
  (forall b, 0 <= b < sb_size sb -> H !! BBLOCK b sb = None) -> (size H < 3)%nat ->
  (f < sb_size sb -> H !! f = None /\ (size ({[f; BBLOCK f sb]} ∪ L) <= cap)%nat) ->
  if f <? sb_size sb then
    exists l' view', balloc 1 s = Ret f (set_fs_l l' s) /\
      in_txn i start lsize b0 cap (set_fs_l l' s) ({[f; BBLOCK f sb]} ∪ L) view' H /\
      bitmap_ok start lsize sb view' /\
      (forall b, 0 <= b < sb_size sb -> used sb view' b = bool_decide (b = f) || used sb view b) /\
      view' f = zero_block /\ (forall blk, blk <> f -> blk <> BBLOCK f sb -> view' blk = view blk)
  else exists s', balloc 1 s = Panic "balloc: out of blocks" s'.
Proof.
  intros Ht Esb Hok Hf HHm Hn Hlt. pose proof (ff_range _ _ _ Hf) as Hr. destruct (Z.ltb_spec f (sb_size sb)) as [Hl|Hl].
  - destruct (Hlt Hl) as [HHf Hc]. pose proof (ff_free _ _ _ Hf Hl) as Hu.
    assert (wp (balloc 1) (fun r s' => r = f /\ exists l', s' = set_fs_l l' s /\
      in_txn i start lsize b0 cap s' ({[f; BBLOCK f sb]} ∪ L) (alloc sb view f) H) s) as Hw.
    { eapply wp_balloc; try done. eauto. }
    apply wp_inv in Hw as (r & s' & E & -> & l' & -> & H'). exists l', (alloc sb view f).
    split_and!; [done|done|apply bitmap_ok_alloc; [done|lia|done]| |apply alloc_zero|intros; by apply alloc_other].
    intros b Hb. eapply used_alloc; try done. lia.
  - assert (f = sb_size sb) as -> by lia. by eapply balloc_full.
Qed.

(** Bfree clears the bit of a block that is in use, and changes no other bit and
    nothing outside the bitmap; it panics for a block that is free already. *)
Theorem bfree_correct i start lsize b0 cap sb s L view H b :
  in_txn i start lsize b0 cap s L view H -> fs_sb s = sb -> bitmap_ok start lsize sb view ->
  0 <= b < sb_size sb -> data_block start lsize sb b ->
  H !! BBLOCK b sb = None -> (size H < 4)%nat -> (size ({[BBLOCK b sb]} ∪ L) <= cap)%nat ->
  if used sb view b then
    exists l' view', bfree 1 b s = Ret tt (set_fs_l l' s) /\
      in_txn i start lsize b0 cap (set_fs_l l' s) ({[BBLOCK b sb]} ∪ L) view' H /\
      bitmap_ok start lsize sb view' /\
      (forall b', 0 <= b' < sb_size sb -> used sb view' b' = negb (bool_decide (b' = b)) && used sb view b') /\
      (forall blk, blk <> BBLOCK b sb -> view' blk = view blk)
  else exists s', bfree 1 b s = Panic "freeing free block" s'.
Proof.
  intros Ht Esb Hok Hb Hd HH Hn Hc. destruct (used sb view b) eqn:Hu; [|by eapply bfree_free].
  assert (wp (bfree 1 b) (fun _ s' => exists l', s' = set_fs_l l' s /\
    in_txn i start lsize b0 cap s' ({[BBLOCK b sb]} ∪ L) (mark sb view b false) H) s) as Hw.
  { eapply wp_bfree; try done. eauto. }
  apply wp_inv in Hw as ([] & s' & E & l' & -> & H'). exists l', (mark sb view b false).
  split_and!; [done|done|by apply bitmap_ok_mark| |intros; by apply mark_other].
  intros b' Hb'. erewrite used_mark by done. case_decide as Eb; [by rewrite bool_decide_true|by rewrite bool_decide_false].
Qed.

(** *** Examples *)

(** An image of mkfs: the log in blocks 2 to 31, the inodes in blocks 32 to 44, the
    bitmap in block 45, blocks 46 to 999 for files.  There is a file, inode 5, with
    the contents "hello" in block 46, and a directory, inode 1, in block 47. *)
Definition demo_sb : superblock := mk_superblock 270729280 1000 954 200 30 2 32 45.
Definition demo_file : inode := mk_inode 1 5 1 true T_FILE 0 0 1 5 (46 :: replicate 12 0).
Definition demo_dir : inode := mk_inode 1 1 1 true T_DIR 0 0 1 48 (47 :: replicate 12 0).
Definition demo_entries : list Z :=
  mk_dirent 1 (strncpy (cstr (str ".")) DIRSIZ) ++ mk_dirent 1 (strncpy (cstr (str "..")) DIRSIZ) ++
  mk_dirent 5 (strncpy (cstr (str "greeting")) DIRSIZ).
Definition demo_inodes : list Z :=
  put_dinode (put_dinode zero_block (dinode_off 5) demo_file) (dinode_off 1) demo_dir.
Definition demo_disk : gmap Z (list Z) :=
  <[32 := demo_inodes]>
  (<[45 := replicate 6 255 ++ replicate 1018 0]>
  (<[46 := str "hello" ++ replicate 1019 0]>
  (<[47 := demo_entries ++ replicate 976 0]> ∅))).
Definition demo_fs : fsst :=
  mk_fsst (set_lg_outstanding 1 (fresh_log demo_disk)) demo_sb [demo_file; demo_dir; inode0].

Definition demo_view : disk := dblock (fresh_cache demo_disk).

Lemma logging_outstanding i start size s bs view refs H x k :
  logging i start size s bs view refs H x -> logging i start size (set_lg_outstanding k s) bs view refs H x.
Proof. intros []. split; try done. by destruct lo_mem. Qed.

Lemma demo_in_txn L : (size L <= 10)%nat -> in_txn 0 2 30 (fresh_cache demo_disk) 10 demo_fs L demo_view ∅.
Proof.
  intros HL. exists [], ∅. 
  split_and!; [|by intros y []%not_elem_of_nil|done|unfold fits, NBUF; lia|reflexivity|apply evolves_refl].
  apply (logging_outstanding 0 2 30 (fresh_log demo_disk)), fresh_log_idle. reflexivity.
Qed.

Lemma demo_used b : used demo_sb demo_view b = used demo_sb (fun x => default zero_block (demo_disk !! x)) b.
Proof. unfold used, map_byte, demo_view. by rewrite fresh_cache_disk. Qed.

Lemma demo_bits b : 0 <= b < 1000 -> used demo_sb demo_view b = (b <? 48).
Proof.
  intros Hb. rewrite demo_used. apply eqb_prop.
  assert (forallb (fun b => Bool.eqb (used demo_sb (fun x => default zero_block (demo_disk !! x)) b) (b <? 48))
    (zseq 0 1000) = true) as HF by (vm_compute; reflexivity).
  rewrite forallb_forall in HF. apply HF, list_elem_of_In, elem_of_zseq. lia.
Qed.

Lemma demo_data b : 46 <= b < 1000 -> data_block 2 30 demo_sb b.
Proof.
  intros Hb. split.
  - split; unfold in_log; lia.
  - cbn. lia.
  - intros b'. unfold BBLOCK, BPB. cbn. divlia.
  - intros inum. unfold IBLOCK, IPB. cbn. divlia.
Qed.

Lemma demo_bitmap : bitmap_ok 2 30 demo_sb demo_view.
Proof.
  assert (forall b, 0 <= b < 1000 -> BBLOCK b demo_sb = 45) as EB.
  { intros b Hb. unfold BBLOCK, BPB, demo_sb. cbn [sb_bmapstart]. divlia. }
  split; cbn [demo_sb sb_size]; [lia|..].
  - intros b Hb. rewrite EB by done. split; unfold in_log; lia.
  - intros b Hb. rewrite EB by done. unfold demo_view. rewrite fresh_cache_disk. reflexivity.
  - intros b Hb. rewrite demo_bits by done. intros Hu%Z.ltb_ge. apply demo_data. lia.
Qed.

Lemma demo_first : first_free demo_sb demo_view 48.
Proof.
  split; cbn [demo_sb sb_size]; [lia|..].
  - intros b Hb. rewrite demo_bits by lia. apply Z.ltb_lt. lia.
  - intros _. by rewrite demo_bits.
Qed.

Lemma balloc_correct_witness :
  exists l' view', balloc 1 demo_fs = Ret 48 (set_fs_l l' demo_fs) /\
    in_txn 0 2 30 (fresh_cache demo_disk) 10 (set_fs_l l' demo_fs) ({[48; BBLOCK 48 demo_sb]} ∪ ∅) view' ∅ /\
    bitmap_ok 2 30 demo_sb view' /\
    (forall b, 0 <= b < 1000 -> used demo_sb view' b = bool_decide (b = 48) || used demo_sb demo_view b) /\
    view' 48 = zero_block /\ (forall blk, blk <> 48 -> blk <> BBLOCK 48 demo_sb -> view' blk = demo_view blk).
Proof.
  apply (balloc_correct 0 2 30 (fresh_cache demo_disk) 10 demo_sb demo_fs ∅ demo_view ∅ 48).
  - apply demo_in_txn. vm_compute. lia.
  - reflexivity.
  - exact demo_bitmap.
  - exact demo_first.
  - intros. apply lookup_empty.
  - vm_compute. lia.
  - intros _. split; [apply lookup_empty|vm_compute; lia].
Defined.

Lemma bfree_correct_witness :
  exists l' view', bfree 1 46 demo_fs = Ret tt (set_fs_l l' demo_fs) /\
    in_txn 0 2 30 (fresh_cache demo_disk) 10 (set_fs_l l' demo_fs) ({[BBLOCK 46 demo_sb]} ∪ ∅) view' ∅ /\
    bitmap_ok 2 30 demo_sb view' /\
    (forall b', 0 <= b' < 1000 -> used demo_sb view' b' = negb (bool_decide (b' = 46)) && used demo_sb demo_view b') /\
    (forall blk, blk <> BBLOCK 46 demo_sb -> view' blk = demo_view blk).
Proof.
  assert (used demo_sb demo_view 46 = true) as Hu by by rewrite demo_bits.
  pose proof (bfree_correct 0 2 30 (fresh_cache demo_disk) 10 demo_sb demo_fs ∅ demo_view ∅ 46) as Hw.
  rewrite Hu in Hw. apply Hw.
  - apply demo_in_txn. vm_compute. lia.
  - reflexivity.
  - exact demo_bitmap.
  - cbn. lia.
  - apply demo_data. lia.
  - apply lookup_empty.
  - vm_compute. lia.
  - vm_compute. lia.
Defined.
