(* ===== verification/FsProofs.v ===== *)
(** * Theorems on the formats of the file system: inodes and paths

    [dinode_roundtrip]: what iupdate writes of an inode is what ilock reads, and
    the other inodes of the block keep their contents.  [namex_elements]: namex
    walks along the elements of the path, defined by splitting it at the slashes,
    and its loop ends. *)

From Stdlib Require Import ZArith Lia.
From stdpp Require Import base list gmap strings.
From S2P Require Import Prelude KString Spinlock Riscv Kalloc Vm Proc Sleeplock Bio Log Fs.

(** ** Disk inodes *)

(** The fields of an inode have the types of struct inode. *)
Record inode_wf (x : inode) : Prop := {
  iw_type : - 2 ^ 15 <= i_type x < 2 ^ 15;
  iw_major : - 2 ^ 15 <= i_major x < 2 ^ 15;
  iw_minor : - 2 ^ 15 <= i_minor x < 2 ^ 15;
  iw_nlink : - 2 ^ 15 <= i_nlink x < 2 ^ 15;
  iw_size : is_u32 (i_size x);
  iw_addrs : length (i_addrs x) = 13%nat;
  iw_addr : Forall is_u32 (i_addrs x);
}.

(** The in-memory part of [y] with the disk part of [x]. *)
Definition with_disk (x y : inode) : inode :=
  mk_inode (i_dev y) (i_inum y) (i_ref y) (i_valid y)
    (i_type x) (i_major x) (i_minor x) (i_nlink x) (i_size x) (i_addrs x).

Lemma get_put_short d o v :
  - 2 ^ 15 <= v < 2 ^ 15 -> (o + 2 <= length d)%nat -> get_short (put_short d o v) o = v.
Proof.
  intros Hv Ho. unfold get_short, put_short. rewrite get_put_le by done.
  change (256 ^ Z.of_nat 2) with (2 ^ 16). unfold i16. divlia.
Qed.

Lemma get_put_uint d o v : is_u32 v -> (o + 4 <= length d)%nat -> get_uint (put_uint d o v) o = v.
Proof. intros Hv Ho. unfold get_uint, put_uint. rewrite get_put_le by done. by apply Z.mod_small. Qed.

Lemma length_put_uints d o vs : length (put_uints d o vs) = length d.
Proof.
  revert d o. induction vs as [|v vs IH]; intros; cbn [put_uints]; [done|].
  rewrite IH. apply length_put_le.
Qed.

Lemma put_uints_lookup_ne d o vs i :
  ~ (o <= i < o + 4 * length vs)%nat -> put_uints d o vs !! i = d !! i.
Proof.
  revert d o. induction vs as [|v vs IH]; intros d o Hi; cbn [put_uints length] in *; [done|].
  rewrite IH by lia. apply put_le_lookup_ne. lia.
Qed.

Lemma get_put_uints d o vs :
  Forall is_u32 vs -> (o + 4 * length vs <= length d)%nat ->
  get_uints (put_uints d o vs) o (length vs) = vs.
Proof.
  intros Hv. revert d o. induction Hv as [|v vs Hv _ IH]; intros d o Hl; cbn [put_uints get_uints length] in *; [done|].
  f_equal.
  - transitivity (get_uint (put_uint d o v) o); [|apply get_put_uint; [done|lia]].
    apply get_le_ext. intros i Hi. apply put_uints_lookup_ne. lia.
  - apply IH. unfold put_uint. rewrite length_put_le. lia.
Qed.

Lemma length_put_dinode d o x : length (put_dinode d o x) = length d.
Proof. unfold put_dinode, put_short, put_uint. by rewrite length_put_uints, !length_put_le. Qed.

Lemma put_dinode_lookup_ne d o x i :
  length (i_addrs x) = 13%nat -> ~ (o <= i < o + 64)%nat -> put_dinode d o x !! i = d !! i.
Proof.
  intros Hl Hi. unfold put_dinode, put_short, put_uint.
  rewrite put_uints_lookup_ne by lia. by rewrite !put_le_lookup_ne by lia.
Qed.

Lemma get_uints_ext d d' o n :
  (forall i, (o <= i < o + 4 * n)%nat -> d !! i = d' !! i) -> get_uints d o n = get_uints d' o n.
Proof.
  revert o. induction n as [|n IH]; intros o H; cbn [get_uints]; [done|].
  f_equal; [apply get_le_ext|apply IH]; intros; apply H; lia.
Qed.

Lemma get_dinode_ext d d' o y :
  (forall i, (o <= i < o + 64)%nat -> d !! i = d' !! i) -> get_dinode d o y = get_dinode d' o y.
Proof.
  intros H. unfold get_dinode, get_short, get_uint.
  rewrite (get_uints_ext d d') by (intros; apply H; lia).
  rewrite 5!(get_le_ext _ d d') by (intros; apply H; lia). done.
Qed.

Lemma get_put_dinode d o x y :
  inode_wf x -> (o + 64 <= length d)%nat -> get_dinode (put_dinode d o x) o y = with_disk x y.
Proof.
  intros [H1 H2 H3 H4 H5 H6 H7] Hl. unfold get_dinode, with_disk, put_dinode.
  set (d1 := put_short d o _). set (d2 := put_short d1 _ _). set (d3 := put_short d2 _ _).
  set (d4 := put_short d3 _ _). set (d5 := put_uint d4 _ _).
  assert (length d5 = length d) as Hd.
  { unfold d5, d4, d3, d2, d1, put_short, put_uint. by rewrite !length_put_le. }
  assert (forall w k, (k + w <= 12 + o)%nat ->
    get_le w (put_uints d5 (12 + o) (i_addrs x)) k = get_le w d5 k) as Hu.
  { intros w k Hk. apply get_le_ext. intros i Hi. apply put_uints_lookup_ne. lia. }
  assert (length d1 = length d /\ length d2 = length d /\ length d3 = length d /\ length d4 = length d)
    as (E1 & E2 & E3 & E4).
  { unfold d4, d3, d2, d1, put_short. by rewrite !length_put_le. }
  unfold get_short, get_uint. rewrite <- H6, get_put_uints, !Hu by (done || lia).
  assert (get_le 4 d5 (8 + o) = i_size x) as -> by (apply get_put_uint; [done|lia]).
  unfold d5, put_uint. rewrite !(get_put_le_ne 2 4 d4) by lia.
  assert (i16 (get_le 2 d4 (6 + o)) = i_nlink x) as -> by (apply get_put_short; [done|lia]).
  unfold d4, put_short. rewrite !(get_put_le_ne 2 2 d3) by lia.
  assert (i16 (get_le 2 d3 (4 + o)) = i_minor x) as -> by (apply get_put_short; [done|lia]).
  unfold d3, put_short. rewrite !(get_put_le_ne 2 2 d2) by lia.
  assert (i16 (get_le 2 d2 (2 + o)) = i_major x) as -> by (apply get_put_short; [done|lia]).
  unfold d2, put_short. rewrite (get_put_le_ne 2 2 d1) by lia.
  assert (i16 (get_le 2 d1 o) = i_type x) as -> by (apply get_put_short; [done|lia]).
  by destruct y.
Qed.

(** The disk format of inodes is a round trip: in the block where iupdate put
    the inode [inum], ilock reads every field that struct dinode has with the value
    it had in memory, sign included; every other inode of the block reads as
    before. *)
Theorem dinode_roundtrip d inum x :
  inode_wf x -> length d = 1024%nat ->
  let d' := put_dinode d (dinode_off inum) x in
  length d' = 1024%nat /\
  (forall y, get_dinode d' (dinode_off inum) y = with_disk x y) /\
  (forall j y, j mod IPB <> inum mod IPB -> get_dinode d' (dinode_off j) y = get_dinode d (dinode_off j) y).
Proof.
  intros Hx Hd d'. pose proof (Z.mod_pos_bound inum IPB eq_refl) as Hi. unfold IPB in Hi.
  split; [by unfold d'; rewrite length_put_dinode|]. split.
  - intros y. apply get_put_dinode; [done|]. unfold dinode_off, IPB. lia.
  - intros j y Hj. pose proof (Z.mod_pos_bound j IPB eq_refl) as Hj'. apply get_dinode_ext. intros k Hk.
    apply put_dinode_lookup_ne; [apply Hx|]. unfold dinode_off, IPB in *. lia.
Qed.

Definition demo_inode : inode :=
  mk_inode 1 17 1 true T_DEVICE 1 (-1) 1 4096 (600 :: 4294967295 :: replicate 11 0).

Lemma demo_inode_wf : inode_wf demo_inode.
Proof.
  split; [unfold demo_inode; cbn [i_type i_major i_minor i_nlink i_size]; unfold T_DEVICE, is_u32; lia..|done|].
  apply Forall_lookup. intros k x. unfold is_u32.
  do 13 (destruct k as [|k]; [intros [= <-]; lia|]). done.
Qed.

Lemma dinode_roundtrip_witness :
  get_dinode (put_dinode zero_block (dinode_off 17) demo_inode) (dinode_off 17) inode0 =
    with_disk demo_inode inode0 /\
  get_dinode (put_dinode zero_block (dinode_off 17) demo_inode) (dinode_off 18) inode0 =
    get_dinode zero_block (dinode_off 18) inode0.
Proof.
  destruct (dinode_roundtrip zero_block 17 demo_inode demo_inode_wf eq_refl) as (_ & E1 & E2).
  split; [exact (E1 inode0)|apply (E2 18 inode0); by vm_compute].
Defined.

(** ** Paths *)

(** The strings between the slashes of a path. *)
Fixpoint split_path (path : list Z) : list (list Z) :=
  match path with
  | [] => [[]]
  | c :: path' =>
      let es := split_path path' in
      if c =? slash then [] :: es
      else match es with [] => [[c]] | e :: es' => (c :: e) :: es' end
  end.

(** The elements of a path: what is between the slashes and is not empty, of each
    the first DIRSIZ bytes. *)
Definition elements (path : list Z) : list (list Z) :=
  take DIRSIZ <$> filter (fun e => e <> []) (split_path path).

Lemma split_path_cons path : exists e es, split_path path = e :: es.
Proof. destruct path as [|c path]; cbn; [by eauto|]. case_match; [by eauto|]. case_match; by eauto. Qed.

Lemma elements_skip path : elements (skip_slashes path) = elements path.
Proof.
  induction path as [|c path IH]; cbn [skip_slashes]; [done|].
  destruct (c =? slash) eqn:E; [|done]. rewrite IH. unfold elements at 2. cbn [split_path]. by rewrite E.
Qed.

Lemma split_take_elem path e rest :
  take_elem path = (e, rest) ->
  exists es, split_path path = e :: es /\
             filter (fun e => e <> []) es = filter (fun e => e <> []) (split_path rest).
Proof.
  revert e rest. induction path as [|c path IH]; intros e rest; cbn [take_elem split_path].
  { intros [= <- <-]. by exists []. }
  destruct (c =? slash) eqn:Ec.
  { intros [= <- <-]. exists (split_path path). split; [done|]. cbn [split_path]. by rewrite Ec. }
  destruct (take_elem path) as [e' rest']. intros [= <- <-].
  destruct (IH _ _ eq_refl) as (es & -> & E). by exists es.
Qed.

Lemma skip_slashes_head path c s : skip_slashes path = c :: s -> c <> slash.
Proof.
  induction path as [|b path IH]; cbn; [done|].
  destruct (Z.eqb_spec b slash); [done|]. by intros [= <- _].
Qed.

Lemma length_skip_slashes path : (length (skip_slashes path) <= length path)%nat.
Proof. induction path as [|c path IH]; cbn; [done|]. case_match; cbn; lia. Qed.

Lemma length_take_elem path e rest :
  take_elem path = (e, rest) -> (length e + length rest = length path)%nat.
Proof.
  revert e rest. induction path as [|c path IH]; intros e rest; cbn.
  { by intros [= <- <-]. }
  case_match; [by intros [= <- <-]|]. destruct (take_elem path) as [e' rest'].
  intros [= <- <-]. specialize (IH _ _ eq_refl). cbn. lia.
Qed.

(** skipelem takes the first element off the path, which gets shorter. *)
Lemma skipelem_elements path :
  match skipelem path with
  | None => elements path = []
  | Some (name, rest) =>
      elements path = name :: elements rest /\ (length rest < length path)%nat /\
      skip_slashes rest = rest
  end.
Proof.
  unfold skipelem. pose proof (elements_skip path) as E. pose proof (length_skip_slashes path) as Hl.
  destruct (skip_slashes path) as [|c s] eqn:Es; [by rewrite <- E|].
  destruct (take_elem (c :: s)) as [e rest] eqn:Et.
  pose proof (length_take_elem _ _ _ Et) as Hlen. pose proof (length_skip_slashes rest) as Hr.
  destruct (split_take_elem _ _ _ Et) as (es & E1 & E2).
  assert (e <> []) as He.
  { intros ->. cbn in Et. apply skip_slashes_head in Es. apply Z.eqb_neq in Es. rewrite Es in Et.
    by destruct (take_elem s). }
  split_and!.
  - rewrite <- E, elements_skip. unfold elements. rewrite E1.
    rewrite filter_cons_True by done. by rewrite E2.
  - destruct e; cbn in *; [done|]. lia.
  - clear. induction rest as [|c rest IH]; cbn; [done|]. destruct (c =? slash) eqn:E; [done|]. cbn. by rewrite E.
Qed.

(** The walk of namex along a list of names. *)
Fixpoint walk_names (ip : nat) (es : list (list Z)) (nameiparent : bool) (name : list Z)
    : M fsst (option (nat * list Z)) :=
  match es with
  | [] => if nameiparent then iput ip;; mret None else mret (Some (ip, name))
  | e :: es' =>
      ilock ip;;
      t ← geti ip i_type;
      if negb (t =? T_DIR) then iunlockput ip;; mret None else
      if nameiparent && bool_decide (es' = []) then iunlock ip;; mret (Some (ip, e)) else
      next ← dirlookup ip e;
      match next with
      | None => iunlockput ip;; mret None
      | Some (next, _) => iunlockput ip;; walk_names next es' nameiparent e
      end
  end.

Lemma bind_ext {S A B} (m : M S A) (f g : A -> M S B) s :
  (forall a s, f a s = g a s) -> (m ≫= f) s = (m ≫= g) s.
Proof. intros H. cbn. unfold mbind, M_bind. destruct (m s); auto. Qed.

(** An empty rest means that no element follows. *)
Lemma elements_nil path : skip_slashes path = path -> elements path = [] <-> path = [].
Proof.
  intros Hs. split; [|by intros ->]. intros E. pose proof (skipelem_elements path) as H.
  unfold skipelem in H. rewrite Hs in H. destruct path as [|c path]; [done|].
  destruct (take_elem (c :: path)) as [e rest]. destruct H as [H _]. by rewrite H in E.
Qed.

Lemma namex_loop_elements fuel ip path np name s :
  (length path <= fuel)%nat -> namex_loop fuel ip path np name s = walk_names ip (elements path) np name s.
Proof.
  revert ip path name s. induction fuel as [|fuel IH]; intros ip path name s Hf;
    cbn [namex_loop]; pose proof (skipelem_elements path) as H;
    destruct (skipelem path) as [[e rest]|].
  - lia.
  - by rewrite H.
  - destruct H as (-> & Hl & Hr). cbn [walk_names].
    rewrite <- (bool_decide_ext _ _ (elements_nil rest Hr)).
    apply bind_ext. intros _ s1. apply bind_ext. intros t s2. case_match; [done|]. case_match; [done|].
    apply bind_ext. intros [[next o]|] s3; [|done]. apply bind_ext. intros _ s4. apply IH. lia.
  - by rewrite H.
Qed.

(** C34: namex walks along the elements of its path.  From the root for a path that
    begins with a slash and from the current directory otherwise, namex does in
    every state exactly what the walk along [elements path] does, whatever number
    of slashes separates, precedes or follows the elements; nameiparent stops before
    the last element and returns its name.  In particular the loop ends. *)
Theorem namex_elements path np s :
  namex path np s =
  (ip ← (if bool_decide (head path = Some slash) then iget ROOTDEV ROOTINO
         else
           p ← ↑ curproc;
           cwd ← ↑ getp p p_cwd;
           match cwd with
           | Some ip => idup ip
           | None => panic "kerneltrap"
           end);
   walk_names ip (elements path) np []) s.
Proof. unfold namex. apply bind_ext. intros ip s1. by apply namex_loop_elements. Qed.
