(* ===== verification/FsFile.v ===== *)
(** * The files of kernel/fs.c

    The contents of a file, as the inode and the disk have them: [addr_of] is the block
    that holds block [bn] of the file, 0 if there is none, [owns] the blocks that
    belong to it, and [file_wf] says that the blocks of the file are allocated, distinct
    and blocks for data.  [grows] relates the file before and after bmap has allocated
    blocks for it: what the file and all other files contain is kept. *)

From Stdlib Require Import ZArith Lia.
From stdpp Require Import base list gmap sets strings.
From S2P Require Import Prelude KString Spinlock Riscv Kalloc Vm Proc Sleeplock Bio BioInv BioProofs Log LogSpec LogProofs LogTxn Fs FsTxn FsAlloc FsProofs.

(** ** The blocks of a file *)

Definition ind (x : inode) : Z := default 0 (i_addrs x !! NDIRECT).

Definition addr_of (view : disk) (x : inode) (bn : Z) : Z :=
  if bn <? Z.of_nat NDIRECT then default 0 (i_addrs x !! Z.to_nat bn)
  else if ind x =? 0 then 0
  else get_uint (view (ind x)) (4 * Z.to_nat (bn - Z.of_nat NDIRECT)).

Definition owns (view : disk) (x : inode) (b : Z) : Prop :=
  b <> 0 /\ (b = ind x \/ exists bn, 0 <= bn < MAXFILE /\ addr_of view x bn = b).

(** The blocks up to byte [n] of the file are there. *)
Definition mapped_to (view : disk) (x : inode) (n : Z) : Prop :=
  forall bn, 0 <= bn -> bn * 1024 < n -> addr_of view x bn <> 0.

(** ** The bytes of a file *)

Definition byte_at (view : disk) (x : inode) (k : Z) : Z :=
  default 0 (view (addr_of view x (k / 1024)) !! Z.to_nat (k mod 1024)).
Definition contents (view : disk) (x : inode) : list Z :=
  byte_at view x <$> zseq 0 (Z.to_nat (i_size x)).

Lemma get_le_zero w off : get_le w zero_block off = 0.
Proof.
  revert off. induction w as [|w IH]; intros off; cbn [get_le]; [done|]. rewrite IH.
  destruct (zero_block !! off) as [y|] eqn:E; [|done]. apply lookup_replicate in E as [-> _]. done.
Qed.

Section files.
Context (start lsize : Z) (sb : superblock).

Abbreviation data_block := (data_block start lsize sb).
Abbreviation bitmap_ok := (bitmap_ok start lsize sb).
Abbreviation used := (used sb).

Record file_wf (view : disk) (x : inode) : Prop := {
  fw_dev : i_dev x = 1;
  fw_inum : 0 <= i_inum x < sb_ninodes sb;
  fw_addrs : length (i_addrs x) = 13%nat;
  fw_size : 0 <= i_size x <= MAXFILE * 1024;
  fw_block : forall b, owns view x b -> data_block b /\ used view b = true /\ length (view b) = 1024%nat;
  fw_ind : forall bn, 0 <= bn < MAXFILE -> addr_of view x bn <> 0 -> addr_of view x bn <> ind x;
  fw_inj : forall bn bn', 0 <= bn < MAXFILE -> 0 <= bn' < MAXFILE ->
    addr_of view x bn <> 0 -> addr_of view x bn = addr_of view x bn' -> bn = bn';
}.

(** What is not of the file is kept, and does not become part of it. *)
Definition keeps (view : disk) (x : inode) (view' : disk) (x' : inode) : Prop :=
  forall b, data_block b -> used view b = true -> ~ owns view x b ->
    view' b = view b /\ used view' b = true /\ ~ owns view' x' b.

Record grows (view : disk) (x : inode) (view' : disk) (x' : inode) : Prop := {
  gr_inode : x' = set_i_addrs (i_addrs x') x;
  gr_addr : forall bn, 0 <= bn < MAXFILE -> addr_of view x bn <> 0 ->
    addr_of view' x' bn = addr_of view x bn /\ view' (addr_of view x bn) = view (addr_of view x bn);
  gr_keeps : keeps view x view' x';
  gr_inodes : forall inum, 0 <= inum < sb_ninodes sb -> view' (IBLOCK inum sb) = view (IBLOCK inum sb);
}.

Lemma keeps_trans view1 x1 view2 x2 view3 x3 :
  keeps view1 x1 view2 x2 -> keeps view2 x2 view3 x3 -> keeps view1 x1 view3 x3.
Proof.
  intros H1 H2 b Hd Hu Ho. destruct (H1 b Hd Hu Ho) as (E1 & Hu1 & Ho1).
  destruct (H2 b Hd Hu1 Ho1) as (E2 & Hu2 & Ho2). split_and!; [congruence|done|done].
Qed.

Lemma file_grows_refl view x : grows view x view x.
Proof. split; [by destruct x|done|by intros b|done]. Qed.

Lemma file_grows_trans view1 x1 view2 x2 view3 x3 :
  grows view1 x1 view2 x2 -> grows view2 x2 view3 x3 -> grows view1 x1 view3 x3.
Proof.
  intros [I1 A1 K1 N1] [I2 A2 K2 N2]. split.
  - destruct x1, x2, x3. unfold set_i_addrs in *. cbn in *. congruence.
  - intros bn Hbn Ha. destruct (A1 bn Hbn Ha) as [E1 V1]. rewrite <- E1 in Ha.
    destruct (A2 bn Hbn Ha) as [E2 V2]. rewrite E1 in *. split; congruence.
  - by eapply keeps_trans.
  - intros inum Hi. rewrite N2 by done. by apply N1.
Qed.

(** ** Allocating blocks for a file *)

Lemma owns_addr view x bn : 0 <= bn < MAXFILE -> addr_of view x bn <> 0 -> owns view x (addr_of view x bn).
Proof. intros Hbn Ha. split; [done|right]. by exists bn. Qed.

Lemma owns_ind view x : ind x <> 0 -> owns view x (ind x).
Proof. intros Ha. split; [done|by left]. Qed.

Lemma addr_of_ext view view' x bn : (ind x <> 0 -> view' (ind x) = view (ind x)) -> addr_of view' x bn = addr_of view x bn.
Proof.
  intros E. unfold addr_of. destruct (bn <? Z.of_nat NDIRECT); [done|]. destruct (Z.eqb_spec (ind x) 0); [done|]. by rewrite E.
Qed.

Lemma owns_add view x view' x' bn0 f :
  ind x' = ind x -> addr_of view' x' bn0 = f ->
  (forall bn, 0 <= bn < MAXFILE -> bn <> bn0 -> addr_of view' x' bn = addr_of view x bn) ->
  forall b, owns view' x' b -> b = f \/ owns view x b.
Proof.
  intros Ei Ef Ea b [Hb [->|(bn & Hbn & E)]]; [right; rewrite Ei in *; by apply owns_ind|].
  destruct (decide (bn = bn0)) as [->|Hne]; [left; congruence|right]. rewrite Ea in E by done. subst b. by apply owns_addr.
Qed.

Lemma owns_add_ind view x view' x' g :
  ind x' = g -> (forall bn, 0 <= bn < MAXFILE -> addr_of view' x' bn = addr_of view x bn) ->
  forall b, owns view' x' b -> b = g \/ owns view x b.
Proof.
  intros Ei Ea b [Hb [->|(bn & Hbn & E)]]; [by left|right]. rewrite Ea in E by done. subst b. by apply owns_addr.
Qed.

(** A block [f] that the file did not own becomes its block [bn0]. *)
Lemma file_wf_add view x view' x' bn0 f :
  file_wf view x -> 0 <= bn0 < MAXFILE -> addr_of view x bn0 = 0 ->
  x' = set_i_addrs (i_addrs x') x -> length (i_addrs x') = 13%nat -> ind x' = ind x ->
  addr_of view' x' bn0 = f -> (forall bn, 0 <= bn < MAXFILE -> bn <> bn0 -> addr_of view' x' bn = addr_of view x bn) ->
  data_block f -> used view' f = true -> length (view' f) = 1024%nat -> ~ owns view x f ->
  (forall b, owns view x b -> used view' b = true /\ length (view' b) = 1024%nat) ->
  file_wf view' x'.
Proof.
  intros [] Hbn0 H0 Ex Hl Ei Ef Ea Hd Hu Hlen Hno Hold.
  split; [rewrite Ex; done..|done|rewrite Ex; done| | |].
  - intros b [->|Hb]%(owns_add _ _ _ _ _ _ Ei Ef Ea); [done|]. destruct (fw_block0 b Hb) as (? & _ & _). by destruct (Hold b Hb).
  - intros bn Hbn Hne. rewrite Ei. destruct (decide (bn = bn0)) as [->|Hb].
    + rewrite Ef in *. intros ->. apply Hno. by apply owns_ind.
    + rewrite Ea in * by done. auto.
  - assert (forall bn, 0 <= bn < MAXFILE -> bn <> bn0 -> addr_of view' x' bn = f -> False) as Hf.
    { intros bn Hbn Hne E. rewrite Ea in E by done. apply Hno. rewrite <- E. apply owns_addr; [done|].
      rewrite E. intros ->. by destruct Hd as [_ ? _ _]; lia. }
    intros bn bn' Hbn Hbn' Hne E. destruct (decide (bn = bn0)) as [->|H1], (decide (bn' = bn0)) as [->|H2]; [done| | |].
    + exfalso. apply (Hf bn'); congruence.
    + exfalso. apply (Hf bn); congruence.
    + rewrite !Ea in * by done. auto.
Qed.

(** A block [g] becomes the indirect block of a file that had none. *)
Lemma file_wf_ind view x view' x' g :
  file_wf view x -> ind x = 0 ->
  x' = set_i_addrs (i_addrs x') x -> length (i_addrs x') = 13%nat -> ind x' = g ->
  (forall bn, 0 <= bn < MAXFILE -> addr_of view' x' bn = addr_of view x bn) ->
  data_block g -> used view' g = true -> length (view' g) = 1024%nat -> ~ owns view x g ->
  (forall b, owns view x b -> used view' b = true /\ length (view' b) = 1024%nat) ->
  file_wf view' x'.
Proof.
  intros [] H0 Ex Hl Ei Ea Hd Hu Hlen Hno Hold.
  split; [rewrite Ex; done..|done|rewrite Ex; done| | |].
  - intros b [->|Hb]%(owns_add_ind _ _ _ _ _ Ei Ea); [done|]. destruct (fw_block0 b Hb) as (? & _ & _). by destruct (Hold b Hb).
  - intros bn Hbn Hne E. rewrite Ea in * by done. apply Hno. rewrite <- Ei, <- E. by apply owns_addr.
  - intros bn bn' Hbn Hbn' Hne E. rewrite !Ea in * by done. auto.
Qed.

(** The allocation of a free block [f] leaves the blocks in use as they are. *)
Definition free (view : disk) (f : Z) : Prop := 0 <= f < sb_size sb /\ used view f = false.

Lemma alloc_used view f b :
  bitmap_ok view -> free view f -> data_block b -> used view b = true ->
  b <> f /\ alloc sb view f b = view b /\ used (alloc sb view f) b = true.
Proof.
  intros Hok [Hf Hfu] Hd Hu. pose proof (db_low _ _ _ _ Hd). assert (b <> f) as Hne by congruence.
  split_and!; [done| |].
  - apply alloc_other; [done|]. by apply (db_map _ _ _ _ Hd).
  - erewrite used_alloc; [|done..|lia]. rewrite Hu. apply orb_true_r.
Qed.

Lemma alloc_new view f :
  bitmap_ok view -> free view f ->
  data_block f /\ used (alloc sb view f) f = true /\ length (alloc sb view f f) = 1024%nat.
Proof.
  intros Hok [Hf Hfu]. split_and!; [by eapply alloc_data| |].
  - erewrite used_alloc by done. by rewrite bool_decide_true.
  - rewrite alloc_zero. apply length_replicate.
Qed.

Lemma free_not_owned view x f : file_wf view x -> free view f -> ~ owns view x f.
Proof. intros Hw [_ Hf] (_ & Hu & _)%(fw_block _ _ Hw). congruence. Qed.

Lemma alloc_owned view x f b :
  bitmap_ok view -> file_wf view x -> free view f -> owns view x b ->
  alloc sb view f b = view b /\ used (alloc sb view f) b = true /\ length (alloc sb view f b) = 1024%nat.
Proof.
  intros Hok Hw Hf (Hd & Hu & Hl)%(fw_block _ _ Hw).
  destruct (alloc_used view f b Hok Hf Hd Hu) as (_ & -> & Hu'). done.
Qed.

Lemma alloc_inodes view f inum :
  bitmap_ok view -> free view f -> 0 <= inum < sb_ninodes sb -> IBLOCK inum sb <> BBLOCK f sb ->
  alloc sb view f (IBLOCK inum sb) = view (IBLOCK inum sb).
Proof.
  intros Hok Hf Hi Hne. apply alloc_other; [|done]. destruct (alloc_new view f Hok Hf) as (Hd & _).
  intros E. by apply (db_inode _ _ _ _ Hd inum).
Qed.

(** The super block describes disjoint areas. *)
Hypothesis Hareas : forall inum b, 0 <= inum < sb_ninodes sb -> 0 <= b < sb_size sb -> IBLOCK inum sb <> BBLOCK b sb.

(** A direct block. *)
Lemma grow_direct view x bn f :
  bitmap_ok view -> file_wf view x -> free view f -> 0 <= bn < Z.of_nat NDIRECT -> addr_of view x bn = 0 ->
  let x' := set_i_addrs (<[Z.to_nat bn := f]> (i_addrs x)) x in
  let view' := alloc sb view f in
  file_wf view' x' /\ grows view x view' x' /\ addr_of view' x' bn = f /\
  (forall n, 0 <= n < MAXFILE -> n <> bn -> addr_of view' x' n = addr_of view x n).
Proof.
  intros Hok Hw Hf Hbn H0 x' view'. destruct (alloc_new view f Hok Hf) as (Hd & Hu & Hl).
  assert (ind x' = ind x) as Ei by (unfold ind; cbn; rewrite list_lookup_insert_ne by (unfold NDIRECT in *; lia); done).
  assert (addr_of view' x' bn = f) as Ef.
  { unfold addr_of. rewrite (proj2 (Z.ltb_lt _ _)) by lia. cbn.
    rewrite list_lookup_insert_eq; [done|]. rewrite (fw_addrs _ _ Hw). unfold NDIRECT in *. lia. }
  assert (forall n, 0 <= n < MAXFILE -> n <> bn -> addr_of view' x' n = addr_of view x n) as Ea.
  { intros n Hn Hne. unfold addr_of. rewrite Ei. destruct (n <? Z.of_nat NDIRECT).
    - cbn. rewrite list_lookup_insert_ne by lia. done.
    - destruct (Z.eqb_spec (ind x) 0) as [|Hi]; [done|]. f_equal.
      by apply (alloc_owned view x), owns_ind. }
  split_and!; [|split|done|done].
  - eapply (file_wf_add view x view' x' bn f); try done; [unfold MAXFILE, NDIRECT in *; lia| | |].
    + cbn. rewrite length_insert. apply Hw.
    + by apply free_not_owned.
    + intros b Hb. by apply (alloc_owned view x).
  - done.
  - intros n Hn Ha. assert (n <> bn) by congruence. rewrite Ea by done. split; [done|]. by apply (alloc_owned view x), owns_addr.
  - intros b Hdb Hub Hno. destruct (alloc_used view f b Hok Hf Hdb Hub) as (Hne & E & Hu').
    split_and!; [done..|]. intros [|]%(owns_add _ _ _ _ _ _ Ei Ef Ea); done.
  - intros inum Hi. apply alloc_inodes; try done. apply Hareas; [done|]. apply Hf.
Qed.

(** An indirect block. *)
Lemma grow_ind view x g :
  bitmap_ok view -> file_wf view x -> free view g -> ind x = 0 ->
  let x' := set_i_addrs (<[NDIRECT := g]> (i_addrs x)) x in
  let view' := alloc sb view g in
  file_wf view' x' /\ grows view x view' x' /\ ind x' = g /\
  (forall bn, addr_of view' x' bn = addr_of view x bn).
Proof.
  intros Hok Hw Hf H0 x' view'. destruct (alloc_new view g Hok Hf) as (Hd & Hu & Hl).
  assert (ind x' = g) as Ei.
  { unfold ind. cbn. rewrite list_lookup_insert_eq; [done|]. rewrite (fw_addrs _ _ Hw). unfold NDIRECT. lia. }
  assert (forall n, addr_of view' x' n = addr_of view x n) as Ea.
  { intros n. unfold addr_of. rewrite Ei, H0. destruct (Z.ltb_spec n (Z.of_nat NDIRECT)).
    - cbn. rewrite list_lookup_insert_ne by (unfold NDIRECT in *; lia). done.
    - destruct (Z.eqb_spec g 0) as [|Hi]; [done|]. unfold view'. rewrite alloc_zero. apply get_le_zero. }
  split_and!; [|split| |]; try done.
  - eapply (file_wf_ind view x view' x' g); try done.
    + cbn. rewrite length_insert. apply Hw.
    + by apply free_not_owned.
    + intros b Hb. by apply (alloc_owned view x).
  - intros n Hn Ha. rewrite Ea. split; [done|]. by apply (alloc_owned view x), owns_addr.
  - intros b Hdb Hub Hno. destruct (alloc_used view g b Hok Hf Hdb Hub) as (Hne & E & Hu').
    split_and!; [done..|]. intros [|]%(owns_add_ind view x _ _ _ Ei); done.
  - intros inum Hi. apply alloc_inodes; try done. apply Hareas; [done|]. apply Hf.
Qed.

(** A block whose address is in the indirect block. *)
Lemma entry_addr view x v bn f :
  file_wf view x -> Z.of_nat NDIRECT <= bn < MAXFILE -> ind x <> 0 -> is_u32 f ->
  let view' := apply_write v (ind x, put_uint (view (ind x)) (4 * Z.to_nat (bn - Z.of_nat NDIRECT)) f) in
  addr_of view' x bn = f /\
  (forall n, 0 <= n < MAXFILE -> n <> bn -> addr_of view' x n = addr_of view x n).
Proof.
  intros Hw Hbn Hi Hf view'. destruct (fw_block _ _ Hw _ (owns_ind view x Hi)) as (_ & _ & Hli).
  assert (view' (ind x) = put_uint (view (ind x)) (4 * Z.to_nat (bn - Z.of_nat NDIRECT)) f) as E
    by (unfold view', apply_write; cbn [fst snd]; by rewrite decide_True).
  unfold addr_of. rewrite (proj2 (Z.eqb_neq _ _) Hi), E. split.
  - rewrite (proj2 (Z.ltb_ge _ _)) by lia. apply get_put_uint; [done|]. unfold MAXFILE, NDIRECT in *. lia.
  - intros n Hn Hnb. destruct (Z.ltb_spec n (Z.of_nat NDIRECT)); [done|]. apply get_put_le_ne. lia.
Qed.

Lemma grow_entry view x bn f :
  bitmap_ok view -> file_wf view x -> free view f -> Z.of_nat NDIRECT <= bn < MAXFILE ->
  ind x <> 0 -> addr_of view x bn = 0 ->
  let view' := apply_write (alloc sb view f)
    (ind x, put_uint (view (ind x)) (4 * Z.to_nat (bn - Z.of_nat NDIRECT)) f) in
  file_wf view' x /\ grows view x view' x /\ addr_of view' x bn = f /\ bitmap_ok view' /\ view' f = zero_block /\
  (forall n, 0 <= n < MAXFILE -> n <> bn -> addr_of view' x n = addr_of view x n).
Proof.
  intros Hok Hw Hf Hbn Hi H0 view'. destruct (alloc_new view f Hok Hf) as (Hd & Hu & Hl).
  pose proof (owns_ind view x Hi) as Hoi. destruct (fw_block _ _ Hw _ Hoi) as (Hdi & Hui & Hli).
  destruct (alloc_used view f _ Hok Hf Hdi Hui) as (Hne & _ & _).
  assert (view' f = zero_block) as Ez by (unfold view', apply_write; cbn; rewrite decide_False by done; apply alloc_zero).
  assert (forall b, 0 <= b < sb_size sb -> used view' b = used (alloc sb view f) b) as Eu.
  { intros b Hb. eapply used_write; [done|by eapply data_off_map]. }
  assert (forall b, b <> ind x -> view' b = alloc sb view f b) as Ev.
  { intros b Hb. unfold view', apply_write. cbn. by rewrite decide_False. }
  destruct (entry_addr view x (alloc sb view f) bn f Hw Hbn Hi) as [Ef Ea];
    [pose proof (bo_size _ _ _ _ Hok); destruct Hf; unfold is_u32; lia|].
  assert (forall b, owns view x b -> b <> ind x -> view' b = view b) as Eo.
  { intros b Hb Hbi. rewrite Ev by done. by apply (alloc_owned view x). }
  assert (forall b, owns view x b -> used view' b = true) as Eou.
  { intros b Hb. destruct (fw_block _ _ Hw _ Hb) as (Hdb & _). rewrite Eu by (pose proof (db_low _ _ _ _ Hdb); lia). by apply (alloc_owned view x). }
  split_and!; [|split| | | |]; try done.
  - eapply (file_wf_add view x view' x bn f); try done; [unfold NDIRECT in *; lia|by destruct x|apply Hw| | | |].
    + rewrite Eu; [done|apply Hf].
    + by rewrite Ez.
    + by apply free_not_owned.
    + intros b Hb. split; [auto|]. destruct (decide (b = ind x)) as [->|Hbi]; [|rewrite Eo by done; by apply Hw].
      unfold view', apply_write. cbn [fst snd]. rewrite decide_True by done. unfold put_uint. by rewrite length_put_le.
  - by destruct x.
  - intros n Hn Ha. assert (n <> bn) by congruence. rewrite Ea by done. split; [done|].
    apply Eo; [by apply owns_addr|by apply (fw_ind _ _ Hw)].
  - intros b Hdb Hub Hno. destruct (alloc_used view f b Hok Hf Hdb Hub) as (Hnf & E & Hu').
    assert (b <> ind x) by (intros ->; done). rewrite Ev, Eu by (pose proof (db_low _ _ _ _ Hdb); lia || done).
    split_and!; [done..|]. intros [|]%(owns_add view x view' x bn f); done.
  - intros inum Hinum. rewrite Ev; [|intros E; by apply (db_inode _ _ _ _ Hdi inum)].
    apply alloc_inodes; try done. apply Hareas; [done|]. apply Hf.
  - apply bitmap_ok_write; [|by eapply data_off_map]. destruct Hf. by apply bitmap_ok_alloc.
Qed.

(** ** Writing a block of a file *)

Lemma write_block view x bn d :
  bitmap_ok view -> file_wf view x -> 0 <= bn < MAXFILE -> addr_of view x bn <> 0 -> length d = 1024%nat ->
  let view' := apply_write view (addr_of view x bn, d) in
  bitmap_ok view' /\ file_wf view' x /\ (forall n, addr_of view' x n = addr_of view x n) /\
  keeps view x view' x /\
  (forall inum, 0 <= inum < sb_ninodes sb -> view' (IBLOCK inum sb) = view (IBLOCK inum sb)) /\
  free_blocks sb view' = free_blocks sb view.
Proof.
  intros Hok Hw Hbn Ha Hl view'. destruct (fw_block _ _ Hw _ (owns_addr view x bn Hbn Ha)) as (Hd & Hu & _).
  assert (forall b, b <> addr_of view x bn -> view' b = view b) as Ev.
  { intros b Hb. unfold view', apply_write. cbn. by rewrite decide_False. }
  assert (forall n, addr_of view' x n = addr_of view x n) as Ea.
  { intros n. apply addr_of_ext. intros Hi. apply Ev. intros E. by apply (fw_ind _ _ Hw bn Hbn Ha). }
  assert (forall b, owns view' x b <-> owns view x b) as Eo.
  { intros b. unfold owns. by setoid_rewrite Ea. }
  assert (forall b, data_block b -> used view' b = used view b) as Eu.
  { intros b Hb. eapply used_write; [pose proof (db_low _ _ _ _ Hb); lia|by eapply data_off_map]. }
  split_and!; [by apply bitmap_ok_write, (data_off_map start lsize)| |done| | |by apply free_write, (data_off_map start lsize)].
  - destruct Hw. split; try done.
    + intros b Hb%Eo. destruct (fw_block0 b Hb) as (Hdb & Hub & Hlb). split_and!; [done|by rewrite Eu|].
      destruct (decide (b = addr_of view x bn)) as [->|Hne]; [|by rewrite Ev].
      unfold view', apply_write. cbn [fst snd]. by rewrite decide_True.
    + intros n. rewrite Ea. auto.
    + intros n n'. rewrite !Ea. auto.
  - intros b Hdb Hub Hno. rewrite Eu, Eo by done. split_and!; [|done..]. apply Ev. intros ->.
    by apply Hno, owns_addr.
  - intros inum Hi. apply Ev. intros E. by apply (db_inode _ _ _ _ Hd inum).
Qed.

(** ** Other files *)

(** Files that share no block. *)
Definition apart (view : disk) (x y : inode) : Prop := forall b, owns view y b -> ~ owns view x b.

Lemma keeps_file view x view' x' y :
  keeps view x view' x' -> file_wf view y -> mapped_to view y (i_size y) -> apart view x y ->
  file_wf view' y /\ mapped_to view' y (i_size y) /\ contents view' y = contents view y /\ apart view' x' y.
Proof.
  intros Hk Hw Hm Hap.
  assert (forall b, owns view y b -> view' b = view b /\ used view' b = true /\ ~ owns view' x' b) as Hb.
  { intros b Ho. destruct (fw_block _ _ Hw b Ho) as (Hd & Hu & _). apply Hk; [done..|]. by apply Hap. }
  assert (forall n, addr_of view' y n = addr_of view y n) as Ea.
  { intros n. apply addr_of_ext. intros Hi. by apply Hb, owns_ind. }
  assert (forall b, owns view' y b <-> owns view y b) as Eo.
  { intros b. unfold owns. by setoid_rewrite Ea. }
  split_and!.
  - destruct Hw. split; try done.
    + intros b Ho%Eo. destruct (Hb b Ho) as (-> & Hu' & _). destruct (fw_block0 b Ho) as (? & _ & ?). done.
    + intros n. rewrite Ea. auto.
    + intros n n'. rewrite !Ea. auto.
  - intros n Hn Hs. rewrite Ea. auto.
  - unfold contents. apply list_fmap_ext. intros j k Hk'%list_elem_of_lookup_2. apply elem_of_zseq in Hk'.
    unfold byte_at. rewrite Ea. pose proof (fw_size _ _ Hw) as Hs. unfold MAXFILE in Hs.
    destruct (Hb (addr_of view y (k / 1024))) as (-> & _); [|done].
    apply owns_addr; [unfold MAXFILE; divlia|apply Hm; divlia].
  - intros b Ho%Eo. by apply Hb.
Qed.

(** A disk with the same data blocks, all in use that were. *)
Lemma same_data view view' x :
  (forall b, data_block b -> view' b = view b /\ used view' b = used view b) -> file_wf view x ->
  file_wf view' x /\ (forall n, addr_of view' x n = addr_of view x n) /\ keeps view x view' x /\
  (forall k, 0 <= k / 1024 < MAXFILE -> addr_of view x (k / 1024) <> 0 -> byte_at view' x k = byte_at view x k).
Proof.
  intros Hv Hw.
  assert (forall b, owns view x b -> view' b = view b /\ used view' b = used view b) as Hb.
  { intros b Ho. apply Hv, Hw, Ho. }
  assert (forall n, addr_of view' x n = addr_of view x n) as Ea.
  { intros n. apply addr_of_ext. intros Hi. by apply Hb, owns_ind. }
  assert (forall b, owns view' x b <-> owns view x b) as Eo.
  { intros b. unfold owns. by setoid_rewrite Ea. }
  split_and!; [|done| |].
  - destruct Hw. split; try done.
    + intros b Ho%Eo. destruct (Hb b Ho) as (-> & ->). by apply fw_block0.
    + intros n. rewrite Ea. auto.
    + intros n n'. rewrite !Ea. auto.
  - intros b Hd Hu Hno. destruct (Hv b Hd) as [-> ->]. by rewrite Eo.
  - intros k Hk Ha. unfold byte_at. rewrite Ea. by destruct (Hb _ (owns_addr view x _ Hk Ha)) as [-> _].
Qed.

(** Every address of the inode is a block number. *)
Lemma file_addrs view x : bitmap_ok view -> file_wf view x -> Forall is_u32 (i_addrs x).
Proof.
  intros Hok Hw. apply Forall_lookup. intros k a Ha. pose proof (lookup_lt_Some _ _ _ Ha) as Hk. rewrite (fw_addrs _ _ Hw) in Hk.
  destruct (decide (a = 0)) as [->|Hne]; [unfold is_u32; lia|]. assert (owns view x a) as Ho.
  { split; [done|]. destruct (decide (k = NDIRECT)) as [->|Hk']; [left; unfold ind; by rewrite Ha|right].
    exists (Z.of_nat k). unfold NDIRECT, MAXFILE in *. split; [lia|]. unfold addr_of, NDIRECT.
    rewrite (proj2 (Z.ltb_lt _ _)), Nat2Z.id, Ha by lia. done. }
  destruct (fw_block _ _ Hw a Ho) as (Hd & _). pose proof (db_low _ _ _ _ Hd). pose proof (bo_size _ _ _ _ Hok). unfold is_u32. lia.
Qed.

Lemma file_wf_size view x n : file_wf view x -> 0 <= n <= MAXFILE * 1024 -> file_wf view (set_i_size n x).
Proof. intros [] Hn. by split. Qed.
End files.

(** The copy of the inode on the disk is up to date. *)
Definition on_disk (sb : superblock) (view : disk) (x : inode) : Prop :=
  let d := view (IBLOCK (i_inum x) sb) in
  length d = 1024%nat /\ get_dinode d (dinode_off (i_inum x)) x = x.

(** A file in a state between two operations. *)
Record file_ok (start lsize : Z) (sb : superblock) (view : disk) (x : inode) : Prop := {
  fo_wf : file_wf start lsize sb view x;
  fo_mapped : mapped_to view x (i_size x);
  fo_inode : inode_wf x;
  fo_disk : on_disk sb view x;
}.
