(* ===== verification/FsRw.v ===== *)
(** * Reading and writing files: bmap, readi, writei, itrunc of kernel/fs.c *)

From Stdlib Require Import ZArith Lia.
From stdpp Require Import base list gmap sets strings.
From S2P Require Import Prelude KString Spinlock Riscv Kalloc Vm Proc Sleeplock Bio BioInv BioProofs Log LogSpec LogProofs LogTxn Fs FsTxn FsAlloc FsProofs FsFile.

(** ** The inode in memory *)

(** The state with the layers below and inode [ip] replaced. *)
Definition with_inode (ip : nat) (x : inode) (l : lst) (s : fsst) : fsst :=
  mk_fsst l (fs_sb s) (<[ip := x]> (fs_inode s)).

Lemma with_inode_twice ip x l x' l' s : with_inode ip x' l' (with_inode ip x l s) = with_inode ip x' l' s.
Proof. unfold with_inode. cbn. by rewrite list_insert_insert_eq. Qed.

Lemma with_inode_l ip x l l' s : set_fs_l l' (with_inode ip x l s) = with_inode ip x l' s.
Proof. done. Qed.

Lemma with_inode_same ip x l s : fs_inode s !! ip = Some x -> set_fs_l l s = with_inode ip x l s.
Proof. intros H. unfold with_inode, set_fs_l. by rewrite list_insert_id. Qed.

Lemma with_inode_id ip x s : fs_inode s !! ip = Some x -> s = with_inode ip x (fs_l s) s.
Proof. intros H. rewrite <- with_inode_same by done. by destruct s. Qed.

Lemma with_inode_lookup ip x y l s : fs_inode s !! ip = Some y -> fs_inode (with_inode ip x l s) !! ip = Some x.
Proof. intros H. cbn. apply list_lookup_insert_eq. by eapply lookup_lt_Some. Qed.

Lemma set_l_id s : set_fs_l (fs_l s) s = s.
Proof. by destruct s. Qed.

Lemma wp_geti {A} ip (f : inode -> A) x s (Q : A -> fsst -> Prop) :
  fs_inode s !! ip = Some x -> Q (f x) s -> wp (geti ip f) Q s.
Proof. intros H HQ. unfold geti. apply wp_gets. unfold inode_at. by rewrite H. Qed.

Lemma alter_insert (l : list inode) ip f x : l !! ip = Some x -> alter f ip l = <[ip := f x]> l.
Proof.
  intros H. apply list_eq. intros j. destruct (decide (j = ip)) as [->|Hne].
  - rewrite list_lookup_alter_eq, H, list_lookup_insert_eq by by eapply lookup_lt_Some. done.
  - by rewrite list_lookup_alter_ne, list_lookup_insert_ne by done.
Qed.

Lemma wp_seti ip f x s (Q : unit -> fsst -> Prop) :
  fs_inode s !! ip = Some x -> Q tt (with_inode ip (f x) (fs_l s) s) -> wp (seti ip f) Q s.
Proof.
  intros H HQ. unfold seti. apply wp_modify. unfold with_inode in HQ. unfold set_fs_inode.
  rewrite (alter_insert _ _ _ _ H). done.
Qed.

(** ** Blocks logged for a file *)

Lemma size_add (a : Z) (L : gset Z) : (size ({[a]} ∪ L) <= S (size L))%nat.
Proof. rewrite size_union_alt, size_singleton. pose proof (subseteq_size (L ∖ {[a]}) L ltac:(set_solver)). lia. Qed.

Lemma size_sub (L L' : gset Z) : L ⊆ L' -> (size L <= size L')%nat.
Proof. apply subseteq_size. Qed.

(** The blocks that are logged when the file gets its indirect block, which can happen
    once, count from the start. *)
Definition charge (L : gset Z) (x : inode) : nat :=
  if ind x =? 0 then S (S (size L)) else size ({[ind x]} ∪ L).
Definition need (x : inode) : nat := if ind x =? 0 then 1 else 0.

(** The free blocks that bmap of block [bn] may take in addition to the one for the data. *)
Definition need_at (x : inode) (bn : Z) : nat := if bn <? Z.of_nat NDIRECT then 0 else need x.

Lemma charge_le (L : gset Z) x : (size L <= charge L x)%nat.
Proof. unfold charge. destruct (ind x =? 0); [lia|]. apply size_sub. set_solver. Qed.

Lemma charge_same L L' x x' : ind x' = ind x -> (forall c, size ({[c]} ∪ L') <= 2 + size ({[c]} ∪ L))%nat ->
  (size L' <= 2 + size L)%nat -> (charge L' x' <= 2 + charge L x)%nat.
Proof. intros E H1 H2. unfold charge. rewrite E. destruct (ind x =? 0); [lia|apply H1]. Qed.

(** The number of bytes that readi reads. *)
Definition read_len (size off n : Z) : Z :=
  if (size <? off) || (2 ^ 32 <=? off + n) then 0 else Z.min n (size - off).

Section rw.
Context (i : nat) (start lsize : Z) (b0 : bst) (cap : nat) (sb : superblock).

Abbreviation in_txn := (in_txn i start lsize b0 cap).
Abbreviation data_block := (data_block start lsize sb).
Abbreviation bitmap_ok := (bitmap_ok start lsize sb).
Abbreviation used := (used sb).
Abbreviation file_wf := (file_wf start lsize sb).
Abbreviation grows := (grows start lsize sb).

Hypothesis Hareas : forall inum b, 0 <= inum < sb_ninodes sb -> 0 <= b < sb_size sb -> IBLOCK inum sb <> BBLOCK b sb.

(** A free block is found. *)
Lemma wp_balloc_any s L view H (Q : Z -> fsst -> Prop) :
  in_txn s L view H -> fs_sb s = sb -> bitmap_ok view -> (0 < nfree sb view)%nat ->
  (forall y a, H !! y = Some a -> data_block y /\ used view y = true) -> (size H < 3)%nat ->
  (forall f, (size ({[f; BBLOCK f sb]} ∪ L) <= cap)%nat) ->
  (forall f l', free sb view f -> in_txn (set_fs_l l' s) ({[f; BBLOCK f sb]} ∪ L) (alloc sb view f) H ->
     bitmap_ok (alloc sb view f) -> nfree sb view = S (nfree sb (alloc sb view f)) -> Q f (set_fs_l l' s)) ->
  wp (balloc 1) Q s.
Proof.
  intros Ht Esb Hok Hn HH Hs Hc HQ. pose proof (bo_size _ _ _ _ Hok) as Hsz.
  destruct (first_free_exists sb view ltac:(lia) Hn) as (f & Hf & Hlt).
  pose proof (ff_range _ _ _ Hf) as Hr. pose proof (ff_free _ _ _ Hf Hlt) as Hu.
  eapply wp_balloc; [exact Ht|done|done|exact Hf|done| | |done|apply Hc|].
  - intros b Hb. destruct (H !! BBLOCK b sb) as [a|] eqn:E; [|done].
    destruct (HH _ _ E) as [Hd _]. by destruct (db_map _ _ _ _ Hd b Hb).
  - destruct (H !! f) as [a|] eqn:E; [|done]. destruct (HH _ _ E) as [_ Hu']. congruence.
  - intros l' Ht'. apply HQ; [by split; [lia|]|done| |].
    + apply bitmap_ok_alloc; [done|lia|done].
    + eapply nfree_alloc; [done|lia|done].
Qed.

(** ** bmap *)

Definition extra (view : disk) (x : inode) (bn : Z) : nat := if addr_of view x bn =? 0 then 1 else 0.

(** Block [bn] of the file has been mapped. *)
Record mapping (view : disk) (x : inode) (L : gset Z) (bn : Z) (view' : disk) (x' : inode) (L' : gset Z) : Prop := {
  mp_ok : bitmap_ok view';
  mp_wf : file_wf view' x';
  mp_grows : grows view x view' x';
  mp_addr : addr_of view' x' bn <> 0;
  mp_ind : bn < Z.of_nat NDIRECT -> ind x' = ind x;
  mp_other : forall n, 0 <= n < MAXFILE -> n <> bn -> addr_of view' x' n = addr_of view x n;
  mp_new : addr_of view x bn = 0 -> addr_of view' x' bn ∈ L';
  mp_zero : addr_of view x bn = 0 -> view' (addr_of view' x' bn) = zero_block;
  mp_charge : (charge L' x' <= 2 * extra view x bn + charge L x)%nat;
  mp_free : (nfree sb view + need x' <= nfree sb view' + need x + extra view x bn)%nat;
}.

Lemma mapping_refl view x L bn :
  bitmap_ok view -> file_wf view x -> addr_of view x bn <> 0 -> mapping view x L bn view x L.
Proof. intros Hok Hw Ha. split; try done; [apply file_grows_refl|lia|lia]. Qed.

(** A new entry in the indirect block. *)
Lemma mapping_entry view x L bn f :
  bitmap_ok view -> file_wf view x -> free sb view f -> Z.of_nat NDIRECT <= bn < MAXFILE -> ind x <> 0 ->
  addr_of view x bn = 0 -> nfree sb view = S (nfree sb (alloc sb view f)) ->
  let view' := apply_write (alloc sb view f)
    (ind x, put_uint (view (ind x)) (4 * Z.to_nat (bn - Z.of_nat NDIRECT)) f) in
  mapping view x L bn view' x ({[ind x]} ∪ ({[f; BBLOCK f sb]} ∪ L)) /\ addr_of view' x bn = f.
Proof.
  intros Hok Hw Hf Hbn Hi E0 En view'. destruct (fw_block _ _ _ _ _ Hw _ (owns_ind view x Hi)) as (Hdi & Hui & _).
  destruct (grow_entry start lsize sb Hareas view x bn f Hok Hw Hf Hbn Hi E0) as (Hw' & Hg & Ef & Hok' & Ez & Eo).
  fold view' in Hw', Hg, Ef, Hok', Ez, Eo. assert (extra view x bn = 1%nat) as Ee by (unfold extra; by rewrite E0).
  split; [|done]. split; rewrite ?Ee, ?Ef; try done.
  - pose proof (db_low _ _ _ _ (proj1 (alloc_new start lsize sb view f Hok Hf))). lia.
  - intros _. set_solver.
  - unfold charge. rewrite (proj2 (Z.eqb_neq _ _)) by done.
    etrans; [apply (size_sub _ ({[f]} ∪ ({[BBLOCK f sb]} ∪ ({[ind x]} ∪ L)))); set_solver|].
    pose proof (size_add f ({[BBLOCK f sb]} ∪ ({[ind x]} ∪ L))). pose proof (size_add (BBLOCK f sb) ({[ind x]} ∪ L)). lia.
  - unfold view'. erewrite free_write by by eapply data_off_map. lia.
Qed.

(** bmap makes it in the buffer [a]. *)
Lemma wp_new_entry s L view x bn a (Q : Z -> fsst -> Prop) :
  in_txn s L view {[ind x := a]} -> fs_sb s = sb -> bitmap_ok view -> file_wf view x ->
  Z.of_nat NDIRECT <= bn < MAXFILE -> ind x <> 0 -> addr_of view x bn = 0 ->
  (0 < nfree sb view)%nat -> (charge L x + 2 <= cap)%nat ->
  (forall l' L' view', in_txn (set_fs_l l' s) L' view' {[ind x := a]} -> mapping view x L bn view' x L' ->
     Q (addr_of view' x bn) (set_fs_l l' s)) ->
  wp (addr ← balloc 1;
      d ← ↑ bdata a;
      ↑ set_bdata a (put_uint d (4 * Z.to_nat (bn - Z.of_nat NDIRECT)) addr);;
      ↑ log_write a;;
      mret addr) Q s.
Proof.
  intros Ht Esb Hok Hw Hbn Hi E0 Hn Hc HQ. destruct (fw_block _ _ _ _ _ Hw _ (owns_ind view x Hi)) as (Hdi & Hui & _).
  bstep. eapply (wp_balloc_any s); [exact Ht|done|done|lia| | | |].
  { intros y b [<- <-]%lookup_singleton_Some. done. }
  { rewrite map_size_singleton. lia. }
  { intros f. rewrite <- (assoc_L (∪)). pose proof (charge_le L x). pose proof (size_add f ({[BBLOCK f sb]} ∪ L)).
    pose proof (size_add (BBLOCK f sb) L). lia. }
  intros f l2 Hf H2 Hok2 En. destruct (alloc_used start lsize sb view f _ Hok Hf Hdi Hui) as (_ & Ev & _).
  destruct (mapping_entry view x L bn f) as [Hm Ef]; [done..|].
  bstep. eapply wp_fs_data; [exact H2|apply lookup_singleton_eq|]. rewrite Ev.
  bstep. eapply wp_fs_setdata; [exact H2|apply lookup_singleton_eq|]. intros l3 H3.
  bstep. eapply wp_fs_log_write; [exact H3|apply lookup_singleton_eq|apply Hdi| |].
  { etrans; [apply (charge_le _ x)|]. pose proof (mp_charge _ _ _ _ _ _ _ Hm) as Hch.
    assert (extra view x bn = 1%nat) as Ee by (unfold extra; by rewrite E0). lia. }
  intros l4 H4. bstep. rewrite <- Ef. by eapply HQ.
Qed.

(** bmap of a block that is there. *)
Lemma wp_bmap_mapped s L view x ip bn (Q : Z -> fsst -> Prop) :
  in_txn s L view ∅ -> fs_inode s !! ip = Some x -> file_wf view x ->
  0 <= bn < MAXFILE -> addr_of view x bn <> 0 ->
  (forall l', in_txn (set_fs_l l' s) L view ∅ -> Q (addr_of view x bn) (set_fs_l l' s)) ->
  wp (bmap ip bn) Q s.
Proof.
  intros Ht Hx Hw Hbn Ha HQ. unfold bmap. bstep. eapply wp_geti; [exact Hx|]. rewrite (fw_dev _ _ _ _ _ Hw).
  unfold addr_of in *. destruct (Z.ltb_spec bn (Z.of_nat NDIRECT)) as [Hd|Hd].
  - cbv zeta. bstep. eapply wp_geti; [exact Hx|]. rewrite (proj2 (Z.eqb_neq _ _)) by done. bstep.
    rewrite <- (set_l_id s). apply HQ. by rewrite set_l_id.
  - rewrite (proj2 (Z.ltb_lt (bn - _) _)) by (unfold MAXFILE, NDIRECT, NINDIRECT in *; lia).
    destruct (Z.eqb_spec (ind x) 0) as [|Hi]; [done|]. destruct (fw_block _ _ _ _ _ Hw _ (owns_ind view x Hi)) as (Hdi & _).
    cbv zeta. bstep. eapply wp_geti; [exact Hx|]. fold (ind x). rewrite (proj2 (Z.eqb_neq _ _) Hi). bstep. bstep.
    bstep. eapply wp_fs_bread; [exact Ht|apply Hdi|apply lookup_empty|rewrite map_size_empty; lia|].
    intros a l1 H1. bstep. eapply wp_fs_data; [exact H1|apply lookup_insert_eq|]. rewrite (proj2 (Z.eqb_neq _ _)) by done.
    bstep. bstep. bstep. eapply wp_fs_brelse; [exact H1|apply lookup_insert_eq|]. intros l2 H2. bstep.
    rewrite delete_insert_id in H2 by apply lookup_empty. by apply HQ.
Qed.

(** The rest of bmap, when there is an indirect block. *)
Lemma wp_bmap_entry s L view x bn (Q : Z -> fsst -> Prop) :
  in_txn s L view ∅ -> fs_sb s = sb -> bitmap_ok view -> file_wf view x ->
  Z.of_nat NDIRECT <= bn < MAXFILE -> ind x <> 0 -> addr_of view x bn = 0 ->
  (0 < nfree sb view)%nat -> (charge L x + 2 <= cap)%nat ->
  (forall l' L' view', in_txn (set_fs_l l' s) L' view' ∅ -> mapping view x L bn view' x L' ->
     Q (addr_of view' x bn) (set_fs_l l' s)) ->
  wp (let k := Z.to_nat (bn - Z.of_nat NDIRECT) in
      bp ← ↑ bread 1 (ind x);
      d ← ↑ bdata bp;
      let addr := get_uint d (4 * k) in
      addr ← (if addr =? 0 then
                addr ← balloc 1;
                d ← ↑ bdata bp;
                ↑ set_bdata bp (put_uint d (4 * k) addr);;
                ↑ log_write bp;;
                mret addr
              else mret addr);
      ↑ brelse bp;;
      mret addr) Q s.
Proof.
  intros Ht Esb Hok Hw Hbn Hi E0 Hn Hc HQ. destruct (fw_block _ _ _ _ _ Hw _ (owns_ind view x Hi)) as (Hdi & Hui & _).
  assert (get_uint (view (ind x)) (4 * Z.to_nat (bn - Z.of_nat NDIRECT)) = 0) as Ea.
  { rewrite <- E0. unfold addr_of. by rewrite (proj2 (Z.ltb_ge _ _)), (proj2 (Z.eqb_neq _ _)) by (lia || done). }
  cbv zeta. bstep. eapply wp_fs_bread; [exact Ht|apply Hdi|apply lookup_empty|rewrite map_size_empty; lia|].
  intros a l1 H1. bstep. eapply wp_fs_data; [exact H1|apply lookup_insert_eq|]. rewrite Ea. cbn [Z.eqb].
  bstep. eapply (wp_new_entry (set_fs_l l1 s)); [exact H1|done..|]. intros l2 L2 view2 H2 Hm.
  bstep. eapply wp_fs_brelse; [exact H2|apply lookup_singleton_eq|]. intros l3 H3. bstep.
  rewrite delete_singleton_eq in H3. by eapply HQ.
Qed.

(** The two blocks that balloc logs. *)
Lemma charge_alloc L x f : (charge ({[f; BBLOCK f sb]} ∪ L) x <= 2 + charge L x)%nat.
Proof.
  rewrite <- (assoc_L (∪)). apply charge_same; [done|..].
  - intros c. replace ({[c]} ∪ ({[f]} ∪ ({[BBLOCK f sb]} ∪ L))) with ({[f]} ∪ ({[BBLOCK f sb]} ∪ ({[c]} ∪ L))) by set_solver.
    pose proof (size_add f ({[BBLOCK f sb]} ∪ ({[c]} ∪ L))). pose proof (size_add (BBLOCK f sb) ({[c]} ∪ L)). lia.
  - pose proof (size_add f ({[BBLOCK f sb]} ∪ L)). pose proof (size_add (BBLOCK f sb) L). lia.
Qed.

Lemma alloc_fits L x f : (charge L x + 2 <= cap)%nat -> (size ({[f; BBLOCK f sb]} ∪ L) <= cap)%nat.
Proof. pose proof (charge_alloc L x f). pose proof (charge_le ({[f; BBLOCK f sb]} ∪ L) x). lia. Qed.

Lemma mapping_direct view x L bn f :
  bitmap_ok view -> file_wf view x -> free sb view f -> 0 <= bn < Z.of_nat NDIRECT -> addr_of view x bn = 0 ->
  nfree sb view = S (nfree sb (alloc sb view f)) ->
  let x' := set_i_addrs (<[Z.to_nat bn := f]> (i_addrs x)) x in
  mapping view x L bn (alloc sb view f) x' ({[f; BBLOCK f sb]} ∪ L) /\ addr_of (alloc sb view f) x' bn = f.
Proof.
  intros Hok Hw Hf Hbn E0 En x'. destruct (grow_direct start lsize sb Hareas view x bn f Hok Hw Hf Hbn E0) as (Hw' & Hg & Ef & Eo).
  fold x' in Hw', Hg, Ef, Eo.
  assert (extra view x bn = 1%nat) as Ee by (unfold extra; by rewrite E0).
  assert (ind x' = ind x) as Ei by (unfold ind; cbn; rewrite list_lookup_insert_ne by (unfold NDIRECT in *; lia); done).
  split; [|done]. split; rewrite ?Ee, ?Ef; try done.
  - destruct Hf. by apply bitmap_ok_alloc.
  - pose proof (db_low _ _ _ _ (proj1 (alloc_new start lsize sb view f Hok Hf))). lia.
  - set_solver.
  - intros _. apply alloc_zero.
  - replace (charge _ x') with (charge ({[f; BBLOCK f sb]} ∪ L) x) by (unfold charge; by rewrite Ei). apply charge_alloc.
  - unfold need. rewrite Ei. lia.
Qed.

Lemma charge_ind L x x1 g :
  ind x = 0 -> ind x1 = g -> g <> 0 -> (charge ({[g; BBLOCK g sb]} ∪ L) x1 <= charge L x)%nat.
Proof.
  intros Hi Ei1 Hg0. unfold charge. rewrite Ei1, Hi, (proj2 (Z.eqb_neq _ _) Hg0). cbn [Z.eqb].
  etrans; [apply (size_sub _ ({[g]} ∪ ({[BBLOCK g sb]} ∪ L))); set_solver|].
  pose proof (size_add g ({[BBLOCK g sb]} ∪ L)). pose proof (size_add (BBLOCK g sb) L). lia.
Qed.

(** bmap after it has allocated the indirect block [g]. *)
Lemma mapping_ind view x L bn g view' x' L' :
  bitmap_ok view -> file_wf view x -> free sb view g -> ind x = 0 -> Z.of_nat NDIRECT <= bn -> addr_of view x bn = 0 ->
  nfree sb view = S (nfree sb (alloc sb view g)) ->
  let x1 := set_i_addrs (<[NDIRECT := g]> (i_addrs x)) x in
  mapping (alloc sb view g) x1 ({[g; BBLOCK g sb]} ∪ L) bn view' x' L' -> mapping view x L bn view' x' L'.
Proof.
  intros Hok Hw Hf Hi Hbn E0 En x1 [].
  destruct (grow_ind start lsize sb Hareas view x g Hok Hw Hf Hi) as (Hw1 & Hg1 & Ei1 & Ea1). fold x1 in Hw1, Hg1, Ei1, Ea1.
  assert (g <> 0) as Hg0 by (pose proof (db_low _ _ _ _ (proj1 (alloc_new start lsize sb view g Hok Hf))); lia).
  assert (extra (alloc sb view g) x1 bn = extra view x bn) as Ee by (unfold extra; by rewrite Ea1).
  assert (extra view x bn = 1%nat) as Ee1 by (unfold extra; by rewrite E0).
  pose proof (charge_ind L x x1 g Hi Ei1 Hg0).
  split; try done.
  - by eapply file_grows_trans.
  - lia.
  - intros n Hn Hne. by rewrite mp_other0, Ea1.
  - intros _. apply mp_new0. by rewrite Ea1.
  - intros _. apply mp_zero0. by rewrite Ea1.
  - lia.
  - unfold need in *. rewrite Ei1, (proj2 (Z.eqb_neq _ _) Hg0) in mp_free0. rewrite Hi. cbn [Z.eqb]. lia.
Qed.

Lemma wp_bmap s L view x ip bn (Q : Z -> fsst -> Prop) :
  in_txn s L view ∅ -> fs_sb s = sb -> fs_inode s !! ip = Some x -> bitmap_ok view -> file_wf view x ->
  0 <= bn < MAXFILE ->
  (addr_of view x bn = 0 -> (need_at x bn < nfree sb view)%nat /\ (charge L x + 2 <= cap)%nat) ->
  (forall l' L' view' x', in_txn (with_inode ip x' l' s) L' view' ∅ -> mapping view x L bn view' x' L' ->
     Q (addr_of view' x' bn) (with_inode ip x' l' s)) ->
  wp (bmap ip bn) Q s.
Proof.
  intros Ht Esb Hx Hok Hw Hbn Hroom HQ. destruct (decide (addr_of view x bn = 0)) as [E0|E0].
  2: { eapply wp_bmap_mapped; try done. intros l' H'. rewrite (with_inode_same ip x) in * by done.
    eapply HQ; [done|by apply mapping_refl]. }
  destruct (Hroom E0) as [Hn Hc]. unfold bmap. pose proof (fw_dev _ _ _ _ _ Hw) as Ed.
  assert (forall y b, (∅ : gmap Z nat) !! y = Some b -> data_block y /\ used view y = true) as He by (intros y b; by rewrite lookup_empty).
  bstep. eapply wp_geti; [exact Hx|]. rewrite Ed. destruct (Z.ltb_spec bn (Z.of_nat NDIRECT)) as [Hd|Hd].
  - assert (addr_of view x bn = default 0 (i_addrs x !! Z.to_nat bn)) as Ea by (unfold addr_of; by rewrite (proj2 (Z.ltb_lt _ _)) by done).
    cbv zeta. bstep. eapply wp_geti; [exact Hx|]. rewrite <- Ea, E0. cbn [Z.eqb]. bstep.
    eapply (wp_balloc_any s); [exact Ht|done|done|lia|apply He|rewrite map_size_empty; lia|intros; by apply (alloc_fits _ x)|].
    intros f l1 Hf H1 Hok1 En. bstep. eapply wp_seti; [exact Hx|]. bstep. cbn [fs_l set_fs_l].
    destruct (mapping_direct view x L bn f) as [Hm Ef]; [done..|lia|done|done|]. rewrite <- Ef at 1. eapply HQ; [|exact Hm].
    by eapply in_op_l; [|exact H1].
  - rewrite (proj2 (Z.ltb_lt (bn - _) _)) by (unfold MAXFILE, NDIRECT, NINDIRECT in *; lia).
    bstep. eapply wp_geti; [exact Hx|]. fold (ind x). bstep. destruct (Z.eqb_spec (ind x) 0) as [Ei|Ei].
    2: { bstep. eapply wp_bmap_entry; [exact Ht|done|done|done|lia|done|done|lia|done|].
      intros l2 L2 view2 H2 Hm. rewrite (with_inode_same ip x) in * by done. by eapply HQ. }
    assert (need_at x bn = 1%nat) as En1 by (unfold need_at, need; by rewrite (proj2 (Z.ltb_ge _ _)), Ei by done).
    bstep. eapply (wp_balloc_any s); [exact Ht|done|done|lia|apply He|rewrite map_size_empty; lia|intros; by apply (alloc_fits _ x)|].
    intros g l1 Hf H1 Hok1 En. bstep. eapply wp_seti; [exact Hx|]. bstep. cbn [fs_l set_fs_l].
    destruct (grow_ind start lsize sb Hareas view x g Hok Hw Hf Ei) as (Hw1 & Hg1 & Ei1 & Ea1).
    set (x1 := set_i_addrs _ x) in *. rewrite <- Ei1 at 1. change (with_inode ip x1 l1 (set_fs_l l1 s)) with (with_inode ip x1 l1 s).
    assert (g <> 0) as Hg0 by (pose proof (db_low _ _ _ _ (proj1 (alloc_new start lsize sb view g Hok Hf))); lia).
    pose proof (charge_ind L x x1 g Ei Ei1 Hg0).
    eapply wp_bmap_entry; [by eapply in_op_l; [|exact H1]|done|done|done|lia|by rewrite Ei1|by rewrite Ea1|lia|lia|].
    intros l2 L2 view2 H2 Hm. rewrite with_inode_l in *. apply (HQ l2 L2 view2 x1 H2). by eapply mapping_ind.
Qed.

(** ** readi *)

(** Bytes [off] to [off + m - 1], which lie in one block. *)
Lemma block_bytes view x off m :
  0 <= off -> 0 <= m -> m <= 1024 - off mod 1024 -> length (view (addr_of view x (off / 1024))) = 1024%nat ->
  take (Z.to_nat m) (drop (Z.to_nat (off mod 1024)) (view (addr_of view x (off / 1024)))) =
  byte_at view x <$> zseq off (Z.to_nat m).
Proof.
  intros Hoff Hm Hle Hlen. apply list_eq. intros k. rewrite list_lookup_fmap.
  destruct (decide (k < Z.to_nat m)%nat) as [Hk|Hk].
  - rewrite lookup_take_lt, lookup_drop, zseq_lookup by done. cbn [fmap option_fmap option_map]. unfold byte_at.
    replace ((off + Z.of_nat k) / 1024) with (off / 1024) by divlia.
    replace (Z.to_nat ((off + Z.of_nat k) mod 1024)) with (Z.to_nat (off mod 1024) + k)%nat by divlia.
    destruct (lookup_lt_is_Some_2 (view (addr_of view x (off / 1024))) (Z.to_nat (off mod 1024) + k)) as [y ->]; [|done].
    rewrite Hlen. divlia.
  - rewrite lookup_take_ge by lia. rewrite lookup_ge_None_2; [done|]. rewrite length_zseq. lia.
Qed.

Lemma contents_range view x off m :
  0 <= off -> 0 <= m -> off + m <= i_size x ->
  take (Z.to_nat m) (drop (Z.to_nat off) (contents view x)) = byte_at view x <$> zseq off (Z.to_nat m).
Proof.
  intros. unfold contents. rewrite <- fmap_drop, <- fmap_take, drop_zseq, take_zseq.
  f_equal. f_equal; lia.
Qed.

Section read.
Context (L : gset Z) (view : disk) (x : inode) (ip : nat).
Hypothesis Hok : bitmap_ok view.
Hypothesis Hw : file_wf view x.
Hypothesis Hm : mapped_to view x (i_size x).

Lemma wp_readi_loop fuel off n tot got s (Q : Z * list Z -> fsst -> Prop) :
  in_txn s L view ∅ -> fs_sb s = sb -> fs_inode s !! ip = Some x ->
  0 <= off -> 0 <= tot <= n -> off + (n - tot) <= i_size x ->
  (tot < n -> n - tot + off mod 1024 <= 1024 * Z.of_nat fuel) ->
  (forall l', in_txn (set_fs_l l' s) L view ∅ ->
     Q (n, got ++ (byte_at view x <$> zseq off (Z.to_nat (n - tot)))) (set_fs_l l' s)) ->
  wp (readi_loop fuel ip DKern off n tot got) Q s.
Proof.
  revert off tot got s. induction fuel as [|fuel IH]; intros off tot got s Ht Esb Hx Hoff Htot Hend Hfuel HQ;
    pose proof (Z.mod_pos_bound off 1024 eq_refl) as Hmod; cbn [readi_loop]; destruct (Z.ltb_spec tot n) as [Hlt|Hge]; try lia.
  1, 3: assert (tot = n) as -> by lia; bstep; rewrite Z.sub_diag, app_nil_r, <- (set_l_id s) in *; by apply HQ.
  assert (off / 1024 * 1024 < i_size x) as Hbn by divlia. pose proof (fw_size _ _ _ _ _ Hw) as Hsz.
  pose proof (Hm (off / 1024) ltac:(divlia) Hbn) as Ha. assert (0 <= off / 1024 < MAXFILE) as Hmax by (unfold MAXFILE in *; divlia).
  destruct (fw_block _ _ _ _ _ Hw _ (owns_addr view x _ Hmax Ha)) as (Hd & _ & Hlen).
  bstep. eapply wp_bmap_mapped; [exact Ht|done..|]. intros l1 H1. bstep. eapply wp_geti; [exact Hx|].
  rewrite (fw_dev _ _ _ _ _ Hw). bstep. eapply wp_fs_bread; [exact H1|apply Hd|apply lookup_empty|rewrite map_size_empty; lia|].
  intros a l2 H2. bstep. eapply wp_fs_data; [exact H2|apply lookup_insert_eq|]. cbv zeta.
  set (m := Z.min (n - tot) (1024 - off mod 1024)). rewrite (block_bytes view x off m) by lia.
  bstep. eapply wp_fs_copyout; [exact H2|]. intros l3 H3. bstep. eapply wp_fs_brelse; [exact H3|apply lookup_insert_eq|].
  intros l4 H4. rewrite delete_insert_id in H4 by apply lookup_empty. cbn [Z.eqb].
  eapply IH; [exact H4|done|done|lia|lia|lia| |].
  - intros Hlt'. specialize (Hfuel Hlt). assert (m = 1024 - off mod 1024) as Em by lia. rewrite Em in *. divlia.
  - intros l5 H5. rewrite <- app_assoc, <- fmap_app. 
    replace (zseq off (Z.to_nat m) ++ zseq (off + m) (Z.to_nat (n - (tot + m)))) with (zseq off (Z.to_nat (n - tot))); [by apply HQ|].
    replace (Z.to_nat (n - tot)) with (Z.to_nat m + Z.to_nat (n - (tot + m)))%nat by lia. rewrite zseq_app. do 2 f_equal. lia.
Qed.

Lemma wp_readi off n s (Q : Z * list Z -> fsst -> Prop) :
  in_txn s L view ∅ -> fs_sb s = sb -> fs_inode s !! ip = Some x -> is_u32 off -> is_u32 n ->
  (forall l', in_txn (set_fs_l l' s) L view ∅ ->
     let r := read_len (i_size x) off n in
     Q (r, take (Z.to_nat r) (drop (Z.to_nat off) (contents view x))) (set_fs_l l' s)) ->
  wp (readi ip DKern off n) Q s.
Proof.
  unfold is_u32. intros Ht Esb Hx Hoff Hn HQ. unfold readi, read_len in *. pose proof (fw_size _ _ _ _ _ Hw) as Hsz.
  unfold MAXFILE in Hsz. bstep. eapply wp_geti; [exact Hx|].
  assert ((u32 (off + n) <? off) = (2 ^ 32 <=? off + n)) as Eo.
  { unfold u32. destruct (Z.leb_spec (2 ^ 32) (off + n)).
    - replace (off + n) with (off + n - 2 ^ 32 + 1 * 2 ^ 32) by lia. rewrite Z.mod_add, Z.mod_small by lia. apply Z.ltb_lt. lia.
    - rewrite Z.mod_small by lia. apply Z.ltb_ge. lia. }
  rewrite Eo. destruct (Z.ltb_spec (i_size x) off); cbn [orb] in *; [|destruct (Z.leb_spec (2 ^ 32) (off + n))].
  1, 2: bstep; rewrite <- (set_l_id s) in *; by apply HQ.
  assert (u32 (off + n) = off + n) as E1 by (apply Z.mod_small; lia).
  replace (if i_size x <? u32 (off + n) then u32 (i_size x - off) else n) with (Z.min n (i_size x - off)).
  2: { rewrite E1. destruct (Z.ltb_spec (i_size x) (off + n)); [|lia]. unfold u32. rewrite Z.mod_small; lia. }
  cbv zeta. eapply wp_readi_loop; [exact Ht|done|done|lia|lia|lia| |].
  - intros _. unfold blocks_bound. divlia.
  - intros l' H'. cbn [app]. rewrite Z.sub_0_r. specialize (HQ l' H'). by rewrite contents_range in HQ by lia.
Qed.
End read.
End rw.
