(* ===== verification/FsWrite.v ===== *)
(** * Writing files: writei of kernel/fs.c

    [writing] is the invariant of the loop of writei: what has been written, what the
    file had before, and how many blocks the rest may still take from the disk and from
    the log. *)

From Stdlib Require Import ZArith Lia.
From stdpp Require Import base list gmap sets strings.
From S2P Require Import Prelude KString Spinlock Riscv Kalloc Vm Proc Sleeplock Bio BioInv BioProofs Log LogSpec LogProofs LogTxn Fs FsTxn FsAlloc FsProofs FsFile FsRw.

(** The number of blocks behind the block of [off - 1] that [n] bytes at [off] reach,
    and what the write counts in the log: a data block and a bitmap block for each, and
    the block that [off] is inside of. *)
Definition blocks (off n : Z) : Z := (off + n + 1023) / 1024 - (off + 1023) / 1024.
Definition cost (off n : Z) : Z :=
  if n <=? 0 then 0 else 2 * blocks off n + (if off mod 1024 =? 0 then 0 else 1).

Lemma blocks_step off n :
  0 <= off -> 0 < n -> let m := Z.min n (1024 - off mod 1024) in
  blocks (off + m) (n - m) = blocks off n - (if off mod 1024 =? 0 then 1 else 0).
Proof. intros Ho Hn m. unfold blocks, m. destruct (Z.eqb_spec (off mod 1024) 0); divlia. Qed.

Lemma cost_step off n :
  0 <= off -> 0 < n -> let m := Z.min n (1024 - off mod 1024) in
  cost (off + m) (n - m) <= cost off n - (if off mod 1024 =? 0 then 2 else 1).
Proof.
  intros Ho Hn m. pose proof (blocks_step off n Ho Hn) as Eb. fold m in Eb. cbv zeta in Eb. unfold cost. rewrite Eb.
  rewrite (proj2 (Z.leb_gt n 0)) by lia.
  assert (off mod 1024 = 0 -> 1 <= blocks off n) by (unfold blocks; divlia). assert (0 <= blocks off n) by (unfold blocks; divlia).
  destruct (Z.leb_spec (n - m) 0), (Z.eqb_spec (off mod 1024) 0); try lia;
    assert ((off + m) mod 1024 = 0) as -> by divlia; cbn [Z.eqb]; lia.
Qed.

Lemma cost_nonneg off n : 0 <= cost off n.
Proof. unfold cost, blocks. destruct (Z.leb_spec n 0), (off mod 1024 =? 0); divlia. Qed.

(** A write of the size that filewrite passes to writei. *)
Lemma cost_max off n : 0 <= off -> 0 <= n <= 3072 -> cost off n <= 7.
Proof.
  intros Ho Hn. unfold cost, blocks. destruct (Z.leb_spec n 0); [lia|]. destruct (Z.eqb_spec (off mod 1024) 0); divlia.
Qed.

(** The block that a file may need for its indirect block when it is written up to [lim]. *)
Definition need_to (x : inode) (lim : Z) : nat := if lim <=? Z.of_nat NDIRECT * 1024 then 0 else need x.

Lemma splice_lookup (d : list Z) o bs k :
  (o <= length d)%nat ->
  splice d o bs !! k = if decide (o <= k < o + length bs)%nat then bs !! (k - o)%nat else d !! k.
Proof.
  intros Hl. unfold splice. assert (length (take o d) = o) as El by (rewrite length_take; lia). case_decide as E.
  - rewrite lookup_app_r, El by lia. apply lookup_app_l. lia.
  - destruct (decide (k < o)%nat) as [Hk|Hk].
    + rewrite lookup_app_l by lia. by apply lookup_take_lt.
    + rewrite lookup_app_r, El by lia. rewrite lookup_app_r by lia. rewrite lookup_drop. f_equal. lia.
Qed.

Lemma contents_lookup view x k :
  contents view x !! k = if decide (k < Z.to_nat (i_size x))%nat then Some (byte_at view x (Z.of_nat k)) else None.
Proof.
  unfold contents. rewrite list_lookup_fmap. case_decide as Hk; [by rewrite zseq_lookup by done|].
  rewrite lookup_ge_None_2; [done|]. rewrite length_zseq. lia.
Qed.

Lemma length_splice (d : list Z) o bs : (o + length bs <= length d)%nat -> length (splice d o bs) = length d.
Proof. intros Hl. unfold splice. rewrite !length_app, length_take, length_drop. lia. Qed.

(** The blocks of the file are zero behind its end. *)
Definition tail_zero (view : disk) (x : inode) : Prop :=
  forall k, i_size x <= k -> k / 1024 < MAXFILE -> addr_of view x (k / 1024) <> 0 -> byte_at view x k = 0.

Section write.
Context (i : nat) (start lsize : Z) (b0 : bst) (cap : nat) (sb : superblock).

Abbreviation in_txn := (in_txn i start lsize b0 cap).
Abbreviation data_block := (data_block start lsize sb).
Abbreviation bitmap_ok := (bitmap_ok start lsize sb).
Abbreviation file_wf := (file_wf start lsize sb).
Abbreviation keeps := (keeps start lsize sb).
Abbreviation mapping := (mapping start lsize sb).

Hypothesis Hareas : forall inum b, 0 <= inum < sb_ninodes sb -> 0 <= b < sb_size sb -> IBLOCK inum sb <> BBLOCK b sb.

(** After [tot] of the [n] bytes [bs] have been written at [off]. *)
Record writing (view : disk) (x : inode) (bs : list Z) (off n C tot : Z) (view1 : disk) (x1 : inode) (L1 : gset Z)
    : Prop := {
  wr_ok : bitmap_ok view1;
  wr_wf : file_wf view1 x1;
  wr_inode : x1 = set_i_addrs (i_addrs x1) x;
  wr_keeps : keeps view x view1 x1;
  wr_inodes : forall inum, 0 <= inum < sb_ninodes sb -> view1 (IBLOCK inum sb) = view (IBLOCK inum sb);
  wr_mapped : mapped_to view1 x1 (Z.max (i_size x) (off + tot));
  wr_bytes : forall k, 0 <= k < Z.max (i_size x) (off + tot) ->
    byte_at view1 x1 k = if decide (off <= k < off + tot) then default 0 (bs !! Z.to_nat (k - off)) else byte_at view x k;
  wr_tail : tail_zero view x -> forall k, Z.max (i_size x) (off + tot) <= k -> k / 1024 < MAXFILE ->
    addr_of view1 x1 (k / 1024) <> 0 -> byte_at view1 x1 k = 0;
  wr_log : Z.of_nat (charge L1 x1) + cost (off + tot) (n - tot) <= C;
  wr_free : Z.of_nat (need_to x1 (off + n)) + blocks (off + tot) (n - tot) <= Z.of_nat (nfree sb view1);
}.

(** The bytes after a block of the file has been written in part. *)
Lemma byte_write view x bn o (bs : list Z) k :
  bitmap_ok view -> file_wf view x -> 0 <= bn < MAXFILE -> addr_of view x bn <> 0 ->
  0 <= o -> o + Z.of_nat (length bs) <= 1024 -> 0 <= k -> k / 1024 < MAXFILE -> addr_of view x (k / 1024) <> 0 ->
  let a := addr_of view x bn in
  let view' := apply_write view (a, splice (view a) (Z.to_nat o) bs) in
  byte_at view' x k = if decide (bn * 1024 + o <= k < bn * 1024 + o + Z.of_nat (length bs))
                      then default 0 (bs !! Z.to_nat (k - (bn * 1024 + o))) else byte_at view x k.
Proof.
  intros Hok Hw Hbn Ha Ho Hlen Hk Hkm Hka a view'. destruct (fw_block _ _ _ _ _ Hw _ (owns_addr view x bn Hbn Ha)) as (_ & _ & Hl).
  destruct (write_block start lsize sb view x bn (splice (view a) (Z.to_nat o) bs)) as (_ & _ & Ea & _);
    [done..|rewrite length_splice by (unfold a; lia); done|]. fold a view' in Ea.
  unfold byte_at. rewrite Ea. unfold view' at 1, apply_write. cbn [fst snd].
  destruct (decide (addr_of view x (k / 1024) = a)) as [E|E].
  - assert (k / 1024 = bn) as Ek by (apply (fw_inj _ _ _ _ _ Hw); [divlia|done..]).
    rewrite splice_lookup by (unfold a; lia). rewrite Ek. destruct (decide (bn * 1024 + o <= k < _)) as [Hin|Hin].
    + rewrite decide_True by divlia. f_equal. f_equal. divlia.
    + rewrite decide_False by divlia. done.
  - rewrite decide_False; [done|]. intros Hin. apply E. unfold a. f_equal. divlia.
Qed.

Lemma writing_start view x bs off n C L :
  bitmap_ok view -> file_wf view x -> mapped_to view x (i_size x) -> off <= i_size x ->
  Z.of_nat (charge L x) + cost off n <= C -> Z.of_nat (need_to x (off + n)) + blocks off n <= Z.of_nat (nfree sb view) ->
  writing view x bs off n C 0 view x L.
Proof.
  intros. split; rewrite ?Z.add_0_r, ?Z.sub_0_r, ?Z.max_l by done; try done.
  - by destruct x.
  - intros k Hk. rewrite decide_False by lia. done.
Qed.

(** The bytes of the file are kept by bmap. *)
Lemma grows_bytes view x view' x' k :
  grows start lsize sb view x view' x' -> 0 <= k / 1024 < MAXFILE -> addr_of view x (k / 1024) <> 0 ->
  byte_at view' x' k = byte_at view x k.
Proof. intros Hg Hk Ha. destruct (gr_addr _ _ _ _ _ _ _ Hg _ Hk Ha) as [E1 E2]. unfold byte_at. by rewrite E1, E2. Qed.

Lemma charge_add a L x : (charge ({[a]} ∪ L) x <= S (charge L x))%nat.
Proof.
  unfold charge. destruct (ind x =? 0); [pose proof (size_add a L); lia|].
  replace ({[ind x]} ∪ ({[a]} ∪ L)) with ({[a]} ∪ ({[ind x]} ∪ L)) by set_solver. apply size_add.
Qed.

Lemma zero_lookup k : default 0 (zero_block !! k) = 0.
Proof. destruct (zero_block !! k) as [y|] eqn:E; [|done]. by apply lookup_replicate in E as [-> _]. Qed.

(** What is mapped after bmap of the block of [o]. *)
Lemma mapping_to view1 x1 L1 view2 x2 L2 o m size :
  mapping view1 x1 L1 (o / 1024) view2 x2 L2 -> mapped_to view1 x1 (Z.max size o) ->
  0 <= o -> 0 <= m <= 1024 - o mod 1024 -> Z.max size (o + m) <= MAXFILE * 1024 ->
  mapped_to view2 x2 (Z.max size (o + m)).
Proof.
  intros [] Hm1 Ho Hm Hmax bn Hbn Hlt. unfold MAXFILE in *.
  destruct (decide (bn * 1024 < Z.max size o)) as [H1|H1].
  - destruct (gr_addr _ _ _ _ _ _ _ mp_grows bn) as [E _]; [unfold MAXFILE; lia|by apply Hm1|]. rewrite E. by apply Hm1.
  - assert (bn = o / 1024) as -> by divlia. done.
Qed.

(** A block that is not there yet is written from its start on. *)
Lemma unmapped_aligned view x bs off n C tot view1 x1 L1 :
  writing view x bs off n C tot view1 x1 L1 -> 0 <= off + tot ->
  addr_of view1 x1 ((off + tot) / 1024) = 0 -> (off + tot) mod 1024 = 0.
Proof.
  intros [] Ho E0. destruct (decide ((off + tot) mod 1024 = 0)) as [|Hne]; [done|]. exfalso.
  apply (wr_mapped0 ((off + tot) / 1024)); [divlia..|done].
Qed.

Lemma mapping_free_to view1 x1 L1 bn view2 x2 L2 lim :
  mapping view1 x1 L1 bn view2 x2 L2 -> bn * 1024 < lim ->
  (nfree sb view1 + need_to x2 lim <= nfree sb view2 + need_to x1 lim + extra view1 x1 bn)%nat.
Proof.
  intros [] Hlim. unfold need_to. destruct (Z.leb_spec lim (Z.of_nat NDIRECT * 1024)) as [Hle|Hgt]; [|done].
  assert (ind x2 = ind x1) as Ei by (apply mp_ind; lia). unfold need in mp_free. rewrite Ei in mp_free. lia.
Qed.

(** The room that is left for the rest. *)
Lemma writing_room view x bs off n C tot view1 x1 L1 view2 x2 L2 :
  writing view x bs off n C tot view1 x1 L1 -> 0 <= off -> 0 <= tot < n ->
  let o := off + tot in
  let m := Z.min (n - tot) (1024 - o mod 1024) in
  let a := addr_of view2 x2 (o / 1024) in
  mapping view1 x1 L1 (o / 1024) view2 x2 L2 ->
  Z.of_nat (charge ({[a]} ∪ L2) x2) + cost (o + m) (n - (tot + m)) <= C /\
  Z.of_nat (need_to x2 (off + n)) + blocks (o + m) (n - (tot + m)) <= Z.of_nat (nfree sb view2).
Proof.
  intros Hwr Hoff Htot o m a Hmp. pose proof (blocks_step o (n - tot) ltac:(lia) ltac:(lia)) as Eb.
  pose proof (cost_step o (n - tot) ltac:(lia) ltac:(lia)) as Ec. cbv zeta in Eb, Ec. fold m in Eb, Ec.
  pose proof (mapping_free_to _ _ _ _ _ _ _ (off + n) Hmp ltac:(divlia)) as Hfree.
  pose proof (unmapped_aligned _ _ _ _ _ _ _ _ _ _ Hwr ltac:(lia)) as Hal. destruct Hwr, Hmp.
  replace (n - (tot + m)) with (n - tot - m) by lia. fold o in wr_log0, wr_free0, Hal. unfold extra in *.
  destruct (Z.eqb_spec (addr_of view1 x1 (o / 1024)) 0) as [E0|E0].
  - rewrite (Hal E0) in Ec, Eb. cbn [Z.eqb] in Ec, Eb. specialize (mp_new E0).
    replace ({[a]} ∪ L2) with L2 by (unfold a; set_solver). lia.
  - pose proof (charge_add a L2 x2). destruct (o mod 1024 =? 0); lia.
Qed.

Lemma writing_step view x bs off n C tot view1 x1 L1 view2 x2 L2 :
  writing view x bs off n C tot view1 x1 L1 -> 0 <= off <= i_size x -> 0 <= tot < n -> n <= Z.of_nat (length bs) ->
  off + n <= MAXFILE * 1024 ->
  let o := off + tot in
  let m := Z.min (n - tot) (1024 - o mod 1024) in
  let a := addr_of view2 x2 (o / 1024) in
  mapping view1 x1 L1 (o / 1024) view2 x2 L2 ->
  writing view x bs off n C (tot + m)
    (apply_write view2 (a, splice (view2 a) (Z.to_nat (o mod 1024)) (take (Z.to_nat m) (drop (Z.to_nat tot) bs)))) x2 ({[a]} ∪ L2).
Proof.
  intros Hwr Hoff Htot Hn Hmax o m a Hmp. pose proof (writing_room _ _ _ _ _ _ _ _ _ _ _ _ _ Hwr ltac:(lia) Htot Hmp) as [Hlog Hfree].
  assert (i_size x1 = i_size x) as Es by by rewrite (wr_inode _ _ _ _ _ _ _ _ _ _ Hwr).
  pose proof (fw_size _ _ _ _ _ (wr_wf _ _ _ _ _ _ _ _ _ _ Hwr)) as Hsz. rewrite Es in Hsz.
  assert (0 <= m <= 1024 - o mod 1024) as Hm by divlia.
  pose proof (mapping_to _ _ _ _ _ _ o m (i_size x) Hmp (wr_mapped _ _ _ _ _ _ _ _ _ _ Hwr) ltac:(lia) Hm ltac:(lia)) as Hmap2.
  destruct Hwr, Hmp. assert (0 <= o / 1024 < MAXFILE) as Hbn by (unfold MAXFILE in *; divlia).
  set (bs' := take (Z.to_nat m) (drop (Z.to_nat tot) bs)).
  assert (Z.of_nat (length bs') = m) as El by (unfold bs'; rewrite length_take, length_drop; divlia).
  destruct (fw_block _ _ _ _ _ mp_wf _ (owns_addr view2 x2 _ Hbn mp_addr)) as (_ & _ & Hla).
  destruct (write_block start lsize sb view2 x2 (o / 1024) (splice (view2 a) (Z.to_nat (o mod 1024)) bs'))
    as (Hok3 & Hwf3 & Ea3 & Hk3 & Hi3 & Hf3); [done..|rewrite length_splice by (fold a in Hla; divlia); done|].
  fold a in Hok3, Hwf3, Ea3, Hk3, Hi3, Hf3. split; rewrite ?Hf3; replace (off + (tot + m)) with (o + m) by lia; try done.
  - destruct x, x1, x2. pose proof (gr_inode _ _ _ _ _ _ _ mp_grows). unfold set_i_addrs in *. cbn in *. congruence.
  - eapply keeps_trans; [eapply keeps_trans; [exact wr_keeps0|apply mp_grows]|exact Hk3].
  - intros inum Hi. rewrite Hi3, (gr_inodes _ _ _ _ _ _ _ mp_grows) by done. by apply wr_inodes0.
  - intros b Hb Hlt. rewrite Ea3. by apply Hmap2.
  - intros k Hk. assert (0 <= k / 1024 < MAXFILE) as Hkm by (unfold MAXFILE in *; divlia).
    pose proof (Hmap2 (k / 1024) ltac:(lia) ltac:(divlia)) as Hka.
    pose proof (byte_write view2 x2 (o / 1024) (o mod 1024) bs' k mp_ok mp_wf Hbn mp_addr ltac:(divlia) ltac:(lia) ltac:(lia)
      ltac:(lia) Hka) as Eb. cbv zeta in Eb. fold a in Eb. rewrite Eb, El. replace (o / 1024 * 1024 + o mod 1024) with o by divlia.
    destruct (decide (o <= k < o + m)) as [Hin|Hin].
    + rewrite decide_True by lia. unfold bs'. rewrite lookup_take_lt, lookup_drop by lia. do 2 f_equal. lia.
    + assert (k < Z.max (i_size x) o) as Hk' by lia.
      rewrite (grows_bytes view1 x1), wr_bytes0 by (try done; try lia; apply wr_mapped0; divlia).
      destruct (decide (off <= k < off + tot)), (decide (off <= k < o + m)); try done; lia.
  - intros Htail k Hk Hkm Hka. rewrite Ea3 in Hka.
    pose proof (byte_write view2 x2 (o / 1024) (o mod 1024) bs' k mp_ok mp_wf Hbn mp_addr ltac:(divlia) ltac:(lia) ltac:(lia)
      Hkm Hka) as Eb. cbv zeta in Eb. fold a in Eb. rewrite Eb, El, decide_False by divlia.
    destruct (decide (addr_of view1 x1 (k / 1024) = 0)) as [E0|E0].
    + destruct (decide (k / 1024 = o / 1024)) as [Ek|Ek]; [|by rewrite mp_other in Hka by (done || divlia)].
      rewrite Ek in E0. unfold byte_at. rewrite Ek, mp_zero by done. by apply zero_lookup.
    + rewrite (grows_bytes view1 x1) by (done || divlia). apply wr_tail0; [done|lia|done|done].
Qed.

Lemma wp_writei_loop src view x bs off n C ip fuel tot view1 x1 L1 s (Q : Z -> fsst -> Prop) :
  0 <= off <= i_size x -> off + n <= MAXFILE * 1024 -> n <= Z.of_nat (length bs) -> C <= Z.of_nat cap ->
  feeds i b0 src bs ->
  writing view x bs off n C tot view1 x1 L1 -> in_txn s L1 view1 ∅ -> fs_sb s = sb -> fs_inode s !! ip = Some x1 ->
  0 <= tot <= n -> (tot < n -> n - tot + (off + tot) mod 1024 <= 1024 * Z.of_nat fuel) ->
  (forall l' view' x' L', writing view x bs off n C n view' x' L' -> in_txn (with_inode ip x' l' s) L' view' ∅ ->
     Q (off + n) (with_inode ip x' l' s)) ->
  wp (writei_loop fuel ip (source_plus src tot) (off + tot) n tot) Q s.
Proof.
  intros Hoff Hmax Hn HC Hsrc. revert tot view1 x1 L1 s.
  induction fuel as [|fuel IH]; intros tot view1 x1 L1 s Hwr Ht Esb Hx Htot Hfuel HQ;
    pose proof (Z.mod_pos_bound (off + tot) 1024 eq_refl) as Hmod; cbn [writei_loop];
    destruct (Z.ltb_spec tot n) as [Hlt|Hge]; try lia.
  1, 3: assert (tot = n) as -> by lia; bstep; rewrite (with_inode_id ip x1 s Hx); eapply HQ; [done|by rewrite <- with_inode_id].
  assert (0 <= (off + tot) / 1024 < MAXFILE) as Hbn by (unfold MAXFILE in *; divlia).
  pose proof (wr_log _ _ _ _ _ _ _ _ _ _ Hwr) as Hlog. pose proof (wr_free _ _ _ _ _ _ _ _ _ _ Hwr) as Hfree.
  bstep. eapply wp_bmap; [done|exact Ht|done|done|apply Hwr|apply Hwr|done| |].
  { intros E0. pose proof (unmapped_aligned _ _ _ _ _ _ _ _ _ _ Hwr ltac:(lia) E0) as Em.
    assert (1 <= blocks (off + tot) (n - tot)) by (unfold blocks; divlia).
    unfold cost in Hlog. rewrite Em, (proj2 (Z.leb_gt (n - tot) 0)) in Hlog by lia. cbn [Z.eqb] in Hlog. split; [|lia].
    unfold need_at. destruct (Z.ltb_spec ((off + tot) / 1024) (Z.of_nat NDIRECT)); [lia|].
    unfold need_to in Hfree. rewrite (proj2 (Z.leb_gt _ _)) in Hfree by divlia. lia. }
  intros l2 L2 view2 x2 H2 Hmp. bstep. eapply wp_geti; [by eapply with_inode_lookup|].
  rewrite (fw_dev _ _ _ _ _ (mp_wf _ _ _ _ _ _ _ _ _ _ Hmp)).
  destruct (fw_block _ _ _ _ _ (mp_wf _ _ _ _ _ _ _ _ _ _ Hmp) _ (owns_addr view2 x2 _ Hbn (mp_addr _ _ _ _ _ _ _ _ _ _ Hmp))) as (Hd & _).
  bstep. eapply wp_fs_bread; [exact H2|apply Hd|apply lookup_empty|rewrite map_size_empty; lia|]. intros a l3 H3.
  pose proof (writing_step _ _ _ _ _ _ _ _ _ _ _ _ _ Hwr Hoff ltac:(lia) Hn Hmax Hmp) as Hwr'.
  cbv zeta in Hwr' |- *. set (m := Z.min (n - tot) (1024 - (off + tot) mod 1024)) in *.
  bstep. eapply wp_fs_copyin; [exact H3|done|lia..|]. intros l4 H4. bstep. eapply wp_fs_data; [exact H4|apply lookup_insert_eq|].
  bstep. eapply wp_fs_setdata; [exact H4|apply lookup_insert_eq|]. intros l5 H5. cbn [Z.eqb].
  bstep. eapply wp_fs_log_write; [exact H5|apply lookup_insert_eq|apply Hd| |].
  { etrans; [apply (charge_le _ x2)|]. pose proof (wr_log _ _ _ _ _ _ _ _ _ _ Hwr').
    pose proof (cost_nonneg (off + (tot + m)) (n - (tot + m))). lia. }
  intros l6 H6. bstep. eapply wp_fs_brelse; [exact H6|apply lookup_insert_eq|]. intros l7 H7.
  rewrite delete_insert_id in H7 by apply lookup_empty. rewrite source_plus_plus by lia.
  rewrite <- Z.add_assoc. change (set_fs_l l7 _) with (with_inode ip x2 l7 s) in H7 |- *.
  eapply (IH _ _ x2); [exact Hwr'|exact H7|done|by eapply with_inode_lookup|lia| |].
  - intros Hlt'. specialize (Hfuel Hlt). assert (m = 1024 - (off + tot) mod 1024) as Em by lia. divlia.
  - intros l8 view8 x8 L8 Hwr8 H8. rewrite with_inode_twice in *. by eapply HQ.
Qed.

(** ** iupdate *)

Hypothesis Hinodes : forall inum, 0 <= inum < sb_ninodes sb -> fs_block start lsize (IBLOCK inum sb).

Lemma wp_iupdate s L view x ip (Q : unit -> fsst -> Prop) :
  in_txn s L view ∅ -> fs_sb s = sb -> fs_inode s !! ip = Some x -> i_dev x = 1 -> 0 <= i_inum x < sb_ninodes sb ->
  let blk := IBLOCK (i_inum x) sb in (size ({[blk]} ∪ L) <= cap)%nat ->
  (forall l', in_txn (set_fs_l l' s) ({[blk]} ∪ L)
       (apply_write view (blk, put_dinode (view blk) (dinode_off (i_inum x)) x)) ∅ -> Q tt (set_fs_l l' s)) ->
  wp (iupdate ip) Q s.
Proof.
  intros Ht Esb Hx Ed Hi blk Hc HQ. unfold iupdate. bstep. eapply wp_geti; [exact Hx|]. cbn [id]. bstep. bstep.
  rewrite Esb, Ed. fold blk. pose proof (Hinodes _ Hi) as Hb. bstep.
  eapply wp_fs_bread; [exact Ht|done|apply lookup_empty|rewrite map_size_empty; lia|]. intros a l1 H1.
  bstep. eapply wp_fs_data; [exact H1|apply lookup_insert_eq|].
  bstep. eapply wp_fs_setdata; [exact H1|apply lookup_insert_eq|]. intros l2 H2.
  bstep. eapply wp_fs_log_write; [exact H2|apply lookup_insert_eq|apply Hb|done|]. intros l3 H3.
  eapply wp_fs_brelse; [exact H3|apply lookup_insert_eq|]. intros l4 H4.
  rewrite delete_insert_id in H4 by apply lookup_empty. by apply HQ.
Qed.

(** The disk after iupdate of the inode of a file. *)
Lemma update_inode view x :
  bitmap_ok view -> file_wf view x -> inode_wf x -> length (view (IBLOCK (i_inum x) sb)) = 1024%nat ->
  let blk := IBLOCK (i_inum x) sb in
  let view' := apply_write view (blk, put_dinode (view blk) (dinode_off (i_inum x)) x) in
  bitmap_ok view' /\ file_wf view' x /\ on_disk sb view' x /\ keeps view x view' x /\
  (forall n, addr_of view' x n = addr_of view x n) /\
  (forall k, 0 <= k / 1024 < MAXFILE -> addr_of view x (k / 1024) <> 0 -> byte_at view' x k = byte_at view x k) /\
  free_blocks sb view' = free_blocks sb view.
Proof.
  intros Hok Hw Hwf Hl blk view'. pose proof (fw_inum _ _ _ _ _ Hw) as Hi.
  assert (off_map sb blk) as Hoff by (intros b Hb; by apply Hareas).
  destruct (same_data start lsize sb view view' x) as (Hw' & Ea & Hk & Eb); [|done|].
  { intros b Hd. split; [|apply used_write; [pose proof (db_low _ _ _ _ Hd); lia|done]].
    unfold view', apply_write. cbn [fst snd]. rewrite decide_False; [done|]. by apply (db_inode _ _ _ _ Hd). }
  split_and!; try done; [by apply bitmap_ok_write| |by apply free_write]. split.
  - unfold view', apply_write. cbn [fst snd]. fold blk. by rewrite decide_True, length_put_dinode.
  - unfold view', apply_write. cbn [fst snd]. fold blk. rewrite decide_True by done.
    pose proof (Z.mod_pos_bound (i_inum x) IPB eq_refl) as Hm. unfold IPB in Hm.
    rewrite get_put_dinode; [by destruct x|done|]. unfold dinode_off, IPB. fold blk in Hl. lia.
Qed.

(** ** writei *)

(** The contents when everything has been written and the size is up to date. *)
Lemma writing_contents view x bs off C view1 x1 L1 :
  let n := Z.of_nat (length bs) in
  writing view x bs off n C n view1 x1 L1 -> 0 <= off <= i_size x -> off + n <= MAXFILE * 1024 ->
  contents view1 (set_i_size (Z.max (i_size x) (off + n)) x1) = splice (contents view x) (Z.to_nat off) bs.
Proof.
  intros n [] Hoff Hmax. apply list_eq. intros k.
  assert (length (contents view x) = Z.to_nat (i_size x)) as El by (unfold contents; by rewrite length_fmap, length_zseq).
  rewrite splice_lookup, !contents_lookup by lia. cbn [i_size set_i_size].
  change (byte_at view1 (set_i_size _ x1)) with (byte_at view1 x1).
  destruct (decide (k < Z.to_nat (Z.max (i_size x) (off + n)))%nat) as [Hk|Hk].
  - rewrite wr_bytes0 by lia. destruct (decide (off <= Z.of_nat k < off + n)) as [Hin|Hin].
    + rewrite decide_True by lia. replace (Z.to_nat (Z.of_nat k - off)) with (k - Z.to_nat off)%nat by lia.
      destruct (lookup_lt_is_Some_2 bs (k - Z.to_nat off)%nat) as [y ->]; [lia|done].
    + rewrite decide_False, decide_True by lia. done.
  - rewrite !decide_False by lia. done.
Qed.

(** What writei leaves: the file with [bs] at [off], in memory and on the disk, the
    other files as they were. *)
Record written (view : disk) (x : inode) (bs : list Z) (off : Z) (view' : disk) (x' : inode) : Prop := {
  wt_ok : bitmap_ok view';
  wt_file : file_ok start lsize sb view' x';
  wt_same : x' = set_i_size (i_size x') (set_i_addrs (i_addrs x') x);
  wt_contents : contents view' x' = splice (contents view x) (Z.to_nat off) bs;
  wt_keeps : keeps view x view' x';
  wt_tail : tail_zero view x -> tail_zero view' x';
}.

Lemma written_nil view x off :
  bitmap_ok view -> file_ok start lsize sb view x -> written view x [] off view x.
Proof.
  intros Hok Hf. split; try done; [by destruct x|]. unfold splice. cbn [app length]. by rewrite Nat.add_0_r, take_drop.
Qed.

Lemma written_update view x bs off C view1 x1 L1 :
  let n := Z.of_nat (length bs) in
  writing view x bs off n C n view1 x1 L1 -> file_ok start lsize sb view x -> 0 <= off <= i_size x -> off + n <= MAXFILE * 1024 ->
  let x2 := set_i_size (Z.max (i_size x) (off + n)) x1 in
  let blk := IBLOCK (i_inum x2) sb in
  written view x bs off (apply_write view1 (blk, put_dinode (view1 blk) (dinode_off (i_inum x2)) x2)) x2.
Proof.
  intros n Hwr [Hw Hm Hwf Hdisk] Hoff Hmax x2 blk. pose proof (writing_contents _ _ _ _ _ _ _ _ Hwr Hoff Hmax) as Ec.
  fold n x2 in Ec. destruct Hwr. pose proof (fw_size _ _ _ _ _ Hw) as Hsz. pose proof (fw_inum _ _ _ _ _ Hw) as Hi.
  assert (file_wf view1 x2) as Hw2 by (apply file_wf_size; [done|lia]).
  assert (i_inum x2 = i_inum x) as Ei by (unfold x2; rewrite wr_inode0; done).
  assert (inode_wf x2) as Hwf2.
  { pose proof (file_addrs _ _ _ _ _ wr_ok0 Hw2). unfold x2 in *. rewrite wr_inode0 in *. destruct Hwf. cbn in *.
    split; try done; [unfold is_u32, MAXFILE in *; cbn; lia|]. rewrite <- (fw_addrs _ _ _ _ _ wr_wf0). by rewrite wr_inode0. }
  destruct (update_inode view1 x2) as (Hok3 & Hw3 & Hd3 & Hk3 & Ea3 & Eb3 & _); [done..| |].
  { rewrite Ei, wr_inodes0 by done. apply Hdisk. }
  split; try done.
  - split; try done. intros bn Hbn Hlt. rewrite Ea3. by apply wr_mapped0.
  - unfold x2. rewrite wr_inode0. by destruct x.
  - rewrite <- Ec. unfold contents. apply list_fmap_ext. intros j k Hk%list_elem_of_lookup_2. apply elem_of_zseq in Hk.
    change (i_size x2) with (Z.max (i_size x) (off + n)) in Hk. unfold MAXFILE in *.
    apply Eb3; [unfold MAXFILE; divlia|]. apply wr_mapped0; divlia.
  - eapply keeps_trans; [exact wr_keeps0|exact Hk3].
  - intros Ht k Hk Hkm Hka. rewrite Ea3 in Hka. change (i_size x2) with (Z.max (i_size x) (off + n)) in Hk.
    rewrite Eb3 by (done || divlia). by apply wr_tail0.
Qed.

Lemma wp_writei src view x bs off ip L s (Q : Z -> fsst -> Prop) :
  let n := Z.of_nat (length bs) in
  feeds i b0 src bs -> source_wf src ->
  in_txn s L view ∅ -> fs_sb s = sb -> fs_inode s !! ip = Some x -> bitmap_ok view -> file_ok start lsize sb view x ->
  0 <= off <= i_size x -> off + n <= MAXFILE * 1024 ->
  Z.of_nat (charge L x) + cost off n + 1 <= Z.of_nat cap ->
  Z.of_nat (need_to x (off + n)) + blocks off n <= Z.of_nat (nfree sb view) ->
  (forall l' view' x' L', written view x bs off view' x' -> in_txn (with_inode ip x' l' s) L' view' ∅ ->
     Q n (with_inode ip x' l' s)) ->
  wp (writei ip src off n) Q s.
Proof.
  intros n Hsrc Hsw Ht Esb Hx Hok Hfile Hoff Hmax Hc Hf HQ. pose proof Hfile as [Hw Hm Hwf Hdisk].
  pose proof (fw_size _ _ _ _ _ Hw) as Hsz. unfold MAXFILE in *.
  unfold writei. bstep. eapply wp_geti; [exact Hx|]. assert (u32 (off + n) = off + n) as Eu by (apply Z.mod_small; lia).
  rewrite Eu, (proj2 (Z.ltb_ge (i_size x) _)), (proj2 (Z.ltb_ge (off + n) _)) by lia. cbn [orb].
  rewrite (proj2 (Z.ltb_ge _ _)) by (unfold MAXFILE; lia). bstep. destruct (decide (bs = [])) as [->|Hne].
  { change (wp (writei_loop 2 ip src off 0 0) (fun _ s1 => wp (mret tt;; mret 0) Q s1) s). cbn [writei_loop Z.ltb Z.compare].
    bstep. bstep. bstep. bstep. rewrite (with_inode_id ip x s Hx).
    eapply HQ; [by apply written_nil|by rewrite <- with_inode_id]. }
  assert (0 < n) as Hn by (destruct bs; [done|]; unfold n; cbn; lia).
  pose proof (writing_start view x bs off n (Z.of_nat cap - 1) L Hok Hw Hm ltac:(lia) ltac:(lia) Hf) as Hwr.
  rewrite <- (Z.add_0_r off) at 1. rewrite <- Hsw.
  eapply (wp_writei_loop src view x bs); [done|done|done| |exact Hsrc|exact Hwr|exact Ht|done|done|lia| |]; [lia|intros _; unfold blocks_bound; divlia|].
  intros l1 view1 x1 L1 Hwr1 H1. rewrite (proj2 (Z.ltb_lt 0 n)) by done. cbn [when].
  assert (fs_inode (with_inode ip x1 l1 s) !! ip = Some x1) as Hx1 by by eapply with_inode_lookup.
  assert (i_size x1 = i_size x) as Es by by rewrite (wr_inode _ _ _ _ _ _ _ _ _ _ Hwr1).
  bstep. bstep. eapply wp_geti; [exact Hx1|]. rewrite Es. set (x2 := set_i_size (Z.max (i_size x) (off + n)) x1).
  assert (wp (iupdate ip) (fun _ s' => wp (mret n) Q s') (with_inode ip x2 l1 s)) as Hup.
  { assert (file_wf view1 x2) as Hw2 by (apply file_wf_size; [apply Hwr1|unfold MAXFILE; lia]).
    eapply wp_iupdate; [by eapply in_op_l; [|exact H1]|done|by eapply with_inode_lookup|apply Hw2|apply Hw2| |].
    - pose proof (wr_log _ _ _ _ _ _ _ _ _ _ Hwr1). pose proof (charge_le L1 x1). rewrite Z.sub_diag in H. cbn in H.
      pose proof (size_add (IBLOCK (i_inum x2) sb) L1). lia.
    - intros l2 H2. bstep. eapply (HQ l2); [by eapply written_update|exact H2]. }
  bstep. destruct (Z.ltb_spec (i_size x) (off + n)) as [Hlt|Hge]; cbn [when].
  - eapply wp_seti; [exact Hx1|]. rewrite with_inode_twice. replace (off + n) with (Z.max (i_size x) (off + n)) at 1 by lia. done.
  - bstep. replace x2 with x1 in Hup; [done|]. unfold x2. rewrite Z.max_l, <- Es by lia. by destruct x1.
Qed.
End write.
