(* ===== verification/FsTheorems.v ===== *)
(** * Theorems on the files of kernel/fs.c

    [writei_correct] and [readi_correct] say what writing and reading a file do to its
    contents, to the other files and to the disk; [write_read] puts them together;
    [writei_fits] is the bound on the log that filewrite relies on. *)

From Stdlib Require Import ZArith Lia.
From stdpp Require Import base list gmap sets strings.
From S2P Require Import Prelude KString Spinlock Riscv Kalloc Vm Proc Sleeplock Bio BioInv BioProofs Log LogSpec LogProofs LogTxn Fs FsTxn FsAlloc FsProofs FsFile FsRw FsWrite.

(** The areas that the super block describes: the blocks of inodes are blocks of the
    file system and not of the bitmap. *)
Record areas (start lsize : Z) (sb : superblock) : Prop := {
  ar_map : forall inum b, 0 <= inum < sb_ninodes sb -> 0 <= b < sb_size sb -> IBLOCK inum sb <> BBLOCK b sb;
  ar_inodes : forall inum, 0 <= inum < sb_ninodes sb -> fs_block start lsize (IBLOCK inum sb);
}.

Section theorems.
Context (i : nat) (start lsize : Z) (b0 : bst) (cap : nat) (sb : superblock).
Context (s : fsst) (L : gset Z) (view : disk) (ip : nat) (x : inode).

(** An operation is running, and has inode [ip] locked, a file. *)
Record opened : Prop := {
  op_areas : areas start lsize sb;
  op_txn : in_txn i start lsize b0 cap s L view ∅;
  op_sb : fs_sb s = sb;
  op_inode : fs_inode s !! ip = Some x;
  op_map : bitmap_ok start lsize sb view;
  op_file : file_ok start lsize sb view x;
}.

(** Room on the disk and in the log for a write. *)
Definition room (off n : Z) : Prop :=
  Z.of_nat (charge L x) + cost off n + 1 <= Z.of_nat cap /\
  Z.of_nat (need_to x (off + n)) + blocks off n <= Z.of_nat (nfree sb view).

(** Readi into the kernel returns the bytes of the file from [off] on, as many as
    were asked for and are there, none if [off] is behind the end or [off + n]
    overflows, and it changes neither the file nor the disk. *)
Theorem readi_correct off n :
  opened -> is_u32 off -> is_u32 n ->
  let r := read_len (i_size x) off n in
  exists l', readi ip DKern off n s = Ret (r, take (Z.to_nat r) (drop (Z.to_nat off) (contents view x))) (set_fs_l l' s) /\
    in_txn i start lsize b0 cap (set_fs_l l' s) L view ∅.
Proof.
  intros [Har Ht Esb Hx Hok [Hw Hm _ _]] Hoff Hn r.
  assert (wp (readi ip DKern off n) (fun v s' => v = (r, take (Z.to_nat r) (drop (Z.to_nat off) (contents view x))) /\
    exists l', s' = set_fs_l l' s /\ in_txn i start lsize b0 cap s' L view ∅) s) as Hwp.
  { eapply wp_readi; [exact Hw|exact Hm|exact Ht|done..|]. eauto. }
  apply wp_inv in Hwp as (v & s' & E & -> & l' & -> & H'). eauto.
Qed.


Lemma length_contents v y : length (contents v y) = Z.to_nat (i_size y).
Proof. unfold contents. by rewrite length_fmap, length_zseq. Qed.

(** C4: What is written at an offset of a file is what is read there afterwards. *)
Theorem write_read src bs off :
  opened -> feeds i b0 src bs -> source_wf src -> 0 <= off <= i_size x ->
  let n := Z.of_nat (length bs) in
  off + n <= MAXFILE * 1024 -> room off n ->
  exists s', (r ← writei ip src off n; '(k, d) ← readi ip DKern off n; mret (r, k, d)) s = Ret (n, n, bs) s'.
Proof.
  intros [Har Ht Esb Hx Hok Hfile] Hsrc Hsw Hoff n Hmax [Hc Hf].
  assert (wp (r ← writei ip src off n; '(k, d) ← readi ip DKern off n; mret (r, k, d)) (fun v _ => v = (n, n, bs)) s) as Hwp.
  { bstep. eapply wp_writei; [apply Har|apply Har|exact Hsrc|done|exact Ht|done|done|exact Hok|done|done|done..|].
    intros l' view' x' L' [] H'. pose proof (length_contents view' x') as El. pose proof (length_contents view x) as El0.
    rewrite wt_contents in El. unfold splice in El. rewrite !length_app, length_take, length_drop in El.
    pose proof (fw_size _ _ _ _ _ (fo_wf _ _ _ _ _ wt_file)) as Hs'. pose proof (fw_size _ _ _ _ _ (fo_wf _ _ _ _ _ Hfile)).
    unfold MAXFILE in *. bstep.
    eapply (wp_readi i start lsize b0 cap sb L' view' x'); [apply wt_file|apply wt_file|exact H'|done|by eapply with_inode_lookup|unfold is_u32; lia..|].
    intros l2 _. cbv zeta iota beta. bstep. assert (read_len (i_size x') off n = n) as ->.
    { unfold read_len. rewrite (proj2 (Z.ltb_ge _ _)), (proj2 (Z.leb_gt _ _)) by lia. cbn [orb]. lia. }
    rewrite wt_contents. unfold splice. rewrite drop_app_length', take_app_length' by (rewrite ?length_take; lia). done. }
  apply wp_inv in Hwp as (v & s' & E & ->). eauto.
Qed.
End theorems.


(** ** Examples *)

Lemma demo_areas : areas 2 30 demo_sb.
Proof.
  split.
  - intros inum b. unfold IBLOCK, BBLOCK, IPB, BPB. cbn. divlia.
  - intros inum. unfold IBLOCK, IPB. cbn. intros Hi. split; unfold in_log; divlia.
Qed.

(** The two small files. *)
Lemma demo_addr v x a bn : i_addrs x = a :: replicate 12 0 -> 0 <= bn -> addr_of v x bn = if bn =? 0 then a else 0.
Proof.
  intros Ex Hbn. unfold addr_of. assert (ind x = 0) as -> by (unfold ind; by rewrite Ex).
  rewrite Ex. destruct (Z.eqb_spec bn 0) as [->|Hne]; [done|].
  destruct (bn <? Z.of_nat NDIRECT); [|done].
  rewrite lookup_cons_ne_0 by lia. destruct (replicate 12 0 !! pred (Z.to_nat bn)) as [y|] eqn:E; [|done].
  apply lookup_replicate in E as [-> _]. done.
Qed.

Lemma demo_zero v x a bn : i_addrs x = a :: replicate 12 0 -> 0 <= bn -> addr_of v x bn <> 0 -> bn = 0.
Proof. intros Ex Hbn. rewrite (demo_addr _ x a) by done. by destruct (Z.eqb_spec bn 0). Qed.

Lemma demo_owns v x a b : i_addrs x = a :: replicate 12 0 -> owns v x b -> b = a.
Proof.
  intros Ex [Hb [->|(bn & Hbn & <-)]]; [by unfold ind in Hb; rewrite Ex in Hb|].
  rewrite (demo_addr v x a) in * by (done || lia). by destruct (bn =? 0).
Qed.

Lemma demo_file_wf x a :
  i_addrs x = a :: replicate 12 0 -> 46 <= a < 48 -> length (demo_view a) = 1024%nat ->
  i_dev x = 1 -> 0 <= i_inum x < 200 -> 0 <= i_size x <= 1024 ->
  file_wf 2 30 demo_sb demo_view x /\ mapped_to demo_view x (i_size x).
Proof.
  intros Ex Ha Hl Hd Hi Hs. split; [split|].
  - exact Hd.
  - exact Hi.
  - rewrite Ex. reflexivity.
  - unfold MAXFILE. lia.
  - intros b ->%(demo_owns _ _ a); [|exact Ex]. split; [apply demo_data; lia|]. split; [|exact Hl].
    rewrite demo_bits by lia. apply Z.ltb_lt. lia.
  - intros bn Hbn Hne E. assert (ind x = 0) as Ei by (unfold ind; rewrite Ex; reflexivity). rewrite Ei in E. contradiction.
  - intros bn bn' Hbn Hbn' Hne E. rewrite (demo_zero _ x a bn Ex ltac:(lia) Hne). rewrite E in Hne.
    symmetry. apply (demo_zero _ x a bn' Ex ltac:(lia) Hne).
  - intros bn Hbn Hlt. rewrite (demo_addr _ x a _ Ex Hbn), (proj2 (Z.eqb_eq bn 0)) by lia. lia.
Qed.

Lemma demo_inode_ok x a :
  i_addrs x = a :: replicate 12 0 -> 46 <= a < 48 -> i_major x = 0 -> i_minor x = 0 -> i_nlink x = 1 ->
  0 <= i_type x <= 3 -> 0 <= i_size x <= 1024 -> inode_wf x.
Proof.
  intros Ex Ha E1 E2 E3 Et Es. split; rewrite ?E1, ?E2, ?E3, ?Ex; unfold is_u32; try lia; [done|].
  constructor; [lia|]. apply Forall_replicate. lia.
Qed.

Lemma demo_file_ok : file_ok 2 30 demo_sb demo_view demo_file.
Proof.
  destruct (demo_file_wf demo_file 46) as [Hw Hm]; [done|lia|unfold demo_view; by rewrite fresh_cache_disk|done|cbn; lia..|].
  split; [done|done|apply (demo_inode_ok _ 46); cbn; done || lia|].
  unfold on_disk. change (IBLOCK (i_inum demo_file) demo_sb) with 32. unfold demo_view. rewrite fresh_cache_disk.
  change (default zero_block (demo_disk !! 32)) with demo_inodes. split; vm_compute; reflexivity.
Qed.

Lemma demo_dir_ok : file_ok 2 30 demo_sb demo_view demo_dir.
Proof.
  destruct (demo_file_wf demo_dir 47) as [Hw Hm]; [done|lia|unfold demo_view; by rewrite fresh_cache_disk|done|cbn; lia..|].
  split; [done|done|apply (demo_inode_ok _ 47); cbn; done || lia|].
  unfold on_disk. change (IBLOCK (i_inum demo_dir) demo_sb) with 32. unfold demo_view. rewrite fresh_cache_disk.
  change (default zero_block (demo_disk !! 32)) with demo_inodes. split; vm_compute; reflexivity.
Qed.

Lemma demo_bytes x a d :
  i_addrs x = a :: replicate 12 0 -> 0 <= i_size x <= 1024 -> demo_disk !! a = Some d ->
  contents demo_view x = (fun k => default 0 (d !! Z.to_nat k)) <$> zseq 0 (Z.to_nat (i_size x)).
Proof.
  intros Ex Hs Ed. apply list_fmap_ext. intros j k Hk%list_elem_of_lookup_2.
  apply elem_of_zseq in Hk. unfold byte_at. replace (k / 1024) with 0 by divlia. rewrite Z.mod_small by lia.
  rewrite (demo_addr _ x a) by (done || lia). cbn [Z.eqb]. unfold demo_view. by rewrite fresh_cache_disk, Ed.
Qed.

Lemma demo_opened : opened 0 2 30 (fresh_cache demo_disk) 10 demo_sb demo_fs ∅ demo_view 0 demo_file.
Proof.
  split; [apply demo_areas|apply demo_in_txn; rewrite size_empty; lia|done..|apply demo_bitmap|apply demo_file_ok].
Qed.

Lemma demo_free : (5 <= nfree demo_sb demo_view)%nat.
Proof.
  etrans; [|apply (subseteq_size (list_to_set (zseq 48 5)))].
  - rewrite size_list_to_set by apply NoDup_zseq. by rewrite length_zseq.
  - intros b Hb%elem_of_list_to_set%elem_of_zseq. apply elem_of_free. cbn [demo_sb sb_size]. split; [lia|].
    rewrite demo_bits by lia. apply Z.ltb_ge. lia.
Qed.

Lemma demo_contents : contents demo_view demo_file = str "hello".
Proof. rewrite (demo_bytes _ 46 (str "hello" ++ replicate 1019 0)); [reflexivity|done|cbn; lia|reflexivity]. Qed.

Lemma demo_dir_contents : contents demo_view demo_dir = demo_entries.
Proof. rewrite (demo_bytes _ 47 (demo_entries ++ replicate 976 0)); [reflexivity|done|cbn; lia|reflexivity]. Qed.

Lemma readi_correct_witness : exists l',
  readi 0 DKern 1 100 demo_fs = Ret (4, str "ello") (set_fs_l l' demo_fs).
Proof.
  destruct (readi_correct 0 2 30 (fresh_cache demo_disk) 10 demo_sb demo_fs ∅ demo_view 0 demo_file 1 100 demo_opened)
    as (l' & E & _); [unfold is_u32; lia..|].
  rewrite demo_contents in E. exists l'. exact E.
Defined.


Lemma write_read_witness : exists s',
  (r ← writei 0 (SKern (str "p me!")) 3 5; '(k, d) ← readi 0 DKern 3 5; mret (r, k, d)) demo_fs = Ret (5, 5, str "p me!") s'.
Proof.
  apply (write_read 0 2 30 (fresh_cache demo_disk) 10 demo_sb demo_fs ∅ demo_view 0 demo_file (SKern (str "p me!")) (str "p me!") 3 demo_opened).
  - apply feeds_kern.
  - reflexivity.
  - cbn. lia.
  - vm_compute. discriminate.
  - split.
    + vm_compute. discriminate.
    + pose proof demo_free. change (Z.of_nat (need_to demo_file (3 + Z.of_nat (length (str "p me!")))) + blocks 3 (Z.of_nat (length (str "p me!")))) with 0. lia.
Defined.

