(* ===== verification/FsTrunc.v ===== *)
(** * Truncating files: itrunc of kernel/fs.c

    [itrunc_correct]: itrunc frees exactly the blocks of the file and leaves it empty,
    in memory and on the disk. *)

From Stdlib Require Import ZArith Lia.
From stdpp Require Import base list gmap sets strings.
From S2P Require Import Prelude KString Spinlock Riscv Kalloc Vm Proc Sleeplock Bio BioInv BioProofs Log LogSpec LogProofs LogTxn Fs FsTxn FsAlloc FsProofs FsFile FsRw FsWrite FsTheorems.

Section trunc.
Context (i : nat) (start lsize : Z) (b0 : bst) (cap : nat) (sb : superblock).

Abbreviation in_txn := (in_txn i start lsize b0 cap).
Abbreviation data_block := (data_block start lsize sb).
Abbreviation bitmap_ok := (bitmap_ok start lsize sb).
Abbreviation used := (used sb).
Abbreviation file_wf := (file_wf start lsize sb).

(** The disk [view] with the blocks [F] freed. *)
Record freed (view : disk) (F : gset Z) (view1 : disk) : Prop := {
  fr_ok : bitmap_ok view1;
  fr_used : forall b, 0 <= b < sb_size sb -> used view1 b = used view b && negb (bool_decide (b ∈ F));
  fr_view : forall blk, off_map sb blk -> view1 blk = view blk;
}.

Lemma freed_nil view : bitmap_ok view -> freed view ∅ view.
Proof. intros Hok. split; [done| |done]. intros b _. rewrite bool_decide_false by set_solver. by rewrite andb_true_r. Qed.

Lemma freed_mark view F view1 a :
  freed view F view1 -> data_block a -> used view a = true -> a ∉ F ->
  used view1 a = true /\ freed view ({[a]} ∪ F) (mark sb view1 a false).
Proof.
  intros [Hok Hu Hv] Hd Ha Hn. pose proof (db_low _ _ _ _ Hd) as Hlow. split.
  { rewrite Hu, Ha, bool_decide_false by (done || lia). done. }
  split.
  - apply bitmap_ok_mark; [done|lia|done].
  - intros b Hb. erewrite used_mark; [|exact Hok|lia|done]. destruct (decide (b = a)) as [->|Hne].
    + rewrite bool_decide_true by set_solver. by rewrite andb_false_r.
    + rewrite Hu by done. f_equal. f_equal. apply bool_decide_ext. set_solver.
  - intros blk Hoff. rewrite mark_other; [by apply Hv|]. apply Hoff. lia.
Qed.

Lemma wp_free_block s L view F view1 H a (Q : unit -> fsst -> Prop) :
  in_txn s L view1 H -> fs_sb s = sb -> freed view F view1 -> data_block a -> used view a = true -> a ∉ F ->
  BBLOCK a sb ∈ L -> (forall y c, H !! y = Some c -> data_block y) -> (size H < 4)%nat ->
  (forall l' view', in_txn (set_fs_l l' s) L view' H -> freed view ({[a]} ∪ F) view' -> Q tt (set_fs_l l' s)) ->
  wp (bfree 1 a) Q s.
Proof.
  intros Ht Esb Hfr Hd Hu Hn HL HH Hs HQ. pose proof (db_low _ _ _ _ Hd) as Hlow.
  destruct (freed_mark _ _ _ _ Hfr Hd Hu Hn) as [Hu1 Hfr'].
  assert ({[BBLOCK a sb]} ∪ L = L) as EL by set_solver.
  eapply wp_bfree; [exact Ht|done|apply Hfr|lia|done| |done| |].
  - destruct (H !! BBLOCK a sb) as [c|] eqn:E; [|done]. destruct (db_map _ _ _ _ (HH _ _ E) a); [lia|done].
  - rewrite EL. by eapply in_op_cap.
  - intros l' H'. rewrite EL in H'. by eapply HQ.
Qed.

(** *** The blocks of one file *)

Section file.
Context (view : disk) (x : inode) (L : gset Z) (ip : nat).
Hypothesis Hok : bitmap_ok view.
Hypothesis Hw : file_wf view x.
Hypothesis HL : forall a, owns view x a -> BBLOCK a sb ∈ L.

(** The first [k] blocks of the file. *)
Definition first_blocks (k : nat) : gset Z := list_to_set (addr_of view x <$> zseq 0 k) ∖ {[0]}.

Lemma elem_of_first k b : b ∈ first_blocks k <-> b <> 0 /\ exists bn, 0 <= bn < Z.of_nat k /\ addr_of view x bn = b.
Proof.
  unfold first_blocks. rewrite elem_of_difference, elem_of_list_to_set, not_elem_of_singleton, list_elem_of_fmap.
  split.
  - intros [(bn & -> & Hbn%elem_of_zseq) H0]. split; [done|]. exists bn. split; [lia|done].
  - intros [H0 (bn & Hbn & <-)]. split; [|done]. exists bn. split; [done|]. apply elem_of_zseq. lia.
Qed.

Lemma first_blocks_S k :
  first_blocks (S k) = (if addr_of view x (Z.of_nat k) =? 0 then first_blocks k
                        else {[addr_of view x (Z.of_nat k)]} ∪ first_blocks k).
Proof.
  apply set_eq. intros b. rewrite elem_of_first.
  assert ((b <> 0 /\ exists bn, 0 <= bn < Z.of_nat (S k) /\ addr_of view x bn = b) <->
    (b <> 0 /\ b = addr_of view x (Z.of_nat k)) \/ b ∈ first_blocks k) as ->.
  { rewrite elem_of_first. split.
    - intros [H0 (bn & Hbn & E)]. destruct (decide (bn = Z.of_nat k)) as [->|Hne]; [by left|right].
      split; [done|]. exists bn. split; [lia|done].
    - intros [[H0 ->]|[H0 (bn & Hbn & E)]]; (split; [done|]); [exists (Z.of_nat k)|exists bn]; (split; [lia|done]). }
  destruct (Z.eqb_spec (addr_of view x (Z.of_nat k)) 0) as [E|E]; [|set_solver].
  rewrite E. naive_solver.
Qed.

(** The next block is still there. *)
Lemma next_block k :
  Z.of_nat k < MAXFILE -> addr_of view x (Z.of_nat k) <> 0 ->
  data_block (addr_of view x (Z.of_nat k)) /\ used view (addr_of view x (Z.of_nat k)) = true /\
  (addr_of view x (Z.of_nat k) ∉ first_blocks k) /\ (BBLOCK (addr_of view x (Z.of_nat k)) sb ∈ L).
Proof.
  intros Hk Ha. pose proof (owns_addr view x (Z.of_nat k) ltac:(lia) Ha) as Ho.
  destruct (fw_block _ _ _ _ _ Hw _ Ho) as (Hd & Hu & _). split_and!; [done|done| |by apply HL].
  intros [_ (bn & Hbn & E)]%elem_of_first.
  assert (Z.of_nat k = bn) by (apply (fw_inj _ _ _ _ _ Hw); [lia|lia|done|done]). lia.
Qed.

(** The inode after [k] direct blocks have been freed. *)
Definition cleared (k : nat) : inode := set_i_addrs (replicate k 0 ++ drop k (i_addrs x)) x.

Lemma cleared_addr k : (k < NDIRECT)%nat -> i_addrs (cleared k) !! k = Some (addr_of view x (Z.of_nat k)).
Proof.
  intros Hk. cbn. rewrite lookup_app_r, length_replicate, Nat.sub_diag, lookup_drop, Nat.add_0_r by (rewrite length_replicate; lia).
  unfold addr_of. rewrite (proj2 (Z.ltb_lt _ _)), Nat2Z.id by lia.
  destruct (lookup_lt_is_Some_2 (i_addrs x) k) as [a ->]; [|done]. rewrite (fw_addrs _ _ _ _ _ Hw). unfold NDIRECT in *. lia.
Qed.

Lemma cleared_S k : (k < length (i_addrs x))%nat ->
  set_i_addrs (<[k := 0]> (i_addrs (cleared k))) x = cleared (S k).
Proof.
  intros Hk. unfold cleared. f_equal. cbn [i_addrs set_i_addrs].
  rewrite insert_app_r_alt, length_replicate, Nat.sub_diag by (rewrite length_replicate; lia).
  destruct (lookup_lt_is_Some_2 (i_addrs x) k Hk) as [a Ha]. rewrite (drop_S _ _ _ Ha).
  cbn [insert list_insert]. rewrite replicate_S_end, <- app_assoc. done.
Qed.

Lemma cleared_same k : i_addrs x !! k = Some 0 -> cleared (S k) = cleared k.
Proof.
  intros E. unfold cleared. f_equal. rewrite (drop_S _ _ _ E), replicate_S_end, <- app_assoc. done.
Qed.

Lemma wp_trunc_direct s (Q : option unit -> fsst -> Prop) :
  in_txn s L view ∅ -> fs_sb s = sb -> fs_inode s !! ip = Some x ->
  (forall l' view', in_txn (with_inode ip (cleared NDIRECT) l' s) L view' ∅ ->
     freed view (first_blocks NDIRECT) view' -> Q None (with_inode ip (cleared NDIRECT) l' s)) ->
  wp (for_each (seq 0 NDIRECT) (fun k =>
        a ← geti ip (fun x => default 0 (i_addrs x !! k));
        when (negb (a =? 0))
          (bfree 1 a;;
           seti ip (fun x => set_i_addrs (<[k := 0]> (i_addrs x)) x));;
        mret (None : option unit))) Q s.
Proof.
  intros Ht Esb Hx HQ.
  apply (wp_for_seq (fun k s1 => exists l1 view1, s1 = with_inode ip (cleared k) l1 s /\
    in_txn s1 L view1 ∅ /\ freed view (first_blocks k) view1)).
  - exists (fs_l s), view. assert (cleared 0 = x) as Ec by (unfold cleared; cbn; by destruct x).
    rewrite Ec, <- (with_inode_id ip x s) by done. split_and!; [done|done|by apply freed_nil].
  - intros k s1 Hk (l1 & view1 & -> & H1 & Hf1).
    assert (fs_inode (with_inode ip (cleared k) l1 s) !! ip = Some (cleared k)) as Hx1 by by eapply with_inode_lookup.
    pose proof (cleared_addr k Hk) as Ea. pose proof (first_blocks_S k) as Ef. set (a := addr_of view x (Z.of_nat k)) in *.
    bstep. eapply wp_geti; [exact Hx1|]. rewrite Ea. cbn [default from_option id]. destruct (Z.eqb_spec a 0) as [E0|E0]; cbn [negb when].
    + bstep. bstep. bstep. split; [done|]. exists l1, view1. rewrite Ef, cleared_same; [done|].
      rewrite <- E0, <- Ea. cbn. by rewrite lookup_app_r, length_replicate, Nat.sub_diag, lookup_drop, Nat.add_0_r by (rewrite length_replicate; lia).
    + destruct (next_block k) as (Hd & Hu & Hn & HLa); [unfold MAXFILE, NDIRECT in *; lia|done|].
      bstep. bstep. eapply wp_free_block; [exact H1|done|exact Hf1|done..|by intros ? ?; rewrite lookup_empty|rewrite map_size_empty; lia|].
      intros l2 view2 H2 Hf2. eapply wp_seti; [exact Hx1|]. bstep. split; [done|]. exists l2, view2.
      rewrite Ef. change (set_i_addrs (<[k:=0]> (i_addrs (cleared k))) (cleared k)) with (set_i_addrs (<[k:=0]> (i_addrs (cleared k))) x).
      rewrite cleared_S by (rewrite (fw_addrs _ _ _ _ _ Hw); unfold NDIRECT in *; lia). rewrite with_inode_l, with_inode_twice. split_and!; [done| |done].
      by eapply in_op_l; [|exact H2].
  - intros s1 (l1 & view1 & -> & H1 & Hf1). by eapply HQ.
Qed.

Lemma wp_trunc_indirect s view0 a (Q : option unit -> fsst -> Prop) :
  ind x <> 0 -> in_txn s L view0 {[ind x := a]} -> fs_sb s = sb -> freed view (first_blocks NDIRECT) view0 ->
  (forall l' view', in_txn (set_fs_l l' s) L view' {[ind x := a]} ->
     freed view (first_blocks (Z.to_nat MAXFILE)) view' -> Q None (set_fs_l l' s)) ->
  wp (for_each (seq 0 NINDIRECT) (fun j =>
       d ← ↑ bdata a;
       when (negb (get_uint d (4 * j) =? 0)) (bfree 1 (get_uint d (4 * j)));;
       mret (None : option unit))) Q s.
Proof.
  intros Hi Ht Esb Hf HQ. destruct (fw_block _ _ _ _ _ Hw _ (owns_ind view x Hi)) as (Hdi & _).
  apply (wp_for_seq (fun j s1 => exists l1 view1, s1 = set_fs_l l1 s /\
    in_txn s1 L view1 {[ind x := a]} /\ freed view (first_blocks (NDIRECT + j)) view1)).
  - exists (fs_l s), view0. rewrite set_l_id. by rewrite Nat.add_0_r.
  - intros j s1 Hj (l1 & view1 & -> & H1 & Hf1).
    bstep. eapply wp_fs_data; [exact H1|apply lookup_singleton_eq|]. rewrite (fr_view _ _ _ Hf1) by by eapply data_off_map.
    assert (get_uint (view (ind x)) (4 * j) = addr_of view x (Z.of_nat (NDIRECT + j))) as Ea.
    { unfold addr_of. rewrite (proj2 (Z.ltb_ge _ _)), (proj2 (Z.eqb_neq _ _)) by (lia || done). do 2 f_equal. lia. }
    rewrite Ea. pose proof (first_blocks_S (NDIRECT + j)) as Ef. rewrite <- plus_n_Sm.
    destruct (Z.eqb_spec (addr_of view x (Z.of_nat (NDIRECT + j))) 0) as [E0|E0]; cbn [negb when].
    + bstep. bstep. bstep. split; [done|]. exists l1, view1. by rewrite Ef.
    + destruct (next_block (NDIRECT + j)) as (Hd & Hu & Hn & HLa); [unfold MAXFILE, NDIRECT, NINDIRECT in *; lia|done|].
      bstep. eapply wp_free_block; [exact H1|done|exact Hf1|done..| |rewrite map_size_singleton; lia|].
      { by intros y c [<- _]%lookup_singleton_Some. }
      intros l2 view2 H2 Hf2. bstep. split; [done|]. exists l2, view2. by rewrite Ef.
  - intros s1 (l1 & view1 & -> & H1 & Hf1). by eapply HQ.
Qed.

(** The inode of the empty file. *)
Definition emptied : inode := set_i_size 0 (set_i_addrs (replicate 13 0) x).

Lemma emptied_addr v bn : 0 <= bn < MAXFILE -> addr_of v emptied bn = 0.
Proof.
  intros Hbn. unfold addr_of. change (ind emptied) with 0. destruct (bn <? Z.of_nat NDIRECT); [|done].
  cbn [i_addrs emptied set_i_size set_i_addrs]. destruct (replicate 13 0 !! Z.to_nat bn) as [y|] eqn:E; [|done].
  by apply lookup_replicate in E as [-> _].
Qed.

Lemma emptied_owns v b : ~ owns v emptied b.
Proof. intros [Hb [->|(bn & Hbn & <-)]]; [done|]. by rewrite emptied_addr in Hb. Qed.

Lemma emptied_wf v : file_wf v emptied.
Proof.
  destruct Hw. split; try done.
  - intros b Ho. by apply emptied_owns in Ho.
  - intros bn bn' Hbn Hbn' Hne. by rewrite emptied_addr in Hne by done.
Qed.

Lemma first_blocks_all b : b ∈ (if ind x =? 0 then first_blocks NDIRECT
  else {[ind x]} ∪ first_blocks (Z.to_nat MAXFILE)) <-> owns view x b.
Proof.
  unfold owns. destruct (Z.eqb_spec (ind x) 0) as [E|E].
  - rewrite elem_of_first, E. split.
    + intros [H0 (bn & Hbn & Ea)]. split; [done|right]. exists bn. split; [unfold MAXFILE, NDIRECT in *; lia|done].
    + intros [H0 [?|(bn & Hbn & Ea)]]; [done|]. split; [done|]. exists bn. split; [|done].
      unfold addr_of in Ea. rewrite E in Ea. destruct (Z.ltb_spec bn (Z.of_nat NDIRECT)); [lia|]. cbn in Ea. congruence.
  - rewrite elem_of_union, elem_of_singleton, elem_of_first. split.
    + intros [->|[H0 (bn & Hbn & Ea)]]; [auto|]. split; [done|right]. exists bn. split; [unfold MAXFILE in *; lia|done].
    + intros [H0 [->|(bn & Hbn & Ea)]]; [by left|right]. split; [done|]. exists bn. split; [unfold MAXFILE in *; lia|done].
Qed.

Lemma wp_itrunc s (Q : unit -> fsst -> Prop) :
  (forall inum, 0 <= inum < sb_ninodes sb -> fs_block start lsize (IBLOCK inum sb)) ->
  in_txn s L view ∅ -> fs_sb s = sb -> fs_inode s !! ip = Some x ->
  let blk := IBLOCK (i_inum x) sb in (size ({[blk]} ∪ L) <= cap)%nat ->
  (forall l' view1 F, (forall b, b ∈ F <-> owns view x b) -> freed view F view1 ->
     in_txn (with_inode ip emptied l' s) ({[blk]} ∪ L)
       (apply_write view1 (blk, put_dinode (view1 blk) (dinode_off (i_inum x)) emptied)) ∅ ->
     Q tt (with_inode ip emptied l' s)) ->
  wp (itrunc ip) Q s.
Proof.
  intros Hin Ht Esb Hx blk Hc HQ. pose proof (fw_dev _ _ _ _ _ Hw) as Ed. unfold itrunc.
  assert (forall s1 l1 view1 F, (forall b, b ∈ F <-> owns view x b) -> freed view F view1 ->
    s1 = with_inode ip (set_i_addrs (replicate 13 0) x) l1 s -> in_txn s1 L view1 ∅ ->
    wp (seti ip (set_i_size 0);; iupdate ip) Q s1) as Hend.
  { intros s1 l1 view1 F HF Hfr -> H1. bstep. eapply wp_seti; [by eapply with_inode_lookup|]. rewrite with_inode_twice.
    eapply wp_iupdate; [exact Hin|by eapply in_op_l; [|exact H1]|done|by eapply with_inode_lookup|exact Ed|apply Hw|done|].
    intros l2 H2. by eapply HQ. }
  assert (drop NDIRECT (i_addrs x) = [ind x]) as Edrop.
  { destruct (lookup_lt_is_Some_2 (i_addrs x) NDIRECT) as [a Ha]; [rewrite (fw_addrs _ _ _ _ _ Hw); unfold NDIRECT; lia|].
    unfold ind. rewrite (drop_S _ _ _ Ha), Ha, drop_ge; [done|]. rewrite (fw_addrs _ _ _ _ _ Hw). unfold NDIRECT. lia. }
  bstep. eapply wp_geti; [exact Hx|]. rewrite Ed. bstep. eapply wp_trunc_direct; [done..|]. intros l1 view1 H1 Hf1.
  assert (fs_inode (with_inode ip (cleared NDIRECT) l1 s) !! ip = Some (cleared NDIRECT)) as Hx1 by by eapply with_inode_lookup.
  bstep. eapply wp_geti; [exact Hx1|]. assert (default 0 (i_addrs (cleared NDIRECT) !! NDIRECT) = ind x) as ->.
  { cbn [i_addrs cleared set_i_addrs]. rewrite Edrop. done. }
  pose proof first_blocks_all as HF. bstep. destruct (Z.eqb_spec (ind x) 0) as [Ei|Ei]; cbn [negb when].
  { bstep. eapply (Hend _ l1 view1 (first_blocks NDIRECT)); [done..| |done]. unfold cleared. rewrite Edrop, Ei. done. }
  pose proof (owns_ind view x Ei) as Hoi. destruct (fw_block _ _ _ _ _ Hw _ Hoi) as (Hdi & Hui & _).
  bstep. eapply wp_fs_bread; [exact H1|apply Hdi|apply lookup_empty|rewrite map_size_empty; lia|]. intros a l2 H2.
  bstep. eapply wp_trunc_indirect; [done|exact H2|done|done|]. intros l3 view3 H3 Hf3.
  bstep. eapply wp_fs_brelse; [exact H3|apply lookup_singleton_eq|]. intros l4 H4. rewrite delete_singleton_eq in H4.
  bstep. eapply wp_free_block; [exact H4|done|exact Hf3|done|done| |by apply HL|by intros ? ?; rewrite lookup_empty|rewrite map_size_empty; lia|].
  { intros [_ (bn & Hbn & E)]%elem_of_first. apply (fw_ind _ _ _ _ _ Hw bn); [unfold MAXFILE in *; lia|congruence|done]. }
  intros l5 view5 H5 Hf5. eapply wp_seti; [exact Hx1|]. cbn [fs_l set_fs_l].
  eapply (Hend _ l5 view5); [exact HF|exact Hf5| |by eapply in_op_l; [|exact H5]].
  rewrite !with_inode_l, with_inode_twice.
  unfold cleared at 1. cbn [i_addrs set_i_addrs]. rewrite Edrop. done.
Qed.
End file.
End trunc.

(** C32: itrunc frees exactly the blocks of the file, the indirect block and the blocks
    it names included, and leaves an empty file in memory and on the disk; every other
    file keeps its blocks and its contents. *)
Theorem itrunc_correct i start lsize b0 cap sb s L view ip x :
  opened i start lsize b0 cap sb s L view ip x ->
  (forall a, owns view x a -> BBLOCK a sb ∈ L) -> (size ({[IBLOCK (i_inum x) sb]} ∪ L) <= cap)%nat ->
  exists l' view', let x' := set_i_size 0 (set_i_addrs (replicate 13 0) x) in
    itrunc ip s = Ret tt (with_inode ip x' l' s) /\
    in_txn i start lsize b0 cap (with_inode ip x' l' s) ({[IBLOCK (i_inum x) sb]} ∪ L) view' ∅ /\
    bitmap_ok start lsize sb view' /\ file_ok start lsize sb view' x' /\ contents view' x' = [] /\
    (forall b, 0 <= b < sb_size sb ->
       (owns view x b -> used sb view' b = false) /\ (~ owns view x b -> used sb view' b = used sb view b)) /\
    (forall y, file_wf start lsize sb view y -> mapped_to view y (i_size y) -> apart view x y ->
       file_wf start lsize sb view' y /\ contents view' y = contents view y).
Proof.
  intros [Har Ht Esb Hx Hok [Hw Hm Hwf [Hdl Hdd]]] HL Hc. pose proof (fw_inum _ _ _ _ _ Hw) as Hi.
  set (blk := IBLOCK (i_inum x) sb) in *. assert (off_map sb blk) as Hoff by (intros b Hb; by apply Har).
  assert (wp (itrunc ip) (fun _ s' => exists l' view1 F, s' = with_inode ip (emptied x) l' s /\
    (forall b, b ∈ F <-> owns view x b) /\ freed start lsize sb view F view1 /\
    in_txn i start lsize b0 cap s' ({[blk]} ∪ L)
       (apply_write view1 (blk, put_dinode (view1 blk) (dinode_off (i_inum x)) (emptied x))) ∅) s) as Hwp.
  { eapply wp_itrunc; [exact Hok|exact Hw|exact HL|apply Har|exact Ht|done..|]. intros l' view1 F HF Hfr H'. by exists l', view1, F. }
  apply wp_inv in Hwp as ([] & s' & E & l' & view1 & F & -> & HF & [Hok1 Hu1 Hv1] & H').
  set (view' := apply_write _ _) in *. exists l', view'. cbv zeta. fold (emptied x).
  assert (inode_wf (emptied x)) as Hwf' by (destruct Hwf; split; try done; apply (Forall_replicate _ 13); unfold is_u32; lia).
  destruct (update_inode start lsize sb (ar_map _ _ _ Har) view1 (emptied x)) as (Hok' & Hw' & Hd' & Hk' & _ & _ & Ef');
    [done|by apply (emptied_wf _ _ _ view)|done|change (length (view1 blk) = 1024%nat); by rewrite Hv1|].
  change (apply_write view1 _) with view' in Hok', Hw', Hd', Hk', Ef'.
  assert (forall b, 0 <= b < sb_size sb -> used sb view' b = used sb view b && negb (bool_decide (b ∈ F))) as Hu'.
  { intros b Hb. rewrite <- Hu1 by done. by apply used_write. }
  split_and!; [done|done|done| |done| |].
  - split; [done| |done|done]. intros bn Hbn Hlt. cbn in Hlt. lia.
  - intros b Hb. rewrite Hu' by done. split; intros Ho; [rewrite bool_decide_true by by apply HF|rewrite bool_decide_false by by rewrite HF];
      [apply andb_false_r|apply andb_true_r].
  - assert (keeps start lsize sb view x view' (emptied x)) as Hk.
    { intros b Hd Hu Ho. split_and!; [| |apply emptied_owns].
      - unfold view', apply_write. cbn [fst snd]. rewrite decide_False by by apply (db_inode _ _ _ _ Hd).
        apply Hv1. by eapply data_off_map.
      - rewrite Hu', Hu, bool_decide_false by (rewrite ?HF; pose proof (db_low _ _ _ _ Hd); done || lia). done. }
    intros y Hy Hmy Hap. by destruct (keeps_file start lsize sb view x view' (emptied x) y) as (? & ? & ? & ?).
Qed.

Lemma itrunc_correct_witness : exists s' view', itrunc 0 demo_fs = Ret tt s' /\
  used demo_sb view' 46 = false /\ used demo_sb view' 45 = true.
Proof.
  destruct (itrunc_correct 0 2 30 (fresh_cache demo_disk) 10 demo_sb demo_fs {[45]} demo_view 0 demo_file)
    as (l' & view' & E & _ & _ & _ & _ & Hu & _).
  - destruct demo_opened. split; try done. apply demo_in_txn. rewrite size_singleton. lia.
  - intros a ->%(demo_owns _ _ 46); [|done]. by apply elem_of_singleton.
  - vm_compute. lia.
  - exists (with_inode 0 (set_i_size 0 (set_i_addrs (replicate 13 0) demo_file)) l' demo_fs), view'. split; [exact E|]. split.
    + apply Hu; [cbn; lia|]. split; [done|right]. exists 0. split; [unfold MAXFILE; lia|]. by rewrite (demo_addr _ _ 46).
    + destruct (Hu 45) as [_ Hu45]; [cbn; lia|]. rewrite Hu45.
      * rewrite demo_bits by lia. reflexivity.
      * intros E'%(demo_owns _ _ 46); done.
Defined.
