(* ===== verification/FsDir.v ===== *)
(** * Directories: iget, dirlookup and dirlink of kernel/fs.c

    A directory is a file of entries; [dir_find] is the first entry with a name.
    [dirlookup_correct]: dirlookup returns the inode of that entry.  [dirlink_correct]:
    dirlink adds a name to the directory, as to a finite map: the new name leads to its
    inode, every other name to what it led to before. *)

From Stdlib Require Import ZArith Lia.
From stdpp Require Import base list gmap sets strings.
From S2P Require Import Prelude KString Spinlock Riscv Kalloc Vm Proc Sleeplock Bio BioInv BioProofs Log LogSpec LogProofs LogTxn Fs FsTxn FsAlloc FsProofs FsFile FsRw FsWrite FsTheorems.

(** ** Names *)

(** What namecmp looks at: DIRSIZ bytes, up to a NUL. *)
Definition key (name : list Z) : list Z := take DIRSIZ (until_nul name).

Lemma strncmp_key n s t :
  Forall is_u8 s -> Forall is_u8 t ->
  strncmp (cstr s) (cstr t) n = 0 <-> take n (until_nul s) = take n (until_nul t).
Proof.
  revert s t. induction n as [|n IH]; intros s t Hs Ht; [done|]. cbn [strncmp].
  assert (forall l, cstr l 0%nat = default 0 (head l)) as Eh by by intros [].
  assert (forall l, at_ (cstr l) 1 = cstr (tail l)) as Et by by intros [].
  rewrite !Eh, !Et.
  assert (forall l, Forall is_u8 l -> is_u8 (default 0 (head l))) as Hu.
  { intros [|c l] Hl; [unfold is_u8; cbn; lia|]. by apply Forall_cons in Hl as [? _]. }
  assert (forall l, until_nul l = if default 0 (head l) =? 0 then [] else default 0 (head l) :: until_nul (tail l)) as Eu by by intros [].
  rewrite !u8_small by by apply Hu. rewrite (Eu s), (Eu t).
  destruct (Z.eqb_spec (default 0 (head s)) 0) as [Es|Es]; cbn [negb andb].
  - rewrite Es. destruct (Z.eqb_spec (default 0 (head t)) 0) as [->|Et0]; [done|]. cbn. split; [lia|done].
  - destruct (Z.eqb_spec (default 0 (head s)) (default 0 (head t))) as [E|E].
    + rewrite <- E, (proj2 (Z.eqb_neq _ _) Es). cbn [take]. rewrite IH by by apply Forall_tail.
      split; [by intros ->|by intros [= ->]].
    + split; [lia|]. destruct (Z.eqb_spec (default 0 (head t)) 0); cbn; congruence.
Qed.

Lemma namecmp_key s t :
  Forall is_u8 s -> Forall is_u8 t -> (namecmp (cstr s) (cstr t) =? 0) = bool_decide (key s = key t).
Proof.
  intros Hs Ht. apply eq_true_iff_eq. rewrite Z.eqb_eq, bool_decide_eq_true. by apply strncmp_key.
Qed.

(** ** Entries *)

Definition dirents (c : list Z) : list (list Z) := (fun j => take 16 (drop (16 * j) c)) <$> seq 0 (length c / 16).

(** The entry that leads to [name]. *)
Definition names (name : list Z) (de : list Z) : Prop := de_inum de <> 0 /\ key (de_name de) = key name.
#[global] Instance names_dec name de : Decision (names name de).
Proof. unfold names. apply _. Defined.
Definition dir_find (c : list Z) (name : list Z) : option (nat * list Z) := list_find (names name) (dirents c).

Lemma dirents_lookup c j : (16 * S j <= length c)%nat -> dirents c !! j = Some (take 16 (drop (16 * j) c)).
Proof. intros Hj. unfold dirents. rewrite list_lookup_fmap, lookup_seq_lt; [done|]. apply Nat.div_le_lower_bound; lia. Qed.

Lemma length_dirents c : length (dirents c) = (length c / 16)%nat.
Proof. unfold dirents. by rewrite length_fmap, length_seq. Qed.

Lemma dirents_u8 c j de : Forall is_u8 c -> dirents c !! j = Some de -> Forall is_u8 de.
Proof.
  intros Hc E. unfold dirents in E. apply list_lookup_fmap_Some in E as (k & -> & _).
  by apply Forall_take, Forall_drop.
Qed.

(** *** Adding an entry *)

Lemma Forall_strncpy (P : Z -> Prop) t n : P 0 -> (forall k, P (t k)) -> Forall P (strncpy t n).
Proof.
  intros H0. revert t. induction n as [|n IH]; intros t Ht; cbn; [constructor|].
  destruct (t 0%nat =? 0); constructor; [done|by apply Forall_replicate|done|]. apply IH. intros k. apply Ht.
Qed.

Lemma cstr_u8 name k : Forall is_u8 name -> is_u8 (cstr name k).
Proof. intros H. unfold cstr. destruct (name !! k) as [c|] eqn:E; [by eapply Forall_lookup_1|cbn; unfold is_u8; lia]. Qed.

Lemma mk_dirent_names inum name :
  0 < inum < 2 ^ 16 -> Forall is_u8 name ->
  let de := mk_dirent inum (strncpy (cstr name) DIRSIZ) in
  length de = 16%nat /\ de_inum de = inum /\ names name de /\ Forall is_u8 de.
Proof.
  intros Hi Hn de. assert (Forall is_u8 (strncpy (cstr name) DIRSIZ)) as Hs.
  { apply Forall_strncpy; [unfold is_u8; lia|]. intros k. by apply cstr_u8. }
  assert (de_inum de = inum) as Ei.
  { unfold de_inum, de, mk_dirent. cbn. divlia. }
  assert (length de = 16%nat) as El by (unfold de, mk_dirent; rewrite length_app, length_put_le, length_strncpy; done).
  split_and!; [done|done| |].
  - split; [lia|]. symmetry. apply strncmp_key; [done|done|].
    apply (strncmp_strncpy (cstr name) DIRSIZ). intros k. by apply cstr_u8.
  - unfold de, mk_dirent. apply Forall_app. split; [|done]. cbn. repeat constructor; unfold is_u8; divlia.
Qed.

(** The first entries with a name, after entry [j], which was free or is new, has been set to [de]. *)
Lemma find_link es es' j name de :
  (forall k, es' !! k = if decide (k = j) then Some de else es !! k) ->
  (forall d, es !! j = Some d -> de_inum d = 0) -> names name de -> list_find (names name) es = None ->
  forall n, list_find (names n) es' = if decide (key n = key name) then Some (j, de) else list_find (names n) es.
Proof.
  intros Ees Hj Hde Hnone n. apply list_find_None in Hnone. rewrite Forall_lookup in Hnone.
  assert (forall d k, es !! k = Some d -> names n d -> k <> j) as Hkj.
  { intros d k Ek [Hd _] ->. by apply Hd, (Hj d). }
  destruct (decide (key n = key name)) as [E|E].
  - apply list_find_Some. rewrite Ees, decide_True by done. split_and!; [done|unfold names in *; by rewrite E|].
    intros k d Hk Hlt. rewrite Ees, decide_False in Hk by lia. unfold names. rewrite E. by apply (Hnone k).
  - destruct (list_find (names n) es) as [[k d]|] eqn:Ef.
    + apply list_find_Some in Ef as (Ek & Hd & Hbefore). apply list_find_Some. rewrite Ees, decide_False by by eapply Hkj.
      split_and!; [done..|]. intros k' d' Hk' Hlt. rewrite Ees in Hk'. destruct (decide (k' = j)) as [->|]; [|by eapply Hbefore].
      injection Hk' as <-. intros [_ Hn]. destruct Hde as [_ Hde]. congruence.
    + apply list_find_None in Ef. rewrite Forall_lookup in Ef. apply list_find_None, Forall_lookup.
      intros k d Hk. rewrite Ees in Hk. destruct (decide (k = j)) as [->|]; [|by eapply Ef].
      injection Hk as <-. intros [_ Hn]. destruct Hde as [_ Hde]. congruence.
Qed.

Lemma dirents_ge c k : (length c < 16 * S k)%nat -> dirents c !! k = None.
Proof. intros Hk. apply lookup_ge_None. rewrite length_dirents. apply Nat.lt_succ_r, Nat.Div0.div_lt_upper_bound. lia. Qed.

Lemma dirents_splice (c : list Z) n j (de : list Z) :
  length c = (16 * n)%nat -> (j <= n)%nat -> length de = 16%nat ->
  forall k, dirents (splice c (16 * j) de) !! k = if decide (k = j) then Some de else dirents c !! k.
Proof.
  intros Hc Hj Hde k.
  assert (length (splice c (16 * j) de) = (16 * Nat.max n (S j))%nat) as El.
  { unfold splice. rewrite !length_app, length_take, length_drop. lia. }
  destruct (decide (k < Nat.max n (S j))%nat) as [Hk|Hk].
  - rewrite dirents_lookup by lia.
    assert (take 16 (drop (16 * k) (splice c (16 * j) de)) = if decide (k = j) then de else take 16 (drop (16 * k) c)) as ->.
    { apply list_eq. intros p. destruct (decide (p < 16)%nat) as [Hp|Hp].
      - rewrite lookup_take_lt, lookup_drop, splice_lookup by lia. destruct (decide (k = j)) as [->|Hne].
        + rewrite decide_True by lia. f_equal. lia.
        + rewrite decide_False, lookup_take_lt, lookup_drop by lia. done.
      - rewrite lookup_take_ge by lia. symmetry. case_decide; [apply lookup_ge_None; lia|by rewrite lookup_take_ge by lia]. }
    case_decide; [done|]. by rewrite dirents_lookup by lia.
  - rewrite decide_False, !dirents_ge by lia. done.
Qed.

Lemma dir_find_link (c : list Z) n j name (de : list Z) :
  length c = (16 * n)%nat -> (j <= n)%nat -> length de = 16%nat ->
  (forall d, dirents c !! j = Some d -> de_inum d = 0) -> names name de -> dir_find c name = None ->
  forall m, dir_find (splice c (16 * j) de) m = if decide (key m = key name) then Some (j, de) else dir_find c m.
Proof. intros Hc Hj Hde Hfree Hn Hnone. apply find_link; [by eapply dirents_splice|done..]. Qed.

(** ** iget *)

(** The slot that iget takes, with the inode that it puts there. *)
Definition iget_slot (inodes : list inode) (dev inum : Z) : option (nat * inode) :=
  match list_find (fun x => 0 < i_ref x /\ i_dev x = dev /\ i_inum x = inum) inodes with
  | Some (ip, x) => Some (ip, set_i_ref (i_ref x + 1) x)
  | None =>
      match list_find (fun x => i_ref x = 0) inodes with
      | Some (ip, x) => Some (ip, set_i_valid false (set_i_ref 1 (set_i_inum inum (set_i_dev dev x))))
      | None => None
      end
  end.

(** Taking a lock and releasing it around a change of an inode. *)
Lemma lset_with_inode ip y (lk lk' : lks) s :
  lset lk (with_inode ip y (fs_l (lset lk' s)) (lset lk' s)) = with_inode ip y (fs_l (lset lk s)) s.
Proof. unfold with_inode. cbn. destruct s as [[[[[[]]]]]]. reflexivity. Qed.

Section dir.
Context (i : nat) (start lsize : Z) (b0 : bst) (cap : nat) (sb : superblock).

Abbreviation in_txn := (in_txn i start lsize b0 cap).

Lemma wp_iget s L view H dev inum ip y (Q : nat -> fsst -> Prop) :
  in_txn s L view H -> iget_slot (fs_inode s) dev inum = Some (ip, y) ->
  (forall l', in_txn (with_inode ip y l' s) L view H -> Q ip (with_inode ip y l' s)) ->
  wp (iget dev inum) Q s.
Proof.
  intros Ht Hslot HQ. destruct (in_op_settle _ _ _ _ _ _ _ _ _ _ Ht) as [Hr Ht'].
  unfold iget, iget_slot in *. bstep. apply wp_lock; [by apply (running_free i)|]. bstep. bstep.
  change (fs_inode (lset _ s)) with (fs_inode s).
  assert (forall j x f, fs_inode s !! j = Some x -> j = ip -> f x = y ->
    wp (seti j f;; ↑ release icache_lock;; mret j) Q (lset (locked_by icache_lock (lget s)) s)) as Hend.
  { intros j x f Hx -> Ey. bstep. eapply wp_seti; [exact Hx|]. bstep.
    eapply (wp_unlock icache_lock (lget s)); [apply Hr|by apply (running_free i)|done|]. bstep. rewrite Ey.
    rewrite lset_with_inode. apply HQ. by eapply in_op_l; [|exact Ht']. }
  destruct (list_find _ (fs_inode s)) as [[j x]|] eqn:E1.
  - injection Hslot as <- <-. apply list_find_Some in E1 as (Hx & _). by eapply Hend.
  - destruct (list_find (fun x => i_ref x = 0) _) as [[j x]|] eqn:E2; [|done].
    injection Hslot as <- <-. apply list_find_Some in E2 as (Hx & _). by eapply Hend.
Qed.

(** A directory. *)
Record dir_ok (view : disk) (x : inode) : Prop := {
  do_file : file_ok start lsize sb view x;
  do_type : i_type x = T_DIR;
  do_size : i_size x mod DIRENT = 0;
  do_bytes : Forall is_u8 (contents view x);
}.

(** One turn of the loops over the entries. *)
Lemma wp_read_entry view x dp L j s (Q : Z * list Z -> fsst -> Prop) :
  dir_ok view x -> in_txn s L view ∅ -> fs_sb s = sb -> fs_inode s !! dp = Some x ->
  DIRENT * Z.of_nat j < i_size x ->
  (forall l' de, in_txn (set_fs_l l' s) L view ∅ -> dirents (contents view x) !! j = Some de -> Q (DIRENT, de) (set_fs_l l' s)) ->
  wp (readi dp DKern (DIRENT * Z.of_nat j) DIRENT) Q s.
Proof.
  intros [Hf _ Hsz _] Ht Esb Hx Hj HQ. pose proof (fw_size _ _ _ _ _ (fo_wf _ _ _ _ _ Hf)) as Hmax. unfold MAXFILE, DIRENT in *.
  eapply wp_readi; [apply Hf|apply Hf|exact Ht|done|done|unfold is_u32; lia..|]. intros l' H'. cbv zeta.
  assert (read_len (i_size x) (16 * Z.of_nat j) 16 = 16) as ->.
  { unfold read_len. rewrite (proj2 (Z.ltb_ge _ _)), (proj2 (Z.leb_gt _ _)) by lia. cbn [orb]. divlia. }
  apply HQ; [done|]. rewrite dirents_lookup.
  - do 3 f_equal. lia.
  - rewrite length_contents. divlia.
Qed.

Lemma wp_dirlookup view x dp L name s (Q : option (nat * Z) -> fsst -> Prop) :
  dir_ok view x -> Forall is_u8 name -> in_txn s L view ∅ -> fs_sb s = sb -> fs_inode s !! dp = Some x ->
  match dir_find (contents view x) name with
  | None => forall l', in_txn (set_fs_l l' s) L view ∅ -> Q None (set_fs_l l' s)
  | Some (j, de) => exists ip y, iget_slot (fs_inode s) 1 (de_inum de) = Some (ip, y) /\
      forall l', in_txn (with_inode ip y l' s) L view ∅ -> Q (Some (ip, DIRENT * Z.of_nat j)) (with_inode ip y l' s)
  end ->
  wp (dirlookup dp name) Q s.
Proof.
  intros Hdir Hname Ht Esb Hx HQ. pose proof Hdir as [Hf Etype Hsz Hbytes].
  pose proof (fw_size _ _ _ _ _ (fo_wf _ _ _ _ _ Hf)) as Hmax. unfold dirlookup. bstep. eapply wp_geti; [exact Hx|].
  rewrite Etype, Z.eqb_refl. cbn [negb]. bstep. eapply wp_geti; [exact Hx|].
  apply (wp_for_range (fun off s1 => exists l1 j, s1 = set_fs_l l1 s /\ off = DIRENT * Z.of_nat j /\ in_txn s1 L view ∅ /\
    forall j' de, (j' < j)%nat -> dirents (contents view x) !! j' = Some de -> ~ names name de)); [done| | |].
  - exists (fs_l s), 0%nat. rewrite set_l_id. split_and!; [done|done|done|lia].
  - intros off s1 Hoff _ (l1 & j & -> & -> & H1 & Hno). bstep. eapply wp_read_entry; [done|exact H1|done|done|lia|].
    intros l2 de H2 Hde. cbn iota beta. rewrite Z.eqb_refl. cbn [negb].
    assert (~ names name de -> exists l3 j3, set_fs_l l2 (set_fs_l l1 s) = set_fs_l l3 s /\ DIRENT * Z.of_nat j + DIRENT = DIRENT * Z.of_nat j3 /\
      in_txn (set_fs_l l2 (set_fs_l l1 s)) L view ∅ /\
      forall j' de, (j' < j3)%nat -> dirents (contents view x) !! j' = Some de -> ~ names name de) as Hnext.
    { intros Hn. exists l2, (S j). split_and!; [done|unfold DIRENT; lia|done|]. intros j' de' Hj' E'.
      destruct (decide (j' = j)) as [->|Hne]; [|apply (Hno j'); [lia|done]]. congruence. }
    destruct (Z.eqb_spec (de_inum de) 0) as [E0|E0]; [bstep; apply Hnext; by intros [? _]|].
    rewrite namecmp_key; [|done|apply Forall_drop; by eapply dirents_u8]. case_bool_decide as Ek; [|bstep; apply Hnext; by intros [_ ?]].
    assert (dir_find (contents view x) name = Some (j, de)) as Ef.
    { apply list_find_Some. split_and!; [done|by split|]. intros j' de' E' Hj'. by eapply Hno. }
    rewrite Ef in HQ. destruct HQ as (ip & y & Hslot & HQ).
    bstep. eapply wp_geti; [exact Hx|]. rewrite (fw_dev _ _ _ _ _ (fo_wf _ _ _ _ _ Hf)).
    bstep. eapply wp_iget; [exact H2|exact Hslot|]. intros l3 H3. bstep. by apply HQ.
  - intros off s1 _ Hoff _ (l1 & j & -> & -> & H1 & Hno).
    destruct (dir_find (contents view x) name) as [[j' de]|] eqn:Ef; [|by apply HQ].
    apply list_find_Some in Ef as (E' & Hn & _). exfalso. eapply (Hno j'); [|done|done].
    apply lookup_lt_Some in E'. rewrite length_dirents, length_contents in E'. unfold DIRENT in *.
    assert (16 * (j' + 1) <= Z.to_nat (i_size x))%nat by (pose proof (Nat.Div0.mul_div_le (Z.to_nat (i_size x)) 16); lia). lia.
Qed.

(** The search of a free entry; without one, the end of the directory. *)
Lemma wp_free_entry view x dp L s (Q : option Z -> fsst -> Prop) :
  dir_ok view x -> in_txn s L view ∅ -> fs_sb s = sb -> fs_inode s !! dp = Some x ->
  (forall l' r j, in_txn (set_fs_l l' s) L view ∅ ->
     default (DIRENT * ((i_size x + DIRENT - 1) / DIRENT)) r = DIRENT * Z.of_nat j -> DIRENT * Z.of_nat j <= i_size x ->
     (forall d, dirents (contents view x) !! j = Some d -> de_inum d = 0) -> Q r (set_fs_l l' s)) ->
  wp (for_range 0 (i_size x) DIRENT (fun off =>
        '(r, de) ← readi dp DKern off DIRENT;
        if negb (r =? DIRENT) then panic "dirlink read" else
        if de_inum de =? 0 then mret (Some off) else mret None)) Q s.
Proof.
  intros Hdir Ht Esb Hx HQ. pose proof Hdir as [Hf Etype Hsz Hbytes].
  pose proof (fw_size _ _ _ _ _ (fo_wf _ _ _ _ _ Hf)) as Hmax.
  apply (wp_for_range (fun off s1 => exists l1 j, s1 = set_fs_l l1 s /\ off = DIRENT * Z.of_nat j /\ in_txn s1 L view ∅)); [done| | |].
  - exists (fs_l s), 0%nat. by rewrite set_l_id.
  - intros off s1 Hoff _ (l1 & j & -> & -> & H1). bstep. eapply wp_read_entry; [done|exact H1|done|done|lia|].
    intros l2 de H2 Hde. cbn iota beta. rewrite Z.eqb_refl. cbn [negb]. destruct (Z.eqb_spec (de_inum de) 0) as [E0|E0]; bstep.
    + eapply (HQ l2 _ j); [exact H2|done|lia|]. intros d Hd. congruence.
    + exists l2, (S j). split_and!; [done|unfold DIRENT; lia|done].
  - intros off s1 _ Hoff Hmod (l1 & j & -> & -> & H1). unfold DIRENT in *.
    eapply (HQ l1 _ (Z.to_nat (i_size x / 16))); [exact H1|cbn; divlia|divlia|].
    intros d Hd. rewrite dirents_ge in Hd; [done|]. rewrite length_contents. divlia.
Qed.

Definition dir_lookup (c : list Z) (name : list Z) : option Z := (fun e => de_inum e.2) <$> dir_find c name.

Lemma wp_dirlink view x dp L name inum s (Q : Z -> fsst -> Prop) :
  areas start lsize sb -> dir_ok view x -> bitmap_ok start lsize sb view ->
  Forall is_u8 name -> 0 < inum < 2 ^ 16 -> in_txn s L view ∅ -> fs_sb s = sb -> fs_inode s !! dp = Some x ->
  dir_find (contents view x) name = None -> i_size x + DIRENT <= MAXFILE * 1024 ->
  (charge L x + 3 <= cap)%nat -> (need x < nfree sb view)%nat ->
  (forall l' view' x' L' j de, let off := DIRENT * Z.of_nat j in
     in_txn (with_inode dp x' l' s) L' view' ∅ -> written start lsize sb view x de off view' x' ->
     dir_ok view' x' ->
     (forall m, dir_lookup (contents view' x') m = if decide (key m = key name) then Some inum else dir_lookup (contents view x) m) ->
     Q 0 (with_inode dp x' l' s)) ->
  wp (dirlink dp name inum) Q s.
Proof.
  intros Har Hdir Hok Hname Hi Ht Esb Hx Hnone Hsize Hc Hn HQ. pose proof Hdir as [Hf Etype Hsz Hbytes].
  pose proof (fw_size _ _ _ _ _ (fo_wf _ _ _ _ _ Hf)) as Hmax. unfold dirlink. bstep.
  eapply wp_dirlookup; [done|done|exact Ht|done|done|]. rewrite Hnone. intros l1 H1. bstep. eapply wp_geti; [exact Hx|].
  bstep. eapply wp_free_entry; [done|exact H1|done|done|]. intros l2 r j H2 -> Hj Hfree. cbv zeta.
  destruct (mk_dirent_names inum name Hi Hname) as (El & Ei & Hde & Hu8). set (de := mk_dirent _ _) in *.
  assert (blocks (DIRENT * Z.of_nat j) 16 <= (if (DIRENT * Z.of_nat j) mod 1024 =? 0 then 1 else 0)) as Eb.
  { unfold blocks, DIRENT. destruct (Z.eqb_spec ((16 * Z.of_nat j) mod 1024) 0); divlia. }
  assert (cost (DIRENT * Z.of_nat j) 16 <= 2) as Ec
    by (unfold cost; cbn [Z.leb Z.compare]; destruct (_ =? 0); lia).
  bstep. change DIRENT with (Z.of_nat 16) at 2. rewrite <- El.
  eapply (wp_writei i start lsize b0 cap sb (ar_map _ _ _ Har) (ar_inodes _ _ _ Har) (SKern de) view x de);
    [apply feeds_kern|done|exact H2|done|done|done|done|unfold DIRENT in *; lia| | | |]; rewrite ?El;
    [unfold DIRENT in *; lia|change (Z.of_nat 16) with 16; lia| |].
  { change (Z.of_nat 16) with 16. assert (need_to x (DIRENT * Z.of_nat j + 16) <= need x)%nat by (unfold need_to; destruct (_ <=? _); lia).
    destruct (_ =? 0); lia. }
  intros l3 view3 x3 L3 Hwr H3. change (negb (Z.of_nat 16 =? DIRENT)) with false. cbn iota. bstep.
  rewrite set_set_l in *.
  assert (contents view3 x3 = splice (contents view x) (16 * j) de) as Ec3.
  { rewrite (wt_contents _ _ _ _ _ _ _ _ _ Hwr). f_equal. unfold DIRENT. lia. }
  assert (length (contents view x) = 16 * Z.to_nat (i_size x / 16))%nat as Elc by (rewrite length_contents; unfold DIRENT in *; divlia).
  eapply (HQ l3 view3 x3 L3 j de); [exact H3|done| |].
  - split; [apply Hwr|by rewrite (wt_same _ _ _ _ _ _ _ _ _ Hwr)| |].
    + pose proof (length_contents view3 x3) as E3. pose proof (fw_size _ _ _ _ _ (fo_wf _ _ _ _ _ (wt_file _ _ _ _ _ _ _ _ _ Hwr))).
      rewrite Ec3 in E3. unfold splice in E3. rewrite !length_app, length_take, length_drop in E3. unfold DIRENT in *. divlia.
    + rewrite Ec3. unfold splice. apply Forall_app. split; [by apply Forall_take|]. apply Forall_app. split; [done|by apply Forall_drop].
  - intros m. unfold dir_lookup. rewrite Ec3, (dir_find_link _ (Z.to_nat (i_size x / 16)) j name de); try done.
    + case_decide; cbn [fmap option_fmap option_map snd]; [by rewrite Ei|done].
    + unfold DIRENT in *. divlia.
Qed.

(** iput of an inode that stays: it has other references, or is not known to be unlinked. *)
Lemma wp_iput s L view H ip x (Q : unit -> fsst -> Prop) :
  in_txn s L view H -> fs_inode s !! ip = Some x ->
  (i_ref x =? 1) && i_valid x && (i_nlink x =? 0) = false ->
  (forall l', let y := set_i_ref (i_ref x - 1) x in in_txn (with_inode ip y l' s) L view H -> Q tt (with_inode ip y l' s)) ->
  wp (iput ip) Q s.
Proof.
  intros Ht Hx Hkeep HQ. destruct (in_op_settle _ _ _ _ _ _ _ _ _ _ Ht) as [Hr Ht'].
  unfold iput. bstep. apply wp_lock; [by apply (running_free i)|]. bstep. eapply wp_geti; [exact Hx|]. cbn [id].
  rewrite Hkeep. bstep. bstep. bstep. bstep. eapply wp_seti; [exact Hx|].
  eapply (wp_unlock icache_lock (lget s)); [apply Hr|by apply (running_free i)|done|].
  rewrite lset_with_inode. apply HQ. by eapply in_op_l; [|exact Ht'].
Qed.

(** What iget put in its slot can be dropped again at once. *)
Lemma iget_slot_spec inodes dev inum ip y :
  iget_slot inodes dev inum = Some (ip, y) ->
  (ip < length inodes)%nat /\ i_dev y = dev /\ i_inum y = inum /\ 1 <= i_ref y /\
  (i_ref y =? 1) && i_valid y && (i_nlink y =? 0) = false.
Proof.
  unfold iget_slot. destruct (list_find _ inodes) as [[j x]|] eqn:E1.
  - intros [= <- <-]. apply list_find_Some in E1 as (Hx & (Hr & <- & <-) & _). cbn.
    split_and!; [by eapply lookup_lt_Some|done|done|lia|]. by rewrite (proj2 (Z.eqb_neq _ _)) by lia.
  - destruct (list_find (fun x => i_ref x = 0) inodes) as [[j x]|] eqn:E2; [|done].
    intros [= <- <-]. apply list_find_Some in E2 as (Hx & _). cbn. by split_and!; [eapply lookup_lt_Some|..].
Qed.
End dir.

(** ** The theorems *)

(** C6: dirlookup returns the inode of the first entry with the name and its offset, taken
    into the cache with one more reference, and nothing if there is no such entry;
    the directory and the disk do not change. *)
Theorem dirlookup_correct i start lsize b0 cap sb s L view dp x name :
  opened i start lsize b0 cap sb s L view dp x -> dir_ok start lsize sb view x -> Forall is_u8 name ->
  (forall j de, dir_find (contents view x) name = Some (j, de) -> is_Some (iget_slot (fs_inode s) 1 (de_inum de))) ->
  match dir_find (contents view x) name with
  | None => exists l', dirlookup dp name s = Ret None (set_fs_l l' s) /\
      in_txn i start lsize b0 cap (set_fs_l l' s) L view ∅
  | Some (j, de) => exists l' ip y, dirlookup dp name s = Ret (Some (ip, DIRENT * Z.of_nat j)) (with_inode ip y l' s) /\
      in_txn i start lsize b0 cap (with_inode ip y l' s) L view ∅ /\
      iget_slot (fs_inode s) 1 (de_inum de) = Some (ip, y) /\ i_dev y = 1 /\ i_inum y = de_inum de /\ 1 <= i_ref y
  end.
Proof.
  intros [Har Ht Esb Hx Hok Hf] Hdir Hname Hslot.
  assert (wp (dirlookup dp name) (fun r s' => match dir_find (contents view x) name with
    | None => r = None /\ exists l', s' = set_fs_l l' s /\ in_txn i start lsize b0 cap s' L view ∅
    | Some (j, de) => exists l' ip y, r = Some (ip, DIRENT * Z.of_nat j) /\ s' = with_inode ip y l' s /\
        in_txn i start lsize b0 cap s' L view ∅ /\ iget_slot (fs_inode s) 1 (de_inum de) = Some (ip, y)
    end) s) as Hwp.
  { eapply wp_dirlookup; [exact Hdir|done|exact Ht|done|done|]. destruct (dir_find _ _) as [[j de]|]; [|eauto].
    destruct (Hslot j de eq_refl) as [[ip y] E]. exists ip, y. split; [done|]. intros l' H'. by exists l', ip, y. }
  apply wp_inv in Hwp as (r & s' & E & H). destruct (dir_find _ _) as [[j de]|].
  - destruct H as (l' & ip & y & -> & -> & H' & Es). exists l', ip, y. pose proof (iget_slot_spec _ _ _ _ _ Es) as (_ & ? & ? & ? & _). done.
  - destruct H as (-> & l' & -> & H'). eauto.
Qed.

(** C5: A directory is a finite map from names to inodes, and dirlink inserts in it: when
    the name is not there, then afterwards it leads to its inode, every other name to
    what it led to before, and every other file is as it was; when the name is there
    already, dirlink returns -1 and changes nothing on the disk. *)
Theorem dirlink_correct i start lsize b0 cap sb s L view dp x name inum :
  opened i start lsize b0 cap sb s L view dp x -> dir_ok start lsize sb view x -> Forall is_u8 name -> 0 < inum < 2 ^ 16 ->
  i_size x + DIRENT <= MAXFILE * 1024 -> (charge L x + 3 <= cap)%nat -> (need x < nfree sb view)%nat ->
  (forall j de, dir_find (contents view x) name = Some (j, de) -> is_Some (iget_slot (fs_inode s) 1 (de_inum de))) ->
  match dir_lookup (contents view x) name with
  | None => exists l' L' view' x', dirlink dp name inum s = Ret 0 (with_inode dp x' l' s) /\
      in_txn i start lsize b0 cap (with_inode dp x' l' s) L' view' ∅ /\
      bitmap_ok start lsize sb view' /\ dir_ok start lsize sb view' x' /\
      (forall m, dir_lookup (contents view' x') m =
         if decide (key m = key name) then Some inum else dir_lookup (contents view x) m) /\
      (forall y, file_wf start lsize sb view y -> mapped_to view y (i_size y) -> apart view x y ->
         contents view' y = contents view y)
  | Some _ => exists s', dirlink dp name inum s = Ret (-1) s' /\ in_txn i start lsize b0 cap s' L view ∅
  end.
Proof.
  intros [Har Ht Esb Hx Hok Hf] Hdir Hname Hi Hsize Hc Hn Hslot. unfold dir_lookup at 1.
  destruct (dir_find (contents view x) name) as [[j de]|] eqn:Efind; cbn [fmap option_fmap option_map].
  - destruct (Hslot j de eq_refl) as [[ip y] E]. pose proof (iget_slot_spec _ _ _ _ _ E) as (Hip & _ & _ & _ & Hkeep).
    assert (wp (dirlink dp name inum) (fun r s' => r = -1 /\ in_txn i start lsize b0 cap s' L view ∅) s) as Hwp.
    { unfold dirlink. bstep. eapply wp_dirlookup; [exact Hdir|done|exact Ht|done|done|]. rewrite Efind.
      exists ip, y. split; [done|]. intros l1 H1. destruct (lookup_lt_is_Some_2 _ _ Hip) as [y0 Hy0].
      bstep. eapply wp_iput; [exact H1|by eapply with_inode_lookup|done|]. intros l2 y2 H2. by bstep. }
    apply wp_inv in Hwp as (r & s' & E' & -> & H'). eauto.
  - assert (wp (dirlink dp name inum) (fun r s' => r = 0 /\ exists l' L' view' x', s' = with_inode dp x' l' s /\
      in_txn i start lsize b0 cap s' L' view' ∅ /\ bitmap_ok start lsize sb view' /\ dir_ok start lsize sb view' x' /\
      (forall m, dir_lookup (contents view' x') m =
         if decide (key m = key name) then Some inum else dir_lookup (contents view x) m) /\
      keeps start lsize sb view x view' x') s) as Hwp.
    { eapply wp_dirlink; [exact Har|exact Hdir|exact Hok|done|done|exact Ht|done..|].
      intros l' view' x' L' j de off H' [] Hdir' Hm. split; [done|]. by exists l', L', view', x'. }
    apply wp_inv in Hwp as (r & s' & E' & -> & l' & L' & view' & x' & -> & H' & Hok' & Hdir' & Hm & Hk).
    exists l', L', view', x'. split_and!; try done. intros y Hy Hmy Hap.
    by destruct (keeps_file start lsize sb view x view' x' y) as (_ & _ & ? & _).
Qed.

(** ** Examples *)

Lemma demo_dir_opened : opened 0 2 30 (fresh_cache demo_disk) 10 demo_sb demo_fs ∅ demo_view 1 demo_dir.
Proof.
  split; [apply demo_areas|apply demo_in_txn; rewrite size_empty; lia|done..|apply demo_bitmap|apply demo_dir_ok].
Qed.

Lemma demo_directory : dir_ok 2 30 demo_sb demo_view demo_dir.
Proof.
  split; [apply demo_dir_ok|done|done|]. rewrite demo_dir_contents.
  apply Forall_lookup. intros k c Hk. assert (forallb (fun c => (0 <=? c) && (c <? 256)) demo_entries = true) as HF by (vm_compute; reflexivity).
  rewrite forallb_forall in HF. specialize (HF c). apply andb_true_iff in HF as [H1%Z.leb_le H2%Z.ltb_lt]; [unfold is_u8; lia|].
  apply list_elem_of_In. by eapply list_elem_of_lookup_2.
Qed.

Lemma str_u8 s : Forall is_u8 (str s).
Proof.
  unfold str. apply Forall_fmap, Forall_forall. intros c _. unfold is_u8, compose.
  pose proof (Ascii.N_ascii_bounded c). lia.
Qed.

Lemma dirlookup_correct_witness : exists s', dirlookup 1 (str "greeting") demo_fs = Ret (Some (0%nat, 32)) s' /\
  (i_ref <$> fs_inode s' !! 0%nat) = Some 2.
Proof.
  pose proof (dirlookup_correct 0 2 30 (fresh_cache demo_disk) 10 demo_sb demo_fs ∅ demo_view 1 demo_dir (str "greeting")
    demo_dir_opened demo_directory (str_u8 "greeting")) as H. rewrite demo_dir_contents in H.
  assert (dir_find demo_entries (str "greeting") = Some (2%nat, mk_dirent 5 (strncpy (cstr (str "greeting")) DIRSIZ))) as E
    by (vm_compute; reflexivity).
  rewrite E in H. destruct H as (l' & ip & y & Er & _ & Es & _).
  { intros j de [= <- <-]. exists (0%nat, set_i_ref 2 demo_file). reflexivity. }
  change (Some (0%nat, set_i_ref 2 demo_file) = Some (ip, y)) in Es. injection Es as <- <-.
  exists (with_inode 0 (set_i_ref 2 demo_file) l' demo_fs). split; [exact Er|reflexivity].
Defined.

Lemma dirlink_correct_witness : exists s' view' x',
  dirlink 1 (str "copy") 5 demo_fs = Ret 0 s' /\
  dir_lookup (contents view' x') (str "copy") = Some 5 /\ dir_lookup (contents view' x') (str "..") = Some 1.
Proof.
  pose proof (dirlink_correct 0 2 30 (fresh_cache demo_disk) 10 demo_sb demo_fs ∅ demo_view 1 demo_dir (str "copy") 5
    demo_dir_opened demo_directory (str_u8 "copy")) as H. rewrite demo_dir_contents in H.
  assert (dir_find demo_entries (str "copy") = None) as E by (vm_compute; reflexivity).
  assert (dir_lookup demo_entries (str "..") = Some 1) as E2 by (vm_compute; reflexivity).
  unfold dir_lookup at 1 in H. rewrite E in H. destruct H as (l' & L' & view' & x' & Er & _ & _ & _ & Hm & _).
  - lia.
  - vm_compute. discriminate.
  - change (charge ∅ demo_dir) with 2%nat. lia.
  - pose proof demo_free. change (need demo_dir) with 1%nat. lia.
  - discriminate.
  - exists (with_inode 1 x' l' demo_fs), view', x'. split; [exact Er|]. rewrite !Hm, E2. split; [by rewrite decide_True|].
    rewrite decide_False; [reflexivity|vm_compute; discriminate].
Defined.
