(* ===== verification/Mkfs.v ===== *)
(** * mkfs/mkfs.c: the program that makes the image of the file system

    The image is a file of the host: block [sec] has been written if it is in [mk_img].
    A call that ends in exit(1) or a failed assertion stops with [Panic]; what mkfs
    prints is not modelled.  The files that mkfs is to put in the image are given by
    what read() of the host returns of them. *)

From Stdlib Require Import ZArith Lia.
From stdpp Require Import base list gmap strings.
From S2P Require Import Prelude KString Spinlock Riscv Kalloc Vm Proc Sleeplock Bio Log Fs.

Definition NINODES : Z := 200.
Definition FSSIZE : Z := 1000.
Definition nbitmap : Z := FSSIZE / (1024 * 8) + 1.
Definition ninodeblocks : Z := NINODES / IPB + 1.
Definition nlog : Z := LOGSIZE.

Record mkst := mk_mkst {
  mk_img : gmap Z (list Z);  (* the file fsfd, by blocks *)
  mk_sb : superblock;
  mk_freeinode : Z;
  mk_freeblock : Z;
}.

Definition set_mk_img (x : gmap Z (list Z)) (s : mkst) : mkst := mk_mkst x (mk_sb s) (mk_freeinode s) (mk_freeblock s).
Definition set_mk_sb (x : superblock) (s : mkst) : mkst := mk_mkst (mk_img s) x (mk_freeinode s) (mk_freeblock s).
Definition set_mk_freeinode (x : Z) (s : mkst) : mkst := mk_mkst (mk_img s) (mk_sb s) x (mk_freeblock s).
Definition set_mk_freeblock (x : Z) (s : mkst) : mkst := mk_mkst (mk_img s) (mk_sb s) (mk_freeinode s) x.

(** convert to intel byte order; the host is little-endian itself *)
Definition xshort (x : Z) : Z := get_le 2 [u8 x; u8 (Z.shiftr x 8)] 0.
Definition xint (x : Z) : Z := get_le 4 [u8 x; u8 (Z.shiftr x 8); u8 (Z.shiftr x 16); u8 (Z.shiftr x 24)] 0.

Definition assert_ (b : bool) : M mkst unit := if b then mret tt else panic "assertion failed".

Definition wsect (sec : Z) (buf : list Z) : M mkst unit := modify (fun s => set_mk_img (<[sec := buf]> (mk_img s)) s).

(** read() beyond the end of the image does not return BSIZE bytes. *)
Definition rsect (sec : Z) : M mkst (list Z) :=
  img ← gets mk_img;
  match img !! sec with
  | Some d => mret d
  | None => panic "read"
  end.

Definition winode (inum : Z) (ip : inode) : M mkst unit :=
  sb ← gets mk_sb;
  let bn := IBLOCK inum sb in
  buf ← rsect bn;
  wsect bn (put_dinode buf (dinode_off inum) ip).

(** The fields of struct dinode. *)
Definition rinode (inum : Z) : M mkst inode :=
  sb ← gets mk_sb;
  let bn := IBLOCK inum sb in
  buf ← rsect bn;
  mret (get_dinode buf (dinode_off inum) inode0).

Definition ialloc (type : Z) : M mkst Z :=
  inum ← gets mk_freeinode;
  modify (set_mk_freeinode (u32 (inum + 1)));;
  let din := set_i_type (xshort type) (set_i_nlink (xshort 1) (set_i_size (xint 0) inode0)) in
  winode inum din;;
  mret inum.

(** The bitmap with the first [used] bits set. *)
Fixpoint set_bits (n : nat) (buf : list Z) : list Z :=
  match n with
  | O => buf
  | S n' =>
      let buf := set_bits n' buf in
      <[(n' / 8)%nat := Z.lor (default 0 (buf !! (n' / 8)%nat)) (Z.shiftl 1 (Z.of_nat n' mod 8))]> buf
  end.

Definition balloc (used : Z) : M mkst unit :=
  assert_ (used <? 1024 * 8);;
  sb ← gets mk_sb;
  wsect (sb_bmapstart sb) (set_bits (Z.to_nat used) zero_block).

Definition freeblock_next : M mkst Z :=
  b ← gets mk_freeblock;
  modify (set_mk_freeblock (u32 (b + 1)));;
  mret b.

(** The block of the file that holds its block [fbn]. *)
Definition iappend_block (din : inode) (fbn : Z) : M mkst (inode * Z) :=
  if fbn <? Z.of_nat NDIRECT then
    let k := Z.to_nat fbn in
    din ← (if xint (default 0 (i_addrs din !! k)) =? 0 then
             b ← freeblock_next;
             mret (set_i_addrs (<[k := xint b]> (i_addrs din)) din)
           else mret din);
    mret (din, xint (default 0 (i_addrs din !! k)))
  else
    let k := Z.to_nat (fbn - Z.of_nat NDIRECT) in
    din ← (if xint (default 0 (i_addrs din !! NDIRECT)) =? 0 then
             b ← freeblock_next;
             mret (set_i_addrs (<[NDIRECT := xint b]> (i_addrs din)) din)
           else mret din);
    let ind := xint (default 0 (i_addrs din !! NDIRECT)) in
    indirect ← rsect ind;
    indirect ← (if get_uint indirect (4 * k) =? 0 then
                  b ← freeblock_next;
                  let indirect := put_uint indirect (4 * k) (xint b) in
                  wsect ind indirect;;
                  mret indirect
                else mret indirect);
    mret (din, xint (get_uint indirect (4 * k))).

Fixpoint iappend_loop (fuel : nat) (din : inode) (p : list Z) (n off : Z) : M mkst (inode * Z) :=
  if 0 <? n then
    match fuel with
    | O => out_of_fuel
    | S fuel' =>
        let fbn := off / 1024 in
        assert_ (fbn <? MAXFILE);;
        '(din, x) ← iappend_block din fbn;
        let n1 := Z.min n ((fbn + 1) * 1024 - off) in
        buf ← rsect x;
        wsect x (splice buf (Z.to_nat (off - fbn * 1024)) (take (Z.to_nat n1) p));;
        iappend_loop fuel' din (drop (Z.to_nat n1) p) (n - n1) (off + n1)
    end
  else mret (din, off).

Definition iappend (inum : Z) (p : list Z) (n : Z) : M mkst unit :=
  din ← rinode inum;
  '(din, off) ← iappend_loop (blocks_bound n) din p n (xint (i_size din));
  winode inum (set_i_size (xint off) din).

(** ** main *)

(** A file of the command line: its path and, if it can be opened, what the calls of
    read() return until 0. *)
Record input := mk_input { in_path : list Z; in_read : option (list (list Z)) }.

Definition shortname (path : list Z) : list Z :=
  if strncmp (cstr path) (cstr (str "user/")) 5 =? 0 then drop 5 path else path.

Definition skip_underscore (name : list Z) : list Z :=
  match name with c :: name' => if c =? 95 then name' else name | [] => name end.

Definition dirent (inum : Z) (name : list Z) : list Z := mk_dirent (xshort inum) (strncpy (cstr name) DIRSIZ).

Definition add_file (rootino : Z) (f : input) : M mkst unit :=
  let name := shortname (in_path f) in
  assert_ (bool_decide (slash ∉ name));;
  match in_read f with
  | None => panic "open"
  | Some chunks =>
      let name := skip_underscore name in
      inum ← ialloc T_FILE;
      iappend rootino (dirent inum name) 16;;
      for_each chunks (fun buf => iappend inum buf (Z.of_nat (length buf));; mret (None : option unit));;
      mret tt
  end.

Definition the_sb : superblock :=
  let nmeta := 2 + nlog + ninodeblocks + nbitmap in
  let nblocks := FSSIZE - nmeta in
  mk_superblock FSMAGIC (xint FSSIZE) (xint nblocks) (xint NINODES) (xint nlog) (xint 2) (xint (2 + nlog))
    (xint (2 + nlog + ninodeblocks)).

(** memmove(buf, &sb, sizeof(sb)) over zeroes *)
Definition sb_bytes (sb : superblock) : list Z :=
  put_uints zero_block 0 [sb_magic sb; sb_size sb; sb_nblocks sb; sb_ninodes sb; sb_nlog sb; sb_logstart sb;
    sb_inodestart sb; sb_bmapstart sb].

(** The arguments: none, or the result of opening the image and the files. *)
Definition main (args : option (Z * list input)) : M mkst unit :=
  match args with
  | None => panic "usage"
  | Some (fsfd, files) =>
  if fsfd <? 0 then panic "open" else
  modify (set_mk_sb the_sb);;
  modify (set_mk_freeblock (2 + nlog + ninodeblocks + nbitmap));;
  for_each (zseq 0 (Z.to_nat FSSIZE)) (fun i => wsect i zero_block;; mret (None : option unit));;
  wsect 1 (sb_bytes the_sb);;
  rootino ← ialloc T_DIR;
  assert_ (rootino =? ROOTINO);;
  iappend rootino (dirent rootino (str ".")) 16;;
  iappend rootino (dirent rootino (str "..")) 16;;
  for_each files (fun f => add_file rootino f;; mret (None : option unit));;
  (* fix size of root inode dir *)
  din ← rinode rootino;
  let off := xint (i_size din) in
  let off := (off / 1024 + 1) * 1024 in
  winode rootino (set_i_size (xint off) din);;
  b ← gets mk_freeblock;
  balloc b
  end.

(** The globals at the start. *)
Definition mkfs_start : mkst := mk_mkst ∅ (mk_superblock 0 0 0 0 0 0 0 0) 1 0.
