(* ===== verification/MkfsProofs.v ===== *)
(** * mkfs keeps the invariants of the file system

    While mkfs runs, the bitmap has not been written; [vdisk s] is the image with the
    bitmap that the blocks allocated so far ask for, on which the invariants of the
    file system hold at every step ([mk_inv]).  [wp_iappend]: iappend adds bytes to the
    end of a file and leaves the other files alone. *)

From Stdlib Require Import ZArith Lia FunctionalExtensionality.
From stdpp Require Import base list gmap sets strings.
From S2P Require Import Prelude KString Spinlock Riscv Kalloc Vm Proc Sleeplock Bio Log LogSpec Fs FsTxn FsAlloc FsProofs FsFile FsRw FsWrite FsTheorems FsDir Mkfs.

Lemma xint_small x : is_u32 x -> xint x = x.
Proof. unfold is_u32, xint, u8. intros H. cbn. rewrite !Z.shiftr_div_pow2 by lia. divlia. Qed.

Lemma xshort_small x : 0 <= x < 2 ^ 16 -> xshort x = x.
Proof. unfold xshort, u8. intros H. cbn. rewrite !Z.shiftr_div_pow2 by lia. divlia. Qed.

Lemma the_sb_eq : the_sb = mk_superblock FSMAGIC 1000 954 200 30 2 32 45.
Proof. reflexivity. Qed.

Lemma the_areas : areas 2 30 the_sb.
Proof.
  rewrite the_sb_eq. split.
  - intros inum b. unfold IBLOCK, BBLOCK, IPB, BPB. cbn. divlia.
  - intros inum. unfold IBLOCK, IPB. cbn. intros Hi. split; unfold in_log; divlia.
Qed.

Lemma the_data b : 46 <= b < 1000 -> data_block 2 30 the_sb b.
Proof.
  intros Hb. rewrite the_sb_eq. split.
  - split; unfold in_log; lia.
  - cbn. lia.
  - intros b'. unfold BBLOCK, BPB. cbn. divlia.
  - intros inum. unfold IBLOCK, IPB. cbn. divlia.
Qed.

Lemma BBLOCK_the b : 0 <= b < 1000 -> BBLOCK b the_sb = 45.
Proof. rewrite the_sb_eq. unfold BBLOCK, BPB. cbn. divlia. Qed.

(** ** The bitmap *)

Lemma length_set_bits n buf : length (set_bits n buf) = length buf.
Proof. induction n as [|n IH]; cbn; [done|]. by rewrite length_insert. Qed.

Lemma set_bits_spec n b :
  Z.of_nat n <= 8192 -> Z.of_nat b < 8192 ->
  Z.testbit (default 0 (set_bits n zero_block !! (b / 8)%nat)) (Z.of_nat b mod 8) = bool_decide (b < n)%nat.
Proof.
  intros Hn Hb. induction n as [|n IH]; cbn [set_bits].
  { rewrite bool_decide_false by lia. destruct (zero_block !! (b / 8)%nat) as [y|] eqn:E; [|apply Z.bits_0].
    apply lookup_replicate in E as [-> _]. apply Z.bits_0. }
  pose proof (Nat.div_mod b 8 ltac:(lia)) as Eb. pose proof (Nat.div_mod n 8 ltac:(lia)) as En.
  pose proof (Nat.mod_upper_bound b 8 ltac:(lia)). pose proof (Nat.mod_upper_bound n 8 ltac:(lia)).
  destruct (decide (n / 8 = b / 8)%nat) as [E|E].
  - rewrite E, list_lookup_insert_eq by (rewrite length_set_bits; change (length zero_block) with 1024%nat; lia).
    cbn [default from_option id]. rewrite testbit_set by divlia. rewrite IH by lia. destruct (decide (Z.of_nat b mod 8 = Z.of_nat n mod 8)) as [Em|Em].
    + symmetry. apply bool_decide_true. divlia.
    + apply bool_decide_ext. assert (b <> n) by (intros ->; done). lia.
  - rewrite list_lookup_insert_ne, IH by (done || lia). apply bool_decide_ext. assert (b <> n) by (intros ->; done). lia.
Qed.

(** ** The image *)

Definition image (s : mkst) : disk := fun b => default zero_block (mk_img s !! b).
Definition vdisk (s : mkst) : disk := apply_write (image s) (45, set_bits (Z.to_nat (mk_freeblock s)) zero_block).

Record mk_inv (s : mkst) : Prop := {
  mi_sb : mk_sb s = the_sb;
  mi_fb : 46 <= mk_freeblock s <= 1000;
  mi_len : forall b, 0 <= b < 1000 -> exists d, mk_img s !! b = Some d /\ length d = 1024%nat;
  mi_zero : forall b, mk_freeblock s <= b < 1000 -> mk_img s !! b = Some zero_block;
  mi_log : forall b, 2 <= b < 32 -> mk_img s !! b = Some zero_block;
  mi_super : mk_img s !! 1 = Some (sb_bytes the_sb);
}.

Lemma vdisk_other s b : b <> 45 -> vdisk s b = image s b.
Proof. intros Hb. unfold vdisk, apply_write. cbn [fst snd]. by rewrite decide_False. Qed.

Lemma vdisk_map s : vdisk s 45 = set_bits (Z.to_nat (mk_freeblock s)) zero_block.
Proof. unfold vdisk, apply_write. cbn [fst snd]. by rewrite decide_True. Qed.

Lemma vdisk_used s b : mk_inv s -> 0 <= b < 1000 -> used the_sb (vdisk s) b = (b <? mk_freeblock s).
Proof.
  intros [] Hb. unfold used, map_byte, byte_of. rewrite BBLOCK_the, vdisk_map by done.
  replace (Z.to_nat (b mod BPB / 8)) with (Z.to_nat b / 8)%nat by (unfold BPB; rewrite Z.mod_small by lia; rewrite Z2Nat.inj_div by lia; done).
  replace (b mod 8) with (Z.of_nat (Z.to_nat b) mod 8) by (by rewrite Z2Nat.id by lia).
  rewrite set_bits_spec by lia. destruct (Z.ltb_spec b (mk_freeblock s)); [apply bool_decide_true|apply bool_decide_false]; lia.
Qed.

Lemma vdisk_ok s : mk_inv s -> bitmap_ok 2 30 the_sb (vdisk s).
Proof.
  intros Hi. split; change (sb_size the_sb) with 1000.
  - lia.
  - intros b Hb. rewrite BBLOCK_the by done. split; unfold in_log; lia.
  - intros b Hb. rewrite BBLOCK_the, vdisk_map by done. apply length_set_bits.
  - intros b Hb Hu. rewrite vdisk_used in Hu by done. apply Z.ltb_ge in Hu. apply the_data. destruct Hi. lia.
Qed.

Lemma vdisk_free s : mk_inv s -> mk_freeblock s < 1000 -> free the_sb (vdisk s) (mk_freeblock s).
Proof.
  intros Hi Hlt. split; [change (sb_size the_sb) with 1000; destruct Hi; lia|]. rewrite vdisk_used by (destruct Hi; done || lia). apply Z.ltb_irrefl.
Qed.

Lemma vdisk_nfree s : mk_inv s -> Z.of_nat (nfree the_sb (vdisk s)) = 1000 - mk_freeblock s.
Proof.
  intros Hi. pose proof (mi_fb _ Hi) as Hf.
  assert (free_blocks the_sb (vdisk s) = list_to_set (zseq (mk_freeblock s) (Z.to_nat (1000 - mk_freeblock s)))) as ->.
  { apply set_eq. intros b. rewrite elem_of_free, elem_of_list_to_set, elem_of_zseq. change (sb_size the_sb) with 1000. split.
    - intros [Hb Hu]. rewrite vdisk_used in Hu by done. apply Z.ltb_ge in Hu. lia.
    - intros Hb. split; [lia|]. rewrite vdisk_used by (done || lia). apply Z.ltb_ge. lia. }
  rewrite size_list_to_set by apply NoDup_zseq. rewrite length_zseq. lia.
Qed.

(** freeblock++ *)
Lemma vdisk_alloc s : mk_inv s -> mk_freeblock s < 1000 ->
  vdisk (set_mk_freeblock (mk_freeblock s + 1) s) = alloc the_sb (vdisk s) (mk_freeblock s).
Proof.
  intros Hi Hlt. pose proof (mi_fb _ Hi) as Hf. set (f := mk_freeblock s) in *. apply functional_extensionality. intros b.
  unfold alloc, mark, apply_write. cbn [fst snd]. rewrite BBLOCK_the by lia.
  destruct (decide (b = f)) as [->|Hne].
  { rewrite vdisk_other by lia. unfold image. cbn. by rewrite (mi_zero _ Hi) by lia. }
  destruct (decide (b = 45)) as [->|Hb]; [|by rewrite !vdisk_other by done].
  rewrite !vdisk_map. cbn [mk_freeblock set_mk_freeblock]. replace (Z.to_nat (f + 1)) with (S (Z.to_nat f)) by lia. cbn [set_bits].
  unfold map_byte, byte_of. rewrite BBLOCK_the, vdisk_map by lia. fold f.
  replace (Z.to_nat (f mod BPB / 8)) with (Z.to_nat f / 8)%nat by (unfold BPB; rewrite Z.mod_small by lia; rewrite Z2Nat.inj_div by lia; done).
  by rewrite Z2Nat.id by lia.
Qed.

Lemma mk_inv_alloc s : mk_inv s -> mk_freeblock s < 1000 -> mk_inv (set_mk_freeblock (mk_freeblock s + 1) s).
Proof. intros [] Hlt. split; try done; cbn; [lia|]. intros b Hb. apply mi_zero0. lia. Qed.

Lemma wp_freeblock s (Q : Z -> mkst -> Prop) :
  mk_inv s -> mk_freeblock s < 1000 ->
  Q (mk_freeblock s) (set_mk_freeblock (mk_freeblock s + 1) s) -> wp freeblock_next Q s.
Proof.
  intros Hi Hlt HQ. pose proof (mi_fb _ Hi). unfold freeblock_next. bsteps. unfold u32. by rewrite Z.mod_small by lia.
Qed.

Lemma wp_rsect s b (Q : list Z -> mkst -> Prop) :
  mk_inv s -> 0 <= b < 1000 -> b <> 45 -> Q (vdisk s b) s -> wp (rsect b) Q s.
Proof.
  intros Hi Hb Hne HQ. unfold rsect. bsteps. destruct (mi_len _ Hi b Hb) as (d & E & _). rewrite vdisk_other in HQ by done.
  unfold image in HQ. rewrite E in *. by bstep.
Qed.

Lemma wp_wsect s b d (Q : unit -> mkst -> Prop) :
  mk_inv s -> 32 <= b < mk_freeblock s -> b <> 45 -> length d = 1024%nat ->
  (forall s', mk_inv s' -> vdisk s' = apply_write (vdisk s) (b, d) -> mk_freeblock s' = mk_freeblock s ->
     mk_freeinode s' = mk_freeinode s -> Q tt s') ->
  wp (wsect b d) Q s.
Proof.
  intros [] Hb Hne Hd HQ. unfold wsect. bsteps. apply HQ; [| |done|done].
  - split; cbn; try done.
    + intros b' Hb'. destruct (decide (b' = b)) as [->|]; [rewrite lookup_insert_eq; eauto|rewrite lookup_insert_ne by done; auto].
    + intros b' Hb'. rewrite lookup_insert_ne by lia. auto.
    + intros b' Hb'. rewrite lookup_insert_ne by lia. auto.
    + by rewrite lookup_insert_ne by lia.
  - apply functional_extensionality. intros y. unfold vdisk, image, apply_write. cbn [fst snd mk_img set_mk_img mk_freeblock].
    destruct (decide (y = b)) as [->|Hy]; [by rewrite decide_False, lookup_insert_eq by done|].
    by rewrite lookup_insert_ne by done.
Qed.

(** ** iappend *)

(** The file that the disk inode [din] is. *)
Definition mkf (inum : Z) (din : inode) : inode := set_i_dev 1 (set_i_inum inum din).

Abbreviation mfile := (file_wf 2 30 the_sb).
Abbreviation mmapping := (mapping 2 30 the_sb).

Lemma owned_range s x b : mk_inv s -> mfile (vdisk s) x -> owns (vdisk s) x b -> 46 <= b < mk_freeblock s.
Proof.
  intros Hi Hw (Hd & Hu & _)%(fw_block _ _ _ _ _ Hw). pose proof (db_low _ _ _ _ Hd) as Hlow. change (sb_size the_sb) with 1000 in Hlow.
  rewrite vdisk_used in Hu by (done || lia). apply Z.ltb_lt in Hu. split; [|done].
  destruct (decide (46 <= b)) as [|Hlt]; [done|]. exfalso. destruct Hd as [[_ Hlog] _ Hmap Hino]. change (sb_size the_sb) with 1000 in Hmap.
  specialize (Hmap 0 ltac:(lia)). rewrite BBLOCK_the in Hmap by lia. apply (Hino ((b - 32) * 16)).
  - change (sb_ninodes the_sb) with 200. unfold in_log in Hlog. lia.
  - rewrite the_sb_eq. unfold IBLOCK, IPB. cbn. divlia.
Qed.

Lemma xint_addr s x bn : mk_inv s -> mfile (vdisk s) x -> 0 <= bn < MAXFILE ->
  xint (addr_of (vdisk s) x bn) = addr_of (vdisk s) x bn.
Proof.
  intros Hi Hw Hbn. apply xint_small. destruct (decide (addr_of (vdisk s) x bn = 0)) as [->|Hne]; [unfold is_u32; lia|].
  pose proof (owned_range s x _ Hi Hw (owns_addr _ _ _ Hbn Hne)). destruct Hi. unfold is_u32. lia.
Qed.

Lemma xint_ind s x : mk_inv s -> mfile (vdisk s) x -> xint (ind x) = ind x.
Proof.
  intros Hi Hw. apply xint_small. destruct (decide (ind x = 0)) as [->|Hne]; [unfold is_u32; lia|].
  pose proof (owned_range s x _ Hi Hw (owns_ind _ _ Hne)). destruct Hi. unfold is_u32. lia.
Qed.

Section append.
Context (inum : Z).

(** The indirect case, when there is an indirect block. *)
Lemma wp_append_entry s din fbn L (Q : inode * Z -> mkst -> Prop) :
  let x := mkf inum din in
  mk_inv s -> mfile (vdisk s) x -> Z.of_nat NDIRECT <= fbn < MAXFILE -> ind x <> 0 ->
  (addr_of (vdisk s) x fbn = 0 -> mk_freeblock s < 1000) ->
  (forall s' L', mk_inv s' -> mmapping (vdisk s) x L fbn (vdisk s') x L' -> mk_freeinode s' = mk_freeinode s ->
     Q (din, addr_of (vdisk s') x fbn) s') ->
  wp (let k := Z.to_nat (fbn - Z.of_nat NDIRECT) in
      indirect ← rsect (ind x);
      indirect ← (if get_uint indirect (4 * k) =? 0 then
                    b ← freeblock_next;
                    let indirect := put_uint indirect (4 * k) (xint b) in
                    wsect (ind x) indirect;;
                    mret indirect
                  else mret indirect);
      mret (din, xint (get_uint indirect (4 * k)))) Q s.
Proof.
  intros x Hi Hw Hbn Hind Hroom HQ. pose proof (owned_range s x _ Hi Hw (owns_ind _ _ Hind)) as Hr.
  destruct (fw_block _ _ _ _ _ Hw _ (owns_ind _ _ Hind)) as (_ & _ & Hlen).
  assert (forall v, get_uint (v (ind x)) (4 * Z.to_nat (fbn - Z.of_nat NDIRECT)) = addr_of v x fbn) as Ea.
  { intros v. unfold addr_of. by rewrite (proj2 (Z.ltb_ge _ _)), (proj2 (Z.eqb_neq _ _)) by (lia || done). }
  cbv zeta. bstep. apply wp_rsect; [done|destruct Hi; lia|lia|]. rewrite Ea. bstep.
  destruct (Z.eqb_spec (addr_of (vdisk s) x fbn) 0) as [E0|E0].
  - specialize (Hroom E0). bstep. apply wp_freeblock; [done|done|]. set (f := mk_freeblock s) in *.
    pose proof (mk_inv_alloc s Hi Hroom) as Hi1. pose proof (vdisk_alloc s Hi Hroom) as Ev1. fold f in Hi1, Ev1.
    assert (xint f = f) as -> by (apply xint_small; pose proof (mi_fb _ Hi); unfold is_u32; lia).
    pose proof (nfree_alloc 2 30 the_sb (vdisk s) f (vdisk_ok s Hi)) as En.
    destruct (vdisk_free s Hi Hroom) as [Hf1 Hf2]. fold f in Hf1, Hf2. specialize (En Hf1 Hf2).
    destruct (mapping_entry 2 30 the_sb (ar_map _ _ _ the_areas) (vdisk s) x L fbn f) as [Hm Ef]; [by apply vdisk_ok|done|done|lia|done..|].
    cbv zeta. bstep. apply wp_wsect; [done|cbn; lia|lia|unfold put_uint; by rewrite length_put_le|].
    intros s2 Hi2 Ev2 _ Ein. bstep. bstep. rewrite Ev1 in Ev2.
    assert (put_uint (vdisk s (ind x)) (4 * Z.to_nat (fbn - Z.of_nat NDIRECT)) f = vdisk s2 (ind x)) as ->.
    { rewrite Ev2. unfold apply_write. cbn [fst snd]. by rewrite decide_True. }
    rewrite Ea, (xint_addr s2) by (done || lia || (rewrite Ev2; apply Hm)).
    rewrite <- Ev2 in Hm. by eapply HQ.
  - bstep. bstep. rewrite Ea, (xint_addr s) by (done || lia). eapply (HQ s L); [done|apply mapping_refl; [by apply vdisk_ok|done..]|done].
Qed.

Lemma wp_append_block s din fbn L (Q : inode * Z -> mkst -> Prop) :
  let x := mkf inum din in
  mk_inv s -> mfile (vdisk s) x -> 0 <= fbn < MAXFILE ->
  (addr_of (vdisk s) x fbn = 0 -> mk_freeblock s + Z.of_nat (need_at x fbn) < 1000) ->
  (forall s' din' L', mk_inv s' -> mmapping (vdisk s) x L fbn (vdisk s') (mkf inum din') L' ->
     mk_freeinode s' = mk_freeinode s -> Q (din', addr_of (vdisk s') (mkf inum din') fbn) s') ->
  wp (iappend_block din fbn) Q s.
Proof.
  intros x Hi Hw Hbn Hroom HQ. pose proof (vdisk_ok s Hi) as Hok. unfold iappend_block.
  assert (mk_freeblock s < 1000 -> nfree the_sb (vdisk s) = S (nfree the_sb (alloc the_sb (vdisk s) (mk_freeblock s)))) as En.
  { intros Hlt. destruct (vdisk_free s Hi Hlt). by eapply nfree_alloc. }
  assert (xint (mk_freeblock s) = mk_freeblock s) as Exf by (apply xint_small; pose proof (mi_fb _ Hi); unfold is_u32; lia).
  destruct (Z.ltb_spec fbn (Z.of_nat NDIRECT)) as [Hd|Hd]; cbv zeta.
  - assert (forall v d, default 0 (i_addrs d !! Z.to_nat fbn) = addr_of v (mkf inum d) fbn) as Ea
      by (intros v d; unfold addr_of; by rewrite (proj2 (Z.ltb_lt _ _)) by done).
    rewrite (Ea (vdisk s)). fold x. rewrite (xint_addr s) by done. bstep.
    destruct (Z.eqb_spec (addr_of (vdisk s) x fbn) 0) as [E0|E0].
    + specialize (Hroom E0). bstep. apply wp_freeblock; [done|lia|]. bstep. bstep. rewrite Exf.
      set (din' := set_i_addrs _ din). rewrite (Ea (vdisk (set_mk_freeblock (mk_freeblock s + 1) s)) din').
      destruct (mapping_direct 2 30 the_sb (ar_map _ _ _ the_areas) (vdisk s) x L fbn (mk_freeblock s)) as [Hm _];
        [done|done|apply vdisk_free; [done|lia]|lia|done|apply En; lia|].
      rewrite <- vdisk_alloc in Hm by (done || lia). change (set_i_addrs _ x) with (mkf inum din') in Hm.
      assert (mk_inv (set_mk_freeblock (mk_freeblock s + 1) s)) as Hi1 by (apply mk_inv_alloc; [done|lia]).
      rewrite (xint_addr _ _ _ Hi1 (mp_wf _ _ _ _ _ _ _ _ _ _ Hm) Hbn). eapply HQ; [done|exact Hm|done].
    + bstep. bstep. rewrite (Ea (vdisk s)), xint_addr by done. eapply (HQ s din L); [done|by apply mapping_refl|done].
  - fold (ind din). change (ind din) with (ind x). rewrite (xint_ind s) by done. bstep. destruct (Z.eqb_spec (ind x) 0) as [Ei|Ei].
    + assert (addr_of (vdisk s) x fbn = 0) as E0 by (unfold addr_of; by rewrite (proj2 (Z.ltb_ge _ _)), Ei by done).
      specialize (Hroom E0). unfold need_at, need in Hroom. rewrite (proj2 (Z.ltb_ge _ _)), Ei in Hroom by done. cbn [Z.eqb] in Hroom.
      bstep. apply wp_freeblock; [done|lia|]. bstep. rewrite Exf. set (s1 := set_mk_freeblock _ s). set (g := mk_freeblock s) in *.
      destruct (grow_ind 2 30 the_sb (ar_map _ _ _ the_areas) (vdisk s) x g Hok Hw) as (Hw1 & _ & Ei1 & Ea1); [apply vdisk_free; [done|fold g; lia]|done|].
      set (din1 := set_i_addrs _ din). change (set_i_addrs _ x) with (mkf inum din1) in Hw1, Ei1, Ea1.
      assert (mk_inv s1) as Hi1 by (apply mk_inv_alloc; [done|fold g; lia]).
      assert (vdisk s1 = alloc the_sb (vdisk s) g) as Ev1 by (apply vdisk_alloc; [done|fold g; lia]).
      rewrite <- Ev1 in Hw1, Ea1. fold (ind din1). change (ind din1) with (ind (mkf inum din1)). rewrite (xint_ind s1) by done.
      eapply wp_append_entry; [done|exact Hw1|lia|rewrite Ei1; pose proof (mi_fb _ Hi) as Hfb; fold g in Hfb; lia|intros _; cbn; fold g; lia|].
      intros s' L' Hi' Hm' Ein. eapply (HQ s' din1 L'); [done| |done]. rewrite Ev1 in Hm'.
      eapply mapping_ind; [exact (ar_map _ _ _ the_areas)|done|done|apply vdisk_free; [exact Hi|fold g; lia]|done|lia|done|apply En; fold g; lia|exact Hm'].
    + bstep. fold (ind din). change (ind din) with (ind x). rewrite (xint_ind s) by done.
      eapply wp_append_entry; [done|exact Hw|lia|done|intros E0; specialize (Hroom E0); lia|].
      intros s' L' Hi' Hm' Ein. by eapply HQ.
Qed.

Lemma wp_append_loop view x bs off C B fuel tot s din L1 (Q : inode * Z -> mkst -> Prop) :
  let n := Z.of_nat (length bs) in
  0 <= off <= i_size x -> off + n <= MAXFILE * 1024 -> B <= 1000 ->
  writing 2 30 the_sb view x bs off n C tot (vdisk s) (mkf inum din) L1 -> mk_inv s ->
  mk_freeblock s + Z.of_nat (need_to (mkf inum din) (off + n)) + blocks (off + tot) (n - tot) <= B ->
  0 <= tot <= n -> (tot < n -> n - tot + (off + tot) mod 1024 <= 1024 * Z.of_nat fuel) ->
  (forall s' din' L', writing 2 30 the_sb view x bs off n C n (vdisk s') (mkf inum din') L' -> mk_inv s' ->
     mk_freeblock s' + Z.of_nat (need_to (mkf inum din') (off + n)) <= B -> mk_freeinode s' = mk_freeinode s ->
     Q (din', off + n) s') ->
  wp (iappend_loop fuel din (drop (Z.to_nat tot) bs) (n - tot) (off + tot)) Q s.
Proof.
  intros n Hoff Hmax HB. revert tot s din L1.
  induction fuel as [|fuel IH]; intros tot s din L1 Hwr Hi Hbud Htot Hfuel HQ;
    pose proof (Z.mod_pos_bound (off + tot) 1024 eq_refl) as Hmod; cbn [iappend_loop];
    destruct (Z.ltb_spec 0 (n - tot)) as [Hlt|Hge]; try lia.
  1, 3: assert (tot = n) as -> by lia; bstep; eapply HQ; [exact Hwr|done|unfold blocks in Hbud; rewrite Z.sub_diag, Z.add_0_r in Hbud; lia|done].
  set (o := off + tot) in *. assert (0 <= o / 1024 < MAXFILE) as Hbn by (unfold MAXFILE in *; divlia).
  cbv zeta. rewrite (proj2 (Z.ltb_lt _ _)) by lia. cbn [assert_]. bstep. bstep. bstep.
  pose proof (unmapped_aligned _ _ _ _ _ _ _ _ _ _ _ _ _ Hwr ltac:(lia)) as Hal. fold o in Hal.
  eapply (wp_append_block s din (o / 1024) L1); [done|apply Hwr|done| |].
  { intros E0. specialize (Hal E0). assert (1 <= blocks o (n - tot)) by (unfold blocks; divlia).
    assert (need_at (mkf inum din) (o / 1024) <= need_to (mkf inum din) (off + n))%nat; [|lia].
    unfold need_at, need_to. destruct (Z.ltb_spec (o / 1024) (Z.of_nat NDIRECT)); [lia|]. by rewrite (proj2 (Z.leb_gt _ _)) by divlia. }
  intros s2 din2 L2 Hi2 Hmp Ein2.
  pose proof (mapping_free_to _ _ _ _ _ _ _ _ _ _ (off + n) Hmp ltac:(divlia)) as Hfree.
  pose proof (vdisk_nfree s Hi) as En1. pose proof (vdisk_nfree s2 Hi2) as En2.
  pose proof (blocks_step o (n - tot) ltac:(lia) ltac:(lia)) as Eb. cbv zeta in Eb.
  pose proof (writing_step 2 30 the_sb (ar_map _ _ _ the_areas) view x bs off n C tot (vdisk s) (mkf inum din) L1 (vdisk s2) (mkf inum din2) L2 Hwr Hoff ltac:(lia) ltac:(lia) Hmax Hmp) as Hwr'. cbv zeta in Hwr'. fold o in Hwr'.
  replace (Z.min (n - tot) ((o / 1024 + 1) * 1024 - o)) with (Z.min (n - tot) (1024 - o mod 1024)) by divlia.
  replace (o - o / 1024 * 1024) with (o mod 1024) by divlia. set (m := Z.min (n - tot) (1024 - o mod 1024)) in *.
  pose proof (owned_range s2 _ _ Hi2 (mp_wf _ _ _ _ _ _ _ _ _ _ Hmp) (owns_addr _ _ _ Hbn (mp_addr _ _ _ _ _ _ _ _ _ _ Hmp))) as Hr.
  destruct (fw_block _ _ _ _ _ (mp_wf _ _ _ _ _ _ _ _ _ _ Hmp) _ (owns_addr _ _ _ Hbn (mp_addr _ _ _ _ _ _ _ _ _ _ Hmp))) as (_ & _ & Hla).
  cbn iota beta. set (a := addr_of (vdisk s2) (mkf inum din2) (o / 1024)) in *.
  bstep. apply wp_rsect; [done|destruct Hi2; lia|lia|]. bstep. apply wp_wsect; [done|lia|lia| |].
  { rewrite length_splice; [done|]. rewrite length_take, length_drop, Hla. divlia. }
  intros s3 Hi3 Ev3 Ef3 Ein3. rewrite drop_drop, <- Z2Nat.inj_add by lia.
  replace (n - tot - m) with (n - (tot + m)) by lia. replace (o + m) with (off + (tot + m)) by lia.
  rewrite <- Ev3 in Hwr'. eapply IH; [exact Hwr'|done| |lia| |].
  - rewrite Ef3. replace (off + (tot + m)) with (o + m) by lia. replace (n - (tot + m)) with (n - tot - m) by lia. rewrite Eb.
    unfold extra in Hfree. destruct (Z.eqb_spec (addr_of (vdisk s) (mkf inum din) (o / 1024)) 0) as [E0|E0].
    + rewrite (Hal E0). cbn [Z.eqb]. lia.
    + destruct (o mod 1024 =? 0); lia.
  - intros Hlt'. assert (m = 1024 - o mod 1024) as Em by lia. specialize (Hfuel ltac:(lia)). unfold o in *. divlia.
  - intros s' din' L' Hwr'' Hi' Hb' Ein'. eapply HQ; [done|done|done|congruence].
Qed.
End append.

(** ** Inodes *)

Lemma IBLOCK_the inum : 0 <= inum < 200 -> 32 <= IBLOCK inum the_sb < 45.
Proof. intros Hi. rewrite the_sb_eq. unfold IBLOCK, IPB. cbn. divlia. Qed.

Lemma wp_rinode s inum (Q : inode -> mkst -> Prop) :
  mk_inv s -> 0 <= inum < 200 ->
  Q (get_dinode (vdisk s (IBLOCK inum the_sb)) (dinode_off inum) inode0) s -> wp (rinode inum) Q s.
Proof.
  intros Hi Hin HQ. pose proof (IBLOCK_the inum Hin). unfold rinode. bstep. bstep. rewrite (mi_sb _ Hi). bstep.
  apply wp_rsect; [done|lia|lia|]. by bstep.
Qed.

Lemma wp_winode s inum din (Q : unit -> mkst -> Prop) :
  mk_inv s -> 0 <= inum < 200 -> let blk := IBLOCK inum the_sb in
  length (vdisk s blk) = 1024%nat ->
  (forall s', mk_inv s' -> vdisk s' = apply_write (vdisk s) (blk, put_dinode (vdisk s blk) (dinode_off inum) din) ->
     mk_freeblock s' = mk_freeblock s -> mk_freeinode s' = mk_freeinode s -> Q tt s') ->
  wp (winode inum din) Q s.
Proof.
  intros Hi Hin blk Hl HQ. pose proof (IBLOCK_the inum Hin). pose proof (mi_fb _ Hi). unfold winode. bstep. bstep. rewrite (mi_sb _ Hi). fold blk.
  bstep. apply wp_rsect; [done|unfold blk; lia|unfold blk; lia|]. apply wp_wsect; [done|unfold blk; lia|unfold blk; lia|by rewrite length_put_dinode|done].
Qed.

(** The inode of a file of the image, not in use by any kernel. *)
Record mk_file (s : mkst) (inum : Z) (x : inode) : Prop := {
  mf_ok : file_ok 2 30 the_sb (vdisk s) x;
  mf_inum : i_inum x = inum;
  mf_mem : i_dev x = 1 /\ i_ref x = 0 /\ i_valid x = false;
  mf_tail : tail_zero (vdisk s) x;
}.

(** Another inode of the block of [inum] is not touched by winode. *)
Lemma on_disk_other view x y :
  on_disk the_sb view y -> i_inum y <> i_inum x -> 0 <= i_inum x -> 0 <= i_inum y -> length (i_addrs x) = 13%nat ->
  let blk := IBLOCK (i_inum x) the_sb in
  on_disk the_sb (apply_write view (blk, put_dinode (view blk) (dinode_off (i_inum x)) x)) y.
Proof.
  intros [Hl E] Hne Hx Hy Ha blk. unfold on_disk, apply_write. cbn [fst snd]. case_decide as Eb; [|done]. fold blk.
  rewrite <- Eb in *. rewrite length_put_dinode. split; [done|]. etrans; [|exact E]. apply get_dinode_ext. intros k Hk.
  apply put_dinode_lookup_ne; [done|]. unfold blk, IBLOCK, dinode_off, IPB in *.
  assert (i_inum x mod 16 <> i_inum y mod 16) by divlia. pose proof (Z.mod_pos_bound (i_inum x) 16 eq_refl).
  pose proof (Z.mod_pos_bound (i_inum y) 16 eq_refl). lia.
Qed.

(** The blocks of a file of [len] bytes. *)
Definition nblocks (len : Z) : Z := (len + 1023) / 1024 + (if len <=? Z.of_nat NDIRECT * 1024 then 0 else 1).

(** The blocks that an append takes. *)
Lemma append_blocks view x n :
  mapped_to view x (i_size x) -> 0 <= n ->
  Z.of_nat (need_to x (i_size x + n)) + blocks (i_size x) n <= nblocks (i_size x + n) - nblocks (i_size x).
Proof.
  intros Hm Hn. unfold blocks, nblocks, need_to, need.
  destruct (Z.leb_spec (i_size x + n) (Z.of_nat NDIRECT * 1024)), (Z.leb_spec (i_size x) (Z.of_nat NDIRECT * 1024)),
    (Z.eqb_spec (ind x) 0) as [E0|]; try lia.
  exfalso. apply (Hm (Z.of_nat NDIRECT)); [lia|done|]. unfold addr_of. by rewrite E0.
Qed.

(** What the files before the operation are afterwards: the others keep everything. *)
Definition others (s : mkst) (x : inode) (s' : mkst) (x' : inode) : Prop :=
  keeps 2 30 the_sb (vdisk s) x (vdisk s') x' /\
  forall y, on_disk the_sb (vdisk s) y -> 0 <= i_inum y < 200 -> i_inum y <> i_inum x -> on_disk the_sb (vdisk s') y.

(** The end of iappend, when the inode has been written. *)
Lemma append_done s x bs C s1 din1 L1 :
  let n := Z.of_nat (length bs) in
  let x2 := set_i_size (Z.max (i_size x) (i_size x + n)) (mkf (i_inum x) din1) in
  let blk := IBLOCK (i_inum x) the_sb in
  mk_inv s -> mk_inv s1 -> file_ok 2 30 the_sb (vdisk s) x -> tail_zero (vdisk s) x ->
  writing 2 30 the_sb (vdisk s) x bs (i_size x) n C n (vdisk s1) (mkf (i_inum x) din1) L1 ->
  0 <= i_size x -> i_size x + n <= MAXFILE * 1024 ->
  length (vdisk s1 blk) = 1024%nat /\
  forall s2, vdisk s2 = apply_write (vdisk s1) (blk, put_dinode (vdisk s1 blk) (dinode_off (i_inum x)) x2) ->
    file_ok 2 30 the_sb (vdisk s2) x2 /\ contents (vdisk s2) x2 = contents (vdisk s) x ++ bs /\
    tail_zero (vdisk s2) x2 /\ others s x s2 x2.
Proof.
  intros n x2 blk Hi Hi1 Hfile Htail Hwr Hs0 Hmax. pose proof (fw_inum _ _ _ _ _ (fo_wf _ _ _ _ _ Hfile)) as Hin.
  assert (forall y, on_disk the_sb (vdisk s) y -> 0 <= i_inum y < 200 -> on_disk the_sb (vdisk s1) y) as Hod.
  { intros y Hy Hyi. unfold on_disk. by rewrite (wr_inodes _ _ _ _ _ _ _ _ _ _ _ _ _ Hwr) by done. }
  assert (i_inum x2 = i_inum x) as Ei by done. change (sb_ninodes the_sb) with 200 in Hin.
  split; [apply (proj1 (Hod x (fo_disk _ _ _ _ _ Hfile) Hin))|]. intros s2 Ev2.
  pose proof (written_update 2 30 the_sb (ar_map _ _ _ the_areas) _ _ _ _ _ _ _ _ Hwr Hfile ltac:(lia) Hmax) as Hwt. cbv zeta in Hwt.
  fold n x2 in Hwt. rewrite Ei in Hwt. fold blk in Hwt. rewrite <- Ev2 in Hwt. destruct Hwt.
  split_and!; [done| |by apply wt_tail|].
  - rewrite wt_contents. unfold splice. pose proof (length_contents (vdisk s) x) as El.
    rewrite <- El, firstn_all, drop_ge, app_nil_r by lia. done.
  - split; [done|]. intros y Hy Hyi Hne. rewrite Ev2. apply (on_disk_other _ x2); [by apply Hod|done|cbn; lia|lia|].
    apply (fw_addrs _ _ _ _ _ (fo_wf _ _ _ _ _ wt_file)).
Qed.

Lemma wp_iappend s inum x bs (Q : unit -> mkst -> Prop) :
  let n := Z.of_nat (length bs) in
  mk_inv s -> mk_file s inum x -> i_size x + n <= MAXFILE * 1024 ->
  mk_freeblock s + nblocks (i_size x + n) - nblocks (i_size x) <= 1000 ->
  (forall s' x', mk_inv s' -> mk_file s' inum x' -> i_type x' = i_type x -> i_size x' = i_size x + n ->
     contents (vdisk s') x' = contents (vdisk s) x ++ bs -> others s x s' x' ->
     mk_freeblock s' <= mk_freeblock s + nblocks (i_size x + n) - nblocks (i_size x) ->
     mk_freeinode s' = mk_freeinode s -> Q tt s') ->
  wp (iappend inum bs n) Q s.
Proof.
  intros n Hi [[Hw Hm Hwf [Hdl Hdd]] <- (Hdev & Href & Hval) Htail] Hmax Hroom HQ.
  pose proof (fw_inum _ _ _ _ _ Hw) as Hin. change (sb_ninodes the_sb) with 200 in Hin.
  pose proof (fw_size _ _ _ _ _ Hw) as Hsz. unfold iappend. bstep. apply wp_rinode; [done..|].
  set (d := vdisk s (IBLOCK (i_inum x) the_sb)) in *. set (din := get_dinode d (dinode_off (i_inum x)) inode0).
  assert (mkf (i_inum x) din = x) as Ex by (etrans; [|exact Hdd]; unfold mkf, din, get_dinode; destruct x; cbn in *; by subst).
  assert (i_size din = i_size x) as Es by by rewrite <- Ex.
  set (B := mk_freeblock s + Z.of_nat (need_to x (i_size x + n)) + blocks (i_size x) n).
  assert (B <= mk_freeblock s + nblocks (i_size x + n) - nblocks (i_size x)) as HB
    by (pose proof (append_blocks (vdisk s) x n Hm ltac:(lia)); unfold B; lia).
  rewrite Es, xint_small by (unfold is_u32, MAXFILE in *; lia).
  pose proof (writing_start 2 30 the_sb (vdisk s) x bs (i_size x) n (Z.of_nat (charge ∅ x) + cost (i_size x) n) ∅ (vdisk_ok s Hi) Hw Hm
    ltac:(lia) (Z.le_refl _)) as Hst. pose proof (vdisk_nfree s Hi) as En. specialize (Hst ltac:(unfold B in HB; lia)).
  bstep. replace (iappend_loop _ din bs n (i_size x)) with
    (iappend_loop (blocks_bound n) din (drop (Z.to_nat 0) bs) (n - 0) (i_size x + 0)) by (by rewrite Z.sub_0_r, Z.add_0_r).
  eapply (wp_append_loop (i_inum x) (vdisk s) x bs (i_size x) _ B); [lia|done|lia|rewrite Ex; exact Hst|done| |lia|intros _; unfold blocks_bound; divlia|].
  { rewrite Ex. unfold B. fold n. rewrite Z.add_0_r, Z.sub_0_r. lia. }
  intros s1 din1 L1 Hwr Hi1 Hb1 Ein1. fold n in Hwr, Hb1. cbn iota beta.
  rewrite xint_small by (unfold is_u32, MAXFILE in *; lia). set (x2 := set_i_size (Z.max (i_size x) (i_size x + n)) (mkf (i_inum x) din1)).
  fold n. replace (set_i_size (i_size x + n) din1) with (set_i_size (Z.max (i_size x) (i_size x + n)) din1) by (f_equal; lia).
  assert (file_ok 2 30 the_sb (vdisk s) x) as Hfile by by split.
  destruct (append_done s x bs _ s1 din1 L1 Hi Hi1 Hfile Htail Hwr ltac:(lia) Hmax) as (Hl1 & Hdone). fold n x2 in Hdone.
  apply wp_winode; [done|done|exact Hl1|]. intros s2 Hi2 Ev2 Ef2 Ein2.
  destruct (Hdone s2 Ev2) as (Hf2 & Ec2 & Ht2 & Ho2).
  apply (HQ s2 x2); [done| |by unfold x2; rewrite (wr_inode _ _ _ _ _ _ _ _ _ _ _ _ _ Hwr)|cbn; lia|done|done|rewrite Ef2; lia|congruence].
  split; [done|by unfold x2; rewrite (wr_inode _ _ _ _ _ _ _ _ _ _ _ _ _ Hwr)| |done].
  unfold x2. rewrite (wr_inode _ _ _ _ _ _ _ _ _ _ _ _ _ Hwr). done.
Qed.
