(* ===== verification/MkfsImage.v ===== *)
(** * The image that mkfs makes is a file system with the files it was given

    [holds s fs]: the image of [s] holds the files [fs], inode [k + 1] being the [k]th,
    with its type and its bytes; ialloc and iappend act on the list.  [mkfs_correct]: the
    image that main leaves is well-formed, its log is empty, its super block is the one
    that the kernel reads, and its root directory leads from every name to the file with
    the bytes that were read from the host. *)

From Stdlib Require Import ZArith Lia FunctionalExtensionality.
From stdpp Require Import base list gmap sets strings.
From S2P Require Import Prelude KString Spinlock Riscv Kalloc Vm Proc Sleeplock Bio Log LogSpec Fs FsTxn FsAlloc FsProofs FsFile FsRw FsWrite FsTheorems FsDir Mkfs MkfsProofs.

Abbreviation mfile_ok := (file_ok 2 30 the_sb).

(** The files of a disk: inode [k + 1] is the [k]th. *)
Record disk_files (d : disk) (xs : list inode) : Prop := {
  df_file : forall k x, xs !! k = Some x -> mfile_ok d x /\ i_inum x = Z.of_nat k + 1 /\ tail_zero d x;
  df_mem : forall k x, xs !! k = Some x -> i_dev x = 1 /\ i_ref x = 0 /\ i_valid x = false;
  df_apart : forall j k x y, j <> k -> xs !! j = Some x -> xs !! k = Some y -> apart d x y;
}.

(** Their types and bytes. *)
Definition listing (d : disk) (xs : list inode) : list (Z * list Z) := (fun x => (i_type x, contents d x)) <$> xs.

(** The data blocks that they take. *)
Definition total (fs : list (Z * list Z)) : Z := foldr (fun f n => nblocks (Z.of_nat (length f.2)) + n) 0 fs.

Record holds (s : mkst) (fs : list (Z * list Z)) : Prop := {
  ho_inv : mk_inv s;
  ho_next : mk_freeinode s = Z.of_nat (length fs) + 1;
  ho_many : (length fs < 200)%nat;
  ho_room : mk_freeblock s <= 46 + total fs;
  ho_files : exists xs, disk_files (vdisk s) xs /\ listing (vdisk s) xs = fs;
}.

Lemma total_insert fs k f g : fs !! k = Some f ->
  total (<[k := g]> fs) = total fs - nblocks (Z.of_nat (length f.2)) + nblocks (Z.of_nat (length g.2)).
Proof.
  revert k. induction fs as [|h fs IH]; intros [|k] E; [done|done| |]; cbn in E.
  - injection E as ->. cbn [insert list_insert total foldr]. lia.
  - specialize (IH _ E). change (<[S k := g]> (h :: fs)) with (h :: <[k := g]> fs). unfold total in *. cbn [foldr]. lia.
Qed.

Lemma total_app fs1 fs2 : total (fs1 ++ fs2) = total fs1 + total fs2.
Proof. induction fs1 as [|f fs1 IH]; [done|]. unfold total in *. cbn. lia. Qed.

(** ** Another file when one has changed *)

Lemma tail_zero_keeps d x d' x' y :
  keeps 2 30 the_sb d x d' x' -> mfile d y -> apart d x y -> tail_zero d y -> tail_zero d' y.
Proof.
  intros Hk Hw Hap Ht k Hsz Hmax Ha.
  assert (forall b, owns d y b -> d' b = d b) as Hb.
  { intros b Ho. destruct (fw_block _ _ _ _ _ Hw b Ho) as (Hd & Hu & _). apply Hk; [done..|]. by apply Hap. }
  assert (forall n, addr_of d' y n = addr_of d y n) as Ea by (intros n; apply addr_of_ext; intros Hi; by apply Hb, owns_ind).
  rewrite Ea in Ha. pose proof (fw_size _ _ _ _ _ Hw) as Hs. assert (0 <= k / 1024) by divlia.
  rewrite <- (Ht k Hsz Hmax Ha). unfold byte_at. rewrite Ea, Hb; [done|]. by apply owns_addr.
Qed.

(** Owned blocks of a file that keeps its blocks. *)
Lemma owns_keeps d x d' x' y b :
  keeps 2 30 the_sb d x d' x' -> mfile d y -> apart d x y -> owns d' y b <-> owns d y b.
Proof.
  intros Hk Hw Hap.
  assert (forall n, addr_of d' y n = addr_of d y n) as Ea.
  { intros n; apply addr_of_ext; intros Hi. destruct (fw_block _ _ _ _ _ Hw _ (owns_ind _ _ Hi)) as (Hd & Hu & _).
    apply Hk; [done..|]. by apply Hap, owns_ind. }
  unfold owns. by setoid_rewrite Ea.
Qed.

(** File [k] has changed, the others have kept their blocks and inodes. *)
Lemma disk_files_update d xs k x d' x' :
  disk_files d xs -> xs !! k = Some x -> keeps 2 30 the_sb d x d' x' ->
  (forall j y, j <> k -> xs !! j = Some y -> on_disk the_sb d' y) ->
  mfile_ok d' x' -> i_inum x' = i_inum x -> tail_zero d' x' -> i_dev x' = 1 /\ i_ref x' = 0 /\ i_valid x' = false ->
  disk_files d' (<[k := x']> xs) /\ listing d' (<[k := x']> xs) = <[k := (i_type x', contents d' x')]> (listing d xs).
Proof.
  intros [Hf Hm Ha] Hx Hk Hod Hf' Hi' Ht' Hm'. pose proof (lookup_lt_Some _ _ _ Hx) as Hlt.
  assert (forall j y, j <> k -> xs !! j = Some y -> mfile_ok d' y /\ contents d' y = contents d y /\ apart d' x' y) as Hother.
  { intros j y Hj Hy. destruct (Hf j y Hy) as ([Hw Hmp Hwf _] & _ & _). assert (apart d x y) as Hap by by apply (Ha k j).
    destruct (keeps_file 2 30 the_sb d x d' x' y Hk Hw Hmp Hap) as (Hw' & Hmp' & Ec & Hap').
    split_and!; [|done|done]. split; [done|done|done|]. by eapply Hod. }
  split; [split|].
  - intros j y [(-> & <- & _)|[Hj Hy]]%list_lookup_insert_Some; [destruct (Hf _ _ Hx) as (_ & E & _); split_and!; [done|congruence|done]|].
    destruct (Hf j y Hy) as (Hok & E & Ht). split_and!; [by eapply Hother|done|].
    eapply tail_zero_keeps; [exact Hk|apply Hok|by apply (Ha k j)|done].
  - intros j y [(-> & <- & _)|[Hj Hy]]%list_lookup_insert_Some; [done|by eapply Hm].
  - intros j1 j2 y1 y2 Hne [(-> & <- & _)|[Hj1 Hy1]]%list_lookup_insert_Some [(-> & <- & _)|[Hj2 Hy2]]%list_lookup_insert_Some; [done| | |].
    + by apply (Hother j2).
    + intros b Ho1 Ho2. by apply (proj2 (proj2 (Hother j1 y1 ltac:(done) Hy1)) b Ho2).
    + intros b. rewrite !(owns_keeps d x d' x') by (done || apply (Hf _ _ Hy1) || apply (Hf _ _ Hy2) || (by apply (Ha k j1)) || (by apply (Ha k j2))).
      by apply (Ha j1 j2).
  - unfold listing. apply list_eq. intros j. rewrite list_lookup_fmap.
    destruct (decide (j = k)) as [->|Hj].
    + rewrite !list_lookup_insert_eq; [done|by rewrite length_fmap|done].
    + rewrite !list_lookup_insert_ne, list_lookup_fmap by done. destruct (xs !! j) as [y|] eqn:Hy; [|done]. cbn.
      destruct (Hother j y Hj Hy) as (_ & -> & _). done.
Qed.

(** A file is added, and the others are kept. *)
Lemma disk_files_snoc d xs d' x :
  disk_files d xs -> keeps 2 30 the_sb d x d' x -> (forall j y, xs !! j = Some y -> on_disk the_sb d' y /\ apart d x y) ->
  mfile_ok d' x -> i_inum x = Z.of_nat (length xs) + 1 -> tail_zero d' x -> i_dev x = 1 /\ i_ref x = 0 /\ i_valid x = false ->
  disk_files d' (xs ++ [x]) /\ listing d' (xs ++ [x]) = listing d xs ++ [(i_type x, contents d' x)].
Proof.
  intros [Hf Hm Ha] Hk Hod Hf' Hi' Ht' Hm'.
  assert (forall j y, xs !! j = Some y -> mfile_ok d' y /\ contents d' y = contents d y /\ apart d' x y) as Hother.
  { intros j y Hy. destruct (Hf j y Hy) as ([Hw Hmp Hwf _] & _ & _). destruct (Hod j y Hy) as [Hon Hap].
    destruct (keeps_file 2 30 the_sb d x d' x y Hk Hw Hmp Hap) as (Hw' & Hmp' & Ec & Hap'). by split_and!. }
  split; [split|].
  - intros j y [Hy|[Hj [Hj0 <-]%list_lookup_singleton_Some]]%lookup_app_Some; [|split_and!; [done|lia|done]].
    destruct (Hf j y Hy) as (Hok & E & Ht). split_and!; [by eapply Hother|done|].
    eapply tail_zero_keeps; [exact Hk|apply Hok|by eapply Hod|done].
  - intros j y [Hy|[Hj [_ <-]%list_lookup_singleton_Some]]%lookup_app_Some; [by eapply Hm|done].
  - intros j1 j2 y1 y2 Hne [Hy1|[Hj1 [E1 <-]%list_lookup_singleton_Some]]%lookup_app_Some
      [Hy2|[Hj2 [E2 <-]%list_lookup_singleton_Some]]%lookup_app_Some; [| | |lia].
    + intros b. rewrite !(owns_keeps d x d' x) by (apply (Hf _ _ Hy1) || apply (Hf _ _ Hy2) || (by eapply Hod) || done). by apply (Ha j1 j2).
    + intros b Ho1 Ho2. by apply (proj2 (proj2 (Hother j1 y1 Hy1)) b Ho2).
    + by apply (Hother j2).
  - unfold listing. rewrite fmap_app. f_equal. apply list_eq. intros j. rewrite !list_lookup_fmap.
    destruct (xs !! j) as [y|] eqn:Hy; [|done]. cbn. by destruct (Hother j y Hy) as (_ & -> & _).
Qed.

(** ** The operations on the list of files *)

Lemma wp_append s fs k t c bs (Q : unit -> mkst -> Prop) :
  let fs' := <[k := (t, c ++ bs)]> fs in
  holds s fs -> fs !! k = Some (t, c) -> Z.of_nat (length (c ++ bs)) <= MAXFILE * 1024 -> total fs' <= 954 ->
  (forall s', holds s' fs' -> Q tt s') ->
  wp (iappend (Z.of_nat k + 1) bs (Z.of_nat (length bs))) Q s.
Proof.
  intros fs' [Hi Hnext Hmany Hroom (xs & Hfs & El)] Ek Hmax Htot HQ. rewrite length_app in Hmax.
  rewrite <- El in Ek. unfold listing in Ek. apply list_lookup_fmap_Some in Ek as (x & [= -> ->] & Hx).
  destruct (df_file _ _ Hfs _ _ Hx) as (Hok & Ein & Ht). pose proof (df_mem _ _ Hfs _ _ Hx) as Hm.
  pose proof (fw_size _ _ _ _ _ (fo_wf _ _ _ _ _ Hok)) as Hsz. rewrite length_contents in Hmax.
  assert (total fs' = total fs - nblocks (i_size x) + nblocks (i_size x + Z.of_nat (length bs))) as Et.
  { unfold fs'. rewrite (total_insert _ _ (i_type x, contents (vdisk s) x)) by by rewrite <- El; unfold listing; rewrite list_lookup_fmap, Hx.
    cbn [snd]. rewrite length_app, length_contents, Nat2Z.inj_add, Z2Nat.id by lia. done. }
  eapply (wp_iappend s _ x); [done|by split|lia|lia|]. intros s' x' Hi' [Hok' Ein' Hm' Ht'] Ety' Esz' Ec' [Hk Hod] Hfb Hfi.
  apply HQ. destruct (disk_files_update (vdisk s) xs k x (vdisk s') x') as [Hfs' El']; try done; [|congruence|].
  { intros j y Hj Hy. destruct (df_file _ _ Hfs _ _ Hy) as (Hoky & Einy & _). pose proof (fw_inum _ _ _ _ _ (fo_wf _ _ _ _ _ Hoky)).
    apply Hod; [apply Hoky|done|lia]. }
  split; [done|unfold fs'; rewrite length_insert; lia|unfold fs'; by rewrite length_insert|lia|].
  exists (<[k := x']> xs). split; [done|]. unfold fs'. by rewrite El', El, Ec', Ety'.
Qed.

(** A new inode is an empty file. *)
Lemma new_inode type s inum :
  let x := mkf inum (set_i_type type (set_i_nlink 1 (set_i_size 0 inode0))) in
  - 2 ^ 15 <= type < 2 ^ 15 -> 0 <= inum < 200 -> (forall d b, ~ owns d x b) /\ mfile (vdisk s) x /\ inode_wf x.
Proof.
  intros x Ht Hn.
  assert (forall d bn, addr_of d x bn = 0) as Ea.
  { intros d bn. assert (forall j, default 0 (replicate 13 0 !! j) = 0) as E0.
    { intros j. destruct (replicate 13 0 !! j) as [a|] eqn:E; [|done]. by apply lookup_replicate in E as [-> _]. }
    unfold addr_of, ind. unfold x, mkf, inode0. cbn [i_addrs set_i_dev set_i_inum set_i_type set_i_nlink set_i_size].
    rewrite !E0. by destruct (bn <? _). }
  assert (forall d b, ~ owns d x b) as Ho.
  { intros d b (Hb & [E|(bn & _ & E)]); [|by rewrite Ea in E]. by rewrite E in Hb. }
  split_and!; [done| |].
  - split; [done|done|done|cbn; unfold MAXFILE; lia|intros b Hb; by apply Ho in Hb|intros bn _ E; by rewrite Ea in E|].
    intros bn bn' _ _ E. by rewrite Ea in E.
  - split; unfold x, is_u32; cbn; try lia. repeat constructor; lia.
Qed.

Lemma wp_ialloc_fs s fs type (Q : Z -> mkst -> Prop) :
  holds s fs -> (length fs < 199)%nat -> 0 <= type < 2 ^ 15 ->
  (forall s', holds s' (fs ++ [(type, [])]) -> Q (Z.of_nat (length fs) + 1) s') ->
  wp (Mkfs.ialloc type) Q s.
Proof.
  intros [Hi Hnext Hmany Hroom (xs & Hfs & El)] Hl Hty HQ. unfold Mkfs.ialloc. bsteps. rewrite Hnext.
  set (inum := Z.of_nat (length fs) + 1). unfold u32. rewrite (Z.mod_small (inum + 1)) by (unfold inum; lia).
  rewrite !xshort_small, xint_small by (unfold is_u32; lia). set (din := set_i_type _ _). set (s0 := set_mk_freeinode _ s).
  set (x := mkf inum din). destruct (new_inode type s inum) as (Hno & Hw & Hwf); [lia|unfold inum; lia|]. fold din x in Hno, Hw, Hwf.
  assert (mk_inv s0) as Hi0 by (by destruct Hi; split). assert (length xs = length fs) as Exs by by rewrite <- El; unfold listing; rewrite length_fmap.
  pose proof (IBLOCK_the inum ltac:(unfold inum; lia)) as Hib.
  assert (length (vdisk s (IBLOCK inum the_sb)) = 1024%nat) as Hlen.
  { rewrite vdisk_other by lia. unfold image. destruct (mi_len _ Hi (IBLOCK inum the_sb) ltac:(lia)) as (d & -> & ?). done. }
  apply wp_winode; [done|unfold inum; lia|exact Hlen|]. change (vdisk s0) with (vdisk s). intros s1 Hi1 Ev1 Ef1 Ein1. bstep. apply HQ.
  destruct (update_inode 2 30 the_sb (ar_map _ _ _ the_areas) (vdisk s) x (vdisk_ok s Hi) Hw Hwf Hlen) as (_ & Hw1 & Hod1 & Hk1 & _ & _ & _).
  change (i_inum x) with inum in Hw1, Hod1, Hk1. change (put_dinode _ _ x) with (put_dinode (vdisk s (IBLOCK inum the_sb)) (dinode_off inum) din) in Hw1, Hod1, Hk1.
  rewrite <- Ev1 in Hw1, Hod1, Hk1.
  destruct (disk_files_snoc (vdisk s) xs (vdisk s1) x) as [Hfs1 El1]; try done.
  - intros j y Hy. destruct (df_file _ _ Hfs _ _ Hy) as (Hok & Einy & _). pose proof (fw_inum _ _ _ _ _ (fo_wf _ _ _ _ _ Hok)).
    pose proof (lookup_lt_Some _ _ _ Hy). split; [rewrite Ev1; apply (on_disk_other _ x)|by intros b _]; try done; [apply Hok|cbn; unfold inum; lia|unfold inum; cbn; lia|lia].
  - split; [done| |done|done]. intros bn Hbn. cbn. lia.
  - unfold inum in *. cbn. lia.
  - intros k Hk Hk' Ha. change (i_size x) with 0 in Hk. exfalso. eapply (Hno _ _), owns_addr; [|exact Ha]. divlia.
  - rewrite El in El1. change (contents (vdisk s1) x) with (@nil Z) in El1.
    split; [done|rewrite length_app, Ein1; unfold s0, inum; cbn; lia|rewrite length_app; cbn; lia| |by exists (xs ++ [x])].
    rewrite total_app, Ef1. change (total [(type, [])]) with 0. change (mk_freeblock s0) with (mk_freeblock s). lia.
Qed.

(** ** The files that are asked for *)

Definition name_of (f : input) : list Z := skip_underscore (shortname (in_path f)).
Definition data_of (f : input) : list Z := concat (default [] (in_read f)).

Definition root_entries (files : list input) : list (list Z) :=
  Mkfs.dirent 1 (str ".") :: Mkfs.dirent 1 (str "..") :: imap (fun k f => Mkfs.dirent (Z.of_nat k + 2) (name_of f)) files.

(** The root directory and the files. *)
Definition tree (files : list input) : list (Z * list Z) :=
  (T_DIR, concat (root_entries files)) :: ((fun f => (T_FILE, data_of f)) <$> files).

(** mkfs can put the file into the image. *)
Record fits_image (f : input) : Prop := {
  fi_open : exists chunks, in_read f = Some chunks;
  fi_name : slash ∉ shortname (in_path f);
  fi_size : Z.of_nat (length (data_of f)) <= MAXFILE * 1024;
}.

Lemma nblocks_mono a b : 0 <= a <= b -> nblocks a <= nblocks b.
Proof. intros H. unfold nblocks. destruct (Z.leb_spec a (Z.of_nat NDIRECT * 1024)), (Z.leb_spec b (Z.of_nat NDIRECT * 1024)); divlia. Qed.

Lemma nblocks_0 a : 0 <= a -> 0 <= nblocks a.
Proof. intros H. by apply (nblocks_mono 0). Qed.

Lemma length_dirent inum name : length (Mkfs.dirent inum name) = 16%nat.
Proof. unfold Mkfs.dirent, mk_dirent. by rewrite length_app, length_put_le, length_strncpy. Qed.

Lemma entries_16 files : Forall (fun e => length e = 16%nat) (root_entries files).
Proof.
  unfold root_entries. do 2 (constructor; [apply length_dirent|]). apply Forall_lookup. intros k e E.
  rewrite list_lookup_imap in E. destruct (files !! k); [|done]. injection E as <-. apply length_dirent.
Qed.

Lemma length_concat_16 (es : list (list Z)) : Forall (fun e => length e = 16%nat) es -> length (concat es) = (16 * length es)%nat.
Proof. induction 1 as [|e es E _ IH]; [done|]. cbn. rewrite length_app. lia. Qed.

Lemma length_root files : length (concat (root_entries files)) = (16 * (length files + 2))%nat.
Proof. rewrite length_concat_16 by apply entries_16. unfold root_entries. cbn. rewrite length_imap. lia. Qed.

(** The next file of the command line. *)
Lemma root_snoc files f :
  concat (root_entries (files ++ [f])) = concat (root_entries files) ++ Mkfs.dirent (Z.of_nat (length files) + 2) (name_of f).
Proof. unfold root_entries. cbn. rewrite imap_app, concat_app. cbn. by rewrite Nat.add_0_r, app_nil_r, !app_assoc. Qed.

Lemma total_prefix files1 files2 : total (tree files1) <= total (tree (files1 ++ files2)).
Proof.
  unfold tree. cbn [total foldr snd]. rewrite !length_root, fmap_app. fold (total ((fun f => (T_FILE, data_of f)) <$> files1)).
  change (foldr _ 0 (?a ++ ?b)) with (total (a ++ b)). rewrite total_app, length_app.
  assert (0 <= total ((fun f => (T_FILE, data_of f)) <$> files2)).
  { induction files2 as [|f files2 IH]; cbn; [done|]. pose proof (nblocks_0 (Z.of_nat (length (data_of f))) ltac:(lia)). cbn in IH. unfold total in IH. lia. }
  pose proof (nblocks_mono (Z.of_nat (16 * (length files1 + 2))) (Z.of_nat (16 * (length files1 + length files2 + 2))) ltac:(lia)). lia.
Qed.

(** The bytes of the last file so far. *)
Lemma wp_chunks s fs (k : nat) chunks t c (Q : unit -> mkst -> Prop) :
  holds s fs -> fs !! k = Some (t, c) -> Z.of_nat (length (c ++ concat chunks)) <= MAXFILE * 1024 ->
  total (<[k := (t, c ++ concat chunks)]> fs) <= 954 ->
  (forall s', holds s' (<[k := (t, c ++ concat chunks)]> fs) -> Q tt s') ->
  wp (for_each chunks (fun buf => iappend (Z.of_nat k + 1) buf (Z.of_nat (length buf));; mret (None : option unit));; mret tt) Q s.
Proof.
  intros Hs Ek Hmax Htot HQ. bstep.
  apply (wp_for_each (fun rest s1 => exists pre, chunks = pre ++ rest /\ holds s1 (<[k := (t, c ++ concat pre)]> fs))).
  - exists []. split; [done|]. cbn [concat]. rewrite app_nil_r, list_insert_id; done.
  - intros buf rest s1 (pre & -> & Hs1). pose proof (lookup_lt_Some _ _ _ Ek) as Hlt.
    assert (concat (pre ++ buf :: rest) = concat (pre ++ [buf]) ++ concat rest) as Ec by (rewrite !concat_app; cbn; by rewrite app_nil_r, app_assoc).
    rewrite Ec in *. rewrite !length_app in Hmax. bstep.
    eapply (wp_append s1 _ k t (c ++ concat pre)); [exact Hs1|by rewrite list_lookup_insert_eq|..].
    + rewrite concat_app in Hmax. cbn in Hmax. rewrite !length_app in *. cbn in *. lia.
    + rewrite list_insert_insert_eq, <- app_assoc. rewrite (total_insert _ _ _ _ Ek). rewrite (total_insert _ _ _ _ Ek) in Htot. cbn [snd] in *.
      etrans; [|exact Htot]. rewrite concat_app. cbn. rewrite app_nil_r. apply Z.add_le_mono_l, nblocks_mono. rewrite !length_app. lia.
    + intros s2 Hs2. bstep. exists (pre ++ [buf]). rewrite <- app_assoc. split; [done|].
      rewrite list_insert_insert_eq, <- app_assoc in Hs2. rewrite concat_app. cbn. by rewrite app_nil_r.
  - intros s1 (pre & -> & Hs1). rewrite app_nil_r in *. bstep. by apply HQ.
Qed.

Lemma wp_add_file s files f (Q : unit -> mkst -> Prop) :
  holds s (tree files) -> fits_image f -> (length files < 198)%nat -> total (tree (files ++ [f])) <= 954 ->
  (forall s', holds s' (tree (files ++ [f])) -> Q tt s') ->
  wp (add_file 1 f) Q s.
Proof.
  intros Hs [(chunks & Er) Hslash Hsz] Hn Htot HQ. unfold add_file. cbv zeta. rewrite bool_decide_true by done. cbn [assert_]. bstep. bstep.
  rewrite Er. assert (length (tree files) = S (length files)) as El by (unfold tree; cbn; by rewrite length_fmap).
  bstep. eapply wp_ialloc_fs; [exact Hs|lia|unfold T_FILE; lia|]. intros s1 Hs1. rewrite El.
  replace (Z.of_nat (S (length files)) + 1) with (Z.of_nat (length files) + 2) by lia.
  fold (name_of f). set (e := Mkfs.dirent _ _). assert (length e = 16%nat) as Ee by apply length_dirent.
  set (fs2 := (T_DIR, concat (root_entries files) ++ e) :: ((fun f => (T_FILE, data_of f)) <$> files) ++ [(T_FILE, [])]).
  assert (tree (files ++ [f]) = <[S (length files) := (T_FILE, data_of f)]> fs2) as Et.
  { unfold tree, fs2. rewrite root_snoc, fmap_app. change (<[S ?k := ?v]> (?a :: ?l)) with (a :: <[k := v]> l). f_equal. rewrite insert_app_r_alt by (rewrite length_fmap; lia).
    by rewrite length_fmap, Nat.sub_diag. }
  assert (fs2 !! S (length files) = Some (T_FILE, [])) as Ek.
  { unfold fs2. change ((?a :: ?l) !! S ?k) with (l !! k). rewrite lookup_app_r, length_fmap, Nat.sub_diag by (rewrite length_fmap; lia). done. }
  bstep. replace 16 with (Z.of_nat (length e)) by lia.
  eapply (wp_append s1 _ 0 T_DIR (concat (root_entries files)) e); [exact Hs1|done| | |].
  - rewrite length_app, length_root. unfold MAXFILE. lia.
  - change (total fs2 <= 954). rewrite Et, (total_insert _ _ _ _ Ek) in Htot. cbn [snd length] in Htot.
    pose proof (nblocks_0 (Z.of_nat (length (data_of f))) ltac:(lia)). change (nblocks (Z.of_nat 0)) with 0 in Htot. lia.
  - change (<[0%nat := _]> _) with fs2. intros s2 Hs2. replace (Z.of_nat (length files) + 2) with (Z.of_nat (S (length files)) + 1) by lia.
    assert (data_of f = concat chunks) as Ed by (unfold data_of; by rewrite Er).
    eapply (wp_chunks s2 fs2 _ chunks T_FILE []); [exact Hs2|exact Ek|cbn; by rewrite <- Ed|cbn [app]; by rewrite <- Ed, <- Et|].
    intros s3 Hs3. apply HQ. rewrite Et, Ed. exact Hs3.
Qed.

(** ** main *)

(** The image after the zeroes and the super block have been written. *)
Lemma holds_start s :
  mk_sb s = the_sb -> mk_freeblock s = 46 -> mk_freeinode s = 1 ->
  (forall b, 0 <= b < 1000 -> mk_img s !! b = Some zero_block) ->
  holds (set_mk_img (<[1 := sb_bytes the_sb]> (mk_img s)) s) [].
Proof.
  intros Esb Efb Efi Hz. split; [|done|cbn; lia|cbn; lia|].
  - split; cbn; [done|lia| |intros b Hb; rewrite lookup_insert_ne by lia; apply Hz; lia..|by rewrite lookup_insert_eq].
    intros b Hb. destruct (decide (b = 1)) as [->|Hne]; [rewrite lookup_insert_eq; by eexists|].
    rewrite lookup_insert_ne by done. eexists. split; [by apply Hz|done].
  - exists []. split; [split; intros; done|done].
Qed.

(** The size of the root directory is rounded up: the rest of its last block is zero. *)
Lemma contents_round d x n :
  tail_zero d x -> mapped_to d x n -> 0 <= i_size x <= n -> n <= MAXFILE * 1024 ->
  contents d (set_i_size n x) = contents d x ++ replicate (Z.to_nat (n - i_size x)) 0.
Proof.
  intros Ht Hm Hsz Hn. unfold contents. change (i_size (set_i_size n x)) with n.
  replace (Z.to_nat n) with (Z.to_nat (i_size x) + Z.to_nat (n - i_size x))%nat by lia.
  rewrite zseq_app, fmap_app. f_equal. apply list_eq_same_length with (n := Z.to_nat (n - i_size x));
    [by rewrite length_replicate|by rewrite length_fmap, length_zseq|].
  intros k a b Hk Ha Hb. apply lookup_replicate in Hb as [-> _]. apply list_lookup_fmap_Some in Ha as (j & -> & Ej).
  rewrite zseq_lookup in Ej by done. injection Ej as <-. change (byte_at d (set_i_size n x)) with (byte_at d x).
  apply Ht; [lia|divlia|]. apply Hm; divlia.
Qed.

Lemma round_files s x xs n s1 :
  let x' := set_i_size n x in
  let blk := IBLOCK 1 the_sb in
  mk_inv s -> disk_files (vdisk s) (x :: xs) -> mapped_to (vdisk s) x n -> i_size x <= n <= MAXFILE * 1024 ->
  vdisk s1 = apply_write (vdisk s) (blk, put_dinode (vdisk s blk) (dinode_off 1) x') ->
  disk_files (vdisk s1) (x' :: xs) /\
  listing (vdisk s1) (x' :: xs) = (i_type x, contents (vdisk s) x ++ replicate (Z.to_nat (n - i_size x)) 0) :: listing (vdisk s) xs.
Proof.
  intros x' blk Hi Hfs Hmp' Hn Ev1. assert ((x :: xs) !! 0%nat = Some x) as Hx by done.
  destruct (df_file _ _ Hfs _ _ Hx) as ([Hw Hmp Hwf [Hdl _]] & Ein & Ht). change (Z.of_nat 0 + 1) with 1 in Ein.
  pose proof (fw_size _ _ _ _ _ Hw) as Hsz. assert (mfile (vdisk s) x') as Hw' by (apply file_wf_size; [done|lia]).
  assert (inode_wf x') as Hwf' by (destruct Hwf; split; try done; unfold x', is_u32; cbn; unfold MAXFILE in *; lia).
  destruct (update_inode 2 30 the_sb (ar_map _ _ _ the_areas) (vdisk s) x' (vdisk_ok s Hi) Hw' Hwf' Hdl) as (_ & Hw1 & Hod1 & Hk1 & Ea1 & Eb1 & _).
  change (i_inum x') with (i_inum x) in *. rewrite Ein in Hw1, Hod1, Hk1, Ea1, Eb1. fold blk in Hw1, Hod1, Hk1, Ea1, Eb1.
  rewrite <- Ev1 in Hw1, Hod1, Hk1, Ea1, Eb1.
  assert (tail_zero (vdisk s) x') as Ht' by (intros k Hk; change (i_size x') with n in Hk; apply Ht; lia).
  destruct (disk_files_update (vdisk s) (x :: xs) 0 x (vdisk s1) x') as [Hfs1 El1]; try done.
  - intros j y Hj Hy. destruct (df_file _ _ Hfs _ _ Hy) as (Hok & Einy & _). pose proof (fw_inum _ _ _ _ _ (fo_wf _ _ _ _ _ Hok)).
    rewrite Ev1. unfold blk. rewrite <- Ein. apply (on_disk_other _ x'); [apply Hok|cbn; lia|cbn; lia|lia|apply Hwf'].
  - split; [done| |done|done]. intros bn Hbn0 Hbn. rewrite Ea1. by apply Hmp'.
  - intros k Hk Hk' Ha. rewrite Ea1 in Ha. change (i_size x') with n in Hk. rewrite Eb1; [by apply Ht'|split; [divlia|done]|done].
  - exact (df_mem _ _ Hfs _ _ Hx).
  - split; [exact Hfs1|]. etrans; [exact El1|]. unfold listing. cbn. do 2 f_equal.
    rewrite <- (contents_round (vdisk s) x n); [|done..|lia|lia]. unfold contents. change (i_size (set_i_size n x)) with n. fold x'.
    apply list_fmap_ext. intros j k Hk%list_elem_of_lookup_2%elem_of_zseq.
    apply Eb1; [divlia|]. apply Hmp'; divlia.
Qed.

Lemma put_dinode_mkf d o n inum din : put_dinode d o (set_i_size n din) = put_dinode d o (set_i_size n (mkf inum din)).
Proof. reflexivity. Qed.

Lemma wp_round s root rest (next : M mkst unit) (Q : unit -> mkst -> Prop) :
  let off := Z.of_nat (length root) in
  let off' := (off / 1024 + 1) * 1024 in
  holds s ((T_DIR, root) :: rest) -> off mod 1024 <> 0 -> off' <= MAXFILE * 1024 ->
  (forall s', mk_inv s' -> (exists xs, disk_files (vdisk s') xs /\
     listing (vdisk s') xs = (T_DIR, root ++ replicate (Z.to_nat (off' - off)) 0) :: rest) -> wp next Q s') ->
  wp (din ← rinode 1;
      let off := xint (i_size din) in
      let off := (off / 1024 + 1) * 1024 in
      winode 1 (set_i_size (xint off) din);;
      next) Q s.
Proof.
  intros off off' [Hi _ _ _ (xs & Hfs & El)] Hmod Hmax HQ. destruct xs as [|x xs]; [done|]. injection El as Ety Ec El.
  assert ((x :: xs) !! 0%nat = Some x) as Hx by done. destruct (df_file _ _ Hfs _ _ Hx) as ([Hw Hmp Hwf [Hdl Hdd]] & Ein & Ht).
  destruct (df_mem _ _ Hfs _ _ Hx) as (Hdev & Href & Hval). change (Z.of_nat 0 + 1) with 1 in Ein.
  pose proof (fw_size _ _ _ _ _ Hw) as Hsz. assert (i_size x = off) as Esz by (unfold off; rewrite <- Ec, length_contents; lia).
  bstep. apply wp_rinode; [done|lia|]. rewrite Ein in Hdl, Hdd. set (din := get_dinode _ _ inode0).
  assert (mkf 1 din = x) as Ex by (etrans; [|exact Hdd]; clear -Hdev Href Hval Ein; unfold mkf, din, get_dinode; destruct x; cbn in *; by subst).
  assert (i_size din = i_size x) as -> by by rewrite <- Ex. rewrite (xint_small (i_size x)), Esz by (unfold is_u32, MAXFILE in *; lia). cbv zeta. fold off'.
  assert (off < off' <= off + 1024) as Hoff by (unfold off'; divlia). rewrite xint_small by (unfold is_u32, MAXFILE in *; lia).
  assert (mapped_to (vdisk s) x off') as Hmp'.
  { intros bn Hbn0 Hbn. apply Hmp; [done|]. rewrite Esz. unfold off' in Hbn. divlia. }
  bstep. apply wp_winode; [done|lia|done|]. intros s1 Hi1 Ev1 _ _. apply HQ; [done|].
  rewrite (put_dinode_mkf _ _ off' 1 din), Ex in Ev1.
  destruct (round_files s x xs off' s1 Hi Hfs Hmp' ltac:(lia) Ev1) as [Hfs1 El1].
  exists (set_i_size off' x :: xs). split; [done|]. rewrite El1, Ety, Ec, Esz, <- El. done.
Qed.

(** *** The root directory *)

Lemma dirents_concat es : Forall (fun e => length e = 16%nat) es -> dirents (concat es) = es.
Proof.
  intros Hes. apply list_eq. intros k. pose proof (length_concat_16 es Hes) as El.
  destruct (es !! k) as [e|] eqn:Ek.
  - pose proof (lookup_lt_Some _ _ _ Ek). rewrite dirents_lookup by lia. f_equal.
    rewrite <- (take_drop_middle _ _ _ Ek) in Hes |- *. apply Forall_app in Hes as [Hes1 [He _]%Forall_cons].
    rewrite concat_app, drop_app_length' by (rewrite length_concat_16, length_take by done; lia). cbn. by rewrite take_app_length' by done.
  - apply lookup_ge_None in Ek. rewrite dirents_ge by lia. done.
Qed.

Lemma concat_zeros m : replicate (16 * m) 0 = concat (replicate m (replicate 16 0)).
Proof. induction m as [|m IH]; [done|]. replace (16 * S m)%nat with (16 + 16 * m)%nat by lia. by rewrite replicate_add, IH. Qed.

Definition root_names (files : list input) : list (list Z) := str "." :: str ".." :: (name_of <$> files).

Lemma entries_names files k :
  root_entries files !! k = Mkfs.dirent (Z.max 1 (Z.of_nat k)) <$> root_names files !! k.
Proof.
  destruct k as [|[|k]]; [done|done|]. unfold root_entries, root_names. change ((?a :: ?b :: ?l) !! S (S k)) with (l !! k). rewrite list_lookup_imap, list_lookup_fmap. destruct (files !! k) as [f|]; [|done]. cbn [fmap option_fmap option_map].
  do 2 f_equal. lia.
Qed.

Lemma root_lookup files k n m :
  Forall (Forall is_u8) (root_names files) -> NoDup (key <$> root_names files) -> (length files < 1000)%nat ->
  root_names files !! k = Some n ->
  dir_lookup (concat (root_entries files) ++ replicate (16 * m) 0) n = Some (Z.max 1 (Z.of_nat k)).
Proof.
  intros Hu8 Hnd Hlen Hk. rewrite concat_zeros, <- concat_app. unfold dir_lookup, dir_find.
  rewrite dirents_concat by (apply Forall_app; split; [apply entries_16|by apply Forall_replicate]).
  assert (forall j e, root_entries files !! j = Some e -> exists n', root_names files !! j = Some n' /\
    de_inum e = Z.max 1 (Z.of_nat j) /\ names n' e) as He.
  { intros j e Ee. pose proof (lookup_lt_Some _ _ _ Ee) as Hj. unfold root_entries in Hj. cbn in Hj. rewrite length_imap in Hj.
    rewrite entries_names in Ee. destruct (root_names files !! j) as [n'|] eqn:En; [|done]. injection Ee as <-. exists n'. split; [done|].
    unfold Mkfs.dirent. rewrite xshort_small by lia.
    destruct (mk_dirent_names (Z.max 1 (Z.of_nat j)) n') as (_ & ? & ? & _); [lia|by eapply Forall_lookup_1|done]. }
  pose proof (entries_names files k) as Ee. rewrite Hk in Ee. destruct (He k _ Ee) as (n' & En & Ei & Hn).
  assert (n' = n) as -> by congruence. set (e := Mkfs.dirent _ n) in *.
  assert (list_find (names n) (root_entries files ++ replicate m (replicate 16 0)) = Some (k, e)) as ->; [|cbn [fmap option_fmap option_map snd]; by rewrite Ei].
  apply list_find_Some. split_and!; [by apply lookup_app_l_Some|done|]. intros j y Hy Hj [_ Hkey].
  pose proof (lookup_lt_Some _ _ _ Ee). rewrite lookup_app_l in Hy by lia. destruct (He j y Hy) as (n2 & En2 & _ & [_ Hn2]).
  assert (j = k) as ->; [|lia]. apply (NoDup_lookup (key <$> root_names files) j k (key n)); [done|rewrite list_lookup_fmap, En2; cbn [fmap option_fmap option_map]; congruence|by rewrite list_lookup_fmap, Hk].
Qed.

Lemma root_u8 files : Forall (Forall is_u8) (root_names files) -> (length files < 1000)%nat -> Forall is_u8 (concat (root_entries files)).
Proof.
  intros Hu8 Hlen. apply Forall_concat, Forall_lookup. intros j e Ee. pose proof (lookup_lt_Some _ _ _ Ee) as Hj.
  unfold root_entries in Hj. cbn in Hj. rewrite length_imap in Hj. rewrite entries_names in Ee.
  destruct (root_names files !! j) as [n|] eqn:En; [|done]. injection Ee as <-. unfold Mkfs.dirent. rewrite xshort_small by lia.
  apply mk_dirent_names; [lia|]. by eapply Forall_lookup_1.
Qed.

(** *** The whole program *)

(** Up to the files. *)
Lemma wp_main_start {A} (next : Z -> M mkst A) (Q : A -> mkst -> Prop) s :
  holds s [] -> (forall s', holds s' (tree []) -> wp (next 1) Q s') ->
  wp (rootino ← Mkfs.ialloc T_DIR;
      assert_ (rootino =? ROOTINO);;
      iappend rootino (Mkfs.dirent rootino (str ".")) 16;;
      iappend rootino (Mkfs.dirent rootino (str "..")) 16;;
      next rootino) Q s.
Proof.
  intros H0 HQ. bstep. eapply wp_ialloc_fs; [exact H0|cbn; lia|unfold T_DIR; lia|]. intros s1 H1.
  change (Z.of_nat (length _) + 1) with (Z.of_nat 0 + 1). set (e1 := Mkfs.dirent _ (str ".")). set (e2 := Mkfs.dirent _ (str "..")).
  assert (length e1 = 16%nat) as L1 by apply length_dirent. assert (length e2 = 16%nat) as L2 by apply length_dirent.
  change (assert_ _) with (mret tt : M mkst unit). bstep. bstep. replace 16 with (Z.of_nat (length e1)) at 1 by lia.
  bstep. eapply (wp_append s1 _ 0 T_DIR []); [exact H1|done|rewrite length_app, L1; cbn; unfold MAXFILE; lia| |].
  { change (total [(T_DIR, e1)] <= 954). cbn [total foldr snd]. rewrite L1. by vm_compute. }
  intros s2 H2. replace 16 with (Z.of_nat (length e2)) at 1 by lia.
  bstep. eapply (wp_append s2 _ 0 T_DIR e1); [exact H2|done|rewrite length_app, L1, L2; unfold MAXFILE; lia| |].
  { change (total [(T_DIR, e1 ++ e2)] <= 954). cbn [total foldr snd]. rewrite length_app, L1, L2. by vm_compute. }
  intros s3 H3. apply HQ. unfold tree. cbn [root_entries concat imap fmap list_fmap]. by rewrite app_nil_r.
Qed.

Lemma wp_files s files (Q : option unit -> mkst -> Prop) :
  holds s (tree []) -> Forall fits_image files -> (length files <= 198)%nat -> total (tree files) <= 954 ->
  (forall s', holds s' (tree files) -> Q None s') ->
  wp (for_each files (fun f => add_file 1 f;; mret (None : option unit))) Q s.
Proof.
  intros H0 Hfiles Hlen Htot HQ.
  apply (wp_for_each (fun rest s1 => exists pre, files = pre ++ rest /\ holds s1 (tree pre))).
  - by exists [].
  - intros f rest s1 (pre & -> & H1). apply Forall_app in Hfiles as [_ [Hf _]%Forall_cons]. rewrite length_app in Hlen. cbn in Hlen.
    replace (pre ++ f :: rest) with ((pre ++ [f]) ++ rest) in Htot by (by rewrite <- app_assoc).
    bstep. eapply (wp_add_file s1 pre f); [done|done|lia|pose proof (total_prefix (pre ++ [f]) rest); lia|].
    intros s2 H2. bstep. exists (pre ++ [f]). by rewrite <- app_assoc.
  - intros s1 (pre & -> & H1). rewrite app_nil_r in *. by apply HQ.
Qed.

(** balloc writes the bitmap. *)
Lemma final_image s :
  mk_inv s ->
  let s' := set_mk_img (<[sb_bmapstart the_sb := set_bits (Z.to_nat (mk_freeblock s)) zero_block]> (mk_img s)) s in
  image s' = vdisk s /\ vdisk s' = vdisk s /\ mk_inv s'.
Proof.
  intros Hi s'. change (sb_bmapstart the_sb) with 45 in *. assert (image s' = vdisk s) as E.
  { apply functional_extensionality. intros b. unfold vdisk, apply_write, image, s'. cbn [fst snd mk_img set_mk_img].
    destruct (decide (b = 45)) as [->|Hb]; [by rewrite lookup_insert_eq|by rewrite lookup_insert_ne]. }
  split_and!; [done| |].
  - apply functional_extensionality. intros b. unfold vdisk at 1. rewrite E. unfold vdisk, apply_write. cbn [fst snd].
    by destruct (decide (b = 45)).
  - destruct Hi. split; cbn; try done.
    + intros b Hb. destruct (decide (b = 45)) as [->|Hne]; [rewrite lookup_insert_eq; eexists; split; [done|apply length_set_bits]|].
      rewrite lookup_insert_ne by done. auto.
    + intros b Hb. rewrite lookup_insert_ne by lia. auto.
    + intros b Hb. rewrite lookup_insert_ne by lia. auto.
    + by rewrite lookup_insert_ne by lia.
Qed.

Lemma wp_main fsfd files (Q : unit -> mkst -> Prop) :
  let off := 16 * (Z.of_nat (length files) + 2) in
  0 <= fsfd -> Forall fits_image files -> (length files <= 198)%nat -> off mod 1024 <> 0 -> total (tree files) <= 954 ->
  (forall s, image s = vdisk s -> mk_inv s -> (exists xs, disk_files (vdisk s) xs /\
     listing (vdisk s) xs = (T_DIR, concat (root_entries files) ++ replicate (Z.to_nat (1024 - off mod 1024)) 0)
                            :: ((fun f => (T_FILE, data_of f)) <$> files)) -> Q tt s) ->
  wp (Mkfs.main (Some (fsfd, files))) Q mkfs_start.
Proof.
  intros off Hfd Hfiles Hlen Hmod Htot HQ. unfold Mkfs.main. rewrite (proj2 (Z.ltb_ge _ _)) by done.
  bstep. bstep. bstep. bstep. bstep.
  apply (wp_for_each (fun rest s => exists k, (k <= 1000)%nat /\ rest = zseq (Z.of_nat k) (1000 - k) /\ mk_sb s = the_sb /\ mk_freeblock s = 46 /\
    mk_freeinode s = 1 /\ forall b, 0 <= b < Z.of_nat k -> mk_img s !! b = Some zero_block)).
  { exists 0%nat. split_and!; [lia|done|done|done|done|lia]. }
  { intros x rest s (k & Hk & E & Esb & Efb & Efi & Hz). destruct (1000 - k)%nat as [|r] eqn:Er; [done|]. rewrite zseq_S in E. injection E as -> ->.
    unfold wsect. bsteps. exists (S k). split_and!; [lia|f_equal; lia|done..|]. intros b Hb. cbn.
    destruct (decide (b = Z.of_nat k)) as [->|]; [by rewrite lookup_insert_eq|]. rewrite lookup_insert_ne by done. apply Hz. lia. }
  intros s (k & Hk & E & Esb & Efb & Efi & Hz). assert (k = 1000%nat) as -> by (apply (f_equal length) in E; rewrite length_zseq in E; cbn in E; lia).
  bstep. unfold wsect at 1. bstep. pose proof (holds_start s Esb Efb Efi Hz) as H0. set (s0 := set_mk_img _ s) in *.
  refine (wp_main_start (fun rootino => _) _ _ H0 _). intros s1 H1. bstep. eapply (wp_files s1 files); [done..|]. intros s2 H2.
  eapply (wp_round s2 (concat (root_entries files))); [exact H2| | |].
  1, 2: rewrite length_root; unfold off in Hmod; unfold MAXFILE; divlia.
  intros s3 H3 Hfs. rewrite length_root in Hfs. bstep. bstep. unfold Mkfs.balloc. pose proof (mi_fb _ H3) as Hfb.
  rewrite (proj2 (Z.ltb_lt _ _)) by lia. cbn [assert_]. bstep. bstep. bstep. bstep. rewrite (mi_sb _ H3). unfold wsect. bstep.
  destruct (final_image s3 H3) as (E1 & E2 & Hi4). apply HQ; [congruence|done|]. rewrite E2.
  replace (1024 - off mod 1024) with ((Z.of_nat (16 * (length files + 2)) / 1024 + 1) * 1024 - Z.of_nat (16 * (length files + 2)))
    by (unfold off; divlia). exact Hfs.
Qed.

(** What readsb reads. *)
Definition sb_of (d : disk) : superblock :=
  let f k := get_uint (d 1) (4 * k) in mk_superblock (f 0%nat) (f 1%nat) (f 2%nat) (f 3%nat) (f 4%nat) (f 5%nat) (f 6%nat) (f 7%nat).

(** [d] is a file system whose root directory has [files], with an empty log. *)
Record formatted (d : disk) (files : list input) (xs : list inode) : Prop := {
  fm_sb : sb_of d = the_sb;
  fm_log : forall b, 2 <= b < 32 -> d b = zero_block;
  fm_map : bitmap_ok 2 30 the_sb d;
  fm_files : disk_files d xs;
  fm_root : exists root, xs !! 0%nat = Some root /\ dir_ok 2 30 the_sb d root /\
    forall k n, root_names files !! k = Some n -> dir_lookup (contents d root) n = Some (Z.max 1 (Z.of_nat k));
  fm_data : forall k f, files !! k = Some f -> exists x,
    xs !! S k = Some x /\ i_inum x = Z.of_nat k + 2 /\ i_type x = T_FILE /\ contents d x = data_of f;
}.

(** The files of the command line are such that mkfs makes a file system of them: there
    are inodes and blocks enough, the names differ and, for the rounding of its size,
    the root directory does not fill its last block. *)
Record mkfs_files (files : list input) : Prop := {
  mk_fits : Forall fits_image files;
  mk_inodes : (length files <= 198)%nat;
  mk_round : (Z.of_nat (length files) + 2) mod 64 <> 0;
  mk_blocks : total (tree files) <= 954;
  mk_bytes : Forall (Forall is_u8) (root_names files);
  mk_names : NoDup (key <$> root_names files);
}.

Lemma wp_mkfs fsfd files :
  0 <= fsfd -> mkfs_files files ->
  wp (Mkfs.main (Some (fsfd, files))) (fun _ s => exists xs, formatted (image s) files xs) mkfs_start.
Proof.
  intros Hfd [Hfiles Hlen Hmod Htot Hu8 Hnd].
  apply wp_main; [done|done|done| |done|].
  { divlia. }
  intros s E Hi (xs & Hfs & El). exists xs. rewrite E. set (off := 16 * _) in El.
  destruct xs as [|root xs]; [done|]. injection El as Ety Ec El.
  change (contents (vdisk s) root = concat (root_entries files) ++ replicate (Z.to_nat (1024 - off mod 1024)) 0) in Ec.
  assert (Z.to_nat (1024 - off mod 1024) = 16 * Z.to_nat ((1024 - off mod 1024) / 16))%nat as Em by (unfold off; divlia). rewrite Em in Ec.
  destruct (df_file _ _ Hfs 0 root eq_refl) as (Hok & _ & _). pose proof (fw_size _ _ _ _ _ (fo_wf _ _ _ _ _ Hok)) as Hsz.
  split; [|intros b Hb; rewrite vdisk_other by lia; unfold image; by rewrite (mi_log _ Hi) by lia|by apply vdisk_ok|done| |].
  - unfold sb_of. rewrite vdisk_other by lia. unfold image. rewrite (mi_super _ Hi). vm_compute. reflexivity.
  - exists root. split_and!; [done| |].
    + split; [done|done| |rewrite Ec; apply Forall_app; split; [apply root_u8; [done|lia]|apply Forall_replicate; unfold is_u8; lia]].
      apply (f_equal length) in Ec. rewrite length_contents, length_app, length_root, length_replicate in Ec. unfold DIRENT. divlia.
    + intros k n Hk. rewrite Ec. apply root_lookup; [done..|lia|done].
  - intros k f Hk. assert (listing (vdisk s) xs !! k = Some (T_FILE, data_of f)) as Ek by (rewrite El, list_lookup_fmap, Hk; done).
    unfold listing in Ek. apply list_lookup_fmap_Some in Ek as (x & [= Et Ed] & Hx). exists x.
    destruct (df_file _ _ Hfs (S k) x Hx) as (_ & Ein & _). split_and!; [done|lia|done|done].
Qed.

(** C7: mkfs, given files that it can open, with names that differ in their first 14
    bytes and contents that fit, runs to its end and leaves a file system: the super
    block that the kernel reads is that of mkfs, the log is empty, every file is
    well-formed, no two files share a block and no block of a file is free in the
    bitmap; the root directory leads from . and .. to the root and from the name of
    every file to an inode that has the bytes that read() returned.  The size of the
    root must not be a multiple of BSIZE, see [mkfs_rounds_too_far]. *)
Theorem mkfs_correct fsfd files :
  0 <= fsfd -> mkfs_files files ->
  exists s xs, Mkfs.main (Some (fsfd, files)) mkfs_start = Ret tt s /\ formatted (image s) files xs.
Proof.
  intros Hfd Hfiles. destruct (wp_inv _ _ _ (wp_mkfs fsfd files Hfd Hfiles)) as ([] & s & E & xs & Hx).
  by exists s, xs.
Qed.

(** Two files, one of them with an underscore before its name, the other over two blocks. *)
Definition demo_files : list input :=
  [ mk_input (str "user/_echo") (Some [str "#!echo"]);
    mk_input (str "README") (Some [replicate 1024 120; str "end"]) ].

Lemma demo_files_ok : mkfs_files demo_files.
Proof.
  split; [|vm_compute; lia|vm_compute; lia|vm_compute; discriminate| |].
  - unfold demo_files. repeat constructor; cbn [in_read in_path];
      [eexists; reflexivity|intros H; vm_compute in H; set_solver|vm_compute; discriminate|eexists; reflexivity|intros H; vm_compute in H; set_solver|vm_compute; discriminate].
  - repeat constructor; unfold is_u8; lia.
  - apply (bool_decide_unpack _). vm_compute. reflexivity.
Qed.

Lemma mkfs_correct_witness :
  exists s xs, Mkfs.main (Some (3, demo_files)) mkfs_start = Ret tt s /\ formatted (image s) demo_files xs.
Proof. apply (mkfs_correct 3 demo_files); [lia|exact demo_files_ok]. Defined.

(** With 62 files the root directory fills its block; the rounding of its size then adds a
    block that the directory does not have. *)
Definition many_files : list input := (fun k => mk_input [97 + k / 8; 97 + k mod 8] (Some [])) <$> zseq 0 62.

Lemma mkfs_rounds_too_far :
  exists s, Mkfs.main (Some (3, many_files)) mkfs_start = Ret tt s /\
    let root := get_dinode (image s (IBLOCK 1 the_sb)) (dinode_off 1) inode0 in
    i_size root = 2048 /\ ~ mapped_to (image s) root (i_size root).
Proof.
  assert (match Mkfs.main (Some (3, many_files)) mkfs_start with
          | Ret _ s => let root := get_dinode (image s (IBLOCK 1 the_sb)) (dinode_off 1) inode0 in
                       (i_size root, addr_of (image s) root 1) = (2048, 0)
          | _ => False
          end) as H by (vm_compute; reflexivity).
  destruct (Mkfs.main _ _) as [[] s|? ?|?|?|?]; [|destruct H..]. exists s. split; [reflexivity|].
  cbv zeta in *. set (root := get_dinode _ _ _) in *. apply pair_equal_spec in H as [Es Ea]. split; [exact Es|].
  intros Hm. rewrite Es in Hm. by apply (Hm 1).
Qed.
