(* ===== verification/FsInit.v ===== *)
(** * fsinit: from the image of mkfs to the first operation

    [wp_fsinit]: on a disk with a super block and an empty log, fsinit leaves the log
    idle, which is where the theorems on the log and on the operations of the file
    system start from.  [mkfs_boots]: the kernel that boots from the image of mkfs gets
    there, and finds the files. *)

From Stdlib Require Import ZArith Lia FunctionalExtensionality.
From stdpp Require Import base list gmap sets strings.
From S2P Require Import Prelude KString Spinlock Riscv Kalloc Vm Proc Sleeplock Bio BioInv BioProofs Log LogSpec LogProofs LogTxn Fs FsTxn FsAlloc FsProofs FsFile FsRw FsWrite FsTheorems FsDir Mkfs MkfsProofs MkfsImage.

(** The cache holds nothing that is not on the disk. *)
Definition idle_cache (i : nat) (b : bst) : Prop := bio_inv i b (dblock b) ∅ ∅.

Lemma evolves_disk b b' : evolves [] b b' -> dblock b' = dblock b.
Proof. intros []. apply functional_extensionality. intros x. by rewrite ev_disk. Qed.

Lemma wp_readsb i s (Q : unit -> fsst -> Prop) :
  let b := lg_b (fs_l s) in
  idle_cache i b ->
  (forall b', evolves [] b b' -> idle_cache i b' -> Q tt (set_fs_sb (sb_of (dblock b)) (set_fs_l (set_lg_b b' (fs_l s)) s))) ->
  wp (readsb 1) Q s.
Proof.
  intros b Hb HQ. unfold readsb. bstep. apply wp_zoom.
  eapply (wp_bread i _ ∅ ∅); [exact Hb|done|intros x a; by rewrite lookup_empty|done|right; rewrite map_size_empty; unfold NBUF; lia|].
  intros a b1 Hle1 Ed1 Ew1 Hb1. pose proof (evolves_same _ _ Hle1 Ed1 Ew1) as Hev1. fold b in Hev1, Hb1.
  bstep. unfold bdata. apply wp_zoom, wp_zoom, wp_getb.
  destruct (bio_held _ _ _ _ _ 1 a Hb1) as (_ & _ & E & _); [apply lookup_insert_eq|]. 
  change (lget (lget (lset b1 s))) with b1. rewrite E. change (mk_superblock _ _ _ _ _ _ _ _) with (sb_of (dblock b)).
  bstep. bstep. apply wp_zoom. match goal with |- wp _ _ (lget ?x) => change (lget x) with b1 end.
  eapply (wp_brelse i); [exact Hb1|apply lookup_insert_eq|by intros _; rewrite (evolves_disk _ _ Hev1)|].
  intros b2 Hle2 Ed2 Ew2 Hb2. pose proof (evolves_same _ _ Hle2 Ed2 Ew2) as Hev2.
  assert (evolves [] b b2) as Hev by (by eapply evolves_nil_l).
  apply (HQ b2 Hev). unfold idle_cache. rewrite (evolves_disk _ _ Hev). rewrite delete_insert_id in Hb2 by done.
  assert (setref (setref ∅ 1 (u32 (getref ∅ 1 + 1))) 1 (u32 (getref (setref ∅ 1 (u32 (getref ∅ 1 + 1))) 1 - 1)) = ∅) as Er by (vm_compute; reflexivity).
  by rewrite Er in Hb2.
Qed.

(** initlock does not change a lock that nobody holds. *)
Lemma wp_initlock_idle i s l (Q : unit -> lst -> Prop) : idle_cache i (lg_b s) -> Q tt s -> wp (↑ initlock l) Q s.
Proof.
  intros Hb HQ. apply wp_zoom. unfold initlock. bstep.
  pose proof (rn_locks _ _ (bi_run _ _ _ _ _ Hb)) as El. revert El HQ. destruct s as [[[[[[] ? ?] ? ? ? ?] ?] ? ? ?] ? ? ? ? ? ? ?]. cbn.
  intros ->. by rewrite delete_empty.
Qed.

(** A disk that fsinit takes, and on which nothing is to be recovered. *)
Record clean (start size : Z) (f : disk) : Prop := {
  cl_magic : sb_magic (sb_of f) = FSMAGIC;
  cl_start : sb_logstart (sb_of f) = start;
  cl_nlog : sb_nlog (sb_of f) = size;
  cl_log : 0 <= start /\ 0 < size /\ start + size < 2 ^ 31;
  cl_len : length (f start) = 1024%nat;
  cl_empty : hdr_blocks (f start) = [];
}.

(** The log structure of a kernel that has just started: the globals are zero. *)
Record new_log (l : lst) : Prop := {
  nl_outstanding : lg_outstanding l = 0;
  nl_committing : lg_committing l = false;
  nl_block : length (lg_block l) = 30%nat;
}.

Lemma wp_fsinit i start size s (Q : unit -> fsst -> Prop) :
  let f := dblock (lg_b (fs_l s)) in
  idle_cache i (lg_b (fs_l s)) -> new_log (fs_l s) -> clean start size f ->
  (forall s', fs_sb s' = sb_of f -> fs_inode s' = fs_inode s -> lg_outstanding (fs_l s') = 0 ->
     (forall x, dblock (lg_b (fs_l s')) x = apply_writes [(start, header (f start) [])] f x) ->
     logging i start size (fs_l s') [] (dblock (lg_b (fs_l s'))) ∅ ∅ None -> Q tt s') ->
  wp (fsinit 1) Q s.
Proof.
  intros f Hb [] [] HQ. unfold fsinit. bstep. apply (wp_readsb i); [done|]. fold f. intros b1 Hev1 Hb1. bstep. bstep.
  cbn [fs_sb set_fs_sb]. rewrite cl_magic0, Z.eqb_refl, cl_start0, cl_nlog0. cbn [negb].
  apply wp_zoom. unfold initlog. bstep. eapply (wp_initlock_idle i); [exact Hb1|].
  do 6 bstep. set (l1 := set_lg_dev _ _). assert (i32 start = start /\ i32 size = size) as [Es Ez].
  { unfold i32. divlia. }
  assert (dblock (lg_b l1) = f) as Ef by by apply evolves_disk.
  eapply (wp_recover_from_log i start size); [split; (lia || done)|rewrite Ef; split; [rewrite cl_empty0; apply log_ok_nil; lia|done]|].
  rewrite Ef. cbv zeta. unfold recover_writes. rewrite cl_empty0. cbn [install_writes fmap list_fmap imap app foldl].
  intros l2 view Hev2 Hb2 (F1 & F2 & F3 & F4 & F5 & F6) En.
  assert (forall x, dblock (lg_b l2) x = apply_writes [(start, header (f start) [])] f x) as Ed by (intros x; rewrite (ev_disk _ _ _ Hev2), Ef; done).
  assert (dblock (lg_b l2) start = header (f start) []) as Eh by (rewrite Ed; cbn; unfold apply_write; cbn; by rewrite decide_True).
  apply HQ; [done|done|etrans; [exact F4|exact nl_outstanding0]|done|]. cbn [fs_l lset lens_fs_l set_fs_l].
  assert (view = dblock (lg_b l2)) as Ev.
  { apply functional_extensionality. intros x. apply (ct_clean _ _ _ _ _ _ _ (bi_cont _ _ _ _ _ Hb2)). apply lookup_empty. }
  rewrite Ev in Hb2. split; try done; try lia.
  - rewrite F3. done.
  - by rewrite F5.
  - by rewrite F6.
  - apply log_ok_nil. lia.
  - split; [rewrite F1; done|rewrite F2; done|done|apply prefix_nil].
  - rewrite Eh. unfold header. by rewrite length_put_ints.
  - rewrite Eh. apply header_nil_blocks. lia.
Qed.

(** What a kernel finds that has booted from the image. *)
Definition boots (i : nat) (files : list input) (xs : list inode) (k : fsst) : Prop :=
  let d := dblock (lg_b (fs_l k)) in
  fs_sb k = the_sb /\ logging i 2 30 (fs_l k) [] d ∅ ∅ None /\ lg_outstanding (fs_l k) = 0 /\ formatted d files xs.

(** C8: The kernel boots from the image that mkfs makes: whatever files mkfs was given,
    fsinit of a kernel whose disk is the image and whose buffer cache is idle returns,
    with the super block of mkfs and the log idle and empty, so that operations can
    begin; and the disk still has the root directory and the files. *)
Theorem mkfs_boots fsfd files :
  0 <= fsfd -> mkfs_files files ->
  exists s xs, Mkfs.main (Some (fsfd, files)) mkfs_start = Ret tt s /\
    forall i k, idle_cache i (lg_b (fs_l k)) -> new_log (fs_l k) -> d_disk (lg_b (fs_l k)) = mk_img s ->
      wp (fsinit 1) (fun _ k' => boots i files xs k') k.
Proof.
  intros Hfd Hfiles. destruct (wp_inv _ _ _ (wp_mkfs fsfd files Hfd Hfiles)) as ([] & s & E & xs & Hx). exists s, xs. split; [done|].
  intros i k Hb Hl Ed. assert (dblock (lg_b (fs_l k)) = image s) as Ef by (unfold dblock, image; by rewrite Ed).
  pose proof (fm_log _ _ _ Hx 2 ltac:(lia)) as E2. pose proof (fm_sb _ _ _ Hx) as Esb.
  eapply (wp_fsinit i 2 30); [done|done| |].
  - rewrite Ef. split; rewrite ?Esb, ?E2; try done; try lia.
  - rewrite Ef. intros k' Esb' _ Ho Ed' Hlog.
    assert (dblock (lg_b (fs_l k')) = image s) as Ef'.
    { apply functional_extensionality. intros x. rewrite Ed', E2. cbn. unfold apply_write. cbn [fst snd].
      destruct (decide (x = 2)) as [->|]; [|done]. rewrite E2. vm_compute. reflexivity. }
    unfold boots. rewrite Ef' in *. split_and!; [congruence|done|done|done].
Qed.

Lemma mkfs_boots_witness :
  exists s xs, Mkfs.main (Some (3, demo_files)) mkfs_start = Ret tt s /\
    wp (fsinit 1) (fun _ k' => boots 0 demo_files xs k') (mk_fsst (fresh_log (mk_img s)) (mk_superblock 0 0 0 0 0 0 0 0) (replicate 50 inode0)).
Proof.
  destruct (mkfs_boots 3 demo_files ltac:(lia) demo_files_ok) as (s & xs & E & H). exists s, xs. split; [exact E|].
  apply H; [apply fresh_cache_inv|split; reflexivity|]. apply fresh_cache_d.
Defined.
