(* ===== verification/Pipe.v ===== *)
(** * kernel/pipe.c: pipes

    A pipe lives in a page of its own; [pp_pipe] has the contents of the pipes by
    the addresses of their pages.  A call that has to wait stops with [Asleep];
    [pipewrite_back] and [piperead_back] continue it after the wakeup, with the
    locals that are on its kernel stack.  (pipealloc is in File.v.) *)

From Stdlib Require Import ZArith Lia.
From stdpp Require Import base list gmap strings.
From S2P Require Import Prelude KString Spinlock Riscv Kalloc Vm Proc Sleeplock Bio Log Fs.

Definition PIPESIZE : Z := 512.

Record pipe := mk_pipe {
  pi_data : list Z;  (* char data[PIPESIZE] *)
  pi_nread : Z;  (* number of bytes read *)
  pi_nwrite : Z;  (* number of bytes written *)
  pi_readopen : bool;  (* read fd is still open *)
  pi_writeopen : bool;  (* write fd is still open *)
}.

Definition set_pi_data (x : list Z) (q : pipe) : pipe :=
  mk_pipe x (pi_nread q) (pi_nwrite q) (pi_readopen q) (pi_writeopen q).
Definition set_pi_nread (x : Z) (q : pipe) : pipe :=
  mk_pipe (pi_data q) x (pi_nwrite q) (pi_readopen q) (pi_writeopen q).
Definition set_pi_nwrite (x : Z) (q : pipe) : pipe :=
  mk_pipe (pi_data q) (pi_nread q) x (pi_readopen q) (pi_writeopen q).
Definition set_pi_readopen (x : bool) (q : pipe) : pipe :=
  mk_pipe (pi_data q) (pi_nread q) (pi_nwrite q) x (pi_writeopen q).
Definition set_pi_writeopen (x : bool) (q : pipe) : pipe :=
  mk_pipe (pi_data q) (pi_nread q) (pi_nwrite q) (pi_readopen q) x.

Definition pipe0 : pipe := mk_pipe (replicate 512 0) 0 0 false false.

Record ppst := mk_ppst {
  pp_fs : fsst;
  pp_pipe : gmap Z pipe;  (* the pipes, by address *)
}.

Definition set_pp_fs (x : fsst) (s : ppst) : ppst :=
  mk_ppst x (pp_pipe s).
Definition set_pp_pipe (x : gmap Z pipe) (s : ppst) : ppst :=
  mk_ppst (pp_fs s) x.

#[global] Instance lens_pp_fs : Lens ppst fsst.
Proof. by exists pp_fs set_pp_fs; intros; destruct s. Defined.
#[global] Instance lens_pp_l : Lens ppst lst := lens_trans lens_pp_fs lens_fs_l.
#[global] Instance lens_pp_s : Lens ppst sst := lens_trans lens_pp_fs lens_fs_s.
#[global] Instance lens_pp_p : Lens ppst pst := lens_trans lens_pp_fs lens_fs_p.
#[global] Instance lens_pp_k : Lens ppst kmst := lens_trans lens_pp_fs lens_fs_k.
#[global] Instance lens_pp_lk : Lens ppst lks := lens_trans lens_pp_fs lens_fs_lk.

Definition pipe_lock (pi : Z) : lockid := ("pipe"%string, pi).
Definition nread_chan (pi : Z) : chanid := ("nread"%string, pi).
Definition nwrite_chan (pi : Z) : chanid := ("nwrite"%string, pi).

Definition pipe_at (pi : Z) (s : ppst) : pipe := default pipe0 (pp_pipe s !! pi).
Definition getpi {A} (pi : Z) (f : pipe -> A) : M ppst A := gets (fun s => f (pipe_at pi s)).
Definition setpi (pi : Z) (f : pipe -> pipe) : M ppst unit :=
  modify (fun s => set_pp_pipe (<[pi := f (pipe_at pi s)]> (pp_pipe s)) s).

(** pi->data[pi->nwrite++ % PIPESIZE] = ch *)
Definition pipe_put (ch : Z) (x : pipe) : pipe :=
  set_pi_nwrite (u32 (pi_nwrite x + 1))
    (set_pi_data (<[Z.to_nat (pi_nwrite x mod PIPESIZE) := ch]> (pi_data x)) x).
(** ch = pi->data[pi->nread++ % PIPESIZE] *)
Definition pipe_head (x : pipe) : Z := default 0 (pi_data x !! Z.to_nat (pi_nread x mod PIPESIZE)).
Definition pipe_take (x : pipe) : pipe := set_pi_nread (u32 (pi_nread x + 1)) x.

Section pipe.
Context (end_ : Z).

Definition pipeclose (pi : Z) (writable : bool) : M ppst unit :=
  ↑ acquire (pipe_lock pi);;
  (if writable then
     setpi pi (set_pi_writeopen false);;
     ↑ wakeup (nread_chan pi)
   else
     setpi pi (set_pi_readopen false);;
     ↑ wakeup (nwrite_chan pi));;
  x ← getpi pi id;
  if negb (pi_readopen x) && negb (pi_writeopen x) then
    ↑ release (pipe_lock pi);;
    modify (fun s => set_pp_pipe (delete pi (pp_pipe s)) s);;
    ↑ kfree end_ pi
  else ↑ release (pipe_lock pi).

End pipe.

(** The loop of pipewrite from byte [i] on, when [k] bytes are left. *)
Fixpoint pipewrite_loop (k : nat) (pi : Z) (pr : nat) (addr i : Z) : M ppst Z :=
  match k with
  | O =>
      ↑ wakeup (nread_chan pi);;
      ↑ release (pipe_lock pi);;
      mret i
  | S k' =>
      x ← getpi pi id;
      if pi_nwrite x =? u32 (pi_nread x + PIPESIZE) then
        killed ← ↑ getp pr p_killed;
        if negb (pi_readopen x) || negb (killed =? 0) then
          ↑ release (pipe_lock pi);;
          mret (-1)
        else
          ↑ wakeup (nread_chan pi);;
          ↑ sleep (nwrite_chan pi) (pipe_lock pi);;
          mret i
      else
        pt ← ↑ getp pr p_pagetable;
        '(r, bs) ← ↑ copyin pt (u64 (addr + i)) 1;
        if r =? -1 then
          ↑ wakeup (nread_chan pi);;
          ↑ release (pipe_lock pi);;
          mret i
        else
          setpi pi (pipe_put (default 0 (head bs)));;
          pipewrite_loop k' pi pr addr (i + 1)
  end.

Definition pipewrite (pi addr n : Z) : M ppst Z :=
  pr ← ↑ curproc;
  ↑ acquire (pipe_lock pi);;
  pipewrite_loop (Z.to_nat n) pi pr addr 0.

Definition pipewrite_back (pi addr n : Z) (pr : nat) (i : Z) : M ppst Z :=
  ↑ sleep_back (pipe_lock pi);;
  pipewrite_loop (Z.to_nat (n - i)) pi pr addr i.

(** The second loop of piperead. *)
Fixpoint piperead_copy (k : nat) (pi : Z) (pr : nat) (addr i : Z) : M ppst Z :=
  match k with
  | O => mret i
  | S k' =>
      x ← getpi pi id;
      if pi_nread x =? pi_nwrite x then mret i else
      setpi pi pipe_take;;
      pt ← ↑ getp pr p_pagetable;
      r ← ↑ copyout pt (u64 (addr + i)) [pipe_head x] 1;
      if r =? -1 then mret i
      else piperead_copy k' pi pr addr (i + 1)
  end.

(** From the first loop on. *)
Definition piperead_wait (pi addr n : Z) (pr : nat) : M ppst Z :=
  x ← getpi pi id;
  if (pi_nread x =? pi_nwrite x) && pi_writeopen x then
    killed ← ↑ getp pr p_killed;
    if negb (killed =? 0) then
      ↑ release (pipe_lock pi);;
      mret (-1)
    else
      ↑ sleep (nread_chan pi) (pipe_lock pi);;
      mret 0
  else
    i ← piperead_copy (Z.to_nat n) pi pr addr 0;
    ↑ wakeup (nwrite_chan pi);;
    ↑ release (pipe_lock pi);;
    mret i.

Definition piperead (pi addr n : Z) : M ppst Z :=
  pr ← ↑ curproc;
  ↑ acquire (pipe_lock pi);;
  piperead_wait pi addr n pr.

Definition piperead_back (pi addr n : Z) (pr : nat) : M ppst Z :=
  ↑ sleep_back (pipe_lock pi);;
  piperead_wait pi addr n pr.
