(* ===== verification/PipeProofs.v ===== *)
(** * kernel/pipe.c: a pipe is a bounded queue

    The ring buffer with its two free-running 32-bit counters implements a queue
    of at most PIPESIZE bytes, also when a counter wraps around; pipewrite appends
    bytes of the caller's memory to it and piperead moves its first bytes to the
    caller's memory, sleeping exactly when the queue is full or empty. *)

From Stdlib Require Import ZArith Lia.
From stdpp Require Import base list gmap strings.
From S2P Require Import Prelude KString Spinlock Riscv Kalloc Vm VmInv VmProofs VmUser VmCopy Proc Sleeplock Bio Log Fs Pipe.

(** ** The ring *)

(** How many bytes are in the pipe. *)
Definition pipe_len (x : pipe) : Z := u32 (pi_nwrite x - pi_nread x).
(** The bytes in the pipe, oldest first. *)
Definition queue (x : pipe) : list Z := ring PIPESIZE (pi_data x) (pi_nread x) (Z.to_nat (pipe_len x)).

Record pipe_wf (x : pipe) : Prop := {
  pw_data : length (pi_data x) = Z.to_nat PIPESIZE;
  pw_bytes : Forall is_u8 (pi_data x);
  pw_nread : is_u32 (pi_nread x);
  pw_nwrite : is_u32 (pi_nwrite x);
  pw_len : pipe_len x <= PIPESIZE;
}.

Lemma pipe_len_nonneg x : 0 <= pipe_len x < 2 ^ 32.
Proof. apply Z.mod_pos_bound. lia. Qed.

Lemma length_queue x : length (queue x) = Z.to_nat (pipe_len x).
Proof. apply length_ring. Qed.

(** The test for a full pipe, and for an empty one. *)
Lemma pipe_full x : pipe_wf x ->
  (pi_nwrite x =? u32 (pi_nread x + PIPESIZE)) = bool_decide (pipe_len x = PIPESIZE).
Proof.
  intros [_ _ H1 H2 H3]. unfold pipe_len, is_u32, u32, PIPESIZE in *.
  destruct (Z.eqb_spec (pi_nwrite x) ((pi_nread x + 512) mod 2 ^ 32));
    symmetry; [apply bool_decide_true|apply bool_decide_false]; divlia.
Qed.

Lemma pipe_empty x : pipe_wf x -> (pi_nread x =? pi_nwrite x) = bool_decide (pipe_len x = 0).
Proof.
  intros [_ _ H1 H2 H3]. unfold pipe_len, is_u32, u32 in *.
  destruct (Z.eqb_spec (pi_nread x) (pi_nwrite x));
    symmetry; [apply bool_decide_true|apply bool_decide_false]; divlia.
Qed.

(** PIPESIZE divides 2^32, so a counter that wraps around stays in step. *)
Lemma u32_mod_PIPESIZE n : u32 n mod PIPESIZE = n mod PIPESIZE.
Proof. unfold u32, PIPESIZE. divlia. Qed.

Lemma pipe_put_queue ch x :
  pipe_wf x -> pipe_len x < PIPESIZE -> is_u8 ch ->
  pipe_wf (pipe_put ch x) /\ queue (pipe_put ch x) = queue x ++ [ch] /\
  pipe_len (pipe_put ch x) = pipe_len x + 1.
Proof.
  intros [H0 Hb H1 H2 H3] Hlt Hch.
  assert (El : pipe_len (pipe_put ch x) = pipe_len x + 1).
  { unfold pipe_len, is_u32, u32, PIPESIZE in *. cbn. unfold u32. divlia. }
  split_and!; [|..|done].
  - split; cbn; [by rewrite length_insert|by apply Forall_insert|done| |].
    + unfold is_u32, u32. apply Z.mod_pos_bound. lia.
    + rewrite El. lia.
  - pose proof (pipe_len_nonneg x) as Hn. unfold queue. rewrite El.
    replace (Z.to_nat (pipe_len x + 1)) with (S (Z.to_nat (pipe_len x))) by lia.
    rewrite <- (ring_insert PIPESIZE (pi_data x) (pi_nread x) (Z.to_nat (pipe_len x)) ch) by (done || lia).
    cbn. rewrite <- zinsert_nonneg by (apply Z.mod_pos_bound; done).
    assert (Ei : pi_nwrite x mod PIPESIZE = (pi_nread x + Z.of_nat (Z.to_nat (pipe_len x))) mod PIPESIZE)
      by (unfold pipe_len, is_u32, u32, PIPESIZE in *; divlia).
    by rewrite Ei.
Qed.

Lemma pipe_take_queue x :
  pipe_wf x -> pipe_len x <> 0 ->
  pipe_wf (pipe_take x) /\ queue x = pipe_head x :: queue (pipe_take x) /\
  pipe_len (pipe_take x) = pipe_len x - 1.
Proof.
  intros [H0 Hb H1 H2 H3] Hne. pose proof (pipe_len_nonneg x) as Hn.
  assert (El : pipe_len (pipe_take x) = pipe_len x - 1).
  { unfold pipe_len, is_u32, u32, PIPESIZE in *. cbn. unfold u32. divlia. }
  split_and!; [|..|done].
  - split; cbn; [done|done| |done|].
    + unfold is_u32, u32. apply Z.mod_pos_bound. lia.
    + rewrite El. lia.
  - unfold queue. rewrite El.
    replace (Z.to_nat (pipe_len x)) with (S (Z.to_nat (pipe_len x - 1))) by lia.
    rewrite ring_cons. f_equal.
    + unfold pipe_head. by rewrite zlookup_nonneg by (apply Z.mod_pos_bound; done).
    + apply ring_mod; [done|]. cbn. unfold u32, PIPESIZE. divlia.
Qed.

Lemma pipe_head_u8 x : pipe_wf x -> is_u8 (pipe_head x).
Proof.
  intros Hx. unfold pipe_head. destruct (pi_data x !! _) as [b|] eqn:E; cbn; [|unfold is_u8; lia].
  by eapply (Forall_lookup_1 _ _ _ _ (pw_bytes _ Hx)).
Qed.

(** ** A system call on a pipe *)

(** The state [s0] with the process layer [p] and the pipe [x] at [pi]. *)
Definition put (pi : Z) (s0 : ppst) (p : pst) (x : pipe) : ppst :=
  set_pp_pipe (<[pi := x]> (pp_pipe s0)) (lset (Lens := lens_pp_p) p s0).

Section put.
Context (pi : Z) (s0 : ppst).

Lemma put_pipe p x : pipe_at pi (put pi s0 p x) = x.
Proof. unfold pipe_at, put. cbn. by rewrite lookup_insert_eq. Qed.
Lemma put_get p x : lget (Lens := lens_pp_p) (put pi s0 p x) = p.
Proof. reflexivity. Qed.
Lemma put_set p p' x : lset (Lens := lens_pp_p) p' (put pi s0 p x) = put pi s0 p' x.
Proof. reflexivity. Qed.
Lemma put_self x : pp_pipe s0 !! pi = Some x -> put pi s0 (lget (Lens := lens_pp_p) s0) x = s0.
Proof.
  intros Hx. unfold put. rewrite (lset_lget (Lens := lens_pp_p)), insert_id by done. by destruct s0.
Qed.

Lemma wp_getpi {A} (f : pipe -> A) Q p x : Q (f x) (put pi s0 p x) -> wp (getpi pi f) Q (put pi s0 p x).
Proof. intros H. unfold getpi. apply wp_gets. by rewrite put_pipe. Qed.
Lemma wp_setpi f Q p x : Q tt (put pi s0 p (f x)) -> wp (setpi pi f) Q (put pi s0 p x).
Proof.
  intros H. unfold setpi. apply wp_modify. rewrite put_pipe. unfold put in *. cbn.
  by rewrite insert_insert_eq.
Qed.
End put.

(** The process [pr] with the page table [root] is in a system call on the pipe at
    [pi]; it took the lock in [k0] and holds nothing else. *)
Record in_pipe (pi : Z) (pr : nat) (root : Z) (k0 : lks) (p : pst) : Prop := {
  ip_wf : intr_wf k0;
  ip_noff : noff k0 = 0;
  ip_locks : locks k0 = ∅;
  ip_cproc : cproc k0 = Some pr;
  ip_lk : k_lk (ps_k p) = locked_by (pipe_lock pi) k0;
  ip_len : length (ps_proc p) = NPROC;
  ip_root : p_pagetable (proc_at pr p) = root;
}.

(** The effect of wakeup(chan) and of releasing the pipe. *)
Record left_pipe (chan : option chanid) (k0 : lks) (p p' : pst) : Prop := {
  lp_lk : k_lk (ps_k p') = settle k0;
  lp_mem : k_mem (ps_k p') = k_mem (ps_k p);
  lp_free : k_freelist (ps_k p') = k_freelist (ps_k p);
  lp_proc : ps_proc p' = match chan with Some c => wake c <$> ps_proc p | None => ps_proc p end;
}.

(** The effect of wakeup(chan) and of sleep(ch), if [chan] is given. *)
Record slept (chan : option chanid) (ch : chanid) (pr : nat) (k0 : lks) (p p' : pst) : Prop := {
  sl_lk : k_lk (ps_k p') = locked_by (proc_lock pr) k0;
  sl_mem : k_mem (ps_k p') = k_mem (ps_k p);
  sl_proc : exists ie, ps_proc p' =
    alter (fall_asleep ch ie) pr (match chan with Some c => wake c <$> ps_proc p | None => ps_proc p end);
}.

Section pipe_ops.
Context (pi : Z) (s0 : ppst) (pr : nat) (root : Z) (k0 : lks).

Lemma in_pipe_free p : in_pipe pi pr root k0 p -> proc_locks_free k0 /\ is_free k0 (pipe_lock pi).
Proof. intros H. unfold proc_locks_free, is_free. rewrite (ip_locks _ _ _ _ _ H). done. Qed.

Lemma wp_pipe_wakeup chan Q p x :
  in_pipe pi pr root k0 p ->
  (forall p', k_lk (ps_k p') = k_lk (ps_k p) -> k_mem (ps_k p') = k_mem (ps_k p) ->
    k_freelist (ps_k p') = k_freelist (ps_k p) ->
    ps_proc p' = wake chan <$> ps_proc p -> Q tt (put pi s0 p' x)) ->
  wp (↑ wakeup chan) Q (put pi s0 p x).
Proof.
  intros Hp HQ. destruct (in_pipe_free p Hp) as [Hf _]. destruct Hp as [H1 H2 H3 H4 H5 H6 H7].
  apply wp_zoom. rewrite put_get. apply wp_wakeup.
  - rewrite H5. by apply locked_by_wf.
  - rewrite H5. intros j. by apply locked_by_free.
  - done.
  - intros p' Hle Ep. rewrite put_set. apply HQ; [|apply Hle|apply Hle|done].
    rewrite H5. apply (lk_eqv_locked _ _ _ H1). rewrite <- H5. apply Hle.
Qed.

Lemma wp_pipe_release Q p x :
  in_pipe pi pr root k0 p ->
  Q tt (put pi s0 (set_ps_k (set_klk (settle k0) (ps_k p)) p) x) ->
  wp (↑ release (pipe_lock pi)) Q (put pi s0 p x).
Proof.
  intros Hp HQ. destruct (in_pipe_free p Hp) as [_ Hf]. destruct Hp as [H1 H2 H3 H4 H5 H6 H7].
  eapply wp_unlock; [done|done| |exact HQ].
  change (k_lk (ps_k p) ≈ locked_by (pipe_lock pi) k0). by rewrite H5.
Qed.

Lemma wps_pipe_sleep {A} chan (f : unit -> M ppst A) (Q : A -> ppst -> Prop) (R : ppst -> Prop) p x :
  in_pipe pi pr root k0 p ->
  (forall p', slept None chan pr k0 p p' -> R (put pi s0 p' x)) ->
  wps (↑ sleep chan (pipe_lock pi) ≫= f) Q R (put pi s0 p x).
Proof.
  intros Hp HR. destruct (in_pipe_free p Hp) as [Hpf Hf]. destruct Hp as [H1 H2 H3 H4 H5 H6 H7].
  apply wps_bind, wps_zoom. rewrite put_get. unfold wps.
  rewrite (sleep_run chan (pipe_lock pi) pr k0) by done. rewrite put_set. apply HR.
  split; [done|done|]. by eexists.
Qed.

Lemma in_pipe_woken chan p p' :
  in_pipe pi pr root k0 p -> k_lk (ps_k p') = k_lk (ps_k p) -> ps_proc p' = wake chan <$> ps_proc p ->
  in_pipe pi pr root k0 p'.
Proof.
  intros [H1 H2 H3 H4 H5 H6 H7] E1 E2. split; try done.
  - by rewrite E1.
  - by rewrite E2, length_fmap.
  - rewrite <- H7. unfold proc_at. rewrite E2, list_lookup_fmap.
    destruct (ps_proc p !! pr) as [q|]; [|done]. cbn. unfold wake. by destruct (_ && _).
Qed.

(** wakeup(chan); release(&pi->lock); return r *)
Lemma wp_pipe_leave chan r (Q : Z -> ppst -> Prop) p x :
  in_pipe pi pr root k0 p ->
  (forall p', left_pipe (Some chan) k0 p p' -> Q r (put pi s0 p' x)) ->
  wp (↑ wakeup chan;; ↑ release (pipe_lock pi);; mret r) Q (put pi s0 p x).
Proof.
  intros Hp HQ. mstep. apply wp_pipe_wakeup; [done|]. intros p' E1 E2 E2' E3. mstep.
  apply wp_pipe_release; [by eapply in_pipe_woken|]. mstep. by apply HQ.
Qed.

Lemma wp_pipe_abort (Q : Z -> ppst -> Prop) p x :
  in_pipe pi pr root k0 p ->
  (forall p', left_pipe None k0 p p' -> Q (-1) (put pi s0 p' x)) ->
  wp (↑ release (pipe_lock pi);; mret (-1)) Q (put pi s0 p x).
Proof. intros Hp HQ. mstep. apply wp_pipe_release; [done|]. mstep. by apply HQ. Qed.

(** wakeup(chan); sleep(ch, &pi->lock) *)
Lemma wps_pipe_wake_sleep {A} chan ch (f : unit -> M ppst A) (Q : A -> ppst -> Prop) (R : ppst -> Prop) p x :
  in_pipe pi pr root k0 p ->
  (forall p', slept (Some chan) ch pr k0 p p' -> R (put pi s0 p' x)) ->
  wps (↑ wakeup chan;; (↑ sleep ch (pipe_lock pi) ≫= f)) Q R (put pi s0 p x).
Proof.
  intros Hp HR. apply wps_seq. apply wp_pipe_wakeup; [done|]. intros p1 E1 E2 _ E3.
  apply wps_pipe_sleep; [by eapply in_pipe_woken|]. intros p2 [S1 S2 S3]. apply HR.
  split; [done|by rewrite S2|by rewrite E3 in S3].
Qed.

Lemma wp_getp {A} (f : proc -> A) (Q : A -> ppst -> Prop) p x :
  Q (f (proc_at pr p)) (put pi s0 p x) -> wp (↑ getp pr f) Q (put pi s0 p x).
Proof. intros H. apply wp_zoom. unfold getp. apply wp_gets. by rewrite put_set. Qed.

(** ** Writing *)

Context (end_ : Z) (end_pos : 0 < end_) (own : owners) (l : list Z) (roots : gmap Z Z) (lim : Z).
Context (Hroot : roots !! root = Some lim) (Hul : ulimit lim).

Lemma ubytes_1 m va : ubytes m root va 1 = [ubyte m root va].
Proof. unfold ubytes, zseq. cbn. by rewrite Z.add_0_r. Qed.

Lemma copyin_byte va s :
  vm_inv end_ own l roots s -> 0 <= va ->
  copyin root va 1 s =
    Ret (if decide (accessible (k_mem s) root va) then (0, [ubyte (k_mem s) root va]) else (-1, [])) s.
Proof.
  intros Hvm Hva. unfold copyin.
  destruct (copyin_loop_run end_ end_pos own l roots root lim s Hvm Hroot Hul (copy_bound 1) [] va 1)
    as (n & Hn & Hacc & Hnacc & ->); [done|lia|right; by apply copy_bound_enough|].
  destruct (decide (n = 1)) as [->|Hne].
  - rewrite decide_True by (apply Hacc; lia). change (Z.to_nat 1) with 1%nat. by rewrite ubytes_1.
  - assert (n = 0) as -> by lia. rewrite decide_False; [done|]. rewrite Z.add_0_r in Hnacc. apply Hnacc. lia.
Qed.

(** [x'] is [x] after [j] more bytes from the user address [va] have been put in. *)
Record written (m : memory) (va j : Z) (x x' : pipe) : Prop := {
  wr_wf : pipe_wf x';
  wr_queue : queue x' = queue x ++ ubytes m root va (Z.to_nat j);
  wr_acc : forall v, va <= v < va + j -> accessible m root v;
  wr_read : pi_readopen x' = pi_readopen x;
  wr_write : pi_writeopen x' = pi_writeopen x;
}.

Lemma written_cons m va j x x' :
  0 <= j -> accessible m root va -> written m (va + 1) j (pipe_put (ubyte m root va) x) x' ->
  pipe_wf x -> pipe_len x < PIPESIZE -> written m va (j + 1) x x'.
Proof.
  intros Hj Ha [H1 H2 H3 H4 H5] Hx Hlt. destruct (pipe_put_queue (ubyte m root va) x Hx Hlt (rd_range _ _)) as (_ & E & _).
  split; try done.
  - rewrite H2, E, <- app_assoc. f_equal.
    replace (Z.to_nat (j + 1)) with (1 + Z.to_nat j)%nat by lia. by rewrite ubytes_app, ubytes_1.
  - intros v Hv. destruct (decide (v = va)) as [->|]; [done|]. apply H3. lia.
Qed.

Lemma wps_pipewrite_loop addr p (Q : Z -> ppst -> Prop) (R : ppst -> Prop) :
  in_pipe pi pr root k0 p -> vm_inv end_ own l roots (ps_k p) -> 0 <= addr ->
  let m := k_mem (ps_k p) in
  forall k i x, pipe_wf x -> 0 <= i -> addr + i + Z.of_nat k <= 2 ^ 64 ->
  (forall j x' p', 0 <= j <= Z.of_nat k -> written m (addr + i) j x x' ->
     j = Z.of_nat k \/ ~ accessible m root (addr + i + j) ->
     left_pipe (Some (nread_chan pi)) k0 p p' -> Q (i + j) (put pi s0 p' x')) ->
  (forall j x' p', 0 <= j < Z.of_nat k -> written m (addr + i) j x x' -> pipe_len x' = PIPESIZE ->
     pi_readopen x = false \/ p_killed (proc_at pr p) <> 0 ->
     left_pipe None k0 p p' -> Q (-1) (put pi s0 p' x')) ->
  (forall j x' p', 0 <= j < Z.of_nat k -> written m (addr + i) j x x' -> pipe_len x' = PIPESIZE ->
     pi_readopen x = true -> p_killed (proc_at pr p) = 0 ->
     slept (Some (nread_chan pi)) (nwrite_chan pi) pr k0 p p' -> R (put pi s0 p' x')) ->
  wps (pipewrite_loop k pi pr addr i) Q R (put pi s0 p x).
Proof.
  intros Hp Hvm Haddr m. induction k as [|k IH]; intros i x Hx Hi Hb HQ HK HR.
  { cbn [pipewrite_loop]. apply wps_wp, wp_pipe_leave; [done|]. intros p' Hp'.
    replace i with (i + 0) at 1 by lia. apply HQ; [lia| |by left|done].
    split; try done; [by rewrite app_nil_r|lia]. }
  cbn [pipewrite_loop]. apply wps_seq, wp_getpi. change (id x) with x. rewrite pipe_full by done.
  assert (W0 : written m (addr + i) 0 x x) by (split; try done; [by rewrite app_nil_r|lia]).
  case_bool_decide as Hfull.
  - apply wps_seq, wp_getp. destruct (negb (pi_readopen x) || _) eqn:Eb.
    + apply wps_wp, wp_pipe_abort; [done|]. intros p' Hp'. apply (HK 0); try done.
      apply orb_true_iff in Eb as [Eb%negb_true_iff|Eb%negb_true_iff%Z.eqb_neq]; auto.
    + apply orb_false_iff in Eb as [Eb1%negb_false_iff Eb2%negb_false_iff%Z.eqb_eq].
      apply wps_pipe_wake_sleep; [done|]. intros p' Hp'. by apply (HR 0).
  - apply wps_seq, wp_getp. rewrite (ip_root _ _ _ _ _ Hp).
    assert (Hu : u64 (addr + i) = addr + i) by (apply Z.mod_small; lia). rewrite Hu.
    apply wps_seq, wp_zoom. eapply wp_run; [apply copyin_byte; [exact Hvm|lia]|]. fold m.
    rewrite (lset_lget (Lens := lens_pp_k)).
    change (k_mem (lget (Lens := lens_pp_k) (put pi s0 p x))) with m.
    destruct (decide (accessible m root (addr + i))) as [Ha|Ha]; cbn [Z.eqb Pos.eqb].
    + pose proof (pw_len _ Hx).
      destruct (pipe_put_queue (ubyte m root (addr + i)) x Hx) as (Hx' & _ & _); [lia|apply rd_range|].
      apply wps_seq, wp_setpi. cbn [head default]. apply IH; [done|lia|lia|..].
      * intros j x' p' Hj W Hend Hl. replace (i + 1 + j) with (i + (j + 1)) by lia.
        rewrite Z.add_assoc in W.
        apply (HQ (j + 1)); [lia|apply written_cons; (done || lia)| |done].
        replace (addr + i + (j + 1)) with (addr + (i + 1) + j) by lia. destruct Hend; [left; lia|by right].
      * intros j x' p' Hj W Hend Ho Hl. rewrite Z.add_assoc in W.
        apply (HK (j + 1)); try done; [lia|apply written_cons; (done || lia)].
      * intros j x' p' Hj W Hend Ho Hk Hl. rewrite Z.add_assoc in W.
        apply (HR (j + 1)); try done; [lia|apply written_cons; (done || lia)].
    + apply wps_wp, wp_pipe_leave; [done|]. intros p' Hp'.
      replace i with (i + 0) at 1 by lia. apply HQ; [lia|done| |done]. right. by rewrite Z.add_0_r.
Qed.

(** ** Reading *)

Lemma walkaddr_state pt va s r s' : walkaddr pt va s = Ret r s' -> s' = s.
Proof.
  unfold walkaddr, walk, walk_level, load64, mbind, M_bind, gets.
  destruct (MAXVA <=? va); [by intros [= _ ->]|].
  destruct (has (ld64 _ _) PTE_V); cbn; [|by intros [= _ ->]].
  destruct (PTE2PA _ =? 0); cbn; [by intros [= _ ->]|].
  destruct (has (ld64 _ _) PTE_V); cbn; [|by intros [= _ ->]].
  destruct (PTE2PA _ =? 0); cbn; [by intros [= _ ->]|].
  destruct (_ =? 0); cbn; [by intros [= _ ->]|].
  destruct (negb _); cbn; [by intros [= _ ->]|]. destruct (negb _); by intros [= _ ->].
Qed.

(** copyout changes nothing but memory. *)
Lemma copyout_loop_frame fuel pt va src len s r s' :
  copyout_loop fuel pt va src len s = Ret r s' -> s' = set_kmem (k_mem s') s.
Proof.
  revert va src len s. induction fuel as [|fuel IH]; intros va src len s; cbn [copyout_loop].
  - destruct (0 <? len); [done|]. intros [= _ ->]. by destruct s'.
  - destruct (0 <? len); [|intros [= _ ->]; by destruct s'].
    unfold mbind at 1, M_bind at 1. destruct (walkaddr _ _ s) as [pa s1|? ?|?|?|?] eqn:E; try done.
    apply walkaddr_state in E as ->. destruct (pa =? 0); [intros [= _ ->]; by destruct s'|].
    unfold mbind at 1, M_bind at 1. cbn. intros E%IH. rewrite E at 1. by destruct s.
Qed.

Lemma wp_copyout_byte va b (Q : Z -> kmst -> Prop) s :
  vm_inv end_ own l roots s -> 0 <= va -> is_u8 b ->
  (forall m', let s' := set_kmem m' s in
     vm_inv end_ own l roots s' -> leaves_same roots (k_mem s) m' ->
     (accessible (k_mem s) root va -> user_written roots (k_mem s) m' root va [b] -> Q 0 s') /\
     (~ accessible (k_mem s) root va -> user_written roots (k_mem s) m' root va [] -> Q (-1) s')) ->
  wp (copyout root va [b] 1) Q s.
Proof.
  intros Hvm Hva Hb HQ. unfold copyout.
  set (P n s' := vm_inv end_ own l roots s' /\ leaves_same roots (k_mem s) (k_mem s') /\
     (forall v, va <= v < va + n -> accessible (k_mem s) root v) /\
     (n < 1 -> ~ accessible (k_mem s) root (va + n)) /\
     user_written roots (k_mem s) (k_mem s') root va (take (Z.to_nat n) [b])).
  assert (H : wp (copyout_loop (copy_bound 1) root va [b] 1)
    (fun r s' => exists n, 0 <= n <= 1 /\ r = (if decide (n = 1) then 0 else -1) /\ P n s') s).
  { apply (wp_copyout_loop end_ end_pos own l roots root lim); try done; [by apply Forall_singleton|..].
    - right. by apply copy_bound_enough.
    - intros n s' Hn H1 H2 H3 H4 H5. exists n. split; [done|]. split; [done|]. by unfold P. }
  apply wp_inv in H as (r & s' & E & n & Hn & -> & H1 & H2 & H3 & H4 & H5).
  eapply wp_run; [exact E|]. apply copyout_loop_frame in E. rewrite E in *. cbn in H2, H5.
  destruct (HQ _ H1 H2) as [Hyes Hno]. destruct (decide (n = 1)) as [->|].
  - apply Hyes; [apply H3; lia|done].
  - assert (n = 0) as -> by lia. rewrite Z.add_0_r in H4. apply Hno; [apply H4; lia|done].
Qed.

Definition with_mem (m' : memory) (p : pst) : pst := set_ps_k (set_kmem m' (ps_k p)) p.

Lemma in_pipe_mem m' p : in_pipe pi pr root k0 p -> in_pipe pi pr root k0 (with_mem m' p).
Proof. by intros []. Qed.

Lemma accessible_same m m' va :
  leaves_same roots m m' -> accessible m' root va <-> accessible m root va.
Proof. intros L. unfold accessible. by rewrite (L root lim va Hroot). Qed.

(** [d] was moved from the pipe to the user address [va]; [lost] is what was taken
    out of it but not delivered. *)
Record moved (m m' : memory) (va : Z) (d lost : list Z) (x x' : pipe) : Prop := {
  mv_wf : pipe_wf x';
  mv_queue : queue x = d ++ lost ++ queue x';
  mv_user : user_written roots m m' root va d;
  mv_leaves : leaves_same roots m m';
  mv_read : pi_readopen x' = pi_readopen x;
  mv_write : pi_writeopen x' = pi_writeopen x;
}.

(** Why the loop ended after [d], of [n] bytes: the pipe is empty or all [n] bytes
    are delivered, or the next address is not accessible, and its byte is lost. *)
Definition read_end (m : memory) (va n : Z) (d lost : list Z) (x' : pipe) : Prop :=
  lost = [] /\ (Z.of_nat (length d) = n \/ queue x' = []) \/
  length lost = 1%nat /\ Z.of_nat (length d) < n /\ ~ accessible m root (va + Z.of_nat (length d)).

Lemma moved_nil m va x : pipe_wf x -> moved m m va [] [] x x.
Proof. intros. split; try done. apply user_written_nil. Qed.

Lemma moved_cons m m1 m2 va b d lost x x' :
  pipe_wf x -> pipe_len x <> 0 -> leaves_same roots m m1 -> user_written roots m m1 root va [b] ->
  b = pipe_head x -> moved m1 m2 (va + 1) d lost (pipe_take x) x' -> moved m m2 va (b :: d) lost x x'.
Proof.
  intros Hx Hne L W -> [H1 H2 H3 H4 H5 H6]. destruct (pipe_take_queue x Hx Hne) as (_ & E & _).
  split; try done.
  - by rewrite E, H2.
  - by apply (user_written_app roots m m1 m2 root va [pipe_head x] d).
  - intros root' lim' v Hr. by rewrite (H4 root' lim'), (L root' lim').
Qed.

Lemma read_end_cons m m1 va n b d lost x' :
  leaves_same roots m m1 ->
  read_end m1 (va + 1) (Z.of_nat n) d lost x' -> read_end m va (Z.of_nat (S n)) (b :: d) lost x'.
Proof.
  intros L [[-> H]|(H1 & H2 & H3)]; [left|right]; cbn [length].
  - split; [done|]. destruct H; [left; lia|by right].
  - split_and!; [done|lia|]. rewrite <- (accessible_same m m1) by done.
    by replace (va + Z.of_nat (S (length d))) with (va + 1 + Z.of_nat (length d)) by lia.
Qed.

Lemma wp_stop {addr} {Q : Z -> ppst -> Prop} i p x k :
  (forall d lost m' x', (length d <= k)%nat -> moved (k_mem (ps_k p)) m' (addr + i) d lost x x' ->
     read_end (k_mem (ps_k p)) (addr + i) (Z.of_nat k) d lost x' ->
     vm_inv end_ own l roots (set_kmem m' (ps_k p)) ->
     Q (i + Z.of_nat (length d)) (put pi s0 (with_mem m' p) x')) ->
  pipe_wf x -> vm_inv end_ own l roots (ps_k p) ->
  read_end (k_mem (ps_k p)) (addr + i) (Z.of_nat k) [] [] x -> Q i (put pi s0 p x).
Proof.
  intros HQ Hx Hvm He. specialize (HQ [] [] (k_mem (ps_k p)) x). cbn [length] in HQ.
  rewrite Z.add_0_r in HQ. destruct p as [[lk mm fl] ? ? ? ?]. apply HQ; [lia|by apply moved_nil|done|done].
Qed.

Lemma wp_piperead_copy addr (Q : Z -> ppst -> Prop) : 0 <= addr ->
  forall k i p x, in_pipe pi pr root k0 p -> vm_inv end_ own l roots (ps_k p) ->
  pipe_wf x -> 0 <= i -> addr + i + Z.of_nat k <= 2 ^ 64 ->
  (forall d lost m' x', (length d <= k)%nat -> moved (k_mem (ps_k p)) m' (addr + i) d lost x x' ->
     read_end (k_mem (ps_k p)) (addr + i) (Z.of_nat k) d lost x' ->
     vm_inv end_ own l roots (set_kmem m' (ps_k p)) ->
     Q (i + Z.of_nat (length d)) (put pi s0 (with_mem m' p) x')) ->
  wp (piperead_copy k pi pr addr i) Q (put pi s0 p x).
Proof.
  intros Haddr. induction k as [|k IH]; intros i p x Hp Hvm Hx Hi Hb HQ; cbn [piperead_copy].
  { mstep. apply (wp_stop i p x 0 HQ); [done..|]. left. by split; [|left]. }
  mstep. apply wp_getpi. change (id x) with x. rewrite pipe_empty by done. case_bool_decide as He.
  { mstep. apply (wp_stop i p x (S k) HQ); [done..|]. left. split; [done|right].
    unfold queue. by rewrite He. }
  destruct (pipe_take_queue x Hx He) as (Hx' & Eq & _).
  mstep. apply wp_setpi. mstep. apply wp_getp. rewrite (ip_root _ _ _ _ _ Hp).
  assert (Hu : u64 (addr + i) = addr + i) by (apply Z.mod_small; lia). rewrite Hu.
  mstep. apply wp_zoom. apply wp_copyout_byte; [exact Hvm|lia|by apply pipe_head_u8|].
  intros m' s' Hvm' L. subst s'.
  change (lset (set_kmem m' (lget (put pi s0 p (pipe_take x)))) (put pi s0 p (pipe_take x)))
    with (put pi s0 (with_mem m' p) (pipe_take x)).
  change (k_mem (lget (put pi s0 p (pipe_take x)))) with (k_mem (ps_k p)) in *. split; intros Ha W; cbn [Z.eqb Pos.eqb].
  - apply IH; [by apply in_pipe_mem|done|done|lia|lia|].
    intros d lost m2 x' Hd Hm He2 Hvm2. cbn in Hm, He2. rewrite Z.add_assoc in Hm, He2.
    replace (i + 1 + Z.of_nat (length d)) with (i + Z.of_nat (length (pipe_head x :: d))) by (cbn; lia).
    apply (HQ (pipe_head x :: d) lost m2 x'); [cbn; lia|by eapply moved_cons| |done].
    by eapply read_end_cons.
  - mstep. replace i with (i + Z.of_nat (length (@nil Z))) at 1 by (cbn; lia).
    apply (HQ [] [pipe_head x] m' (pipe_take x)); [cbn; lia| | |done].
    + split; done.
    + right. cbn. split_and!; [done|lia|by rewrite Z.add_0_r].
Qed.
End pipe_ops.

(** ** The system calls *)

(** The process layer of a state. *)
Definition procs_of (s : ppst) : pst := lget (Lens := lens_pp_p) s.

(** Process [pr] with the page table [root] runs on this CPU and holds no lock. *)
Record calling (pr : nat) (root : Z) (p : pst) : Prop := {
  ca_wf : intr_wf (k_lk (ps_k p));
  ca_noff : noff (k_lk (ps_k p)) = 0;
  ca_locks : locks (k_lk (ps_k p)) = ∅;
  ca_cproc : cproc (k_lk (ps_k p)) = Some pr;
  ca_len : length (ps_proc p) = NPROC;
  ca_root : p_pagetable (proc_at pr p) = root;
}.

(** The process layer with the lock of the pipe taken. *)
Definition entered (pi : Z) (p : pst) : pst :=
  set_ps_k (set_klk (locked_by (pipe_lock pi) (settle (k_lk (ps_k p)))) (ps_k p)) p.

Lemma calling_entered pi pr root p :
  calling pr root p -> in_pipe pi pr root (settle (k_lk (ps_k p))) (entered pi p).
Proof.
  intros [H1 H2 H3 H4 H5 H6]. split; try done; [by apply settle_wf|..]; by autorewrite with xv6.
Qed.

Lemma wps_pipe_enter {A} pi (f : nat -> M ppst A) Q R pr root s x :
  calling pr root (procs_of s) -> pp_pipe s !! pi = Some x ->
  wps (f pr) Q R (put pi s (entered pi (procs_of s)) x) ->
  wps (p ← ↑ curproc; ↑ acquire (pipe_lock pi);; f p) Q R s.
Proof.
  intros [H1 H2 H3 H4 H5 H6] Hx HQ. apply wps_seq, wp_zoom.
  unfold curproc. mstep. apply wp_myproc; [done|].
  change (cproc (lget (lget s))) with (cproc (k_lk (ps_k (procs_of s)))). rewrite H4. mstep.
  apply wps_seq. apply wp_lock.
  { unfold is_free.
    change (locks (settle (k_lk (ps_k (procs_of s)))) !! pipe_lock pi = None).
    by rewrite settle_locks, H3. }
  unfold put in HQ. rewrite insert_id in HQ by done. by destruct s.
Qed.

Lemma left_calling pr root chan p q p' :
  calling pr root p -> left_pipe chan (settle (k_lk (ps_k p))) q p' -> ps_proc q = ps_proc p ->
  calling pr root p'.
Proof.
  intros [H1 H2 H3 H4 H5 H6] [E1 E2 _ E3] Eq. rewrite Eq in E3.
  assert (Hlen : length (ps_proc p') = length (ps_proc p)).
  { rewrite E3. destruct chan; [apply length_fmap|done]. }
  split; rewrite ?E1, ?Hlen; autorewrite with xv6; try done; [by apply settle_wf|].
  rewrite <- H6. unfold proc_at. rewrite E3. destruct chan as [c|]; [|done].
  rewrite list_lookup_fmap. destruct (ps_proc p !! pr) as [q0|]; [|done]. cbn. unfold wake. by destruct (_ && _).
Qed.

Lemma procs_of_put pi s p x : procs_of (put pi s p x) = p /\ pp_pipe (put pi s p x) = <[pi := x]> (pp_pipe s).
Proof. done. Qed.

Section syscalls.
Context (end_ : Z) (end_pos : 0 < end_) (own : owners) (l : list Z) (roots : gmap Z Z).

(** Process [pr] has gone to sleep on [ch], after wakeup([wk]) if that is given, and
    left the pipe unlocked. *)
Definition asleep_on (pi : Z) (wk : option chanid) (ch : chanid) (pr : nat) (p p' : pst) : Prop :=
  is_free (k_lk (ps_k p')) (pipe_lock pi) /\ k_mem (ps_k p') = k_mem (ps_k p) /\
  exists ie, ps_proc p' =
    alter (fall_asleep ch ie) pr (match wk with Some c => wake c <$> ps_proc p | None => ps_proc p end).

Lemma slept_asleep pi pr root wk ch p p' :
  calling pr root p -> slept wk ch pr (settle (k_lk (ps_k p))) (entered pi p) p' ->
  asleep_on pi wk ch pr p p'.
Proof.
  intros Hc [E1 E2 E3]. split_and!; [|done|done]. rewrite E1. apply locked_by_free; [done|].
  apply settle_free. unfold is_free. by rewrite (ca_locks _ _ _ Hc).
Qed.

(** C11: pipewrite appends to a bounded queue.  From byte 0 of the caller's buffer on,
    it appends bytes [j] of them: all [n], or as many as are accessible to the user,
    and then returns [j] and wakes up the readers; or until the pipe is full, and
    then it fails if there is no reader left or the caller was killed, and otherwise
    goes to sleep with the pipe unlocked after waking up the readers.  It neither
    changes user memory nor anything else of the pipe. *)
Theorem pipewrite_refines pi pr root lim addr n x s :
  calling pr root (procs_of s) -> vm_inv end_ own l roots (ps_k (procs_of s)) ->
  roots !! root = Some lim -> ulimit lim ->
  pp_pipe s !! pi = Some x -> pipe_wf x -> 0 <= addr -> 0 <= n -> addr + n <= 2 ^ 64 ->
  let p := procs_of s in
  let m := k_mem (ps_k p) in
  wps (pipewrite pi addr n)
    (fun r s' => exists j x', written root m addr j x x' /\ 0 <= j <= n /\
       pp_pipe s' = <[pi := x']> (pp_pipe s) /\
       calling pr root (procs_of s') /\ k_mem (ps_k (procs_of s')) = m /\
       (r = j /\ (j = n \/ ~ accessible m root (addr + j)) /\
          ps_proc (procs_of s') = wake (nread_chan pi) <$> ps_proc p \/
        r = -1 /\ j < n /\ pipe_len x' = PIPESIZE /\
          (pi_readopen x = false \/ p_killed (proc_at pr p) <> 0)))
    (fun s' => exists j x', written root m addr j x x' /\ 0 <= j < n /\ pipe_len x' = PIPESIZE /\
       pp_pipe s' = <[pi := x']> (pp_pipe s) /\
       pi_readopen x = true /\ p_killed (proc_at pr p) = 0 /\
       asleep_on pi (Some (nread_chan pi)) (nwrite_chan pi) pr p (procs_of s'))
    s.
Proof.
  intros Hc Hvm Hroot Hul Hx Hwf Ha Hn Hb p m. unfold pipewrite.
  apply (wps_pipe_enter pi (fun pr => pipewrite_loop (Z.to_nat n) pi pr addr 0) _ _ pr root s x Hc Hx).
  apply (wps_pipewrite_loop pi s pr root (settle (k_lk (ps_k p))) end_ end_pos own l roots lim Hroot Hul addr (entered pi p));
    [by apply calling_entered|by apply (vm_inv_ext (ps_k p))|done|done|done|lia|..]; rewrite Z2Nat.id by done; rewrite Z.add_0_r.
  - intros j x' p' Hj W Hend Hl. exists j, x'. destruct (procs_of_put pi s p' x') as [-> ->].
    split_and!; [done|lia|lia|done|by eapply left_calling|apply Hl|].
    left. split_and!; [lia|done|apply Hl].
  - intros j x' p' Hj W Hfull Hend Hl. exists j, x'. destruct (procs_of_put pi s p' x') as [-> ->].
    split_and!; [done|lia|lia|done|by eapply left_calling|apply Hl|].
    right. split_and!; [done|lia|done|done].
  - intros j x' p' Hj W Hfull Ho Hk Hl. exists j, x'. destruct (procs_of_put pi s p' x') as [-> ->].
    split_and!; try done; [lia|lia|]. by eapply slept_asleep.
Qed.

(** C12: piperead takes from the front of the queue.  If the pipe is empty and has a
    writer it goes to sleep with the pipe unlocked, or fails if the caller was
    killed; otherwise it moves bytes [d] from the front of the queue to the caller's
    buffer until all [n] are there or the queue is empty, returns their number and
    wakes up the writers.  If the next address of the buffer is not accessible, one
    more byte has left the queue and is lost.  No other byte of any user's memory
    changes. *)
Theorem piperead_refines pi pr root lim addr n x s :
  calling pr root (procs_of s) -> vm_inv end_ own l roots (ps_k (procs_of s)) ->
  roots !! root = Some lim -> ulimit lim ->
  pp_pipe s !! pi = Some x -> pipe_wf x -> 0 <= addr -> 0 <= n -> addr + n <= 2 ^ 64 ->
  let p := procs_of s in
  let m := k_mem (ps_k p) in
  wps (piperead pi addr n)
    (fun r s' => exists d lost x',
       moved root roots m (k_mem (ps_k (procs_of s'))) addr d lost x x' /\
       pp_pipe s' = <[pi := x']> (pp_pipe s) /\
       calling pr root (procs_of s') /\ vm_inv end_ own l roots (ps_k (procs_of s')) /\
       (r = Z.of_nat (length d) /\ r <= n /\ read_end root m addr n d lost x' /\
          (queue x <> [] \/ pi_writeopen x = false) /\
          ps_proc (procs_of s') = wake (nwrite_chan pi) <$> ps_proc p \/
        r = -1 /\ d = [] /\ lost = [] /\ queue x = [] /\ pi_writeopen x = true /\
          p_killed (proc_at pr p) <> 0))
    (fun s' => queue x = [] /\ pi_writeopen x = true /\ p_killed (proc_at pr p) = 0 /\
       pp_pipe s' = <[pi := x]> (pp_pipe s) /\
       asleep_on pi None (nread_chan pi) pr p (procs_of s'))
    s.
Proof.
  intros Hc Hvm Hroot Hul Hx Hwf Ha Hn Hb p m. unfold piperead.
  apply (wps_pipe_enter pi (fun pr => piperead_wait pi addr n pr) _ _ pr root s x Hc Hx).
  unfold piperead_wait. fold p. set (k0 := settle (k_lk (ps_k p))).
  assert (Hp : in_pipe pi pr root k0 (entered pi p)) by by apply calling_entered.
  assert (Hq : pipe_len x = 0 <-> queue x = []).
  { rewrite <- length_zero_iff_nil, length_queue. pose proof (pipe_len_nonneg x). lia. }
  apply wps_seq, wp_getpi. change (id x) with x. rewrite pipe_empty by done.
  destruct (bool_decide (pipe_len x = 0) && pi_writeopen x) eqn:Eb.
  - apply andb_true_iff in Eb as [He%bool_decide_eq_true%Hq Hw].
    apply wps_seq, wp_getp. change (proc_at pr (entered pi p)) with (proc_at pr p).
    destruct (Z.eqb_spec (p_killed (proc_at pr p)) 0) as [Hk|Hk]; cbn [negb].
    + apply (wps_pipe_sleep pi s pr root k0); [done|]. intros p' Hsl.
      destruct (procs_of_put pi s p' x) as [-> ->]. split_and!; try done. by eapply slept_asleep.
    + apply wps_wp, (wp_pipe_abort pi s pr root k0); [done|]. intros p' Hl.
      exists [], [], x. destruct (procs_of_put pi s p' x) as [-> ->].
      rewrite (lp_mem _ _ _ _ Hl). split_and!; [by apply moved_nil|done|by eapply left_calling| |].
      * apply (vm_inv_ext (ps_k p)); [apply Hl|apply Hl|done].
      * right. by split_and!.
  - assert (Hne : queue x <> [] \/ pi_writeopen x = false).
    { apply andb_false_iff in Eb as [Eb%bool_decide_eq_false|]; [left|by right]. by rewrite <- Hq. }
    apply wps_wp. mstep.
    apply (wp_piperead_copy pi s pr root k0 end_ end_pos own l roots lim Hroot Hul);
      [done|done|by apply (vm_inv_ext (ps_k p))|done|done|rewrite Z2Nat.id by done; lia|].
    rewrite Z2Nat.id, Z.add_0_r by done. intros d lost m' x' Hd Hm Hend Hvm'.
    apply (vm_inv_ext _ (set_kmem m' (ps_k p))) in Hvm'; [|done|done].
    apply (wp_pipe_leave pi s pr root k0); [by apply in_pipe_mem|]. intros p' Hl.
    exists d, lost, x'. destruct (procs_of_put pi s p' x') as [-> ->].
    rewrite (lp_mem _ _ _ _ Hl). split_and!; [done|done| |apply (vm_inv_ext (set_kmem m' (ps_k p))); [apply Hl|apply Hl|done]|].
    { by eapply left_calling. }
    left. split_and!; [done|lia|done|done|apply Hl].
Qed.
End syscalls.

(** ** Instances

    Process 0 with the small address space of VmUser, whose first page is mapped,
    and a pipe whose counters are about to wrap around. *)
Definition demo_procs : pst :=
  mk_pst (set_klk (mk_lks 0 true 0 true (Some 0%nat) ∅) demo)
    (set_p_pagetable demo_old (set_p_state RUNNING proc0) :: replicate 63 proc0) (Some 0%nat) 1 0.
Definition demo_pipe (n : Z) : pipe := mk_pipe (replicate 512 7) (2 ^ 32 - 2) (u32 (2 ^ 32 - 2 + n)) true true.
Definition demo_ppst (x : pipe) : ppst :=
  mk_ppst (mk_fsst (mk_lst (mk_bst (mk_sst demo_procs ∅) [] ∅ []) 0 0 0 false 0 0 [])
    (mk_superblock 0 0 0 0 0 0 0 0) []) {[ 4096 := x ]}.

Lemma demo_pipe_wf n : 0 <= n <= 512 -> pipe_wf (demo_pipe n).
Proof.
  intros Hn. split; cbn [demo_pipe pi_data pi_nread pi_nwrite].
  - by rewrite length_replicate.
  - apply Forall_replicate. unfold is_u8. lia.
  - unfold is_u32. lia.
  - unfold is_u32, u32. apply Z.mod_pos_bound. lia.
  - unfold pipe_len. cbn [demo_pipe pi_nread pi_nwrite]. unfold u32, PIPESIZE. divlia.
Qed.

Lemma demo_calling x : calling 0 demo_old (procs_of (demo_ppst x)).
Proof. by split. Qed.

Lemma set_klk_vm_inv end_ own l roots lk k :
  vm_inv end_ own l roots k -> vm_inv end_ own l roots (set_klk lk k).
Proof. by apply vm_inv_ext. Qed.

Lemma set_klk_mem lk k : k_mem (set_klk lk k) = k_mem k.
Proof. done. Qed.
Lemma demo_mem x : k_mem (ps_k (procs_of (demo_ppst x))) = k_mem demo.
Proof. exact (set_klk_mem _ demo). Qed.

Lemma demo_vm_inv own l roots x :
  vm_inv 2147483648 own l roots demo -> vm_inv 2147483648 own l roots (ps_k (procs_of (demo_ppst x))).
Proof. exact (set_klk_vm_inv _ _ _ _ _ demo). Qed.

Lemma pipewrite_refines_witness :
  wps (pipewrite 4096 4094 8)
    (fun r s' => exists x', pp_pipe s' = {[ 4096 := x' ]} /\ r <> -1 /\
       queue x' = ubytes (k_mem demo) demo_old 4094 (Z.to_nat r))
    (fun _ => False) (demo_ppst (demo_pipe 0)).
Proof.
  destruct demo_inv as (own & l & roots & Hvm & Hr & Hold & Hnew & _).
  assert (Hnf : forall m j x', written demo_old m 4094 j (demo_pipe 0) x' -> 0 <= j < 8 -> pipe_len x' <> PIPESIZE).
  { intros m j x' W Hj E. pose proof (f_equal length (wr_queue _ _ _ _ _ _ W)) as El.
    rewrite length_queue, E, length_app in El. unfold ubytes in El. rewrite length_fmap, length_zseq in El.
    change (length (queue (demo_pipe 0))) with 0%nat in El. unfold PIPESIZE in El. lia. }
  eapply wps_mono.
  - apply (pipewrite_refines 2147483648 ltac:(lia) own l roots 4096 0%nat demo_old TRAPFRAME 4094 8
             (demo_pipe 0) (demo_ppst (demo_pipe 0)));
      [apply demo_calling|apply (demo_vm_inv _ _ _ _ Hvm)|exact Hold|apply TRAPFRAME_ulimit
      |apply lookup_singleton_eq|apply demo_pipe_wf; lia|lia|lia|lia].
  - intros r s' (j & x' & W & Hj & E & _ & _ & H). exists x'.
    destruct H as [(-> & _)|(-> & Hj' & Hfull & _)]; [|by destruct (Hnf _ _ _ W); [lia|]].
    split_and!; [by rewrite E; cbn; rewrite insert_singleton_eq|lia|]. rewrite (wr_queue _ _ _ _ _ _ W), demo_mem. reflexivity.
  - intros s' (j & x' & W & Hj & Hfull & _). by destruct (Hnf _ _ _ W).
Defined.

Lemma piperead_refines_witness :
  wps (piperead 4096 4094 8)
    (fun r s' => exists x', pp_pipe s' = {[ 4096 := x' ]} /\ 0 <= r <= 8 /\
       exists lost, [7; 7; 7; 7] = replicate (Z.to_nat r) 7 ++ lost ++ queue x')
    (fun _ => False) (demo_ppst (demo_pipe 4)).
Proof.
  destruct demo_inv as (own & l & roots & Hvm & Hr & Hold & Hnew & _).
  assert (Eq : queue (demo_pipe 4) = [7; 7; 7; 7]) by (vm_compute; reflexivity).
  eapply wps_mono.
  - apply (piperead_refines 2147483648 ltac:(lia) own l roots 4096 0%nat demo_old TRAPFRAME 4094 8
             (demo_pipe 4) (demo_ppst (demo_pipe 4)));
      [apply demo_calling|apply (demo_vm_inv _ _ _ _ Hvm)|exact Hold|apply TRAPFRAME_ulimit
      |apply lookup_singleton_eq|apply demo_pipe_wf; lia|lia|lia|lia].
  - intros r s' (d & lost & x' & Hm & E & _ & _ & H). exists x'.
    destruct H as [(-> & Hle & _)|(_ & _ & _ & Hq & _)]; [|by rewrite Eq in Hq].
    split_and!; [by rewrite E; cbn; rewrite insert_singleton_eq|lia|lia|]. exists lost.
    pose proof (mv_queue _ _ _ _ _ _ _ _ _ Hm) as Hq. rewrite Eq in Hq.
    rewrite Nat2Z.id. rewrite Hq. f_equal.
    assert (Hall : Forall (eq 7) (d ++ lost ++ queue x')) by (rewrite <- Hq; by repeat constructor).
    apply Forall_app in Hall as [Hall _]. symmetry. by apply replicate_as_Forall.
  - intros s' (Hq & _). by rewrite Eq in Hq.
Defined.
