(* ===== verification/Uart.v ===== *)
(** * kernel/uart.c: the serial port

    The 16550 is a device with registers.  [uartdev] has its state: the bytes
    received and not read yet, how many more bytes it can take before it is
    busy, the bytes it was given to send, and the control registers.  uartintr
    is in Console.v, as it calls consoleintr. *)

From Stdlib Require Import ZArith Lia.
From stdpp Require Import base list gmap strings.
From S2P Require Import Prelude KString Spinlock Riscv Kalloc Vm Proc Sleeplock Bio Log Fs Pipe.

Record uartdev := mk_uartdev {
  u_in : list Z;  (* bytes received, the first one next in RHR *)
  u_room : nat;  (* bytes THR takes before it is busy *)
  u_out : list Z;  (* bytes sent *)
  u_ier : Z;
  u_fcr : Z;
  u_lcr : Z;
  u_dll : Z;  (* divisor latch *)
  u_dlm : Z;
}.

Definition set_u_in (x : list Z) (d : uartdev) : uartdev :=
  mk_uartdev x (u_room d) (u_out d) (u_ier d) (u_fcr d) (u_lcr d) (u_dll d) (u_dlm d).
Definition set_u_room (x : nat) (d : uartdev) : uartdev :=
  mk_uartdev (u_in d) x (u_out d) (u_ier d) (u_fcr d) (u_lcr d) (u_dll d) (u_dlm d).
Definition set_u_out (x : list Z) (d : uartdev) : uartdev :=
  mk_uartdev (u_in d) (u_room d) x (u_ier d) (u_fcr d) (u_lcr d) (u_dll d) (u_dlm d).
Definition set_u_ier (x : Z) (d : uartdev) : uartdev :=
  mk_uartdev (u_in d) (u_room d) (u_out d) x (u_fcr d) (u_lcr d) (u_dll d) (u_dlm d).
Definition set_u_fcr (x : Z) (d : uartdev) : uartdev :=
  mk_uartdev (u_in d) (u_room d) (u_out d) (u_ier d) x (u_lcr d) (u_dll d) (u_dlm d).
Definition set_u_lcr (x : Z) (d : uartdev) : uartdev :=
  mk_uartdev (u_in d) (u_room d) (u_out d) (u_ier d) (u_fcr d) x (u_dll d) (u_dlm d).
Definition set_u_dll (x : Z) (d : uartdev) : uartdev :=
  mk_uartdev (u_in d) (u_room d) (u_out d) (u_ier d) (u_fcr d) (u_lcr d) x (u_dlm d).
Definition set_u_dlm (x : Z) (d : uartdev) : uartdev :=
  mk_uartdev (u_in d) (u_room d) (u_out d) (u_ier d) (u_fcr d) (u_lcr d) (u_dll d) x.

Record utst := mk_utst {
  ut_pp : ppst;
  ut_dev : uartdev;
  ut_buf : list Z;  (* uart_tx_buf *)
  ut_w : Z;  (* uart_tx_w *)
  ut_r : Z;  (* uart_tx_r *)
  ut_panicked : bool;  (* panicked, of printf.c *)
}.

Definition set_ut_pp (x : ppst) (s : utst) : utst :=
  mk_utst x (ut_dev s) (ut_buf s) (ut_w s) (ut_r s) (ut_panicked s).
Definition set_ut_dev (x : uartdev) (s : utst) : utst :=
  mk_utst (ut_pp s) x (ut_buf s) (ut_w s) (ut_r s) (ut_panicked s).
Definition set_ut_buf (x : list Z) (s : utst) : utst :=
  mk_utst (ut_pp s) (ut_dev s) x (ut_w s) (ut_r s) (ut_panicked s).
Definition set_ut_w (x : Z) (s : utst) : utst :=
  mk_utst (ut_pp s) (ut_dev s) (ut_buf s) x (ut_r s) (ut_panicked s).
Definition set_ut_r (x : Z) (s : utst) : utst :=
  mk_utst (ut_pp s) (ut_dev s) (ut_buf s) (ut_w s) x (ut_panicked s).
Definition set_ut_panicked (x : bool) (s : utst) : utst :=
  mk_utst (ut_pp s) (ut_dev s) (ut_buf s) (ut_w s) (ut_r s) x.

#[global] Instance lens_ut_pp : Lens utst ppst.
Proof. by exists ut_pp set_ut_pp; intros; destruct s. Defined.
#[global] Instance lens_ut_fs : Lens utst fsst := lens_trans lens_ut_pp lens_pp_fs.
#[global] Instance lens_ut_l : Lens utst lst := lens_trans lens_ut_pp lens_pp_l.
#[global] Instance lens_ut_p : Lens utst pst := lens_trans lens_ut_pp lens_pp_p.
#[global] Instance lens_ut_k : Lens utst kmst := lens_trans lens_ut_pp lens_pp_k.
#[global] Instance lens_ut_lk : Lens utst lks := lens_trans lens_ut_pp lens_pp_lk.

Definition uart_tx_lock : lockid := ("uart"%string, 0).
Definition uart_tx_chan : chanid := ("uart_tx_r"%string, 0).

Definition THR : Z := 0.
Definition RHR : Z := 0.
Definition IER : Z := 1.
Definition IER_TX_ENABLE : Z := 1.
Definition IER_RX_ENABLE : Z := 2.
Definition FCR : Z := 2.
Definition FCR_FIFO_ENABLE : Z := 1.
Definition FCR_FIFO_CLEAR : Z := 6.
Definition LCR : Z := 3.
Definition LCR_EIGHT_BITS : Z := 3.
Definition LCR_BAUD_LATCH : Z := 128.
Definition LSR : Z := 5.
Definition LSR_RX_READY : Z := 1.
Definition LSR_TX_IDLE : Z := 32.
Definition UART_TX_BUF_SIZE : Z := 32.

(** ** The registers *)

Definition latched (d : uartdev) : bool := Z.testbit (u_lcr d) 7.

(** Writing THR sends a byte; with the baud latch set, registers 0 and 1 are
    the divisor. *)
Definition dev_write (reg v : Z) (d : uartdev) : uartdev :=
  if reg =? 0 then
    if latched d then set_u_dll v d
    else set_u_out (u_out d ++ [u8 v]) (set_u_room (pred (u_room d)) d)
  else if reg =? 1 then (if latched d then set_u_dlm v d else set_u_ier v d)
  else if reg =? 2 then set_u_fcr v d
  else if reg =? 3 then set_u_lcr v d
  else d.

Definition lsr (d : uartdev) : Z :=
  Z.lor (if decide (u_in d = []) then 0 else LSR_RX_READY)
        (if decide (u_room d = O) then 0 else LSR_TX_IDLE).

Definition WriteReg (reg v : Z) : M utst unit := modify (fun s => set_ut_dev (dev_write reg v (ut_dev s)) s).
Definition ReadLSR : M utst Z := gets (fun s => lsr (ut_dev s)).
(** Reading RHR takes the next byte. *)
Definition ReadRHR : M utst Z :=
  d ← gets ut_dev;
  modify (set_ut_dev (set_u_in (tail (u_in d)) d));;
  mret (default 0 (head (u_in d))).

Definition uartinit : M utst unit :=
  WriteReg IER 0;;
  WriteReg LCR LCR_BAUD_LATCH;;
  WriteReg 0 3;;
  WriteReg 1 0;;
  WriteReg LCR LCR_EIGHT_BITS;;
  WriteReg FCR (Z.lor FCR_FIFO_ENABLE FCR_FIFO_CLEAR);;
  WriteReg IER (Z.lor IER_TX_ENABLE IER_RX_ENABLE);;
  ↑ initlock uart_tx_lock.

(** The buffer holds fewer than UART_TX_BUF_SIZE bytes, each of which one
    iteration removes. *)
Fixpoint uartstart_loop (fuel : nat) : M utst unit :=
  w ← gets ut_w;
  r ← gets ut_r;
  if w =? r then mret tt else
  x ← ReadLSR;
  if Z.land x LSR_TX_IDLE =? 0 then mret tt else
  match fuel with
  | O => out_of_fuel
  | S fuel' =>
      c ← gets (fun s => default 0 (zlookup (ut_buf s) r));
      modify (set_ut_r ((r + 1) mod UART_TX_BUF_SIZE));;
      ↑ wakeup uart_tx_chan;;
      WriteReg THR c;;
      uartstart_loop fuel'
  end.

Definition uartstart : M utst unit := uartstart_loop 32.

(** The loop of uartputc. *)
Definition uartputc_loop (c : Z) : M utst unit :=
  w ← gets ut_w;
  r ← gets ut_r;
  if (w + 1) mod UART_TX_BUF_SIZE =? r then ↑ sleep uart_tx_chan uart_tx_lock
  else
    modify (fun s => set_ut_buf (zinsert w (u8 c) (ut_buf s)) s);;
    modify (set_ut_w ((w + 1) mod UART_TX_BUF_SIZE));;
    uartstart;;
    ↑ release uart_tx_lock.

Definition uartputc (c : Z) : M utst unit :=
  ↑ acquire uart_tx_lock;;
  panicked ← gets ut_panicked;
  if (panicked : bool) then spin else uartputc_loop c.

Definition uartputc_back (c : Z) : M utst unit :=
  ↑ sleep_back uart_tx_lock;;
  uartputc_loop c.

(** The busy-wait ends when the UART can take a byte. *)
Definition uart_wait : M utst unit :=
  modify (fun s => set_ut_dev (set_u_room (Nat.max 1 (u_room (ut_dev s))) (ut_dev s)) s).

Definition uartputc_sync (c : Z) : M utst unit :=
  ↑ push_off;;
  panicked ← gets ut_panicked;
  if (panicked : bool) then spin else
  uart_wait;;
  WriteReg THR c;;
  ↑ pop_off.

Definition uartgetc : M utst Z :=
  x ← ReadLSR;
  if negb (Z.land x 1 =? 0) then ReadRHR else mret (-1).
