(* ===== verification/Console.v ===== *)
(** * kernel/console.c and kernel/printf.c: the console

    Input of the console with line editing, output to it, and the kernel's
    printf; also procdump of kernel/proc.c and uartintr of kernel/uart.c, which
    print and feed the console.  A call of printf is a list of the characters
    that it hands to consputc, one by one. *)

From Stdlib Require Import ZArith Lia Ascii.
From stdpp Require Import base list gmap strings.
From S2P Require Import Prelude KString Spinlock Riscv Kalloc Vm Proc Sleeplock Bio Log Fs Pipe Uart.

Record cnst := mk_cnst {
  cn_u : utst;
  cn_buf : list Z;  (* cons.buf *)
  cn_r : Z;  (* read index *)
  cn_w : Z;  (* write index *)
  cn_e : Z;  (* edit index *)
  cn_locking : bool;  (* pr.locking *)
  cn_devsw : bool;  (* devsw[CONSOLE] has been set *)
}.

Definition set_cn_u (x : utst) (s : cnst) : cnst :=
  mk_cnst x (cn_buf s) (cn_r s) (cn_w s) (cn_e s) (cn_locking s) (cn_devsw s).
Definition set_cn_buf (x : list Z) (s : cnst) : cnst :=
  mk_cnst (cn_u s) x (cn_r s) (cn_w s) (cn_e s) (cn_locking s) (cn_devsw s).
Definition set_cn_r (x : Z) (s : cnst) : cnst :=
  mk_cnst (cn_u s) (cn_buf s) x (cn_w s) (cn_e s) (cn_locking s) (cn_devsw s).
Definition set_cn_w (x : Z) (s : cnst) : cnst :=
  mk_cnst (cn_u s) (cn_buf s) (cn_r s) x (cn_e s) (cn_locking s) (cn_devsw s).
Definition set_cn_e (x : Z) (s : cnst) : cnst :=
  mk_cnst (cn_u s) (cn_buf s) (cn_r s) (cn_w s) x (cn_locking s) (cn_devsw s).
Definition set_cn_locking (x : bool) (s : cnst) : cnst :=
  mk_cnst (cn_u s) (cn_buf s) (cn_r s) (cn_w s) (cn_e s) x (cn_devsw s).
Definition set_cn_devsw (x : bool) (s : cnst) : cnst :=
  mk_cnst (cn_u s) (cn_buf s) (cn_r s) (cn_w s) (cn_e s) (cn_locking s) x.

#[global] Instance lens_cn_u : Lens cnst utst.
Proof. by exists cn_u set_cn_u; intros; destruct s. Defined.
#[global] Instance lens_cn_pp : Lens cnst ppst := lens_trans lens_cn_u lens_ut_pp.
#[global] Instance lens_cn_fs : Lens cnst fsst := lens_trans lens_cn_u lens_ut_fs.
#[global] Instance lens_cn_l : Lens cnst lst := lens_trans lens_cn_u lens_ut_l.
#[global] Instance lens_cn_p : Lens cnst pst := lens_trans lens_cn_u lens_ut_p.
#[global] Instance lens_cn_k : Lens cnst kmst := lens_trans lens_cn_u lens_ut_k.
#[global] Instance lens_cn_lk : Lens cnst lks := lens_trans lens_cn_u lens_ut_lk.

Definition cons_lock : lockid := ("cons"%string, 0).
Definition pr_lock : lockid := ("pr"%string, 0).
Definition cons_chan : chanid := ("cons.r"%string, 0).

Definition BACKSPACE : Z := 256.
Definition INPUT_BUF : Z := 128.
(** Control-x *)
Definition CTRL_D : Z := 4.
Definition CTRL_H : Z := 8.
Definition CTRL_P : Z := 16.
Definition CTRL_U : Z := 21.
Definition DEL : Z := 127.

Definition consputc (c : Z) : M cnst unit :=
  if c =? BACKSPACE then
    ↑ uartputc_sync 8;; ↑ uartputc_sync 32;; ↑ uartputc_sync 8
  else ↑ uartputc_sync c.

(** ** printf *)

Definition digits : list Z := str "0123456789abcdef".

(** The do-while loop of printint: the digits of x, the lowest first.  A 32-bit
    number has at most 32 digits in any base. *)
Fixpoint digits_loop (fuel : nat) (x base : Z) : list Z :=
  match fuel with
  | O => []
  | S fuel' =>
      default 0 (zlookup digits (x mod base)) ::
      (if x / base =? 0 then [] else digits_loop fuel' (x / base) base)
  end.

Definition printint (xx base : Z) (sign : bool) : list Z :=
  let neg := sign && (xx <? 0) in
  let x := if neg then u32 (- xx) else u32 xx in
  let buf := digits_loop 32 x base ++ (if neg then [45] else []) in
  reverse buf.

Fixpoint printptr_loop (k : nat) (x : Z) : list Z :=
  match k with
  | O => []
  | S k' => default 0 (zlookup digits (Z.shiftr x 60)) :: printptr_loop k' (u64 (Z.shiftl x 4))
  end.
Definition printptr (x : Z) : list Z := [48; 120] ++ printptr_loop 16 x.

(** An argument of printf: a number, or a string that may be null. *)
Inductive arg := AInt (x : Z) | AStr (s : option (list Z)).
Definition va_int (a : option arg) : Z := match a with Some (AInt x) => i32 x | _ => 0 end.
Definition va_u64 (a : option arg) : Z := match a with Some (AInt x) => u64 x | _ => 0 end.
Definition va_str (a : option arg) : option (list Z) := match a with Some (AStr s) => s | _ => None end.

Fixpoint printf_chars (fmt : list Z) (args : list arg) : list Z :=
  match fmt with
  | [] => []
  | c :: fmt' =>
      if negb (c =? 37) then c :: printf_chars fmt' args else
      match fmt' with
      | [] => []
      | c :: fmt'' =>
          if c =? 100 then printint (va_int (head args)) 10 true ++ printf_chars fmt'' (tail args)
          else if c =? 120 then printint (va_int (head args)) 16 true ++ printf_chars fmt'' (tail args)
          else if c =? 112 then printptr (va_u64 (head args)) ++ printf_chars fmt'' (tail args)
          else if c =? 115 then default (str "(null)") (va_str (head args)) ++ printf_chars fmt'' (tail args)
          else if c =? 37 then 37 :: printf_chars fmt'' args
          else 37 :: c :: printf_chars fmt'' args
      end
  end.

Definition put_all (l : list Z) : M cnst unit :=
  for_each l (fun c => consputc c;; mret (None : option unit));;
  mret tt.

Definition printf (fmt : list Z) (args : list arg) : M cnst unit :=
  locking ← gets cn_locking;
  when locking (↑ acquire pr_lock);;
  put_all (printf_chars fmt args);;
  when locking (↑ release pr_lock).

(** panic(): prints the message and stops this CPU.  (Elsewhere, a call of panic
    is the outcome [Panic].) *)
Definition kpanic (s : list Z) : M cnst unit :=
  modify (set_cn_locking false);;
  printf (str "panic: ") [];;
  printf s [];;
  printf [newline] [];;
  ↑ modify (set_ut_panicked true);;
  spin.

Definition printfinit : M cnst unit :=
  ↑ initlock pr_lock;;
  modify (set_cn_locking true).

Definition state_name (st : procstate) : list Z :=
  match st with
  | UNUSED => str "unused"
  | SLEEPING => str "sleep "
  | RUNNABLE => str "runble"
  | RUNNING => str "run   "
  | ZOMBIE => str "zombie"
  end.

Definition procdump : M cnst unit :=
  printf [newline] [];;
  for_each (seq 0 NPROC) (fun i =>
    p ← ↑ getp i id;
    if bool_decide (p_state p = UNUSED) then mret (None : option unit) else
    printf (str "%d %s %s") [AInt (p_pid p); AStr (Some (state_name (p_state p)));
                             AStr (Some (until_nul (p_name p)))];;
    printf [newline] [];;
    mret None);;
  mret tt.

(** ** Reading and writing *)

(** The loop of consolewrite from byte [i] on, with [k] bytes left. *)
Fixpoint consolewrite_loop (k : nat) (src : source) (i : Z) : M cnst Z :=
  match k with
  | O => mret i
  | S k' =>
      '(r, bs) ← ↑ either_copyin src 1;
      if r =? -1 then mret i else
      ↑ uartputc (default 0 (head bs));;
      consolewrite_loop k' (source_plus src 1) (i + 1)
  end.

Definition consolewrite (src : source) (n : Z) : M cnst Z :=
  ↑ acquire cons_lock;;
  i ← consolewrite_loop (Z.to_nat n) src 0;
  ↑ release cons_lock;;
  mret i.

(** cons.buf[i % INPUT_BUF] *)
Definition cons_get (i : Z) (s : cnst) : Z := default 0 (zlookup (cn_buf s) (i mod INPUT_BUF)).

(** The outer loop of consoleread, with [n] bytes still to be read; the bytes
    copied so far are [got]. *)
Fixpoint consoleread_loop (k : nat) (dst : dest) (target n : Z) (got : list Z) : M cnst (Z * list Z) :=
  let done n got := ↑ release cons_lock;; mret (i32 (target - n), got) in
  match k with
  | O => done n got
  | S k' =>
      r ← gets cn_r;
      w ← gets cn_w;
      if r =? w then
        p ← ↑ curproc;
        killed ← ↑ getp p p_killed;
        if negb (killed =? 0) then ↑ release cons_lock;; mret (-1, got)
        else ↑ sleep cons_chan cons_lock;; mret (0, got)
      else
        c ← gets (cons_get r);
        modify (set_cn_r (u32 (r + 1)));;
        if c =? CTRL_D then
          when (u32 n <? target) (modify (fun s => set_cn_r (u32 (cn_r s - 1)) s));;
          done n got
        else
          x ← ↑ either_copyout dst [c] 1;
          if x =? -1 then done n got
          else if c =? newline then done (n - 1) (got ++ [c])
          else consoleread_loop k' (dest_plus dst 1) target (n - 1) (got ++ [c])
  end.

Definition consoleread (dst : dest) (n : Z) : M cnst (Z * list Z) :=
  ↑ acquire cons_lock;;
  consoleread_loop (Z.to_nat n) dst (u32 n) n [].

(** After a wakeup, with the locals [dst], [target], [n] and [got]. *)
Definition consoleread_back (dst : dest) (target n : Z) (got : list Z) : M cnst (Z * list Z) :=
  ↑ sleep_back cons_lock;;
  consoleread_loop (Z.to_nat n) dst target n got.

(** ** Input *)

(** Kill line: back to the last newline, or to cons.w.  Each round decrements
    cons.e, which is at most INPUT_BUF after cons.w. *)
Fixpoint kill_line (fuel : nat) : M cnst unit :=
  e ← gets cn_e;
  w ← gets cn_w;
  if e =? w then mret tt else
  c ← gets (cons_get (u32 (e - 1)));
  if c =? newline then mret tt else
  match fuel with
  | O => out_of_fuel
  | S fuel' =>
      modify (set_cn_e (u32 (e - 1)));;
      consputc BACKSPACE;;
      kill_line fuel'
  end.

Definition consoleintr (c : Z) : M cnst unit :=
  ↑ acquire cons_lock;;
  (if c =? CTRL_P then procdump
   else if c =? CTRL_U then kill_line 128
   else if (c =? CTRL_H) || (c =? DEL) then
     e ← gets cn_e;
     w ← gets cn_w;
     when (negb (e =? w))
       (modify (set_cn_e (u32 (e - 1)));;
        consputc BACKSPACE)
   else
     e ← gets cn_e;
     r ← gets cn_r;
     when (negb (c =? 0) && (u32 (e - r) <? INPUT_BUF))
       (let c := if c =? 13 then newline else c in
        consputc c;;
        modify (fun s => set_cn_buf (zinsert (e mod INPUT_BUF) (u8 c) (cn_buf s)) s);;
        modify (set_cn_e (u32 (e + 1)));;
        when ((c =? newline) || (c =? CTRL_D) || (u32 (e + 1) =? u32 (r + INPUT_BUF)))
          (modify (set_cn_w (u32 (e + 1)));;
           ↑ wakeup cons_chan)));;
  ↑ release cons_lock.

(** The while loop of uartintr. *)
Fixpoint uartintr_loop (fuel : nat) : M cnst unit :=
  c ← ↑ uartgetc;
  if c =? -1 then mret tt else
  match fuel with
  | O => out_of_fuel
  | S fuel' => consoleintr c;; uartintr_loop fuel'
  end.

Definition uartintr : M cnst unit :=
  n ← gets (fun s => length (u_in (ut_dev (cn_u s))));
  uartintr_loop n;;
  ↑ acquire uart_tx_lock;;
  ↑ uartstart;;
  ↑ release uart_tx_lock.

Definition consoleinit : M cnst unit :=
  ↑ initlock cons_lock;;
  ↑ uartinit;;
  modify (set_cn_devsw true).
