(* ===== verification/ConsoleProofs.v ===== *)
(** * kernel/uart.c, kernel/console.c and kernel/printf.c

    The transmit ring of the UART driver is a queue: what consolewrite accepts is
    sent byte by byte in order.  consolewrite keeps cons.lock while uartputc may
    sleep, so a write that overruns the ring makes sched() panic. *)

From Stdlib Require Import ZArith Lia.
From stdpp Require Import base list gmap strings.
From S2P Require Import Prelude KString Spinlock Riscv Kalloc Vm VmInv VmProofs VmUser VmCopy Proc Sleeplock Bio Log Fs Pipe PipeProofs Uart Console.

(** ** The transmit ring *)

(** How many bytes wait in the ring, and which. *)
Definition tx_len (u : utst) : Z := (ut_w u - ut_r u) mod UART_TX_BUF_SIZE.
Definition tx_queue (u : utst) : list Z :=
  ring UART_TX_BUF_SIZE (ut_buf u) (ut_r u) (Z.to_nat (tx_len u)).
(** What has been or will be sent. *)
Definition tx_stream (u : utst) : list Z := u_out (ut_dev u) ++ tx_queue u.
(** The free places in the ring and in the device. *)
Definition tx_free (u : utst) : Z := Z.of_nat (u_room (ut_dev u)) + (UART_TX_BUF_SIZE - 1) - tx_len u.
(** How many more bytes uartputc takes before it sleeps, if the device sends none
    but those that it has room for now; a full ring is not looked into. *)
Definition tx_room (u : utst) : Z := if decide (tx_len u = UART_TX_BUF_SIZE - 1) then 0 else tx_free u.

Record tx_wf (u : utst) : Prop := {
  tx_buf : length (ut_buf u) = Z.to_nat UART_TX_BUF_SIZE;
  tx_bytes : Forall is_u8 (ut_buf u);
  tx_w : 0 <= ut_w u < UART_TX_BUF_SIZE;
  tx_r : 0 <= ut_r u < UART_TX_BUF_SIZE;
  tx_latch : latched (ut_dev u) = false;
}.

Lemma tx_len_range u : 0 <= tx_len u < UART_TX_BUF_SIZE.
Proof. by apply Z.mod_pos_bound. Qed.

Lemma tx_full u : tx_wf u ->
  ((ut_w u + 1) mod UART_TX_BUF_SIZE =? ut_r u) = bool_decide (tx_len u = UART_TX_BUF_SIZE - 1).
Proof.
  intros [_ _ H1 H2 _]. unfold tx_len, UART_TX_BUF_SIZE in *.
  destruct (Z.eqb_spec ((ut_w u + 1) mod 32) (ut_r u));
    symmetry; [apply bool_decide_true|apply bool_decide_false]; divlia.
Qed.

Lemma tx_empty u : tx_wf u -> (ut_w u =? ut_r u) = bool_decide (tx_len u = 0).
Proof.
  intros [_ _ H1 H2 _]. unfold tx_len, UART_TX_BUF_SIZE in *.
  destruct (Z.eqb_spec (ut_w u) (ut_r u));
    symmetry; [apply bool_decide_true|apply bool_decide_false]; divlia.
Qed.

(** uart_tx_buf[uart_tx_w] = c; uart_tx_w = ... *)
Definition tx_put (c : Z) (u : utst) : utst :=
  set_ut_w ((ut_w u + 1) mod UART_TX_BUF_SIZE) (set_ut_buf (zinsert (ut_w u) (u8 c) (ut_buf u)) u).
(** One round of uartstart. *)
Definition tx_send (u : utst) : utst :=
  set_ut_dev (dev_write THR (default 0 (zlookup (ut_buf u) (ut_r u))) (ut_dev u))
    (set_ut_r ((ut_r u + 1) mod UART_TX_BUF_SIZE) u).

Lemma tx_put_stream c u :
  tx_wf u -> tx_len u <> UART_TX_BUF_SIZE - 1 ->
  tx_wf (tx_put c u) /\ tx_stream (tx_put c u) = tx_stream u ++ [u8 c] /\
  tx_free (tx_put c u) = tx_free u - 1.
Proof.
  intros [H1 Hb H2 H3 H4] Hlt. pose proof (tx_len_range u) as Hn.
  assert (El : tx_len (tx_put c u) = tx_len u + 1).
  { unfold tx_len. cbn. unfold tx_len, UART_TX_BUF_SIZE in *. divlia. }
  split_and!.
  - split; cbn; try done.
    + by rewrite length_zinsert.
    + apply Forall_zinsert; [done|apply u8_range].
    + unfold UART_TX_BUF_SIZE. apply Z.mod_pos_bound. lia.
  - unfold tx_stream. rewrite <- app_assoc. f_equal. unfold tx_queue. rewrite El.
    replace (Z.to_nat (tx_len u + 1)) with (S (Z.to_nat (tx_len u))) by lia.
    rewrite <- (ring_insert UART_TX_BUF_SIZE (ut_buf u) (ut_r u) (Z.to_nat (tx_len u))) by (done || lia).
    assert (Ei : ut_w u = (ut_r u + Z.of_nat (Z.to_nat (tx_len u))) mod UART_TX_BUF_SIZE)
      by (unfold tx_len, UART_TX_BUF_SIZE in *; divlia).
    by rewrite <- Ei.
  - unfold tx_free. rewrite El. cbn. lia.
Qed.

Lemma tx_send_stream u :
  tx_wf u -> tx_len u <> 0 -> u_room (ut_dev u) <> 0%nat ->
  tx_wf (tx_send u) /\ tx_stream (tx_send u) = tx_stream u /\ tx_free (tx_send u) = tx_free u /\
  tx_len (tx_send u) = tx_len u - 1.
Proof.
  intros [H1 Hb H2 H3 H4] Hne Hroom. pose proof (tx_len_range u) as Hn.
  assert (El : tx_len (tx_send u) = tx_len u - 1).
  { unfold tx_len. cbn. unfold tx_len, UART_TX_BUF_SIZE in *. divlia. }
  set (c := default 0 (zlookup (ut_buf u) (ut_r u))).
  assert (Hc : u8 c = c).
  { apply u8_small. unfold c, zlookup. rewrite (proj2 (Z.leb_le 0 _)) by lia.
    destruct (ut_buf u !! _) as [b|] eqn:E; cbn; [|unfold is_u8; lia].
    by eapply (Forall_lookup_1 _ _ _ _ Hb). }
  assert (Ed : dev_write THR c (ut_dev u) =
    set_u_out (u_out (ut_dev u) ++ [c]) (set_u_room (pred (u_room (ut_dev u))) (ut_dev u))).
  { unfold dev_write. change (THR =? 0) with true. cbn iota. by rewrite H4, Hc. }
  assert (Es : tx_send u = set_ut_dev (dev_write THR c (ut_dev u)) (set_ut_r ((ut_r u + 1) mod UART_TX_BUF_SIZE) u)) by done.
  rewrite Ed in Es. split_and!; [..|done].
  - rewrite Es. split; cbn; try done. unfold UART_TX_BUF_SIZE. apply Z.mod_pos_bound. lia.
  - unfold tx_stream, tx_queue. rewrite El, Es. cbn. rewrite <- app_assoc. f_equal.
    replace (Z.to_nat (tx_len u)) with (S (Z.to_nat (tx_len u - 1))) by lia.
    rewrite ring_cons, (Z.mod_small (ut_r u)) by done. cbn. f_equal. apply ring_mod; [done|].
    unfold UART_TX_BUF_SIZE. divlia.
  - unfold tx_free. rewrite El, Es. cbn. lia.
Qed.

(** ** The driver *)

Definition procs_u (u : utst) : pst := lget (Lens := lens_ut_p) u.

(** Only the ring, the device and which processes sleep may change. *)
Record tx_le (u u' : utst) : Prop := {
  tl_wf : tx_wf u';
  tl_procs : pst_le (procs_u u) (procs_u u');
  tl_rest : ut_pp u' = lset (Lens := lens_pp_p) (procs_u u') (ut_pp u);
  tl_panicked : ut_panicked u' = ut_panicked u;
}.

Lemma tx_le_refl u : tx_wf u -> tx_le u u.
Proof. intros. split; try done. symmetry. apply (lset_lget (Lens := lens_pp_p)). Qed.

Lemma tx_le_trans u1 u2 u3 : tx_le u1 u2 -> tx_le u2 u3 -> tx_le u1 u3.
Proof.
  intros [_ P1 R1 K1] [W2 P2 R2 K2]. split; [done|by etrans| |by etrans].
  rewrite R2, R1. apply (lset_lset (Lens := lens_pp_p)).
Qed.

(** A lock is held, and none of the process table. *)
Definition busy_cpu (p : pst) : Prop :=
  intr_wf (k_lk (ps_k p)) /\ proc_locks_free (k_lk (ps_k p)) /\ length (ps_proc p) = NPROC.

Lemma busy_cpu_le p p' : busy_cpu p -> pst_le p p' -> busy_cpu p'.
Proof.
  intros (H1 & H2 & H3) Hle. pose proof (pl_lk _ _ Hle) as E. split_and!; [by rewrite E|by rewrite E|].
  rewrite <- H3. symmetry. eapply Forall2_length, Hle.
Qed.

Lemma lsr_idle d : (Z.land (lsr d) LSR_TX_IDLE =? 0) = bool_decide (u_room d = 0%nat).
Proof.
  unfold lsr. case_bool_decide as Hr; [rewrite (decide_True _ _ Hr)|rewrite (decide_False _ _ Hr)];
    by destruct (decide (u_in d = [])).
Qed.

Lemma wp_uartstart_loop (Q : unit -> utst -> Prop) : forall fuel u,
  busy_cpu (procs_u u) -> tx_wf u -> tx_len u <= Z.of_nat fuel ->
  (forall u', tx_le u u' -> tx_stream u' = tx_stream u -> tx_free u' = tx_free u ->
     tx_len u' = 0 \/ u_room (ut_dev u') = 0%nat -> Q tt u') ->
  wp (uartstart_loop fuel) Q u.
Proof.
  induction fuel as [|fuel IH]; intros u Hb Hu Hf HQ; cbn [uartstart_loop]; bsteps.
  all: rewrite tx_empty by done; case_bool_decide as He;
    [mstep; apply HQ; [by apply tx_le_refl|done|done|by left]|].
  { pose proof (tx_len_range u). lia. }
  unfold ReadLSR. bsteps. rewrite lsr_idle. case_bool_decide as Hr.
  { mstep. apply HQ; [by apply tx_le_refl|done|done|by right]. }
  bsteps. apply wp_zoom. destruct Hb as (B1 & B2 & B3).
  apply wp_wakeup; [done|done|done|]. intros p' Hle _. unfold WriteReg. bsteps.
  set (u1 := lset (Lens := lens_ut_p) p' u).
  assert (Hw1 : tx_wf u1) by by destruct Hu.
  destruct (tx_send_stream u1 Hw1 He Hr) as (S1 & S2 & S3 & S4).
  assert (Hle1 : tx_le u (tx_send u1)) by by split.
  apply (IH (tx_send u1)); [by eapply busy_cpu_le|done| |].
  - rewrite S4. change (tx_len u1) with (tx_len u). lia.
  - intros u' Hle' E1 E2 E3. apply HQ; [by eapply tx_le_trans|by rewrite E1, S2|by rewrite E2, S3|done].
Qed.

(** uartputc when the ring is not full. *)
Lemma wp_uartputc c (Q : unit -> utst -> Prop) u :
  let k := k_lk (ps_k (procs_u u)) in
  intr_wf k -> proc_locks_free k -> is_free k uart_tx_lock -> length (ps_proc (procs_u u)) = NPROC ->
  ut_panicked u = false -> tx_wf u -> tx_len u <> UART_TX_BUF_SIZE - 1 ->
  (forall u', tx_le u u' -> tx_stream u' = tx_stream u ++ [u8 c] -> tx_room u' = tx_room u - 1 -> Q tt u') ->
  wp (uartputc c) Q u.
Proof.
  intros k Hwf Hpf Hf Hlen Hnp Hu Hnf HQ. unfold uartputc. mstep.
  apply wp_lock; [done|]. set (u0 := lset _ u). mstep. mstep.
  change (ut_panicked u0) with (ut_panicked u). rewrite Hnp.
  unfold uartputc_loop. bsteps. change (ut_w u0) with (ut_w u). change (ut_r u0) with (ut_r u).
  rewrite tx_full by done. rewrite bool_decide_false by done. bsteps.
  destruct (tx_put_stream c u Hu Hnf) as (P1 & P2 & P3).
  assert (Hu1 : tx_wf (tx_put c u0)) by by destruct P1.
  assert (Hb : busy_cpu (procs_u (tx_put c u0))).
  { split_and!; [by apply locked_by_wf| |done]. intros i. apply locked_by_free; [done|apply Hpf]. }
  apply wp_uartstart_loop; [exact Hb|exact Hu1|exact (Z.lt_le_incl _ _ (proj2 (tx_len_range (tx_put c u0))))|].
  intros u' Hle E1 E2 E3. pose proof (pl_lk _ _ (tl_procs _ _ Hle)) as Elk.
  eapply wp_unlock; [exact Hwf|exact Hf|exact Elk|].
  set (u2 := lset (settle k) u').
  assert (Hle2 : tx_le u u2).
  { destruct Hle as [W P R K]. split; [by destruct W| | |done].
    2:{ change (ut_pp u2) with (lset (Lens := lens_pp_lk) (settle k) (ut_pp u')). by rewrite R at 1. }
    destruct P as [Q1 Q2 Q3 Q4 Q5 Q6 Q7]. split; try done. apply settle_eqv. }
  apply HQ; [done| |].
  - change (tx_stream u2) with (tx_stream u'). rewrite E1. exact P2.
  - change (tx_room u2) with (tx_room u'). unfold tx_room at 2. rewrite decide_False by done.
    assert (Ef : tx_free u' = tx_free (tx_put c u)) by exact E2. rewrite <- P3, <- Ef.
    unfold tx_room. case_decide as Hl; [|done]. unfold tx_free. unfold UART_TX_BUF_SIZE in *. lia.
Qed.

(** ** consolewrite *)

Definition procs_c (s : cnst) : pst := lget (Lens := lens_cn_p) s.

(** What a call of consolewrite relies on: process [pr] with the page table [root]
    runs, holding cons.lock, which it took in [k0]. *)
Record in_cons (pr : nat) (root : Z) (k0 : lks) (s : cnst) : Prop := {
  ic_wf : intr_wf k0;
  ic_noff : noff k0 = 0;
  ic_locks : locks k0 = ∅;
  ic_cproc : cproc k0 = Some pr;
  ic_lk : k_lk (ps_k (procs_c s)) = locked_by cons_lock k0;
  ic_len : length (ps_proc (procs_c s)) = NPROC;
  ic_running : p_state (proc_at pr (procs_c s)) = RUNNING;
  ic_root : p_pagetable (proc_at pr (procs_c s)) = root;
  ic_panicked : ut_panicked (cn_u s) = false;
  ic_tx : tx_wf (cn_u s);
}.

Lemma in_cons_le pr root k0 s u' :
  in_cons pr root k0 s -> tx_le (cn_u s) u' ->
  in_cons pr root k0 (set_cn_u u' s) /\ k_mem (ps_k (procs_u u')) = k_mem (ps_k (procs_c s)) /\
  k_freelist (ps_k (procs_u u')) = k_freelist (ps_k (procs_c s)).
Proof.
  intros [H1 H2 H3 H4 H5 H6 H7 H8 H9 H10] [W P R K].
  assert (Hp : ps_proc (procs_u u') !! pr = Some (proc_at pr (procs_c s))).
  { destruct (ps_proc (procs_c s) !! pr) as [q|] eqn:E.
    - assert (Eq : proc_at pr (procs_c s) = q) by (unfold proc_at; by rewrite E).
      rewrite Eq in *. eapply woken_lookup; [apply (pl_proc _ _ P)|exact E|by rewrite H7].
    - unfold proc_at in H7. by rewrite E in H7. }
  split; [|by destruct P]. split; try done.
  - apply (lk_eqv_locked _ _ _ H1). rewrite <- H5. apply P.
  - rewrite <- H6. symmetry. eapply Forall2_length, P.
  - unfold proc_at. change (procs_c (set_cn_u u' s)) with (procs_u u'). by rewrite Hp.
  - unfold proc_at. change (procs_c (set_cn_u u' s)) with (procs_u u'). by rewrite Hp.
  - change (ut_panicked u' = false). by rewrite K.
Qed.

Section consolewrite.
Context (end_ : Z) (end_pos : 0 < end_) (own : owners) (l : list Z) (roots : gmap Z Z) (root lim : Z).
Context (Hroot : roots !! root = Some lim) (Hul : ulimit lim).

Lemma in_cons_copyin pr k0 s va :
  in_cons pr root k0 s -> vm_inv end_ own l roots (ps_k (procs_c s)) -> 0 <= va ->
  (↑ either_copyin (SUser va) 1 : M cnst _) s =
    Ret (if decide (accessible (k_mem (ps_k (procs_c s))) root va)
         then (0, [ubyte (k_mem (ps_k (procs_c s))) root va]) else (-1, [])) s.
Proof.
  intros [H1 H2 H3 H4 H5 H6 H7 H8 H9 H10] Hvm Hva.
  unfold zoom. change (lget s) with (procs_c s). unfold either_copyin.
  rewrite (bind_run _ _ _ _ _ (curproc_locked _ _ _ _ H1 H4 H5)).
  unfold getp. erewrite bind_run; [|reflexivity]. rewrite H8. unfold zoom at 1.
  change (lget (procs_c s)) with (ps_k (procs_c s)).
  rewrite (copyin_byte root end_ end_pos own l roots lim Hroot Hul va _ Hvm Hva).
  replace (lset (ps_k (procs_c s)) (procs_c s)) with (procs_c s)
    by (symmetry; apply (lset_lget (Lens := lens_ps_k))).
  by replace (lset (procs_c s) s) with s by (symmetry; apply (lset_lget (Lens := lens_cn_p))).
Qed.

(** uartputc with cons.lock held as well, when the ring is full. *)
Lemma in_cons_overrun pr k0 c s :
  in_cons pr root k0 s -> tx_len (cn_u s) = UART_TX_BUF_SIZE - 1 ->
  exists s', (↑ uartputc c : M cnst unit) s = Panic "sched locks" s'.
Proof.
  intros [H1 H2 H3 H4 H5 H6 H7 H8 H9 H10] Hfull.
  assert (Hpf : proc_locks_free (locked_by cons_lock k0)).
  { intros i. apply locked_by_free; [done|]. unfold is_free. by rewrite H3. }
  assert (Hfree : is_free (locked_by cons_lock k0) uart_tx_lock).
  { apply locked_by_free; [done|]. unfold is_free. by rewrite H3. }
  set (u := cn_u s). set (k1 := locked_by cons_lock k0) in *.
  set (u0 := lset (Lens := lens_ut_lk) (locked_by uart_tx_lock k1) u).
  destruct (sleep_panics uart_tx_chan uart_tx_lock pr k1 (procs_u u0)) as [p' Ep].
  - by apply locked_by_wf.
  - change (0 < noff k0 + 1). lia.
  - done.
  - done.
  - unfold k1. by rewrite locked_by_cproc.
  - done.
  - done.
  - assert (Ea : (↑ acquire uart_tx_lock : M utst unit) u = Ret tt u0).
    { unfold zoom. change (lget u) with (k_lk (ps_k (procs_c s))). rewrite H5. by rewrite acquire_run. }
    unfold zoom. change (lget s) with u. unfold uartputc.
    rewrite (bind_run _ _ _ _ _ Ea). erewrite bind_run; [|reflexivity].
    change (ut_panicked u0) with (ut_panicked u). unfold u at 1. rewrite H9.
    unfold uartputc_loop. erewrite bind_run; [|reflexivity]. erewrite bind_run; [|reflexivity].
    change (ut_w u0) with (ut_w u). change (ut_r u0) with (ut_r u). unfold u at 1 2.
    rewrite tx_full, bool_decide_true by done.
    unfold zoom. change (lget u0) with (procs_u u0). rewrite Ep. by eexists.
Qed.

(** [j] of the [n] bytes at [va] can be read before one that is not accessible. *)
Definition readable (m : memory) (va n j : Z) : Prop :=
  0 <= j <= n /\ (forall v, va <= v < va + j -> accessible m root v) /\
  (j < n -> ~ accessible m root (va + j)).

Lemma readable_next m va n j :
  readable m va n j -> 0 < n -> accessible m root va -> readable m (va + 1) (n - 1) (j - 1) /\ 0 < j.
Proof.
  intros (H1 & H2 & H3) Hn Ha. assert (0 < j).
  { destruct (decide (j = 0)) as [->|]; [|lia]. rewrite Z.add_0_r in H3. by destruct H3. }
  split; [|done]. split_and!; [lia|lia|intros; apply H2; lia|].
  intros Hj. replace (va + 1 + (j - 1)) with (va + j) by lia. apply H3. lia.
Qed.

Lemma consolewrite_loop_run pr k0 : forall k va i s j,
  in_cons pr root k0 s -> vm_inv end_ own l roots (ps_k (procs_c s)) ->
  0 <= va -> va + Z.of_nat k < 2 ^ 64 ->
  let m := k_mem (ps_k (procs_c s)) in
  readable m va (Z.of_nat k) j ->
  (j <= tx_room (cn_u s) /\ (exists u', tx_le (cn_u s) u' /\
      tx_stream u' = tx_stream (cn_u s) ++ ubytes m root va (Z.to_nat j) /\
      consolewrite_loop k (SUser va) i s = Ret (i + j) (set_cn_u u' s)) \/
   tx_room (cn_u s) < j /\ exists s', consolewrite_loop k (SUser va) i s = Panic "sched locks" s').
Proof.
  induction k as [|k IH]; intros va i s j Hs Hvm Hva Hb m Hj.
  all: assert (Hroom : 0 <= tx_room (cn_u s)) by
    (pose proof (tx_len_range (cn_u s)); unfold tx_room, tx_free, UART_TX_BUF_SIZE in *; case_decide; lia).
  all: assert (Hend : exists u', tx_le (cn_u s) u' /\
        tx_stream u' = tx_stream (cn_u s) ++ ubytes m root va (Z.to_nat 0) /\
        Ret (S := cnst) i s = Ret (i + 0) (set_cn_u u' s)) by
    (exists (cn_u s); split_and!; [by apply tx_le_refl, Hs|by rewrite app_nil_r|];
     rewrite Z.add_0_r; by destruct s).
  { destruct Hj as (Hj & _). assert (j = 0) as -> by lia. by left. }
  cbn [consolewrite_loop].
  rewrite (bind_run _ _ _ _ _ (in_cons_copyin pr k0 s va Hs Hvm Hva)). fold m.
  destruct (decide (accessible m root va)) as [Ha|Ha]; cbn [Z.eqb Pos.eqb].
  2:{ destruct Hj as (Hj & Hacc & _). assert (j = 0) as ->; [|by left].
      destruct (decide (j = 0)); [done|]. destruct Ha. apply Hacc. lia. }
  destruct (readable_next _ _ _ _ Hj ltac:(lia) Ha) as [Hj' Hpos].
  replace (Z.of_nat (S k) - 1) with (Z.of_nat k) in Hj' by lia.
  pose proof (ic_tx _ _ _ _ Hs) as Htx. change (default 0 (head [ubyte m root va])) with (ubyte m root va). set (c := ubyte m root va).
  assert (Hc : u8 c = c) by apply u8_small, rd_range.
  destruct (decide (tx_len (cn_u s) = UART_TX_BUF_SIZE - 1)) as [Hfull|Hnf].
  { right. assert (tx_room (cn_u s) = 0) as -> by (unfold tx_room; by rewrite decide_True).
    split; [lia|]. destruct (in_cons_overrun pr k0 c s Hs Hfull) as [s' Es].
    unfold mbind, M_bind. rewrite Es. by eexists. }
  pose proof Hs as [K1 K2 K3 K4 K5 K6 K7 K8 K9 K10].
  assert (Hput : wp (uartputc c) (fun _ u' => tx_le (cn_u s) u' /\
    tx_stream u' = tx_stream (cn_u s) ++ [c] /\ tx_room u' = tx_room (cn_u s) - 1) (cn_u s)).
  { apply wp_uartputc; try done.
    - change (intr_wf (k_lk (ps_k (procs_c s)))). rewrite K5. by apply locked_by_wf.
    - change (proc_locks_free (k_lk (ps_k (procs_c s)))). rewrite K5. intros q.
      apply locked_by_free; [done|]. unfold is_free. by rewrite K3.
    - change (is_free (k_lk (ps_k (procs_c s))) uart_tx_lock). rewrite K5.
      apply locked_by_free; [done|]. unfold is_free. by rewrite K3.
    - intros u' Hle E1 E2. by rewrite Hc in E1. }
  apply wp_inv in Hput as ([] & u1 & Eu & Hle & E1 & E2).
  destruct (in_cons_le _ _ _ _ _ Hs Hle) as (Hs1 & Em & Ef).
  assert (Er : (↑ uartputc c : M cnst unit) s = Ret tt (set_cn_u u1 s)).
  { unfold zoom. change (lget s) with (cn_u s). by rewrite Eu. }
  rewrite (bind_run _ _ _ _ _ Er). cbn [source_plus].
  assert (Hu : u64 (va + 1) = va + 1) by (apply Z.mod_small; lia). rewrite Hu.
  assert (Hvm1 : vm_inv end_ own l roots (ps_k (procs_c (set_cn_u u1 s)))).
  { apply (vm_inv_ext (ps_k (procs_c s))); done. }
  destruct (IH (va + 1) (i + 1) (set_cn_u u1 s) (j - 1)) as [(R1 & u2 & L2 & S2 & E3)|(R1 & s' & E3)];
    [done|done|lia|lia|by change (readable (k_mem (ps_k (procs_u u1))) (va + 1) (Z.of_nat k) (j - 1)); rewrite Em|..].
  - left. change (cn_u (set_cn_u u1 s)) with u1 in *. split; [lia|]. exists u2.
    split_and!; [by eapply tx_le_trans| |by rewrite E3; replace (i + 1 + (j - 1)) with (i + j) by lia].
    change (k_mem (ps_k (procs_c (set_cn_u u1 s)))) with (k_mem (ps_k (procs_u u1))) in S2.
    rewrite S2, E1, Em, <- app_assoc. f_equal.
    replace (Z.to_nat j) with (1 + Z.to_nat (j - 1))%nat by lia. rewrite ubytes_app. by rewrite ubytes_1.
  - right. change (cn_u (set_cn_u u1 s)) with u1 in *. split; [lia|]. by exists s'.
Qed.

(** consolewrite is called by the running process [pr]. *)
Record cons_call (pr : nat) (s : cnst) : Prop := {
  cc_calling : calling pr root (procs_c s);
  cc_running : p_state (proc_at pr (procs_c s)) = RUNNING;
  cc_vm : vm_inv end_ own l roots (ps_k (procs_c s));
  cc_panicked : ut_panicked (cn_u s) = false;
  cc_tx : tx_wf (cn_u s);
}.

Lemma consolewrite_run pr s addr n j :
  cons_call pr s -> 0 <= addr -> 0 <= n -> addr + n < 2 ^ 64 ->
  let m := k_mem (ps_k (procs_c s)) in
  readable m addr n j ->
  (j <= tx_room (cn_u s) /\ (exists s', consolewrite (SUser addr) n s = Ret j s' /\
      tx_stream (cn_u s') = tx_stream (cn_u s) ++ ubytes m root addr (Z.to_nat j) /\
      pst_le (procs_c s) (procs_c s')) \/
   tx_room (cn_u s) < j /\ exists s', consolewrite (SUser addr) n s = Panic "sched locks" s').
Proof.
  intros [[C1 C2 C3 C4 C5 C6] Hrun Hvm Hnp Htx] Ha Hn Hb m Hj.
  set (k0 := k_lk (ps_k (procs_c s))) in *.
  set (s1 := lset (Lens := lens_cn_lk) (locked_by cons_lock k0) s).
  assert (Hf : is_free k0 cons_lock) by (unfold is_free; by rewrite C3).
  assert (Eacq : (↑ acquire cons_lock : M cnst unit) s = Ret tt s1).
  { unfold zoom. change (lget s) with k0. by rewrite acquire_run. }
  assert (Hs1 : in_cons pr root k0 s1).
  { split; try done. by destruct Htx. }
  assert (Hvm1 : vm_inv end_ own l roots (ps_k (procs_c s1))).
  { apply (vm_inv_ext (ps_k (procs_c s))); done. }
  unfold consolewrite. rewrite (bind_run _ _ _ _ _ Eacq).
  destruct (consolewrite_loop_run pr k0 (Z.to_nat n) addr 0 s1 j)
    as [(R & u' & Hle & Es & E)|(R & s' & E)]; [done|done|done|lia|by rewrite Z2Nat.id|..].
  - left. split; [done|]. rewrite (bind_run _ _ _ _ _ E). rewrite Z.add_0_l.
    pose proof (in_cons_le _ _ _ _ _ Hs1 Hle) as (Hs2 & _).
    exists (lset (Lens := lens_cn_lk) (settle k0) (set_cn_u u' s1)). split_and!.
    + unfold mbind, M_bind. unfold zoom at 1.
      change (lget (set_cn_u u' s1)) with (k_lk (ps_k (procs_c (set_cn_u u' s1)))).
      rewrite (ic_lk _ _ _ _ Hs2), release_run by done. done.
    + exact Es.
    + destruct Hle as [_ [P1 P2 P3 P4 P5 P6 P7] _ _]. split; try done. apply settle_eqv.
  - right. split; [done|]. exists s'. unfold mbind, M_bind. by rewrite E.
Qed.

(** Output to the console is not lost or reordered.  A write that fits into the
    room that the driver and the device have returns the number [j] of bytes that
    were accessible, and exactly these are added, in order, to what has been or
    will be sent. *)
Theorem consolewrite_stream pr s addr n j :
  cons_call pr s -> 0 <= addr -> 0 <= n -> addr + n < 2 ^ 64 ->
  let m := k_mem (ps_k (procs_c s)) in
  readable m addr n j -> j <= tx_room (cn_u s) ->
  wp (consolewrite (SUser addr) n) (fun r s' => r = j /\
    tx_stream (cn_u s') = tx_stream (cn_u s) ++ ubytes m root addr (Z.to_nat j) /\
    pst_le (procs_c s) (procs_c s')) s.
Proof.
  intros Hs H1 H2 H3 m Hj Hroom.
  destruct (consolewrite_run pr s addr n j Hs H1 H2 H3 Hj) as [(_ & s' & E & H)|(R & _)]; [|lia].
  eapply wp_run; [exact E|]. done.
Qed.

(** C39: consolewrite holds cons.lock when uartputc goes to sleep on a full ring, so
    sched() finds two locks held: a process that writes more bytes than the ring
    and the device have room for makes the kernel panic. *)
Theorem consolewrite_panics pr s addr n j :
  cons_call pr s -> 0 <= addr -> 0 <= n -> addr + n < 2 ^ 64 ->
  readable (k_mem (ps_k (procs_c s))) addr n j -> tx_room (cn_u s) < j ->
  exists s', consolewrite (SUser addr) n s = Panic "sched locks" s'.
Proof.
  intros Hs H1 H2 H3 Hj Hroom.
  destruct (consolewrite_run pr s addr n j Hs H1 H2 H3 Hj) as [(R & _)|(_ & H)]; [lia|done].
Qed.
End consolewrite.

(** ** Instances: the process of PipeProofs, an idle ring, and a device that takes
    [room] bytes. *)
Definition demo_console (room : nat) : cnst :=
  mk_cnst (mk_utst (demo_ppst (demo_pipe 0)) (mk_uartdev [] room [] 3 7 3 3 0) (replicate 32 0) 0 0 false)
    (replicate 128 0) 0 0 0 true true.

Lemma demo_cons_call own l roots room :
  vm_inv 2147483648 own l roots demo -> cons_call 2147483648 own l roots demo_old 0 (demo_console room).
Proof.
  intros Hvm. split; [apply (demo_calling (demo_pipe 0))|done|by apply (demo_vm_inv _ _ _ (demo_pipe 0))|done|].
  split; try done. apply Forall_replicate. unfold is_u8. lia.
Qed.

Lemma demo_accessible v : 0 <= v < 4096 -> accessible (k_mem demo) demo_old v.
Proof.
  intros Hv. destruct demo_inv as (own & l & roots & Hvm & Hr & Hold & Hnew & Hleaf & _).
  destruct (Hleaf v Hv) as [[H1 _] H2]. split_and!; [change MAXVA with 274877906944; lia|done|].
  unfold has. change PTE_U with (Z.land 1023 PTE_U). rewrite Z.land_assoc.
  unfold PTE_FLAGS in H2. by rewrite H2.
Qed.

Lemma demo_readable n x :
  0 <= n <= 4096 -> readable demo_old (k_mem (ps_k (procs_of (demo_ppst x)))) 0 n n.
Proof.
  intros Hn. rewrite demo_mem. split_and!; [lia|lia| |lia]. intros v Hv. apply demo_accessible. lia.
Qed.

Lemma consolewrite_stream_witness :
  wp (consolewrite (SUser 0) 32) (fun r s' => r = 32 /\
    tx_stream (cn_u s') = ubytes (k_mem demo) demo_old 0 32) (demo_console 1).
Proof.
  destruct demo_inv as (own & l & roots & Hvm & Hr & Hold & _).
  eapply wp_mono.
  - apply (consolewrite_stream 2147483648 ltac:(lia) own l roots demo_old TRAPFRAME Hold TRAPFRAME_ulimit
             0 (demo_console 1) 0 32 32);
      [by apply demo_cons_call|lia|lia|lia|apply (demo_readable 32 (demo_pipe 0)); lia|by vm_compute].
  - intros r s' (-> & E & _). split; [done|]. rewrite E.
    change (k_mem (ps_k (procs_c (demo_console 1)))) with (k_mem (ps_k (procs_of (demo_ppst (demo_pipe 0))))).
    rewrite demo_mem. reflexivity.
Defined.

Lemma consolewrite_panics_witness :
  exists s', consolewrite (SUser 0) 33 (demo_console 1) = Panic "sched locks" s'.
Proof.
  destruct demo_inv as (own & l & roots & Hvm & Hr & Hold & _).
  apply (consolewrite_panics 2147483648 ltac:(lia) own l roots demo_old TRAPFRAME Hold TRAPFRAME_ulimit
             0 (demo_console 1) 0 33 33);
    [by apply demo_cons_call|lia|lia|lia|apply (demo_readable 33 (demo_pipe 0)); lia|by vm_compute].
Defined.
