(* ===== verification/ConsoleInput.v ===== *)
(** * kernel/console.c: the line discipline

    consoleintr() against a line editor on two lists: the bytes that read() may
    have, and the line that is still being typed. *)

From Stdlib Require Import ZArith Lia.
From stdpp Require Import base list gmap strings.
From S2P Require Import Prelude KString Spinlock Riscv Kalloc Vm VmInv VmProofs VmUser VmCopy Proc Sleeplock Bio Log Fs Pipe PipeProofs Uart Console ConsoleProofs.

(** ** Printing

    Output changes only the device and the UART's ring. *)

Lemma wp_uartputc_sync c (Q : unit -> utst -> Prop) u :
  intr_wf (k_lk (ps_k (procs_u u))) -> ut_panicked u = false -> tx_wf u ->
  (forall u', tx_le u u' -> Q tt u') -> wp (uartputc_sync c) Q u.
Proof.
  intros Hwf Hnp Hu HQ. unfold uartputc_sync. mstep. mstep.
  eapply wp_run; [apply push_off_run|]. change (lget u) with (k_lk (ps_k (procs_u u))).
  set (k := k_lk (ps_k (procs_u u))) in *. set (u0 := lset (push k) u).
  bsteps. change (ut_panicked u0) with (ut_panicked u). rewrite Hnp.
  unfold uart_wait, WriteReg. bsteps. set (u1 := set_ut_dev _ _).
  apply wp_zoom. change (lget u1) with (push k).
  assert (Epop : pop_off (push k) = Ret tt (settle k)).
  { pose proof (pop_off_push k (locks k) Hwf) as E.
    by rewrite set_locks_settle, set_locks_id, <- (push_locks k), set_locks_id in E. }
  eapply wp_run; [exact Epop|]. apply HQ.
  destruct Hu as [H1 H2 H3 H4 H5].
  assert (Hl : latched (dev_write THR c (set_u_room (Nat.max 1 (u_room (ut_dev u0))) (ut_dev u0))) = false).
  { unfold dev_write. change (THR =? 0) with true. cbn iota.
    change (latched (set_u_room (Nat.max 1 (u_room (ut_dev u0))) (ut_dev u0))) with (latched (ut_dev u)).
    by rewrite H5. }
  split; [by split| |done|done].
  split; try done. apply settle_eqv.
Qed.

(** The state of the console apart from the UART. *)
Definition quiet (s : cnst) (Q : unit -> cnst -> Prop) : Prop :=
  forall u', tx_le (cn_u s) u' -> Q tt (set_cn_u u' s).

(** This CPU may print: no CPU has panicked. *)
Record can_print (s : cnst) : Prop := {
  cp_wf : intr_wf (k_lk (ps_k (procs_c s)));
  cp_panicked : ut_panicked (cn_u s) = false;
  cp_tx : tx_wf (cn_u s);
}.

Lemma can_print_le s u' : can_print s -> tx_le (cn_u s) u' -> can_print (set_cn_u u' s).
Proof.
  intros [H1 H3 H4] [W P R K]. pose proof (pl_lk _ _ P) as E.
  change (k_lk (ps_k (procs_u u')) ≈ k_lk (ps_k (procs_c s))) in E.
  split; change (procs_c (set_cn_u u' s)) with (procs_u u').
  - by rewrite E.
  - cbn. by rewrite K.
  - done.
Qed.

Lemma quiet_trans s u1 (Q : unit -> cnst -> Prop) :
  quiet s Q -> tx_le (cn_u s) u1 -> quiet (set_cn_u u1 s) Q.
Proof. intros HQ H1 u2 H2. apply (HQ u2). by eapply tx_le_trans. Qed.

Lemma quiet_here s (Q : unit -> cnst -> Prop) : can_print s -> quiet s Q -> Q tt s.
Proof. intros Hs HQ. destruct s. apply HQ, tx_le_refl, Hs. Qed.

Lemma wp_consputc c (Q : unit -> cnst -> Prop) s : can_print s -> quiet s Q -> wp (consputc c) Q s.
Proof.
  intros Hs HQ.
  assert (Hone : forall c (Q : unit -> cnst -> Prop) s, can_print s -> quiet s Q -> wp (↑ uartputc_sync c) Q s).
  { intros c' Q' s' [H1 H3 H4] HQ'. apply wp_zoom. by apply wp_uartputc_sync. }
  unfold consputc. destruct (c =? BACKSPACE); [|by apply Hone].
  mstep. apply Hone; [done|]. intros u1 L1. mstep. apply Hone; [by apply can_print_le|].
  intros u2 L2. apply Hone; [by do 2 (apply can_print_le; [|done])|].
  intros u3 L3. apply (HQ u3). eapply tx_le_trans; [exact L1|]. by eapply tx_le_trans.
Qed.

Lemma wp_put_all bs (Q : unit -> cnst -> Prop) s : can_print s -> quiet s Q -> wp (put_all bs) Q s.
Proof.
  intros Hs HQ. unfold put_all. mstep.
  apply (wp_for_each (fun _ s' => exists u', tx_le (cn_u s) u' /\ s' = set_cn_u u' s)).
  - exists (cn_u s). split; [apply tx_le_refl, Hs|by destruct s].
  - intros c l' s' (u1 & L1 & ->). mstep. apply wp_consputc; [by apply can_print_le|].
    intros u2 L2. mstep. exists u2. split; [by eapply tx_le_trans|done].
  - intros s' (u1 & L1 & ->). mstep. by apply HQ.
Qed.

Definition pr_free (s : cnst) : Prop := is_free (k_lk (ps_k (procs_c s))) pr_lock.

Lemma pr_free_le s u' : pr_free s -> tx_le (cn_u s) u' -> pr_free (set_cn_u u' s).
Proof.
  intros H [W P R K]. pose proof (pl_lk _ _ P) as E.
  change (k_lk (ps_k (procs_u u')) ≈ k_lk (ps_k (procs_c s))) in E.
  unfold pr_free. change (procs_c (set_cn_u u' s)) with (procs_u u'). by rewrite E.
Qed.

Lemma wp_printf fmt args (Q : unit -> cnst -> Prop) s :
  can_print s -> pr_free s -> quiet s Q -> wp (printf fmt args) Q s.
Proof.
  intros Hs Hf HQ. unfold printf. mstep. mstep. destruct (cn_locking s); cbn [when].
  2:{ mstep. mstep. mstep. apply wp_put_all; [done|]. intros u' L. mstep. by apply HQ. }
  mstep. apply wp_lock; [exact Hf|]. set (k := k_lk (ps_k (procs_c s))).
  set (s1 := lset (locked_by pr_lock k) s).
  destruct Hs as [H1 H2 H3]. mstep. apply (wp_put_all _ _ s1).
  { split; [by apply locked_by_wf|done|by destruct H3]. }
  intros u' L. eapply wp_unlock; [exact H1|exact Hf|exact (pl_lk _ _ (tl_procs _ _ L))|].
  set (u2 := lset (Lens := lens_ut_lk) (settle k) u').
  apply (HQ u2). destruct L as [W P R K]. split; [by destruct W| | |done].
  - destruct P as [Q1 Q2 Q3 Q4 Q5 Q6 Q7]. split; try done. apply settle_eqv.
  - change (ut_pp u2) with (lset (Lens := lens_pp_lk) (settle k) (ut_pp u')). by rewrite R at 1.
Qed.

Lemma wp_procdump (Q : unit -> cnst -> Prop) s :
  can_print s -> pr_free s -> quiet s Q -> wp procdump Q s.
Proof.
  intros Hs Hf HQ. unfold procdump. mstep. apply wp_printf; [done|done|]. intros u0 L0. mstep.
  apply (wp_for_each (fun _ s' => exists u', tx_le (cn_u s) u' /\ s' = set_cn_u u' s)).
  - by exists u0.
  - intros i l' s' (u1 & L1 & ->). mstep. mstep. unfold getp. mstep. 
    replace (lset (lget (set_cn_u u1 s)) (set_cn_u u1 s)) with (set_cn_u u1 s)
      by (symmetry; apply (lset_lget (Lens := lens_cn_p))).
    case_bool_decide; [mstep; by exists u1|].
    mstep. apply wp_printf; [by apply can_print_le|by apply pr_free_le|]. intros u2 L2.
    assert (L12 : tx_le (cn_u s) u2) by by eapply tx_le_trans.
    mstep. apply wp_printf; [by apply (can_print_le s u2)|by apply (pr_free_le s u2)|]. intros u3 L3.
    mstep. exists u3. split; [by eapply tx_le_trans|done].
  - intros s' (u1 & L1 & ->). mstep. by apply HQ.
Qed.

(** ** The input buffer *)

(** Finished lines, for read(), and the line being typed. *)
Definition committed (s : cnst) : list Z := ring INPUT_BUF (cn_buf s) (cn_r s) (Z.to_nat (u32 (cn_w s - cn_r s))).
Definition editing (s : cnst) : list Z := ring INPUT_BUF (cn_buf s) (cn_w s) (Z.to_nat (u32 (cn_e s - cn_w s))).

Record cons_wf (s : cnst) : Prop := {
  cw_buf : length (cn_buf s) = Z.to_nat INPUT_BUF;
  cw_r : is_u32 (cn_r s);
  cw_w : is_u32 (cn_w s);
  cw_e : is_u32 (cn_e s);
  cw_len : u32 (cn_w s - cn_r s) + u32 (cn_e s - cn_w s) <= INPUT_BUF;
  cw_line : newline ∉ editing s;
}.

(** The line editor. *)
Definition edit (c : Z) (st : list Z * list Z) : list Z * list Z :=
  let '(com, ed) := st in
  if c =? CTRL_P then (com, ed)
  else if c =? CTRL_U then (com, [])
  else if (c =? CTRL_H) || (c =? DEL) then (com, take (length ed - 1) ed)
  else if (c =? 0) || (128 <=? length (com ++ ed))%nat then (com, ed)
  else
    let c := if c =? 13 then newline else c in
    let ed := ed ++ [c] in
    if (c =? newline) || (c =? CTRL_D) || (length (com ++ ed) =? 128)%nat then (com ++ ed, []) else (com, ed).

Lemma length_committed s : length (committed s) = Z.to_nat (u32 (cn_w s - cn_r s)).
Proof. apply length_ring. Qed.
Lemma length_editing s : length (editing s) = Z.to_nat (u32 (cn_e s - cn_w s)).
Proof. apply length_ring. Qed.

(** What the line discipline looks at. *)
Definition cons_view (s : cnst) : list Z * list Z := (committed s, editing s).

Lemma view_quiet s u' : cons_view (set_cn_u u' s) = cons_view s /\ (cons_wf s -> cons_wf (set_cn_u u' s)).
Proof. split; [done|]. by intros [? ? ? ? ? ?]. Qed.

(** cons.e-- *)
Lemma edit_back s :
  cons_wf s -> cn_e s <> cn_w s ->
  let s' := set_cn_e (u32 (cn_e s - 1)) s in
  cons_wf s' /\ cons_view s' = (committed s, take (length (editing s) - 1) (editing s)) /\
  u32 (cn_e s' - cn_w s') = u32 (cn_e s - cn_w s) - 1.
Proof.
  intros [H1 H2 H3 H4 H5 H6] Hne s'.
  assert (El : u32 (cn_e s' - cn_w s') = u32 (cn_e s - cn_w s) - 1).
  { cbn. unfold is_u32, u32 in *. divlia. }
  assert (Hpos : 0 < u32 (cn_e s - cn_w s)) by (unfold is_u32, u32 in *; divlia).
  assert (Ee : editing s = editing s' ++ [default 0 (zlookup (cn_buf s)
      ((cn_w s + Z.of_nat (Z.to_nat (u32 (cn_e s - cn_w s) - 1))) mod INPUT_BUF))]).
  { unfold editing. rewrite El. change (cn_w s') with (cn_w s). change (cn_buf s') with (cn_buf s).
    rewrite <- ring_snoc. f_equal. lia. }
  assert (Ed : take (length (editing s) - 1) (editing s) = editing s').
  { rewrite Ee, length_app. cbn. rewrite Nat.add_sub. apply take_app_length. }
  split_and!; [|by unfold cons_view; rewrite Ed|done].
  split; try done.
  - unfold is_u32. apply Z.mod_pos_bound. lia.
  - rewrite El. change (cn_w s') with (cn_w s). change (cn_r s') with (cn_r s). lia.
  - intros Hin. apply H6. rewrite Ee. apply elem_of_app. by left.
Qed.

(** cons.buf[cons.e++ % INPUT_BUF] = c *)
Definition cons_store (c : Z) (s : cnst) : cnst :=
  set_cn_e (u32 (cn_e s + 1)) (set_cn_buf (zinsert (cn_e s mod INPUT_BUF) c (cn_buf s)) s).

Lemma cons_store_view c s :
  cons_wf s -> u32 (cn_e s - cn_r s) < INPUT_BUF ->
  let s' := cons_store c s in
  length (cn_buf s') = Z.to_nat INPUT_BUF /\ cons_view s' = (committed s, editing s ++ [c]) /\
  u32 (cn_w s' - cn_r s') + u32 (cn_e s' - cn_w s') = u32 (cn_e s - cn_r s) + 1.
Proof.
  intros [H1 H2 H3 H4 H5 H6] Hlt s'.
  assert (El : u32 (cn_e s' - cn_w s') = u32 (cn_e s - cn_w s) + 1).
  { cbn. unfold is_u32, u32, INPUT_BUF in *. divlia. }
  assert (Et : u32 (cn_w s - cn_r s) + u32 (cn_e s - cn_w s) = u32 (cn_e s - cn_r s)).
  { unfold is_u32, u32, INPUT_BUF in *. divlia. }
  set (nw := Z.to_nat (u32 (cn_w s - cn_r s))). set (ne := Z.to_nat (u32 (cn_e s - cn_w s))).
  assert (Hw : Z.of_nat nw = u32 (cn_w s - cn_r s)) by (unfold nw, u32; rewrite Z2Nat.id; [done|divlia]).
  assert (He : Z.of_nat ne = u32 (cn_e s - cn_w s)) by (unfold ne, u32; rewrite Z2Nat.id; [done|divlia]).
  assert (Hmod : cn_e s mod INPUT_BUF = (cn_r s + Z.of_nat (nw + ne)) mod INPUT_BUF).
  { rewrite Nat2Z.inj_add, Hw, He. unfold is_u32, u32, INPUT_BUF in *. divlia. }
  assert (Hmod2 : cn_w s mod INPUT_BUF = (cn_r s + Z.of_nat nw) mod INPUT_BUF).
  { rewrite Hw. unfold is_u32, u32, INPUT_BUF in *. divlia. }
  pose proof (ring_insert INPUT_BUF (cn_buf s) (cn_r s) (nw + ne) c H1) as Hr.
  rewrite <- Hmod in Hr. specialize (Hr ltac:(lia)).
  rewrite <- Nat.add_succ_r, !ring_app, <- app_assoc in Hr.
  apply app_inj_1 in Hr as [Hc Hed]; [|by rewrite !length_ring].
  split_and!; [by unfold s', cons_store; cbn [set_cn_e set_cn_buf cn_buf]; rewrite length_zinsert| |rewrite El; change (cn_w s') with (cn_w s);
    change (cn_r s') with (cn_r s); lia].
  unfold cons_view, committed, editing. rewrite El.
  change (cn_w s') with (cn_w s). change (cn_r s') with (cn_r s).
  replace (Z.to_nat (u32 (cn_e s - cn_w s) + 1)) with (S ne) by (unfold ne; lia).
  fold nw ne. f_equal; [exact Hc|].
  assert (HN : INPUT_BUF <> 0) by done.
  rewrite (ring_mod _ _ (cn_w s) _ (S ne) HN Hmod2), (ring_mod _ _ (cn_w s) _ ne HN Hmod2).
  exact Hed.
Qed.

Lemma can_print_u s s' : can_print s -> tx_le (cn_u s) (cn_u s') -> can_print s'.
Proof. intros H L. destruct (can_print_le s _ H L) as [H1 H2 H3]. by split. Qed.

Lemma cons_get_last s :
  cons_wf s -> cn_e s <> cn_w s -> cons_get (u32 (cn_e s - 1)) s ∈ editing s.
Proof.
  intros [H1 H2 H3 H4 H5 H6] Hne. unfold editing.
  assert (Hpos : 0 < u32 (cn_e s - cn_w s)) by (unfold is_u32, u32 in *; divlia).
  replace (Z.to_nat (u32 (cn_e s - cn_w s))) with (S (Z.to_nat (u32 (cn_e s - cn_w s) - 1))) by lia.
  rewrite ring_snoc. apply elem_of_app. right. apply list_elem_of_singleton.
  unfold cons_get. do 2 f_equal. unfold is_u32, u32, INPUT_BUF in *. divlia.
Qed.

Lemma wp_kill_line (Q : unit -> cnst -> Prop) : forall fuel s,
  can_print s -> cons_wf s -> u32 (cn_e s - cn_w s) <= Z.of_nat fuel ->
  (forall s', tx_le (cn_u s) (cn_u s') -> cons_wf s' -> cons_view s' = (committed s, []) -> Q tt s') ->
  wp (kill_line fuel) Q s.
Proof.
  induction fuel as [|fuel IH]; intros s Hp Hs Hf HQ; cbn [kill_line]; bsteps.
  all: destruct (Z.eqb_spec (cn_e s) (cn_w s)) as [E|Hne];
    [mstep; apply HQ; [apply tx_le_refl, Hp|done|];
     unfold cons_view, editing; by rewrite E, Z.sub_diag|].
  { destruct Hs. unfold is_u32, u32 in *. divlia. }
  bsteps. pose proof (cons_get_last s Hs Hne) as Hin.
  destruct (Z.eqb_spec (cons_get (u32 (cn_e s - 1)) s) newline) as [En|_].
  { rewrite En in Hin. by destruct (cw_line _ Hs). }
  destruct (edit_back s Hs Hne) as (W & V & El). bsteps.
  set (s1 := set_cn_e (u32 (cn_e s - 1)) s) in *.
  apply (wp_consputc _ _ s1); [apply (can_print_u s s1 Hp), tx_le_refl, Hp|].
  intros u' L. destruct (view_quiet s1 u') as [V' W'].
  apply IH; [by eapply can_print_u|by apply W'|cbn in El |- *; lia|].
  intros s' L' Ws' V''. apply HQ; [by eapply tx_le_trans|done|].
  by rewrite V''.
Qed.

(** What consoleintr relies on. *)
Record intr_ok (s : cnst) : Prop := {
  io_print : can_print s;
  io_pr : pr_free s;
  io_cons : is_free (k_lk (ps_k (procs_c s))) cons_lock;
  io_procs : proc_locks_free (k_lk (ps_k (procs_c s)));
  io_len : length (ps_proc (procs_c s)) = NPROC;
}.

Lemma cons_total s :
  cons_wf s -> u32 (cn_w s - cn_r s) + u32 (cn_e s - cn_w s) = u32 (cn_e s - cn_r s) /\
  Z.of_nat (length (committed s ++ editing s)) = u32 (cn_e s - cn_r s).
Proof.
  intros [H1 H2 H3 H4 H5 H6].
  assert (Et : u32 (cn_w s - cn_r s) + u32 (cn_e s - cn_w s) = u32 (cn_e s - cn_r s)).
  { unfold is_u32, u32, INPUT_BUF in *. divlia. }
  split; [done|]. rewrite length_app, length_committed, length_editing.
  unfold is_u32, u32, INPUT_BUF in *. divlia.
Qed.

(** cons.w = cons.e *)
Lemma cons_commit s :
  length (cn_buf s) = Z.to_nat INPUT_BUF -> is_u32 (cn_r s) -> is_u32 (cn_w s) -> is_u32 (cn_e s) ->
  u32 (cn_w s - cn_r s) + u32 (cn_e s - cn_w s) <= INPUT_BUF ->
  let s' := set_cn_w (cn_e s) s in
  cons_wf s' /\ cons_view s' = (committed s ++ editing s, []).
Proof.
  intros H1 H2 H3 H4 H5 s'.
  assert (Ee : editing s' = []).
  { unfold editing. cbn. by rewrite Z.sub_diag. }
  assert (Ec : committed s' = committed s ++ editing s).
  { unfold committed, editing. change (cn_w s') with (cn_e s). change (cn_r s') with (cn_r s).
    change (cn_buf s') with (cn_buf s).
    rewrite (ring_mod _ _ (cn_w s) (cn_r s + Z.of_nat (Z.to_nat (u32 (cn_w s - cn_r s))))).
    - rewrite <- ring_app. f_equal. unfold is_u32, u32, INPUT_BUF in *. divlia.
    - done.
    - unfold is_u32, u32, INPUT_BUF in *. divlia. }
  split; [|unfold cons_view; by rewrite Ec, Ee].
  split; try done; [|by rewrite Ee; apply not_elem_of_nil].
  change (cn_w s') with (cn_e s). change (cn_r s') with (cn_r s). change (cn_e s') with (cn_e s).
  unfold is_u32, u32, INPUT_BUF in *. divlia.
Qed.

Lemma wp_cons_wakeup (Q : unit -> cnst -> Prop) s :
  busy_cpu (procs_c s) -> tx_wf (cn_u s) -> quiet s Q -> wp (↑ wakeup cons_chan) Q s.
Proof.
  intros (B1 & B2 & B3) Htx HQ. apply wp_zoom. apply wp_wakeup; [done|done|done|].
  intros p' Hle _. apply (HQ (lset (Lens := lens_ut_p) p' (cn_u s))). by split; [destruct Htx|..].
Qed.

(** A character that is stored, in the default case of consoleintr. *)
Lemma wp_cons_insert c s (Q : unit -> cnst -> Prop) :
  can_print s -> busy_cpu (procs_c s) -> cons_wf s -> is_u8 c -> u32 (cn_e s - cn_r s) < INPUT_BUF ->
  (forall s', tx_le (cn_u s) (cn_u s') -> cons_wf s' ->
     cons_view s' =
       (if (c =? newline) || (c =? CTRL_D) || (length (committed s ++ editing s ++ [c]) =? 128)%nat
        then (committed s ++ editing s ++ [c], []) else (committed s, editing s ++ [c])) ->
     Q tt s') ->
  wp (consputc c;;
      modify (fun s0 => set_cn_buf (zinsert (cn_e s mod INPUT_BUF) (u8 c) (cn_buf s0)) s0);;
      modify (set_cn_e (u32 (cn_e s + 1)));;
      when ((c =? newline) || (c =? CTRL_D) || (u32 (cn_e s + 1) =? u32 (cn_r s + INPUT_BUF)))
        (modify (set_cn_w (u32 (cn_e s + 1)));; ↑ wakeup cons_chan)) Q s.
Proof.
  intros Hp Hb Hs Hc Hlt HQ. destruct (cons_total s Hs) as [Et El].
  assert (Efull : (u32 (cn_e s + 1) =? u32 (cn_r s + INPUT_BUF)) =
    (length (committed s ++ editing s ++ [c]) =? 128)%nat).
  { rewrite app_assoc, length_app. destruct Hs as [H1 H2 H3 H4 _ _].
    unfold is_u32, u32, INPUT_BUF in *. cbn [length].
    destruct (Z.eqb_spec ((cn_e s + 1) mod 2 ^ 32) ((cn_r s + 128) mod 2 ^ 32));
      symmetry; [apply Nat.eqb_eq|apply Nat.eqb_neq]; divlia. }
  rewrite Efull. mstep. apply wp_consputc; [done|]. intros u1 L1. bsteps. rewrite (u8_small c Hc).
  destruct (view_quiet s u1) as [V1 W1]. specialize (W1 Hs).
  destruct (cons_store_view c (set_cn_u u1 s) W1 Hlt) as (B2 & V2 & T2).
  set (s2 := set_cn_e (u32 (cn_e s + 1)) (set_cn_buf _ (set_cn_u u1 s))).
  change (cons_store c (set_cn_u u1 s)) with s2 in *.
  change (committed (set_cn_u u1 s)) with (committed s) in V2.
  change (editing (set_cn_u u1 s)) with (editing s) in V2. injection V2 as Vc Ve.
  pose proof Hs as [H1 H2 H3 H4 H5 H6].
  assert (He2 : is_u32 (cn_e s2)) by (apply Z.mod_pos_bound; lia).
  assert (T3 : u32 (cn_w s2 - cn_r s2) + u32 (cn_e s2 - cn_w s2) <= INPUT_BUF).
  { rewrite T2. change (u32 (cn_e s - cn_r s) + 1 <= INPUT_BUF). lia. }
  destruct (_ || _ || _) eqn:Ecommit; cbn [when]; bsteps.
  - destruct (cons_commit s2 B2 H2 H3 He2 T3) as [W3 V3].
    set (s3 := set_cn_w _ s2) in *. change (set_cn_w (cn_e s2) s2) with s3 in W3, V3.
    apply (wp_cons_wakeup _ s3); [by eapply busy_cpu_le; [|apply (tl_procs _ _ L1)]|apply L1|].
    intros u4 L4. destruct (view_quiet s3 u4) as [V4 W4].
    apply HQ; [by eapply tx_le_trans|by apply W4|]. by rewrite V4, V3, Vc, Ve.
  - apply HQ; [done| |by unfold cons_view; rewrite Vc, Ve].
    split; try done. rewrite Ve. intros [Hin|Hin%list_elem_of_singleton]%elem_of_app; [done|].
    rewrite <- Hin in Ecommit. by rewrite Z.eqb_refl in Ecommit.
Qed.

(** The switch of consoleintr, with cons.lock held. *)
Lemma consoleintr_body c s (Q : unit -> cnst -> Prop) :
  can_print s -> pr_free s -> busy_cpu (procs_c s) -> cons_wf s -> 0 <= c < 256 ->
  (forall s', tx_le (cn_u s) (cn_u s') -> cons_wf s' -> cons_view s' = edit c (cons_view s) -> Q tt s') ->
  wp (if c =? CTRL_P then procdump
      else if c =? CTRL_U then kill_line 128
      else if (c =? CTRL_H) || (c =? DEL) then
        e ← gets cn_e;
        w ← gets cn_w;
        when (negb (e =? w))
          (modify (set_cn_e (u32 (e - 1)));;
           consputc BACKSPACE)
      else
        e ← gets cn_e;
        r ← gets cn_r;
        when (negb (c =? 0) && (u32 (e - r) <? INPUT_BUF))
          (let c := if c =? 13 then newline else c in
           consputc c;;
           modify (fun s => set_cn_buf (zinsert (e mod INPUT_BUF) (u8 c) (cn_buf s)) s);;
           modify (set_cn_e (u32 (e + 1)));;
           when ((c =? newline) || (c =? CTRL_D) || (u32 (e + 1) =? u32 (r + INPUT_BUF)))
             (modify (set_cn_w (u32 (e + 1)));;
              ↑ wakeup cons_chan))) Q s.
Proof.
  intros Hp Hf Hb Hs Hc HQ. unfold edit in HQ.
  destruct (cons_view s) as [com ed] eqn:Ev. injection Ev as Ecom Eed.
  destruct (c =? CTRL_P).
  { apply wp_procdump; [done|done|]. intros u' L. destruct (view_quiet s u') as [V W].
    apply HQ; [done|by apply W|]. by rewrite V, <- Ecom, <- Eed. }
  destruct (c =? CTRL_U).
  { apply wp_kill_line; [done|done| |].
    - destruct Hs. unfold is_u32, u32, INPUT_BUF in *. divlia.
    - intros s' L W V. apply HQ; [done|done|]. by rewrite V, Ecom. }
  destruct ((c =? CTRL_H) || (c =? DEL)).
  { bsteps. destruct (Z.eqb_spec (cn_e s) (cn_w s)) as [E|Hne]; cbn [negb]; bsteps.
    - apply HQ; [apply tx_le_refl, Hp|done|]. unfold cons_view.
      assert (editing s = []) as E0 by (unfold editing; by rewrite E, Z.sub_diag).
      rewrite Ecom, E0. by rewrite <- Eed, E0.
    - destruct (edit_back s Hs Hne) as (W & V & _). set (s1 := set_cn_e (u32 (cn_e s - 1)) s) in *.
      apply (wp_consputc _ _ s1); [apply (can_print_u s s1 Hp), tx_le_refl, Hp|].
      intros u' L. destruct (view_quiet s1 u') as [V' W'].
      apply HQ; [done|by apply W'|]. by rewrite V', V, Ecom, Eed. }
  bsteps. destruct (cons_total s Hs) as [_ El]. rewrite Ecom, Eed in El.
  assert (Eb : negb (c =? 0) && (u32 (cn_e s - cn_r s) <? INPUT_BUF) =
    negb ((c =? 0) || (128 <=? length (com ++ ed))%nat)).
  { rewrite negb_orb. f_equal. unfold INPUT_BUF.
    destruct (Z.ltb_spec (u32 (cn_e s - cn_r s)) 128); destruct (Nat.leb_spec 128 (length (com ++ ed))); lia || done. }
  rewrite Eb. destruct ((c =? 0) || _) eqn:Ez; cbn [negb].
  { bsteps. apply HQ; [apply tx_le_refl, Hp|done|]. unfold cons_view. by rewrite Ecom, Eed. }
  apply orb_false_iff in Ez as [_ Ez]. apply Nat.leb_gt in Ez. cbn [when].
  apply wp_cons_insert; [done|done|done| |unfold INPUT_BUF; lia|].
  - unfold is_u8, newline. destruct (c =? 13); lia.
  - rewrite Ecom, Eed. exact HQ.
Qed.

(** C13: consoleintr is a line editor.  Whatever character arrives, the lines that
    read() may have and the line being typed change as [edit] says: DEL and ^H
    remove the last character of the line, ^U the line, ^P nothing; any other
    character is appended while there is room, with \r turned into \n, and a newline,
    ^D or a full buffer hands the line to read().  The indices and the buffer stay
    well-formed. *)
Theorem consoleintr_refines c s :
  intr_ok s -> cons_wf s -> 0 <= c < 256 ->
  wp (consoleintr c) (fun _ s' =>
    cons_view s' = edit c (cons_view s) /\ cons_wf s' /\ intr_ok s' /\ pst_le (procs_c s) (procs_c s')) s.
Proof.
  intros [Hp Hpr Hf Hpf Hlen] Hs Hc. unfold consoleintr. mstep. apply wp_lock; [exact Hf|].
  set (k := k_lk (ps_k (procs_c s))) in *. set (s1 := lset (locked_by cons_lock k) s).
  destruct Hp as [P1 P2 P3]. mstep. apply (consoleintr_body c s1); [| | | |done|].
  - split; [by apply locked_by_wf|done|by destruct P3].
  - by apply locked_by_free.
  - split_and!; [by apply locked_by_wf| |done]. intros i. by apply locked_by_free.
  - by destruct Hs.
  - intros s2 L W V. eapply wp_unlock; [exact P1|exact Hf|exact (pl_lk _ _ (tl_procs _ _ L))|].
    set (s3 := lset (settle k) s2).
    assert (Hle : pst_le (procs_c s) (procs_c s3)).
    { destruct L as [_ [Q1 Q2 Q3 Q4 Q5 Q6 Q7] _ _]. split; try done. apply settle_eqv. }
    split_and!; [exact V|by destruct W| |done].
    assert (E3 : k_lk (ps_k (procs_c s3)) = settle k) by done.
    split; unfold pr_free; rewrite ?E3; [|by apply settle_free|by apply settle_free| |].
    + destruct L as [T _ _ K]. split; [change (intr_wf (settle k)); by apply settle_wf| |by destruct T].
      exact (eq_trans K P2).
    + intros i. by apply settle_free.
    + rewrite <- Hlen. symmetry. eapply Forall2_length, Hle.
Qed.

Lemma consoleintr_refines_witness :
  wp (consoleintr 13) (fun _ s' => cons_view s' = ([10], [])) (demo_console 1).
Proof.
  eapply wp_mono.
  - apply (consoleintr_refines 13 (demo_console 1)); [| |lia].
    + split; try done. split; try done. split; try done. apply Forall_replicate. unfold is_u8. lia.
    + split; try done. apply not_elem_of_nil.
  - intros _ s' (V & _). exact V.
Defined.
