(* ===== verification/PrintfProofs.v ===== *)
(** * kernel/printf.c: numbers

    What printf prints for %d, %x and %p can be read back, and the digits fit into
    the local buffer. *)

From Stdlib Require Import ZArith Lia Ascii.
From stdpp Require Import base list gmap strings.
From S2P Require Import Prelude KString Spinlock Riscv Kalloc Vm Proc Sleeplock Bio Log Fs Pipe Uart Console.

(** ** Reading numbers *)

Definition digit_val (c : Z) : Z := if c <? 97 then c - 48 else c - 87.
Fixpoint value (base acc : Z) (l : list Z) : Z :=
  match l with
  | [] => acc
  | c :: l' => value base (acc * base + digit_val c) l'
  end.
(** A number with an optional sign. *)
Definition parse_int (base : Z) (l : list Z) : Z :=
  match l with
  | c :: l' => if c =? 45 then - value base 0 l' else value base 0 l
  | [] => 0
  end.

Lemma value_app base acc l l' : value base acc (l ++ l') = value base (value base acc l) l'.
Proof. revert acc. induction l as [|c l IH]; intros acc; cbn; [done|apply IH]. Qed.

Lemma digits_val d : 0 <= d < 16 ->
  digit_val (default 0 (zlookup digits d)) = d /\ default 0 (zlookup digits d) <> 45.
Proof.
  intros Hd. assert (Hall : Forall (fun d => digit_val (default 0 (zlookup digits d)) = d /\
    default 0 (zlookup digits d) <> 45) (zseq 0 16)) by (apply (bool_decide_unpack _); vm_compute; done).
  rewrite Forall_forall in Hall. apply Hall. unfold zseq. apply list_elem_of_fmap.
  exists (Z.to_nat d). split; [lia|]. apply elem_of_seq. lia.
Qed.

(** The digits, reversed, have the value of the number; there are at most [k] of
    them if the number is below base^k. *)
Lemma digits_loop_value base fuel x :
  2 <= base <= 16 -> 0 <= x < base ^ Z.of_nat fuel -> (0 < fuel)%nat ->
  value base 0 (reverse (digits_loop fuel x base)) = x.
Proof.
  intros Hb. revert x. induction fuel as [|fuel IH]; intros x Hx Hf; [lia|]. cbn [digits_loop].
  destruct (digits_val (x mod base)) as [Hv _]; [pose proof (Z.mod_pos_bound x base); lia|].
  rewrite reverse_cons, value_app. cbn [value]. rewrite Hv.
  destruct (Z.eqb_spec (x / base) 0) as [E|Hne].
  - cbn. pose proof (Z.div_mod x base). nia.
  - assert (0 < x / base) by (pose proof (Z.div_pos x base); lia).
    destruct fuel as [|fuel].
    { assert (x / base = 0); [|lia]. apply Z.div_small. lia. }
    rewrite IH; [pose proof (Z.div_mod x base); lia| |lia].
    split; [lia|]. apply Z.div_lt_upper_bound; [lia|].
    replace (Z.of_nat (S (S fuel))) with (1 + Z.of_nat (S fuel)) in Hx by lia.
    rewrite Z.pow_add_r, Z.pow_1_r in Hx by lia. lia.
Qed.

Lemma digits_loop_length base fuel k x :
  2 <= base -> 0 <= x < base ^ Z.of_nat k -> (0 < k)%nat -> (length (digits_loop fuel x base) <= k)%nat.
Proof.
  intros Hb. revert x k. induction fuel as [|fuel IH]; intros x k Hx Hk; cbn; [lia|].
  destruct (Z.eqb_spec (x / base) 0) as [E|Hne]; cbn; [lia|].
  destruct k as [|k]; [lia|]. apply le_n_S. 
  assert (0 < x / base) by (pose proof (Z.div_pos x base); lia).
  destruct k as [|k].
  { assert (x / base = 0); [|lia]. apply Z.div_small. lia. }
  apply IH; [|lia]. split; [lia|]. apply Z.div_lt_upper_bound; [lia|].
  replace (Z.of_nat (S (S k))) with (1 + Z.of_nat (S k)) in Hx by lia.
  rewrite Z.pow_add_r, Z.pow_1_r in Hx by lia. lia.
Qed.

Lemma digits_loop_nonempty fuel x base : (0 < fuel)%nat -> digits_loop fuel x base <> [].
Proof. by destruct fuel; [lia|]. Qed.

Lemma digits_loop_no_sign base fuel x :
  2 <= base <= 16 -> Forall (fun c => c <> 45) (digits_loop fuel x base).
Proof.
  intros Hb. revert x. induction fuel as [|fuel IH]; intros x; cbn; [done|]. constructor.
  - apply digits_val. pose proof (Z.mod_pos_bound x base). lia.
  - by destruct (_ =? 0).
Qed.

(** The number that printint converts. *)
Definition shown (xx : Z) (sign : bool) : Z := if sign then xx else u32 xx.

(** What printint prints is the number: reading the characters back, sign and
    digits in the base, gives xx (or xx as an unsigned number if no sign is asked
    for), for every 32-bit xx including the smallest one; and it never stores more
    than its local buffer of 16 characters can hold. *)
Theorem printint_roundtrip xx base sign :
  base = 10 \/ base = 16 -> - 2 ^ 31 <= xx < 2 ^ 31 ->
  parse_int base (printint xx base sign) = shown xx sign /\ (length (printint xx base sign) <= 16)%nat.
Proof.
  intros Hb Hx. assert (Hb' : 2 <= base <= 16) by lia. unfold printint, shown.
  set (neg := sign && (xx <? 0)). set (x := if neg then u32 (- xx) else u32 xx).
  assert (Hxr : 0 <= x < 2 ^ 32).
  { unfold x, u32. destruct neg; apply Z.mod_pos_bound; lia. }
  assert (Hv : value base 0 (reverse (digits_loop 32 x base)) = x).
  { apply digits_loop_value; [done| |lia]. split; [lia|].
    apply Z.lt_le_trans with (2 ^ 32); [lia|]. apply (Z.pow_le_mono_l 2 base (Z.of_nat 32)). lia. }
  assert (Hl : (length (digits_loop 32 x base) <= 10)%nat).
  { apply digits_loop_length; [lia| |lia]. split; [lia|]. destruct Hb as [->| ->]; cbn; lia. }
  pose proof (digits_loop_no_sign base 32 x Hb') as Hns.
  pose proof (digits_loop_nonempty 32 x base ltac:(lia)) as Hne.
  destruct neg eqn:En.
  - apply andb_true_iff in En as [-> Hneg%Z.ltb_lt].
    rewrite reverse_app. cbn [reverse rev_append app]. change (reverse [45] ++ ?l) with (45 :: l).
    cbn [parse_int]. rewrite Z.eqb_refl, Hv. split.
    + unfold x, u32. rewrite Z.mod_small; lia.
    + cbn [length]. rewrite length_reverse. lia.
  - rewrite app_nil_r. split; [|rewrite length_reverse; lia].
    destruct (reverse (digits_loop 32 x base)) as [|c ds] eqn:Er.
    { apply (f_equal reverse) in Er. rewrite reverse_involutive in Er. done. }
    assert (Hc : c <> 45).
    { rewrite Forall_forall in Hns. apply Hns, elem_of_reverse. rewrite Er. left. }
    cbn [parse_int]. rewrite (proj2 (Z.eqb_neq c 45)), Hv by done. unfold x.
    destruct sign; [|done]. cbn in En. apply Z.ltb_ge in En. unfold u32. apply Z.mod_small. lia.
Qed.

Lemma printint_roundtrip_witness :
  parse_int 10 (printint (- 2 ^ 31) 10 true) = - 2 ^ 31 /\ printint (-255) 16 true = str "-ff".
Proof.
  split; [|by vm_compute]. apply (printint_roundtrip (- 2 ^ 31) 10 true); [by left|lia].
Defined.
