(* ===== verification/File.v ===== *)
(** * kernel/file.c: open files, and pipealloc of kernel/pipe.c

    An open file is an index in ftable.file.  The only device is the console:
    devsw has an entry for major number CONSOLE once consoleinit has run. *)

From Stdlib Require Import ZArith Lia.
From stdpp Require Import base list gmap strings.
From S2P Require Import Prelude KString Spinlock Riscv Kalloc Vm Proc Sleeplock Bio Log Fs Pipe Uart Console.

Definition NFILE : nat := 100.
Definition NDEV : Z := 10.
Definition CONSOLE : Z := 1.

Inductive filetype := FD_NONE | FD_PIPE | FD_INODE | FD_DEVICE.

#[global] Instance filetype_eq_dec : EqDecision filetype.
Proof. solve_decision. Defined.

Record file := mk_file {
  f_type : filetype;
  f_ref : Z;  (* reference count *)
  f_readable : bool;
  f_writable : bool;
  f_pipe : Z;  (* FD_PIPE: address of the pipe *)
  f_ip : nat;  (* FD_INODE and FD_DEVICE: index in icache *)
  f_off : Z;  (* FD_INODE *)
  f_major : Z;  (* FD_DEVICE *)
}.

Definition set_f_type (x : filetype) (f : file) : file :=
  mk_file x (f_ref f) (f_readable f) (f_writable f) (f_pipe f) (f_ip f) (f_off f) (f_major f).
Definition set_f_ref (x : Z) (f : file) : file :=
  mk_file (f_type f) x (f_readable f) (f_writable f) (f_pipe f) (f_ip f) (f_off f) (f_major f).
Definition set_f_readable (x : bool) (f : file) : file :=
  mk_file (f_type f) (f_ref f) x (f_writable f) (f_pipe f) (f_ip f) (f_off f) (f_major f).
Definition set_f_writable (x : bool) (f : file) : file :=
  mk_file (f_type f) (f_ref f) (f_readable f) x (f_pipe f) (f_ip f) (f_off f) (f_major f).
Definition set_f_pipe (x : Z) (f : file) : file :=
  mk_file (f_type f) (f_ref f) (f_readable f) (f_writable f) x (f_ip f) (f_off f) (f_major f).
Definition set_f_ip (x : nat) (f : file) : file :=
  mk_file (f_type f) (f_ref f) (f_readable f) (f_writable f) (f_pipe f) x (f_off f) (f_major f).
Definition set_f_off (x : Z) (f : file) : file :=
  mk_file (f_type f) (f_ref f) (f_readable f) (f_writable f) (f_pipe f) (f_ip f) x (f_major f).
Definition set_f_major (x : Z) (f : file) : file :=
  mk_file (f_type f) (f_ref f) (f_readable f) (f_writable f) (f_pipe f) (f_ip f) (f_off f) x.

Definition file0 : file := mk_file FD_NONE 0 false false 0 0 0 0.

Record flst := mk_flst {
  fl_cn : cnst;
  fl_file : list file;  (* ftable.file[NFILE] *)
}.

Definition set_fl_cn (x : cnst) (s : flst) : flst :=
  mk_flst x (fl_file s).
Definition set_fl_file (x : list file) (s : flst) : flst :=
  mk_flst (fl_cn s) x.

#[global] Instance lens_fl_cn : Lens flst cnst.
Proof. by exists fl_cn set_fl_cn; intros; destruct s. Defined.
#[global] Instance lens_fl_u : Lens flst utst := lens_trans lens_fl_cn lens_cn_u.
#[global] Instance lens_fl_pp : Lens flst ppst := lens_trans lens_fl_cn lens_cn_pp.
#[global] Instance lens_fl_fs : Lens flst fsst := lens_trans lens_fl_cn lens_cn_fs.
#[global] Instance lens_fl_l : Lens flst lst := lens_trans lens_fl_cn lens_cn_l.
#[global] Instance lens_fl_p : Lens flst pst := lens_trans lens_fl_cn lens_cn_p.
#[global] Instance lens_fl_k : Lens flst kmst := lens_trans lens_fl_cn lens_cn_k.
#[global] Instance lens_fl_lk : Lens flst lks := lens_trans lens_fl_cn lens_cn_lk.

Definition ftable_lock : lockid := ("ftable"%string, 0).

Definition file_at (f : nat) (s : flst) : file := default file0 (fl_file s !! f).
Definition getf {A} (f : nat) (g : file -> A) : M flst A := gets (fun s => g (file_at f s)).
Definition setf (f : nat) (g : file -> file) : M flst unit :=
  modify (fun s => set_fl_file (alter g f (fl_file s)) s).

Section file.
Context (end_ : Z).

Definition fileinit : M flst unit := ↑ initlock ftable_lock.

Definition filealloc : M flst (option nat) :=
  ↑ acquire ftable_lock;;
  files ← gets fl_file;
  match list_find (fun x => f_ref x = 0) files with
  | Some (f, _) =>
      setf f (set_f_ref 1);;
      ↑ release ftable_lock;;
      mret (Some f)
  | None =>
      ↑ release ftable_lock;;
      mret None
  end.

Definition filedup (f : nat) : M flst nat :=
  ↑ acquire ftable_lock;;
  ref ← getf f f_ref;
  if ref <? 1 then panic "filedup" else
  setf f (set_f_ref (ref + 1));;
  ↑ release ftable_lock;;
  mret f.

Definition fileclose (f : nat) : M flst unit :=
  ↑ acquire ftable_lock;;
  ref ← getf f f_ref;
  if ref <? 1 then panic "fileclose" else
  setf f (set_f_ref (ref - 1));;
  if 0 <? ref - 1 then ↑ release ftable_lock else
  ff ← getf f id;
  setf f (fun x => set_f_type FD_NONE (set_f_ref 0 x));;
  ↑ release ftable_lock;;
  match f_type ff with
  | FD_PIPE => ↑ pipeclose end_ (f_pipe ff) (f_writable ff)
  | FD_INODE | FD_DEVICE =>
      ↑ begin_op;;
      ↑ iput (f_ip ff);;
      ↑ end_op
  | FD_NONE => mret tt
  end.

(** struct stat in memory; [pad] are the four bytes between nlink and size,
    which the C code never writes. *)
Definition stat_bytes (st : stat) (pad : list Z) : list Z :=
  let z n := replicate n 0 in
  put_le 4 (z 4%nat) 0 (st_dev st) ++ put_le 4 (z 4%nat) 0 (st_ino st) ++
  put_le 2 (z 2%nat) 0 (st_type st) ++ put_le 2 (z 2%nat) 0 (st_nlink st) ++
  pad ++ put_le 8 (z 8%nat) 0 (st_size st).

Definition filestat (f : nat) (addr : Z) (pad : list Z) : M flst Z :=
  p ← ↑ curproc;
  x ← getf f id;
  if bool_decide (f_type x = FD_INODE) || bool_decide (f_type x = FD_DEVICE) then
    ↑ ilock (f_ip x);;
    st ← ↑ stati (f_ip x);
    ↑ iunlock (f_ip x);;
    pt ← ↑ getp p p_pagetable;
    r ← ↑ copyout pt addr (stat_bytes st pad) 24;
    if r <? 0 then mret (-1) else mret 0
  else mret (-1).

(** devsw[major].read and .write exist *)
Definition has_device (major : Z) (s : flst) : bool :=
  (0 <=? major) && (major <? NDEV) && (major =? CONSOLE) && cn_devsw (fl_cn s).

Definition fileread (f : nat) (addr n : Z) : M flst Z :=
  x ← getf f id;
  if negb (f_readable x) then mret (-1) else
  match f_type x with
  | FD_PIPE => ↑ piperead (f_pipe x) addr n
  | FD_DEVICE =>
      d ← gets (has_device (f_major x));
      if negb d then mret (-1) else
      '(r, _) ← ↑ consoleread (DUser addr) n;
      mret r
  | FD_INODE =>
      ↑ ilock (f_ip x);;
      '(r, _) ← ↑ readi (f_ip x) (DUser addr) (f_off x) (u32 n);
      let r := i32 r in
      when (0 <? r) (setf f (fun x => set_f_off (u32 (f_off x + r)) x));;
      ↑ iunlock (f_ip x);;
      mret r
  | FD_NONE => panic "fileread"
  end.

(** max in filewrite: what fits in a transaction. *)
Definition filewrite_max : Z := (MAXOPBLOCKS - 1 - 1 - 2) / 2 * 1024.

(** The loop of filewrite; every round that goes on writes at least one byte. *)
Fixpoint filewrite_loop (fuel : nat) (f : nat) (ip : nat) (addr n i : Z) : M flst Z :=
  if i <? n then
    match fuel with
    | O => out_of_fuel
    | S fuel' =>
        let n1 := Z.min (n - i) filewrite_max in
        ↑ begin_op;;
        ↑ ilock ip;;
        off ← getf f f_off;
        r ← ↑ writei ip (SUser (u64 (addr + i))) off n1;
        when (0 <? r) (setf f (fun x => set_f_off (u32 (f_off x + r)) x));;
        ↑ iunlock ip;;
        ↑ end_op;;
        if r <? 0 then mret i else
        if negb (r =? n1) then panic "short filewrite" else
        filewrite_loop fuel' f ip addr n (i + r)
    end
  else mret i.

Definition filewrite (f : nat) (addr n : Z) : M flst Z :=
  x ← getf f id;
  if negb (f_writable x) then mret (-1) else
  match f_type x with
  | FD_PIPE => ↑ pipewrite (f_pipe x) addr n
  | FD_DEVICE =>
      d ← gets (has_device (f_major x));
      if negb d then mret (-1) else ↑ consolewrite (SUser addr) n
  | FD_INODE =>
      i ← filewrite_loop (Z.to_nat n) f (f_ip x) addr n 0;
      mret (if i =? n then n else -1)
  | FD_NONE => panic "filewrite"
  end.

(** The two files of a new pipe. *)
Definition pipealloc : M flst (option (nat * nat)) :=
  f0 ← filealloc;
  match f0 with
  | None => mret None
  | Some f0 =>
      f1 ← filealloc;
      match f1 with
      | None => fileclose f0;; mret None
      | Some f1 =>
          pi ← ↑ kalloc;
          if pi =? 0 then fileclose f0;; fileclose f1;; mret None
          else
            ↑ setpi pi (fun x => set_pi_nread 0 (set_pi_nwrite 0 (set_pi_writeopen true (set_pi_readopen true x))));;
            ↑ initlock (pipe_lock pi);;
            setf f0 (fun x => set_f_pipe pi (set_f_writable false (set_f_readable true (set_f_type FD_PIPE x))));;
            setf f1 (fun x => set_f_pipe pi (set_f_writable true (set_f_readable false (set_f_type FD_PIPE x))));;
            mret (Some (f0, f1))
      end
  end.

End file.
