(* ===== verification/ProcLife.v ===== *)
(** * kernel/proc.c: the life of a process

    userinit, fork, exit and wait, which use the file system, and forkret. *)

From Stdlib Require Import ZArith Lia.
From stdpp Require Import base list gmap strings.
From S2P Require Import Prelude KString Spinlock Riscv Kalloc Vm Proc Sleeplock Bio Log Fs Pipe Uart Console File.

(** Offsets in struct trapframe. *)
Definition TF_KERNEL_SATP : Z := 0.
Definition TF_KERNEL_SP : Z := 8.
Definition TF_KERNEL_TRAP : Z := 16.
Definition TF_EPC : Z := 24.
Definition TF_KERNEL_HARTID : Z := 32.
Definition TF_SP : Z := 48.
Definition TF_A0 : Z := 112.
Definition TF_A1 : Z := 120.
Definition TF_A7 : Z := 168.
Definition TF_SIZE : Z := 288.

Definition tf_get (p : nat) (off : Z) : M pst Z :=
  tf ← getp p p_trapframe;
  ↑ load64 (tf + off).
Definition tf_set (p : nat) (off v : Z) : M pst unit :=
  tf ← getp p p_trapframe;
  ↑ store64 (tf + off) v.

Definition initcode : list Z :=
  [23; 5; 0; 0; 19; 5; 69; 2;
   151; 5; 0; 0; 147; 133; 53; 2;
   147; 8; 112; 0; 115; 0; 0; 0;
   147; 8; 32; 0; 115; 0; 0; 0;
   239; 240; 159; 255; 47; 105; 110; 105;
   116; 0; 0; 36; 0; 0; 0; 0;
   0; 0; 0; 0].

(** safestrcpy(p->name, s, sizeof(p->name)) *)
Definition set_name (s : nat -> Z) (p : proc) : proc :=
  let n := safestrcpy s 16 in set_p_name (n ++ drop (length n) (p_name p)) p.

Section life.
Context (end_ trampoline forkret_addr : Z).

Definition userinit : M flst unit :=
  r ← ↑ allocproc end_ trampoline forkret_addr;
  match r with
  | None => panic "kerneltrap"
  | Some p =>
      ↑ modify (set_ps_initproc (Some p));;
      pt ← ↑ getp p p_pagetable;
      ↑ uvminit pt initcode;;
      ↑ setp p (set_p_sz PGSIZE);;
      ↑ tf_set p TF_EPC 0;;
      ↑ tf_set p TF_SP PGSIZE;;
      ↑ setp p (set_name (cstr (str "initcode")));;
      cwd ← ↑ namei (str "/");
      ↑ setp p (set_p_cwd cwd);;
      ↑ setp p (set_p_state RUNNABLE);;
      ↑ release (proc_lock p)
  end.

Definition fork : M flst Z :=
  p ← ↑ curproc;
  r ← ↑ allocproc end_ trampoline forkret_addr;
  match r with
  | None => mret (-1)
  | Some np =>
      pt ← ↑ getp p p_pagetable;
      npt ← ↑ getp np p_pagetable;
      sz ← ↑ getp p p_sz;
      r ← ↑ uvmcopy end_ pt npt sz;
      if r <? 0 then
        ↑ freeproc end_ np;;
        ↑ release (proc_lock np);;
        mret (-1)
      else
        ↑ setp np (set_p_sz sz);;
        ↑ setp np (set_p_parent (Some p));;
        tf ← ↑ getp p p_trapframe;
        ntf ← ↑ getp np p_trapframe;
        ↑ mem_update (fun m => memmove m ntf tf TF_SIZE);;
        ↑ tf_set np TF_A0 0;;
        for_each (seq 0 NOFILE) (fun i =>
          o ← ↑ getp p (fun x => default None (p_ofile x !! i));
          match o with
          | Some f =>
              f' ← filedup f;
              ↑ setp np (fun x => set_p_ofile (<[i := Some f']> (p_ofile x)) x);;
              mret (None : option unit)
          | None => mret None
          end);;
        cwd ← ↑ getp p p_cwd;
        match cwd with
        | None => panic "kerneltrap"
        | Some cwd =>
            cwd' ← ↑ idup cwd;
            ↑ setp np (set_p_cwd (Some cwd'));;
            name ← ↑ getp p p_name;
            ↑ setp np (set_name (cstr name));;
            pid ← ↑ getp np p_pid;
            ↑ setp np (set_p_state RUNNABLE);;
            ↑ release (proc_lock np);;
            mret pid
        end
  end.

(** A pointer to a process that the code dereferences. *)
Definition the_proc (p : option nat) : M flst nat :=
  match p with Some i => mret i | None => panic "kerneltrap" end.

Definition exit (status : Z) : M flst unit :=
  p ← ↑ curproc;
  init ← ↑ gets ps_initproc;
  if bool_decide (init = Some p) then panic "init exiting" else
  for_each (seq 0 NOFILE) (fun fd =>
    o ← ↑ getp p (fun x => default None (p_ofile x !! fd));
    match o with
    | Some f =>
        fileclose end_ f;;
        ↑ setp p (fun x => set_p_ofile (<[fd := None]> (p_ofile x)) x);;
        mret (None : option unit)
    | None => mret None
    end);;
  ↑ begin_op;;
  cwd ← ↑ getp p p_cwd;
  cwd ← the_proc cwd;
  ↑ iput cwd;;
  ↑ end_op;;
  ↑ setp p (set_p_cwd None);;
  init ← the_proc init;
  ↑ acquire (proc_lock init);;
  ↑ wakeup1 init;;
  ↑ release (proc_lock init);;
  ↑ acquire (proc_lock p);;
  parent ← ↑ getp p p_parent;
  ↑ release (proc_lock p);;
  parent ← the_proc parent;
  ↑ acquire (proc_lock parent);;
  ↑ acquire (proc_lock p);;
  ↑ reparent p;;
  ↑ wakeup1 parent;;
  ↑ setp p (set_p_xstate status);;
  ↑ setp p (set_p_state ZOMBIE);;
  ↑ release (proc_lock parent);;
  ↑ sched;;
  panic "zombie exit".

(** The inner loop of wait: a value to return, or whether there are children. *)
Fixpoint wait_scan (l : list nat) (p : nat) (addr : Z) (havekids : bool) : M flst (Z + bool) :=
  match l with
  | [] => mret (inr havekids)
  | np :: l' =>
      par ← ↑ getp np p_parent;
      if bool_decide (par = Some p) then
        ↑ acquire (proc_lock np);;
        x ← ↑ getp np id;
        if bool_decide (p_state x = ZOMBIE) then
          pt ← ↑ getp p p_pagetable;
          r ← (if negb (addr =? 0)
               then ↑ copyout pt addr (put_le 4 (replicate 4 0) 0 (p_xstate x)) 4
               else mret 0);
          if r <? 0 then
            ↑ release (proc_lock np);;
            ↑ release (proc_lock p);;
            mret (inl (-1))
          else
            ↑ freeproc end_ np;;
            ↑ release (proc_lock np);;
            ↑ release (proc_lock p);;
            mret (inl (p_pid x))
        else
          ↑ release (proc_lock np);;
          wait_scan l' p addr true
      else wait_scan l' p addr havekids
  end.

(** A round of the outer loop of wait. *)
Definition wait_loop (p : nat) (addr : Z) : M flst Z :=
  r ← wait_scan (seq 0 NPROC) p addr false;
  match r with
  | inl r => mret r
  | inr havekids =>
      killed ← ↑ getp p p_killed;
      if negb havekids || negb (killed =? 0) then
        ↑ release (proc_lock p);;
        mret (-1)
      else
        ↑ sleep (proc_chan p) (proc_lock p);;
        mret 0
  end.

Definition wait (addr : Z) : M flst Z :=
  p ← ↑ curproc;
  ↑ acquire (proc_lock p);;
  wait_loop p addr.

Definition wait_back (p : nat) (addr : Z) : M flst Z :=
  ↑ sleep_back (proc_lock p);;
  wait_loop p addr.

(** forkret() up to usertrapret(); [first] is its static variable, whose new
    value it returns. *)
Definition forkret (first : bool) : M flst bool :=
  p ← ↑ curproc;
  ↑ release (proc_lock p);;
  when first (↑ fsinit ROOTDEV);;
  mret false.

End life.
