(* ===== verification/Initcode.v ===== *)
(** * user/initcode.S and the array initcode of kernel/proc.c

    The first process runs the machine code in the array initcode, which uvminit() copies to a page of
    zeros at address 0.  Here are the four instructions of RV64I that it consists of, with their
    encodings, an assembler for the source, and a machine that runs a page until the next
    ecall.  [initcode_execs]: the array and the assembled source both exec /init. *)

From Stdlib Require Import ZArith Lia.
From stdpp Require Import base list strings.
From S2P Require Import Prelude Riscv ProcLife.

Module Initcode.

(** ** Instructions *)

Inductive insn :=
| Auipc (rd imm : Z)
| Addi (rd rs imm : Z)
| Jal (rd off : Z)
| Ecall.

Definition bits (w lo n : Z) : Z := Z.shiftr w lo mod 2 ^ n.
Definition sext (n x : Z) : Z := if x <? 2 ^ (n - 1) then x else x - 2 ^ n.

Definition decode (w : Z) : option insn :=
  let op := bits w 0 7 in
  let rd := bits w 7 5 in
  if w =? 115 then Some Ecall
  else if op =? 23 then Some (Auipc rd (sext 20 (bits w 12 20)))
  else if (op =? 19) && (bits w 12 3 =? 0) then Some (Addi rd (bits w 15 5) (sext 12 (bits w 20 12)))
  else if op =? 111 then
    Some (Jal rd (sext 21 (Z.shiftl (bits w 31 1) 20 + Z.shiftl (bits w 12 8) 12 + Z.shiftl (bits w 20 1) 11 + Z.shiftl (bits w 21 10) 1)))
  else None.

Definition encode (i : insn) : Z :=
  match i with
  | Auipc rd imm => Z.shiftl (bits imm 0 20) 12 + Z.shiftl rd 7 + 23
  | Addi rd rs imm => Z.shiftl (bits imm 0 12) 20 + Z.shiftl rs 15 + Z.shiftl rd 7 + 19
  | Jal rd off =>
      Z.shiftl (bits off 20 1) 31 + Z.shiftl (bits off 1 10) 21 + Z.shiftl (bits off 11 1) 20 + Z.shiftl (bits off 12 8) 12 +
      Z.shiftl rd 7 + 111
  | Ecall => 115
  end.

(** ** The source *)

Inductive item :=
| Label (l : string)
| La (rd : Z) (l : string)
| Li (rd n : Z)
| Call                        (* ecall *)
| J (l : string)              (* jal l *)
| String (s : list Z)         (* .string *)
| P2align (n : Z)
| LongL (l : string)          (* .long l *)
| Long (n : Z).

Definition ra : Z := 1.
Definition a0 : Z := 10.
Definition a1 : Z := 11.
Definition a7 : Z := 17.
Definition SYS_exec : Z := 7.
Definition SYS_exit : Z := 2.

Definition initcode_S : list item :=
  [Label "start"; La a0 "init"; La a1 "argv"; Li a7 SYS_exec; Call;
   Label "exit"; Li a7 SYS_exit; Call; J "exit";
   Label "init"; String (str "/init" ++ [0]);
   P2align 2; Label "argv"; LongL "init"; Long 0].

(** ** The assembler *)

Definition size (pc : Z) (i : item) : Z :=
  match i with
  | Label _ => 0
  | La _ _ => 8
  | Li _ _ | Call | J _ | LongL _ | Long _ => 4
  | String s => Z.of_nat (length s) + 1
  | P2align n => - pc mod 2 ^ n
  end.

Fixpoint symbols (pc : Z) (l : list item) : list (string * Z) :=
  match l with
  | [] => []
  | i :: l' => (match i with Label x => [(x, pc)] | _ => [] end) ++ symbols (pc + size pc i) l'
  end.

Definition value (tab : list (string * Z)) (l : string) : Z :=
  default 0 (snd <$> head (filter (fun p => p.1 = l) tab)).

Definition word (w : Z) : list Z := put_le 4 (replicate 4 0) 0 w.

Definition emit (tab : list (string * Z)) (pc : Z) (i : item) : list Z :=
  match i with
  | Label _ => []
  | La rd l =>
      let d := value tab l - pc in
      let hi := Z.shiftr (d + 2048) 12 in
      word (encode (Auipc rd hi)) ++ word (encode (Addi rd rd (d - Z.shiftl hi 12)))
  | Li rd n => word (encode (Addi rd 0 n))
  | Call => word (encode Ecall)
  | J l => word (encode (Jal ra (value tab l - pc)))
  | String s => s ++ [0]
  | P2align n => replicate (Z.to_nat (size pc i)) 0
  | LongL l => word (value tab l)
  | Long n => word n
  end.

Fixpoint emits (tab : list (string * Z)) (pc : Z) (l : list item) : list Z :=
  match l with
  | [] => []
  | i :: l' => emit tab pc i ++ emits tab (pc + size pc i) l'
  end.

Definition assemble (l : list item) : list Z := emits (symbols 0 l) 0 l.

(** ** The machine *)

Record mach := mk_mach { pc : Z; regs : Z -> Z; mem : list Z }.

(** A page that starts with [code]. *)
Definition page (code : list Z) : list Z := code ++ replicate (Z.to_nat PGSIZE - length code) 0.

(** Register 0 is always 0. *)
Definition get_reg (f : Z -> Z) (r : Z) : Z := if r =? 0 then 0 else f r.
Definition set_reg (r v : Z) (f : Z -> Z) : Z -> Z := fun x => if (x =? r) && negb (r =? 0) then v else f x.

Definition fetch (m : mach) : option insn := decode (get_le 4 (mem m) (Z.to_nat (pc m))).

Definition exec (i : insn) (m : mach) : mach :=
  match i with
  | Auipc rd imm => mk_mach (pc m + 4) (set_reg rd (u64 (pc m + Z.shiftl imm 12)) (regs m)) (mem m)
  | Addi rd rs imm => mk_mach (pc m + 4) (set_reg rd (u64 (get_reg (regs m) rs + imm)) (regs m)) (mem m)
  | Jal rd off => mk_mach (pc m + off) (set_reg rd (pc m + 4) (regs m)) (mem m)
  | Ecall => m
  end.

(** Runs to the next ecall. *)
Fixpoint run (fuel : nat) (m : mach) : option mach :=
  match fetch m with
  | None => None
  | Some Ecall => Some m
  | Some i =>
      match fuel with
      | O => None
      | S fuel' => run fuel' (exec i m)
      end
  end.

(** The state after the kernel has returned [v] from the ecall. *)
Definition return_from (m : mach) (v : Z) : mach := mk_mach (pc m + 4) (set_reg a0 v (regs m)) (mem m).

(** The [n]-th ecall, when the kernel returns [v i] from the [i]-th. *)
Fixpoint nth_call (v : nat -> Z) (n : nat) (m : mach) : option mach :=
  match n with
  | O => run 6 m
  | S n' => c ← nth_call v n' m; run 6 (return_from c (v n'))
  end.

(** What the kernel finds at an ecall: exec("/init", {"/init", 0}). *)
Definition execs_init (m : mach) : Prop :=
  regs m a7 = SYS_exec /\
  until_nul (drop (Z.to_nat (regs m a0)) (mem m)) = str "/init" /\
  get_le 8 (mem m) (Z.to_nat (regs m a1)) = regs m a0 /\
  get_le 8 (mem m) (Z.to_nat (regs m a1) + 8) = 0.

(** ** Theorems *)

(** The array is the assembly of the source without its .p2align: argv is at 43 instead of 44. *)
Lemma initcode_array :
  initcode = assemble (List.filter (fun i => match i with P2align _ => false | _ => true end) initcode_S) ++ [0] /\
  initcode <> assemble initcode_S.
Proof. vm_compute. split; [done|discriminate]. Qed.

Lemma run_step fuel m i : fetch m = Some i -> i <> Ecall -> run (S fuel) m = run fuel (exec i m).
Proof. intros E Hi. cbn [run]. rewrite E. by destruct i. Qed.
Lemma run_ecall fuel m : fetch m = Some Ecall -> run fuel m = Some m.
Proof. intros E. destruct fuel; cbn [run]; by rewrite E. Qed.

(** The instructions of the code, where argv is at [43 + d]. *)
Definition insns (d : Z) : list (Z * insn) :=
  [(0, Auipc a0 0); (4, Addi a0 a0 36); (8, Auipc a1 0); (12, Addi a1 a1 (35 + d)); (16, Addi a7 0 SYS_exec); (20, Ecall);
   (24, Addi a7 0 SYS_exit); (28, Ecall); (32, Jal ra (-8))].

Definition is_init (code : list Z) : Prop := code = initcode \/ code = assemble initcode_S.

Lemma code_insns code : is_init code -> exists d, 0 <= d <= 1 /\
  Forall (fun p => decode (get_le 4 (page code) (Z.to_nat p.1)) = Some p.2) (insns d) /\
  until_nul (drop 36 (page code)) = str "/init" /\ get_le 8 (page code) (Z.to_nat (43 + d)) = 36 /\ get_le 8 (page code) (Z.to_nat (43 + d) + 8) = 0.
Proof.
  intros [-> | ->]; [exists 0|exists 1]; (split; [lia|]); (split; [repeat (constructor; [vm_compute; reflexivity|]); constructor|]);
    split_and!; vm_compute; reflexivity.
Qed.

Lemma fetch_at m code p i d :
  Forall (fun p => decode (get_le 4 (page code) (Z.to_nat p.1)) = Some p.2) (insns d) ->
  mem m = page code -> pc m = p -> (p, i) ∈ insns d -> fetch m = Some i.
Proof. intros Hf Hm Hp Hi. unfold fetch. rewrite Hm, Hp. rewrite Forall_forall in Hf. apply (Hf (p, i) Hi). Qed.

Ltac insn_in := unfold insns; repeat first [apply list_elem_of_here|apply list_elem_of_further].
Ltac one Hf := erewrite run_step; [|eapply (fetch_at _ _ _ _ _ Hf); [reflexivity|reflexivity|insn_in]|done]; cbn [exec pc mem regs].

(** From the exit: on, the only call is exit(). *)
Lemma exit_loop code f p :
  is_init code -> p = 24 \/ p = 32 ->
  exists f', run 6 (mk_mach p f (page code)) = Some (mk_mach 28 f' (page code)) /\ f' a7 = SYS_exit.
Proof.
  intros (d & _ & Hf & _)%code_insns [-> | ->].
  - one Hf. rewrite run_ecall by (eapply (fetch_at _ _ _ _ _ Hf); [reflexivity|reflexivity|insn_in]). by eexists.
  - one Hf. one Hf. rewrite run_ecall by (eapply (fetch_at _ _ _ _ _ Hf); [reflexivity|reflexivity|insn_in]). by eexists.
Qed.

Lemma first_call code f :
  is_init code -> exists f', run 6 (mk_mach 0 f (page code)) = Some (mk_mach 20 f' (page code)) /\ execs_init (mk_mach 20 f' (page code)).
Proof.
  intros (d & Hd & Hf & Hs & H1 & H2)%code_insns. do 5 one Hf.
  rewrite run_ecall by (eapply (fetch_at _ _ _ _ _ Hf); [reflexivity|reflexivity|insn_in]). eexists. split; [reflexivity|].
  unfold execs_init. cbn [regs mem].
  match goal with |- ?g a7 = _ /\ _ => set (f' := g) end.
  assert (f' a0 = 36) as -> by reflexivity.
  assert (f' a1 = 43 + d) as ->.
  { change (f' a1) with (u64 (u64 (8 + Z.shiftl 0 12) + (35 + d))). change (u64 (8 + Z.shiftl 0 12)) with 8. rewrite u64_small by (unfold is_u64; lia). lia. }
  split_and!; [reflexivity|exact Hs|exact H1|exact H2].
Qed.

(** C35: the first user process.  Both the array initcode of proc.c and the source initcode.S,
    assembled, run on a page of zeros from address 0 with any contents of the registers, first call
    exec("/init", {"/init", 0}); whatever the kernel returns from this and the later calls, every
    later call is exit(). *)
Theorem initcode_execs code f v n :
  code = initcode \/ code = assemble initcode_S ->
  exists m, nth_call v n (mk_mach 0 f (page code)) = Some m /\
    match n with O => execs_init m | S _ => regs m a7 = SYS_exit end.
Proof.
  intros Hc.
  assert (exists p f', nth_call v n (mk_mach 0 f (page code)) = Some (mk_mach p f' (page code)) /\
    match n with O => p = 20 /\ execs_init (mk_mach p f' (page code)) | S _ => p = 28 /\ f' a7 = SYS_exit end) as (p & f' & Em & Hm).
  { induction n as [|n (p & g & Em & Hm)]; cbn [nth_call].
    - destruct (first_call code f Hc) as (f' & E & H). by exists 20, f'.
    - rewrite Em. cbn [mbind option_bind]. unfold return_from. cbn [pc regs mem].
      destruct (exit_loop code (set_reg a0 (v n) g) (p + 4) Hc) as (f' & E & H).
      { destruct n; destruct Hm as [-> _]; [by left|by right]. }
      by exists 28, f'. }
  exists (mk_mach p f' (page code)). split; [done|]. destruct n; apply Hm.
Qed.

Lemma initcode_execs_witness :
  exists m, nth_call (fun _ => -1) 1 (mk_mach 0 (fun _ => 0) (page initcode)) = Some m /\ regs m a7 = SYS_exit.
Proof. apply (initcode_execs initcode (fun _ => 0) (fun _ => -1) 1). by left. Defined.

End Initcode.
