(* ===== verification/Exec.v ===== *)
(** * kernel/exec.c: loading a program

    The fields of the ELF header and of the program headers are read from the
    bytes that readi returns.  loadseg reads into the physical page of the
    address space: the bytes that readi returns are stored there. *)

From Stdlib Require Import ZArith Lia.
From stdpp Require Import base list gmap strings.
From S2P Require Import Prelude KString Spinlock Riscv Kalloc Vm Proc Sleeplock Bio Log Fs Pipe Uart Console File ProcLife.

Definition MAXARG : nat := 32.
Definition ELF_MAGIC : Z := 1179403647.
Definition ELF_PROG_LOAD : Z := 1.

(** struct elfhdr *)
Definition elf_magic (e : list Z) : Z := get_le 4 e 0.
Definition elf_entry (e : list Z) : Z := get_le 8 e 24.
Definition elf_phoff (e : list Z) : Z := get_le 8 e 32.
Definition elf_phnum (e : list Z) : Z := get_le 2 e 56.
Definition ELFHDR : Z := 64.
(** struct proghdr *)
Definition ph_type (ph : list Z) : Z := get_le 4 ph 0.
Definition ph_off (ph : list Z) : Z := get_le 8 ph 8.
Definition ph_vaddr (ph : list Z) : Z := get_le 8 ph 16.
Definition ph_filesz (ph : list Z) : Z := get_le 8 ph 32.
Definition ph_memsz (ph : list Z) : Z := get_le 8 ph 40.
Definition PROGHDR : Z := 56.

Definition loadseg (pagetable va : Z) (ip : nat) (offset sz : Z) : M fsst Z :=
  if negb (va mod PGSIZE =? 0) then panic "loadseg: va must be page aligned" else
  r ← for_range 0 sz PGSIZE (fun i =>
    pa ← ↑ walkaddr pagetable (va + i);
    if pa =? 0 then panic "loadseg: address should exist" else
    let n := if sz - i <? PGSIZE then sz - i else PGSIZE in
    '(r, bs) ← readi ip DKern (u32 (offset + i)) n;
    ↑ mem_update (fun m => wr_bytes m pa bs);;
    if negb (r =? n) then mret (Some (-1)) else mret None);
  mret (default 0 r).

Section exec.
Context (end_ trampoline : Z).

(** The loop over the program headers: whether it succeeded, and sz. *)
Fixpoint exec_load (k : nat) (pagetable : Z) (ip : nat) (off sz : Z) : M fsst (bool * Z) :=
  match k with
  | O => mret (true, sz)
  | S k' =>
      '(r, ph) ← readi ip DKern (u32 off) PROGHDR;
      if negb (r =? PROGHDR) then mret (false, sz) else
      if negb (ph_type ph =? ELF_PROG_LOAD) then exec_load k' pagetable ip (i32 (off + PROGHDR)) sz else
      if ph_memsz ph <? ph_filesz ph then mret (false, sz) else
      let top := u64 (ph_vaddr ph + ph_memsz ph) in
      if top <? ph_vaddr ph then mret (false, sz) else
      sz1 ← ↑ uvmalloc end_ pagetable sz top;
      if sz1 =? 0 then mret (false, sz) else
      if negb (ph_vaddr ph mod PGSIZE =? 0) then mret (false, sz1) else
      r ← loadseg pagetable (ph_vaddr ph) ip (u32 (ph_off ph)) (u32 (ph_filesz ph));
      if r <? 0 then mret (false, sz1) else
      exec_load k' pagetable ip (i32 (off + PROGHDR)) sz1
  end.

(** sp after pushing [len] bytes, 16-byte aligned *)
Definition push_sp (sp len : Z) : Z := let sp := u64 (sp - len) in sp - sp mod 16.

(** Pushing the argument strings: sp and ustack, or failure. *)
Fixpoint exec_push (argv : list (list Z)) (pagetable stackbase sp : Z) (ustack : list Z)
    : M kmst (option (Z * list Z)) :=
  match argv with
  | [] => mret (Some (sp, ustack))
  | a :: argv' =>
      if (MAXARG <=? length ustack)%nat then mret None else
      let len := Z.of_nat (length a) + 1 in
      let sp := push_sp sp len in
      if sp <? stackbase then mret None else
      r ← copyout pagetable sp (a ++ [0]) len;
      if r <? 0 then mret None else
      exec_push argv' pagetable stackbase sp (ustack ++ [sp])
  end.

Definition u64_bytes (x : Z) : list Z := put_le 8 (replicate 8 0) 0 x.

(** The path element after the last slash. *)
Fixpoint last_elem (s last : list Z) : list Z :=
  match s with
  | [] => last
  | c :: s' => last_elem s' (if c =? slash then s' else last)
  end.

(** bad: *)
Definition exec_bad (pagetable sz : Z) (ip : option nat) : M fsst Z :=
  when (negb (pagetable =? 0)) (↑ proc_freepagetable end_ pagetable sz);;
  match ip with
  | Some ip => iunlockput ip;; ↑ end_op
  | None => mret tt
  end;;
  mret (-1).

(** From the allocation of the stack on; the inode has been released. *)
Definition exec_stack (p : nat) (path : list Z) (argv : list (list Z)) (pagetable sz entry : Z) : M fsst Z :=
  oldsz ← ↑ getp p p_sz;
  let sz := PGROUNDUP sz in
  sz1 ← ↑ uvmalloc end_ pagetable sz (u64 (sz + 2 * PGSIZE));
  if sz1 =? 0 then exec_bad pagetable sz None else
  let sz := sz1 in
  ↑ uvmclear pagetable (sz - 2 * PGSIZE);;
  let stackbase := sz - PGSIZE in
  r ← ↑ exec_push argv pagetable stackbase sz [];
  match r with
  | None => exec_bad pagetable sz None
  | Some (sp, ustack) =>
      let argc := Z.of_nat (length ustack) in
      let sp := push_sp sp ((argc + 1) * 8) in
      if sp <? stackbase then exec_bad pagetable sz None else
      r ← ↑ copyout pagetable sp (concat (u64_bytes <$> (ustack ++ [0]))) ((argc + 1) * 8);
      if r <? 0 then exec_bad pagetable sz None else
      ↑ tf_set p TF_A1 sp;;
      ↑ setp p (set_name (cstr (last_elem path path)));;
      oldpagetable ← ↑ getp p p_pagetable;
      ↑ setp p (set_p_pagetable pagetable);;
      ↑ setp p (set_p_sz sz);;
      ↑ tf_set p TF_EPC entry;;
      ↑ tf_set p TF_SP sp;;
      ↑ proc_freepagetable end_ oldpagetable oldsz;;
      mret argc
  end.

Definition exec (path : list Z) (argv : list (list Z)) : M fsst Z :=
  p ← ↑ curproc;
  ↑ begin_op;;
  r ← namei path;
  match r with
  | None => ↑ end_op;; mret (-1)
  | Some ip =>
      ilock ip;;
      '(r, elf) ← readi ip DKern 0 ELFHDR;
      if negb (r =? ELFHDR) then exec_bad 0 0 (Some ip) else
      if negb (elf_magic elf =? ELF_MAGIC) then exec_bad 0 0 (Some ip) else
      pagetable ← ↑ proc_pagetable end_ trampoline p;
      if pagetable =? 0 then exec_bad 0 0 (Some ip) else
      '(ok, sz) ← exec_load (Z.to_nat (elf_phnum elf)) pagetable ip (i32 (elf_phoff elf)) 0;
      if negb ok then exec_bad pagetable sz (Some ip) else
      iunlockput ip;;
      ↑ end_op;;
      exec_stack p path argv pagetable sz (elf_entry elf)
  end.

End exec.
