(* ===== verification/Syscall.v ===== *)
(** * kernel/syscall.c: arguments of system calls

    (The table of system calls and syscall() are in Sysproc.v.) *)

From Stdlib Require Import ZArith Lia.
From stdpp Require Import base list gmap strings.
From S2P Require Import Prelude KString Spinlock Riscv Kalloc Vm Proc Sleeplock Bio Log Fs Pipe Uart Console File ProcLife.

(** The result and *ip. *)
Definition fetchaddr (addr : Z) : M pst (Z * Z) :=
  p ← curproc;
  sz ← getp p p_sz;
  if (sz <=? addr) || (sz <? u64 (addr + 8)) then mret (-1, 0) else
  pt ← getp p p_pagetable;
  '(r, bs) ← ↑ copyin pt addr 8;
  if negb (r =? 0) then mret (-1, get_le 8 bs 0) else mret (0, get_le 8 bs 0).

(** The result and the bytes stored in buf. *)
Definition fetchstr (addr max : Z) : M pst (Z * list Z) :=
  p ← curproc;
  pt ← getp p p_pagetable;
  '(err, buf) ← ↑ copyinstr pt addr max;
  if err <? 0 then mret (err, buf) else mret (Z.of_nat (length (until_nul buf)), buf).

Definition argraw (n : Z) : M pst Z :=
  p ← curproc;
  if (0 <=? n) && (n <=? 5) then tf_get p (TF_A0 + 8 * n) else panic "argraw".

Definition argint (n : Z) : M pst Z := x ← argraw n; mret (i32 x).
Definition argaddr (n : Z) : M pst Z := argraw n.

(** The result, and the string in buf. *)
Definition argstr (n max : Z) : M pst (Z * list Z) :=
  addr ← argaddr n;
  '(r, buf) ← fetchstr addr max;
  mret (r, until_nul buf).
