(* ===== verification/Sysfile.v ===== *)
(** * kernel/sysfile.c: system calls on files

    The arguments come from the trapframe of the process (Syscall.v); a result
    of -1 reports an error. *)

From Stdlib Require Import ZArith Lia.
From stdpp Require Import base list gmap strings.
From S2P Require Import Prelude KString Spinlock Riscv Kalloc Vm Proc Sleeplock Bio Log Fs Pipe Uart Console File ProcLife Exec Syscall.

Definition MAXPATH : Z := 128.
Definition O_RDONLY : Z := 0.
Definition O_WRONLY : Z := 1.
Definition O_RDWR : Z := 2.
Definition O_CREATE : Z := 512.
Definition O_TRUNC : Z := 1024.

Definition dot : list Z := str ".".
Definition dotdot : list Z := str "..".

(** The descriptor and the file. *)
Definition argfd (n : Z) : M pst (option (nat * nat)) :=
  fd ← argint n;
  if (fd <? 0) || (Z.of_nat NOFILE <=? fd) then mret None else
  p ← curproc;
  o ← getp p (fun x => default None (p_ofile x !! Z.to_nat fd));
  mret (f ← o; Some (Z.to_nat fd, f)).

Definition fdalloc (f : nat) : M pst Z :=
  p ← curproc;
  ofile ← getp p p_ofile;
  match list_find (fun o => o = None) ofile with
  | Some (fd, _) =>
      setp p (fun x => set_p_ofile (<[fd := Some f]> (p_ofile x)) x);;
      mret (Z.of_nat fd)
  | None => mret (-1)
  end.

Definition clear_ofile (p : nat) (fd : nat) : M pst unit :=
  setp p (fun x => set_p_ofile (<[fd := None]> (p_ofile x)) x).

(** The bytes of an int. *)
Definition int_bytes (x : Z) : list Z := put_le 4 (replicate 4 0) 0 x.

Definition isdirempty (dp : nat) : M fsst bool :=
  size ← geti dp i_size;
  r ← for_range (2 * DIRENT) size DIRENT (fun off =>
    '(r, de) ← readi dp DKern off DIRENT;
    if negb (r =? DIRENT) then panic "isdirempty: readi" else
    if negb (de_inum de =? 0) then mret (Some false) else mret None);
  mret (default true r).

Definition create (path : list Z) (type major minor : Z) : M fsst (option nat) :=
  r ← nameiparent path;
  match r with
  | None => mret None
  | Some (dp, name) =>
      ilock dp;;
      r ← dirlookup dp name;
      match r with
      | Some (ip, _) =>
          iunlockput dp;;
          ilock ip;;
          t ← geti ip i_type;
          if (type =? T_FILE) && ((t =? T_FILE) || (t =? T_DEVICE)) then mret (Some ip) else
          iunlockput ip;;
          mret None
      | None =>
          dev ← geti dp i_dev;
          ip ← ialloc dev type;
          ilock ip;;
          seti ip (fun x => set_i_nlink 1 (set_i_minor (i16 minor) (set_i_major (i16 major) x)));;
          iupdate ip;;
          inum ← geti ip i_inum;
          when (type =? T_DIR)
            (seti dp (fun x => set_i_nlink (i16 (i_nlink x + 1)) x);;
             iupdate dp;;
             r ← dirlink ip dot inum;
             if r <? 0 then panic "create dots" else
             dinum ← geti dp i_inum;
             r ← dirlink ip dotdot dinum;
             if r <? 0 then panic "create dots" else mret tt);;
          r ← dirlink dp name inum;
          if r <? 0 then panic "create: dirlink" else
          iunlockput dp;;
          mret (Some ip)
      end
  end.

Section sysfile.
Context (end_ trampoline : Z).

Definition sys_dup : M flst Z :=
  a ← ↑ argfd 0;
  match a with
  | None => mret (-1)
  | Some (_, f) =>
      fd ← ↑ fdalloc f;
      if fd <? 0 then mret (-1) else
      filedup f;;
      mret fd
  end.

Definition sys_read : M flst Z :=
  a ← ↑ argfd 0;
  match a with
  | None => mret (-1)
  | Some (_, f) =>
      n ← ↑ argint 2;
      p ← ↑ argaddr 1;
      fileread f p n
  end.

Definition sys_write : M flst Z :=
  a ← ↑ argfd 0;
  match a with
  | None => mret (-1)
  | Some (_, f) =>
      n ← ↑ argint 2;
      p ← ↑ argaddr 1;
      filewrite f p n
  end.

Definition sys_close : M flst Z :=
  a ← ↑ argfd 0;
  match a with
  | None => mret (-1)
  | Some (fd, f) =>
      p ← ↑ curproc;
      ↑ clear_ofile p fd;;
      fileclose end_ f;;
      mret 0
  end.

Definition sys_fstat (pad : list Z) : M flst Z :=
  a ← ↑ argfd 0;
  match a with
  | None => mret (-1)
  | Some (_, f) =>
      st ← ↑ argaddr 1;
      filestat f st pad
  end.

(** bad: of sys_link *)
Definition link_bad (ip : nat) : M fsst Z :=
  ilock ip;;
  seti ip (fun x => set_i_nlink (i16 (i_nlink x - 1)) x);;
  iupdate ip;;
  iunlockput ip;;
  ↑ end_op;;
  mret (-1).

Definition sys_link : M fsst Z :=
  '(r, old) ← ↑ argstr 0 MAXPATH;
  if r <? 0 then mret (-1) else
  '(r, new) ← ↑ argstr 1 MAXPATH;
  if r <? 0 then mret (-1) else
  ↑ begin_op;;
  r ← namei old;
  match r with
  | None => ↑ end_op;; mret (-1)
  | Some ip =>
      ilock ip;;
      t ← geti ip i_type;
      if t =? T_DIR then iunlockput ip;; ↑ end_op;; mret (-1) else
      seti ip (fun x => set_i_nlink (i16 (i_nlink x + 1)) x);;
      iupdate ip;;
      iunlock ip;;
      r ← nameiparent new;
      match r with
      | None => link_bad ip
      | Some (dp, name) =>
          ilock dp;;
          ddev ← geti dp i_dev;
          idev ← geti ip i_dev;
          if negb (ddev =? idev) then iunlockput dp;; link_bad ip else
          inum ← geti ip i_inum;
          r ← dirlink dp name inum;
          if r <? 0 then iunlockput dp;; link_bad ip else
          iunlockput dp;;
          iput ip;;
          ↑ end_op;;
          mret 0
      end
  end.

(** bad: of sys_unlink *)
Definition unlink_bad (dp : nat) : M fsst Z := iunlockput dp;; ↑ end_op;; mret (-1).

Definition sys_unlink : M fsst Z :=
  '(r, path) ← ↑ argstr 0 MAXPATH;
  if r <? 0 then mret (-1) else
  ↑ begin_op;;
  r ← nameiparent path;
  match r with
  | None => ↑ end_op;; mret (-1)
  | Some (dp, name) =>
      ilock dp;;
      if (namecmp (cstr name) (cstr dot) =? 0) || (namecmp (cstr name) (cstr dotdot) =? 0)
      then unlink_bad dp else
      r ← dirlookup dp name;
      match r with
      | None => unlink_bad dp
      | Some (ip, off) =>
          ilock ip;;
          nlink ← geti ip i_nlink;
          if nlink <? 1 then panic "unlink: nlink < 1" else
          t ← geti ip i_type;
          e ← (if t =? T_DIR then isdirempty ip else mret true);
          if negb e then iunlockput ip;; unlink_bad dp else
          r ← writei dp (SKern (replicate 16 0)) off DIRENT;
          if negb (r =? DIRENT) then panic "unlink: writei" else
          when (t =? T_DIR)
            (seti dp (fun x => set_i_nlink (i16 (i_nlink x - 1)) x);;
             iupdate dp);;
          iunlockput dp;;
          seti ip (fun x => set_i_nlink (i16 (i_nlink x - 1)) x);;
          iupdate ip;;
          iunlockput ip;;
          ↑ end_op;;
          mret 0
      end
  end.

Definition bit (x m : Z) : bool := negb (Z.land x m =? 0).

(** sys_open once the inode has been found and locked. *)
Definition open_inode (ip : nat) (omode : Z) : M flst Z :=
  let fail : M flst Z := ↑ iunlockput ip;; ↑ end_op;; mret (-1) in
  x ← ↑ geti ip id;
  if (i_type x =? T_DEVICE) && ((i_major x <? 0) || (NDEV <=? i_major x)) then fail else
  f ← filealloc;
  match f with
  | None => fail
  | Some f =>
      fd ← ↑ fdalloc f;
      if fd <? 0 then fileclose end_ f;; fail else
      (if i_type x =? T_DEVICE
       then setf f (fun y => set_f_major (i_major x) (set_f_type FD_DEVICE y))
       else setf f (fun y => set_f_off 0 (set_f_type FD_INODE y)));;
      setf f (fun y => set_f_writable (bit omode O_WRONLY || bit omode O_RDWR)
                         (set_f_readable (negb (bit omode O_WRONLY)) (set_f_ip ip y)));;
      when (bit omode O_TRUNC && (i_type x =? T_FILE)) (↑ itrunc ip);;
      ↑ iunlock ip;;
      ↑ end_op;;
      mret fd
  end.

Definition sys_open : M flst Z :=
  '(n, path) ← ↑ argstr 0 MAXPATH;
  if n <? 0 then mret (-1) else
  omode ← ↑ argint 1;
  ↑ begin_op;;
  if bit omode O_CREATE then
    r ← ↑ create path T_FILE 0 0;
    match r with
    | None => ↑ end_op;; mret (-1)
    | Some ip => open_inode ip omode
    end
  else
    r ← ↑ namei path;
    match r with
    | None => ↑ end_op;; mret (-1)
    | Some ip =>
        ↑ ilock ip;;
        t ← ↑ geti ip i_type;
        if (t =? T_DIR) && negb (omode =? O_RDONLY) then
          ↑ iunlockput ip;; ↑ end_op;; mret (-1)
        else open_inode ip omode
    end.

(** The end of sys_mkdir and sys_mknod. *)
Definition created (r : option nat) : M fsst Z :=
  match r with
  | None => ↑ end_op;; mret (-1)
  | Some ip => iunlockput ip;; ↑ end_op;; mret 0
  end.

Definition sys_mkdir : M fsst Z :=
  ↑ begin_op;;
  '(r, path) ← ↑ argstr 0 MAXPATH;
  if r <? 0 then ↑ end_op;; mret (-1) else
  r ← create path T_DIR 0 0;
  created r.

Definition sys_mknod : M fsst Z :=
  ↑ begin_op;;
  '(r, path) ← ↑ argstr 0 MAXPATH;
  if r <? 0 then ↑ end_op;; mret (-1) else
  major ← ↑ argint 1;
  minor ← ↑ argint 2;
  r ← create path T_DEVICE (i16 major) (i16 minor);
  created r.

Definition sys_chdir : M fsst Z :=
  p ← ↑ curproc;
  ↑ begin_op;;
  '(r, path) ← ↑ argstr 0 MAXPATH;
  if r <? 0 then ↑ end_op;; mret (-1) else
  r ← namei path;
  match r with
  | None => ↑ end_op;; mret (-1)
  | Some ip =>
      ilock ip;;
      t ← geti ip i_type;
      if negb (t =? T_DIR) then iunlockput ip;; ↑ end_op;; mret (-1) else
      iunlock ip;;
      cwd ← ↑ getp p p_cwd;
      match cwd with
      | None => panic "kerneltrap"
      | Some cwd =>
          iput cwd;;
          ↑ end_op;;
          ↑ setp p (set_p_cwd (Some ip));;
          mret 0
      end
  end.

(** The loop of sys_exec that fetches argv: whether it succeeded, the pages
    allocated and the strings in them. *)
Fixpoint fetch_argv (k : nat) (uargv : Z) (pages : list Z) (argv : list (list Z))
    : M pst (bool * list Z * list (list Z)) :=
  match k with
  | O => mret (false, pages, argv)
  | S k' =>
      '(r, uarg) ← fetchaddr (u64 (uargv + 8 * Z.of_nat (length pages)));
      if r <? 0 then mret (false, pages, argv) else
      if uarg =? 0 then mret (true, pages, argv) else
      page ← ↑ kalloc;
      if page =? 0 then mret (false, pages, argv) else
      '(r, buf) ← fetchstr uarg PGSIZE;
      ↑ mem_update (fun m => wr_bytes m page buf);;
      if r <? 0 then mret (false, pages ++ [page], argv) else
      fetch_argv k' uargv (pages ++ [page]) (argv ++ [until_nul buf])
  end.

Definition free_argv (pages : list Z) : M kmst unit :=
  for_each pages (fun p => kfree end_ p;; mret (None : option unit));;
  mret tt.

Definition sys_exec : M fsst Z :=
  '(r, path) ← ↑ argstr 0 MAXPATH;
  if r <? 0 then mret (-1) else
  uargv ← ↑ argaddr 1;
  '(ok, pages, argv) ← ↑ fetch_argv MAXARG uargv [] [];
  if negb ok then ↑ free_argv pages;; mret (-1) else
  ret ← exec end_ trampoline path argv;
  ↑ free_argv pages;;
  mret ret.

Definition sys_pipe : M flst Z :=
  p ← ↑ curproc;
  fdarray ← ↑ argaddr 0;
  r ← pipealloc end_;
  match r with
  | None => mret (-1)
  | Some (rf, wf) =>
      let close_both : M flst Z := fileclose end_ rf;; fileclose end_ wf;; mret (-1) in
      fd0 ← ↑ fdalloc rf;
      if fd0 <? 0 then close_both else
      fd1 ← ↑ fdalloc wf;
      if fd1 <? 0 then ↑ clear_ofile p (Z.to_nat fd0);; close_both else
      pt ← ↑ getp p p_pagetable;
      r0 ← ↑ copyout pt fdarray (int_bytes fd0) 4;
      r1 ← (if r0 <? 0 then mret (-1) else ↑ copyout pt (u64 (fdarray + 4)) (int_bytes fd1) 4);
      if r1 <? 0 then
        ↑ clear_ofile p (Z.to_nat fd0);;
        ↑ clear_ofile p (Z.to_nat fd1);;
        close_both
      else mret 0
  end.

End sysfile.
