(* ===== verification/Sysproc.v ===== *)
(** * kernel/sysproc.c, and syscall() of kernel/syscall.c

    System calls on processes, the clock, and the dispatch of a system call by
    its number. *)

From Stdlib Require Import ZArith Lia.
From stdpp Require Import base list gmap strings.
From S2P Require Import Prelude KString Spinlock Riscv Kalloc Vm Proc Sleeplock Bio Log Fs Pipe Uart Console File ProcLife Exec Syscall Sysfile.

Record kst := mk_kst {
  ks_fl : flst;
  ks_ticks : Z;  (* ticks, of trap.c *)
}.

Definition set_ks_fl (x : flst) (s : kst) : kst :=
  mk_kst x (ks_ticks s).
Definition set_ks_ticks (x : Z) (s : kst) : kst :=
  mk_kst (ks_fl s) x.

#[global] Instance lens_ks_fl : Lens kst flst.
Proof. by exists ks_fl set_ks_fl; intros; destruct s. Defined.
#[global] Instance lens_ks_cn : Lens kst cnst := lens_trans lens_ks_fl lens_fl_cn.
#[global] Instance lens_ks_fs : Lens kst fsst := lens_trans lens_ks_fl lens_fl_fs.
#[global] Instance lens_ks_l : Lens kst lst := lens_trans lens_ks_fl lens_fl_l.
#[global] Instance lens_ks_p : Lens kst pst := lens_trans lens_ks_fl lens_fl_p.
#[global] Instance lens_ks_k : Lens kst kmst := lens_trans lens_ks_fl lens_fl_k.
#[global] Instance lens_ks_lk : Lens kst lks := lens_trans lens_ks_fl lens_fl_lk.

Definition tickslock : lockid := ("time"%string, 0).
Definition ticks_chan : chanid := ("ticks"%string, 0).

Section sysproc.
Context (end_ trampoline forkret_addr : Z).

Definition sys_exit : M kst Z :=
  n ← ↑ argint 0;
  ↑ exit end_ n;;
  mret 0.

Definition sys_getpid : M kst Z :=
  p ← ↑ curproc;
  ↑ getp p p_pid.

Definition sys_fork : M kst Z := ↑ fork end_ trampoline forkret_addr.

Definition sys_wait : M kst Z :=
  p ← ↑ argaddr 0;
  ↑ wait end_ p.

Definition sys_sbrk : M kst Z :=
  n ← ↑ argint 0;
  p ← ↑ curproc;
  sz ← ↑ getp p p_sz;
  let addr := i32 sz in
  r ← ↑ growproc end_ n;
  if r <? 0 then mret (-1) else mret addr.

(** The loop of sys_sleep.  ticks - ticks0 is unsigned, so n is converted. *)
Definition sleep_loop (ticks0 n : Z) : M kst Z :=
  ticks ← gets ks_ticks;
  if u32 (ticks - ticks0) <? u32 n then
    p ← ↑ curproc;
    killed ← ↑ getp p p_killed;
    if negb (killed =? 0) then ↑ release tickslock;; mret (-1)
    else ↑ sleep ticks_chan tickslock;; mret 0
  else ↑ release tickslock;; mret 0.

Definition sys_sleep : M kst Z :=
  n ← ↑ argint 0;
  ↑ acquire tickslock;;
  ticks0 ← gets ks_ticks;
  sleep_loop ticks0 n.

Definition sys_sleep_back (ticks0 n : Z) : M kst Z :=
  ↑ sleep_back tickslock;;
  sleep_loop ticks0 n.

Definition sys_kill : M kst Z :=
  pid ← ↑ argint 0;
  ↑ kill pid.

Definition sys_uptime : M kst Z :=
  ↑ acquire tickslock;;
  xticks ← gets ks_ticks;
  ↑ release tickslock;;
  mret xticks.

(** syscalls[num]; [pad] are the padding bytes that fstat copies out. *)
Definition syscalls (pad : list Z) (num : Z) : option (M kst Z) :=
  if num =? 1 then Some sys_fork
  else if num =? 2 then Some sys_exit
  else if num =? 3 then Some sys_wait
  else if num =? 4 then Some (↑ sys_pipe end_)
  else if num =? 5 then Some (↑ sys_read)
  else if num =? 6 then Some sys_kill
  else if num =? 7 then Some (↑ sys_exec end_ trampoline)
  else if num =? 8 then Some (↑ sys_fstat pad)
  else if num =? 9 then Some (↑ sys_chdir)
  else if num =? 10 then Some (↑ sys_dup)
  else if num =? 11 then Some sys_getpid
  else if num =? 12 then Some sys_sbrk
  else if num =? 13 then Some sys_sleep
  else if num =? 14 then Some sys_uptime
  else if num =? 15 then Some (↑ sys_open end_)
  else if num =? 16 then Some (↑ sys_write)
  else if num =? 17 then Some (↑ sys_mknod)
  else if num =? 18 then Some (↑ sys_unlink)
  else if num =? 19 then Some (↑ sys_link)
  else if num =? 20 then Some (↑ sys_mkdir)
  else if num =? 21 then Some (↑ sys_close end_)
  else None.

Definition syscall (pad : list Z) : M kst unit :=
  p ← ↑ curproc;
  a7 ← ↑ tf_get p TF_A7;
  let num := i32 a7 in
  match syscalls pad num with
  | Some f =>
      r ← f;
      ↑ tf_set p TF_A0 (u64 r)
  | None =>
      pid ← ↑ getp p p_pid;
      name ← ↑ getp p p_name;
      ↑ printf (str "%d %s: unknown sys call %d" ++ [newline])
          [AInt pid; AStr (Some (until_nul name)); AInt num];;
      ↑ tf_set p TF_A0 (u64 (-1))
  end.

End sysproc.
