(* ===== verification/Virtio.v ===== *)
(** * kernel/virtio_disk.c: the disk driver

    The ring that the driver shares with the device, and the two halves of
    virtio_disk_rw: up to the point where it sleeps until the device is done, and
    after virtio_disk_intr has woken it up.  A descriptor's address is what it
    points to: the request header on the kernel stack, the data of a buffer, or a
    status byte. *)

From Stdlib Require Import ZArith Lia.
From stdpp Require Import base list gmap strings.
From S2P Require Import Prelude KString Spinlock Riscv Kalloc Vm Proc Sleeplock Bio.

Definition NUM : nat := 8.
Definition VRING_DESC_F_NEXT : Z := 1.
Definition VRING_DESC_F_WRITE : Z := 2.
Definition VIRTIO_BLK_T_IN : Z := 0.
Definition VIRTIO_BLK_T_OUT : Z := 1.

Inductive daddr :=
| ANull
| AHdr (type sector : Z)    (* struct virtio_blk_outhdr *)
| AData (b : nat)           (* b->data *)
| AStatus (i : nat).        (* &disk.info[i].status *)

Record vdesc := mk_vdesc {
  ds_addr : daddr;
  ds_len : Z;
  ds_flags : Z;
  ds_next : nat;
}.

Definition set_ds_addr (x : daddr) (d : vdesc) : vdesc :=
  mk_vdesc x (ds_len d) (ds_flags d) (ds_next d).

Definition desc0 : vdesc := mk_vdesc ANull 0 0 0.

Record vdisk := mk_vdisk {
  v_desc : list vdesc;  (* desc[NUM] *)
  v_avail_idx : Z;  (* avail[1] *)
  v_avail : list nat;  (* avail[2..] *)
  v_used_id : Z;  (* used->id *)
  v_used : list nat;  (* used->elems[].id *)
  v_free : list bool;  (* free[NUM] *)
  v_used_idx : Z;  (* used_idx *)
  v_info : list (option nat);  (* info[].b *)
  v_status : list Z;  (* info[].status *)
  v_busy : list bool;  (* b->disk, by buffer *)
  v_mmio : list (Z * Z);  (* writes to the registers *)
}.

Definition set_v_desc (x : list vdesc) (d : vdisk) : vdisk :=
  mk_vdisk x (v_avail_idx d) (v_avail d) (v_used_id d) (v_used d) (v_free d) (v_used_idx d) (v_info d) (v_status d) (v_busy d) (v_mmio d).
Definition set_v_avail_idx (x : Z) (d : vdisk) : vdisk :=
  mk_vdisk (v_desc d) x (v_avail d) (v_used_id d) (v_used d) (v_free d) (v_used_idx d) (v_info d) (v_status d) (v_busy d) (v_mmio d).
Definition set_v_avail (x : list nat) (d : vdisk) : vdisk :=
  mk_vdisk (v_desc d) (v_avail_idx d) x (v_used_id d) (v_used d) (v_free d) (v_used_idx d) (v_info d) (v_status d) (v_busy d) (v_mmio d).
Definition set_v_used_id (x : Z) (d : vdisk) : vdisk :=
  mk_vdisk (v_desc d) (v_avail_idx d) (v_avail d) x (v_used d) (v_free d) (v_used_idx d) (v_info d) (v_status d) (v_busy d) (v_mmio d).
Definition set_v_used (x : list nat) (d : vdisk) : vdisk :=
  mk_vdisk (v_desc d) (v_avail_idx d) (v_avail d) (v_used_id d) x (v_free d) (v_used_idx d) (v_info d) (v_status d) (v_busy d) (v_mmio d).
Definition set_v_free (x : list bool) (d : vdisk) : vdisk :=
  mk_vdisk (v_desc d) (v_avail_idx d) (v_avail d) (v_used_id d) (v_used d) x (v_used_idx d) (v_info d) (v_status d) (v_busy d) (v_mmio d).
Definition set_v_used_idx (x : Z) (d : vdisk) : vdisk :=
  mk_vdisk (v_desc d) (v_avail_idx d) (v_avail d) (v_used_id d) (v_used d) (v_free d) x (v_info d) (v_status d) (v_busy d) (v_mmio d).
Definition set_v_info (x : list (option nat)) (d : vdisk) : vdisk :=
  mk_vdisk (v_desc d) (v_avail_idx d) (v_avail d) (v_used_id d) (v_used d) (v_free d) (v_used_idx d) x (v_status d) (v_busy d) (v_mmio d).
Definition set_v_status (x : list Z) (d : vdisk) : vdisk :=
  mk_vdisk (v_desc d) (v_avail_idx d) (v_avail d) (v_used_id d) (v_used d) (v_free d) (v_used_idx d) (v_info d) x (v_busy d) (v_mmio d).
Definition set_v_busy (x : list bool) (d : vdisk) : vdisk :=
  mk_vdisk (v_desc d) (v_avail_idx d) (v_avail d) (v_used_id d) (v_used d) (v_free d) (v_used_idx d) (v_info d) (v_status d) x (v_mmio d).
Definition set_v_mmio (x : list (Z * Z)) (d : vdisk) : vdisk :=
  mk_vdisk (v_desc d) (v_avail_idx d) (v_avail d) (v_used_id d) (v_used d) (v_free d) (v_used_idx d) (v_info d) (v_status d) (v_busy d) x.

Record vtst := mk_vtst {
  vt_b : bst;
  vt_d : vdisk;  (* disk *)
}.

Definition set_vt_b (x : bst) (s : vtst) : vtst :=
  mk_vtst x (vt_d s).
Definition set_vt_d (x : vdisk) (s : vtst) : vtst :=
  mk_vtst (vt_b s) x.

#[global] Instance lens_vt_b : Lens vtst bst.
Proof. by exists vt_b set_vt_b; intros; destruct s. Defined.
#[global] Instance lens_vt_d : Lens vtst vdisk.
Proof. by exists vt_d set_vt_d; intros; destruct s. Defined.
#[global] Instance lens_vt_p : Lens vtst pst := lens_trans lens_vt_b lens_bc_p.
#[global] Instance lens_vt_lk : Lens vtst lks := lens_trans lens_vt_b lens_bc_lk.

Definition vdisk_lock : lockid := ("virtio_disk"%string, 0).
Definition free_chan : chanid := ("disk.free"%string, 0).
(** sleep(b, ...) *)
Definition buf_chan (b : nat) : chanid := ("buf"%string, Z.of_nat b).

Definition setd (f : vdisk -> vdisk) : M vtst unit := ↑ modify f.
Definition getd {A} (f : vdisk -> A) : M vtst A := ↑ gets f.

Definition is_free_desc (d : vdisk) (i : nat) : bool := default false (v_free d !! i).
Definition set_free (i : nat) (x : bool) : M vtst unit :=
  setd (fun d => set_v_free (<[i := x]> (v_free d)) d).
Definition set_desc (i : nat) (f : vdesc -> vdesc) : M vtst unit :=
  setd (fun d => set_v_desc (alter f i (v_desc d)) d).
Definition desc_at (d : vdisk) (i : nat) : vdesc := default desc0 (v_desc d !! i).
Definition set_busy (b : nat) (x : bool) : M vtst unit :=
  setd (fun d => set_v_busy (<[b := x]> (v_busy d)) d).
Definition is_busy (d : vdisk) (b : nat) : bool := default false (v_busy d !! b).

(** ** Registers

    [reg r] is what the device answers when register [r] is read. *)
Definition VIRTIO_MMIO_MAGIC_VALUE : Z := 0.
Definition VIRTIO_MMIO_VERSION : Z := 4.
Definition VIRTIO_MMIO_DEVICE_ID : Z := 8.
Definition VIRTIO_MMIO_VENDOR_ID : Z := 12.
Definition VIRTIO_MMIO_DEVICE_FEATURES : Z := 16.
Definition VIRTIO_MMIO_DRIVER_FEATURES : Z := 32.
Definition VIRTIO_MMIO_GUEST_PAGE_SIZE : Z := 40.
Definition VIRTIO_MMIO_QUEUE_SEL : Z := 48.
Definition VIRTIO_MMIO_QUEUE_NUM_MAX : Z := 52.
Definition VIRTIO_MMIO_QUEUE_NUM : Z := 56.
Definition VIRTIO_MMIO_QUEUE_PFN : Z := 64.
Definition VIRTIO_MMIO_QUEUE_NOTIFY : Z := 80.
Definition VIRTIO_MMIO_INTERRUPT_STATUS : Z := 96.
Definition VIRTIO_MMIO_INTERRUPT_ACK : Z := 100.
Definition VIRTIO_MMIO_STATUS : Z := 112.
Definition VIRTIO_CONFIG_S_ACKNOWLEDGE : Z := 1.
Definition VIRTIO_CONFIG_S_DRIVER : Z := 2.
Definition VIRTIO_CONFIG_S_DRIVER_OK : Z := 4.
Definition VIRTIO_CONFIG_S_FEATURES_OK : Z := 8.
Definition VIRTIO_BLK_F_RO : Z := 5.
Definition VIRTIO_BLK_F_SCSI : Z := 7.
Definition VIRTIO_BLK_F_CONFIG_WCE : Z := 11.
Definition VIRTIO_BLK_F_MQ : Z := 12.
Definition VIRTIO_F_ANY_LAYOUT : Z := 27.
Definition VIRTIO_RING_F_INDIRECT_DESC : Z := 28.
Definition VIRTIO_RING_F_EVENT_IDX : Z := 29.

(** A write to a register; they are recorded in order. *)
Definition wreg (r v : Z) : M vtst unit := setd (fun d => set_v_mmio (v_mmio d ++ [(r, v)]) d).

(** features &= ~(1 << bit) *)
Definition without (features bit : Z) : Z := Z.land features (Z.lnot (Z.shiftl 1 bit)).

(** [pages] is the address of disk.pages. *)
Definition virtio_disk_init (reg : Z -> Z) (pages : Z) : M vtst unit :=
  ↑ initlock vdisk_lock;;
  if negb (reg VIRTIO_MMIO_MAGIC_VALUE =? 1953655158) || negb (reg VIRTIO_MMIO_VERSION =? 1) ||
     negb (reg VIRTIO_MMIO_DEVICE_ID =? 2) || negb (reg VIRTIO_MMIO_VENDOR_ID =? 1431127377)
  then panic "could not find virtio disk" else
  let status := VIRTIO_CONFIG_S_ACKNOWLEDGE in
  wreg VIRTIO_MMIO_STATUS status;;
  let status := Z.lor status VIRTIO_CONFIG_S_DRIVER in
  wreg VIRTIO_MMIO_STATUS status;;
  let features := reg VIRTIO_MMIO_DEVICE_FEATURES in
  let features := without features VIRTIO_BLK_F_RO in
  let features := without features VIRTIO_BLK_F_SCSI in
  let features := without features VIRTIO_BLK_F_CONFIG_WCE in
  let features := without features VIRTIO_BLK_F_MQ in
  let features := without features VIRTIO_F_ANY_LAYOUT in
  let features := without features VIRTIO_RING_F_EVENT_IDX in
  let features := without features VIRTIO_RING_F_INDIRECT_DESC in
  wreg VIRTIO_MMIO_DRIVER_FEATURES (u32 features);;
  let status := Z.lor status VIRTIO_CONFIG_S_FEATURES_OK in
  wreg VIRTIO_MMIO_STATUS status;;
  let status := Z.lor status VIRTIO_CONFIG_S_DRIVER_OK in
  wreg VIRTIO_MMIO_STATUS status;;
  wreg VIRTIO_MMIO_GUEST_PAGE_SIZE PGSIZE;;
  wreg VIRTIO_MMIO_QUEUE_SEL 0;;
  let max := reg VIRTIO_MMIO_QUEUE_NUM_MAX in
  if max =? 0 then panic "virtio disk has no queue 0" else
  if max <? Z.of_nat NUM then panic "virtio disk max queue too short" else
  wreg VIRTIO_MMIO_QUEUE_NUM (Z.of_nat NUM);;
  setd (fun d => set_v_desc (replicate NUM desc0) (set_v_avail_idx 0 (set_v_avail (replicate NUM 0%nat)
                   (set_v_used_id 0 (set_v_used (replicate NUM 0%nat) d)))));;
  wreg VIRTIO_MMIO_QUEUE_PFN (Z.shiftr pages 12);;
  setd (set_v_free (replicate NUM true)).

(** ** Descriptors *)

Definition alloc_desc : M vtst (option nat) :=
  d ← getd id;
  match list_find (fun x => x = true) (v_free d) with
  | Some (i, _) => set_free i false;; mret (Some i)
  | None => mret None
  end.

Definition free_desc (i : nat) : M vtst unit :=
  if (NUM <=? i)%nat then panic "virtio_disk_intr 1" else
  f ← getd (fun d => is_free_desc d i);
  if (f : bool) then panic "virtio_disk_intr 2" else
  set_desc i (set_ds_addr ANull);;
  set_free i true;;
  ↑ wakeup free_chan.

(** A chain has at most NUM descriptors. *)
Fixpoint free_chain (fuel : nat) (i : nat) : M vtst unit :=
  match fuel with
  | O => out_of_fuel
  | S fuel' =>
      free_desc i;;
      x ← getd (fun d => desc_at d i);
      if negb (Z.land (ds_flags x) VRING_DESC_F_NEXT =? 0) then free_chain fuel' (ds_next x)
      else mret tt
  end.

Definition alloc3_desc : M vtst (option (nat * nat * nat)) :=
  i0 ← alloc_desc;
  match i0 with
  | None => mret None
  | Some i0 =>
      i1 ← alloc_desc;
      match i1 with
      | None => free_desc i0;; mret None
      | Some i1 =>
          i2 ← alloc_desc;
          match i2 with
          | None => free_desc i0;; free_desc i1;; mret None
          | Some i2 => mret (Some (i0, i1, i2))
          end
      end
  end.

(** ** Requests *)

(** The loop that waits for the device, and what follows it. *)
Definition rw_wait (b : nat) (idx0 : nat) : M vtst unit :=
  busy ← getd (fun d => is_busy d b);
  if (busy : bool) then ↑ sleep (buf_chan b) vdisk_lock else
  setd (fun d => set_v_info (<[idx0 := None]> (v_info d)) d);;
  free_chain NUM idx0;;
  ↑ release vdisk_lock.

(** From the formatting of the descriptors to the notification.  buf0 lives on the
    kernel stack until the request is done; kvmpa only translates its address. *)
Definition rw_submit (b : nat) (write : bool) (sector : Z) (i0 i1 i2 : nat) : M vtst unit :=
  let type := if write then VIRTIO_BLK_T_OUT else VIRTIO_BLK_T_IN in
  set_desc i0 (fun _ => mk_vdesc (AHdr type sector) 16 VRING_DESC_F_NEXT i1);;
  set_desc i1 (fun _ => mk_vdesc (AData b) 1024
                 (Z.lor (if write then 0 else VRING_DESC_F_WRITE) VRING_DESC_F_NEXT) i2);;
  setd (fun d => set_v_status (<[i0 := 0]> (v_status d)) d);;
  set_desc i2 (fun _ => mk_vdesc (AStatus i0) 1 VRING_DESC_F_WRITE 0);;
  set_busy b true;;
  setd (fun d => set_v_info (<[i0 := Some b]> (v_info d)) d);;
  setd (fun d => set_v_avail (<[Z.to_nat (v_avail_idx d mod Z.of_nat NUM) := i0]> (v_avail d)) d);;
  setd (fun d => set_v_avail_idx (u16 (v_avail_idx d + 1)) d);;
  wreg VIRTIO_MMIO_QUEUE_NOTIFY 0.

(** The loop that allocates the descriptors, and what follows it. *)
Definition rw_start (b : nat) (write : bool) (sector : Z) : M vtst unit :=
  r ← alloc3_desc;
  match r with
  | None => ↑ sleep free_chan vdisk_lock
  | Some (i0, i1, i2) =>
      rw_submit b write sector i0 i1 i2;;
      rw_wait b i0
  end.

Definition virtio_disk_rw (b : nat) (write : bool) : M vtst unit :=
  blockno ← ↑ getb b b_blockno;
  let sector := u32 (blockno * (Z.of_nat BSIZE / 512)) in
  ↑ acquire vdisk_lock;;
  rw_start b write sector.

(** After waiting for descriptors, and after waiting for the device. *)
Definition virtio_disk_rw_back (b : nat) (write : bool) (sector : Z) : M vtst unit :=
  ↑ sleep_back vdisk_lock;;
  rw_start b write sector.
Definition virtio_disk_rw_done (b : nat) (idx0 : nat) : M vtst unit :=
  ↑ sleep_back vdisk_lock;;
  rw_wait b idx0.

(** The loop of virtio_disk_intr: at most NUM requests are outstanding. *)
Fixpoint intr_loop (fuel : nat) : M vtst unit :=
  d ← getd id;
  if v_used_idx d mod Z.of_nat NUM =? v_used_id d mod Z.of_nat NUM then mret tt else
  match fuel with
  | O => out_of_fuel
  | S fuel' =>
      let i := default 0%nat (v_used d !! Z.to_nat (v_used_idx d)) in
      if negb (default 0 (v_status d !! i) =? 0) then panic "virtio_disk_intr status" else
      match default None (v_info d !! i) with
      | None => panic "kerneltrap"
      | Some b =>
          set_busy b false;;
          ↑ wakeup (buf_chan b);;
          setd (fun d => set_v_used_idx ((v_used_idx d + 1) mod Z.of_nat NUM) d);;
          intr_loop fuel'
      end
  end.

Definition virtio_disk_intr (reg : Z -> Z) : M vtst unit :=
  ↑ acquire vdisk_lock;;
  intr_loop NUM;;
  wreg VIRTIO_MMIO_INTERRUPT_ACK (Z.land (reg VIRTIO_MMIO_INTERRUPT_STATUS) 3);;
  ↑ release vdisk_lock.
