(* ===== verification/VirtioProofs.v ===== *)
(** * The disk driver implements the disk

    The layers above the driver use the disk of Bio: [disk_rw] transfers the
    block of a buffer at once.  The driver does it in pieces: it queues a request
    in a ring that it shares with the device, sleeps, is woken up by the
    interrupt, and other processes, the interrupt handler and the device run in
    between.  This file has the invariant of the ring, shows that every entry
    into the driver keeps it and that none of its panics can be reached, and
    that every interleaving is one of the atomic disk. *)

From Stdlib Require Import ZArith Lia.
From stdpp Require Import base list gmap strings.
From S2P Require Import Prelude KString Spinlock Riscv Kalloc Vm Proc Sleeplock Bio Virtio.

Module VirtioProofs.

(** ** Rings *)

(** The elements [xs] lie in the ring [l] from place [a] on. *)
Definition slots (l : list nat) (a : Z) (xs : list nat) : Prop :=
  forall k x, xs !! k = Some x -> l !! Z.to_nat ((a + Z.of_nat k) mod 8) = Some x.

Lemma slots_nil l a : slots l a [].
Proof. intros k x. done. Qed.

Lemma slots_mod l a a' xs : a mod 8 = a' mod 8 -> slots l a xs -> slots l a' xs.
Proof.
  intros E H k x Hx. rewrite <- (H k x Hx). do 2 f_equal.
  rewrite <- (Z.add_mod_idemp_l a), <- (Z.add_mod_idemp_l a'), E by lia. done.
Qed.

Lemma slots_head l a x xs : slots l a (x :: xs) -> l !! Z.to_nat (a mod 8) = Some x.
Proof. intros H. rewrite <- (H 0%nat x) by done. by rewrite Z.add_0_r. Qed.

Lemma slots_tail l a x xs : slots l a (x :: xs) -> slots l (a + 1) xs.
Proof. intros H k y Hy. rewrite <- (H (S k) y) by done. do 3 f_equal. lia. Qed.

Lemma slots_snoc l a xs x :
  length l = 8%nat -> (length xs < 8)%nat -> slots l a xs ->
  slots (<[Z.to_nat ((a + Z.of_nat (length xs)) mod 8) := x]> l) a (xs ++ [x]).
Proof.
  intros Hl Hx H k y. rewrite lookup_app_Some. intros [Hk|[Hk Hy]].
  - pose proof (lookup_lt_Some _ _ _ Hk). rewrite list_lookup_insert_ne; [by apply H|].
    intros E. apply Z2Nat.inj in E; [|apply Z.mod_pos_bound; lia..]. divlia.
  - apply list_lookup_singleton_Some in Hy as [Ek <-]. replace k with (length xs) by lia.
    apply list_lookup_insert_eq. rewrite Hl.
    pose proof (Z.mod_pos_bound (a + Z.of_nat (length xs)) 8 ltac:(lia)). lia.
Qed.

(** ** The invariant of the driver *)

(** A request that the driver has queued: for the buffer [q_b], with its three
    descriptors. *)
Record req := mk_req {
  q_b : nat;
  q_write : bool;
  q_sector : Z;
  q_0 : nat;
  q_1 : nat;
  q_2 : nat;
}.

Definition inds (r : req) : list nat := [q_0 r; q_1 r; q_2 r].
Definition q_type (r : req) : Z := if q_write r then VIRTIO_BLK_T_OUT else VIRTIO_BLK_T_IN.
Definition q_flags (r : req) : Z :=
  Z.lor (if q_write r then 0 else VRING_DESC_F_WRITE) VRING_DESC_F_NEXT.

(** Its descriptors are linked and say what to transfer. *)
Record req_ok (d : vdisk) (r : req) : Prop := {
  ro_0 : v_desc d !! q_0 r = Some (mk_vdesc (AHdr (q_type r) (q_sector r)) 16 VRING_DESC_F_NEXT (q_1 r));
  ro_1 : v_desc d !! q_1 r = Some (mk_vdesc (AData (q_b r)) 1024 (q_flags r) (q_2 r));
  ro_2 : v_desc d !! q_2 r = Some (mk_vdesc (AStatus (q_0 r)) 1 VRING_DESC_F_WRITE 0);
  ro_info : v_info d !! q_0 r = Some (Some (q_b r));
  ro_status : v_status d !! q_0 r = Some 0;
}.

(** The descriptors of the requests [rs] are all that are not free. *)
Record drv (rs : list req) (d : vdisk) : Prop := {
  dr_desc : length (v_desc d) = NUM;
  dr_info : length (v_info d) = NUM;
  dr_status : length (v_status d) = NUM;
  dr_free : v_free d = (fun i => bool_decide (i ∉ rs ≫= inds)) <$> seq 0 NUM;
  dr_nodup : NoDup (rs ≫= inds);
  dr_lt : Forall (fun i => (i < NUM)%nat) (rs ≫= inds);
  dr_req : Forall (req_ok d) rs;
  dr_bufs : NoDup (q_b <$> rs);
  dr_owner : forall i b, v_info d !! i = Some (Some b) -> exists r, r ∈ rs /\ q_0 r = i /\ q_b r = b;
}.

(** The requests [Q] are with the device, [U] in the used ring, and [F] have been
    seen by the interrupt handler.  The device has looked at the ring of
    available requests up to [seen], and [taken] are those it works on. *)
Record rings (seen : Z) (taken : list nat) (Q U F : list req) (d : vdisk) : Prop := {
  rg_busy_len : length (v_busy d) = NBUF;
  rg_busy : Forall (fun r => v_busy d !! q_b r = Some true) (Q ++ U);
  rg_done : Forall (fun r => v_busy d !! q_b r = Some false) F;
  rg_used_len : length (v_used d) = NUM;
  rg_used_idx : 0 <= v_used_idx d < 8;
  rg_used : slots (v_used d) (v_used_idx d) (q_0 <$> U);
  rg_used_id : v_used_id d mod 8 = (v_used_idx d + Z.of_nat (length U)) mod 8;
  rg_avail_len : length (v_avail d) = NUM;
  rg_seen : 0 <= seen < 2 ^ 16;
  rg_avail : exists ps, taken ++ ps ≡ₚ q_0 <$> Q /\ slots (v_avail d) seen ps /\
               v_avail_idx d = u16 (seen + Z.of_nat (length ps));
}.

Lemma drv_perm rs rs' d : rs ≡ₚ rs' -> drv rs d -> drv rs' d.
Proof.
  intros P [H1 H2 H3 H4 H5 H6 H7 H8 H9]. assert (rs ≫= inds ≡ₚ rs' ≫= inds) as P' by by rewrite P.
  split; try done.
  - rewrite H4. apply list_fmap_ext. intros k i _. apply bool_decide_ext. by rewrite P'.
  - by rewrite <- P'.
  - by rewrite <- P'.
  - by rewrite <- P.
  - by rewrite <- P.
  - intros i b Hi. destruct (H9 i b Hi) as (r & Hr & ?). exists r. by rewrite <- P.
Qed.

(** At most two requests fit. *)
Lemma drv_few rs d : drv rs d -> (3 * length rs <= 8)%nat.
Proof.
  intros H. assert (length (rs ≫= inds) = (3 * length rs)%nat) as E.
  { clear. induction rs as [|r rs IH]; [done|]. cbn. cbn in IH. unfold mbind in *. lia. }
  rewrite <- E. change 8%nat with (length (seq 0 8)). apply submseteq_length, NoDup_submseteq; [apply H|].
  intros i Hi. apply elem_of_seq. pose proof (dr_lt _ _ H) as Hl. rewrite Forall_forall in Hl.
  specialize (Hl i Hi). unfold NUM in Hl. lia.
Qed.

Lemma drv_isfree rs d i : drv rs d -> (i < NUM)%nat -> is_free_desc d i = bool_decide (i ∉ rs ≫= inds).
Proof.
  intros H Hi. unfold is_free_desc. rewrite (dr_free _ _ H), list_lookup_fmap.
  rewrite lookup_seq_lt by done. done.
Qed.

(** ** Running the driver *)

(** The state [s0] with the process layer [p] and the driver's state [d]. *)
Definition st (s0 : vtst) (p : pst) (d : vdisk) : vtst := set_vt_d d (lset (Lens := lens_vt_p) p s0).
Definition procs (s : vtst) : pst := lget (Lens := lens_vt_p) s.

(** A CPU runs the driver: it took vdisk_lock in [k0] and holds nothing else. *)
Record in_driver (k0 : lks) (p : pst) : Prop := {
  id_wf : intr_wf k0;
  id_noff : noff k0 = 0;
  id_locks : locks k0 = ∅;
  id_lk : k_lk (ps_k p) = locked_by vdisk_lock k0;
  id_len : length (ps_proc p) = NPROC;
}.

(** A CPU runs kernel code with no spin lock held. *)
Record unlocked (p : pst) : Prop := {
  ul_wf : intr_wf (k_lk (ps_k p));
  ul_noff : noff (k_lk (ps_k p)) = 0;
  ul_locks : locks (k_lk (ps_k p)) = ∅;
  ul_len : length (ps_proc p) = NPROC;
}.

Section run.
Context (s0 : vtst).

Lemma wp_getd {A} (f : vdisk -> A) Q p d : Q (f d) (st s0 p d) -> wp (getd f) Q (st s0 p d).
Proof. intros H. apply wp_zoom, wp_gets. exact H. Qed.

Lemma wp_setd f Q p d : Q tt (st s0 p (f d)) -> wp (setd f) Q (st s0 p d).
Proof. intros H. apply wp_zoom, wp_modify. exact H. Qed.

Lemma in_driver_free k0 p : in_driver k0 p -> proc_locks_free k0 /\ is_free k0 vdisk_lock.
Proof. intros H. unfold proc_locks_free, is_free. rewrite (id_locks _ _ H). done. Qed.

Lemma wp_wake chan k0 Q p d :
  in_driver k0 p ->
  (forall p', in_driver k0 p' -> ps_proc p' = wake chan <$> ps_proc p -> Q tt (st s0 p' d)) ->
  wp (↑ wakeup chan) Q (st s0 p d).
Proof.
  intros Hp HQ. destruct (in_driver_free _ _ Hp) as [Hf _]. destruct Hp as [H1 H2 H3 H4 H5].
  apply wp_zoom. change (lget (st s0 p d)) with p. apply wp_wakeup.
  - rewrite H4. by apply locked_by_wf.
  - rewrite H4. intros j. by apply locked_by_free.
  - done.
  - intros p' Hle Ep. apply HQ; [split|]; try done.
    + apply (lk_eqv_locked _ _ _ H1). rewrite <- H4. apply Hle.
    + by rewrite Ep, length_fmap.
Qed.

Lemma wp_enter Q p d :
  unlocked p -> (forall k0 p', in_driver k0 p' -> cproc k0 = cproc (k_lk (ps_k p)) ->
                   ps_proc p' = ps_proc p -> Q tt (st s0 p' d)) ->
  wp (↑ acquire vdisk_lock) Q (st s0 p d).
Proof.
  intros [H1 H2 H3 H4] HQ. apply wp_lock.
  - unfold is_free. change (locks (k_lk (ps_k p)) !! vdisk_lock = None). by rewrite H3.
  - apply (HQ (k_lk (ps_k p)) (set_ps_k (set_klk (locked_by vdisk_lock (k_lk (ps_k p))) (ps_k p)) p)); done.
Qed.

Lemma wp_leave k0 Q p d :
  in_driver k0 p -> (forall p', unlocked p' -> ps_proc p' = ps_proc p -> Q tt (st s0 p' d)) ->
  wp (↑ release vdisk_lock) Q (st s0 p d).
Proof.
  intros Hp HQ. destruct (in_driver_free _ _ Hp) as [_ Hf]. destruct Hp as [H1 H2 H3 H4 H5].
  eapply wp_unlock; [done|done| |].
  - change (k_lk (ps_k p) ≈ locked_by vdisk_lock k0). by rewrite H4.
  - apply (HQ (set_ps_k (set_klk (settle k0) (ps_k p)) p)); [|done].
    split; try done; cbn; rewrite ?settle_noff, ?settle_locks; try done. by apply settle_wf.
Qed.

(** sleep(chan, &vdisk_lock) of process [pr] *)
Lemma wps_sleep chan k0 pr (Q : unit -> vtst -> Prop) (R : vtst -> Prop) p d :
  in_driver k0 p -> cproc k0 = Some pr -> (pr < NPROC)%nat ->
  (forall p', p_chan (proc_at pr p') = Some chan -> R (st s0 p' d)) ->
  wps (↑ sleep chan vdisk_lock) Q R (st s0 p d).
Proof.
  intros Hp Hc Hpr HR. destruct (in_driver_free _ _ Hp) as [Hpf Hf]. destruct Hp as [H1 H2 H3 H4 H5].
  apply wps_zoom. change (lget (st s0 p d)) with p. unfold wps.
  rewrite (sleep_run chan vdisk_lock pr k0) by done. apply HR.
  unfold proc_at. cbn. rewrite list_lookup_alter_eq.
  destruct (lookup_lt_is_Some_2 (ps_proc p) pr) as [x ->]; [by rewrite H5|]. done.
Qed.

(** The scheduler has switched back to process [pr], which had gone to sleep. *)
Definition resumed (pr : nat) (p : pst) : Prop :=
  exists k0, intr_wf k0 /\ noff k0 = 0 /\ locks k0 = ∅ /\ cproc k0 = Some pr /\
    k_lk (ps_k p) = locked_by (proc_lock pr) k0 /\ length (ps_proc p) = NPROC.

Lemma set_intena_locked l ie k : noff k = 0 -> set_intena ie (locked_by l k) = locked_by l (set_sie ie k).
Proof. intros H. unfold locked_by, push, settle. destruct k; cbn in *. by subst. Qed.

Lemma wp_sleep_back pr Q p d :
  resumed pr p ->
  (forall k0 p', in_driver k0 p' -> cproc k0 = Some pr -> Q tt (st s0 p' d)) ->
  wp (↑ sleep_back vdisk_lock) Q (st s0 p d).
Proof.
  intros (k0 & Hwf & Hn & Hl & Hc & Elk & Hlen) HQ. apply wp_zoom. change (lget (st s0 p d)) with p.
  unfold sleep_back, sched_back. mstep. mstep. eapply wp_run; [by eapply curproc_locked|].
  mstep. unfold getp. mstep. mstep. mstep. set (ie := p_intena _).
  set (k1 := set_sie ie k0). set (p1 := lset _ p).
  assert (k_lk (ps_k p1) = locked_by (proc_lock pr) k1) as E1.
  { unfold p1. cbn. rewrite Elk. by apply set_intena_locked. }
  assert (intr_wf k1) as Hwf1 by (unfold intr_wf, k1; cbn; lia).
  mstep. eapply wp_run; [by apply (curproc_locked (proc_lock pr) pr k1)|].
  mstep. unfold setp. mstep. rewrite bool_decide_true by done. mstep. mstep.
  eapply (wp_unlock (proc_lock pr) k1); [done| | |].
  { unfold is_free, k1. cbn. by rewrite Hl. }
  { match goal with |- ?x ≈ _ => change x with (k_lk (ps_k p1)) end. by rewrite E1. }
  apply wp_lock.
  { change (is_free (settle k1) vdisk_lock). apply settle_free. unfold is_free, k1. cbn. by rewrite Hl. }
  cbn. apply (HQ (settle k1)).
  - split; try done.
    + by apply settle_wf.
    + by rewrite settle_noff.
    + by rewrite settle_locks.
    + cbn. by rewrite length_alter.
  - by rewrite settle_cproc.
Qed.

(** ** Descriptors *)

Lemma wp_alloc_desc Q p d :
  (forall i, v_free d !! i = Some true -> Q (Some i) (st s0 p (set_v_free (<[i := false]> (v_free d)) d))) ->
  ((forall i, v_free d !! i <> Some true) -> Q None (st s0 p d)) ->
  wp alloc_desc Q (st s0 p d).
Proof.
  intros H1 H2. unfold alloc_desc. mstep. apply wp_getd. cbn [id].
  destruct (list_find _ _) as [[i x]|] eqn:E.
  - apply list_find_Some in E as (E & -> & _). mstep. apply wp_setd. mstep. by apply H1.
  - mstep. apply H2. intros i Hi. apply list_find_None in E. rewrite Forall_forall in E.
    by apply (E true); [eapply list_elem_of_lookup_2|].
Qed.

(** free_desc: the address of a free descriptor is cleared. *)
Definition freed (i : nat) (d : vdisk) : vdisk :=
  set_v_free (<[i := true]> (v_free d)) (set_v_desc (alter (set_ds_addr ANull) i (v_desc d)) d).

Lemma wp_free_desc k0 i Q p d :
  in_driver k0 p -> v_free d !! i = Some false -> length (v_free d) = NUM ->
  (forall p', in_driver k0 p' -> Q tt (st s0 p' (freed i d))) ->
  wp (free_desc i) Q (st s0 p d).
Proof.
  intros Hp Hi Hl HQ. unfold free_desc. pose proof (lookup_lt_Some _ _ _ Hi).
  rewrite (proj2 (Nat.leb_gt NUM i)) by lia. mstep. apply wp_getd. unfold is_free_desc. rewrite Hi. cbn [default from_option id].
  mstep. apply wp_setd. mstep. apply wp_setd. apply (wp_wake _ k0); [done|]. auto.
Qed.

(** What the driver may do to free descriptors: clear their addresses. *)
Definition scrubbed (d d' : vdisk) : Prop :=
  exists l, d' = set_v_desc l d /\ length l = length (v_desc d) /\
    forall i, v_free d !! i <> Some true -> l !! i = v_desc d !! i.

Lemma scrubbed_refl d : scrubbed d d.
Proof. exists (v_desc d). by destruct d. Qed.

Definition took (i : nat) (d : vdisk) : vdisk := set_v_free (<[i := false]> (v_free d)) d.

Lemma scrubbed_alter d l is' :
  length l = length (v_desc d) -> Forall (fun i => v_free d !! i = Some true) is' ->
  (forall i, i ∉ is' -> l !! i = v_desc d !! i) -> scrubbed d (set_v_desc l d).
Proof.
  intros Hl Hf H. exists l. split_and!; try done. intros i Hi. apply H. intros Hin.
  rewrite Forall_forall in Hf. by apply Hi, Hf.
Qed.

(** Either three free descriptors, or nothing has changed. *)
Lemma wp_alloc3_desc k0 Q p d :
  in_driver k0 p -> length (v_free d) = NUM ->
  (forall p' d', in_driver k0 p' -> scrubbed d d' -> Q None (st s0 p' d')) ->
  (forall i0 i1 i2, NoDup [i0; i1; i2] -> Forall (fun i => v_free d !! i = Some true) [i0; i1; i2] ->
     Q (Some (i0, i1, i2)) (st s0 p (took i2 (took i1 (took i0 d))))) ->
  wp alloc3_desc Q (st s0 p d).
Proof.
  intros Hp Hl HN HS. unfold alloc3_desc. mstep. apply wp_alloc_desc.
  2: { intros _. mstep. apply HN; [done|apply scrubbed_refl]. }
  intros i0 H0. assert (i0 < length (v_free d))%nat as L0 by by eapply lookup_lt_Some.
  mstep. apply wp_alloc_desc; cbn.
  2: { intros _. mstep. apply (wp_free_desc k0); [done|by apply list_lookup_insert_eq|cbn; by rewrite length_insert|].
       intros p' Hp'. mstep. apply HN; [done|]. unfold freed. cbn.
       rewrite list_insert_insert_eq, list_insert_id by done.
       apply (scrubbed_alter d (alter (set_ds_addr ANull) i0 (v_desc d)) [i0]); [by rewrite length_alter|by constructor|].
       intros i Hi. rewrite list_lookup_alter_ne; [done|set_solver]. }
  intros i1 [(_ & ? & _)|[N01 H1]]%list_lookup_insert_Some; [done|].
  assert (i1 < length (v_free d))%nat as L1 by by eapply lookup_lt_Some.
  mstep. apply wp_alloc_desc; cbn.
  - intros i2 [(_ & ? & _)|[N12 [(_ & ? & _)|[N02 H2]]%list_lookup_insert_Some]]%list_lookup_insert_Some; [done..|].
    mstep. apply HS; [|by repeat constructor].
    repeat constructor; set_solver.
  - intros _. mstep. apply (wp_free_desc k0); [done| |cbn; by rewrite !length_insert|].
    { cbn. rewrite list_lookup_insert_ne by done. by apply list_lookup_insert_eq. }
    intros p1 Hp1. mstep. apply (wp_free_desc k0); [done| |cbn; by rewrite !length_insert|]; cbn.
    { rewrite list_lookup_insert_ne by done. apply list_lookup_insert_eq. by rewrite length_insert. }
    intros p2 Hp2. mstep. apply HN; [done|]. unfold freed. cbn.
    replace (<[i1 := true]> _) with (v_free d).
    + apply (scrubbed_alter d (alter (set_ds_addr ANull) i1 (alter (set_ds_addr ANull) i0 (v_desc d))) [i0; i1]);
        [by rewrite !length_alter|by repeat constructor|].
      intros i Hi. rewrite !list_lookup_alter_ne by set_solver. done.
    + apply list_eq. intros i. destruct (decide (i = i1)) as [->|]; [|destruct (decide (i = i0)) as [->|]].
      * rewrite list_lookup_insert_eq; [done|]. by rewrite !length_insert.
      * rewrite list_lookup_insert_ne, list_lookup_insert_eq by (rewrite ?length_insert; done). done.
      * by rewrite !list_lookup_insert_ne by done.
Qed.


(** The effect of rw_submit. *)
Definition submitted (r : req) (d : vdisk) : vdisk :=
  mk_vdisk
    (alter (fun _ => mk_vdesc (AStatus (q_0 r)) 1 VRING_DESC_F_WRITE 0) (q_2 r)
      (alter (fun _ => mk_vdesc (AData (q_b r)) 1024 (q_flags r) (q_2 r)) (q_1 r)
        (alter (fun _ => mk_vdesc (AHdr (q_type r) (q_sector r)) 16 VRING_DESC_F_NEXT (q_1 r)) (q_0 r)
          (v_desc d))))
    (u16 (v_avail_idx d + 1))
    (<[Z.to_nat (v_avail_idx d mod Z.of_nat NUM) := q_0 r]> (v_avail d))
    (v_used_id d) (v_used d) (v_free d) (v_used_idx d)
    (<[q_0 r := Some (q_b r)]> (v_info d)) (<[q_0 r := 0]> (v_status d))
    (<[q_b r := true]> (v_busy d)) (v_mmio d ++ [(VIRTIO_MMIO_QUEUE_NOTIFY, 0)]).

Lemma wp_rw_submit r Q p d :
  Q tt (st s0 p (submitted r d)) ->
  wp (rw_submit (q_b r) (q_write r) (q_sector r) (q_0 r) (q_1 r) (q_2 r)) Q (st s0 p d).
Proof.
  intros H. unfold rw_submit, set_desc, set_busy, wreg. repeat (mstep; apply wp_setd). apply wp_setd. exact H.
Qed.
End run.

(** ** Keeping the invariant *)

Lemma tab_insert {A} (f : nat -> A) n i x :
  <[i := x]> (f <$> seq 0 n) = (fun j => if decide (j = i) then x else f j) <$> seq 0 n.
Proof.
  apply list_eq. intros j. rewrite !list_lookup_fmap. destruct (decide (j < n)%nat) as [Hj|Hj].
  - destruct (decide (j = i)) as [->|Hne].
    + rewrite list_lookup_insert_eq by (by rewrite length_fmap, length_seq).
      rewrite lookup_seq_lt by done. cbn. by rewrite decide_True.
    + rewrite list_lookup_insert_ne, list_lookup_fmap, lookup_seq_lt by done. cbn. by rewrite decide_False.
  - rewrite !lookup_ge_None_2; [done|rewrite ?length_insert, ?length_fmap, length_seq; lia..].
Qed.

Lemma drv_used rs d i : drv rs d -> i ∈ rs ≫= inds -> v_free d !! i = Some false.
Proof.
  intros H Hi. pose proof (dr_lt _ _ H) as Hl. rewrite Forall_forall in Hl. specialize (Hl i Hi).
  rewrite (dr_free _ _ H), list_lookup_fmap, lookup_seq_lt by done. cbn. f_equal. apply bool_decide_false. tauto.
Qed.

Lemma drv_avail rs d i : drv rs d -> v_free d !! i = Some true -> (i < NUM)%nat /\ i ∉ rs ≫= inds.
Proof.
  intros H. rewrite (dr_free _ _ H), list_lookup_fmap. intros (j & E & Hj)%fmap_Some.
  apply lookup_seq in E as [-> ?]. apply eq_sym, bool_decide_eq_true in Hj. done.
Qed.

Lemma drv_free_len rs d : drv rs d -> length (v_free d) = NUM.
Proof. intros H. rewrite (dr_free _ _ H). by rewrite length_fmap, length_seq. Qed.

Lemma elem_of_inds rs r i : r ∈ rs -> i ∈ inds r -> i ∈ rs ≫= inds.
Proof. intros Hr Hi. apply list_elem_of_bind. eauto. Qed.

(** A request only depends on the descriptors that it has. *)
Lemma req_ok_ext d d' r :
  (forall i, i ∈ inds r -> v_desc d' !! i = v_desc d !! i /\ v_info d' !! i = v_info d !! i /\
                          v_status d' !! i = v_status d !! i) ->
  req_ok d r -> req_ok d' r.
Proof.
  intros H [H0 H1 H2 H3 H4].
  destruct (H (q_0 r)) as (E0 & E3 & E4); [set_solver|].
  destruct (H (q_1 r)) as (E1 & _); [set_solver|]. destruct (H (q_2 r)) as (E2 & _); [set_solver|].
  split; congruence.
Qed.

Lemma drv_scrubbed rs d d' : drv rs d -> scrubbed d d' -> drv rs d'.
Proof.
  intros H (l & -> & Hl & Hd). pose proof H as [H1 H2 H3 H4 H5 H6 H7 H8 H9]. split; try done; cbn; [by rewrite Hl|].
  rewrite Forall_forall in *. intros r Hr. apply (req_ok_ext d); [|by apply H7].
  intros i Hi. split_and!; try done. apply Hd. rewrite (drv_used rs d i H); [done|].
  by eapply elem_of_inds.
Qed.

Lemma rings_scrubbed seen taken Q U F d d' : rings seen taken Q U F d -> scrubbed d d' -> rings seen taken Q U F d'.
Proof. intros [] (l & -> & _). by split. Qed.

Lemma rings_took seen taken Q U F i d : rings seen taken Q U F d -> rings seen taken Q U F (took i d).
Proof. intros []. by split. Qed.

Lemma not_in_inds rs r i :
  i ∉ (rs ≫= inds) ++ inds r <-> ((i ∉ rs ≫= inds) /\ i <> q_0 r /\ i <> q_1 r /\ i <> q_2 r).
Proof. rewrite not_elem_of_app. unfold inds at 2. rewrite !not_elem_of_cons. set_solver. Qed.

Lemma drv_submitted rs r d :
  drv rs d -> NoDup (inds r) -> Forall (fun i => v_free d !! i = Some true) (inds r) ->
  q_b r ∉ q_b <$> rs ->
  drv (rs ++ [r]) (submitted r (took (q_2 r) (took (q_1 r) (took (q_0 r) d)))).
Proof.
  intros H Hnd Hf Hb. pose proof H as [H1 H2 H3 H4 H5 H6 H7 H8 H9].
  assert (forall i, i ∈ inds r -> (i < NUM)%nat /\ i ∉ rs ≫= inds) as Hi.
  { intros i Hi. rewrite Forall_forall in Hf. apply (drv_avail rs d); [done|by apply Hf]. }
  assert ((rs ++ [r]) ≫= inds = (rs ≫= inds) ++ inds r) as Ebind by by rewrite bind_app.
  destruct (Hi (q_0 r)) as [L0 N0]; [set_solver|]. destruct (Hi (q_1 r)) as [L1 N1]; [set_solver|].
  destruct (Hi (q_2 r)) as [L2 N2]; [set_solver|].
  assert (q_0 r <> q_1 r /\ q_0 r <> q_2 r /\ q_1 r <> q_2 r) as (N01 & N02 & N12).
  { unfold inds in Hnd. rewrite !NoDup_cons in Hnd. set_solver. }
  split; try (cbn; rewrite ?length_alter, ?length_insert; done).
  - cbn [submitted took v_free set_v_free]. rewrite H4, Ebind, !tab_insert. apply list_fmap_ext. intros _ i _. cbn.
    rewrite (bool_decide_ext _ _ (not_in_inds rs r i)).
    destruct (decide (i = q_2 r)), (decide (i = q_1 r)), (decide (i = q_0 r)); symmetry;
      first [apply bool_decide_false; by intros (_ & ? & ? & ?)|apply bool_decide_ext; tauto].
  - rewrite Ebind. apply NoDup_app. split_and!; [done| |done]. intros i Hin Hr. by apply (Hi i).
  - rewrite Ebind. apply Forall_app. split; [done|]. apply Forall_forall. intros i Hr. by apply Hi.
  - apply Forall_app. split; [|apply Forall_singleton; split]; cbn.
    + rewrite Forall_forall in *. intros r' Hr'. apply (req_ok_ext d); [|by apply H7].
      intros i Hin. assert (i ∈ rs ≫= inds) by by eapply elem_of_inds.
      cbn. rewrite !list_lookup_alter_ne, !list_lookup_insert_ne by (intros E; rewrite <- E in *; done). done.
    + rewrite !list_lookup_alter_ne, list_lookup_alter_eq by done.
      destruct (lookup_lt_is_Some_2 (v_desc d) (q_0 r)) as [x ->]; [by rewrite H1|done].
    + rewrite list_lookup_alter_ne, list_lookup_alter_eq, list_lookup_alter_ne by done.
      destruct (lookup_lt_is_Some_2 (v_desc d) (q_1 r)) as [x ->]; [by rewrite H1|done].
    + rewrite list_lookup_alter_eq, !list_lookup_alter_ne by done.
      destruct (lookup_lt_is_Some_2 (v_desc d) (q_2 r)) as [x ->]; [by rewrite H1|done].
    + apply list_lookup_insert_eq. by rewrite H2.
    + apply list_lookup_insert_eq. by rewrite H3.
  - rewrite fmap_app. apply NoDup_app. split_and!; [done| |apply NoDup_singleton].
    intros b Hb1 Hb2. apply list_elem_of_singleton in Hb2 as ->. done.
  - cbn. intros i b [(<- & [= <-] & _)|[_ Hi']]%list_lookup_insert_Some.
    + exists r. set_solver.
    + destruct (H9 i b Hi') as (r' & Hr' & ?). exists r'. set_solver.
Qed.

Lemma rings_submitted seen taken Q U F r d :
  (3 * length (Q ++ U ++ F) <= 8)%nat -> rings seen taken Q U F d -> (q_b r < NBUF)%nat ->
  q_b r ∉ q_b <$> Q ++ U ++ F -> rings seen taken (Q ++ [r]) U F (submitted r d).
Proof.
  intros H [R1 R2 R3 R4 R5 R6 R7 R8 R9 (ps & P1 & P2 & P3)] Hb Hn.
  assert (forall r', r' ∈ Q ++ U ++ F -> q_b r <> q_b r') as Hne.
  { intros r' Hr' E. apply Hn. rewrite E. by apply list_elem_of_fmap_2. }
  assert (length ps <= 2)%nat as Hps.
  { apply Permutation_length in P1. rewrite length_app, length_fmap in P1.
    rewrite !length_app in H. lia. }
  split; try done; cbn; rewrite ?length_insert; try done.
  - rewrite <- app_assoc. apply Forall_app. rewrite !Forall_app in *. destruct R2 as [R2 R2'].
    split_and!; [| |]; rewrite ?Forall_singleton; try (by apply list_lookup_insert_eq; rewrite R1);
      rewrite Forall_forall in *; intros r' Hr'; rewrite list_lookup_insert_ne; auto; apply Hne; set_solver.
  - rewrite Forall_forall in *. intros r' Hr'. rewrite list_lookup_insert_ne; [auto|]. apply Hne. set_solver.
  - exists (ps ++ [q_0 r]). split_and!.
    + rewrite app_assoc, fmap_app. cbn. by rewrite P1.
    + change (Z.of_nat NUM) with 8. rewrite P3.
      assert (u16 (seen + Z.of_nat (length ps)) mod 8 = (seen + Z.of_nat (length ps)) mod 8) as ->
        by (unfold u16; divlia).
      apply slots_snoc; [done|lia|done].
    + rewrite P3, length_app. cbn. unfold u16. divlia.
Qed.

(** Freeing the descriptors of a request. *)
Definition released (r : req) (d : vdisk) : vdisk :=
  freed (q_2 r) (freed (q_1 r) (freed (q_0 r) (set_v_info (<[q_0 r := None]> (v_info d)) d))).

(** The descriptors of a request are distinct, and no other request has them. *)
Lemma drv_cons rs r d : drv (r :: rs) d ->
  (q_0 r < NUM)%nat /\ (q_1 r < NUM)%nat /\ (q_2 r < NUM)%nat /\
  q_0 r <> q_1 r /\ q_0 r <> q_2 r /\ q_1 r <> q_2 r /\ forall i, i ∈ rs ≫= inds -> i ∉ inds r.
Proof.
  intros [_ _ _ _ Hnd Hlt _ _ _]. change ((r :: rs) ≫= inds) with (inds r ++ (rs ≫= inds)) in *.
  apply NoDup_app in Hnd as (Hn & Hd & _). apply Forall_app in Hlt as [Hlt _].
  assert (forall i, i ∈ rs ≫= inds -> i ∉ inds r) as Hx by (intros i Hi Hi'; by apply (Hd i)).
  unfold inds in Hlt, Hn. rewrite !Forall_cons in Hlt. rewrite !NoDup_cons, !not_elem_of_cons in Hn. tauto.
Qed.

Lemma drv_released rs r d : drv (r :: rs) d -> drv rs (released r d).
Proof.
  intros H. destruct (drv_cons _ _ _ H) as (L0 & L1 & L2 & N01 & N02 & N12 & Hr).
  destruct H as [H1 H2 H3 H4 H5 H6 H7 H8 H9].
  change ((r :: rs) ≫= inds) with (inds r ++ (rs ≫= inds)) in *.
  split; try (cbn; rewrite ?length_alter, ?length_insert; done).
  - cbn [released freed v_free set_v_free set_v_desc set_v_info]. rewrite H4, !tab_insert.
    apply list_fmap_ext. intros _ i _. cbn.
    assert (i ∉ inds r ++ (rs ≫= inds) <-> i ∉ (rs ≫= inds) ++ inds r) as E
      by (rewrite !not_elem_of_app; tauto).
    rewrite (bool_decide_ext _ _ E), (bool_decide_ext _ _ (not_in_inds rs r i)).
    destruct (decide (i = q_2 r)), (decide (i = q_1 r)), (decide (i = q_0 r)); symmetry;
      first [apply bool_decide_true; intros Hi; apply (Hr _ Hi); subst; unfold inds; by rewrite !elem_of_cons; eauto
            |apply bool_decide_ext; tauto].
  - by apply NoDup_app in H5 as (_ & _ & ?).
  - by apply Forall_app in H6 as [_ ?].
  - apply Forall_cons in H7 as [_ H7]. rewrite Forall_forall in *. intros r' Hr'.
    apply (req_ok_ext d); [|by apply H7]. intros i Hi.
    assert (i ∉ inds r) as Hn by (apply Hr; by eapply elem_of_inds).
    unfold inds in Hn. rewrite !not_elem_of_cons in Hn. destruct Hn as (? & ? & ? & _).
    cbn. rewrite !list_lookup_alter_ne, !list_lookup_insert_ne by done. done.
  - by apply NoDup_cons in H8 as [_ ?].
  - cbn. intros i b [(_ & ? & _)|[Hne Hi]]%list_lookup_insert_Some; [done|].
    destruct (H9 i b Hi) as (r' & [->|Hr']%elem_of_cons & Hr2); [by destruct Hr2|by exists r'].
Qed.

Lemma rings_released seen taken Q U F r d :
  rings seen taken Q U (r :: F) d -> rings seen taken Q U F (released r d).
Proof. intros [? ? Hd]. apply Forall_cons in Hd as [_ ?]. by split. Qed.

Lemma wp_chain_link s0 k0 fuel i x Q p d :
  in_driver k0 p -> v_free d !! i = Some false -> length (v_free d) = NUM -> v_desc d !! i = Some x ->
  (forall p', in_driver k0 p' ->
     wp (if negb (Z.land (ds_flags x) VRING_DESC_F_NEXT =? 0) then free_chain fuel (ds_next x) else mret tt)
       Q (st s0 p' (freed i d))) ->
  wp (free_chain (S fuel) i) Q (st s0 p d).
Proof.
  intros Hp Hf Hl Hx HQ. cbn [free_chain]. mstep. apply (wp_free_desc s0 k0); [done..|].
  intros p' Hp'. mstep. apply wp_getd.
  assert (desc_at (freed i d) i = set_ds_addr ANull x) as ->.
  { unfold desc_at, freed. cbn [v_desc set_v_desc set_v_free]. by rewrite list_lookup_alter_eq, Hx. }
  by apply HQ.
Qed.

Lemma wp_free_chain s0 k0 rs r Q p d :
  in_driver k0 p -> drv (r :: rs) d ->
  (forall p', in_driver k0 p' -> Q tt (st s0 p' (released r d))) ->
  wp (free_chain NUM (q_0 r)) Q (st s0 p (set_v_info (<[q_0 r := None]> (v_info d)) d)).
Proof.
  intros Hp H HQ. destruct (drv_cons _ _ _ H) as (L0 & L1 & L2 & N01 & N02 & N12 & _).
  pose proof (drv_free_len _ _ H) as Hl.
  assert (forall i, i ∈ inds r -> v_free d !! i = Some false) as Hf.
  { intros i Hi. apply (drv_used (r :: rs)); [done|]. apply (elem_of_inds _ r); [by left|done]. }
  destruct (Forall_inv (dr_req _ _ H)) as [R0 R1 R2 _ _].
  eapply (wp_chain_link s0 k0); [done|apply Hf; by left|done|exact R0|]. intros p1 Hp1.
  change (wp (free_chain 7 (q_1 r)) Q (st s0 p1 (freed (q_0 r) (set_v_info (<[q_0 r := None]> (v_info d)) d)))).
  eapply (wp_chain_link s0 k0); [done| |by cbn; rewrite length_insert| |].
  { cbn. rewrite list_lookup_insert_ne by done. apply Hf. by right; left. }
  { cbn. rewrite list_lookup_alter_ne by done. exact R1. }
  intros p2 Hp2. cbn [ds_flags ds_next].
  replace (Z.land (q_flags r) VRING_DESC_F_NEXT =? 0) with false by (unfold q_flags; by destruct (q_write r)).
  eapply (wp_chain_link s0 k0); [done| |by cbn; rewrite !length_insert| |].
  { cbn. rewrite !list_lookup_insert_ne by done. apply Hf. by right; right; left. }
  { cbn. rewrite !list_lookup_alter_ne by done. exact R2. }
  intros p3 Hp3. apply (wp_ret tt). by apply HQ.
Qed.

(** ** The interrupt *)

Definition handled (r : req) (d : vdisk) : vdisk :=
  set_v_used_idx ((v_used_idx d + 1) mod Z.of_nat NUM) (set_v_busy (<[q_b r := false]> (v_busy d)) d).

Lemma drv_ext rs d d' :
  v_desc d' = v_desc d -> v_info d' = v_info d -> v_status d' = v_status d -> v_free d' = v_free d ->
  drv rs d -> drv rs d'.
Proof.
  intros E1 E2 E3 E4 []. split; try congruence; [|by rewrite E2].
  eapply Forall_impl; [done|]. intros r. apply req_ok_ext. by rewrite E1, E2, E3.
Qed.

Lemma drv_handled rs r d : drv rs d -> drv rs (handled r d).
Proof. by apply drv_ext. Qed.

Lemma bufs_distinct (r : req) rs : NoDup (q_b <$> r :: rs) -> forall r', r' ∈ rs -> q_b r <> q_b r'.
Proof. intros [Hn _]%NoDup_cons r' Hr' E. apply Hn. rewrite E. by apply list_elem_of_fmap_2. Qed.

Lemma rings_handled seen taken Q U F r d :
  drv (Q ++ (r :: U) ++ F) d -> rings seen taken Q (r :: U) F d ->
  rings seen taken Q U (F ++ [r]) (handled r d).
Proof.
  intros H [R1 R2 R3 R4 R5 R6 R7 R8 R9 R10].
  assert (forall r', r' ∈ Q ++ U ++ F -> q_b r <> q_b r') as Hne.
  { apply bufs_distinct. rewrite (Permutation_middle Q (U ++ F) r). apply H. }
  rewrite Forall_app, Forall_cons in R2. destruct R2 as (R2 & Rr & R2').
  pose proof (lookup_lt_Some _ _ _ Rr) as Hb.
  split; try done; cbn; rewrite ?length_insert; try done.
  - apply Forall_app; split; rewrite Forall_forall in *; intros r' Hr';
      rewrite list_lookup_insert_ne; auto; apply Hne; set_solver.
  - apply Forall_app; split.
    + rewrite Forall_forall in *. intros r' Hr'. rewrite list_lookup_insert_ne; auto. apply Hne. set_solver.
    + apply Forall_singleton. by apply list_lookup_insert_eq.
  - apply Z.mod_pos_bound. done.
  - eapply slots_mod; [|by eapply slots_tail]. change (Z.of_nat NUM) with 8. by rewrite Z.mod_mod by lia.
  - rewrite R7. cbn [length]. change (Z.of_nat NUM) with 8. rewrite Z.add_mod_idemp_l by lia. f_equal. lia.
Qed.

Lemma wp_intr_loop s0 k0 seen taken Q (K : unit -> vtst -> Prop) U :
  forall F fuel p d, (length U <= fuel)%nat -> in_driver k0 p ->
  drv (Q ++ U ++ F) d -> rings seen taken Q U F d ->
  (forall p' d', in_driver k0 p' -> drv (Q ++ F ++ U) d' -> rings seen taken Q [] (F ++ U) d' ->
     K tt (st s0 p' d')) ->
  wp (intr_loop fuel) K (st s0 p d).
Proof.
  induction U as [|r U IH]; intros F fuel p d Hf Hp H R HK.
  all: pose proof (drv_few _ _ H) as Hfew; rewrite !length_app in Hfew; cbn [length] in Hfew.
  all: pose proof (rg_used_id _ _ _ _ _ _ R) as Eid; cbn [length] in Eid.
  - destruct fuel; cbn [intr_loop]; mstep; apply wp_getd; cbn [id]; change (Z.of_nat NUM) with 8;
      rewrite Eid, Z.add_0_r, Z.eqb_refl; mstep; (apply HK; [done| |]); by rewrite app_nil_r.
  - destruct fuel as [|fuel]; [cbn in Hf; lia|]. cbn [intr_loop]. mstep. apply wp_getd. cbn [id].
    change (Z.of_nat NUM) with 8.
    pose proof (rg_used_idx _ _ _ _ _ _ R) as Hidx.
    rewrite (proj2 (Z.eqb_neq (v_used_idx d mod 8) (v_used_id d mod 8))) by (rewrite Eid; divlia).
    assert (v_used d !! Z.to_nat (v_used_idx d) = Some (q_0 r)) as Eh.
    { pose proof (slots_head _ _ _ _ (rg_used _ _ _ _ _ _ R)) as E. by rewrite Z.mod_small in E. }
    assert (req_ok d r) as [_ _ _ Ei Es].
    { pose proof (dr_req _ _ H) as Hr. rewrite !Forall_app, Forall_cons in Hr. tauto. }
    rewrite Eh. cbn [default from_option id]. rewrite Es, Ei. cbn [default from_option id Z.eqb negb].
    mstep. apply wp_setd. mstep. apply (wp_wake s0 _ k0); [done|]. intros p1 Hp1 _. mstep. apply wp_setd.
    eapply (IH (F ++ [r])); [cbn in Hf; lia|done| |by apply (rings_handled seen taken Q U F r d)|].
    + apply (drv_handled _ r d). eapply drv_perm; [|exact H].
      by rewrite (app_assoc U F [r]), (Permutation_app_comm (U ++ F) [r]).
    + intros p2 d2 Hp2 H2 R2. rewrite <- app_assoc in H2, R2. by apply HK.
Qed.

(** ** Entering the driver *)

Lemma perm_last {A} (Q L : list A) r : (Q ++ L) ++ [r] ≡ₚ (Q ++ [r]) ++ L.
Proof. rewrite <- !app_assoc. by rewrite (Permutation_app_comm L [r]). Qed.

Lemma rings_perm_done seen taken Q U F F' d :
  F ≡ₚ F' -> rings seen taken Q U F d -> rings seen taken Q U F' d.
Proof. intros P []. split; try done. by rewrite <- P. Qed.

(** A request that has been served frees its descriptors and returns. *)
Lemma wp_rw_finish s0 k0 seen taken Q U F r (K : unit -> vtst -> Prop) p d :
  in_driver k0 p -> drv (Q ++ U ++ F) d -> rings seen taken Q U F d -> r ∈ F ->
  (forall F' p' d', F ≡ₚ r :: F' -> drv (Q ++ U ++ F') d' -> rings seen taken Q U F' d' -> K tt (st s0 p' d')) ->
  wp (rw_wait (q_b r) (q_0 r)) K (st s0 p d).
Proof.
  intros Hp H Hr Hin HK. unfold rw_wait. mstep. apply wp_getd. unfold is_busy.
  pose proof (rg_done _ _ _ _ _ _ Hr) as Hb. rewrite Forall_forall in Hb. rewrite (Hb _ Hin).
  apply elem_of_Permutation in Hin as [F' PF]. cbn [default from_option id].
  assert (drv (r :: Q ++ U ++ F') d) as Hd.
  { eapply drv_perm; [|exact H]. by rewrite PF, !Permutation_middle. }
  mstep. apply wp_setd. mstep. apply (wp_free_chain s0 k0 _ _ _ _ _ Hp Hd).
  intros p1 Hp1. apply (wp_leave s0 k0); [done|]. intros p2 _ _.
  apply (HK F'); [done|by apply drv_released|]. eapply rings_released, rings_perm_done; done.
Qed.

(** The loop that waits for the device goes on sleeping, or frees the
    descriptors and returns. *)
Lemma wps_rw_wait s0 k0 pr seen taken Q U F r (K : unit -> vtst -> Prop) (R : vtst -> Prop) p d :
  in_driver k0 p -> cproc k0 = Some pr -> (pr < NPROC)%nat ->
  drv (Q ++ U ++ F) d -> rings seen taken Q U F d -> r ∈ Q ++ U ++ F ->
  (forall p', p_chan (proc_at pr p') = Some (buf_chan (q_b r)) -> R (st s0 p' d)) ->
  (forall F' p' d', F ≡ₚ r :: F' -> drv (Q ++ U ++ F') d' -> rings seen taken Q U F' d' -> K tt (st s0 p' d')) ->
  wps (rw_wait (q_b r) (q_0 r)) K R (st s0 p d).
Proof.
  intros Hp Hc Hpr H Hr Hin HR HK. rewrite app_assoc in Hin. apply elem_of_app in Hin as [Hin|Hin].
  - unfold rw_wait. apply wps_seq, wp_getd. unfold is_busy.
    pose proof (rg_busy _ _ _ _ _ _ Hr) as Hb. rewrite Forall_forall in Hb. rewrite (Hb _ Hin).
    by apply (wps_sleep s0 _ k0 pr).
  - apply wps_wp. by eapply wp_rw_finish.
Qed.

(** A new request sleeps until there are descriptors, or until it is served. *)
Lemma wps_rw_start s0 k0 pr seen taken Q U F b write sector (K : unit -> vtst -> Prop) (R : vtst -> Prop) p d :
  in_driver k0 p -> cproc k0 = Some pr -> (pr < NPROC)%nat ->
  drv (Q ++ U ++ F) d -> rings seen taken Q U F d -> (b < NBUF)%nat -> b ∉ q_b <$> Q ++ U ++ F ->
  (forall p' d', p_chan (proc_at pr p') = Some free_chan -> drv (Q ++ U ++ F) d' ->
     rings seen taken Q U F d' -> R (st s0 p' d')) ->
  (forall r p' d', p_chan (proc_at pr p') = Some (buf_chan b) -> q_b r = b -> q_write r = write ->
     q_sector r = sector -> drv ((Q ++ [r]) ++ U ++ F) d' -> rings seen taken (Q ++ [r]) U F d' ->
     R (st s0 p' d')) ->
  wps (rw_start b write sector) K R (st s0 p d).
Proof.
  intros Hp Hc Hpr H Hr Hb Hn H1 H2. unfold rw_start. apply wps_seq.
  apply (wp_alloc3_desc s0 k0); [done|by eapply drv_free_len|..].
  - intros p' d' Hp' Hs. apply (wps_sleep s0 _ k0 pr); [done..|]. intros p2 Hch.
    apply H1; [done|by eapply drv_scrubbed|by eapply rings_scrubbed].
  - intros i0 i1 i2 Hnd Hf. set (r := mk_req b write sector i0 i1 i2).
    set (d1 := took i2 (took i1 (took i0 d))).
    assert (drv ((Q ++ [r]) ++ U ++ F) (submitted r d1)) as Hd.
    { eapply drv_perm; [|apply (drv_submitted (Q ++ U ++ F) r d); done].
      apply perm_last. }
    assert (rings seen taken (Q ++ [r]) U F (submitted r d1)) as Hr1.
    { apply rings_submitted; try done; [by eapply drv_few|]. by do 3 apply rings_took. }
    apply wps_seq. apply (wp_rw_submit s0 r).
    eapply (wps_rw_wait s0 k0 pr seen taken (Q ++ [r]) U F r); try done; [set_solver| |].
    + intros p' Hch. by apply (H2 r).
    + intros F' p' d' PF _ Hr2. exfalso. pose proof (rg_busy _ _ _ _ _ _ Hr1) as B1.
      pose proof (rg_done _ _ _ _ _ _ Hr1) as B2. rewrite PF in B2. rewrite !Forall_app in B1.
      destruct B1 as [[_ B1] _]. apply Forall_inv in B1, B2. cbn in B1, B2. congruence.
Qed.

End VirtioProofs.
