(* ===== verification/VirtioDisk.v ===== *)
(** * The driver and its device refine the atomic disk

    The device is a parameter: a class says what the virtio specification says
    of a block device.  Processes that call virtio_disk_rw, the interrupt
    handler, the device and whatever else the kernel does to other buffers are
    interleaved as a step relation; every sequence of steps is one of the disk
    of Bio, on which a request takes effect at once, at some point between the
    call and the return. *)

From Stdlib Require Import ZArith Lia.
From stdpp Require Import base list gmap strings.
From S2P Require Import Prelude KString Spinlock Riscv Kalloc Vm Proc Sleeplock Bio Virtio VirtioProofs.

Module VirtioDisk.
Import VirtioProofs.

(** ** The device *)

(** The device appends [h] to the used ring. *)
Definition push_used (h : nat) (d : vdisk) : vdisk :=
  set_v_used_id (u16 (v_used_id d + 1))
    (set_v_used (<[Z.to_nat (v_used_id d mod Z.of_nat NUM) := h]> (v_used d)) d).

(** A block is two sectors of 512 bytes. *)
Definition block_of (sector : Z) : Z := sector / 2.

Definition transfer (out : bool) (sector : Z) (b : nat) (s : bst) : bst :=
  if out then
    set_d_writes (d_writes s ++ [(block_of sector, b_data (buf_at b s))])
      (set_d_disk (<[block_of sector := b_data (buf_at b s)]> (d_disk s)) s)
  else set_bc_buf (alter (set_b_data (dblock s (block_of sector))) b (bc_buf s)) s.

(** The specification of a legacy block device: the chain at [h] must be a
    header that the device reads, the data, which it writes for a read, and a
    status byte that it writes; [None] if the chain is anything else.  The
    device transfers the data, sets the status to 0 (VIRTIO_BLK_S_OK) and puts
    [h] into the used ring. *)
Definition serve (h : nat) (s : vtst) : option vtst :=
  let d := vt_d s in
  let d0 := desc_at d h in
  let d1 := desc_at d (ds_next d0) in
  let d2 := desc_at d (ds_next d1) in
  match ds_addr d0, ds_addr d1, ds_addr d2 with
  | AHdr type sector, AData b, AStatus i =>
      let out := type =? VIRTIO_BLK_T_OUT in
      if (out || (type =? VIRTIO_BLK_T_IN)) && (sector mod 2 =? 0) &&
         (ds_len d0 =? 16) && (ds_flags d0 =? VRING_DESC_F_NEXT) &&
         (ds_len d1 =? Z.of_nat BSIZE) &&
         (ds_flags d1 =? Z.lor (if out then 0 else VRING_DESC_F_WRITE) VRING_DESC_F_NEXT) &&
         (ds_len d2 =? 1) && (ds_flags d2 =? VRING_DESC_F_WRITE)
      then Some (mk_vtst (transfer out sector b (vt_b s))
                   (push_used h (set_v_status (<[i := 0]> (v_status d)) d)))
      else None
  | _, _, _ => None
  end.

(** A block device: it has looked at the ring of available requests up to
    [dv_seen] and works on [dv_taken].  In a step it takes the next available
    request, or it serves one of those it has taken, in any order.  What it does
    to a malformed request is not specified. *)
Class VirtioBlk (D : Type) := {
  dv_seen : D -> Z;
  dv_taken : D -> list nat;
  dv_step : D -> vtst -> D -> vtst -> Prop;
  dv_law : forall x s x' s', dv_step x s x' s' ->
    (v_avail_idx (vt_d s) <> dv_seen x /\ s' = s /\ dv_seen x' = u16 (dv_seen x + 1) /\
     dv_taken x' ≡ₚ default 0%nat (v_avail (vt_d s) !! Z.to_nat (dv_seen x mod Z.of_nat NUM)) :: dv_taken x) \/
    (exists h, dv_taken x ≡ₚ h :: dv_taken x' /\ dv_seen x' = dv_seen x /\
       match serve h s with Some s1 => s' = s1 | None => True end);
}.

(** Taking a request out of the ring. *)
Lemma rings_taken seen taken taken' Q U F d :
  rings seen taken Q U F d -> v_avail_idx d <> seen ->
  taken' ≡ₚ default 0%nat (v_avail d !! Z.to_nat (seen mod Z.of_nat NUM)) :: taken ->
  rings (u16 (seen + 1)) taken' Q U F d.
Proof.
  intros [R1 R2 R3 R4 R5 R6 R7 R8 R9 (ps & P1 & P2 & P3)] Hne Ht.
  destruct ps as [|h ps].
  { exfalso. apply Hne. rewrite P3. cbn. unfold u16. rewrite Z.add_0_r, Z.mod_small by done. done. }
  change (Z.of_nat NUM) with 8 in Ht. rewrite (slots_head _ _ _ _ P2) in Ht. cbn in Ht.
  split; try done; [unfold u16; apply Z.mod_pos_bound; lia|]. exists ps. split_and!.
  - rewrite Ht, <- P1. by rewrite <- Permutation_middle.
  - eapply slots_mod; [|by eapply slots_tail]. unfold u16. divlia.
  - rewrite P3. cbn [length]. unfold u16. divlia.
Qed.

Lemma serve_req d r s :
  vt_d s = d -> req_ok d r -> q_sector r mod 2 = 0 ->
  serve (q_0 r) s = Some (mk_vtst (transfer (q_write r) (q_sector r) (q_b r) (vt_b s)) (push_used (q_0 r) d)).
Proof.
  intros <- [H0 H1 H2 H3 H4] Hs. unfold serve, desc_at. rewrite H0. cbn. rewrite H1. cbn. rewrite H2. cbn.
  rewrite Hs. cbn. rewrite list_insert_id by done.
  unfold q_type, q_flags. destruct (q_write r); cbn; by destruct (vt_d s).
Qed.

Lemma drv_push_used rs h d : drv rs d -> drv rs (push_used h d).
Proof. by apply drv_ext. Qed.

Lemma rings_served seen taken taken' Q Q' U F r d :
  drv (Q ++ U ++ F) d -> rings seen taken Q U F d -> Q ≡ₚ r :: Q' -> taken ≡ₚ q_0 r :: taken' ->
  rings seen taken' Q' (U ++ [r]) F (push_used (q_0 r) d).
Proof.
  intros H [R1 R2 R3 R4 R5 R6 R7 R8 R9 (ps & P1 & P2 & P3)] PQ PT.
  apply drv_few in H. rewrite !length_app in H.
  split; try done; cbn; rewrite ?length_insert; try done.
  - rewrite PQ in R2. apply Forall_cons in R2 as [Rr R2]. rewrite app_assoc.
    apply Forall_app. split; [done|by apply Forall_singleton].
  - rewrite fmap_app. change (Z.of_nat NUM) with 8. rewrite R7, <- (length_fmap q_0 U).
    apply slots_snoc; [done|rewrite length_fmap; lia|done].
  - unfold u16. rewrite length_app. cbn. divlia.
  - exists ps. split_and!; try done. rewrite PT, PQ in P1. by apply Permutation_cons_inv in P1.
Qed.

(** ** The atomic disk *)

(** What happens at the interface of the driver: calls, returns, and changes to
    the buffers that are not in a request. *)
Inductive event :=
| Call (b : nat) (write : bool)
| Return (b : nat) (write : bool)
| Client (bufs : list buf).

(** The buffers and the disk. *)
Record core := mk_core {
  c_buf : list buf;
  c_disk : gmap Z (list Z);
  c_writes : list (Z * list Z);
}.

Definition core_of (s : bst) : core := mk_core (bc_buf s) (d_disk s) (d_writes s).

(** The requests of the atomic disk, each with whether it has taken effect. *)
Record spec := mk_spec {
  sp_core : core;
  sp_reqs : list (nat * bool * bool);
}.

Inductive spec_step : spec -> list event -> spec -> Prop :=
| spec_call c rs b write :
    b ∉ rs.*1.*1 ->
    spec_step (mk_spec c rs) [Call b write] (mk_spec c ((b, write, false) :: rs))
| spec_apply rs rs' b write s s' :
    rs ≡ₚ (b, write, false) :: rs' -> disk_rw b write s = Ret tt s' ->
    spec_step (mk_spec (core_of s) rs) [] (mk_spec (core_of s') ((b, write, true) :: rs'))
| spec_return c rs rs' b write :
    rs ≡ₚ (b, write, true) :: rs' ->
    spec_step (mk_spec c rs) [Return b write] (mk_spec c rs')
| spec_client c rs bufs :
    (forall b, b ∈ rs.*1.*1 -> bufs !! b = c_buf c !! b) ->
    spec_step (mk_spec c rs) [Client bufs] (mk_spec (mk_core bufs (c_disk c) (c_writes c)) rs).

Inductive spec_steps : spec -> list event -> spec -> Prop :=
| spec_refl a : spec_steps a [] a
| spec_snoc a tr a' e a'' : spec_steps a tr a' -> spec_step a' e a'' -> spec_steps a (tr ++ e) a''.

(** ** The driver with its callers *)

Section driver.
Context {D : Type} {blk : VirtioBlk D}.

(** [w_wait] are the callers that sleep until there are descriptors, with the
    sector of the request, and [w_flight] those that sleep until the device has
    served them, with their first descriptor: the local variables of
    virtio_disk_rw. *)
Record world := mk_world {
  w_s : vtst;
  w_dev : D;
  w_wait : list (nat * bool * Z);
  w_flight : list (nat * bool * nat);
}.

Definition in_request (w : world) : list nat := (w_wait w).*1.*1 ++ (w_flight w).*1.*1.

(** The driver runs in whatever process there is. *)
Definition with_procs (p : pst) (s : vtst) : vtst := st s p (vt_d s).

(** Process [pr] has gone to sleep in virtio_disk_rw: in the loop that its
    channel belongs to. *)
Definition asleep_in (pr b : nat) (write : bool) (sector : Z) (s : vtst) (w : world) : world :=
  if decide (p_chan (proc_at pr (procs s)) = Some free_chan) then
    mk_world s (w_dev w) ((b, write, sector) :: w_wait w) (w_flight w)
  else
    let i := match list_find (fun x => x = Some b) (v_info (vt_d s)) with Some (i, _) => i | None => 0%nat end in
    mk_world s (w_dev w) (w_wait w) ((b, write, i) :: w_flight w).

(** What has happened when the driver stops; [None] is a panic. *)
Definition after (pr b : nat) (write : bool) (sector : Z) (w : world) (r : result vtst unit)
    : list event * option world :=
  match r with
  | Ret _ s => ([Return b write], Some (mk_world s (w_dev w) (w_wait w) (w_flight w)))
  | Asleep s => ([], Some (asleep_in pr b write sector s w))
  | _ => ([], None)
  end.

Inductive step : world -> list event -> option world -> Prop :=
| step_call w b write pr p e o :
    unlocked p -> cproc (k_lk (ps_k p)) = Some pr -> (pr < NPROC)%nat ->
    (b < NBUF)%nat -> b ∉ in_request w -> 0 <= b_blockno (buf_at b (vt_b (w_s w))) < 2 ^ 31 ->
    after pr b write (u32 (b_blockno (buf_at b (vt_b (w_s w))) * (Z.of_nat BSIZE / 512))) w
      (virtio_disk_rw b write (with_procs p (w_s w))) = (e, o) ->
    step w (Call b write :: e) o
| step_descs w b write sector wait pr p e o :
    w_wait w ≡ₚ (b, write, sector) :: wait -> resumed pr p -> (pr < NPROC)%nat ->
    after pr b write sector (mk_world (w_s w) (w_dev w) wait (w_flight w))
      (virtio_disk_rw_back b write sector (with_procs p (w_s w))) = (e, o) ->
    step w e o
| step_done w b write sector i flight pr p e o :
    w_flight w ≡ₚ (b, write, i) :: flight -> resumed pr p -> (pr < NPROC)%nat ->
    after pr b write sector (mk_world (w_s w) (w_dev w) (w_wait w) flight)
      (virtio_disk_rw_done b i (with_procs p (w_s w))) = (e, o) ->
    step w e o
| step_intr w reg p :
    unlocked p ->
    step w [] (match virtio_disk_intr reg (with_procs p (w_s w)) with
               | Ret _ s => Some (mk_world s (w_dev w) (w_wait w) (w_flight w))
               | _ => None
               end)
| step_device w x s :
    dv_step (w_dev w) (w_s w) x s -> step w [] (Some (mk_world s x (w_wait w) (w_flight w)))
| step_client w s :
    vt_d s = vt_d (w_s w) -> d_disk (vt_b s) = d_disk (vt_b (w_s w)) ->
    d_writes (vt_b s) = d_writes (vt_b (w_s w)) ->
    (forall b, b ∈ in_request w -> bc_buf (vt_b s) !! b = bc_buf (vt_b (w_s w)) !! b) ->
    step w [Client (bc_buf (vt_b s))] (Some (mk_world s (w_dev w) (w_wait w) (w_flight w))).

Inductive steps : world -> list event -> option world -> Prop :=
| steps_refl w : steps w [] (Some w)
| steps_snoc w tr w' e o : steps w tr (Some w') -> step w' e o -> steps w (tr ++ e) o.

(** ** The simulation *)

(** The sector is that of the block of the buffer. *)
Definition sector_ok (s : vtst) (b : nat) (sector : Z) : Prop :=
  0 <= b_blockno (buf_at b (vt_b s)) < 2 ^ 31 /\
  sector = u32 (b_blockno (buf_at b (vt_b s)) * (Z.of_nat BSIZE / 512)).

Definition waiting (x : nat * bool * Z) : nat * bool * bool := (x.1, false).
Definition spec_req (done : bool) (r : req) : nat * bool * bool := (q_b r, q_write r, done).
Definition flight (r : req) : nat * bool * nat := (q_b r, q_write r, q_0 r).

Record sim (Q U F : list req) (w : world) (a : spec) : Prop := {
  sm_drv : drv (Q ++ U ++ F) (vt_d (w_s w));
  sm_rings : rings (dv_seen (w_dev w)) (dv_taken (w_dev w)) Q U F (vt_d (w_s w));
  sm_flight : w_flight w ≡ₚ flight <$> Q ++ U ++ F;
  sm_reqs : sp_reqs a ≡ₚ (waiting <$> w_wait w) ++ (spec_req false <$> Q) ++ (spec_req true <$> U ++ F);
  sm_nodup : NoDup ((w_wait w).*1.*1 ++ (q_b <$> Q ++ U ++ F));
  sm_lt : Forall (fun b => (b < NBUF)%nat) (w_wait w).*1.*1;
  sm_wait : Forall (fun x => sector_ok (w_s w) x.1.1 x.2) (w_wait w);
  sm_sector : Forall (fun r => sector_ok (w_s w) (q_b r) (q_sector r)) Q;
  sm_core : sp_core a = core_of (vt_b (w_s w));
}.

Lemma sim_bufs Q U F w a : sim Q U F w a -> in_request w ≡ₚ (w_wait w).*1.*1 ++ (q_b <$> Q ++ U ++ F).
Proof.
  intros S. unfold in_request. rewrite (sm_flight _ _ _ _ _ S).
  by rewrite <- !list_fmap_compose.
Qed.

Lemma sim_spec_bufs Q U F w a : sim Q U F w a -> (sp_reqs a).*1.*1 ≡ₚ in_request w.
Proof.
  intros S. rewrite (sim_bufs _ _ _ _ _ S), (sm_reqs _ _ _ _ _ S).
  by rewrite !fmap_app, <- !list_fmap_compose.
Qed.

(** The caller that has just queued [r] is found again by its buffer. *)
Lemma find_info rs r d : drv rs d -> r ∈ rs ->
  exists x, list_find (fun x => x = Some (q_b r)) (v_info d) = Some (q_0 r, x).
Proof.
  intros H Hr. pose proof (dr_req _ _ H) as Hok. rewrite Forall_forall in Hok.
  pose proof (ro_info _ _ (Hok r Hr)) as Hi.
  destruct (list_find_elem_of (fun x => x = Some (q_b r)) (v_info d) (Some (q_b r))) as [[j x] Hj];
    [by eapply list_elem_of_lookup_2|done|].
  exists x. rewrite Hj. do 2 f_equal. apply list_find_Some in Hj as (Hj & -> & _).
  destruct (dr_owner _ _ H _ _ Hj) as (r' & Hr' & <- & Eb).
  apply list_elem_of_lookup in Hr as [k Hk], Hr' as [k' Hk'].
  assert (k' = k) as -> by (eapply (NoDup_lookup (q_b <$> rs)); [apply H|by rewrite list_lookup_fmap, Hk'|];
    by rewrite list_lookup_fmap, Hk, Eb).
  congruence.
Qed.

(** A request that is started waits for descriptors, or is queued. *)
Lemma start_sim Q U F w a0 a b write sector pr k0 p (K : unit -> vtst -> Prop) :
  sim Q U F w a0 -> (b < NBUF)%nat -> b ∉ in_request w -> sector_ok (w_s w) b sector ->
  sp_core a = sp_core a0 -> sp_reqs a ≡ₚ (b, write, false) :: sp_reqs a0 ->
  in_driver k0 p -> cproc k0 = Some pr -> (pr < NPROC)%nat ->
  wps (rw_start b write sector) K (fun s => exists Q', sim Q' U F (asleep_in pr b write sector s w) a)
    (st (w_s w) p (vt_d (w_s w))).
Proof.
  intros S Hb Hn Hs Ec Er Hp Hc Hpr. pose proof (sim_bufs _ _ _ _ _ S) as PB.
  pose proof S as [S1 S2 S3 S4 S5 S6 S7 S8 S9]. rewrite PB in Hn.
  assert (NoDup (b :: (w_wait w).*1.*1 ++ (q_b <$> Q ++ U ++ F))) as Hnd by by constructor.
  eapply (wps_rw_start _ k0 pr); try done; [set_solver|..].
  - intros p' d' Hch Hd Hr. exists Q. unfold asleep_in. rewrite decide_True by done.
    split; try done; cbn.
    + by rewrite Er, S4.
    + by constructor.
    + by constructor.
    + by rewrite Ec, S9.
  - intros r p' d' Hch Eb Ew Es Hd Hr. exists (Q ++ [r]). unfold asleep_in.
    rewrite decide_False by (change (procs (st (w_s w) p' d')) with p'; rewrite Hch; done).
    cbn [vt_d st set_vt_d]. destruct (find_info _ r d' Hd) as [x Hx]; [set_solver|]. rewrite Eb in Hx. rewrite Hx.
    assert (flight r = (b, write, q_0 r)) as Ef by (unfold flight; by rewrite Eb, Ew).
    assert (spec_req false r = (b, write, false)) as Eq by (unfold spec_req; by rewrite Eb, Ew).
    split; try done; cbn.
    + rewrite S3. rewrite <- perm_last, (fmap_app flight (Q ++ U ++ F)), (Permutation_app_comm _ (flight <$> [r])).
      change (flight <$> [r]) with [flight r]. by rewrite Ef.
    + rewrite Er, S4, (fmap_app (spec_req false)). change (spec_req false <$> [r]) with [spec_req false r].
      rewrite Eq, <- (assoc_L (++)). cbn. by rewrite !Permutation_middle.
    + rewrite <- perm_last, (fmap_app q_b (Q ++ U ++ F)), (assoc_L (++)), (Permutation_app_comm _ (q_b <$> [r])).
      cbn. by rewrite Eb.
    + apply Forall_app. split; [done|]. apply Forall_singleton. by rewrite Eb, Es.
    + by rewrite Ec, S9.
Qed.

Definition simulated (a : spec) (e : list event) (o : option world) : Prop :=
  exists w a' Q U F, o = Some w /\ spec_steps a e a' /\ sim Q U F w a'.

Lemma spec_one a e a' : spec_step a e a' -> spec_steps a e a'.
Proof. intros H. apply (spec_snoc a [] a); [constructor|done]. Qed.

Lemma sim_call Q U F w a b write pr p e o :
  sim Q U F w a -> unlocked p -> cproc (k_lk (ps_k p)) = Some pr -> (pr < NPROC)%nat ->
  (b < NBUF)%nat -> b ∉ in_request w -> 0 <= b_blockno (buf_at b (vt_b (w_s w))) < 2 ^ 31 ->
  after pr b write (u32 (b_blockno (buf_at b (vt_b (w_s w))) * (Z.of_nat BSIZE / 512))) w
    (virtio_disk_rw b write (with_procs p (w_s w))) = (e, o) ->
  simulated a (Call b write :: e) o.
Proof.
  intros S Hu Hc Hpr Hb Hn Hblk E. set (sector := u32 _) in E.
  set (a' := mk_spec (sp_core a) ((b, write, false) :: sp_reqs a)).
  assert (wps (virtio_disk_rw b write) (fun _ _ => False)
            (fun s => exists Q', sim Q' U F (asleep_in pr b write sector s w) a') (with_procs p (w_s w))) as Hw.
  { unfold virtio_disk_rw. apply wps_seq. mstep. unfold getb. mstep. apply wps_seq.
    apply (wp_enter (w_s w)); [done|]. intros k0 p' Hp' Hc' _.
    by eapply (start_sim Q U F w a a' b write sector pr k0); try done; rewrite Hc'. }
  unfold wps in Hw. destruct (virtio_disk_rw b write _) as [|?|s|?|?]; try done. destruct Hw as [Q' S'].
  injection E as <- <-. do 2 eexists. exists Q', U, F. split_and!; [done| |done].
  apply spec_one. destruct a. apply spec_call. by rewrite (sim_spec_bufs _ _ _ _ _ S).
Qed.

Lemma sim_descs Q U F w a b write sector wait pr p e o :
  sim Q U F w a -> w_wait w ≡ₚ (b, write, sector) :: wait -> resumed pr p -> (pr < NPROC)%nat ->
  after pr b write sector (mk_world (w_s w) (w_dev w) wait (w_flight w))
    (virtio_disk_rw_back b write sector (with_procs p (w_s w))) = (e, o) ->
  simulated a e o.
Proof.
  intros S PW Hp Hpr E. set (w0 := mk_world _ _ _ _) in E.
  pose proof S as [S1 S2 S3 S4 S5 S6 S7 S8 S9].
  set (a0 := mk_spec (sp_core a) ((waiting <$> wait) ++ (spec_req false <$> Q) ++ (spec_req true <$> U ++ F))).
  rewrite PW in S4, S5, S6, S7. cbn in S5, S6. apply NoDup_cons in S5 as [S5 S5'].
  apply Forall_cons in S6 as [Hb S6]. apply Forall_cons in S7 as [Hs S7].
  assert (sim Q U F w0 a0) as S0 by done.
  assert (wps (virtio_disk_rw_back b write sector) (fun _ _ => False)
            (fun s => exists Q', sim Q' U F (asleep_in pr b write sector s w0) a) (with_procs p (w_s w))) as Hw.
  { unfold virtio_disk_rw_back. apply wps_seq. apply (wp_sleep_back (w_s w) pr); [done|].
    intros k0 p' Hp' Hc'. eapply (start_sim Q U F w0 a0 a b write sector pr k0); try done.
    by rewrite (sim_bufs _ _ _ _ _ S0). }
  unfold wps in Hw. destruct (virtio_disk_rw_back b write sector _) as [|?|s|?|?]; try done.
  destruct Hw as [Q' S']. injection E as <- <-. do 2 eexists. exists Q', U, F. split_and!; [done|constructor|done].
Qed.

Lemma sim_done Q U F w a b write sector i fl pr p e o :
  sim Q U F w a -> w_flight w ≡ₚ (b, write, i) :: fl -> resumed pr p -> (pr < NPROC)%nat ->
  after pr b write sector (mk_world (w_s w) (w_dev w) (w_wait w) fl)
    (virtio_disk_rw_done b i (with_procs p (w_s w))) = (e, o) ->
  simulated a e o.
Proof.
  intros S PF Hp Hpr E. set (w0 := mk_world _ _ _ _) in E.
  pose proof S as [S1 S2 S3 S4 S5 S6 S7 S8 S9].
  assert ((b, write, i) ∈ flight <$> Q ++ U ++ F) as Hin by (rewrite <- S3, PF; by left).
  apply list_elem_of_fmap in Hin as (r & [= -> -> ->] & Hr).
  assert (wps (virtio_disk_rw_done (q_b r) (q_0 r))
            (fun _ s => exists F', F ≡ₚ r :: F' /\ exists p' d', s = st (w_s w) p' d' /\
                drv (Q ++ U ++ F') d' /\ rings (dv_seen (w_dev w)) (dv_taken (w_dev w)) Q U F' d')
            (fun s => exists p', s = st (w_s w) p' (vt_d (w_s w)) /\
                p_chan (proc_at pr p') = Some (buf_chan (q_b r))) (with_procs p (w_s w))) as Hw.
  { unfold virtio_disk_rw_done. apply wps_seq. apply (wp_sleep_back (w_s w) pr); [done|].
    intros k0 p' Hp' Hc'. eapply (wps_rw_wait (w_s w) k0 pr); try done.
    - intros p2 Hch. by exists p2.
    - intros F' p2 d2 PF' Hd2 Hr2. exists F'. split; [done|]. by exists p2, d2. }
  unfold wps in Hw. destruct (virtio_disk_rw_done _ _ _) as [[] s|?|s|?|?]; try done; injection E as <- <-.
  - destruct Hw as (F' & PF' & p' & d' & -> & Hd & Hrg).
    assert (Q ++ U ++ F ≡ₚ r :: Q ++ U ++ F') as Pall by by rewrite PF', !Permutation_middle.
    exists (mk_world (st (w_s w) p' d') (w_dev w) (w_wait w) fl).
    exists (mk_spec (sp_core a) ((waiting <$> w_wait w) ++ (spec_req false <$> Q) ++ (spec_req true <$> U ++ F'))).
    exists Q, U, F'. split_and!; [done| |].
    + apply spec_one. destruct a as [c rs]. apply spec_return. cbn in S4. rewrite S4, PF'.
      change (q_b r, q_write r, true) with (spec_req true r).
      rewrite !fmap_app, fmap_cons. by rewrite !Permutation_middle.
    + split; try done.
      * apply (Permutation_cons_inv (a := flight r)). change (flight r) with (q_b r, q_write r, q_0 r) at 1.
        cbn. rewrite <- PF, S3. by rewrite Pall.
      * eapply NoDup_cons_1_2. rewrite Permutation_middle, <- fmap_cons, <- Pall. exact S5.
  - destruct Hw as (p' & -> & Hch). do 2 eexists. exists Q, U, F. split_and!; [done|constructor|].
    unfold asleep_in. rewrite decide_False by (change (procs (st (w_s w) p' _)) with p'; by rewrite Hch).
    cbn [vt_d st set_vt_d]. destruct (find_info _ r _ S1 Hr) as [x ->].
    split; try done. cbn. by rewrite <- S3, PF.
Qed.

(** The interrupt handler finishes every request in the used ring. *)
Lemma wp_intr Q U F w a reg p :
  sim Q U F w a -> unlocked p ->
  wp (virtio_disk_intr reg) (fun _ s => exists p' d', s = st (w_s w) p' d' /\
    drv (Q ++ F ++ U) d' /\ rings (dv_seen (w_dev w)) (dv_taken (w_dev w)) Q [] (F ++ U) d')
    (with_procs p (w_s w)).
Proof.
  intros S Hu. pose proof S as [S1 S2 S3 S4 S5 S6 S7 S8 S9].
  unfold virtio_disk_intr. mstep. apply (wp_enter (w_s w)); [done|]. intros k0 p1 Hp1 _ _. mstep.
  pose proof (drv_few _ _ S1) as Hfew. rewrite !length_app in Hfew.
  eapply (wp_intr_loop (w_s w) k0); [|done..|]; [unfold NUM; lia|].
  intros p2 d2 Hp2 Hd2 Hr2. mstep. apply wp_setd. apply (wp_leave (w_s w) k0); [done|].
  intros p3 _ _. do 2 eexists. split_and!; [done| |].
  - by eapply drv_ext; [..|exact Hd2].
  - destruct Hr2. by split.
Qed.

Lemma sim_intr Q U F w a reg p :
  sim Q U F w a -> unlocked p ->
  simulated a [] (match virtio_disk_intr reg (with_procs p (w_s w)) with
                  | Ret _ s => Some (mk_world s (w_dev w) (w_wait w) (w_flight w))
                  | _ => None
                  end).
Proof.
  intros S Hu. pose proof S as [S1 S2 S3 S4 S5 S6 S7 S8 S9].
  pose proof (wp_intr Q U F w a reg p S Hu) as Hw.
  unfold wp in Hw. destruct (virtio_disk_intr reg _) as [[] s|?|s|?|?]; try done.
  destruct Hw as (p' & d' & -> & Hd & Hr).
  assert (U ++ F ≡ₚ F ++ U) as P by apply Permutation_app_comm.
  do 2 eexists. exists Q, [], (F ++ U). split_and!; [done|constructor|]. split; try done; cbn; by rewrite <- P.
Qed.

(** Serving a request is [disk_rw] on its buffer. *)
Lemma transfer_disk_rw s b write sector : sector_ok s b sector ->
  sector mod 2 = 0 /\ disk_rw b write (vt_b s) = Ret tt (transfer write sector b (vt_b s)).
Proof.
  intros [Hb ->]. change (Z.of_nat BSIZE / 512) with 2.
  assert (u32 (b_blockno (buf_at b (vt_b s)) * 2) = b_blockno (buf_at b (vt_b s)) * 2) as E
    by (unfold u32; rewrite Z.mod_small; lia).
  assert (block_of (b_blockno (buf_at b (vt_b s)) * 2) = b_blockno (buf_at b (vt_b s))) as Eb
    by (unfold block_of; divlia).
  rewrite E. split; [divlia|]. unfold transfer. rewrite Eb. by destruct write.
Qed.

(** A transfer changes no buffer but its own, and no block number. *)
Lemma transfer_sector s write sector b d b' sector' :
  sector_ok s b' sector' -> sector_ok (mk_vtst (transfer write sector b (vt_b s)) d) b' sector'.
Proof.
  unfold sector_ok. intros H.
  assert (b_blockno (buf_at b' (transfer write sector b (vt_b s))) = b_blockno (buf_at b' (vt_b s))) as E.
  { unfold transfer. destruct write; [done|]. unfold buf_at. cbn.
    destruct (decide (b' = b)) as [->|]; [|by rewrite list_lookup_alter_ne].
    rewrite list_lookup_alter_eq. by destruct (bc_buf (vt_b s) !! b). }
  cbn. by rewrite E.
Qed.

Lemma sim_device Q U F w a x s :
  sim Q U F w a -> dv_step (w_dev w) (w_s w) x s ->
  simulated a [] (Some (mk_world s x (w_wait w) (w_flight w))).
Proof.
  intros S Hstep. pose proof S as [S1 S2 S3 S4 S5 S6 S7 S8 S9].
  destruct (dv_law _ _ _ _ Hstep) as [(Hne & -> & Es & Et)|(h & Pt & Es & Hserve)].
  - exists (mk_world (w_s w) x (w_wait w) (w_flight w)), a, Q, U, F. split_and!; [done|constructor|].
    split; try done. cbn. rewrite Es. by eapply rings_taken.
  - destruct (rg_avail _ _ _ _ _ _ S2) as (ps & P1 & _).
    assert (h ∈ q_0 <$> Q) as Hin by (rewrite <- P1, Pt; by left).
    apply list_elem_of_fmap in Hin as (r & -> & HrQ).
    pose proof (proj1 (Forall_forall _ _) S8 r HrQ) as Hsec.
    destruct (transfer_disk_rw _ _ (q_write r) _ Hsec) as [Hev Hrw].
    assert (req_ok (vt_d (w_s w)) r) as Hok.
    { pose proof (dr_req _ _ S1) as Hok. rewrite Forall_forall in Hok. apply Hok. set_solver. }
    rewrite (serve_req (vt_d (w_s w)) r) in Hserve by done. subst s.
    apply elem_of_Permutation in HrQ as [Q' PQ].
    eexists. exists (mk_spec (core_of (transfer (q_write r) (q_sector r) (q_b r) (vt_b (w_s w))))
                ((q_b r, q_write r, true) :: (waiting <$> w_wait w) ++ (spec_req false <$> Q') ++ (spec_req true <$> U ++ F))).
    exists Q', (U ++ [r]), F. split_and!; [done| |].
    + apply spec_one. destruct a as [c rs]. cbn in S4, S9. subst c. eapply spec_apply; [|exact Hrw].
      rewrite S4, PQ. cbn. fold (spec_req false r). by rewrite !Permutation_middle.
    + assert (Q' ++ (U ++ [r]) ++ F ≡ₚ Q ++ U ++ F) as Pall.
      { rewrite PQ, <- (app_assoc U). cbn. by rewrite <- !Permutation_middle. }
      split; try done; cbn.
      * apply drv_push_used. by eapply drv_perm.
      * rewrite Es. by eapply rings_served.
      * by rewrite S3, Pall.
      * rewrite <- (app_assoc U), !fmap_app. cbn. by rewrite <- !Permutation_middle.
      * by rewrite Pall.
      * eapply Forall_impl; [exact S7|]. intros y. apply transfer_sector.
      * rewrite PQ in S8. apply Forall_cons in S8 as [_ S8]. eapply Forall_impl; [exact S8|].
        intros y. apply transfer_sector.
Qed.

Lemma sim_client Q U F w a s :
  sim Q U F w a -> vt_d s = vt_d (w_s w) -> d_disk (vt_b s) = d_disk (vt_b (w_s w)) ->
  d_writes (vt_b s) = d_writes (vt_b (w_s w)) ->
  (forall b, b ∈ in_request w -> bc_buf (vt_b s) !! b = bc_buf (vt_b (w_s w)) !! b) ->
  simulated a [Client (bc_buf (vt_b s))] (Some (mk_world s (w_dev w) (w_wait w) (w_flight w))).
Proof.
  intros S Ed Ek Ew Hb. pose proof S as [S1 S2 S3 S4 S5 S6 S7 S8 S9].
  pose proof (sim_spec_bufs _ _ _ _ _ S) as PB. pose proof (sim_bufs _ _ _ _ _ S) as PB'.
  destruct a as [c rs]. cbn in S9, S4, PB. subst c.
  assert (forall b sector, b ∈ in_request w -> sector_ok (w_s w) b sector -> sector_ok s b sector) as Hs.
  { intros b sector Hin. unfold sector_ok, buf_at. by rewrite Hb. }
  eexists. exists (mk_spec (core_of (vt_b s)) rs), Q, U, F. split_and!; [done| |].
  - apply spec_one. unfold core_of at 2. rewrite Ek, Ew.
    apply (spec_client (core_of (vt_b (w_s w)))). intros b Hin. apply Hb. by rewrite <- PB.
  - split; try done; cbn; rewrite ?Ed; try done; rewrite Forall_forall in *; intros y Hy.
    + apply Hs; [|by apply S7]. apply elem_of_app. left. by do 2 apply list_elem_of_fmap_2.
    + apply Hs; [|by apply S8]. rewrite PB'. apply elem_of_app. right. apply list_elem_of_fmap_2. set_solver.
Qed.

Lemma step_sim Q U F w a e o : sim Q U F w a -> step w e o -> simulated a e o.
Proof.
  intros S Hst. destruct Hst.
  - by eapply sim_call.
  - by eapply sim_descs.
  - by eapply sim_done.
  - by eapply sim_intr.
  - by eapply sim_device.
  - by eapply sim_client.
Qed.

Lemma spec_steps_trans a tr a' e a'' : spec_steps a tr a' -> spec_steps a' e a'' -> spec_steps a (tr ++ e) a''.
Proof.
  intros H1 H2. induction H2 as [|a' e a2 e' a3 H2 IH Hst]; [by rewrite app_nil_r|].
  rewrite app_assoc. econstructor; [by apply IH|done].
Qed.

Lemma steps_sim Q U F w a tr o : sim Q U F w a -> steps w tr o -> simulated a tr o.
Proof.
  intros S Hst. induction Hst as [w|w tr w' e o Hst IH Hs].
  - exists w, a, Q, U, F. split_and!; [done|constructor|done].
  - destruct (IH S) as (w1 & a1 & Q1 & U1 & F1 & [= <-] & Ha & S1).
    destruct (step_sim _ _ _ _ _ _ _ S1 Hs) as (w2 & a2 & Q2 & U2 & F2 & -> & Ha2 & S2).
    exists w2, a2, Q2, U2, F2. split_and!; [done|by eapply spec_steps_trans|done].
Qed.

(** ** From the initialisation on *)

(** struct disk before virtio_disk_init, when all of it is zero. *)
Definition bss : vdisk :=
  mk_vdisk [] 0 [] 0 [] (replicate NUM false) 0 (replicate NUM None) (replicate NUM 0) (replicate NBUF false) [].

(** [m] ends in [Q] if it returns at all. *)
Definition wlp {A} (m : M vtst A) (Q : A -> vtst -> Prop) (s : vtst) : Prop :=
  match m s with Ret a s' => Q a s' | _ => True end.

(** The driver's state is [d] but for the record of the register writes. *)
Definition but_mmio (d : vdisk) (s : vtst) : Prop := exists l, vt_d s = set_v_mmio l d.

Lemma wlp_bind {A B} (m : M vtst A) (f : A -> M vtst B) Q s :
  wlp m (fun a s' => wlp (f a) Q s') s -> wlp (m ≫= f) Q s.
Proof. unfold wlp, mbind, M_bind. by destruct (m s). Qed.

Lemma wlp_wreg d r v (Q : unit -> vtst -> Prop) s :
  but_mmio d s -> (forall s', but_mmio d s' -> Q tt s') -> wlp (wreg r v) Q s.
Proof. intros [l E] H. apply H. exists (v_mmio (vt_d s) ++ [(r, v)]). cbn. by rewrite E. Qed.

Lemma init_inv reg pages s s' :
  vt_d s = bss -> virtio_disk_init reg pages s = Ret tt s' ->
  drv [] (vt_d s') /\ rings 0 [] [] [] [] (vt_d s').
Proof.
  intros Hd E.
  assert (wlp (virtio_disk_init reg pages) (fun _ s => exists d, but_mmio d s /\ drv [] d /\
            rings 0 [] [] [] [] d) s) as Hw; cycle 1.
  { unfold wlp in Hw. rewrite E in Hw. destruct Hw as (d & (l & ->) & Hdrv & Hr). split.
    - by eapply drv_ext; [..|exact Hdrv].
    - destruct Hr. by split. }
  assert (but_mmio bss s) as Hb by (exists []; by rewrite Hd).
  assert (forall t, but_mmio bss (lset (Lens := lens_vt_lk) t s)) as Hb' by done. clear Hb Hd E.
  unfold virtio_disk_init. apply wlp_bind. unfold wlp at 1, zoom. cbn [initlock modify].
  generalize (Hb' (set_locks (delete vdisk_lock (locks (lget s))) (lget s))).
  generalize (lset (Lens := lens_vt_lk) (set_locks (delete vdisk_lock (locks (lget s))) (lget s)) s).
  clear s Hb' s'. intros s Hb. cbv zeta. destruct (_ || _); [done|].
  do 7 (apply wlp_bind, (wlp_wreg bss); [done|]; clear s Hb; intros s Hb).
  destruct (_ =? 0); [done|]. destruct (_ <? _); [done|].
  apply wlp_bind, (wlp_wreg bss); [done|]. clear s Hb; intros s [l Hb].
  apply wlp_bind. unfold wlp at 1, setd, zoom, modify. apply wlp_bind.
  set (d1 := set_v_desc (replicate NUM desc0) (set_v_avail_idx 0 (set_v_avail (replicate NUM 0%nat)
               (set_v_used_id 0 (set_v_used (replicate NUM 0%nat) bss))))).
  apply (wlp_wreg d1); [exists l; cbn; by rewrite Hb|]. clear s Hb. intros s [l' Hb].
  unfold wlp, setd, zoom, modify. exists (set_v_free (replicate NUM true) d1).
  split; [exists l'; cbn; by rewrite Hb|]. split.
  - split; try done; try constructor. intros i x Hi. cbn in Hi. by do 8 (destruct i as [|i]; [done|]).
  - split; try done. by exists [].
Qed.

(** The driver has been initialised, nothing has been requested, and the device
    has not looked at the ring yet. *)
Record booted (w : world) : Prop := {
  bo_init : exists reg pages s, vt_d s = bss /\ virtio_disk_init reg pages s = Ret tt (w_s w);
  bo_seen : dv_seen (w_dev w) = 0;
  bo_taken : dv_taken (w_dev w) = [];
  bo_wait : w_wait w = [];
  bo_flight : w_flight w = [];
}.

Lemma booted_sim w : booted w -> sim [] [] [] w (mk_spec (core_of (vt_b (w_s w))) []).
Proof.
  intros [(reg & pages & s & Hd & Hi) H1 H2 H3 H4]. destruct (init_inv _ _ _ _ Hd Hi) as [Hdrv Hr].
  split; rewrite ?H1, ?H2, ?H3, ?H4; try done; constructor.
Qed.


(** The device has served all that was available. *)
Lemma idle_empty seen taken Q U F d :
  drv (Q ++ U ++ F) d -> rings seen taken Q U F d -> taken = [] -> v_avail_idx d = seen -> Q = [].
Proof.
  intros H R -> E. apply drv_few in H. rewrite !length_app in H.
  destruct (rg_avail _ _ _ _ _ _ R) as (ps & P1 & _ & P3). pose proof (rg_seen _ _ _ _ _ _ R).
  apply Permutation_length in P1. rewrite length_fmap in P1. cbn in P1.
  destruct Q; [done|]. exfalso. cbn in *. unfold u16 in P3. rewrite E in P3. divlia.
Qed.


End driver.

Arguments world D : clear implicits.

(** ** A device that serves its requests in order *)

Definition fifo_step (x : Z * list nat) (s : vtst) : option ((Z * list nat) * vtst) :=
  if negb (v_avail_idx (vt_d s) =? x.1) then
    let h := default 0%nat (v_avail (vt_d s) !! Z.to_nat (x.1 mod Z.of_nat NUM)) in
    Some ((u16 (x.1 + 1), x.2 ++ [h]), s)
  else
    match x.2 with
    | h :: taken => match serve h s with Some s' => Some ((x.1, taken), s') | None => None end
    | [] => None
    end.

#[global, refine] Instance fifo : VirtioBlk (Z * list nat) := {
  dv_seen := fst;
  dv_taken := snd;
  dv_step := fun x s x' s' => fifo_step x s = Some (x', s');
}.
Proof.
  intros [seen taken] s [seen' taken'] s'. unfold fifo_step. cbn. destruct (Z.eqb_spec (v_avail_idx (vt_d s)) seen); cbn.
  - destruct taken as [|h taken]; [done|]. destruct (serve h s) as [s1|] eqn:E; [|done]. intros [= <- <- <-].
    right. exists h. by rewrite E.
  - intros [= <- <- <-]. left. split_and!; try done. by rewrite Permutation_app_comm.
Defined.

(** Sequences of steps that process 0 and this device make. *)
Inductive act := ACall (b : nat) (write : bool) | ADescs | ADone | AIntr | ADev.

Definition idle_lk : lks := mk_lks 0 true 0 true (Some 0%nat) ∅.
Definition demo_proc (lk : lks) : pst := mk_pst (mk_kmst lk ∅ 0) (replicate NPROC proc0) None 1 0.
Definition p_run : pst := demo_proc idle_lk.
Definition p_back : pst := demo_proc (locked_by (proc_lock 0) idle_lk).

Definition ok_after (r : list event * option (world (Z * list nat))) : option (list event * world (Z * list nat)) :=
  match r with (e, Some w) => Some (e, w) | _ => None end.

Definition exec1 (x : act) (w : world (Z * list nat)) : option (list event * world (Z * list nat)) :=
  match x with
  | ACall b write =>
      let blk := b_blockno (buf_at b (vt_b (w_s w))) in
      if decide ((b < NBUF)%nat /\ (b ∉ in_request w) /\ 0 <= blk < 2 ^ 31) then
        match ok_after (after 0 b write (u32 (blk * (Z.of_nat BSIZE / 512))) w
                          (virtio_disk_rw b write (with_procs p_run (w_s w)))) with
        | Some (e, w') => Some (Call b write :: e, w')
        | None => None
        end
      else None
  | ADescs =>
      match w_wait w with
      | (b, write, sector) :: wait =>
          ok_after (after 0 b write sector (mk_world (w_s w) (w_dev w) wait (w_flight w))
            (virtio_disk_rw_back b write sector (with_procs p_back (w_s w))))
      | [] => None
      end
  | ADone =>
      match w_flight w with
      | (b, write, i) :: fl =>
          ok_after (after 0 b write 0 (mk_world (w_s w) (w_dev w) (w_wait w) fl)
            (virtio_disk_rw_done b i (with_procs p_back (w_s w))))
      | [] => None
      end
  | AIntr =>
      match virtio_disk_intr (fun _ => 1) (with_procs p_run (w_s w)) with
      | Ret _ s => Some ([], mk_world s (w_dev w) (w_wait w) (w_flight w))
      | _ => None
      end
  | ADev =>
      match fifo_step (w_dev w) (w_s w) with
      | Some (x, s) => Some ([], mk_world s x (w_wait w) (w_flight w))
      | None => None
      end
  end.

Fixpoint exec (xs : list act) (w : world (Z * list nat)) : option (list event * world (Z * list nat)) :=
  match xs with
  | [] => Some ([], w)
  | x :: xs =>
      match exec1 x w with
      | Some (e, w1) => match exec xs w1 with Some (e', w2) => Some (e ++ e', w2) | None => None end
      | None => None
      end
  end.

Lemma ok_after_Some r e w : ok_after r = Some (e, w) -> r = (e, Some w).
Proof. destruct r as [e' [w'|]]; [|done]. by intros [= <- <-]. Qed.

Lemma p_run_unlocked : unlocked p_run.
Proof. split; try done. Qed.

Lemma p_back_resumed : resumed 0 p_back.
Proof. exists idle_lk. by split_and!. Qed.

Lemma exec1_step x w e w' : exec1 x w = Some (e, w') -> step w e (Some w').
Proof.
  destruct x as [b write| | | |]; cbn [exec1].
  - case_decide as Hd; [|done]. destruct Hd as (H1 & H2 & H3).
    destruct (ok_after _) as [[e1 w1]|] eqn:E; [|done]. intros [= <- <-].
    apply ok_after_Some in E. eapply (step_call w b write 0 p_run); try done; try apply p_run_unlocked; unfold NPROC; lia.
  - destruct (w_wait w) as [|[[b write] sector] wait] eqn:Ew; [done|]. intros E%ok_after_Some.
    eapply (step_descs w b write sector wait 0 p_back); [by rewrite Ew|apply p_back_resumed|unfold NPROC; lia|done].
  - destruct (w_flight w) as [|[[b write] i] fl] eqn:Ew; [done|]. intros E%ok_after_Some.
    eapply (step_done w b write 0 i fl 0 p_back); [by rewrite Ew|apply p_back_resumed|unfold NPROC; lia|done].
  - pose proof (step_intr w (fun _ => 1) p_run p_run_unlocked) as H.
    destruct (virtio_disk_intr _ _) as [? s|?|?|?|?]; try done. by intros [= <- <-].
  - destruct (fifo_step _ _) as [[x s]|] eqn:E; [|done]. intros [= <- <-]. by apply step_device.
Qed.

Lemma exec_steps xs : forall w0 tr w e w', steps w0 tr (Some w) -> exec xs w = Some (e, w') -> steps w0 (tr ++ e) (Some w').
Proof.
  induction xs as [|x xs IH]; intros w0 tr w e w' H; cbn [exec].
  - intros [= <- <-]. by rewrite app_nil_r.
  - destruct (exec1 x w) as [[e1 w1]|] eqn:E; [|done]. destruct (exec xs w1) as [[e2 w2]|] eqn:E2; [|done].
    intros [= <- <-]. rewrite app_assoc. eapply IH; [|done]. econstructor; [done|by eapply exec1_step].
Qed.

(** Three requests: the third one has to wait for descriptors. *)
Definition demo_reg (r : Z) : Z :=
  if r =? VIRTIO_MMIO_MAGIC_VALUE then 1953655158 else
  if r =? VIRTIO_MMIO_VERSION then 1 else
  if r =? VIRTIO_MMIO_DEVICE_ID then 2 else
  if r =? VIRTIO_MMIO_VENDOR_ID then 1431127377 else
  if r =? VIRTIO_MMIO_QUEUE_NUM_MAX then 1024 else 0.

Definition demo_buf (i : nat) : buf := mk_buf false 1 (100 + Z.of_nat i) 1 0 0 [Z.of_nat i].
Definition demo_bst : bst := mk_bst (mk_sst p_run ∅) (demo_buf <$> seq 0 30) {[ 101 := [77] ]} [].
Definition demo_init : vtst := final (virtio_disk_init demo_reg 0 (mk_vtst demo_bst bss)).
Definition demo_world : world (Z * list nat) := mk_world demo_init (0, []) [] [].
Definition demo_acts : list act :=
  [ACall 0 true; ACall 1 false; ACall 2 true; ADev; ADev; ADev; AIntr; ADone; ADescs; ADev; AIntr; ADone;
   ADescs; ADone; ADev; ADev; AIntr; ADone; ADone].

Definition demo_run : option (list event * world (Z * list nat)) := exec demo_acts demo_world.

Lemma demo_booted : booted demo_world.
Proof.
  split; try done. exists demo_reg, 0, (mk_vtst demo_bst bss). split; [done|]. vm_compute. reflexivity.
Qed.

Lemma demo_trace :
  match demo_run with
  | Some (e, w) =>
      e = [Call 0 true; Call 1 false; Call 2 true; Return 1 false; Return 2 true; Return 0 true] /\
      take 3 (b_data <$> c_buf (core_of (vt_b (w_s w)))) = [[0]; [77]; [2]] /\
      c_disk (core_of (vt_b (w_s w))) !! 102 = Some [2]
  | None => False
  end.
Proof. vm_compute. by split_and!. Qed.


(** One request that the device has served. *)
Definition served_run : option (list event * world (Z * list nat)) := exec [ACall 0 true; ADev; ADev] demo_world.

Lemma served_idle :
  match served_run with
  | Some (_, w) => dv_taken (w_dev w) = [] /\ v_avail_idx (vt_d (w_s w)) = dv_seen (w_dev w) /\
                   w_flight w = [(0%nat, true, 0%nat)]
  | None => False
  end.
Proof. vm_compute. by split_and!. Qed.


End VirtioDisk.
