(* ===== verification/Asm.v ===== *)
(** * The assembly code: trampoline.S, kernelvec.S, swtch.S, entry.S, usys.S

    The instructions that these files use, over the registers, the CSRs and the
    memory, and the code itself as lists of instructions.  Memory is accessed in
    words of 8 bytes, through the page table that satp names. *)

From Stdlib Require Import ZArith Lia.
From stdpp Require Import base list sets.
From S2P Require Import Prelude Riscv.

Inductive reg :=
| zero | ra | sp | gp | tp | t0 | t1 | t2 | s0 | s1 | a0 | a1 | a2 | a3 | a4 | a5 | a6 | a7
| s2 | s3 | s4 | s5 | s6 | s7 | s8 | s9 | s10 | s11 | t3 | t4 | t5 | t6.

Inductive csr := sscratch | satp | mscratch | sip | mhartid.

#[global] Instance reg_eq_dec : EqDecision reg.
Proof. solve_decision. Defined.
#[global] Instance csr_eq_dec : EqDecision csr.
Proof. solve_decision. Defined.

Inductive instr :=
| Sd (rs : reg) (off : Z) (base : reg)   (* sd rs, off(base) *)
| Ld (rd : reg) (off : Z) (base : reg)   (* ld rd, off(base) *)
| Csrrw (rd : reg) (c : csr) (rs : reg)
| Csrr (rd : reg) (c : csr)
| Csrw (c : csr) (rs : reg)
| Sfence_vma
| Addi (rd rs : reg) (i : Z)
| Add (rd rs1 rs2 : reg)
| Mul (rd rs1 rs2 : reg)
| Li (rd : reg) (i : Z)
| La (rd : reg) (a : Z).

Record mach := mk_mach {
  regs : reg -> Z;
  csrs : csr -> Z;
  mem : Z -> Z;   (* the word at a physical address *)
}.

Definition upd_reg (r : reg) (v : Z) (f : reg -> Z) : reg -> Z :=
  fun x => if decide (x = r) then (if decide (r = zero) then 0 else v) else f x.
Definition upd_csr (c : csr) (v : Z) (f : csr -> Z) : csr -> Z :=
  fun x => if decide (x = c) then v else f x.
Definition upd_mem (a v : Z) (f : Z -> Z) : Z -> Z :=
  fun x => if decide (x = a) then v else f x.

Section asm.
(** Address translation: [xlat satp va] is the physical address. *)
Context (xlat : Z -> Z -> Z).

Definition addr (m : mach) (base : reg) (off : Z) : Z :=
  xlat (csrs m satp) (u64 (regs m base + off)).

Definition step (i : instr) (m : mach) : mach :=
  let 'mk_mach r c mm := m in
  match i with
  | Sd rs off base => mk_mach r c (upd_mem (addr m base off) (r rs) mm)
  | Ld rd off base => mk_mach (upd_reg rd (mm (addr m base off)) r) c mm
  | Csrrw rd k rs => mk_mach (upd_reg rd (c k) r) (upd_csr k (r rs) c) mm
  | Csrr rd k => mk_mach (upd_reg rd (c k) r) c mm
  | Csrw k rs => mk_mach r (upd_csr k (r rs) c) mm
  | Sfence_vma => m
  | Addi rd rs i => mk_mach (upd_reg rd (u64 (r rs + i)) r) c mm
  | Add rd rs1 rs2 => mk_mach (upd_reg rd (u64 (r rs1 + r rs2)) r) c mm
  | Mul rd rs1 rs2 => mk_mach (upd_reg rd (u64 (r rs1 * r rs2)) r) c mm
  | Li rd i => mk_mach (upd_reg rd (u64 i) r) c mm
  | La rd a => mk_mach (upd_reg rd (u64 a) r) c mm
  end.

Definition run (l : list instr) (m : mach) : mach := foldl (fun m i => step i m) m l.
End asm.

(** ** trampoline.S *)

(** uservec, up to [jr t0]. *)
Definition uservec : list instr := [
  Csrrw a0 sscratch a0;
  Sd ra 40 a0; Sd sp 48 a0; Sd gp 56 a0; Sd tp 64 a0;
  Sd t0 72 a0; Sd t1 80 a0; Sd t2 88 a0; Sd s0 96 a0;
  Sd s1 104 a0; Sd a1 120 a0; Sd a2 128 a0; Sd a3 136 a0;
  Sd a4 144 a0; Sd a5 152 a0; Sd a6 160 a0; Sd a7 168 a0;
  Sd s2 176 a0; Sd s3 184 a0; Sd s4 192 a0; Sd s5 200 a0;
  Sd s6 208 a0; Sd s7 216 a0; Sd s8 224 a0; Sd s9 232 a0;
  Sd s10 240 a0; Sd s11 248 a0; Sd t3 256 a0; Sd t4 264 a0;
  Sd t5 272 a0; Sd t6 280 a0;
  Csrr t0 sscratch;
  Sd t0 112 a0;
  Ld sp 8 a0;
  Ld tp 32 a0;
  Ld t0 16 a0;
  Ld t1 0 a0;
  Csrw satp t1;
  Sfence_vma
].

(** userret, up to [sret]. *)
Definition userret : list instr := [
  Csrw satp a1;
  Sfence_vma;
  Ld t0 112 a0;
  Csrw sscratch t0;
  Ld ra 40 a0; Ld sp 48 a0; Ld gp 56 a0; Ld tp 64 a0;
  Ld t0 72 a0; Ld t1 80 a0; Ld t2 88 a0; Ld s0 96 a0;
  Ld s1 104 a0; Ld a1 120 a0; Ld a2 128 a0; Ld a3 136 a0;
  Ld a4 144 a0; Ld a5 152 a0; Ld a6 160 a0; Ld a7 168 a0;
  Ld s2 176 a0; Ld s3 184 a0; Ld s4 192 a0; Ld s5 200 a0;
  Ld s6 208 a0; Ld s7 216 a0; Ld s8 224 a0; Ld s9 232 a0;
  Ld s10 240 a0; Ld s11 248 a0; Ld t3 256 a0; Ld t4 264 a0;
  Ld t5 272 a0; Ld t6 280 a0;
  Csrrw a0 sscratch a0
].

(** ** kernelvec.S *)

(** kernelvec up to the call of kerneltrap, and from its return up to [sret]. *)
Definition kernelvec : list instr := [
  Addi sp sp (-256);
  Sd ra 0 sp; Sd sp 8 sp; Sd gp 16 sp; Sd tp 24 sp;
  Sd t0 32 sp; Sd t1 40 sp; Sd t2 48 sp; Sd s0 56 sp;
  Sd s1 64 sp; Sd a0 72 sp; Sd a1 80 sp; Sd a2 88 sp;
  Sd a3 96 sp; Sd a4 104 sp; Sd a5 112 sp; Sd a6 120 sp;
  Sd a7 128 sp; Sd s2 136 sp; Sd s3 144 sp; Sd s4 152 sp;
  Sd s5 160 sp; Sd s6 168 sp; Sd s7 176 sp; Sd s8 184 sp;
  Sd s9 192 sp; Sd s10 200 sp; Sd s11 208 sp; Sd t3 216 sp;
  Sd t4 224 sp; Sd t5 232 sp; Sd t6 240 sp
].
Definition kernelvec_back : list instr := [
  Ld ra 0 sp; Ld sp 8 sp; Ld gp 16 sp;
  Ld t0 32 sp; Ld t1 40 sp; Ld t2 48 sp; Ld s0 56 sp;
  Ld s1 64 sp; Ld a0 72 sp; Ld a1 80 sp; Ld a2 88 sp;
  Ld a3 96 sp; Ld a4 104 sp; Ld a5 112 sp; Ld a6 120 sp;
  Ld a7 128 sp; Ld s2 136 sp; Ld s3 144 sp; Ld s4 152 sp;
  Ld s5 160 sp; Ld s6 168 sp; Ld s7 176 sp; Ld s8 184 sp;
  Ld s9 192 sp; Ld s10 200 sp; Ld s11 208 sp; Ld t3 216 sp;
  Ld t4 224 sp; Ld t5 232 sp; Ld t6 240 sp;
  Addi sp sp 256
].

(** timervec, up to [mret]. *)
Definition timervec : list instr := [
  Csrrw a0 mscratch a0;
  Sd a1 0 a0;
  Sd a2 8 a0;
  Sd a3 16 a0;
  Ld a1 32 a0;
  Ld a2 40 a0;
  Ld a3 0 a1;
  Add a3 a3 a2;
  Sd a3 0 a1;
  Li a1 2;
  Csrw sip a1;
  Ld a3 16 a0;
  Ld a2 8 a0;
  Ld a1 0 a0;
  Csrrw a0 mscratch a0
].

(** ** swtch.S, up to [ret]. *)
Definition swtch : list instr := [
  Sd ra 0 a0; Sd sp 8 a0; Sd s0 16 a0; Sd s1 24 a0; Sd s2 32 a0; Sd s3 40 a0; Sd s4 48 a0;
  Sd s5 56 a0; Sd s6 64 a0; Sd s7 72 a0; Sd s8 80 a0; Sd s9 88 a0; Sd s10 96 a0; Sd s11 104 a0;
  Ld ra 0 a1; Ld sp 8 a1; Ld s0 16 a1; Ld s1 24 a1; Ld s2 32 a1; Ld s3 40 a1; Ld s4 48 a1;
  Ld s5 56 a1; Ld s6 64 a1; Ld s7 72 a1; Ld s8 80 a1; Ld s9 88 a1; Ld s10 96 a1; Ld s11 104 a1
].

(** ** entry.S, up to the call of start. *)
Definition _entry (stack0 : Z) : list instr := [
  La sp stack0;
  Li a0 (1024 * 4);
  Csrr a1 mhartid;
  Addi a1 a1 1;
  Mul a0 a0 a1;
  Add sp sp a0
].

(** ** usys.pl: the stub of a system call, up to [ecall]. *)
Definition usys (num : Z) : list instr := [Li a7 num].

(** ** Saving and restoring registers *)

Definition saves (b : reg) (tab : list (reg * Z)) : list instr := (fun '(r, o) => Sd r o b) <$> tab.
Definition loads (b : reg) (tab : list (reg * Z)) : list instr := (fun '(r, o) => Ld r o b) <$> tab.

(** [n] bytes at [va] are at [pa] in the address space [sat]. *)
Definition mapped (xlat : Z -> Z -> Z) (sat va pa n : Z) : Prop :=
  forall o, 0 <= o < n -> xlat sat (u64 (va + o)) = pa + o.

(** A table of offsets into an area of [n] bytes: no register and no offset twice. *)
Record table (n : Z) (tab : list (reg * Z)) : Prop := {
  tb_regs : NoDup tab.*1;
  tb_offs : NoDup tab.*2;
  tb_zero : zero ∉ tab.*1;
  tb_in : Forall (fun o => 0 <= o < n) tab.*2;
}.

#[global] Instance table_dec n tab : Decision (table n tab).
Proof.
  destruct (decide (NoDup tab.*1 /\ NoDup tab.*2 /\ (zero ∉ tab.*1) /\ Forall (fun o => 0 <= o < n) tab.*2))
    as [(?&?&?&?)|H]; [left; by split|right; intros [? ? ? ?]; tauto].
Defined.

Lemma table_cons n r o tab :
  table n ((r, o) :: tab) ->
  table n tab /\ (r ∉ tab.*1) /\ (o ∉ tab.*2) /\ r <> zero /\ 0 <= o < n.
Proof.
  intros [H1 H2 H3 H4]. cbn in *.
  apply NoDup_cons in H1 as [? ?], H2 as [? ?]. apply not_elem_of_cons in H3 as [? ?].
  apply Forall_cons in H4 as [? ?]. split_and!; [by split|done..|lia|lia].
Qed.

Lemma table_offs n tab o : table n tab -> o ∈ tab.*2 -> 0 <= o < n.
Proof. intros [_ _ _ H] Ho. rewrite Forall_forall in H. by apply H. Qed.
Lemma table_range n tab r o : table n tab -> (r, o) ∈ tab -> 0 <= o < n.
Proof. intros H Ho. apply (table_offs _ _ _ H), list_elem_of_fmap. by exists (r, o). Qed.
Lemma table_fun n tab r o o' : table n tab -> (r, o) ∈ tab -> (r, o') ∈ tab -> o = o'.
Proof.
  induction tab as [|[r1 o1] tab IH]; intros Ht H1 H2; [by inversion H1|].
  apply table_cons in Ht as (Ht & Hr & _).
  assert (Hin : forall o2, (r1, o2) ∈ tab -> False).
  { intros o2 Ho2. apply Hr, list_elem_of_fmap. by exists (r1, o2). }
  apply elem_of_cons in H1 as [E1|H1]; apply elem_of_cons in H2 as [E2|H2]; simplify_eq; eauto;
    by edestruct Hin.
Qed.

Section save_restore.
Context (xlat : Z -> Z -> Z).

Lemma run_app l1 l2 m : run xlat (l1 ++ l2) m = run xlat l2 (run xlat l1 m).
Proof. apply foldl_app. Qed.

Lemma upd_reg_eq r v f : r <> zero -> upd_reg r v f r = v.
Proof. intros. unfold upd_reg. by rewrite decide_True, decide_False. Qed.
Lemma upd_reg_ne r v f x : x <> r -> upd_reg r v f x = f x.
Proof. intros. unfold upd_reg. by rewrite decide_False. Qed.
Lemma upd_mem_eq a v f : upd_mem a v f a = v.
Proof. unfold upd_mem. by rewrite decide_True. Qed.
Lemma upd_mem_ne a v f x : x <> a -> upd_mem a v f x = f x.
Proof. intros. unfold upd_mem. by rewrite decide_False. Qed.

(** A sequence of stores to an area puts each register in its place. *)
Lemma run_saves b n pa tab m :
  table n tab -> mapped xlat (csrs m satp) (regs m b) pa n ->
  let m' := run xlat (saves b tab) m in
  regs m' = regs m /\ csrs m' = csrs m /\
  (forall r o, (r, o) ∈ tab -> mem m' (pa + o) = regs m r) /\
  (forall a, (forall o, o ∈ tab.*2 -> a <> pa + o) -> mem m' a = mem m a).
Proof.
  revert m. induction tab as [|[r o] tab IH]; intros m Ht Hm.
  { cbn. split_and!; try done. intros ? ? Hn; by inversion Hn. }
  apply table_cons in Ht as (Ht & Hr & Ho & Hz & Ho').
  assert (Hs : step xlat (Sd r o b) m = mk_mach (regs m) (csrs m) (upd_mem (pa + o) (regs m r) (mem m))).
  { destruct m as [rg cs mm]. cbn. by rewrite <- (Hm o Ho'). }
  change (run xlat (saves b ((r, o) :: tab)) m) with (run xlat (saves b tab) (step xlat (Sd r o b) m)).
  rewrite Hs. destruct (IH (mk_mach (regs m) (csrs m) (upd_mem (pa + o) (regs m r) (mem m))) Ht Hm) as (E1 & E2 & E3 & E4). cbn [regs csrs mem] in *.
  cbv zeta. split_and!; [done|done| |].
  - intros r' o' [E|Hin]%elem_of_cons; [|by apply E3]. injection E as -> ->.
    rewrite E4; [by apply upd_mem_eq|]. intros o' Hin E. apply Ho.
    by replace o with o' by lia.
  - intros a Ha. rewrite E4 by (intros; apply Ha; by right).
    apply upd_mem_ne, Ha. left.
Qed.

(** A sequence of loads from an area: the base may be loaded too if the value does
    not change. *)
Lemma run_loads b n pa tab m :
  table n tab -> mapped xlat (csrs m satp) (regs m b) pa n ->
  (forall o, (b, o) ∈ tab -> mem m (pa + o) = regs m b) ->
  let m' := run xlat (loads b tab) m in
  mem m' = mem m /\ csrs m' = csrs m /\
  (forall r o, (r, o) ∈ tab -> regs m' r = mem m (pa + o)) /\
  (forall r, r ∉ tab.*1 -> regs m' r = regs m r).
Proof.
  revert m. induction tab as [|[r o] tab IH]; intros m Ht Hm Hb.
  { cbn. split_and!; try done. intros ? ? Hn; by inversion Hn. }
  apply table_cons in Ht as (Ht & Hr & Ho & Hz & Ho').
  assert (Hs : step xlat (Ld r o b) m = mk_mach (upd_reg r (mem m (pa + o)) (regs m)) (csrs m) (mem m)).
  { destruct m as [rg cs mm]. cbn. by rewrite <- (Hm o Ho'). }
  assert (Hbase : upd_reg r (mem m (pa + o)) (regs m) b = regs m b).
  { destruct (decide (b = r)) as [->|]; [|by apply upd_reg_ne].
    rewrite upd_reg_eq by done. apply Hb. left. }
  change (run xlat (loads b ((r, o) :: tab)) m) with (run xlat (loads b tab) (step xlat (Ld r o b) m)).
  rewrite Hs. edestruct (IH (mk_mach (upd_reg r (mem m (pa + o)) (regs m)) (csrs m) (mem m)))
    as (E1 & E2 & E3 & E4); [done|by cbn; rewrite Hbase| |].
  { cbn. intros o' Hin. rewrite Hbase. apply Hb. by right. }
  cbn [regs csrs mem] in *. cbv zeta. split_and!; [done|done| |].
  - intros r' o' [E|Hin]%elem_of_cons; [|by apply E3]. injection E as -> ->.
    rewrite E4 by done. by apply upd_reg_eq.
  - intros r' [Hne Hin]%not_elem_of_cons. rewrite E4 by done. by apply upd_reg_ne.
Qed.

Lemma run_swap c m :
  let m' := run xlat [Csrrw a0 c a0] m in
  regs m' a0 = csrs m c /\ (forall r, r <> a0 -> regs m' r = regs m r) /\
  csrs m' c = regs m a0 /\ (forall c', c' <> c -> csrs m' c' = csrs m c') /\ mem m' = mem m.
Proof.
  destruct m as [rg cs mm]. split_and!; [done|intros; by apply upd_reg_ne| | |done].
  - cbn. unfold upd_csr. by rewrite decide_True.
  - intros c' Hc. cbn. unfold upd_csr. by rewrite decide_False.
Qed.
End save_restore.

(** ** User traps *)

Ltac listdec := apply (bool_decide_unpack _); vm_compute; reflexivity.

(** Offsets of the user registers in struct trapframe. *)
Definition tf_off (r : reg) : Z :=
  match r with
  | zero => 0 | ra => 40 | sp => 48 | gp => 56 | tp => 64 | t0 => 72 | t1 => 80 | t2 => 88
  | s0 => 96 | s1 => 104 | a0 => 112 | a1 => 120 | a2 => 128 | a3 => 136 | a4 => 144 | a5 => 152
  | a6 => 160 | a7 => 168 | s2 => 176 | s3 => 184 | s4 => 192 | s5 => 200 | s6 => 208 | s7 => 216
  | s8 => 224 | s9 => 232 | s10 => 240 | s11 => 248 | t3 => 256 | t4 => 264 | t5 => 272 | t6 => 280
  end.

(** All user registers but a0, in the order of the code. *)
Definition user_regs : list reg :=
  [ra; sp; gp; tp; t0; t1; t2; s0; s1; a1; a2; a3; a4; a5; a6; a7;
   s2; s3; s4; s5; s6; s7; s8; s9; s10; s11; t3; t4; t5; t6].
Definition user_tab : list (reg * Z) := (fun r => (r, tf_off r)) <$> user_regs.

Lemma user_tab_table : table 288 user_tab.
Proof. listdec. Qed.

Lemma user_regs_all r : r <> zero -> r <> a0 -> r ∈ user_regs.
Proof. intros. apply (bool_decide_unpack _). by destruct r. Qed.

Lemma tf_off_range r : r <> zero -> 40 <= tf_off r < 288.
Proof. by destruct r. Qed.

Lemma elem_user_tab r : r <> zero -> r <> a0 -> (r, tf_off r) ∈ user_tab.
Proof. intros. apply list_elem_of_fmap. exists r. split; [done|by apply user_regs_all]. Qed.

Lemma user_tab_offs o : o ∈ user_tab.*2 -> 40 <= o < 288 /\ o <> 112.
Proof.
  revert o. apply Forall_forall. listdec.
Qed.

Lemma table1 n r o : r <> zero -> 0 <= o < n -> table n [(r, o)].
Proof.
  intros Hr Ho. split; cbn; [apply NoDup_singleton..| |by constructor].
  by rewrite list_elem_of_singleton.
Qed.

Lemma base_kept (P : Z -> Prop) (b : reg) (tab : list (reg * Z)) : b ∉ tab.*1 -> forall o, (b, o) ∈ tab -> P o.
Proof. intros Hb o Ho. destruct Hb. apply list_elem_of_fmap. by exists (b, o). Qed.

Section trap.
Context (xlat : Z -> Z -> Z).

Lemma uservec_split :
  uservec = [Csrrw a0 sscratch a0] ++ saves a0 user_tab ++ [Csrr t0 sscratch] ++
    saves a0 [(t0, 112)] ++ loads a0 [(sp, 8); (tp, 32); (t0, 16); (t1, 0)] ++
    [Csrw satp t1; Sfence_vma].
Proof. reflexivity. Qed.

Lemma userret_split :
  userret = [Csrw satp a1; Sfence_vma] ++ loads a0 [(t0, 112)] ++ [Csrw sscratch t0] ++
    loads a0 user_tab ++ [Csrrw a0 sscratch a0].
Proof. reflexivity. Qed.

Lemma kernel_tab_table : table 288 [(sp, 8); (tp, 32); (t0, 16); (t1, 0)].
Proof. listdec. Qed.

(** uservec puts every user register into the trapframe and takes over the kernel's
    stack, hart id, handler and page table from it. *)
Lemma uservec_saves tf m :
  csrs m sscratch = TRAPFRAME -> mapped xlat (csrs m satp) TRAPFRAME tf 288 ->
  let m' := run xlat uservec m in
  (forall r, r <> zero -> mem m' (tf + tf_off r) = regs m r) /\
  (forall a, ~ (tf + 40 <= a < tf + 288) -> mem m' a = mem m a) /\
  regs m' sp = mem m (tf + 8) /\ regs m' tp = mem m (tf + 32) /\
  regs m' t0 = mem m (tf + 16) /\ csrs m' satp = mem m (tf + 0).
Proof.
  intros Hss Hm. rewrite uservec_split, !run_app. cbv zeta.
  destruct (run_swap xlat sscratch m) as (A1 & A2 & A4 & A3 & A5). rewrite Hss in A1.
  specialize (A3 satp ltac:(done)). set (m1 := run xlat [Csrrw a0 sscratch a0] m) in *.
  destruct (run_saves xlat a0 288 tf user_tab m1 user_tab_table) as (E1 & E2 & E3 & E4);
    [by rewrite A1, A3|]. set (m2 := run xlat (saves a0 user_tab) m1) in *. clearbody m1 m2.
  assert (H3 : let m3 := run xlat [Csrr t0 sscratch] m2 in
    regs m3 t0 = regs m a0 /\ regs m3 a0 = TRAPFRAME /\ csrs m3 = csrs m1 /\ mem m3 = mem m2).
  { rewrite <- A4, <- E2, <- A1, <- E1. by destruct m2. }
  destruct H3 as (R1 & R2 & R3 & R4). set (m3 := run xlat [Csrr t0 sscratch] m2) in *.
  destruct (run_saves xlat a0 288 tf [(t0, 112)] m3) as (F1 & F2 & F3 & F4);
    [by apply table1|by rewrite R2, R3, A3|].
  set (m4 := run xlat (saves a0 [(t0, 112)]) m3) in *. clearbody m3 m4.
  destruct (run_loads xlat a0 288 tf _ m4 kernel_tab_table) as (G1 & G2 & G3 & G4);
    [by rewrite F1, F2, R2, R3, A3|apply base_kept; listdec|].
  set (m5 := run xlat (loads a0 _) m4) in *. clearbody m5.
  assert (Hmem : forall a, ~ (tf + 40 <= a < tf + 288) -> mem m4 a = mem m a).
  { intros a Ha. rewrite F4, R4, E4, A5; [done| |].
    - intros o Ho%user_tab_offs E. apply Ha. lia.
    - intros o ->%list_elem_of_singleton E. cbn in E. apply Ha. lia. }
  assert (Hend : let m' := run xlat [Csrw satp t1; Sfence_vma] m5 in
    mem m' = mem m5 /\ regs m' = regs m5 /\ csrs m' satp = regs m5 t1) by by destruct m5.
  destruct Hend as (-> & -> & ->). rewrite G1. split_and!; [|done|..].
  - intros r Hr. destruct (decide (r = a0)) as [->|Hne].
    + change (tf_off a0) with 112. rewrite (F3 t0 112), R1; [done|by left].
    + rewrite F4, R4, (E3 r), A2; [done|done|by apply elem_user_tab|].
      intros o ->%list_elem_of_singleton E. destruct r; cbn in E; lia || done.
  - rewrite (G3 sp 8), Hmem; [done|lia|listdec].
  - rewrite (G3 tp 32), Hmem; [done|lia|listdec].
  - rewrite (G3 t0 16), Hmem; [done|lia|listdec].
  - rewrite (G3 t1 0), Hmem; [done|lia|listdec].
Qed.

(** userret loads every user register from the trapframe, in the page table it is
    given. *)
Lemma userret_restores tf m :
  regs m a0 = TRAPFRAME -> mapped xlat (regs m a1) TRAPFRAME tf 288 ->
  let m' := run xlat userret m in
  (forall r, r <> zero -> regs m' r = mem m (tf + tf_off r)) /\
  regs m' zero = regs m zero /\
  csrs m' satp = regs m a1 /\ csrs m' sscratch = TRAPFRAME /\ mem m' = mem m.
Proof.
  intros Ha0 Hm. rewrite userret_split, !run_app. cbv zeta.
  assert (H1 : let m1 := run xlat [Csrw satp a1; Sfence_vma] m in
    regs m1 = regs m /\ csrs m1 satp = regs m a1 /\ mem m1 = mem m) by by destruct m.
  destruct H1 as (A1 & A2 & A3). set (m1 := run xlat [Csrw satp a1; Sfence_vma] m) in *.
  clearbody m1.
  destruct (run_loads xlat a0 288 tf [(t0, 112)] m1) as (E1 & E2 & E3 & E4);
    [by apply table1|by rewrite A1, A2, Ha0|apply base_kept; listdec|].
  set (m2 := run xlat (loads a0 [(t0, 112)]) m1) in *. clearbody m2.
  assert (H3 : let m3 := run xlat [Csrw sscratch t0] m2 in
    regs m3 = regs m2 /\ csrs m3 satp = csrs m2 satp /\ csrs m3 sscratch = regs m2 t0 /\ mem m3 = mem m2)
    by by destruct m2.
  destruct H3 as (R1 & R2 & R3 & R4). set (m3 := run xlat [Csrw sscratch t0] m2) in *. clearbody m3.
  assert (Hb : regs m3 a0 = TRAPFRAME) by (rewrite R1, E4, A1; [done|listdec]).
  destruct (run_loads xlat a0 288 tf user_tab m3 user_tab_table) as (G1 & G2 & G3 & G4);
    [by rewrite Hb, R2, E2, A2|apply base_kept; listdec|].
  set (m4 := run xlat (loads a0 user_tab) m3) in *. clearbody m4.
  destruct (run_swap xlat sscratch m4) as (F2 & F1 & F4 & F3 & F5).
  specialize (F3 satp ltac:(done)).
  split_and!.
  - intros r Hr. destruct (decide (r = a0)) as [->|Hne].
    + change (tf_off a0) with 112. rewrite F2, G2, R3, (E3 t0 112), A3; [done|by left].
    + rewrite F1, (G3 r (tf_off r)), R4, E1, A3; [done|by apply elem_user_tab|done].
  - rewrite F1, G4, R1, E4, A1; [done|listdec|listdec|done].
  - by rewrite F3, G2, R2, E2, A2.
  - rewrite F4, G4, Hb; [done|]. listdec.
  - by rewrite F5, G1, R4, E1, A3.
Qed.

(** C14: A trap from user space is transparent.  uservec saves the user registers in
    the trapframe and enters the kernel with the stack, hart, handler and page table
    that usertrapret left there; whatever the kernel does, when it calls
    userret(TRAPFRAME, satp) every register whose word in the trapframe it left
    alone has its old value again, in the user's page table, and sscratch is ready
    for the next trap. *)
Theorem trap_roundtrip tf m m2 :
  csrs m sscratch = TRAPFRAME -> mapped xlat (csrs m satp) TRAPFRAME tf 288 ->
  let m1 := run xlat uservec m in
  regs m2 a0 = TRAPFRAME -> regs m2 a1 = csrs m satp ->
  let m3 := run xlat userret m2 in
  (regs m1 sp = mem m (tf + 8) /\ regs m1 tp = mem m (tf + 32) /\
   regs m1 t0 = mem m (tf + 16) /\ csrs m1 satp = mem m (tf + 0)) /\
  (forall r, r <> zero -> mem m2 (tf + tf_off r) = mem m1 (tf + tf_off r) -> regs m3 r = regs m r) /\
  (forall r, r <> zero -> regs m3 r = mem m2 (tf + tf_off r)) /\
  csrs m3 satp = csrs m satp /\ csrs m3 sscratch = csrs m sscratch /\ mem m3 = mem m2.
Proof.
  intros Hss Hm m1 Ha0 Ha1 m3.
  destruct (uservec_saves tf m Hss Hm) as (S1 & _ & S2).
  destruct (userret_restores tf m2 Ha0) as (R1 & _ & R2 & R3 & R4); [by rewrite Ha1|].
  fold m1 in S1, S2. fold m3 in R1, R2, R3, R4. clearbody m1 m3.
  split_and!; [tauto..| | |by rewrite R2|by rewrite R3, Hss|done].
  - intros r Hr E. by rewrite R1, E, S1.
  - by apply R1.
Qed.

(** ** Traps in the kernel *)

Definition kernel_regs : list (reg * Z) :=
  [(ra, 0); (sp, 8); (gp, 16); (tp, 24); (t0, 32); (t1, 40); (t2, 48); (s0, 56);
   (s1, 64); (a0, 72); (a1, 80); (a2, 88); (a3, 96); (a4, 104); (a5, 112); (a6, 120);
   (a7, 128); (s2, 136); (s3, 144); (s4, 152); (s5, 160); (s6, 168); (s7, 176); (s8, 184);
   (s9, 192); (s10, 200); (s11, 208); (t3, 216); (t4, 224); (t5, 232); (t6, 240)].
Definition kernel_restored : list (reg * Z) := filter (fun p => p.1 <> tp) kernel_regs.

Lemma kernel_regs_table : table 256 kernel_regs.
Proof. listdec. Qed.
Lemma kernel_restored_table : table 256 kernel_restored.
Proof. listdec. Qed.

Lemma kernel_restored_all r : r <> zero -> r <> tp -> exists o, (r, o) ∈ kernel_restored /\ (r, o) ∈ kernel_regs.
Proof.
  intros Hz Ht. assert (Hr : r ∈ kernel_restored.*1).
  { apply (bool_decide_unpack _). by destruct r. }
  apply list_elem_of_fmap in Hr as ([r' o] & -> & Hr). exists o. split; [done|].
  by apply list_elem_of_filter in Hr as [_ ?].
Qed.

Lemma kernelvec_split : kernelvec = [Addi sp sp (-256)] ++ saves sp kernel_regs.
Proof. reflexivity. Qed.
Lemma kernelvec_back_split : kernelvec_back = loads sp kernel_restored ++ [Addi sp sp 256].
Proof. reflexivity. Qed.

Definition in_frame (a pa : Z) : Prop := pa <= a < pa + 256.

Lemma kernelvec_saves pa m :
  256 <= regs m sp < 2 ^ 64 ->
  mapped xlat (csrs m satp) (regs m sp - 256) pa 256 ->
  let m1 := run xlat kernelvec m in
  regs m1 sp = regs m sp - 256 /\
  (forall a, ~ in_frame a pa -> mem m1 a = mem m a) /\
  mem m1 (pa + 8) = regs m sp - 256 /\
  (forall r o, (r, o) ∈ kernel_regs -> r <> sp -> mem m1 (pa + o) = regs m r).
Proof.
  intros Hsp Hm. rewrite kernelvec_split, run_app. cbv zeta.
  assert (H1 : let m1 := run xlat [Addi sp sp (-256)] m in
    regs m1 sp = regs m sp - 256 /\ (forall r, r <> sp -> regs m1 r = regs m r) /\
    csrs m1 = csrs m /\ mem m1 = mem m).
  { destruct m as [rg cs mm]. cbn in Hsp. split_and!; [|intros; by apply upd_reg_ne|done..].
    change (u64 (rg sp + -256) = rg sp - 256). apply Z.mod_small. lia. }
  destruct H1 as (A1 & A2 & A3 & A4). set (ma := run xlat [Addi sp sp (-256)] m) in *. clearbody ma.
  destruct (run_saves xlat sp 256 pa kernel_regs ma kernel_regs_table) as (E1 & E2 & E3 & E4);
    [by rewrite A1, A3|]. split_and!.
  - by rewrite E1, A1.
  - intros a Ha. rewrite E4, A4; [done|]. intros o Ho ->. apply Ha.
    pose proof (table_offs _ _ o kernel_regs_table Ho). unfold in_frame. lia.
  - rewrite (E3 sp 8), A1; [done|listdec].
  - intros r o Hr Hne. by rewrite (E3 r o), A2.
Qed.

(** An interrupt in the kernel is transparent.  If kerneltrap() returns with the
    stack pointer it was called with and has not written to the 256 bytes above it,
    then kernelvec returns to the interrupted code with every register as it was;
    only tp is the one that kerneltrap() left, since the thread may have moved to
    another hart.  kernelvec itself writes only to those 256 bytes. *)
Theorem kernelvec_roundtrip pa m m2 :
  256 <= regs m sp < 2 ^ 64 ->
  mapped xlat (csrs m satp) (regs m sp - 256) pa 256 ->
  let m1 := run xlat kernelvec m in
  regs m2 sp = regs m1 sp -> csrs m2 satp = csrs m satp ->
  (forall a, in_frame a pa -> mem m2 a = mem m1 a) ->
  let m3 := run xlat kernelvec_back m2 in
  regs m1 sp = regs m sp - 256 /\
  (forall a, ~ in_frame a pa -> mem m1 a = mem m a) /\
  (forall r, r <> zero -> r <> tp -> regs m3 r = regs m r) /\
  regs m3 tp = regs m2 tp /\ mem m3 = mem m2.
Proof.
  intros Hsp Hm m1. destruct (kernelvec_saves pa m Hsp Hm) as (S1 & S2 & S3 & S4).
  fold m1 in S1, S2, S3, S4. clearbody m1.
  intros Hsp2 Hsat Hkeep. rewrite kernelvec_back_split, run_app. cbv zeta.
  assert (Hin : forall r o, (r, o) ∈ kernel_regs -> mem m2 (pa + o) = mem m1 (pa + o)).
  { intros r o Hr. apply Hkeep. unfold in_frame.
    pose proof (table_range _ _ r o kernel_regs_table Hr). lia. }
  destruct (run_loads xlat sp 256 pa kernel_restored m2 kernel_restored_table) as (G1 & G2 & G3 & G4);
    [by rewrite Hsp2, S1, Hsat| |].
  { intros o Ho. replace o with 8; [rewrite (Hin sp 8), S3, Hsp2, S1; [done|listdec]|].
    apply (table_fun 256 kernel_restored sp); [apply kernel_restored_table|listdec|done]. }
  set (m3 := run xlat (loads sp kernel_restored) m2) in *. clearbody m3.
  assert (Hsp3 : regs m3 sp = regs m sp - 256).
  { rewrite (G3 sp 8), (Hin sp 8), S3; [done|listdec|listdec]. }
  assert (Hend : let m' := run xlat [Addi sp sp 256] m3 in
    (forall r, r <> sp -> regs m' r = regs m3 r) /\ regs m' sp = regs m sp /\ mem m' = mem m3).
  { destruct m3 as [rg cs mm]. cbn in Hsp3. split_and!; [intros; by apply upd_reg_ne| |done].
    change (u64 (rg sp + 256) = regs m sp). rewrite Hsp3, Z.sub_add. apply Z.mod_small. lia. }
  destruct Hend as (F1 & F2 & ->). split_and!; [done|done| | |done].
  - intros r Hz Ht. destruct (decide (r = sp)) as [->|Hne]; [done|].
    destruct (kernel_restored_all r Hz Ht) as (o & Ho & Ho').
    by rewrite F1, (G3 r o), (Hin r o), (S4 r o) by done.
  - rewrite F1, G4; [done|listdec|done].
Qed.

End trap.

(** ** Context switches *)

(** struct context *)
Definition ctx_tab : list (reg * Z) :=
  [(ra, 0); (sp, 8); (s0, 16); (s1, 24); (s2, 32); (s3, 40); (s4, 48);
   (s5, 56); (s6, 64); (s7, 72); (s8, 80); (s9, 88); (s10, 96); (s11, 104)].

Lemma ctx_tab_table : table 112 ctx_tab.
Proof. listdec. Qed.
Lemma swtch_split : swtch = saves a0 ctx_tab ++ loads a1 ctx_tab.
Proof. reflexivity. Qed.

Section swtch.
Context (xlat : Z -> Z -> Z).

(** swtch(old, new) for contexts at [old] and [new] that do not overlap. *)
Lemma swtch_switches old new m :
  mapped xlat (csrs m satp) (regs m a0) old 112 ->
  mapped xlat (csrs m satp) (regs m a1) new 112 ->
  old + 112 <= new \/ new + 112 <= old ->
  let m' := run xlat swtch m in
  (forall r o, (r, o) ∈ ctx_tab -> mem m' (old + o) = regs m r) /\
  (forall r o, (r, o) ∈ ctx_tab -> regs m' r = mem m (new + o)) /\
  (forall r, r ∉ ctx_tab.*1 -> regs m' r = regs m r) /\
  (forall a, ~ (old <= a < old + 112) -> mem m' a = mem m a) /\ csrs m' = csrs m.
Proof.
  intros Hold Hnew Hdis. rewrite swtch_split, run_app. cbv zeta.
  destruct (run_saves xlat a0 112 old ctx_tab m ctx_tab_table Hold) as (E1 & E2 & E3 & E4).
  set (m1 := run xlat (saves a0 ctx_tab) m) in *. clearbody m1.
  destruct (run_loads xlat a1 112 new ctx_tab m1 ctx_tab_table) as (G1 & G2 & G3 & G4);
    [by rewrite E1, E2|apply base_kept; listdec|].
  assert (Hout : forall a, ~ (old <= a < old + 112) -> mem m1 a = mem m a).
  { intros a Ha. apply E4. intros o Ho ->. apply Ha.
    pose proof (table_offs _ _ o ctx_tab_table Ho). lia. }
  split_and!.
  - intros r o Hr. rewrite G1. by apply E3.
  - intros r o Hr. rewrite (G3 r o) by done. apply Hout.
    pose proof (table_range _ _ r o ctx_tab_table Hr). lia.
  - intros r Hr. by rewrite G4, E1.
  - intros a Ha. rewrite G1. by apply Hout.
  - by rewrite G2, E2.
Qed.

(** A thread that swtch() puts aside comes back unchanged.  When a thread at [m]
    calls swtch(old, new) and later some thread at [m2] calls swtch(cur, old) while
    the words of [old] are as they were left, then the first thread continues: ra,
    sp and all callee-saved registers are those of [m], in particular swtch()
    returns to the caller of the first call, and the caller-saved ones are those of
    the second thread. *)
Theorem swtch_roundtrip old new cur m m2 :
  mapped xlat (csrs m satp) (regs m a0) old 112 ->
  mapped xlat (csrs m satp) (regs m a1) new 112 ->
  old + 112 <= new \/ new + 112 <= old ->
  let m1 := run xlat swtch m in
  mapped xlat (csrs m2 satp) (regs m2 a0) cur 112 ->
  mapped xlat (csrs m2 satp) (regs m2 a1) old 112 ->
  cur + 112 <= old \/ old + 112 <= cur ->
  (forall a, old <= a < old + 112 -> mem m2 a = mem m1 a) ->
  let m3 := run xlat swtch m2 in
  (forall r, r ∈ ctx_tab.*1 -> regs m3 r = regs m r) /\
  (forall r, r ∉ ctx_tab.*1 -> regs m3 r = regs m2 r) /\
  (forall a, ~ (cur <= a < cur + 112) -> mem m3 a = mem m2 a).
Proof.
  intros H1 H2 H3 m1 H4 H5 H6 Hkeep m3.
  destruct (swtch_switches old new m H1 H2 H3) as (A1 & _).
  destruct (swtch_switches cur old m2 H4 H5 H6) as (_ & B1 & B2 & B3 & _).
  fold m3 in B1, B2, B3. fold m1 in A1. clearbody m1 m3. split_and!; [|done|done].
  intros r ([r' o] & -> & Hr)%list_elem_of_fmap. cbn. rewrite (B1 r' o), Hkeep, (A1 r' o); [done|done| |done].
  pose proof (table_range _ _ r' o ctx_tab_table Hr). lia.
Qed.
End swtch.

(** ** Machine mode: no address translation *)
Definition phys (sat va : Z) : Z := va.

Lemma phys_mapped sat va n : 0 <= va -> va + n <= 2 ^ 64 -> mapped phys sat va va n.
Proof. intros ? ? o Ho. unfold phys. apply Z.mod_small. lia. Qed.

(** timervec between saving and restoring its registers: the CLINT is asked for the
    next interrupt, and a software interrupt is raised. *)
Definition timer_ask : list instr :=
  loads a1 [(a3, 0)] ++ [Add a3 a3 a2] ++ saves a1 [(a3, 0)] ++ [Li a1 2; Csrw sip a1].

Lemma timervec_split :
  timervec = [Csrrw a0 mscratch a0] ++ saves a0 [(a1, 0); (a2, 8); (a3, 16)] ++
    loads a0 [(a1, 32); (a2, 40)] ++
    timer_ask ++
    loads a0 [(a3, 16); (a2, 8); (a1, 0)] ++ [Csrrw a0 mscratch a0].
Proof. reflexivity. Qed.

Lemma timer_ticks m :
  0 <= regs m a1 < 2 ^ 64 ->
  let m' := run phys timer_ask m in
  mem m' = upd_mem (regs m a1) (u64 (mem m (regs m a1) + regs m a2)) (mem m) /\
  (forall r, r <> a1 -> r <> a3 -> regs m' r = regs m r) /\
  csrs m' = upd_csr sip 2 (csrs m).
Proof.
  intros Ha. destruct m as [rg cs mm]. cbn in Ha.
  assert (E : u64 (rg a1 + 0) = rg a1) by (rewrite Z.add_0_r; apply Z.mod_small; lia).
  split_and!.
  - cbn -[upd_mem u64]. unfold phys. change (upd_mem (u64 (rg a1 + 0)) (u64 (mm (u64 (rg a1 + 0)) + rg a2)) mm =
      upd_mem (rg a1) (u64 (mm (rg a1) + rg a2)) mm). by rewrite E.
  - intros r H1 H2. cbn -[upd_reg]. by rewrite !upd_reg_ne.
  - reflexivity.
Qed.

(** The machine-mode timer interrupt is transparent.  timervec keeps every
    register and its scratch pointer, moves this hart's CLINT comparator on by the
    interval that timerinit() stored, and raises a supervisor software interrupt; it
    writes to nothing else but the first three words of its scratch area. *)
Theorem timervec_roundtrip m :
  let scratch := csrs m mscratch in
  let cmp := mem m (scratch + 32) in
  0 <= scratch -> scratch + 48 <= 2 ^ 64 -> 0 <= cmp < 2 ^ 64 ->
  cmp < scratch \/ scratch + 48 <= cmp ->
  let m' := run phys timervec m in
  (forall r, r <> zero -> regs m' r = regs m r) /\
  csrs m' mscratch = scratch /\ csrs m' sip = 2 /\
  mem m' cmp = u64 (mem m cmp + mem m (scratch + 40)) /\
  (forall a, a <> cmp -> ~ (scratch <= a < scratch + 24) -> mem m' a = mem m a).
Proof.
  intros scr cmp H0 H1 H2 Hdis. rewrite timervec_split, !run_app. cbv zeta.
  destruct (run_swap phys mscratch m) as (A1 & A2 & A3 & _ & A4). fold scr in A1. set (m1 := run phys [Csrrw a0 mscratch a0] m) in *. clearbody m1.
  destruct (run_saves phys a0 48 scr [(a1, 0); (a2, 8); (a3, 16)] m1) as (B1 & B2 & B3 & B4);
    [listdec|by rewrite A1; apply phys_mapped|].
  set (m2 := run phys (saves a0 _) m1) in *. clearbody m2.
  assert (Hout : forall a, ~ (scr <= a < scr + 24) -> mem m2 a = mem m a).
  { intros a Ha. rewrite B4, A4; [done|]. intros o Ho ->. apply Ha. cbn in Ho. rewrite !elem_of_cons in Ho.
    destruct Ho as [->|[->|[->|Ho%elem_of_nil]]]; lia || done. }
  destruct (run_loads phys a0 48 scr [(a1, 32); (a2, 40)] m2) as (C1 & C2 & C3 & C4);
    [listdec|by rewrite B1, A1; apply phys_mapped|apply base_kept; listdec|].
  set (m3 := run phys (loads a0 _) m2) in *. clearbody m3.
  assert (Hcmp : regs m3 a1 = cmp).
  { rewrite (C3 a1 32), Hout; [done|lia|listdec]. }
  assert (Hiv : regs m3 a2 = mem m (scr + 40)).
  { rewrite (C3 a2 40), Hout; [done|lia|listdec]. }
  assert (Ha0 : regs m3 a0 = scr) by (rewrite C4, B1; [done|listdec]).
  destruct (timer_ticks m3) as (D1 & D2 & D3); [by rewrite Hcmp|].
  set (m4 := run phys timer_ask m3) in *. clearbody m4.
  rewrite Hcmp, Hiv, C1, (Hout cmp) in D1 by lia.
  destruct (run_loads phys a0 48 scr [(a3, 16); (a2, 8); (a1, 0)] m4) as (E1 & E2 & E3 & E4);
    [listdec|by rewrite D2, Ha0 by done; apply phys_mapped|apply base_kept; listdec|].
  set (m5 := run phys (loads a0 _) m4) in *. clearbody m5.
  destruct (run_swap phys mscratch m5) as (F1 & F2 & F3 & F4 & F5).
  set (m6 := run phys [Csrrw a0 mscratch a0] m5) in *. clearbody m6.
  assert (Hback : forall r o, (r, o) ∈ [(a1, 0); (a2, 8); (a3, 16)] ->
    (r, o) ∈ [(a3, 16); (a2, 8); (a1, 0)] -> 0 <= o < 24 -> r <> a0 -> regs m6 r = regs m r).
  { intros r o Hr Hr' Ho Hne. rewrite F2, (E3 r o), D1, upd_mem_ne, (B3 r o), A2 by (done || lia). done. }
  split_and!.
  - intros r Hr. destruct (decide (r = a0)) as [->|N0].
    { rewrite F1, E2, D3. cbn. by rewrite C2, B2. }
    destruct (decide (r = a1)) as [->|N1]; [apply (Hback a1 0); [listdec|listdec|lia|done]|].
    destruct (decide (r = a2)) as [->|N2]; [apply (Hback a2 8); [listdec|listdec|lia|done]|].
    destruct (decide (r = a3)) as [->|N3]; [apply (Hback a3 16); [listdec|listdec|lia|done]|].
    rewrite F2, E4, D2, C4, B1, A2; [done|done| |done|done| |done]; cbn; set_unfold; tauto.
  - rewrite F3, E4, D2; [done|done|done|listdec].
  - rewrite F4, E2, D3; done.
  - rewrite F5, E1, D1. apply upd_mem_eq.
  - intros a Ha Hs. rewrite F5, E1, D1, upd_mem_ne by done. by apply Hout.
Qed.

(** ** entry.S *)

(** Each hart starts on a stack of its own: when _entry calls start(), sp is the
    top of a 4096-byte slice of stack0[4096 * NCPU], and the slices of different
    harts are disjoint. *)
Theorem entry_stacks stack0 m h m' h' :
  0 <= stack0 -> stack0 + 4096 * 8 < 2 ^ 64 ->
  csrs m mhartid = h -> csrs m' mhartid = h' -> 0 <= h < 8 -> 0 <= h' < 8 ->
  let top := regs (run phys (_entry stack0) m) sp in
  let top' := regs (run phys (_entry stack0) m') sp in
  stack0 <= top - 4096 /\ top <= stack0 + 4096 * 8 /\
  (h <> h' -> top <= top' - 4096 \/ top' <= top - 4096).
Proof.
  intros H0 H1 E E' Hh Hh'.
  assert (Htop : forall n k, csrs n mhartid = k -> 0 <= k < 8 ->
    regs (run phys (_entry stack0) n) sp = stack0 + 4096 * (k + 1)).
  { intros [rg cs mm] k <- Hk. cbn in Hk.
    change (u64 (u64 stack0 + u64 (u64 4096 * u64 (cs mhartid + 1))) = stack0 + 4096 * (cs mhartid + 1)).
    unfold u64. rewrite (Z.mod_small stack0), (Z.mod_small 4096), (Z.mod_small (cs mhartid + 1)) by lia.
    rewrite (Z.mod_small (4096 * _)) by lia. apply Z.mod_small. lia. }
  rewrite (Htop m h), (Htop m' h') by done. cbv zeta. lia.
Qed.

(** ** Instances *)

(** A machine whose registers hold 100 and up, with the CSRs and the memory given. *)
Definition machine (r0 : reg -> Z) (c : csr -> Z) (f : Z -> Z) : mach := mk_mach r0 c f.
Definition some_regs (sp_ a0_ a1_ : Z) (r : reg) : Z :=
  match r with zero => 0 | sp => sp_ | a0 => a0_ | a1 => a1_ | r => 100 + tf_off r end.

Lemma trap_roundtrip_witness :
  let xlat := fun _ va => va - TRAPFRAME + 4096 in
  let m := machine (some_regs 1 2 3) (fun c => match c with sscratch => TRAPFRAME | _ => 7 end) (fun a => a) in
  let m1 := run xlat uservec m in
  let m2 := mk_mach (some_regs 0 TRAPFRAME 7) (csrs m1) (upd_mem (4096 + 112) 42 (mem m1)) in
  regs (run xlat userret m2) s7 = 316 /\ regs (run xlat userret m2) a0 = 42.
Proof.
  intros xlat m m1 m2.
  destruct (trap_roundtrip xlat 4096 m m2) as (_ & H1 & H2 & _); [done| |done|done|].
  { intros o Ho. unfold xlat, u64. change TRAPFRAME with 274877898752. rewrite Z.mod_small; lia. }
  split; [by rewrite (H1 s7)|by rewrite (H2 a0)].
Defined.

Lemma mem_mk r c f a : mem (mk_mach r c f) a = f a.
Proof. done. Qed.

Lemma kernelvec_roundtrip_witness :
  let m := machine (some_regs 8192 2 3) (fun _ => 0) (fun a => a) in
  let m1 := run phys kernelvec m in
  let m2 := mk_mach (upd_reg t0 0 (upd_reg tp 1 (regs m1))) (csrs m1) (mem m1) in
  regs (run phys kernelvec_back m2) t0 = 172 /\ regs (run phys kernelvec_back m2) tp = 1.
Proof.
  intros m m1 m2.
  assert (H : regs (run phys kernelvec_back m2) t0 = regs m t0 /\ regs (run phys kernelvec_back m2) tp = regs m2 tp).
  { edestruct (kernelvec_roundtrip phys 7936 m m2) as (_ & _ & H1 & H2 & _).
    - change (256 <= 8192 < 2 ^ 64). lia.
    - apply (phys_mapped 0 7936 256); lia.
    - vm_compute. reflexivity.
    - vm_compute. reflexivity.
    - intros a _. exact (mem_mk _ _ _ a).
    - split; [by apply H1|exact H2]. }
  destruct H as [-> ->]. split; vm_compute; reflexivity.
Defined.

Lemma swtch_roundtrip_witness :
  let m := machine (some_regs 8192 1000 2000) (fun _ => 0) (fun a => a) in
  let m1 := run phys swtch m in
  let m2 := mk_mach (some_regs 9000 2000 1000) (fun _ => 0) (mem m1) in
  regs (run phys swtch m2) sp = 8192 /\ regs (run phys swtch m2) a0 = 2000.
Proof.
  intros m m1 m2.
  destruct (swtch_roundtrip phys 1000 2000 2000 m m2) as (H1 & H2 & _);
    [apply (phys_mapped 0 1000 112); lia|apply (phys_mapped 0 2000 112); lia|lia
    |apply (phys_mapped 0 2000 112); lia|apply (phys_mapped 0 1000 112); lia|lia|intros a _; exact (mem_mk _ _ _ a)|].
  rewrite (H1 sp), (H2 a0); [split; reflexivity|listdec|listdec].
Defined.

Lemma timervec_roundtrip_witness :
  let m := machine (some_regs 1 2 3) (fun c => match c with mscratch => 1000 | _ => 0 end)
             (fun a => if a =? 1032 then 33570816 else if a =? 1040 then 1000000 else 5) in
  mem (run phys timervec m) 33570816 = 1000005 /\ regs (run phys timervec m) a3 = 236.
Proof.
  intros m. destruct (timervec_roundtrip m) as (H1 & _ & _ & H2 & _);
    [by vm_compute|by vm_compute|by vm_compute|right; by vm_compute|].
  split; [exact H2|by apply (H1 a3)].
Defined.

Lemma entry_stacks_witness :
  let top h := regs (run phys (_entry 2147528704) (machine (fun _ => 0) (fun _ => h) (fun _ => 0))) sp in
  top 3 <= 2147528704 + 4096 * 8 /\ (top 3 <= top 2 - 4096 \/ top 2 <= top 3 - 4096).
Proof.
  intros top.
  destruct (entry_stacks 2147528704 (machine (fun _ => 0) (fun _ => 3) (fun _ => 0)) 3
              (machine (fun _ => 0) (fun _ => 2) (fun _ => 0)) 2) as (_ & H1 & H2); [by vm_compute..|].
  split; [exact H1|by apply H2].
Defined.
