(* ===== verification/Trap.v ===== *)
(** * kernel/trap.c and kernel/plic.c; start.c and main.c

    Traps from user space and from the kernel, device interrupts, the clock, the
    interrupt controller, and the way from reset to the scheduler.  The state adds
    to the kernel's the supervisor CSRs of this hart, the disk driver and the PLIC. *)

From Stdlib Require Import ZArith Lia.
From stdpp Require Import base list gmap strings.
From S2P Require Import Prelude KString Spinlock Riscv Kalloc Vm Proc Sleeplock Bio Log Fs Pipe Uart Console File ProcLife Exec Syscall Sysfile Sysproc Virtio.

Record scsrs := mk_scsrs {
  c_sstatus : Z;  (* without SIE *)
  c_sepc : Z;
  c_scause : Z;
  c_stval : Z;
  c_stvec : Z;
  c_satp : Z;
  c_sip : Z;
}.

Definition set_c_sstatus (x : Z) (c : scsrs) : scsrs :=
  mk_scsrs x (c_sepc c) (c_scause c) (c_stval c) (c_stvec c) (c_satp c) (c_sip c).
Definition set_c_sepc (x : Z) (c : scsrs) : scsrs :=
  mk_scsrs (c_sstatus c) x (c_scause c) (c_stval c) (c_stvec c) (c_satp c) (c_sip c).
Definition set_c_scause (x : Z) (c : scsrs) : scsrs :=
  mk_scsrs (c_sstatus c) (c_sepc c) x (c_stval c) (c_stvec c) (c_satp c) (c_sip c).
Definition set_c_stval (x : Z) (c : scsrs) : scsrs :=
  mk_scsrs (c_sstatus c) (c_sepc c) (c_scause c) x (c_stvec c) (c_satp c) (c_sip c).
Definition set_c_stvec (x : Z) (c : scsrs) : scsrs :=
  mk_scsrs (c_sstatus c) (c_sepc c) (c_scause c) (c_stval c) x (c_satp c) (c_sip c).
Definition set_c_satp (x : Z) (c : scsrs) : scsrs :=
  mk_scsrs (c_sstatus c) (c_sepc c) (c_scause c) (c_stval c) (c_stvec c) x (c_sip c).
Definition set_c_sip (x : Z) (c : scsrs) : scsrs :=
  mk_scsrs (c_sstatus c) (c_sepc c) (c_scause c) (c_stval c) (c_stvec c) (c_satp c) x.

Record trst := mk_trst {
  tr_k : kst;
  tr_c : scsrs;
  tr_v : vdisk;
  tr_claims : list Z;  (* interrupts that the PLIC has pending for this hart *)
  tr_mmio : list (Z * Z);  (* writes to the PLIC *)
  tr_started : bool;  (* started, of main.c *)
}.

Definition set_tr_k (x : kst) (s : trst) : trst :=
  mk_trst x (tr_c s) (tr_v s) (tr_claims s) (tr_mmio s) (tr_started s).
Definition set_tr_c (x : scsrs) (s : trst) : trst :=
  mk_trst (tr_k s) x (tr_v s) (tr_claims s) (tr_mmio s) (tr_started s).
Definition set_tr_v (x : vdisk) (s : trst) : trst :=
  mk_trst (tr_k s) (tr_c s) x (tr_claims s) (tr_mmio s) (tr_started s).
Definition set_tr_claims (x : list Z) (s : trst) : trst :=
  mk_trst (tr_k s) (tr_c s) (tr_v s) x (tr_mmio s) (tr_started s).
Definition set_tr_mmio (x : list (Z * Z)) (s : trst) : trst :=
  mk_trst (tr_k s) (tr_c s) (tr_v s) (tr_claims s) x (tr_started s).
Definition set_tr_started (x : bool) (s : trst) : trst :=
  mk_trst (tr_k s) (tr_c s) (tr_v s) (tr_claims s) (tr_mmio s) x.

#[global] Instance lens_tr_k : Lens trst kst.
Proof. by exists tr_k set_tr_k; intros; destruct s. Defined.
#[global] Instance lens_tr_c : Lens trst scsrs.
Proof. by exists tr_c set_tr_c; intros; destruct s. Defined.
#[global] Instance lens_tr_fl : Lens trst flst := lens_trans lens_tr_k lens_ks_fl.
#[global] Instance lens_tr_cn : Lens trst cnst := lens_trans lens_tr_k lens_ks_cn.
#[global] Instance lens_tr_fs : Lens trst fsst := lens_trans lens_tr_k lens_ks_fs.
#[global] Instance lens_tr_b : Lens trst bst := lens_trans lens_tr_fs lens_fs_b.
#[global] Instance lens_tr_p : Lens trst pst := lens_trans lens_tr_k lens_ks_p.
#[global] Instance lens_tr_km : Lens trst kmst := lens_trans lens_tr_k lens_ks_k.
#[global] Instance lens_tr_lk : Lens trst lks := lens_trans lens_tr_k lens_ks_lk.

(** What the disk driver uses: the buffers and all below them, and its own data. *)
#[global] Instance lens_tr_vt : Lens trst vtst.
Proof.
  exists (fun s => mk_vtst (lget (Lens := lens_tr_b) s) (tr_v s))
         (fun v s => set_tr_v (vt_d v) (lset (Lens := lens_tr_b) (vt_b v) s)).
  - by intros [] s.
  - intros s. cbn [vt_b vt_d]. rewrite (lset_lget (Lens := lens_tr_b)). by destruct s.
  - intros [b d] [b' d'] s. cbn [vt_b vt_d].
    change (lset b (set_tr_v d' (lset (Lens := lens_tr_b) b' s)))
      with (set_tr_v d' (lset (Lens := lens_tr_b) b (lset (Lens := lens_tr_b) b' s))).
    by rewrite (lset_lset (Lens := lens_tr_b)).
Defined.

(** ** CSRs

    sstatus without SIE is in the CSRs; SIE is [sie] of the cpu. *)
Definition SSTATUS_SPP : Z := Z.shiftl 1 8.
Definition SSTATUS_SPIE : Z := Z.shiftl 1 5.
Definition SSTATUS_SIE : Z := Z.shiftl 1 1.
Definition SATP_SV39 : Z := Z.shiftl 8 60.
Definition MAKE_SATP (pagetable : Z) : Z := Z.lor SATP_SV39 (Z.shiftr pagetable 12).

Definition r_sstatus : M trst Z :=
  i ← ↑ gets sie;
  x ← gets (fun s => c_sstatus (tr_c s));
  mret (Z.lor x (if (i : bool) then SSTATUS_SIE else 0)).
Definition w_sstatus (x : Z) : M trst unit :=
  ↑ modify (set_sie (has x SSTATUS_SIE));;
  ↑ modify (set_c_sstatus (Z.land x (Z.lnot SSTATUS_SIE))).
Definition r_sip : M trst Z := ↑ gets c_sip.
Definition w_sip (x : Z) : M trst unit := ↑ modify (set_c_sip x).
Definition r_sepc : M trst Z := ↑ gets c_sepc.
Definition w_sepc (x : Z) : M trst unit := ↑ modify (set_c_sepc x).
Definition w_stvec (x : Z) : M trst unit := ↑ modify (set_c_stvec x).
Definition r_satp : M trst Z := ↑ gets c_satp.
Definition w_satp (x : Z) : M trst unit := ↑ modify (set_c_satp x).
Definition r_scause : M trst Z := ↑ gets c_scause.
Definition r_stval : M trst Z := ↑ gets c_stval.
(** There is no TLB in the model: addresses are translated by the page table. *)
Definition sfence_vma : M trst unit := mret tt.

(** ** plic.c *)
Definition UART0_IRQ : Z := 10.
Definition VIRTIO0_IRQ : Z := 1.
Definition PLIC_SENABLE (hart : Z) : Z := PLIC + 8320 + hart * 256.
Definition PLIC_SPRIORITY (hart : Z) : Z := PLIC + 2101248 + hart * 8192.
Definition PLIC_SCLAIM (hart : Z) : Z := PLIC + 2101252 + hart * 8192.

Definition mmio_write (a v : Z) : M trst unit :=
  modify (fun s => set_tr_mmio (tr_mmio s ++ [(a, v)]) s).

Definition plicinit : M trst unit :=
  mmio_write (PLIC + UART0_IRQ * 4) 1;;
  mmio_write (PLIC + VIRTIO0_IRQ * 4) 1.

Definition plicinithart : M trst unit :=
  hart ← ↑ gets hart;
  mmio_write (PLIC_SENABLE hart) (Z.lor (Z.shiftl 1 UART0_IRQ) (Z.shiftl 1 VIRTIO0_IRQ));;
  mmio_write (PLIC_SPRIORITY hart) 0.

(** Reading the claim register takes the next pending interrupt, 0 if there is none. *)
Definition plic_claim : M trst Z :=
  l ← gets tr_claims;
  modify (set_tr_claims (tail l));;
  mret (default 0 (head l)).

Definition plic_complete (irq : Z) : M trst unit :=
  hart ← ↑ gets hart;
  mmio_write (PLIC_SCLAIM hart) irq.

(** ** trap.c *)

Definition trapinit : M trst unit := ↑ initlock tickslock.

Definition clockintr : M trst unit :=
  ↑ acquire tickslock;;
  ↑ modify (fun s => set_ks_ticks (u32 (ks_ticks s + 1)) s);;
  ↑ wakeup ticks_chan;;
  ↑ release tickslock.

Section trap.
(** Link-time addresses, what the disk's registers answer, and the bytes that
    fstat leaks. *)
Context (end_ trampoline forkret_addr kernelvec_addr uservec_addr userret_addr usertrap_addr : Z).
Context (vreg : Z -> Z) (pad : list Z).

Definition trapinithart : M trst unit := w_stvec kernelvec_addr.

Definition devintr : M trst Z :=
  scause ← r_scause;
  if has scause (2 ^ 63) && (Z.land scause 255 =? 9) then
    irq ← plic_claim;
    (if irq =? UART0_IRQ then ↑ uartintr
     else if irq =? VIRTIO0_IRQ then ↑ virtio_disk_intr vreg
     else if negb (irq =? 0) then
       ↑ printf (str "unexpected interrupt irq=%d" ++ [newline]) [AInt irq]
     else mret tt);;
    when (negb (irq =? 0)) (plic_complete irq);;
    mret 1
  else if scause =? 2 ^ 63 + 1 then
    hart ← ↑ gets hart;
    when (hart =? 0) clockintr;;
    sip ← r_sip;
    w_sip (Z.land sip (Z.lnot 2));;
    mret 2
  else mret 0.

(** usertrapret up to the call of userret: its address and its two arguments. *)
Definition usertrapret : M trst (Z * Z * Z) :=
  p ← ↑ curproc;
  ↑ intr_off;;
  w_stvec (TRAMPOLINE + (uservec_addr - trampoline));;
  satp ← r_satp;
  ↑ tf_set p TF_KERNEL_SATP satp;;
  kstack ← ↑ getp p p_kstack;
  ↑ tf_set p TF_KERNEL_SP (kstack + PGSIZE);;
  ↑ tf_set p TF_KERNEL_TRAP usertrap_addr;;
  hart ← ↑ gets hart;
  ↑ tf_set p TF_KERNEL_HARTID hart;;
  x ← r_sstatus;
  w_sstatus (Z.lor (Z.land x (Z.lnot SSTATUS_SPP)) SSTATUS_SPIE);;
  epc ← ↑ tf_get p TF_EPC;
  w_sepc epc;;
  pt ← ↑ getp p p_pagetable;
  mret (TRAMPOLINE + (userret_addr - trampoline), TRAPFRAME, MAKE_SATP pt).

(** The end of usertrap, after the trap was handled, and after the yield. *)
Definition usertrap_end (which_dev : Z) : M trst (Z * Z * Z) :=
  p ← ↑ curproc;
  killed ← ↑ getp p p_killed;
  when (negb (killed =? 0)) (↑ exit end_ (-1));;
  when (which_dev =? 2) (↑ yield);;
  usertrapret.
Definition usertrap_yielded : M trst (Z * Z * Z) :=
  ↑ yield_back;;
  usertrapret.

Definition usertrap : M trst (Z * Z * Z) :=
  x ← r_sstatus;
  if has x SSTATUS_SPP then panic "usertrap: not from user mode" else
  w_stvec kernelvec_addr;;
  p ← ↑ curproc;
  sepc ← r_sepc;
  ↑ tf_set p TF_EPC sepc;;
  scause ← r_scause;
  if scause =? 8 then
    killed ← ↑ getp p p_killed;
    when (negb (killed =? 0)) (↑ exit end_ (-1));;
    epc ← ↑ tf_get p TF_EPC;
    ↑ tf_set p TF_EPC (u64 (epc + 4));;
    ↑ intr_on;;
    ↑ syscall end_ trampoline forkret_addr pad;;
    usertrap_end 0
  else
    which_dev ← devintr;
    if negb (which_dev =? 0) then usertrap_end which_dev else
    pid ← ↑ getp p p_pid;
    ↑ printf (str "usertrap(): unexpected scause %p pid=%d" ++ [newline]) [AInt scause; AInt pid];;
    sepc ← r_sepc;
    stval ← r_stval;
    ↑ printf (str "            sepc=%p stval=%p" ++ [newline]) [AInt sepc; AInt stval];;
    ↑ setp p (set_p_killed 1);;
    usertrap_end 0.

(** The end of kerneltrap, with its two locals, also after the yield. *)
Definition kerneltrap_end (sepc sstatus : Z) : M trst unit :=
  w_sepc sepc;;
  w_sstatus sstatus.
Definition kerneltrap_yielded (sepc sstatus : Z) : M trst unit :=
  ↑ yield_back;;
  kerneltrap_end sepc sstatus.

Definition kerneltrap : M trst unit :=
  sepc ← r_sepc;
  sstatus ← r_sstatus;
  scause ← r_scause;
  if negb (has sstatus SSTATUS_SPP) then panic "kerneltrap: not from supervisor mode" else
  i ← ↑ gets sie;
  if (i : bool) then panic "kerneltrap: interrupts enabled" else
  which_dev ← devintr;
  if which_dev =? 0 then
    ↑ printf (str "scause %p" ++ [newline]) [AInt scause];;
    sepc' ← r_sepc;
    stval ← r_stval;
    ↑ printf (str "sepc=%p stval=%p" ++ [newline]) [AInt sepc'; AInt stval];;
    panic "kerneltrap"
  else
    mine ← ↑ gets cproc;
    run ← match mine with
          | Some p => st ← ↑ getp p p_state; mret (bool_decide (st = RUNNING))
          | None => mret false
          end;
    when ((which_dev =? 2) && run) (↑ yield);;
    kerneltrap_end sepc sstatus.

(** forkret, the first thing that a new process runs. *)
Definition forkret_usertrapret (first : bool) : M trst (bool * (Z * Z * Z)) :=
  first' ← ↑ forkret first;
  r ← usertrapret;
  mret (first', r).

(** ** main.c, up to scheduler() *)

Definition kvminithart : M trst unit :=
  kpt ← ↑ gets ps_kpt;
  w_satp (MAKE_SATP kpt);;
  sfence_vma.

Definition main_cpu0 (etext pages : Z) : M trst unit :=
  ↑ consoleinit;;
  ↑ printfinit;;
  ↑ printf [newline] [];;
  ↑ printf (str "xv6 kernel is booting" ++ [newline]) [];;
  ↑ printf [newline] [];;
  ↑ kinit end_;;
  kpt ← ↑ kvminit etext trampoline;
  ↑ modify (set_ps_kpt kpt);;
  kvminithart;;
  ↑ procinit;;
  trapinit;;
  trapinithart;;
  plicinit;;
  plicinithart;;
  ↑ binit;;
  ↑ iinit;;
  ↑ fileinit;;
  ↑ virtio_disk_init vreg pages;;
  ↑ userinit end_ trampoline forkret_addr;;
  modify (set_tr_started true).

Definition main (etext pages : Z) : M trst unit :=
  hart ← ↑ gets hart;
  if hart =? 0 then main_cpu0 etext pages else
  started ← gets tr_started;
  if negb started then spin else
  ↑ printf (str "hart %d starting" ++ [newline]) [AInt hart];;
  kvminithart;;
  trapinithart;;
  plicinithart.

End trap.

(** ** start.c: from machine mode to main() *)

Record mst := mk_mst {
  ms_hartid : Z;  (* mhartid *)
  ms_mstatus : Z;
  ms_mepc : Z;
  ms_satp : Z;
  ms_medeleg : Z;
  ms_mideleg : Z;
  ms_sie : Z;
  ms_mscratch : Z;
  ms_mtvec : Z;
  ms_mie : Z;
  ms_tp : Z;
  ms_mem : gmap Z Z;  (* words in memory and in the CLINT *)
}.

Definition set_ms_mstatus (x : Z) (s : mst) : mst :=
  mk_mst (ms_hartid s) x (ms_mepc s) (ms_satp s) (ms_medeleg s) (ms_mideleg s) (ms_sie s) (ms_mscratch s) (ms_mtvec s) (ms_mie s) (ms_tp s) (ms_mem s).
Definition set_ms_mepc (x : Z) (s : mst) : mst :=
  mk_mst (ms_hartid s) (ms_mstatus s) x (ms_satp s) (ms_medeleg s) (ms_mideleg s) (ms_sie s) (ms_mscratch s) (ms_mtvec s) (ms_mie s) (ms_tp s) (ms_mem s).
Definition set_ms_satp (x : Z) (s : mst) : mst :=
  mk_mst (ms_hartid s) (ms_mstatus s) (ms_mepc s) x (ms_medeleg s) (ms_mideleg s) (ms_sie s) (ms_mscratch s) (ms_mtvec s) (ms_mie s) (ms_tp s) (ms_mem s).
Definition set_ms_medeleg (x : Z) (s : mst) : mst :=
  mk_mst (ms_hartid s) (ms_mstatus s) (ms_mepc s) (ms_satp s) x (ms_mideleg s) (ms_sie s) (ms_mscratch s) (ms_mtvec s) (ms_mie s) (ms_tp s) (ms_mem s).
Definition set_ms_mideleg (x : Z) (s : mst) : mst :=
  mk_mst (ms_hartid s) (ms_mstatus s) (ms_mepc s) (ms_satp s) (ms_medeleg s) x (ms_sie s) (ms_mscratch s) (ms_mtvec s) (ms_mie s) (ms_tp s) (ms_mem s).
Definition set_ms_sie (x : Z) (s : mst) : mst :=
  mk_mst (ms_hartid s) (ms_mstatus s) (ms_mepc s) (ms_satp s) (ms_medeleg s) (ms_mideleg s) x (ms_mscratch s) (ms_mtvec s) (ms_mie s) (ms_tp s) (ms_mem s).
Definition set_ms_mscratch (x : Z) (s : mst) : mst :=
  mk_mst (ms_hartid s) (ms_mstatus s) (ms_mepc s) (ms_satp s) (ms_medeleg s) (ms_mideleg s) (ms_sie s) x (ms_mtvec s) (ms_mie s) (ms_tp s) (ms_mem s).
Definition set_ms_mtvec (x : Z) (s : mst) : mst :=
  mk_mst (ms_hartid s) (ms_mstatus s) (ms_mepc s) (ms_satp s) (ms_medeleg s) (ms_mideleg s) (ms_sie s) (ms_mscratch s) x (ms_mie s) (ms_tp s) (ms_mem s).
Definition set_ms_mie (x : Z) (s : mst) : mst :=
  mk_mst (ms_hartid s) (ms_mstatus s) (ms_mepc s) (ms_satp s) (ms_medeleg s) (ms_mideleg s) (ms_sie s) (ms_mscratch s) (ms_mtvec s) x (ms_tp s) (ms_mem s).
Definition set_ms_tp (x : Z) (s : mst) : mst :=
  mk_mst (ms_hartid s) (ms_mstatus s) (ms_mepc s) (ms_satp s) (ms_medeleg s) (ms_mideleg s) (ms_sie s) (ms_mscratch s) (ms_mtvec s) (ms_mie s) x (ms_mem s).
Definition set_ms_mem (x : gmap Z Z) (s : mst) : mst :=
  mk_mst (ms_hartid s) (ms_mstatus s) (ms_mepc s) (ms_satp s) (ms_medeleg s) (ms_mideleg s) (ms_sie s) (ms_mscratch s) (ms_mtvec s) (ms_mie s) (ms_tp s) x.

Definition MSTATUS_MPP_MASK : Z := Z.shiftl 3 11.
Definition MSTATUS_MPP_S : Z := Z.shiftl 1 11.
Definition MSTATUS_MIE : Z := Z.shiftl 1 3.
Definition SIE_SEIE : Z := Z.shiftl 1 9.
Definition SIE_STIE : Z := Z.shiftl 1 5.
Definition SIE_SSIE : Z := Z.shiftl 1 1.
Definition MIE_MTIE : Z := Z.shiftl 1 7.
Definition CLINT_MTIMECMP (hartid : Z) : Z := CLINT + 16384 + 8 * hartid.

(** The accessors of riscv.h that run in machine mode. *)
Definition r_mhartid : M mst Z := gets ms_hartid.
Definition r_mstatus : M mst Z := gets ms_mstatus.
Definition w_mstatus (x : Z) : M mst unit := modify (set_ms_mstatus x).
Definition w_mepc (x : Z) : M mst unit := modify (set_ms_mepc x).
Definition r_sie : M mst Z := gets ms_sie.
Definition w_sie (x : Z) : M mst unit := modify (set_ms_sie x).
Definition r_mie : M mst Z := gets ms_mie.
Definition w_mie (x : Z) : M mst unit := modify (set_ms_mie x).
Definition w_medeleg (x : Z) : M mst unit := modify (set_ms_medeleg x).
Definition w_mideleg (x : Z) : M mst unit := modify (set_ms_mideleg x).
Definition w_mtvec (x : Z) : M mst unit := modify (set_ms_mtvec x).
Definition w_mscratch (x : Z) : M mst unit := modify (set_ms_mscratch x).
Definition w_tp (x : Z) : M mst unit := modify (set_ms_tp x).

(** [timervec_addr] and [mscratch0] are link-time addresses; [mtime] is what
    CLINT_MTIME answers.  scratch[i] is the word at mscratch0 + 8 * (32 * id + i). *)
Definition timerinit (timervec_addr mscratch0 mtime : Z) : M mst unit :=
  id ← r_mhartid;
  let interval := 1000000 in
  modify (fun s => set_ms_mem (<[CLINT_MTIMECMP id := u64 (mtime + interval)]> (ms_mem s)) s);;
  let scratch := mscratch0 + 8 * (32 * id) in
  modify (fun s => set_ms_mem (<[scratch + 8 * 4 := CLINT_MTIMECMP id]> (ms_mem s)) s);;
  modify (fun s => set_ms_mem (<[scratch + 8 * 5 := interval]> (ms_mem s)) s);;
  w_mscratch scratch;;
  w_mtvec timervec_addr;;
  x ← r_mstatus;
  w_mstatus (Z.lor x MSTATUS_MIE);;
  x ← r_mie;
  w_mie (Z.lor x MIE_MTIE).

(** start(), up to [mret]. *)
Definition start (main_addr timervec_addr mscratch0 mtime : Z) : M mst unit :=
  x ← r_mstatus;
  let x := Z.land x (Z.lnot MSTATUS_MPP_MASK) in
  let x := Z.lor x MSTATUS_MPP_S in
  w_mstatus x;;
  w_mepc main_addr;;
  modify (set_ms_satp 0);;
  w_medeleg 65535;;
  w_mideleg 65535;;
  x ← r_sie;
  w_sie (Z.lor (Z.lor (Z.lor x SIE_SEIE) SIE_STIE) SIE_SSIE);;
  timerinit timervec_addr mscratch0 mtime;;
  id ← r_mhartid;
  w_tp (i32 id).
